(* ===== verification/_CoqProject ===== *)
-Q . S2P
Prelude.v
AvbUtil.v
Fips180.v
Crc32.v
Sha2.v
Sha2Spec.v
Rsa.v
Vbmeta.v
Descriptors.v
AvbOps.v
Cmdline.v
CmdlineSpec.v
SlotVerify.v
SlotSound.v
SlotEdge.v
BootCtl.v
CmdAvb.v
SecureBoot.v
Idme.v
IdmeSpec.v
IdmeBoot.v
IdmeCmd.v
Unlock.v
Bootm.v
Fastboot.v
FastbootSpec.v
FastbootLock.v
FastbootData.v
MmcBlock.v
MmcArea.v
Sparse.v
SparseSpec.v
FlashChain.v
PartTable.v
PartTableSpec.v
PartTableCard.v
PartTableStart.v
DeviceInit.v
PartTableFlash.v
HashTable.v
HashSpec.v
HashRefine.v
EnvFlags.v
EnvFlagsSpec.v
EnvText.v
EnvTextSpec.v
EnvBoard.v
UbootCrc.v
EnvCmd.v
EnvStore.v
