(* ===== verification/Prelude.v ===== *)
(** * The boot chain of the amlogic v901d platform

    This library models the code that decides, on a device of the board
    lagunaf, whether an operating system image is started: Android Verified
    Boot, the choice between the two slots, the authentication of the boot
    image, the unlock codes and the device data they are kept in, the command
    that puts these together, and fastboot with the writing of partitions, by
    which all of these can be changed.  Below, BL33 is
    [src/bootable/bootloader/uboot-amlogic/v901d/bl33] and UFBL is
    [src/bootable/bootloader/ufbl-features].

    ** The parts and how they interact

    [bootm] (BL33 [common/cmd_bootm.c]) first asks UFBL whether the device is
    unlocked by a code, which is kept in the IDME table of the device or set for
    one boot.  If it is not, the image at the address given must carry a
    certificate.  Then, when the environment says so, [avb_verify] (BL33
    [common/cmd_avb.c]) chooses a slot from the metadata in the partition "misc"
    and calls libavb on it with operations on the board's storage.  libavb
    (BL33 [lib/libavb]) loads the vbmeta images, checks their signatures, and
    follows their descriptors to the partitions.

    Fastboot (BL33 [drivers/usb/gadget/f_fastboot.c]) receives commands and
    downloads over USB.  Every command passes the lockdown of UFBL first.  It
    reads and changes the IDME table (unlock codes, flags, boot mode) and the
    lock variable that [avb_verify] reads, and hands downloads to
    [common/fb_mmc.c], which writes them to a partition as raw or sparse images
    ([common/aboot.c]) through the eMMC driver ([drivers/mmc]).

    All of them keep settings in the environment, variables by name, among them
    the active slot, the lock state and the boot arguments.  It is a hash table
    (BL33 [lib/hashtable.c]) with flags and callbacks per variable, printed to
    and parsed from an image that is kept on the card with a checksum.

    Partitions have names.  At every start [mmc_device_init] (BL33
    [drivers/mmc/aml_emmc_partition.c]) composes the table of them, of the
    board's own and those of a device tree or of the copy stored on the card,
    and makes the copy and the sectors of MBR and EBR agree with it; then it
    starts IDME, which loads its table from a boot area of the card and counts the
    boot.  Fastboot and the environment find their places in the table.

    ** The files

    - [Prelude]: outcomes of a run ([run], [comp]), machine integers, buffers,
      strings, heaps, and the tactics and lemmas on them.
    - [AvbUtil]: [avb_util.c].  [Crc32]: [avb_crc32.c].  [Sha2]:
      [avb_sha256.c], [avb_sha512.c], against the text of FIPS 180-4 in [Fips180],
      which shares nothing with the code, by [Sha2Spec].  [Rsa]: [avb_rsa.c],
      [avb_crypto.c].
    - [Vbmeta]: [avb_vbmeta_image.c].  [Descriptors]: [avb_descriptor.c], one
      function per kind of descriptor, [avb_footer.c].
    - [AvbOps]: the operations of [avb_ops.h] as a class, and the result types.
      [Cmdline]: [avb_cmdline.c], with the text it
      produces in [CmdlineSpec].  [SlotVerify]: [avb_slot_verify.c].
      [SlotSound] proves what a verified slot is; [SlotEdge] bounds the
      recursion and shows the corner cases.
    - [BootCtl]: [common/cmd_bootctl_avb.c], the slot metadata and its commands.
    - [CmdAvb]: [common/cmd_avb.c] and the lookup of a command in
      [common/command.c].
    - [SecureBoot]: UFBL [features/secure_boot] and the board's
      [secure_boot.c].
    - [Idme]: UFBL [features/idme].  [IdmeSpec] relates the buffer to an
      abstract list of entries; [IdmeBoot] is about the boot counter; [IdmeCmd]
      has the commands, the printing and the exports to the kernel.
    - [Unlock]: UFBL [features/unlock], [onetime_unlock], [fastboot_lockdown],
      [usb_update_verifier], and BL33 [common/amzn_lockdown.c].
    - [Bootm]: [common/cmd_bootm.c] with the image formats and number parsing
      it uses.
    - [Fastboot]: [drivers/usb/gadget/f_fastboot.c], with what leaves the device
      as a log of events.  [FastbootSpec] shows what a locked device does with
      any packet; [FastbootLock] is about unlocking, locking and the lock
      variable; [FastbootData] about downloads.
    - [MmcBlock]: [drivers/mmc/mmc_write.c] and the reading half and key area of
      [drivers/mmc/mmc.c], with their theorems.  [MmcArea]: selecting the boot
      areas of the card, which makes the eMMC the storage of IDME.
    - [Sparse]: [common/aboot.c] and [common/fb_mmc.c] over any block device.
      [SparseSpec] shows what images and erases do to the device, and takes the
      eMMC of [MmcBlock] as that device.
    - [FlashChain]: flashing from the packets of the download to the blocks.
    - [PartTable]: [drivers/mmc/aml_emmc_partition.c] and [disk/part_aml.c].
      [PartTableSpec]: the layout and the bytes of the stored table;
      [PartTableCard]: the sectors of MBR and EBR on a card; [PartTableStart]:
      the table at a start; [DeviceInit]: [mmc_device_init] as a whole, with the
      type of the table ([disk/part.c]) and IDME; [PartTableFlash]: flashing by
      name, and what goes wrong.
    - [HashTable]: the table of [lib/hashtable.c], the functions that change it
      taking the hooks of the environment as a class.  [HashSpec] has its
      invariant and the search; [HashRefine] shows that it is a finite map.
    - [EnvFlags]: [common/env_attr.c], [env_flags.c], [env_callback.c], the
      callbacks of this board and [getenv], which together are the hooks;
      [EnvFlagsSpec] has their lemmas.  [EnvText]: sorting, export and import
      ([lib/qsort.c] and the rest of [lib/hashtable.c]), with [EnvTextSpec].
      [EnvBoard]: the variables that the static lists of this board let be set.
    - [UbootCrc]: [lib/crc32.c].
    - [EnvCmd]: [common/cmd_nvedit.c], [env_common.c], [env_storage.c] and
      [env_mmc.c].  [EnvStore]: what setting, saving and loading do.

    ** How the code is represented

    An integer of [w] bits is a [Z] with the wrap-around written out ([u32],
    [s64] and so on), a buffer is a list of bytes, and reading or writing outside
    of it is [Crash OutOfBounds].  A failed [avb_abort] or a busy loop is
    [Crash Aborted], a null pointer [Crash NullDeref].  A function with effects
    is a [comp W A], a function from the state [W] to a result and a new state.
    Memory is the class [Heap]: every allocation may fail, and the theorems that
    do not assume a roomy heap hold for every pattern of failures.  Field
    access is by explicit offset where the code casts a buffer to a structure.

    Code outside the sources is a class: [AvbOps] (implemented by [CmdAvb]),
    [StoreOps], [BoardStore] and [Mmc] (storage drivers), [TomCrypt]
    (libtomcrypt, libtommath), [SecureChip] and [UnlockPlatform] (registers, hash
    engine, chip identity, random numbers, base 64), [Fdt] (libfdt),
    [FastbootPlatform] (memory, partitions, shell), [MmcHost] (the host
    controller and the card, with the laws [CardLaws] and [AreaLaws]), [BlockDev] (with the laws
    [DiskLaws], which the driver of [MmcBlock] satisfies), [Partitions] and
    [EnvWorld] (the globals of the environment, the settings compiled in, serial
    port and console).  What the theorems need of it is stated in their
    hypotheses, and every such theorem has a witness on a concrete instance.

    In the models of the boot code the environment is a finite map.
    [setenv_refines] relates it to the table.  The class [EnvHooks] stands between
    the table and its hooks: the theorems of [HashSpec] and [HashRefine] assume
    the laws [HookLaws], which [EnvFlagsSpec] proves of the hooks of the board.

    The loops run on the lists they scan.  Where they do not, a fuel is given:
    one unit per descriptor for the walk over the descriptors, shown to be
    enough by [avb_descriptor_get_all_correct]; three levels for the recursion
    over vbmeta images, shown to be enough by [vbmeta_recursion_bounded]; as many
    passes as the largest transfer fits into a range of blocks and one more, for
    the loops of the eMMC driver ([passes]), enough by [mmc_write_read]; and
    likewise for the filling of blocks ([fill_passes]), enough by
    [sparse_expands].  The probes of the table are as many as it has slots,
    enough as its size is prime ([hash_table_refines]); the gaps of the sort and
    the entries of an import are bounded by the length of the list and of the
    text ([names_sorted], [saved_environment_restored]); the search in a list of
    attributes has its length as fuel, which is not enough for an empty name, as
    the code then does not terminate ([attr_find_empty]).  Following the EBR
    sectors takes one unit for each; as many as there are partitions are enough
    for a chain that was written by this code ([table_survives_restart]), for a
    longer one the array ends first ([ebr_chain_overflows]), and none are for one
    that leads to itself and names no partition ([ebr_loop_never_ends]).

    ** What is shown

    - Soundness of the chain: [avb_slot_verify_locked_sound] (any platform),
      [board_locked_sound] (this board), [amzn_image_verify_sound] (the
      certificate), [locked_fastboot_commands] and [locked_console_safe] (what a
      locked device still does), and [do_bootm_verified], their composition.
      They hold as far as memory does not run out and keys are in the documented
      format; [rsa_verify_oom_accepts_forgery] shows the first is needed.
    - Locking and unlocking: [flash_unlock_unlocks], [relock_locks] and
      [flashing_sets_lock] show that the commands have the effect the checks of
      the boot read.
    - Writing: [download_stores] up to the buffer, [flash_write_inside] and
      [sparse_expands] from there to the partition, [flash_stores] for the whole,
      [fastboot_erase_clears] for erasing, and [mmc_write_read], [mmc_berase_clears], [key_area_protected],
      [key_write_read] and [key_erase_clears] on the card.
    - What the kernel is told: [avb_append_options_text],
      [avb_sub_cmdline_text] and [verified_state_in_bootargs].
    - Exactness of the pieces: CRC-32 and SHA-2 against their standards, RSA
      against modular exponentiation, UTF-8, string helpers, descriptors,
      properties, and completeness and bounds of the vbmeta check.
    - Slots: how tries run out, what is kept, what a corrupted metadata block
      becomes, and the limits of every field as an invariant of the commands.
    - Device data: reading, updating, generating and migrating the table refine
      operations on a list of named entries; the boot counter counts; no
      command breaks the table; the kernel sees exactly the exportable items.
    - Environment: [hash_table_refines] and [setenv_refines] (the table is the
      map), [readonly_kept] (flags are obeyed), [names_sorted],
      [saved_environment_restored] and [damaged_image_replaced] (the image on the
      card), [crc32_reference].  They hold at a start as well, when the lists of
      attributes have still to be looked for.
    - Partitions: [table_laid_out] (the layout keeps them apart and on the
      card), [flash_keeps_partitions] (so flashing one leaves the others alone),
      [table_survives_restart] (what a start stores the next one finds,
      and nothing changes then but the count of boots).
    - Images: what [bootm] hashes covers what it starts, and when the image it
      verified is the one it starts.
    - What goes wrong: [bootm_boots_unverified] (what decides is not what is
      booted), [ebr_chain_overflows], [entering_loses_variable] and
      [start_uses_defaults], each for every input of the kind; smaller examples
      next to the code they are about show where it departs from its
      documentation or its purpose.

    ** Not modelled

    Within these parts: printing on the console, the release of memory,
    [do_bootm_states] with everything that loads and starts a kernel, the USB
    descriptors and queues below fastboot, the slot commands of fastboot that the
    board does not register, and of the eMMC driver its initialisation, speed
    modes, tuning and firmware update, which are register sequences, the
    parsing of the device tree for partitions and the GPT, which the board is
    built without.  Outside of them: the U-Boot shell and other drivers, the
    subcommands of env that the board does not build, the Linux kernel and its drivers, the media modules, the wireless drivers, the OP-TEE
    driver, bionic and libcutils.  They are hardware access, concurrency or
    generic code that does not take part in the decision to boot. *)

From Stdlib Require Import String Ascii.
From stdpp Require Export prelude strings gmap.
From Stdlib Require Export ZArith Lia.

#[global] Open Scope Z_scope.

(** ** Outcomes of C code

    A run of a C function either returns or stops the boot: [avb_assert],
    [avb_fatal] and [avb_abort] call the board's [panic] (the sources are
    compiled with [AVB_ENABLE_DEBUG], so every assertion is live), and a read
    outside the object a pointer was derived from, or through a null pointer,
    has no defined result.  The last two are made visible as crashes so that
    their absence can be stated.  [NoFuel] is the outcome of a loop that has
    not ended within the number of iterations the model was given. *)

Inductive crash :=
| Aborted
| OutOfBounds
| NullDeref
| NoFuel.

Inductive run (A : Type) :=
| Ret (a : A)
| Crash (c : crash).
Arguments Ret {A} a.
Arguments Crash {A} c.

#[export] Instance crash_eq_dec : EqDecision crash.
Proof. solve_decision. Defined.
#[export] Instance run_eq_dec {A} `{EqDecision A} : EqDecision (run A).
Proof. solve_decision. Defined.

#[export] Instance run_ret : MRet run := fun A a => Ret a.
#[export] Instance run_bind : MBind run := fun A B f m =>
  match m with Ret a => f a | Crash c => Crash c end.

(** Computations over a world [W]: the store, the heap and the devices the
    code reaches through its callbacks. *)
Definition comp (W A : Type) : Type := W → run (A * W).

#[export] Instance comp_ret {W} : MRet (comp W) := fun A a w => Ret (a, w).
#[export] Instance comp_bind {W} : MBind (comp W) := fun A B f m w =>
  match m w with Ret (a, w') => f a w' | Crash c => Crash c end.

(** Running a pure computation that may crash inside a world. *)
Definition lift {W A} (m : run A) : comp W A :=
  fun w => match m with Ret a => Ret (a, w) | Crash c => Crash c end.

(** [avb_assert(cond)]. *)
Definition assert {W} (b : bool) : comp W unit :=
  fun w => if b then Ret (tt, w) else Crash Aborted.

Definition avb_abort {W A} : comp W A := fun _ => Crash Aborted.

(** A read or write through a null pointer. *)
Definition null_deref {W A} : comp W A := fun _ => Crash NullDeref.

(** The allocator of the board: whether a request of the given size is
    satisfied, and the world afterwards.  Nothing is assumed of it. *)
Class Heap (W : Type) := heap_alloc : Z → W → bool * W.

Definition malloc {W} `{Heap W} (size : Z) : comp W bool :=
  fun w => Ret (heap_alloc size w).

(** Two heaps to run examples on: one that never refuses, one that grants the
    given number of requests. *)
Definition roomy_heap : Heap unit := fun _ w => (true, w).
Definition budget_heap : Heap nat := fun _ w =>
  match w with O => (false, O) | S n => (true, n) end.

Lemma run_bind_Ret {A B} (m : run A) (f : A → run B) b :
  mbind f m = Ret b ↔ ∃ a, m = Ret a ∧ f a = Ret b.
Proof. destruct m; simpl; split; [eauto| |done|]; naive_solver. Qed.

Lemma comp_bind_Ret {W A B} (m : comp W A) (f : A → comp W B) w r :
  mbind f m w = Ret r ↔ ∃ a w', m w = Ret (a, w') ∧ f a w' = Ret r.
Proof.
  unfold mbind, comp_bind. destruct (m w) as [[a w']|]; naive_solver.
Qed.

(** Stepping a program forward. *)
Lemma comp_bind_run {W A B} (m : comp W A) (f : A → comp W B) w a w' :
  m w = Ret (a, w') → mbind f m w = f a w'.
Proof. unfold mbind, comp_bind. by intros ->. Qed.

Lemma lift_run {W A} (m : run A) (w : W) a : m = Ret a → lift m w = Ret (a, w).
Proof. by intros ->. Qed.

Lemma comp_bind_Crash {W A B} (m : comp W A) (f : A → comp W B) w c :
  mbind f m w = Crash c ↔
  m w = Crash c ∨ ∃ a w', m w = Ret (a, w') ∧ f a w' = Crash c.
Proof.
  unfold mbind, comp_bind. destruct (m w) as [[a w']|]; naive_solver.
Qed.

Lemma comp_ret_eq {W A} (a : A) (w : W) r :
  mret (M := comp W) a w = Ret r ↔ r = (a, w).
Proof. unfold mret, comp_ret. naive_solver. Qed.

Lemma lift_Ret {W A} (m : run A) (w : W) r :
  lift m w = Ret r ↔ ∃ a, m = Ret a ∧ r = (a, w).
Proof. unfold lift. destruct m; naive_solver. Qed.

Lemma assert_Ret {W} b (w : W) r :
  assert b w = Ret r ↔ b = true ∧ r = (tt, w).
Proof. unfold assert. destruct b; naive_solver. Qed.

Lemma malloc_Ret {W} `{Heap W} n (w : W) r :
  malloc n w = Ret r ↔ r = heap_alloc n w.
Proof. unfold malloc. naive_solver. Qed.

(** Computations that leave the world alone. *)
Definition keeps_world {W A} (m : comp W A) : Prop := ∀ w a w', m w = Ret (a, w') → w' = w.

Lemma keeps_ret {W A} (a : A) : keeps_world (W := W) (mret a).
Proof. by intros w b w' [= _ <-]. Qed.

Lemma keeps_bind {W A B} (m : comp W A) (f : A → comp W B) :
  keeps_world m → (∀ a, keeps_world (f a)) → keeps_world (mbind f m).
Proof. intros Hm Hf w b w' (a & w1 & E1 & E)%comp_bind_Ret. by rewrite (Hf _ _ _ _ E), (Hm _ _ _ E1). Qed.

Lemma keeps_lift {W A} (m : run A) : keeps_world (W := W) (lift m).
Proof. by intros w a w' (b & _ & [= _ ->])%lift_Ret. Qed.

Lemma keeps_malloc {W} `{Heap W} size :
  (∀ n w, (heap_alloc n w).2 = w) → keeps_world (malloc size).
Proof. intros Hh w a w' [= E]. pose proof (Hh size w) as E'. by rewrite E in E'. Qed.

Create HintDb keeps.
#[export] Hint Resolve keeps_ret keeps_bind keeps_lift keeps_malloc : keeps.

(** Computations after which the world is related to the one before. *)
Section Preserves.
Context {W : Type} (R : relation W) `{!PreOrder R}.

Definition preserves {A} (m : comp W A) : Prop := ∀ w a w', m w = Ret (a, w') → R w w'.

Lemma preserves_ret {A} (a : A) : preserves (mret a).
Proof. by intros w b w' [= _ <-]. Qed.

Lemma preserves_bind {A B} (m : comp W A) (f : A → comp W B) :
  preserves m → (∀ a, preserves (f a)) → preserves (mbind f m).
Proof. intros Hm Hf w b w' (a & w1 & E1 & E)%comp_bind_Ret. etrans; [by eapply Hm|by eapply Hf]. Qed.

Lemma preserves_keeps {A} (m : comp W A) : keeps_world m → preserves m.
Proof. intros Hm w a w' E. by rewrite (Hm _ _ _ E). Qed.

Lemma preserves_crash {A} c : preserves (A := A) (fun _ => Crash c).
Proof. by intros w a w'. Qed.
End Preserves.

Create HintDb preserves.
#[export] Hint Resolve preserves_crash : preserves.
#[export] Hint Extern 1 (preserves _ (mret _)) => apply preserves_ret; apply _ : preserves.
#[export] Hint Extern 5 (preserves _ (lift _)) => apply preserves_keeps; [apply _|apply keeps_lift] : preserves.

(** Walks through a program along its binds and cases. *)
Ltac preserve_step :=
  lazymatch goal with
  | |- preserves _ (mbind _ _) => apply preserves_bind; [apply _| |intros ?]
  | |- preserves _ (match ?x with _ => _ end) => destruct x
  | |- preserves _ (let _ := _ in _) => cbv zeta
  | |- ∀ _, preserves _ _ => intros ?
  end.
Ltac preserve := repeat first [preserve_step | solve [eauto 3 with preserves]].

(** Splits hypotheses [prog w = Ret r] along the program's binds. *)
Ltac run_inv_step :=
  match goal with
  | H : mbind _ _ _ = Ret _ |- _ =>
      apply comp_bind_Ret in H as (? & ? & ? & H)
  | H : mbind _ _ = Ret _ |- _ =>
      apply run_bind_Ret in H as (? & ? & H)
  | H : mret _ _ = Ret _ |- _ => apply comp_ret_eq in H
  | H : lift _ _ = Ret _ |- _ => apply lift_Ret in H as (? & ? & H)
  | H : assert _ _ = Ret _ |- _ => apply assert_Ret in H as (? & H)
  | H : malloc _ _ = Ret _ |- _ => apply malloc_Ret in H
  | H : avb_abort _ = Ret _ |- _ => discriminate H
  end.
Ltac run_inv := repeat (run_inv_step; simplify_eq).

(** Case analysis on the scrutinee of a [match] or [if] of a hypothesis. *)
Ltac case_hyp H :=
  match type of H with
  | context [match ?x with _ => _ end] =>
      lazymatch x with
      | context [match _ with _ => _ end] => fail
      | _ => destruct x eqn:?
      end
  end.

(** ** Machine words

    A w-bit unsigned integer is a [Z]; the wrap-around of each width is
    written where the C type forces it. *)

Definition u8 (x : Z) : Z := x mod 0x100.
Definition u32 (x : Z) : Z := x mod 0x100000000.
Definition u64 (x : Z) : Z := x mod 0x10000000000000000.

(** Conversion to a signed 32-bit integer. *)
Definition s32 (x : Z) : Z := let y := u32 x in if y <? 0x80000000 then y else y - 0x100000000.

Definition s64 (x : Z) : Z :=
  let y := u64 x in if y <? 0x8000000000000000 then y else y - 0x10000000000000000.

Notation "'U32_MAX'" := 0xffffffff (only parsing) : Z_scope.
Notation "'U64_MAX'" := 0xffffffffffffffff (only parsing) : Z_scope.

Definition is_u8 (x : Z) : Prop := 0 ≤ x < 0x100.
Definition is_u32 (x : Z) : Prop := 0 ≤ x < 0x100000000.
Definition is_u64 (x : Z) : Prop := 0 ≤ x < 0x10000000000000000.

#[export] Instance is_u8_dec x : Decision (is_u8 x).
Proof. unfold is_u8. apply _. Defined.
#[export] Instance is_u32_dec x : Decision (is_u32 x).
Proof. unfold is_u32. apply _. Defined.
#[export] Instance is_u64_dec x : Decision (is_u64 x).
Proof. unfold is_u64. apply _. Defined.

Create HintDb words.
Create Rewrite HintDb words.

Lemma u8_range x : is_u8 (u8 x).
Proof. apply Z.mod_pos_bound; lia. Qed.
Lemma u32_range x : is_u32 (u32 x).
Proof. apply Z.mod_pos_bound; lia. Qed.
Lemma u64_range x : is_u64 (u64 x).
Proof. apply Z.mod_pos_bound; lia. Qed.
Lemma u8_small x : is_u8 x → u8 x = x.
Proof. apply Z.mod_small. Qed.
Lemma u32_small x : is_u32 x → u32 x = x.
Proof. apply Z.mod_small. Qed.
Lemma u64_small x : is_u64 x → u64 x = x.
Proof. apply Z.mod_small. Qed.
Lemma u32_add_u32 x y : u32 (u32 x + y) = u32 (x + y).
Proof. apply Zplus_mod_idemp_l. Qed.
Lemma s32_small x : 0 ≤ x < 0x80000000 → s32 x = x.
Proof.
  intros. unfold s32. rewrite u32_small by (unfold is_u32; lia).
  by rewrite (proj2 (Z.ltb_lt _ _)) by lia.
Qed.
Lemma s64_u64 x : -0x8000000000000000 ≤ x < 0x8000000000000000 → s64 (u64 x) = x.
Proof.
  intros. unfold s64, u64. rewrite Zmod_mod. destruct (Z_lt_le_dec x 0).
  - replace (x mod 0x10000000000000000) with (x + 0x10000000000000000)
      by (apply Z.mod_unique_pos with (-1); lia).
    rewrite (proj2 (Z.ltb_ge _ _)) by lia. lia.
  - rewrite Z.mod_small by lia. by rewrite (proj2 (Z.ltb_lt _ _)) by lia.
Qed.
Lemma s64_add_u64 x y : s64 (x + u64 y) = s64 (u64 (x + y)).
Proof. unfold s64, u64. by rewrite Zmod_mod, Zplus_mod_idemp_r. Qed.
Lemma s32_nonzero x : is_u32 x → x ≠ 0 → s32 x ≠ 0.
Proof.
  unfold is_u32, s32. intros Hx Hz. rewrite u32_small by done.
  destruct (Z.ltb_spec x 0x80000000); lia.
Qed.

Lemma is_u32_u64 x : is_u32 x → is_u64 x.
Proof. unfold is_u32, is_u64. lia. Qed.
#[export] Hint Resolve u8_range u32_range u64_range is_u32_u64 : words.
#[export] Hint Rewrite u8_small u32_small u64_small using (auto with words) : words.

(** A value within w bits is its own low part; the bitwise operations keep
    the bound. *)
Lemma bits_bound n x : 0 ≤ n → 0 ≤ x < 2 ^ n ↔ Z.land x (Z.ones n) = x.
Proof.
  intros. rewrite Z.land_ones by done. split; [apply Z.mod_small|].
  intros <-. apply Z.mod_pos_bound, Z.pow_pos_nonneg; lia.
Qed.

Lemma lor_bound n a b :
  0 ≤ n → 0 ≤ a < 2 ^ n → 0 ≤ b < 2 ^ n → 0 ≤ Z.lor a b < 2 ^ n.
Proof.
  intros Hn. rewrite !bits_bound by done. intros Ha Hb.
  by rewrite Z.land_lor_distr_l, Ha, Hb.
Qed.

Lemma lxor_bound n a b :
  0 ≤ n → 0 ≤ a < 2 ^ n → 0 ≤ b < 2 ^ n → 0 ≤ Z.lxor a b < 2 ^ n.
Proof.
  intros Hn. rewrite !bits_bound by done. intros Ha Hb.
  rewrite <-Ha, <-Hb. apply Z.bits_inj'; intros i ?.
  rewrite !Z.land_spec, !Z.lxor_spec, !Z.land_spec.
  by destruct (Z.testbit a i), (Z.testbit b i), (Z.testbit (Z.ones n) i).
Qed.

Lemma land_bound n a b : 0 ≤ n → 0 ≤ a < 2 ^ n → 0 ≤ Z.land a b < 2 ^ n.
Proof.
  intros Hn. rewrite !bits_bound by done. intros Ha.
  by rewrite <-Z.land_assoc, (Z.land_comm b), Z.land_assoc, Ha.
Qed.

(** Disjoint bits: [lor] of a multiple of [2^n] and a value below it adds. *)
Lemma lor_shift_add n a b :
  0 ≤ n → 0 ≤ b < 2 ^ n → Z.lor (a * 2 ^ n) b = a * 2 ^ n + b.
Proof.
  intros Hn Hb. rewrite <-Z.shiftl_mul_pow2 by done.
  rewrite Z.add_nocarry_lxor; [symmetry; apply Z.lxor_lor|];
  apply Z.bits_inj'; intros i Hi;
  rewrite Z.land_spec, Z.bits_0, Z.shiftl_spec by done;
  (destruct (Z_lt_le_dec i n);
   [by rewrite (Z.testbit_neg_r a) by lia|
    rewrite <-(Z.mod_small b (2 ^ n)), Z.mod_pow2_bits_high by lia;
    apply andb_false_r]).
Qed.

(** ** Byte strings

    Memory contents are lists of bytes; a C string is the list of its
    characters without the terminator. *)

Notation bytes := (list Z).

Definition bytes_ok (l : bytes) : Prop := Forall is_u8 l.
#[export] Instance bytes_ok_dec l : Decision (bytes_ok l).
Proof. unfold bytes_ok. apply _. Defined.

Definition zlen {A} (l : list A) : Z := Z.of_nat (length l).

Definition slice {A} (l : list A) (off n : Z) : list A :=
  take (Z.to_nat n) (drop (Z.to_nat off) l).

(** A read of [n] bytes at [off] of the object [l]. *)
Definition rd (l : bytes) (off n : Z) : run bytes :=
  if (0 <=? off) && (0 <=? n) && (off + n <=? zlen l)
  then Ret (slice l off n) else Crash OutOfBounds.

(** A property of every byte, decided by running through all of them. *)
Lemma byte_cases (P : Z → bool) :
  forallb P (map Z.of_nat (seq 0 256)) = true → ∀ b, is_u8 b → P b = true.
Proof.
  intros HP b Hb. unfold is_u8 in Hb. rewrite forallb_forall in HP. apply HP.
  apply in_map_iff. exists (Z.to_nat b). split; [lia|]. apply in_seq. lia.
Qed.

(** A write of the bytes [src] at [off] of the object [l]. *)
Definition wr (l : bytes) (off : Z) (src : bytes) : run bytes :=
  if (0 <=? off) && (off + zlen src <=? zlen l)
  then Ret (take (Z.to_nat off) l ++ src ++ drop (Z.to_nat (off + zlen src)) l)
  else Crash OutOfBounds.

Fixpoint le_decode (l : bytes) : Z :=
  match l with [] => 0 | b :: l => b + 256 * le_decode l end.

Fixpoint le_encode (n : nat) (x : Z) : bytes :=
  match n with O => [] | S n => x mod 256 :: le_encode n (x / 256) end.

Definition be_decode (l : bytes) : Z := foldl (fun a b => 256 * a + b) 0 l.

Definition be_encode (n : nat) (x : Z) : bytes := rev (le_encode n x).

(** Loads of a host (little-endian) word. *)
Definition load32 (l : bytes) (off : Z) : run Z :=
  bs ← rd l off 4; mret (le_decode bs).
Definition load64 (l : bytes) (off : Z) : run Z :=
  bs ← rd l off 8; mret (le_decode bs).

(** The characters of a literal. *)
Definition str (s : string) : bytes :=
  map (fun c => Z.of_nat (nat_of_ascii c)) (list_ascii_of_string s).

(** Decimal digits of a non-negative number, as printf's [%d] writes them; a
    number below [2^64] has at most twenty. *)
Fixpoint dec_digits (fuel : nat) (x : Z) : bytes :=
  match fuel with
  | O => []
  | S fuel =>
      (if x <? 10 then [] else dec_digits fuel (x / 10)) ++ [0x30 + x mod 10]
  end.
Definition dec_of_Z (x : Z) : bytes := dec_digits 20 x.

Create HintDb bytes.
Create Rewrite HintDb bytes.

Lemma zlen_nonneg {A} (l : list A) : 0 ≤ zlen l.
Proof. unfold zlen. lia. Qed.
Lemma zlen_nil {A} : zlen (@nil A) = 0.
Proof. done. Qed.
Lemma zlen_cons {A} (x : A) l : zlen (x :: l) = 1 + zlen l.
Proof. unfold zlen. simpl. lia. Qed.
Lemma zlen_app {A} (l k : list A) : zlen (l ++ k) = zlen l + zlen k.
Proof. unfold zlen. rewrite length_app. lia. Qed.
Lemma zlen_replicate {A} n (x : A) : zlen (replicate n x) = Z.of_nat n.
Proof. unfold zlen. by rewrite length_replicate. Qed.
Lemma zlen_slice {A} (l : list A) off n :
  0 ≤ off → 0 ≤ n → off + n ≤ zlen l → zlen (slice l off n) = n.
Proof. unfold zlen, slice. intros. rewrite length_take, length_drop. lia. Qed.
Lemma zlen_drop {A} (l : list A) n : 0 ≤ n ≤ zlen l → zlen (drop (Z.to_nat n) l) = zlen l - n.
Proof. unfold zlen. rewrite length_drop. lia. Qed.
Lemma slice_drop {A} (l : list A) off n m :
  0 ≤ off → 0 ≤ n → slice (drop (Z.to_nat off) l) n m = slice l (off + n) m.
Proof. intros. unfold slice. rewrite drop_drop. f_equal. f_equal. lia. Qed.
#[export] Hint Rewrite @zlen_nil @zlen_cons @zlen_app @zlen_replicate : bytes.
#[export] Hint Resolve zlen_nonneg : bytes.

Lemma slice_all {A} (l : list A) : slice l 0 (zlen l) = l.
Proof. unfold slice, zlen. rewrite Nat2Z.id. by apply take_ge. Qed.

Lemma slice_app_l {A} (l k : list A) off n :
  0 ≤ off → 0 ≤ n → off + n ≤ zlen l → slice (l ++ k) off n = slice l off n.
Proof.
  unfold slice, zlen. intros. rewrite drop_app_le by lia.
  rewrite take_app_le; [done|]. rewrite length_drop. lia.
Qed.

Lemma slice_app_r {A} (l k : list A) n :
  0 ≤ n → slice (l ++ k) (zlen l) n = slice k 0 n.
Proof. unfold slice, zlen. intros. rewrite Nat2Z.id, drop_app_length. done. Qed.

Lemma slice_slice {A} (l : list A) a n b m :
  0 ≤ a → 0 ≤ b → 0 ≤ m → b + m ≤ n →
  slice (slice l a n) b m = slice l (a + b) m.
Proof.
  unfold slice. intros. rewrite skipn_firstn_comm, take_take, drop_drop.
  f_equal; [lia|]. f_equal. lia.
Qed.

Lemma slice_ok (l : bytes) off n : bytes_ok l → bytes_ok (slice l off n).
Proof. intros. apply Forall_take, Forall_drop. done. Qed.
#[export] Hint Resolve slice_ok : bytes.

Lemma slice_split (l : bytes) a n m :
  0 ≤ a → 0 ≤ n → 0 ≤ m → slice l a (n + m) = slice l a n ++ slice l (a + n) m.
Proof.
  intros. unfold slice. rewrite !Z2Nat.inj_add by lia.
  by rewrite <- drop_drop, take_take_drop.
Qed.

Lemma rd_ok l off n :
  0 ≤ off → 0 ≤ n → off + n ≤ zlen l → rd l off n = Ret (slice l off n).
Proof.
  intros. unfold rd. by rewrite !(proj2 (Z.leb_le _ _)) by lia.
Qed.

Lemma rd_Ret l off n r :
  rd l off n = Ret r ↔
  0 ≤ off ∧ 0 ≤ n ∧ off + n ≤ zlen l ∧ r = slice l off n.
Proof.
  split; [|intros (?&?&?&->); by apply rd_ok].
  unfold rd. destruct (_ && _) eqn:E; [|done]. intros [= <-].
  rewrite !andb_true_iff, !Z.leb_le in E. naive_solver.
Qed.

Lemma wr_ok l off src :
  0 ≤ off → off + zlen src ≤ zlen l →
  wr l off src = Ret (take (Z.to_nat off) l ++ src ++ drop (Z.to_nat (off + zlen src)) l).
Proof. intros. unfold wr. by rewrite !(proj2 (Z.leb_le _ _)) by lia. Qed.

Lemma wr_app a b c src :
  zlen b = zlen src → wr (a ++ b ++ c) (zlen a) src = Ret (a ++ src ++ c).
Proof.
  intros E. rewrite wr_ok by (rewrite ?zlen_app; auto with bytes; unfold zlen in *; lia).
  unfold zlen in *. rewrite Nat2Z.id, take_app_length.
  replace (Z.to_nat _) with (length a + length b)%nat by lia.
  by rewrite <-drop_drop, !drop_app_length.
Qed.

Lemma wr_app_0 b c src : zlen b = zlen src → wr (b ++ c) 0 src = Ret (src ++ c).
Proof. apply (wr_app []). Qed.

Lemma lookup_total_app_add (l k : bytes) i : (l ++ k) !!! (length l + i)%nat = k !!! i.
Proof. by induction l. Qed.
Lemma lookup_total_app_0 (l k : bytes) : (l ++ k) !!! length l = k !!! 0%nat.
Proof. by induction l. Qed.

Lemma list_split_at {A} n (l : list A) :
  (n ≤ length l)%nat → ∃ a b, l = a ++ b ∧ length a = n.
Proof. intros. exists (take n l), (drop n l). rewrite take_drop, length_take. split; [done|lia]. Qed.

Lemma wr_length l off src l' : wr l off src = Ret l' → zlen l' = zlen l.
Proof.
  unfold wr. destruct (_ && _) eqn:E; [|done]. intros [= <-].
  rewrite andb_true_iff, !Z.leb_le in E. unfold zlen in *.
  rewrite !length_app, length_take, length_drop. lia.
Qed.

Lemma wr_Ret l off src l' :
  wr l off src = Ret l' ↔
  0 ≤ off ∧ off + zlen src ≤ zlen l
  ∧ l' = take (Z.to_nat off) l ++ src ++ drop (Z.to_nat (off + zlen src)) l.
Proof.
  split; [|intros (?&?&->); by apply wr_ok].
  unfold wr. destruct (_ && _) eqn:E; [|done]. intros [= <-].
  rewrite andb_true_iff, !Z.leb_le in E. naive_solver.
Qed.

(** What a write leaves where it wrote, and elsewhere. *)
Lemma slice_wr_same l off src l' : wr l off src = Ret l' → slice l' off (zlen src) = src.
Proof.
  intros (? & ? & ->)%wr_Ret. unfold slice, zlen in *.
  rewrite drop_app_length' by (rewrite length_take; lia).
  by rewrite Nat2Z.id, take_app_length.
Qed.

Lemma slice_wr_other l off src l' a n :
  wr l off src = Ret l' → 0 ≤ a → 0 ≤ n → a + n ≤ off ∨ off + zlen src ≤ a →
  slice l' a n = slice l a n.
Proof.
  intros (? & ? & ->)%wr_Ret Ha Hn Hd. unfold slice, zlen in *. destruct Hd as [Hd|Hd].
  - rewrite skipn_app, firstn_app, length_drop, length_take.
    replace (_ - _)%nat with O by lia. rewrite take_0, app_nil_r, skipn_firstn_comm, take_take.
    f_equal. lia.
  - rewrite app_assoc, drop_app_ge by (rewrite length_app, length_take; lia).
    rewrite length_app, length_take, drop_drop. do 2 f_equal. lia.
Qed.

Lemma le_decode_range l : bytes_ok l → 0 ≤ le_decode l < 256 ^ zlen l.
Proof.
  induction 1 as [|b l Hb _ IH]; simpl; [done|].
  rewrite zlen_cons, Z.pow_add_r, Z.pow_1_r by auto using zlen_nonneg with zarith.
  unfold is_u8 in Hb. nia.
Qed.

Lemma le_encode_length n x : length (le_encode n x) = n.
Proof. revert x. induction n; simpl; auto. Qed.

Lemma le_encode_ok n x : bytes_ok (le_encode n x).
Proof.
  revert x. induction n; simpl; constructor; [|apply IHn].
  apply Z.mod_pos_bound. lia.
Qed.
#[export] Hint Resolve le_encode_ok : bytes.

Lemma le_decode_encode n x : le_decode (le_encode n x) = x mod 256 ^ Z.of_nat n.
Proof.
  revert x. induction n as [|n IH]; intros x; [by rewrite Z.mod_1_r|].
  cbn [le_encode le_decode]. rewrite IH, Nat2Z.inj_succ, Z.pow_succ_r by lia.
  rewrite Z.rem_mul_r by lia. lia.
Qed.

Lemma le_encode_decode l : bytes_ok l → le_encode (length l) (le_decode l) = l.
Proof.
  induction 1 as [|b l Hb _ IH]; [done|]. cbn [length le_encode le_decode].
  unfold is_u8 in Hb. rewrite (Z.mul_comm 256), Z.div_add, Z_mod_plus_full by lia.
  by rewrite Z.div_small, Z.mod_small, Z.add_0_l, IH by lia.
Qed.

Lemma le_encode_zeros n m x :
  0 ≤ x < 256 ^ Z.of_nat n → le_encode (n + m) x = le_encode n x ++ replicate m 0.
Proof.
  revert x. induction n as [|n IH]; intros x Hx.
  - replace x with 0 by (simpl in Hx; lia). clear Hx. induction m as [|m IH]; [done|].
    cbn [Nat.add le_encode replicate app] in *. change (0 / 256) with 0. by rewrite IH.
  - cbn [Nat.add le_encode app]. rewrite Nat2Z.inj_succ, Z.pow_succ_r in Hx by lia.
    rewrite IH; [done|]. split; [apply Z.div_pos; lia|]. apply Z.div_lt_upper_bound; lia.
Qed.

Lemma le_encode_app n m x y :
  0 ≤ y < 256 ^ Z.of_nat n →
  le_encode (n + m) (y + 256 ^ Z.of_nat n * x) = le_encode n y ++ le_encode m x.
Proof.
  revert y. induction n as [|n IH]; intros y Hy.
  - replace y with 0 by (simpl in Hy; lia). cbn [Nat.add le_encode app]. f_equal.
    change (256 ^ Z.of_nat 0) with 1. lia.
  - cbn [Nat.add le_encode app]. rewrite Nat2Z.inj_succ, Z.pow_succ_r in * by lia.
    replace (y + 256 * 256 ^ Z.of_nat n * x) with (y + 256 ^ Z.of_nat n * x * 256) by ring.
    rewrite Z_mod_plus_full, Z.div_add by lia. rewrite IH; [done|].
    split; [apply Z.div_pos; lia|apply Z.div_lt_upper_bound; lia].
Qed.

Lemma le_decode_app l k : le_decode (l ++ k) = le_decode l + 256 ^ zlen l * le_decode k.
Proof.
  induction l as [|b l IH]; [simpl; change (zlen (@nil Z)) with 0; lia|].
  cbn [le_decode app]. rewrite IH, zlen_cons, Z.pow_add_r by auto using zlen_nonneg with zarith.
  lia.
Qed.

Lemma be_decode_app l k : be_decode (l ++ k) = be_decode l * 256 ^ zlen k + be_decode k.
Proof.
  unfold be_decode. rewrite foldl_app. generalize (foldl (λ a b, 256 * a + b) 0 l).
  induction k as [|b k IH] using rev_ind; intros a; [simpl; change (zlen (@nil Z)) with 0; lia|].
  rewrite !foldl_app, IH, zlen_app, Z.pow_add_r by auto using zlen_nonneg with zarith.
  simpl. change (zlen [b]) with 1. lia.
Qed.

Lemma be_decode_rev l : be_decode (rev l) = le_decode l.
Proof.
  induction l as [|b l IH]; [done|]. simpl rev. rewrite be_decode_app, IH.
  change (zlen [b]) with 1. cbn. lia.
Qed.

Lemma be_encode_length n x : length (be_encode n x) = n.
Proof. unfold be_encode. by rewrite length_rev, le_encode_length. Qed.

Lemma be_decode_encode n x : be_decode (be_encode n x) = x mod 256 ^ Z.of_nat n.
Proof. unfold be_encode. by rewrite be_decode_rev, le_decode_encode. Qed.

Lemma be_encode_app n m x y :
  0 ≤ y < 256 ^ Z.of_nat n →
  be_encode (n + m) (y + 256 ^ Z.of_nat n * x) = be_encode m x ++ be_encode n y.
Proof. intros. unfold be_encode. rewrite le_encode_app by done. apply rev_app_distr. Qed.

Lemma be_decode_range l : bytes_ok l → 0 ≤ be_decode l < 256 ^ zlen l.
Proof.
  intros Hl. rewrite <-(rev_involutive l), be_decode_rev.
  replace (zlen (rev (rev l))) with (zlen (rev l)) by (unfold zlen; by rewrite !length_rev).
  apply le_decode_range, Forall_rev, Hl.
Qed.

Lemma be_decode_zeros n l : be_decode (replicate n 0 ++ l) = be_decode l.
Proof. induction n as [|n IH]; [done|]. exact IH. Qed.

Lemma slice_app_skip {A} (l k : list A) off n :
  zlen l ≤ off → slice (l ++ k) off n = slice k (off - zlen l) n.
Proof.
  unfold slice, zlen. intros. rewrite drop_app_ge by lia. do 2 f_equal. lia.
Qed.

Lemma be_encode_ok n x : bytes_ok (be_encode n x).
Proof. apply Forall_rev, le_encode_ok. Qed.
#[export] Hint Resolve be_encode_ok : bytes.

Lemma zlen_be_encode n x : zlen (be_encode n x) = Z.of_nat n.
Proof. unfold zlen. by rewrite be_encode_length. Qed.
#[export] Hint Rewrite zlen_be_encode : bytes.

Lemma slice_full {A} (l : list A) n : n = zlen l → slice l 0 n = l.
Proof. intros ->. apply slice_all. Qed.

Lemma slice_app_take {A} (l k : list A) n : n = zlen l → slice (l ++ k) 0 n = l.
Proof. intros ->. rewrite slice_app_l by (auto using zlen_nonneg with zarith). apply slice_all. Qed.

(** Powers of two as masks. *)
Lemma land_ones_0 k x : 0 ≤ k → Z.land x (2 ^ k - 1) = x mod 2 ^ k.
Proof. intros. by rewrite <-Z.land_ones, Z.ones_equiv by done. Qed.

(** ** C strings behind a pointer *)

(** The characters up to the NUL. *)
Fixpoint c_str (p : bytes) : run bytes :=
  match p with
  | [] => Crash OutOfBounds
  | c :: p => if c =? 0 then Ret [] else s ← c_str p; Ret (c :: s)
  end.

(** [strcmp(p, lit) == 0], [lit] given without its NUL; reading stops at the
    first difference. *)
Fixpoint c_streq (p lit : bytes) : run bool :=
  match p with
  | [] => Crash OutOfBounds
  | c :: p =>
      match lit with
      | [] => Ret (c =? 0)
      | l :: lit => if c =? l then c_streq p lit else Ret false
      end
  end.

(** [memcmp(buf, key, sizeof(key)) == 0], which stops at the first difference. *)
Fixpoint memcmp_eq (buf key : bytes) : run bool :=
  match key, buf with
  | [], _ => Ret true
  | k :: key, b :: buf => if k =? b then memcmp_eq buf key else Ret false
  | _ :: _, [] => Crash OutOfBounds
  end.

(** The string in a buffer that it may fill. *)
Fixpoint cut (buf : bytes) : bytes :=
  match buf with
  | [] => []
  | c :: buf => if c =? 0 then [] else c :: cut buf
  end.

(** The digits of the formats [%x] and [%llx]. *)
Definition hex_digit (d : Z) : Z := if d <? 10 then 48 + d else 87 + d.
Fixpoint hex_digits (fuel : nat) (x : Z) : bytes :=
  match fuel with
  | O => []
  | S fuel => (if x <? 16 then [] else hex_digits fuel (x / 16)) ++ [hex_digit (x mod 16)]
  end.
Definition hex_of_Z (x : Z) : bytes := hex_digits 16 x.

(** [strncmp(s, prefix, strlen(prefix)) == 0] *)
Definition has_prefix (s prefix : bytes) : bool := bool_decide (take (length prefix) s = prefix).

Lemma has_prefix_lookup s p i c : has_prefix s p = true → p !! i = Some c → s !! i = Some c.
Proof.
  intros Hp%bool_decide_eq_true Hi. rewrite <- Hp in Hi. by apply lookup_take_Some in Hi as [? _].
Qed.

Lemma has_prefix_app s p q : has_prefix s (p ++ q) = true → has_prefix s p = true.
Proof.
  intros Hp%bool_decide_eq_true. apply bool_decide_eq_true. apply (f_equal (take (length p))) in Hp.
  rewrite take_take, take_app_length in Hp. by rewrite Nat.min_l in Hp by (rewrite length_app; lia).
Qed.

Lemma memcmp_eq_prefix buf key b : memcmp_eq buf key = Ret b → b = has_prefix buf key.
Proof.
  revert buf b. induction key as [|k key IH]; intros buf b E.
  { assert (b = true) as -> by (destruct buf; cbn in E; congruence). done. }
  destruct buf as [|c buf]; [done|]. cbn [memcmp_eq] in E. unfold has_prefix. cbn [length take].
  destruct (Z.eqb_spec k c) as [->|Hne].
  - apply IH in E as ->. unfold has_prefix. apply bool_decide_ext. split; congruence.
  - injection E as <-. symmetry. apply bool_decide_eq_false. congruence.
Qed.

Lemma cut_take l : ∃ n, cut l = take n l.
Proof.
  induction l as [|c l [n IH]]; [by exists O|]. cbn [cut].
  destruct (c =? 0); [by exists O|]. exists (S n). cbn. by rewrite IH.
Qed.

Lemma c_str_app s rest : Forall (λ c, c ≠ 0) s → c_str (s ++ 0 :: rest) = Ret s.
Proof.
  induction 1 as [|c s Hc _ IH]; [done|]. simpl. rewrite IH.
  by destruct (Z.eqb_spec c 0).
Qed.

Lemma c_str_unterminated s : Forall (λ c, c ≠ 0) s → c_str s = Crash OutOfBounds.
Proof.
  induction 1 as [|c s Hc _ IH]; [done|]. simpl. rewrite IH. by destruct (Z.eqb_spec c 0).
Qed.

Lemma c_streq_app s lit rest :
  Forall (λ c, c ≠ 0) s → Forall (λ c, c ≠ 0) lit →
  c_streq (s ++ 0 :: rest) lit = Ret (bool_decide (s = lit)).
Proof.
  intros Hs. revert lit. induction Hs as [|c s Hc _ IH]; intros [|l lit] Hl; simpl; try done.
  - apply Forall_cons in Hl as [Hl _]. by destruct l.
  - by rewrite (proj2 (Z.eqb_neq c 0)) by done.
  - apply Forall_cons in Hl as [_ Hl]. destruct (Z.eqb_spec c l) as [->|].
    + rewrite IH by done. f_equal. apply bool_decide_ext. naive_solver.
    + rewrite bool_decide_false; [done|]. naive_solver.
Qed.
