(* ===== verification/AvbUtil.v ===== *)
(** * Utilities of libavb (lib/libavb/avb_util.c, avb_sysdeps_posix.c)

    Byte-order conversions, the constant-time comparison, the overflow-checked
    additions, the UTF-8 check and the string helpers every other libavb
    component calls.  Buffers are byte lists, C strings are the lists of their
    characters, and each allocation consults the heap of the world. *)

From S2P Require Import Prelude.

(** ** Byte order *)

Definition avb_be32toh (in_ : Z) : Z :=
  let d := le_encode 4 in_ in
  let ret := Z.shiftl (d !!! 0%nat) 24 in
  let ret := Z.lor ret (Z.shiftl (d !!! 1%nat) 16) in
  let ret := Z.lor ret (Z.shiftl (d !!! 2%nat) 8) in
  Z.lor ret (d !!! 3%nat).

Definition avb_be64toh (in_ : Z) : Z :=
  let d := le_encode 8 in_ in
  let ret := Z.shiftl (d !!! 0%nat) 56 in
  let ret := Z.lor ret (Z.shiftl (d !!! 1%nat) 48) in
  let ret := Z.lor ret (Z.shiftl (d !!! 2%nat) 40) in
  let ret := Z.lor ret (Z.shiftl (d !!! 3%nat) 32) in
  let ret := Z.lor ret (Z.shiftl (d !!! 4%nat) 24) in
  let ret := Z.lor ret (Z.shiftl (d !!! 5%nat) 16) in
  let ret := Z.lor ret (Z.shiftl (d !!! 6%nat) 8) in
  Z.lor ret (d !!! 7%nat).

Definition avb_htobe32 (in_ : Z) : Z :=
  le_decode [Z.land (Z.shiftr in_ 24) 0xff; Z.land (Z.shiftr in_ 16) 0xff;
             Z.land (Z.shiftr in_ 8) 0xff; Z.land in_ 0xff].

Definition avb_htobe64 (in_ : Z) : Z :=
  le_decode [Z.land (Z.shiftr in_ 56) 0xff; Z.land (Z.shiftr in_ 48) 0xff;
             Z.land (Z.shiftr in_ 40) 0xff; Z.land (Z.shiftr in_ 32) 0xff;
             Z.land (Z.shiftr in_ 24) 0xff; Z.land (Z.shiftr in_ 16) 0xff;
             Z.land (Z.shiftr in_ 8) 0xff; Z.land in_ 0xff].

(** ** Comparison and checked addition *)

Fixpoint safe_memcmp_loop (us1 us2 : bytes) (n : nat) (result : Z) {struct n} : run Z :=
  match n with
  | O => Ret (if result =? 0 then 0 else 1)
  | S n =>
      match us1, us2 with
      | x :: us1, y :: us2 => safe_memcmp_loop us1 us2 n (Z.lor result (Z.lxor x y))
      | _, _ => Crash OutOfBounds
      end
  end.

Definition avb_safe_memcmp (s1 s2 : bytes) (n : Z) : run Z :=
  if n =? 0 then Ret 0 else safe_memcmp_loop s1 s2 (Z.to_nat n) 0.

(** [memcmp(a, b, n) == 0]. *)
Definition avb_memcmp_eq (s1 s2 : bytes) (n : Z) : run bool :=
  a ← rd s1 0 n; b ← rd s2 0 n; mret (bool_decide (a = b)).

(** The success flag and the new value of [*value]. *)
Definition avb_safe_add_to (value value_to_add : Z) : bool * Z :=
  let value' := u64 (value + value_to_add) in
  (negb (value' <? value), value').

Definition avb_safe_add (a b : Z) : bool * Z := avb_safe_add_to a b.

(** ** UTF-8 *)

Fixpoint validate_utf8_loop (data : bytes) (num_cc : Z) : bool :=
  match data with
  | [] => num_cc =? 0
  | c :: data =>
      if 0 <? num_cc then
        if Z.land c 0xc0 =? 0x80 then validate_utf8_loop data (num_cc - 1) else false
      else if c <? 0x80 then validate_utf8_loop data 0
      else if Z.land c 0xe0 =? 0xc0 then validate_utf8_loop data 1
      else if Z.land c 0xf0 =? 0xe0 then validate_utf8_loop data 2
      else if Z.land c 0xf8 =? 0xf0 then validate_utf8_loop data 3
      else false
  end.

Definition avb_validate_utf8 (data : bytes) (num_bytes : Z) : run bool :=
  l ← rd data 0 num_bytes; mret (validate_utf8_loop l 0).

(** ** Strings *)

Definition avb_str_concat (buf : bytes) (buf_size : Z) (str1 : bytes) (str1_len : Z)
    (str2 : bytes) (str2_len : Z) : run (bool * bytes) :=
  let '(ok, combined_len) := avb_safe_add str1_len str2_len in
  if negb ok then mret (false, buf)
  else if u64 (buf_size - 1) <? combined_len then mret (false, buf)
  else
    s1 ← rd str1 0 str1_len; buf ← wr buf 0 s1;
    s2 ← rd str2 0 str2_len; buf ← wr buf str1_len s2;
    buf ← wr buf combined_len [0];
    mret (true, buf).

(** The rest of the needle against the text at [haystack + n + 1]; the
    terminator of the haystack differs from every character of the needle. *)
Fixpoint strstr_rest (haystack needle : bytes) : bool :=
  match needle, haystack with
  | [], _ => true
  | _ :: _, [] => false
  | c :: needle, h :: haystack => if h =? c then strstr_rest haystack needle else false
  end.

Fixpoint avb_strstr (haystack needle : bytes) : option nat :=
  match haystack with
  | [] => None
  | h :: hs =>
      match needle with
      | c :: cs =>
          if (h =? c) && strstr_rest hs cs then Some O
          else S <$> avb_strstr hs needle
      | [] => S <$> avb_strstr hs needle
      end
  end.

Fixpoint avb_strv_find_str (strings : list bytes) (s : bytes) (str_size : Z)
    : option bytes :=
  match strings with
  | [] => None
  | x :: strings =>
      if (zlen x =? str_size) && bool_decide (x = take (Z.to_nat str_size) s)
      then Some x else avb_strv_find_str strings s str_size
  end.

Section Alloc.
Context {W : Type} `{Heap W}.

Definition avb_malloc (size : Z) : comp W bool := malloc size.

(** [avb_calloc]: the zeroed buffer, or [NULL]. *)
Definition avb_calloc (size : Z) : comp W (option bytes) :=
  ok ← avb_malloc size;
  mret (if (ok : bool) then Some (replicate (Z.to_nat size) 0) else None).

Definition avb_strdup (s : bytes) : comp W (option bytes) :=
  ok ← avb_malloc (u64 (zlen s + 1));
  mret (if (ok : bool) then Some s else None).

(** The tail of [avb_replace]: what remains of the input is appended. *)
Definition replace_finish (ret : option bytes) (s : bytes) : comp W (option bytes) :=
  match ret with
  | None => avb_strdup s
  | Some r =>
      ok ← avb_malloc (u64 (zlen r + zlen s + 1));
      if (ok : bool) then mret (Some (r ++ s)) else mret ret
  end.

(** One turn of [avb_replace]'s loop per fuel: [ret] is the string built so
    far, [str] the rest of the input.  When an allocation fails the function
    returns [ret] as it stands. *)
Fixpoint replace_loop (fuel : nat) (search repl : bytes) (ret : option bytes)
    (s : bytes) : comp W (option bytes) :=
  match fuel, avb_strstr s search with
  | S fuel, Some num_before =>
      let before := take num_before s in
      match ret with
      | None =>
          ok ← avb_malloc (u64 (zlen before + zlen repl + 1));
          if (ok : bool)
          then replace_loop fuel search repl (Some (before ++ repl))
                 (drop (num_before + length search) s)
          else mret None
      | Some r =>
          ok ← avb_malloc (u64 (zlen r + zlen before + zlen repl + 1));
          if (ok : bool)
          then replace_loop fuel search repl (Some (r ++ before ++ repl))
                 (drop (num_before + length search) s)
          else mret ret
      end
  | _, _ => replace_finish ret s
  end.

Definition avb_replace (s search repl : bytes) : comp W (option bytes) :=
  replace_loop (length s) search repl None s.

Definition AVB_STRDUPV_MAX_NUM_STRINGS : Z := 32.

(** The gathering loop of [avb_strdupv]: total length and string count. *)
Fixpoint strdupv_gather (strings : list bytes) (total_length num_strings : Z)
    : comp W Z :=
  match strings with
  | [] => mret total_length
  | s :: strings =>
      let '(ok, total_length) := avb_safe_add_to total_length (zlen s) in
      _ ← assert ok;
      let num_strings := num_strings + 1 in
      _ ← assert (negb (num_strings =? AVB_STRDUPV_MAX_NUM_STRINGS));
      strdupv_gather strings total_length num_strings
  end.

Definition avb_strdupv (strings : list bytes) : comp W (option bytes) :=
  total_length ← strdupv_gather strings 0 0;
  ok ← avb_malloc (u64 (total_length + 1));
  if (ok : bool) then
    let ret := concat strings in
    _ ← assert (zlen ret =? total_length);
    mret (Some ret)
  else mret None.

Definition hex_digits : bytes := str "0123456789abcdef".

Definition avb_bin2hex (data : bytes) : comp W (option bytes) :=
  ok ← avb_malloc (u64 (zlen data * 2 + 1));
  if (ok : bool) then
    mret (Some (concat (map (fun b =>
      [hex_digits !!! Z.to_nat (Z.shiftr b 4); hex_digits !!! Z.to_nat (Z.land b 0x0f)])
      data)))
  else mret None.

End Alloc.

(** [basename_loop n]: the last slash at an index below [n], as [str + n + 1]. *)
Fixpoint basename_loop (s : bytes) (n : nat) : option nat :=
  match n with
  | O => None
  | S n => if s !!! n =? 0x2f then Some (S n) else basename_loop s n
  end.

Definition avb_basename (s : bytes) : bytes :=
  if 2 <=? zlen s
  then match basename_loop s (length s - 1) with Some n => drop n s | None => s end
  else s.

Definition avb_uppercase (s : bytes) : bytes :=
  map (fun c => if (c <=? 0x7a) && (0x61 <=? c) then c - 0x20 else c) s.

(** [avb_div_by_10]: remainder and quotient. *)
Definition avb_div_by_10 (dividend : Z) : Z * Z := (u32 (dividend mod 10), dividend / 10).

(** ** Byte order: properties *)

Lemma lor_byte x b n :
  0 ≤ n → is_u8 b →
  Z.lor (Z.shiftl x (n + 8)) (Z.shiftl b n) = Z.shiftl (256 * x + b) n.
Proof.
  intros Hn Hb. rewrite Z.add_comm, <-Z.shiftl_shiftl, <-Z.shiftl_lor by lia.
  f_equal. rewrite Z.shiftl_mul_pow2, (lor_shift_add 8) by (done || lia). lia.
Qed.

Lemma lor_byte_last x b :
  is_u8 b → Z.lor (Z.shiftl x 8) b = 256 * x + b.
Proof.
  intros Hb. pose proof (lor_byte x b 0 ltac:(done) Hb) as E.
  by rewrite !Z.shiftl_0_r in E.
Qed.

Lemma be32toh_bytes x : avb_be32toh x = be_decode (le_encode 4 x).
Proof.
  pose proof (le_encode_ok 4 x) as Hb. unfold avb_be32toh. cbn [le_encode] in *.
  unfold bytes_ok in Hb. rewrite !Forall_cons in Hb. destruct Hb as (?&?&?&?&_).
  cbn -[Z.lor Z.shiftl Z.mul Z.modulo Z.div].
  rewrite (lor_byte _ _ 16), (lor_byte _ _ 8), lor_byte_last by (done || lia). lia.
Qed.

Lemma be64toh_bytes x : avb_be64toh x = be_decode (le_encode 8 x).
Proof.
  pose proof (le_encode_ok 8 x) as Hb. unfold avb_be64toh. cbn [le_encode] in *.
  unfold bytes_ok in Hb. rewrite !Forall_cons in Hb.
  destruct Hb as (?&?&?&?&?&?&?&?&_).
  cbn -[Z.lor Z.shiftl Z.mul Z.modulo Z.div].
  rewrite (lor_byte _ _ 48), (lor_byte _ _ 40), (lor_byte _ _ 32), (lor_byte _ _ 24),
    (lor_byte _ _ 16), (lor_byte _ _ 8), lor_byte_last by (done || lia). lia.
Qed.

Lemma be32toh_decode b :
  bytes_ok b → length b = 4%nat → avb_be32toh (le_decode b) = be_decode b.
Proof. intros Hb Hl. by rewrite be32toh_bytes, <-Hl, le_encode_decode. Qed.

Lemma be64toh_decode b :
  bytes_ok b → length b = 8%nat → avb_be64toh (le_decode b) = be_decode b.
Proof. intros Hb Hl. by rewrite be64toh_bytes, <-Hl, le_encode_decode. Qed.

Lemma be32toh_u32 x : is_u32 (avb_be32toh x).
Proof. rewrite be32toh_bytes. exact (be_decode_range _ (le_encode_ok 4 x)). Qed.
Lemma be64toh_u64 x : is_u64 (avb_be64toh x).
Proof. rewrite be64toh_bytes. exact (be_decode_range _ (le_encode_ok 8 x)). Qed.
#[export] Hint Resolve be32toh_u32 be64toh_u64 : words.

Lemma byte_at x n : 0 ≤ n → Z.land (Z.shiftr x n) 0xff = x / 2 ^ n mod 256.
Proof. intros. rewrite Z.shiftr_div_pow2 by done. apply (Z.land_ones _ 8). lia. Qed.

Lemma htobe32_encode x : avb_htobe32 x = le_decode (rev (le_encode 4 x)).
Proof.
  unfold avb_htobe32. rewrite !byte_at by lia.
  change (Z.land x 0xff) with (Z.land x (Z.ones 8)). rewrite Z.land_ones by lia.
  cbn [le_encode rev app]. rewrite !Z.div_div by lia. done.
Qed.

Lemma htobe64_encode x : avb_htobe64 x = le_decode (rev (le_encode 8 x)).
Proof.
  unfold avb_htobe64. rewrite !byte_at by lia.
  change (Z.land x 0xff) with (Z.land x (Z.ones 8)). rewrite Z.land_ones by lia.
  cbn [le_encode rev app]. rewrite !Z.div_div by lia. done.
Qed.

Lemma bytes_ok_rev l : bytes_ok l → bytes_ok (rev l).
Proof. intros. apply Forall_rev. done. Qed.

Lemma be32_roundtrip x : is_u32 x → avb_be32toh (avb_htobe32 x) = x.
Proof.
  intros Hx. rewrite htobe32_encode, be32toh_decode by auto using bytes_ok_rev with bytes.
  rewrite be_decode_rev, le_decode_encode. by apply u32_small.
Qed.

Lemma be64_roundtrip x : is_u64 x → avb_be64toh (avb_htobe64 x) = x.
Proof.
  intros Hx. rewrite htobe64_encode, be64toh_decode by auto using bytes_ok_rev with bytes.
  rewrite be_decode_rev, le_decode_encode. by apply u64_small.
Qed.

(** ** Comparison and addition: properties *)

Lemma lor_eq_0 a b : Z.lor a b = 0 ↔ a = 0 ∧ b = 0.
Proof. apply Z.lor_eq_0_iff. Qed.

Lemma safe_memcmp_loop_spec n us1 us2 result :
  (n ≤ length us1)%nat → (n ≤ length us2)%nat →
  safe_memcmp_loop us1 us2 n result =
    Ret (if bool_decide (result = 0 ∧ take n us1 = take n us2) then 0 else 1).
Proof.
  revert us1 us2 result. induction n as [|n IH]; intros us1 us2 result H1 H2.
  - cbn [safe_memcmp_loop take].
    destruct (Z.eqb_spec result 0); case_bool_decide; naive_solver.
  - destruct us1 as [|x us1], us2 as [|y us2]; simpl in H1, H2; try lia.
    cbn [safe_memcmp_loop]. rewrite IH by lia. cbn [take].
    erewrite bool_decide_ext; [reflexivity|]. rewrite lor_eq_0, Z.lxor_eq_0_iff.
    split; [by intros [[-> ->] ->]|by intros [-> [= -> ->]]].
Qed.

Lemma safe_memcmp_spec s1 s2 n :
  0 ≤ n → n ≤ zlen s1 → n ≤ zlen s2 →
  avb_safe_memcmp s1 s2 n =
    Ret (if bool_decide (slice s1 0 n = slice s2 0 n) then 0 else 1).
Proof.
  intros Hn H1 H2. unfold avb_safe_memcmp, slice. rewrite !drop_0.
  destruct (Z.eqb_spec n 0) as [->|]; [by rewrite bool_decide_eq_true_2|].
  unfold zlen in *. rewrite safe_memcmp_loop_spec by lia.
  erewrite bool_decide_ext; [reflexivity|]. tauto.
Qed.

(** A comparison that finds no difference has read equal bytes. *)
Lemma safe_memcmp_zero s1 s2 n :
  avb_safe_memcmp s1 s2 n = Ret 0 → slice s1 0 n = slice s2 0 n.
Proof.
  unfold avb_safe_memcmp, slice. rewrite !drop_0.
  destruct (Z.eqb_spec n 0) as [->|_]; [done|]. generalize (Z.to_nat n). clear n. intros n E.
  assert ((n ≤ length s1)%nat ∧ (n ≤ length s2)%nat) as [H1 H2].
  { revert s1 s2 E. generalize 0 at 1. induction n as [|n IH]; intros r s1 s2 E; [lia|].
    destruct s1 as [|x s1], s2 as [|y s2]; try discriminate E.
    apply IH in E. simpl. lia. }
  rewrite safe_memcmp_loop_spec in E by done. case_bool_decide; [tauto|discriminate E].
Qed.

Lemma safe_add_to_spec a b :
  is_u64 a → is_u64 b →
  avb_safe_add_to a b =
    if bool_decide (a + b ≤ U64_MAX) then (true, a + b) else (false, a + b - 2 ^ 64).
Proof.
  unfold is_u64, avb_safe_add_to, u64. intros Ha Hb. case_bool_decide.
  - rewrite Z.mod_small by lia. f_equal. apply negb_true_iff, Z.ltb_ge. lia.
  - assert ((a + b) mod 0x10000000000000000 = a + b - 2 ^ 64) as ->.
    { symmetry. apply Z.mod_unique_pos with 1; lia. }
    f_equal. apply negb_false_iff, Z.ltb_lt. lia.
Qed.

Lemma safe_add_true a b r :
  is_u64 a → is_u64 b → avb_safe_add a b = (true, r) → r = a + b ∧ is_u64 r.
Proof.
  intros Ha Hb. unfold avb_safe_add. rewrite safe_add_to_spec by done.
  unfold is_u64 in *. case_bool_decide; intros [= <-]; lia.
Qed.

(** The constant-time comparison returns 0 exactly when the first [n] bytes
    agree and 1 otherwise, and reads nothing beyond them. *)
Theorem avb_safe_memcmp_correct s1 s2 n :
  0 ≤ n → n ≤ zlen s1 → n ≤ zlen s2 →
  avb_safe_memcmp s1 s2 n =
    Ret (if bool_decide (slice s1 0 n = slice s2 0 n) then 0 else 1).
Proof. apply safe_memcmp_spec. Qed.

Lemma avb_safe_memcmp_correct_witness :
  avb_safe_memcmp [1; 2; 3] [1; 2; 4] 3 = Ret 1.
Proof. apply (avb_safe_memcmp_correct [1; 2; 3] [1; 2; 4] 3); done. Defined.

(** ** UTF-8: properties *)

(** The byte sequences the check takes as one character: a lead byte and as
    many continuation bytes as it announces. *)
Definition utf8_cont (c : Z) : Prop := 0x80 ≤ c < 0xc0.
Definition utf8_len (c : Z) : option nat :=
  if c <? 0x80 then Some 0%nat
  else if (0xc0 <=? c) && (c <? 0xe0) then Some 1%nat
  else if (0xe0 <=? c) && (c <? 0xf0) then Some 2%nat
  else if (0xf0 <=? c) && (c <? 0xf8) then Some 3%nat
  else None.
Definition utf8_char (l : bytes) : Prop :=
  ∃ c cc, l = c :: cc ∧ utf8_len c = Some (length cc) ∧ Forall utf8_cont cc.

Lemma cont_mask c : is_u8 c → (Z.land c 0xc0 =? 0x80) = true ↔ utf8_cont c.
Proof.
  intros Hc. unfold utf8_cont.
  rewrite <-Z.ltb_lt, <-Z.leb_le, <-andb_true_iff.
  apply eq_iff_eq_true, eqb_prop.
  by apply (byte_cases (fun c => Bool.eqb (Z.land c 0xc0 =? 0x80) ((0x80 <=? c) && (c <? 0xc0)))).
Qed.

Lemma validate_utf8_lead c data :
  is_u8 c →
  validate_utf8_loop (c :: data) 0 =
    match utf8_len c with
    | Some n => validate_utf8_loop data (Z.of_nat n)
    | None => false
    end.
Proof.
  intros Hc. cbn [validate_utf8_loop Z.ltb Z.compare]. unfold utf8_len.
  assert (E := λ P H, byte_cases P H c Hc).
  pose proof (E (fun c => Bool.eqb (Z.land c 0xe0 =? 0xc0) ((0xc0 <=? c) && (c <? 0xe0))) eq_refl) as E1.
  pose proof (E (fun c => Bool.eqb (Z.land c 0xf0 =? 0xe0) ((0xe0 <=? c) && (c <? 0xf0))) eq_refl) as E2.
  pose proof (E (fun c => Bool.eqb (Z.land c 0xf8 =? 0xf0) ((0xf0 <=? c) && (c <? 0xf8))) eq_refl) as E3.
  apply eqb_prop in E1, E2, E3. rewrite E1, E2, E3.
  repeat case_match; done.
Qed.

Lemma validate_utf8_conts k data :
  bytes_ok data →
  validate_utf8_loop data (Z.of_nat k) = true ↔
  ∃ cc rest, data = cc ++ rest ∧ length cc = k ∧ Forall utf8_cont cc ∧
             validate_utf8_loop rest 0 = true.
Proof.
  intros Hd. revert k. induction Hd as [|c data Hc Hd IH]; intros k.
  - destruct k; [|split; [done|]].
    + split; [|by intros (?&?&?&?&?&?); destruct x, x0].
      intros _. exists [], []. done.
    + by intros (cc & rest & E & ? & _); destruct cc.
  - destruct k as [|k].
    { split; [intros; exists [], (c :: data); done|].
      intros (cc & rest & E & ? & _ & ?). destruct cc; [|done]. by simplify_eq/=. }
    cbn [validate_utf8_loop]. rewrite (proj2 (Z.ltb_lt 0 _)) by lia.
    replace (Z.of_nat (S k) - 1) with (Z.of_nat k) by lia.
    destruct (Z.land c 0xc0 =? 0x80) eqn:E.
    + apply cont_mask in E; [|done]. rewrite IH. split.
      * intros (cc & rest & -> & <- & ? & ?). exists (c :: cc), rest. auto.
      * intros (cc & rest & E' & Hk & Hcc & ?). destruct cc as [|? cc]; [done|].
        simplify_eq/=. apply Forall_cons in Hcc as [_ ?]. eauto 6.
    + split; [done|]. intros (cc & rest & E' & ? & Hcc & _).
      destruct cc as [|? cc]; [done|]. simplify_eq/=.
      apply Forall_cons in Hcc as [Hc' _]. apply cont_mask in Hc'; [|done]. congruence.
Qed.

Lemma validate_utf8_chars data :
  bytes_ok data →
  validate_utf8_loop data 0 = true ↔
  ∃ chars, data = concat chars ∧ Forall utf8_char chars.
Proof.
  remember (length data) as n eqn:Hn. revert data Hn.
  induction (lt_wf n) as [n _ IH]. intros data -> Hd.
  destruct data as [|c data]; [split; [by exists []|done]|].
  pose proof Hd as [Hc Hd']%Forall_cons.
  rewrite validate_utf8_lead by done. split.
  - destruct (utf8_len c) as [k|] eqn:Ek; [|done].
    rewrite validate_utf8_conts by done. intros (cc & rest & -> & <- & Hcc & Hv).
    apply Forall_app in Hd' as [_ Hr].
    apply (IH (length rest)) in Hv as (chars & -> & ?);
      [|simpl; rewrite length_app; lia|done..].
    exists ((c :: cc) :: chars). split; [done|]. constructor; [|done]. by exists c, cc.
  - intros (chars & E & Hch). destruct chars as [|ch chars]; [done|].
    apply Forall_cons in Hch as [(c' & cc & -> & Hl & Hcc) Hch]. simplify_eq/=.
    rewrite Hl, validate_utf8_conts by done. exists cc, (concat chars).
    apply Forall_app in Hd' as [_ Hr]. repeat split; [done..|].
    apply (IH (length (concat chars))); [|done..|by exists chars]. rewrite length_app. lia.
Qed.

(** A byte string passes the UTF-8 check exactly when it is a sequence of
    characters, each a lead byte followed by as many continuation bytes as the
    lead byte announces. *)
Theorem avb_validate_utf8_correct data :
  bytes_ok data →
  avb_validate_utf8 data (zlen data) =
    Ret true ↔ ∃ chars, data = concat chars ∧ Forall utf8_char chars.
Proof.
  intros Hd. unfold avb_validate_utf8.
  rewrite rd_ok, slice_all by (lia || auto with bytes).
  rewrite <-validate_utf8_chars by done. 
  unfold mbind, run_bind, mret, run_ret. split; congruence.
Qed.

Lemma avb_validate_utf8_correct_witness :
  avb_validate_utf8 [0x61; 0xc3; 0xa9] (zlen [0x61; 0xc3; 0xa9]) = Ret true.
Proof.
  apply avb_validate_utf8_correct; [by apply (bool_decide_unpack _)|].
  exists [[0x61]; [0xc3; 0xa9]]. split; [done|].
  constructor; [by exists 0x61, []|]. constructor; [|done].
  exists 0xc3, [0xa9]. split_and!; [done..|]. by apply Forall_singleton.
Defined.

(** The check also takes the two-byte form of a character that fits in one
    byte, and a surrogate, neither of which is UTF-8. *)
Example avb_validate_utf8_overlong :
  avb_validate_utf8 [0xc0; 0x80] 2 = Ret true ∧
  avb_validate_utf8 [0xed; 0xa0; 0x80] 3 = Ret true.
Proof. split; reflexivity. Qed.

(** ** Strings: properties *)

Lemma strstr_rest_spec haystack needle :
  strstr_rest haystack needle = true ↔ needle `prefix_of` haystack.
Proof.
  revert haystack. induction needle as [|c needle IH]; intros [|h haystack]; simpl.
  - split; [exists []; done|done].
  - split; [intros; apply prefix_nil|done].
  - split; [done|]. by intros ?%prefix_nil_inv.
  - destruct (Z.eqb_spec h c) as [->|].
    + rewrite IH. split; [apply prefix_cons|apply prefix_cons_inv_2].
    + split; [done|]. by intros ?%prefix_cons_inv_1.
Qed.

(** An occurrence of [needle] at an index. *)
Definition occurs_at (needle haystack : bytes) (i : nat) : Prop :=
  needle `prefix_of` drop i haystack.

Lemma strstr_spec haystack needle :
  match avb_strstr haystack needle with
  | Some i => needle ≠ [] ∧ occurs_at needle haystack i ∧
              ∀ j, (j < i)%nat → ¬ occurs_at needle haystack j
  | None => needle = [] ∨ ∀ j, ¬ occurs_at needle haystack j
  end.
Proof.
  unfold occurs_at. induction haystack as [|h hs IH].
  - simpl. destruct needle; [by left|right]. intros j. rewrite drop_nil.
    by intros ?%prefix_nil_inv.
  - destruct needle as [|c cs]; cbn [avb_strstr].
    { destruct (avb_strstr hs []); [by destruct IH|by left]. }
    assert ((h =? c) && strstr_rest hs cs = true ↔ c :: cs `prefix_of` h :: hs) as E.
    { rewrite <-strstr_rest_spec. simpl. by destruct (h =? c). }
    destruct (_ && _) eqn:Eh; [split_and!; [done|by apply E|lia]|].
    assert (¬ c :: cs `prefix_of` h :: hs) as Hno by (rewrite <-E; congruence).
    destruct (avb_strstr hs (c :: cs)) as [i|]; simpl.
    + destruct IH as (? & ? & Hj). split_and!; [done..|].
      intros [|j] ?; [done|]. apply Hj. lia.
    + destruct IH as [|IH]; [by left|right]. intros [|j]; [done|]. apply IH.
Qed.

(** What replacing every occurrence means: scanning from the left, each first
    occurrence of [search] becomes [repl] and the scan goes on behind it. *)
Inductive replaced (search repl : bytes) : bytes → bytes → Prop :=
| replaced_done s :
    (∀ j, ¬ occurs_at search s j) → replaced search repl s s
| replaced_step before rest r :
    (∀ j, (j < length before)%nat → ¬ occurs_at search (before ++ search ++ rest) j) →
    replaced search repl rest r →
    replaced search repl (before ++ search ++ rest) (before ++ repl ++ r).

Lemma strstr_split s search i :
  avb_strstr s search = Some i →
  s = take i s ++ search ++ drop (i + length search) s ∧
  length (take i s) = i ∧ search ≠ [] ∧
  ∀ j, (j < i)%nat → ¬ occurs_at search s j.
Proof.
  intros E. pose proof (strstr_spec s search) as Hs. rewrite E in Hs.
  destruct Hs as (Hne & [rest Hr] & Hj).
  assert (i + length search ≤ length s)%nat as Hle.
  { assert (0 < length search)%nat by (destruct search; simpl; [done|lia]).
    apply (f_equal length) in Hr. rewrite length_drop, length_app in Hr. lia. }
  split_and!; [|rewrite length_take; lia|done..].
  rewrite <-drop_drop, Hr, drop_app_length, <-Hr. by rewrite take_drop.
Qed.

Section Replace.
Context {W : Type} `{Heap W}.

(** What every exit of the loop promises. *)
Definition replace_result search repl ret s (o : option bytes) : Prop :=
  ∃ full, replaced search repl s full ∧
    match o with
    | None => ret = None
    | Some r => r `prefix_of` default [] ret ++ full
    end ∧
    ((∀ n w, (heap_alloc n w).1 = true) → o = Some (default [] ret ++ full)).

Lemma replace_finish_spec search repl ret s w :
  (∀ j, ¬ occurs_at search s j) →
  ∃ o w', replace_finish ret s w = Ret (o, w') ∧ replace_result search repl ret s o.
Proof.
  intros Hs. unfold replace_finish, replace_result, avb_strdup, avb_malloc, malloc.
  unfold mbind, comp_bind.
  destruct ret as [r|]; destruct (heap_alloc _ w) as [[] w'] eqn:Ea; eexists _, _;
    (split; [reflexivity|]); exists s; (split; [by apply replaced_done|]); simpl;
    (split; [try done; by apply prefix_app_r|]); intros Hh;
    try done; by apply (f_equal fst) in Ea; rewrite Hh in Ea.
Qed.

(** Whatever the heap does, the loop's result is empty-handed or a prefix of
    the full replacement, and the full replacement when no allocation fails. *)
Lemma replace_loop_spec search repl fuel s ret w :
  search ≠ [] → (length s ≤ fuel)%nat →
  ∃ o w', replace_loop fuel search repl ret s w = Ret (o, w') ∧
          replace_result search repl ret s o.
Proof.
  intros Hne. revert s ret w. induction fuel as [|fuel IH]; intros s ret w Hl.
  { destruct s; [|simpl in Hl; lia]. apply replace_finish_spec. intros j.
    unfold occurs_at. rewrite drop_nil. by intros ?%prefix_nil_inv. }
  cbn [replace_loop]. destruct (avb_strstr s search) as [i|] eqn:E.
  2: { apply replace_finish_spec. pose proof (strstr_spec s search) as Hs.
       rewrite E in Hs. by destruct Hs. }
  apply strstr_split in E as (Es & Hi & _ & Hj).
  set (before := take i s) in *. set (rest := drop (i + length search) s) in *.
  assert (length rest ≤ fuel)%nat as Hr.
  { assert (0 < length search)%nat by (destruct search; simpl; [done|lia]).
    unfold rest. rewrite length_drop. lia. }
  assert (∀ full, replaced search repl rest full →
     replaced search repl s (before ++ repl ++ full)) as Hstep.
  { intros full Hfull. rewrite Es. apply replaced_step; [|done]. by rewrite <-Es, Hi. }
  assert (∀ w, ∃ o w', replace_loop fuel search repl
      (Some (default [] ret ++ before ++ repl)) rest w = Ret (o, w') ∧
      replace_result search repl ret s o) as Hgo.
  { intros w1. destruct (IH rest (Some (default [] ret ++ before ++ repl)) w1 Hr)
      as (o & w' & -> & full & Hf & Ho & Hh).
    exists o, w'. split; [done|]. exists (before ++ repl ++ full). split; [by apply Hstep|].
    simpl in Ho, Hh. rewrite <-!app_assoc in Ho, Hh. split; [by destruct o|done]. }
  destruct (IH rest None w Hr) as (_ & _ & _ & full0 & Hf0 & _).
  destruct ret as [r|]; unfold avb_malloc, malloc, mbind, comp_bind;
    destruct (heap_alloc _ w) as [[] w1] eqn:Ea; [apply Hgo| |apply Hgo|];
    (eexists _, _; split; [reflexivity|]; exists (before ++ repl ++ full0);
     split; [by apply Hstep|];
     split; [try done; by apply prefix_app_r|
            by intros Hh; apply (f_equal fst) in Ea; rewrite Hh in Ea]).
Qed.

End Replace.

(** Replacing a non-empty search string never fails to return.  If no
    allocation fails the result is the input with every occurrence, found from
    left to right, replaced; under memory pressure it is NULL or a prefix of
    that string. *)
Theorem avb_replace_correct {W} `{Heap W} s search repl (w : W) :
  search ≠ [] →
  ∃ full o w', avb_replace s search repl w = Ret (o, w') ∧
    replaced search repl s full ∧
    (o = None ∨ ∃ r, o = Some r ∧ r `prefix_of` full) ∧
    ((∀ n w, (heap_alloc n w).1 = true) → o = Some full).
Proof.
  intros Hne. destruct (replace_loop_spec search repl (length s) s None w Hne)
    as (o & w' & E & full & Hf & Ho & Hh); [lia|].
  exists full, o, w'. split_and!; [done..| |done]. destruct o; eauto.
Qed.

Lemma avb_replace_correct_witness :
  avb_replace (H := roomy_heap) (str "a$(X)b$(X)") (str "$(X)") (str "zz") tt =
    Ret (Some (str "azzbzz"), tt) ∧
  ∃ full o w', avb_replace (H := roomy_heap) (str "a$(X)b$(X)") (str "$(X)") (str "zz") tt =
      Ret (o, w') ∧
    replaced (str "$(X)") (str "zz") (str "a$(X)b$(X)") full ∧
    (o = None ∨ ∃ r, o = Some r ∧ r `prefix_of` full) ∧
    ((∀ n w, (roomy_heap n w).1 = true) → o = Some full).
Proof. split; [reflexivity|]. apply (avb_replace_correct (H := roomy_heap)). done. Defined.

(** When memory runs out half way, [avb_replace] hands back the string built
    so far instead of NULL: with room for one allocation, the text behind the
    first occurrence is silently dropped. *)
Theorem avb_replace_oom_truncates (before rest search repl : bytes) :
  search ≠ [] →
  (∀ j, (j < length before)%nat → ¬ occurs_at search (before ++ search ++ rest) j) →
  avb_replace (H := budget_heap) (before ++ search ++ rest) search repl 1%nat =
    Ret (Some (before ++ repl), 0%nat).
Proof.
  intros Hne Hj. unfold avb_replace.
  set (s := before ++ search ++ rest).
  assert (avb_strstr s search = Some (length before)) as E.
  { pose proof (strstr_spec s search) as Hs. unfold occurs_at in *.
    assert (search `prefix_of` drop (length before) s).
    { unfold s. rewrite drop_app_length. by apply prefix_app_r. }
    destruct (avb_strstr s search) as [i|]; [|naive_solver].
    destruct Hs as (_ & Hi & Hlt). f_equal.
    destruct (lt_eq_lt_dec i (length before)) as [[]|]; naive_solver. }
  destruct s as [|c s'] eqn:Es; [done|]. rewrite <-Es in *.
  replace (length s) with (S (length s')) by (rewrite Es; done).
  cbn [replace_loop]. rewrite E.
  unfold s. rewrite take_app_length. clear.
  cbn. generalize (drop (length before + length search) (before ++ search ++ rest)).
  intros rest'. destruct (length s'); cbn; [done|].
  by destruct (avb_strstr rest' search).
Qed.

Lemma avb_replace_oom_truncates_witness :
  avb_replace (H := budget_heap) (str "root=" ++ str "$(X)" ++ str " ro") (str "$(X)")
    (str "dm-0") 1%nat = Ret (Some (str "root=" ++ str "dm-0"), 0%nat).
Proof.
  apply avb_replace_oom_truncates; [done|].
  intros j Hj. unfold occurs_at. simpl in Hj.
  do 5 (destruct j as [|j]; [by apply (bool_decide_unpack _)|]). lia.
Defined.

Lemma avb_str_concat_spec buf str1 str2 :
  0 < zlen buf → is_u64 (zlen buf) → is_u64 (zlen str1 + zlen str2) →
  avb_str_concat buf (zlen buf) str1 (zlen str1) str2 (zlen str2) =
    if bool_decide (zlen str1 + zlen str2 < zlen buf)
    then Ret (true, str1 ++ str2 ++ 0 :: drop (length str1 + length str2 + 1) buf)
    else Ret (false, buf).
Proof.
  intros Hb Hb64 H64. pose proof (zlen_nonneg str1). pose proof (zlen_nonneg str2).
  unfold avb_str_concat, avb_safe_add. unfold is_u64 in *.
  rewrite safe_add_to_spec by (unfold is_u64; lia).
  rewrite bool_decide_eq_true_2 by lia. cbn [negb].
  rewrite u64_small by (unfold is_u64; lia).
  case_bool_decide as Hc; [rewrite (proj2 (Z.ltb_ge _ _)) by lia|
    by rewrite (proj2 (Z.ltb_lt _ _)) by lia].
  rewrite !rd_ok, !slice_all by lia. cbn [mbind run_bind]. unfold zlen in Hc.
  destruct (list_split_at (length str1) buf) as (b1 & buf' & -> & L1); [lia|].
  rewrite length_app in Hc.
  destruct (list_split_at (length str2) buf') as (b2 & buf'' & -> & L2); [lia|].
  rewrite length_app in Hc. destruct buf'' as [|b3 c]; [simpl in Hc; lia|].
  rewrite wr_app_0 by (unfold zlen; lia). cbn [mbind run_bind]. rewrite wr_app by (unfold zlen; lia). cbn [mbind run_bind].
  rewrite <-zlen_app, app_assoc.
  change (b3 :: c) with ([b3] ++ c). rewrite wr_app by done.
  rewrite <-!drop_drop, <-L1, drop_app_length, <-L2, drop_app_length.
  cbn. by rewrite <-app_assoc.
Qed.

(** Concatenating two strings into a buffer succeeds exactly when both and
    the terminator fit; then the buffer holds the two strings and the
    terminator and is unchanged behind it, otherwise it is left alone.  No
    write falls outside the buffer. *)
Theorem avb_str_concat_correct buf str1 str2 :
  0 < zlen buf → is_u64 (zlen buf) → is_u64 (zlen str1 + zlen str2) →
  avb_str_concat buf (zlen buf) str1 (zlen str1) str2 (zlen str2) =
    if bool_decide (zlen str1 + zlen str2 < zlen buf)
    then Ret (true, str1 ++ str2 ++ 0 :: drop (length str1 + length str2 + 1) buf)
    else Ret (false, buf).
Proof. apply avb_str_concat_spec. Qed.

Lemma avb_str_concat_correct_witness :
  avb_str_concat [9; 9; 9; 9; 9] 5 [97] 1 [98; 99] 2 = Ret (true, [97; 98; 99; 0; 9]).
Proof. by apply (avb_str_concat_correct [9; 9; 9; 9; 9] [97] [98; 99]). Defined.

(** With a declared size of 0 the guard [buf_size - 1] wraps around and the
    terminator is written outside the buffer. *)
Example avb_str_concat_empty_buffer :
  avb_str_concat [] 0 [] 0 [] 0 = Crash OutOfBounds.
Proof. reflexivity. Qed.

(** ** Hex dumps *)

(** Value of a lower-case hex digit. *)
Definition unhex_digit (c : Z) : Z := if c <? 0x61 then c - 0x30 else c - 0x57.
Fixpoint unhex (l : bytes) : bytes :=
  match l with a :: b :: l => unhex_digit a * 16 + unhex_digit b :: unhex l | _ => [] end.

Lemma unhex_hex_byte b :
  is_u8 b →
  unhex_digit (hex_digits !!! Z.to_nat (Z.shiftr b 4)) * 16 +
  unhex_digit (hex_digits !!! Z.to_nat (Z.land b 0x0f)) = b.
Proof.
  intros Hb. apply Z.eqb_eq. revert b Hb. apply (byte_cases (fun b => Z.eqb _ b)).
  reflexivity.
Qed.

(** The hex dump of a byte string has two digits per byte and reading the
    digits back gives the byte string; on memory exhaustion it is NULL. *)
Theorem avb_bin2hex_roundtrip {W} `{Heap W} data (w : W) :
  bytes_ok data →
  ∃ o w', avb_bin2hex data w = Ret (o, w') ∧
    if (heap_alloc (u64 (zlen data * 2 + 1)) w).1
    then ∃ hex, o = Some hex ∧ zlen hex = 2 * zlen data ∧ unhex hex = data
    else o = None.
Proof.
  intros Hd. unfold avb_bin2hex, avb_malloc, malloc, mbind, comp_bind.
  destruct (heap_alloc _ w) as [[] w']; eexists _, _; (split; [reflexivity|]); simpl; [|done].
  eexists. split; [reflexivity|].
  induction Hd as [|b data Hb _ [IHl IH]]; [done|]. cbn [map concat app unhex].
  rewrite unhex_hex_byte, IH by done. split; [|done].
  rewrite !zlen_cons, IHl. lia.
Qed.

Lemma avb_bin2hex_roundtrip_witness :
  ∃ o w', avb_bin2hex (H := roomy_heap) [0xde; 0xad; 0x0f] tt = Ret (o, w') ∧
    ∃ hex, o = Some hex ∧ zlen hex = 2 * 3 ∧ unhex hex = [0xde; 0xad; 0x0f].
Proof.
  apply (avb_bin2hex_roundtrip (H := roomy_heap) [0xde; 0xad; 0x0f] tt).
  by apply (bool_decide_unpack _).
Defined.
