(* ===== verification/Fips180.v ===== *)
(** * The Secure Hash Standard (FIPS 180-4)

    SHA-256 and SHA-512 as the standard defines them, over numbers below [2^w]:
    rotation is arithmetic, the constants are the fractional parts of the roots
    of the first primes, the padding is given by its congruence.  Nothing here
    is taken from the code; the functions of lib/libavb are compared with this
    in Sha2Spec. *)

From S2P Require Import Prelude.

(** ** The constants (sections 4.2.2, 4.2.3, 5.3.3 and 5.3.5) *)

Definition is_prime (n : nat) : bool :=
  (2 <=? n)%nat && forallb (fun d => negb (n mod d =? 0)%nat) (seq 2 (n - 2)).

(** The eightieth prime is 409. *)
Definition primes : list Z := Z.of_nat <$> filter (fun n => is_prime n = true) (seq 0 410).

(** The largest [r] below [2^bits] with [r^k <= x], bit by bit. *)
Fixpoint root_from (k x : Z) (bits : nat) (r : Z) : Z :=
  match bits with
  | O => r
  | S bits =>
      let r' := r + 2 ^ Z.of_nat bits in
      root_from k x bits (if r' ^ k <=? x then r' else r)
  end.

(** The first [w] bits of the fractional part of the [k]-th root of [x]. *)
Definition root_fraction (w k x : Z) : Z :=
  root_from k (x * 2 ^ (k * w)) (Z.to_nat (w + 5)) 0 mod 2 ^ w.

(** ** The two functions *)

Inductive sha_function := SHA_256 | SHA_512.

Section Sha.
Variable f : sha_function.

(** Bits of a word, rounds, and bits of the length field. *)
Definition word_bits : Z := match f with SHA_256 => 32 | SHA_512 => 64 end.
Definition rounds : nat := match f with SHA_256 => 64 | SHA_512 => 80 end.
Definition block_bits : Z := 16 * word_bits.
Definition length_bits : Z := 2 * word_bits.

Notation w := word_bits.

Definition initial_hash : list Z := root_fraction w 2 <$> take 8 primes.
Definition K (t : nat) : Z := default 0 (root_fraction w 3 <$> primes !! t).

(** Section 2.2.2 and 3.2: the operations on words. *)
Definition plus (x y : Z) : Z := (x + y) mod 2 ^ w.
Definition complement (x : Z) : Z := 2 ^ w - 1 - x.
Definition shr (n x : Z) : Z := x / 2 ^ n.
Definition rotr (n x : Z) : Z := x / 2 ^ n + x mod 2 ^ n * 2 ^ (w - n).

(** Sections 4.1.2 and 4.1.3. *)
Definition Ch (x y z : Z) : Z := Z.lxor (Z.land x y) (Z.land (complement x) z).
Definition Maj (x y z : Z) : Z := Z.lxor (Z.lxor (Z.land x y) (Z.land x z)) (Z.land y z).

Definition three (g1 g2 g3 : Z → Z) (x : Z) : Z := Z.lxor (Z.lxor (g1 x) (g2 x)) (g3 x).

Definition Sigma0 : Z → Z :=
  match f with
  | SHA_256 => three (rotr 2) (rotr 13) (rotr 22)
  | SHA_512 => three (rotr 28) (rotr 34) (rotr 39)
  end.
Definition Sigma1 : Z → Z :=
  match f with
  | SHA_256 => three (rotr 6) (rotr 11) (rotr 25)
  | SHA_512 => three (rotr 14) (rotr 18) (rotr 41)
  end.
Definition sigma0 : Z → Z :=
  match f with
  | SHA_256 => three (rotr 7) (rotr 18) (shr 3)
  | SHA_512 => three (rotr 1) (rotr 8) (shr 7)
  end.
Definition sigma1 : Z → Z :=
  match f with
  | SHA_256 => three (rotr 17) (rotr 19) (shr 10)
  | SHA_512 => three (rotr 19) (rotr 61) (shr 6)
  end.

(** Section 5.1: a message of [l] bits is followed by a one bit, by the [k]
    zero bits with [l + 1 + k] congruent to the block size less the length
    field, and by [l] itself.  Messages are whole bytes, so the one bit and the
    first seven zeros are a byte. *)
Definition padded (m : bytes) : bytes :=
  let l := 8 * zlen m in
  let k := (block_bits - length_bits - (l + 1)) mod block_bits in
  m ++ 0x80 :: replicate (Z.to_nat ((k - 7) / 8)) 0 ++ be_encode (Z.to_nat (length_bits / 8)) l.

(** Section 5.2: words are big-endian. *)
Definition block_word (block : bytes) (t : nat) : Z :=
  be_decode (slice block (Z.of_nat t * (w / 8)) (w / 8)).

(** Sections 6.2.2 and 6.4.2, step 1: the schedule, the newest word first. *)
Fixpoint expand (n : nat) (W : list Z) : list Z :=
  match n with
  | O => W
  | S n =>
      let W := expand n W in
      plus (plus (plus (sigma1 (W !!! 1%nat)) (W !!! 6%nat)) (sigma0 (W !!! 14%nat))) (W !!! 15%nat) :: W
  end.

Definition message_schedule (block : bytes) : list Z :=
  reverse (expand (rounds - 16) (reverse (block_word block <$> seq 0 16))).

Record variables := mkVars { va : Z; vb : Z; vc : Z; vd : Z; ve : Z; vf : Z; vg : Z; vh : Z }.

(** Step 3: one round. *)
Definition fips_round (W : list Z) (t : nat) (v : variables) : variables :=
  let T1 := plus (plus (plus (plus (vh v) (Sigma1 (ve v))) (Ch (ve v) (vf v) (vg v))) (K t)) (W !!! t) in
  let T2 := plus (Sigma0 (va v)) (Maj (va v) (vb v) (vc v)) in
  {| vh := vg v; vg := vf v; vf := ve v; ve := plus (vd v) T1;
     vd := vc v; vc := vb v; vb := va v; va := plus T1 T2 |}.

(** Steps 2 to 4: the working variables start as the hash value, and are added
    to it after the last round. *)
Definition fips_compress (v : variables) (block : bytes) : variables :=
  let W := message_schedule block in
  let v' := foldl (fun v t => fips_round W t v) v (seq 0 rounds) in
  {| va := plus (va v') (va v); vb := plus (vb v') (vb v); vc := plus (vc v') (vc v);
     vd := plus (vd v') (vd v); ve := plus (ve v') (ve v); vf := plus (vf v') (vf v);
     vg := plus (vg v') (vg v); vh := plus (vh v') (vh v) |}.

Definition vars_of (l : list Z) : variables :=
  mkVars (l !!! 0%nat) (l !!! 1%nat) (l !!! 2%nat) (l !!! 3%nat)
    (l !!! 4%nat) (l !!! 5%nat) (l !!! 6%nat) (l !!! 7%nat).
Definition words_of (v : variables) : list Z :=
  [va v; vb v; vc v; vd v; ve v; vf v; vg v; vh v].

(** The blocks of a padded message, in order. *)
Definition block_at (m : bytes) (i : nat) : bytes :=
  slice m (Z.of_nat i * (block_bits / 8)) (block_bits / 8).

Definition fips_digest (m : bytes) : bytes :=
  let M := padded m in
  let blocks := block_at M <$> seq 0 (Z.to_nat (zlen M / (block_bits / 8))) in
  concat (be_encode (Z.to_nat (w / 8)) <$> words_of (foldl fips_compress (vars_of initial_hash) blocks)).

End Sha.

(** The examples of the standard: the digests of "abc". *)
Example fips_digest_abc :
  fips_digest SHA_256 (str "abc") =
    be_encode 32 0xba7816bf8f01cfea414140de5dae2223b00361a396177a9cb410ff61f20015ad
  ∧ fips_digest SHA_512 (str "abc") =
    be_encode 64 (0xddaf35a193617abacc417349ae20413112e6fa4e89a97ea20a9eeee64b55d39a * 2 ^ 256
                  + 0x2192992a274fc1a836ba3c23a3feebbd454d4423643ce80e2a9ac94fa54ca49f).
Proof. split; vm_compute; reflexivity. Qed.
