(* ===== verification/Crc32.v ===== *)
(** * CRC-32 of libavb (lib/libavb/avb_crc32.c)

    The table-driven checksum the A/B metadata is stored with, its equality
    with the bit-by-bit CRC of the polynomial 0xEDB88320, and what it detects. *)

From S2P Require Import Prelude.

Definition iavb_crc32_tab : list Z :=
  [0x00000000; 0x77073096; 0xee0e612c; 0x990951ba; 0x076dc419; 0x706af48f;
   0xe963a535; 0x9e6495a3; 0x0edb8832; 0x79dcb8a4; 0xe0d5e91e; 0x97d2d988;
   0x09b64c2b; 0x7eb17cbd; 0xe7b82d07; 0x90bf1d91; 0x1db71064; 0x6ab020f2;
   0xf3b97148; 0x84be41de; 0x1adad47d; 0x6ddde4eb; 0xf4d4b551; 0x83d385c7;
   0x136c9856; 0x646ba8c0; 0xfd62f97a; 0x8a65c9ec; 0x14015c4f; 0x63066cd9;
   0xfa0f3d63; 0x8d080df5; 0x3b6e20c8; 0x4c69105e; 0xd56041e4; 0xa2677172;
   0x3c03e4d1; 0x4b04d447; 0xd20d85fd; 0xa50ab56b; 0x35b5a8fa; 0x42b2986c;
   0xdbbbc9d6; 0xacbcf940; 0x32d86ce3; 0x45df5c75; 0xdcd60dcf; 0xabd13d59;
   0x26d930ac; 0x51de003a; 0xc8d75180; 0xbfd06116; 0x21b4f4b5; 0x56b3c423;
   0xcfba9599; 0xb8bda50f; 0x2802b89e; 0x5f058808; 0xc60cd9b2; 0xb10be924;
   0x2f6f7c87; 0x58684c11; 0xc1611dab; 0xb6662d3d; 0x76dc4190; 0x01db7106;
   0x98d220bc; 0xefd5102a; 0x71b18589; 0x06b6b51f; 0x9fbfe4a5; 0xe8b8d433;
   0x7807c9a2; 0x0f00f934; 0x9609a88e; 0xe10e9818; 0x7f6a0dbb; 0x086d3d2d;
   0x91646c97; 0xe6635c01; 0x6b6b51f4; 0x1c6c6162; 0x856530d8; 0xf262004e;
   0x6c0695ed; 0x1b01a57b; 0x8208f4c1; 0xf50fc457; 0x65b0d9c6; 0x12b7e950;
   0x8bbeb8ea; 0xfcb9887c; 0x62dd1ddf; 0x15da2d49; 0x8cd37cf3; 0xfbd44c65;
   0x4db26158; 0x3ab551ce; 0xa3bc0074; 0xd4bb30e2; 0x4adfa541; 0x3dd895d7;
   0xa4d1c46d; 0xd3d6f4fb; 0x4369e96a; 0x346ed9fc; 0xad678846; 0xda60b8d0;
   0x44042d73; 0x33031de5; 0xaa0a4c5f; 0xdd0d7cc9; 0x5005713c; 0x270241aa;
   0xbe0b1010; 0xc90c2086; 0x5768b525; 0x206f85b3; 0xb966d409; 0xce61e49f;
   0x5edef90e; 0x29d9c998; 0xb0d09822; 0xc7d7a8b4; 0x59b33d17; 0x2eb40d81;
   0xb7bd5c3b; 0xc0ba6cad; 0xedb88320; 0x9abfb3b6; 0x03b6e20c; 0x74b1d29a;
   0xead54739; 0x9dd277af; 0x04db2615; 0x73dc1683; 0xe3630b12; 0x94643b84;
   0x0d6d6a3e; 0x7a6a5aa8; 0xe40ecf0b; 0x9309ff9d; 0x0a00ae27; 0x7d079eb1;
   0xf00f9344; 0x8708a3d2; 0x1e01f268; 0x6906c2fe; 0xf762575d; 0x806567cb;
   0x196c3671; 0x6e6b06e7; 0xfed41b76; 0x89d32be0; 0x10da7a5a; 0x67dd4acc;
   0xf9b9df6f; 0x8ebeeff9; 0x17b7be43; 0x60b08ed5; 0xd6d6a3e8; 0xa1d1937e;
   0x38d8c2c4; 0x4fdff252; 0xd1bb67f1; 0xa6bc5767; 0x3fb506dd; 0x48b2364b;
   0xd80d2bda; 0xaf0a1b4c; 0x36034af6; 0x41047a60; 0xdf60efc3; 0xa867df55;
   0x316e8eef; 0x4669be79; 0xcb61b38c; 0xbc66831a; 0x256fd2a0; 0x5268e236;
   0xcc0c7795; 0xbb0b4703; 0x220216b9; 0x5505262f; 0xc5ba3bbe; 0xb2bd0b28;
   0x2bb45a92; 0x5cb36a04; 0xc2d7ffa7; 0xb5d0cf31; 0x2cd99e8b; 0x5bdeae1d;
   0x9b64c2b0; 0xec63f226; 0x756aa39c; 0x026d930a; 0x9c0906a9; 0xeb0e363f;
   0x72076785; 0x05005713; 0x95bf4a82; 0xe2b87a14; 0x7bb12bae; 0x0cb61b38;
   0x92d28e9b; 0xe5d5be0d; 0x7cdcefb7; 0x0bdbdf21; 0x86d3d2d4; 0xf1d4e242;
   0x68ddb3f8; 0x1fda836e; 0x81be16cd; 0xf6b9265b; 0x6fb077e1; 0x18b74777;
   0x88085ae6; 0xff0f6a70; 0x66063bca; 0x11010b5c; 0x8f659eff; 0xf862ae69;
   0x616bffd3; 0x166ccf45; 0xa00ae278; 0xd70dd2ee; 0x4e048354; 0x3903b3c2;
   0xa7672661; 0xd06016f7; 0x4969474d; 0x3e6e77db; 0xaed16a4a; 0xd9d65adc;
   0x40df0b66; 0x37d83bf0; 0xa9bcae53; 0xdebb9ec5; 0x47b2cf7f; 0x30b5ffe9;
   0xbdbdf21c; 0xcabac28a; 0x53b39330; 0x24b4a3a6; 0xbad03605; 0xcdd70693;
   0x54de5729; 0x23d967bf; 0xb3667a2e; 0xc4614ab8; 0x5d681b02; 0x2a6f2b94;
   0xb40bbe37; 0xc30c8ea1; 0x5a05df1b; 0x2d02ef8d].

Fixpoint iavb_crc32_loop (crc : Z) (p : bytes) : Z :=
  match p with
  | [] => crc
  | b :: p =>
      iavb_crc32_loop
        (Z.lxor (iavb_crc32_tab !!! Z.to_nat (Z.land (Z.lxor crc b) 0xff)) (Z.shiftr crc 8)) p
  end.

Definition iavb_crc32 (crc_in : Z) (buf : bytes) : Z :=
  Z.lxor (iavb_crc32_loop (Z.lxor crc_in 0xffffffff) buf) 0xffffffff.

Definition avb_crc32 (buf : bytes) : Z := iavb_crc32 0 buf.

(** ** The bit-by-bit reference *)

Definition crc_bit (c : Z) : Z :=
  Z.lxor (Z.shiftr c 1) (if Z.odd c then 0xedb88320 else 0).

Definition crc_byte (c : Z) : Z := Nat.iter 8 crc_bit c.

Definition crc_reference (buf : bytes) : Z :=
  Z.lxor (foldl (fun c b => crc_byte (Z.lxor c b)) 0xffffffff buf) 0xffffffff.

Lemma crc_bit_lxor x y : crc_bit (Z.lxor x y) = Z.lxor (crc_bit x) (crc_bit y).
Proof.
  unfold crc_bit. rewrite Z.shiftr_lxor.
  replace (Z.odd (Z.lxor x y)) with (xorb (Z.odd x) (Z.odd y))
    by (rewrite <-!Z.bit0_odd; symmetry; apply Z.lxor_spec).
  destruct (Z.odd x), (Z.odd y); cbn [xorb]; rewrite ?Z.lxor_0_r.
  - rewrite Z.lxor_assoc, (Z.lxor_comm 0xedb88320), !Z.lxor_assoc.
    by rewrite Z.lxor_nilpotent, Z.lxor_0_r.
  - rewrite !Z.lxor_assoc. f_equal. apply Z.lxor_comm.
  - by rewrite Z.lxor_assoc.
  - done.
Qed.

Lemma crc_bits_lxor n x y :
  Nat.iter n crc_bit (Z.lxor x y) = Z.lxor (Nat.iter n crc_bit x) (Nat.iter n crc_bit y).
Proof. induction n as [|n IH]; [done|]. simpl. by rewrite IH, crc_bit_lxor. Qed.

Lemma crc_bits_shiftl n x : 0 ≤ x → Nat.iter n crc_bit (Z.shiftl x (Z.of_nat n)) = x.
Proof.
  intros Hx. induction n as [|n IH]; [apply Z.shiftl_0_r|].
  rewrite Nat.iter_succ_r. rewrite <-IH at 2. f_equal.
  rewrite Nat2Z.inj_succ. unfold crc_bit.
  replace (Z.odd (Z.shiftl x (Z.succ (Z.of_nat n)))) with false.
  - rewrite Z.lxor_0_r, Z.shiftr_shiftl_l by lia. f_equal. lia.
  - rewrite <-Z.bit0_odd, Z.shiftl_spec_low by lia. done.
Qed.

(** Every table entry is the reference CRC of its index. *)
Lemma crc_tab_entry b : is_u8 b → iavb_crc32_tab !!! Z.to_nat b = crc_byte b.
Proof.
  intros Hb. apply Z.eqb_eq. revert b Hb. apply (byte_cases (fun b => Z.eqb _ _)).
  vm_compute. reflexivity.
Qed.

Lemma split_low_byte c : c = Z.lxor (Z.land c 0xff) (Z.shiftl (Z.shiftr c 8) 8).
Proof.
  apply Z.bits_inj'; intros i Hi.
  rewrite Z.lxor_spec, Z.land_spec, Z.shiftl_spec by done.
  change 0xff with (Z.ones 8). destruct (Z_lt_le_dec i 8).
  - rewrite Z.ones_spec_low, (Z.testbit_neg_r (Z.shiftr c 8)) by lia.
    by rewrite xorb_false_r, andb_true_r.
  - rewrite Z.ones_spec_high, Z.shiftr_spec by lia. rewrite andb_false_r, xorb_false_l.
    f_equal. lia.
Qed.

Lemma crc_step c b :
  0 ≤ c → is_u8 b →
  Z.lxor (iavb_crc32_tab !!! Z.to_nat (Z.land (Z.lxor c b) 0xff)) (Z.shiftr c 8) =
  crc_byte (Z.lxor c b).
Proof.
  intros Hc Hb. set (x := Z.lxor c b).
  assert (0 ≤ x) by (unfold is_u8 in Hb; apply Z.lxor_nonneg; lia).
  rewrite crc_tab_entry by (unfold is_u8; apply (bits_bound 8); [lia|];
    rewrite <-Z.land_assoc; done).
  rewrite (split_low_byte x) at 2. unfold crc_byte. rewrite crc_bits_lxor. f_equal.
  rewrite (crc_bits_shiftl 8) by (by apply Z.shiftr_nonneg).
  unfold x. rewrite Z.shiftr_lxor.
  replace (Z.shiftr b 8) with 0; [by rewrite Z.lxor_0_r|].
  rewrite Z.shiftr_div_pow2 by lia. symmetry. by apply Z.div_small.
Qed.

Lemma crc_bit_u32 c : is_u32 c → is_u32 (crc_bit c).
Proof.
  intros Hc. unfold crc_bit. apply (lxor_bound 32); [lia| |by destruct (Z.odd c)].
  unfold is_u32 in Hc. rewrite Z.shiftr_div_pow2 by lia. change (2 ^ 1) with 2.
  split; [apply Z.div_pos; lia|apply Z.div_lt_upper_bound; lia].
Qed.

Lemma crc_byte_u32 c : is_u32 c → is_u32 (crc_byte c).
Proof. intros. unfold crc_byte. do 8 (simpl; apply crc_bit_u32). done. Qed.

Lemma crc_xor_u32 c b : is_u32 c → is_u8 b → is_u32 (Z.lxor c b).
Proof.
  unfold is_u32, is_u8. intros. apply (lxor_bound 32); lia.
Qed.
#[export] Hint Resolve crc_bit_u32 crc_byte_u32 crc_xor_u32 : words.

Lemma crc_loop_reference c buf :
  is_u32 c → bytes_ok buf →
  iavb_crc32_loop c buf = foldl (fun c b => crc_byte (Z.lxor c b)) c buf.
Proof.
  intros Hc Hb. revert c Hc. induction Hb as [|b buf Hb _ IH]; intros c Hc; [done|].
  cbn [iavb_crc32_loop foldl]. rewrite crc_step by (done || unfold is_u32 in Hc; lia).
  apply IH. auto with words.
Qed.

(** The table-driven checksum is the bit-by-bit CRC-32 (reflected polynomial
    0xEDB88320, initial value and final complement 0xFFFFFFFF) of the buffer. *)
Theorem avb_crc32_reference buf :
  bytes_ok buf → avb_crc32 buf = crc_reference buf.
Proof.
  intros. unfold avb_crc32, iavb_crc32, crc_reference.
  by rewrite crc_loop_reference by done.
Qed.

Lemma avb_crc32_reference_witness :
  avb_crc32 (str "123456789") = 0xcbf43926 ∧
  avb_crc32 (str "123456789") = crc_reference (str "123456789").
Proof.
  split; [reflexivity|]. apply avb_crc32_reference. by apply (bool_decide_unpack _).
Defined.

Lemma avb_crc32_u32 buf : bytes_ok buf → is_u32 (avb_crc32 buf).
Proof.
  intros Hb. unfold avb_crc32, iavb_crc32. apply (lxor_bound 32); [lia| |done].
  rewrite crc_loop_reference by done.
  assert (is_u32 (Z.lxor 0 0xffffffff)) as Hc by done. revert Hc.
  generalize (Z.lxor 0 0xffffffff).
  induction Hb as [|b buf Hb _ IH]; intros c Hc; [done|]. cbn [foldl]. apply IH.
  auto with words.
Qed.

(** ** Error detection *)

Lemma crc_bit_kernel z : is_u32 z → crc_bit z = 0 → z = 0.
Proof.
  unfold is_u32, crc_bit. intros Hz E. apply Z.lxor_eq in E.
  rewrite <-Z.div2_spec in E. pose proof (Z.div2_odd z) as Hd.
  destruct (Z.odd z); cbn [Z.b2z] in Hd; lia.
Qed.

Lemma crc_bits_kernel n z : is_u32 z → Nat.iter n crc_bit z = 0 → z = 0.
Proof.
  revert z. induction n as [|n IH]; intros z Hz E; [done|].
  rewrite Nat.iter_succ_r in E. apply IH in E; auto using crc_bit_kernel with words.
Qed.

Lemma crc_byte_inj x y : is_u32 x → is_u32 y → crc_byte x = crc_byte y → x = y.
Proof.
  unfold crc_byte. intros Hx Hy E. apply Z.lxor_eq.
  apply (crc_bits_kernel 8); [by apply (lxor_bound 32)|].
  rewrite crc_bits_lxor. by apply Z.lxor_eq_0_iff.
Qed.

Lemma lxor_inj_r a x y : Z.lxor x a = Z.lxor y a → x = y.
Proof.
  intros E. apply (f_equal (fun z => Z.lxor z a)) in E.
  by rewrite !Z.lxor_assoc, Z.lxor_nilpotent, !Z.lxor_0_r in E.
Qed.

Lemma crc_fold_u32 c buf :
  is_u32 c → bytes_ok buf → is_u32 (foldl (fun c b => crc_byte (Z.lxor c b)) c buf).
Proof.
  intros Hc Hb. revert c Hc. induction Hb; intros c Hc; simpl; auto with words.
Qed.

Lemma crc_fold_inj c c' buf :
  is_u32 c → is_u32 c' → bytes_ok buf →
  foldl (fun c b => crc_byte (Z.lxor c b)) c buf =
  foldl (fun c b => crc_byte (Z.lxor c b)) c' buf → c = c'.
Proof.
  intros Hc Hc' Hb. revert c c' Hc Hc'.
  induction Hb as [|b buf Hb _ IH]; intros c c' Hc Hc' E; [done|].
  apply IH in E; auto with words. apply crc_byte_inj in E; auto with words.
  by apply lxor_inj_r in E.
Qed.

Lemma crc32_byte_change pre b b' post :
  bytes_ok pre → bytes_ok post → is_u8 b → is_u8 b' →
  avb_crc32 (pre ++ b :: post) = avb_crc32 (pre ++ b' :: post) → b = b'.
Proof.
  intros Hpre Hpost Hb Hb'. unfold avb_crc32, iavb_crc32.
  rewrite !crc_loop_reference by (done || (apply Forall_app; auto)).
  intros E%lxor_inj_r. rewrite !foldl_app in E. cbn [foldl] in E.
  assert (is_u32 (foldl (fun c b => crc_byte (Z.lxor c b)) (Z.lxor 0 0xffffffff) pre))
    by by apply crc_fold_u32.
  apply crc_fold_inj in E; auto with words. apply crc_byte_inj in E; auto with words.
  rewrite !(Z.lxor_comm (foldl _ _ _)) in E. by apply lxor_inj_r in E.
Qed.

(** Changing one byte of a buffer always changes its checksum. *)
Theorem avb_crc32_detects_byte_change pre b b' post :
  bytes_ok pre → bytes_ok post → is_u8 b → is_u8 b' → b ≠ b' →
  avb_crc32 (pre ++ b :: post) ≠ avb_crc32 (pre ++ b' :: post).
Proof. intros Hpre Hpost Hb Hb' Hne E. by apply crc32_byte_change in E. Qed.

Lemma avb_crc32_detects_byte_change_witness :
  avb_crc32 ([0; 65] ++ 66 :: [48]) ≠ avb_crc32 ([0; 65] ++ 67 :: [48]).
Proof.
  apply avb_crc32_detects_byte_change; by apply (bool_decide_unpack _).
Defined.
