(* ===== verification/Sha2.v ===== *)
(** * SHA-256 and SHA-512 (lib/libavb/avb_sha256.c, avb_sha512.c, avb_sha.h)

    The two files are the same code over a different word width, block size and
    set of constants; the code is written once over a record of these
    parameters and instantiated twice.  Buffers, lengths and pointer offsets
    are those of the source: a context holds a double-size block buffer, the
    counters are 32-bit unsigned, the block offset is a signed int. *)

From S2P Require Import Prelude AvbUtil.

(** ** Bit functions *)

Definition SHFR (x n : Z) : Z := Z.shiftr x n.
Definition ROTR32 (x n : Z) : Z := Z.lor (Z.shiftr x n) (u32 (Z.shiftl x (32 - n))).
Definition ROTR64 (x n : Z) : Z := Z.lor (Z.shiftr x n) (u64 (Z.shiftl x (64 - n))).
Definition CH (x y z : Z) : Z := Z.lxor (Z.land x y) (Z.land (Z.lnot x) z).
Definition MAJ (x y z : Z) : Z := Z.lxor (Z.lxor (Z.land x y) (Z.land x z)) (Z.land y z).

Definition SHA256_F1 (x : Z) : Z := Z.lxor (Z.lxor (ROTR32 x 2) (ROTR32 x 13)) (ROTR32 x 22).
Definition SHA256_F2 (x : Z) : Z := Z.lxor (Z.lxor (ROTR32 x 6) (ROTR32 x 11)) (ROTR32 x 25).
Definition SHA256_F3 (x : Z) : Z := Z.lxor (Z.lxor (ROTR32 x 7) (ROTR32 x 18)) (SHFR x 3).
Definition SHA256_F4 (x : Z) : Z := Z.lxor (Z.lxor (ROTR32 x 17) (ROTR32 x 19)) (SHFR x 10).

Definition SHA512_F1 (x : Z) : Z := Z.lxor (Z.lxor (ROTR64 x 28) (ROTR64 x 34)) (ROTR64 x 39).
Definition SHA512_F2 (x : Z) : Z := Z.lxor (Z.lxor (ROTR64 x 14) (ROTR64 x 18)) (ROTR64 x 41).
Definition SHA512_F3 (x : Z) : Z := Z.lxor (Z.lxor (ROTR64 x 1) (ROTR64 x 8)) (SHFR x 7).
Definition SHA512_F4 (x : Z) : Z := Z.lxor (Z.lxor (ROTR64 x 19) (ROTR64 x 61)) (SHFR x 6).

Definition UNPACK32 (x : Z) : bytes :=
  [u8 (Z.shiftr x 24); u8 (Z.shiftr x 16); u8 (Z.shiftr x 8); u8 x].

Definition UNPACK64 (x : Z) : bytes :=
  [u8 (Z.shiftr x 56); u8 (Z.shiftr x 48); u8 (Z.shiftr x 40); u8 (Z.shiftr x 32);
   u8 (Z.shiftr x 24); u8 (Z.shiftr x 16); u8 (Z.shiftr x 8); u8 x].

Definition PACK32 (s : bytes) : Z :=
  Z.lor (Z.lor (Z.lor (s !!! 3%nat) (Z.shiftl (s !!! 2%nat) 8))
    (Z.shiftl (s !!! 1%nat) 16)) (Z.shiftl (s !!! 0%nat) 24).

Definition PACK64 (s : bytes) : Z :=
  Z.lor (Z.lor (Z.lor (Z.lor (Z.lor (Z.lor (Z.lor
    (s !!! 7%nat) (Z.shiftl (s !!! 6%nat) 8))
    (Z.shiftl (s !!! 5%nat) 16)) (Z.shiftl (s !!! 4%nat) 24))
    (Z.shiftl (s !!! 3%nat) 32)) (Z.shiftl (s !!! 2%nat) 40))
    (Z.shiftl (s !!! 1%nat) 48)) (Z.shiftl (s !!! 0%nat) 56).

Definition sha256_h0 : list Z :=
  [0x6a09e667; 0xbb67ae85; 0x3c6ef372; 0xa54ff53a; 0x510e527f; 0x9b05688c;
   0x1f83d9ab; 0x5be0cd19].

Definition sha256_k : list Z := Eval cbv in concat [
  [0x428a2f98; 0x71374491; 0xb5c0fbcf; 0xe9b5dba5; 0x3956c25b; 0x59f111f1];
  [0x923f82a4; 0xab1c5ed5; 0xd807aa98; 0x12835b01; 0x243185be; 0x550c7dc3];
  [0x72be5d74; 0x80deb1fe; 0x9bdc06a7; 0xc19bf174; 0xe49b69c1; 0xefbe4786];
  [0x0fc19dc6; 0x240ca1cc; 0x2de92c6f; 0x4a7484aa; 0x5cb0a9dc; 0x76f988da];
  [0x983e5152; 0xa831c66d; 0xb00327c8; 0xbf597fc7; 0xc6e00bf3; 0xd5a79147];
  [0x06ca6351; 0x14292967; 0x27b70a85; 0x2e1b2138; 0x4d2c6dfc; 0x53380d13];
  [0x650a7354; 0x766a0abb; 0x81c2c92e; 0x92722c85; 0xa2bfe8a1; 0xa81a664b];
  [0xc24b8b70; 0xc76c51a3; 0xd192e819; 0xd6990624; 0xf40e3585; 0x106aa070];
  [0x19a4c116; 0x1e376c08; 0x2748774c; 0x34b0bcb5; 0x391c0cb3; 0x4ed8aa4a];
  [0x5b9cca4f; 0x682e6ff3; 0x748f82ee; 0x78a5636f; 0x84c87814; 0x8cc70208];
  [0x90befffa; 0xa4506ceb; 0xbef9a3f7; 0xc67178f2]].

Definition sha512_h0 : list Z :=
  [0x6a09e667f3bcc908; 0xbb67ae8584caa73b; 0x3c6ef372fe94f82b;
   0xa54ff53a5f1d36f1; 0x510e527fade682d1; 0x9b05688c2b3e6c1f;
   0x1f83d9abfb41bd6b; 0x5be0cd19137e2179].

Definition sha512_k : list Z :=
  [0x428a2f98d728ae22; 0x7137449123ef65cd; 0xb5c0fbcfec4d3b2f;
   0xe9b5dba58189dbbc; 0x3956c25bf348b538; 0x59f111f1b605d019;
   0x923f82a4af194f9b; 0xab1c5ed5da6d8118; 0xd807aa98a3030242;
   0x12835b0145706fbe; 0x243185be4ee4b28c; 0x550c7dc3d5ffb4e2;
   0x72be5d74f27b896f; 0x80deb1fe3b1696b1; 0x9bdc06a725c71235;
   0xc19bf174cf692694; 0xe49b69c19ef14ad2; 0xefbe4786384f25e3;
   0x0fc19dc68b8cd5b5; 0x240ca1cc77ac9c65; 0x2de92c6f592b0275;
   0x4a7484aa6ea6e483; 0x5cb0a9dcbd41fbd4; 0x76f988da831153b5;
   0x983e5152ee66dfab; 0xa831c66d2db43210; 0xb00327c898fb213f;
   0xbf597fc7beef0ee4; 0xc6e00bf33da88fc2; 0xd5a79147930aa725;
   0x06ca6351e003826f; 0x142929670a0e6e70; 0x27b70a8546d22ffc;
   0x2e1b21385c26c926; 0x4d2c6dfc5ac42aed; 0x53380d139d95b3df;
   0x650a73548baf63de; 0x766a0abb3c77b2a8; 0x81c2c92e47edaee6;
   0x92722c851482353b; 0xa2bfe8a14cf10364; 0xa81a664bbc423001;
   0xc24b8b70d0f89791; 0xc76c51a30654be30; 0xd192e819d6ef5218;
   0xd69906245565a910; 0xf40e35855771202a; 0x106aa07032bbd1b8;
   0x19a4c116b8d2d0c8; 0x1e376c085141ab53; 0x2748774cdf8eeb99;
   0x34b0bcb5e19b48a8; 0x391c0cb3c5c95a63; 0x4ed8aa4ae3418acb;
   0x5b9cca4f7763e373; 0x682e6ff3d6b2b8a3; 0x748f82ee5defb2fc;
   0x78a5636f43172f60; 0x84c87814a1f0ab72; 0x8cc702081a6439ec;
   0x90befffa23631e28; 0xa4506cebde82bde9; 0xbef9a3f7b2c67915;
   0xc67178f2e372532b; 0xca273eceea26619c; 0xd186b8c721c0c207;
   0xeada7dd6cde0eb1e; 0xf57d4f7fee6ed178; 0x06f067aa72176fba;
   0x0a637dc5a2c898a6; 0x113f9804bef90dae; 0x1b710b35131c471b;
   0x28db77f523047d84; 0x32caab7b40c72493; 0x3c9ebe0a15c9bebc;
   0x431d67c49c100d4c; 0x4cc5d4becb3e42b6; 0x597f299cfc657e2a;
   0x5fcb6fab3ad6faec; 0x6c44198c4a475817].

(** ** The parameters of one hash *)

Record Sha2 := {
  word_bytes : Z;
  wmask : Z → Z;
  F1 : Z → Z;
  F2 : Z → Z;
  F3 : Z → Z;
  F4 : Z → Z;
  sha_h0 : list Z;
  sha_k : list Z;
  PACK : bytes → Z;
  UNPACK : Z → bytes;
  BLOCK_SIZE : Z;
  (** the constant of the padding test, the end mark and the length field *)
  pad_min : Z;
}.

Definition AVB_SHA256_BLOCK_SIZE : Z := 64.
Definition AVB_SHA512_BLOCK_SIZE : Z := 128.

Definition SHA256 : Sha2 := {|
  word_bytes := 4; wmask := u32;
  F1 := SHA256_F1; F2 := SHA256_F2; F3 := SHA256_F3; F4 := SHA256_F4;
  sha_h0 := sha256_h0; sha_k := sha256_k; PACK := PACK32; UNPACK := UNPACK32;
  BLOCK_SIZE := AVB_SHA256_BLOCK_SIZE; pad_min := 9;
|}.

Definition SHA512 : Sha2 := {|
  word_bytes := 8; wmask := u64;
  F1 := SHA512_F1; F2 := SHA512_F2; F3 := SHA512_F3; F4 := SHA512_F4;
  sha_h0 := sha512_h0; sha_k := sha512_k; PACK := PACK64; UNPACK := UNPACK64;
  BLOCK_SIZE := AVB_SHA512_BLOCK_SIZE; pad_min := 17;
|}.

Record ShaCtx := mkCtx {
  ctx_h : list Z;
  ctx_tot_len : Z;
  ctx_len : Z;
  ctx_block : bytes;
}.

Section Sha2.
Variable p : Sha2.

(** ** One block *)

Definition SHA_SCR (w : list Z) (i : nat) : Z :=
  wmask p (F4 p (w !!! (i - 2)%nat) + w !!! (i - 7)%nat +
           F3 p (w !!! (i - 15)%nat) + w !!! (i - 16)%nat).

(** The message schedule: [w] is filled in index order. *)
Definition schedule (sub_block : bytes) : list Z :=
  let w := map (fun j => PACK p (slice sub_block (Z.of_nat j * word_bytes p) (word_bytes p)))
             (seq 0 16) in
  foldl (fun w j => w ++ [SHA_SCR w j]) w (seq 16 (length (sha_k p) - 16)).

(** The body of the rolled loop, the eight assignments in order. *)
Definition sha_round (w : list Z) (wv : list Z) (j : nat) : list Z :=
  match wv with
  | [a; b; c; d; e; f; g; h] =>
      let t1 := wmask p (h + F2 p e + CH e f g + sha_k p !!! j + w !!! j) in
      let t2 := wmask p (F1 p a + MAJ a b c) in
      [wmask p (t1 + t2); a; b; c; wmask p (d + t1); e; f; g]
  | _ => wv
  end.

Definition add_words (h wv : list Z) : list Z :=
  zip_with (fun x y => wmask p (x + y)) h wv.

Definition compress (h : list Z) (sub_block : bytes) : list Z :=
  let w := schedule sub_block in
  add_words h (foldl (sha_round w) h (seq 0 (length (sha_k p)))).

(** The macro [SHA256_EXP]/[SHA512_EXP] of the unrolled variant and the rounds
    built from it: round [j] names the eight variables shifted by [j]. *)
Definition SHA_EXP (w : list Z) (wv : list Z) (a b c d e f g h j : nat) : list Z :=
  let t1 := wmask p (wv !!! h + F2 p (wv !!! e) + CH (wv !!! e) (wv !!! f) (wv !!! g) +
                     sha_k p !!! j + w !!! j) in
  let t2 := wmask p (F1 p (wv !!! a) + MAJ (wv !!! a) (wv !!! b) (wv !!! c)) in
  <[h := wmask p (t1 + t2)]> (<[d := wmask p (wv !!! d + t1)]> wv).

Definition unrolled_round (w : list Z) (wv : list Z) (j : nat) : list Z :=
  match (j mod 8)%nat with
  | 0%nat => SHA_EXP w wv 0 1 2 3 4 5 6 7 j
  | 1%nat => SHA_EXP w wv 7 0 1 2 3 4 5 6 j
  | 2%nat => SHA_EXP w wv 6 7 0 1 2 3 4 5 j
  | 3%nat => SHA_EXP w wv 5 6 7 0 1 2 3 4 j
  | 4%nat => SHA_EXP w wv 4 5 6 7 0 1 2 3 j
  | 5%nat => SHA_EXP w wv 3 4 5 6 7 0 1 2 j
  | 6%nat => SHA_EXP w wv 2 3 4 5 6 7 0 1 j
  | _ => SHA_EXP w wv 1 2 3 4 5 6 7 0 j
  end.

Definition compress_unrolled (h : list Z) (sub_block : bytes) : list Z :=
  let w := schedule sub_block in
  add_words h (foldl (unrolled_round w) h (seq 0 (length (sha_k p)))).

(** ** The buffered interface *)

(** [SHA256_transform]: the blocks of [message], found at the int offset
    [i << 6] (or [i << 7]). *)
Fixpoint SHA_transform_from (i : Z) (n : nat) (h : list Z) (message : bytes) : run (list Z) :=
  match n with
  | O => Ret h
  | S n =>
      sub_block ← rd message (s32 (i * BLOCK_SIZE p)) (BLOCK_SIZE p);
      SHA_transform_from (i + 1) n (compress h sub_block) message
  end.

Definition SHA_transform (h : list Z) (message : bytes) (block_nb : Z) : run (list Z) :=
  SHA_transform_from 0 (Z.to_nat (s32 block_nb)) h message.

(** The block buffer starts with whatever is in memory, written as zeros here;
    no byte of it is read before it is written. *)
Definition avb_sha_init : ShaCtx :=
  mkCtx (sha_h0 p) 0 0 (replicate (Z.to_nat (2 * BLOCK_SIZE p)) 0).

Definition avb_sha_update (ctx : ShaCtx) (data : bytes) (len : Z) : run ShaCtx :=
  let tmp_len := u32 (BLOCK_SIZE p - ctx_len ctx) in
  let rem_len := if len <? tmp_len then len else tmp_len in
  x ← rd data 0 rem_len;
  block ← wr (ctx_block ctx) (ctx_len ctx) x;
  if u32 (ctx_len ctx + len) <? BLOCK_SIZE p
  then Ret (mkCtx (ctx_h ctx) (ctx_tot_len ctx) (u32 (ctx_len ctx + len)) block)
  else
    let new_len := u32 (len - rem_len) in
    let block_nb := new_len / BLOCK_SIZE p in
    let shifted_data := drop (Z.to_nat rem_len) data in
    h ← SHA_transform (ctx_h ctx) block 1;
    h ← SHA_transform h shifted_data block_nb;
    let rem_len := new_len mod BLOCK_SIZE p in
    x ← rd shifted_data (u32 (block_nb * BLOCK_SIZE p)) rem_len;
    block ← wr block 0 x;
    Ret (mkCtx h (u32 (ctx_tot_len ctx + u32 ((block_nb + 1) * BLOCK_SIZE p))) rem_len block).

(** The digest, [ctx->buf]. *)
Definition avb_sha_final (ctx : ShaCtx) : run bytes :=
  let block_nb := if BLOCK_SIZE p - pad_min p <? ctx_len ctx mod BLOCK_SIZE p then 2 else 1 in
  let len_b := u32 (Z.shiftl (u32 (ctx_tot_len ctx + ctx_len ctx)) 3) in
  let pm_len := block_nb * BLOCK_SIZE p in
  block ← wr (ctx_block ctx) (ctx_len ctx)
            (replicate (Z.to_nat (u32 (pm_len - ctx_len ctx))) 0);
  block ← wr block (ctx_len ctx) [0x80];
  block ← wr block (pm_len - 4) (UNPACK32 len_b);
  h ← SHA_transform (ctx_h ctx) block block_nb;
  Ret (concat (map (UNPACK p) h)).

(** ** The hash as a fold over blocks *)

Fixpoint hash_blocks (n : nat) (h : list Z) (message : bytes) : list Z :=
  match n with
  | O => h
  | S n => hash_blocks n (compress h (take (Z.to_nat (BLOCK_SIZE p)) message))
             (drop (Z.to_nat (BLOCK_SIZE p)) message)
  end.

(** What the buffering relies on of the parameters. *)
Definition sha2_ok : Prop :=
  0 < BLOCK_SIZE p ≤ 128 ∧ 9 ≤ pad_min p ≤ BLOCK_SIZE p ∧ length (sha_h0 p) = 8%nat.

Hypothesis Hp : sha2_ok.

Notation B := (BLOCK_SIZE p).
Notation Bn := (Z.to_nat (BLOCK_SIZE p)).

Lemma Bn_pos : Z.of_nat Bn = B ∧ 9 ≤ B ≤ 128.
Proof using Hp. destruct Hp as (? & ? & _). lia. Qed.

Lemma hash_blocks_app n m h a b :
  length a = (n * Bn)%nat →
  hash_blocks (n + m) h (a ++ b) = hash_blocks m (hash_blocks n h a) b.
Proof using Type.
  revert h a. induction n as [|n IH]; intros h a Ha; simpl in *.
  - by destruct a.
  - rewrite take_app_le, drop_app_le by lia. apply IH. rewrite length_drop. lia.
Qed.

Lemma hash_blocks_prefix n h a b :
  (n * Bn ≤ length a)%nat → hash_blocks n h (a ++ b) = hash_blocks n h a.
Proof using Type.
  revert h a. induction n as [|n IH]; intros h a Ha; simpl in *; [done|].
  rewrite take_app_le, drop_app_le by lia. apply IH. rewrite length_drop. lia.
Qed.

Lemma transform_from_blocks i n h message :
  0 ≤ i → (i + Z.of_nat n) * B ≤ zlen message → (i + Z.of_nat n) * B ≤ 0x80000000 →
  SHA_transform_from i n h message =
    Ret (hash_blocks n h (drop (Z.to_nat (i * B)) message)).
Proof using Hp.
  destruct Bn_pos as [HB HB']. revert i h. induction n as [|n IH]; intros i h Hi Hl H31; [done|].
  cbn [SHA_transform_from hash_blocks]. rewrite s32_small, rd_ok by nia.
  cbn [mbind run_bind]. rewrite IH by nia. unfold slice. rewrite drop_drop.
  do 3 f_equal. nia.
Qed.

Lemma transform_blocks h message n :
  Z.of_nat n * B ≤ zlen message → Z.of_nat n * B ≤ 0x80000000 →
  SHA_transform h message (Z.of_nat n) = Ret (hash_blocks n h message).
Proof using Hp.
  destruct Bn_pos as [HB HB']. intros Hl H31. unfold SHA_transform.
  destruct (decide (n = 0%nat)) as [->|]; [done|].
  rewrite s32_small, Nat2Z.id by nia. rewrite transform_from_blocks by lia. done.
Qed.

(** The state of a context that has been fed the bytes [d]. *)
Definition absorbed (ctx : ShaCtx) (d : bytes) : Prop :=
  ∃ full tail q junk,
    d = full ++ tail ∧ length full = (q * Bn)%nat ∧ (length tail < Bn)%nat ∧
    ctx_h ctx = hash_blocks q (sha_h0 p) full ∧
    ctx_len ctx = zlen tail ∧ ctx_tot_len ctx = u32 (zlen full) ∧
    ctx_block ctx = tail ++ junk ∧ length (tail ++ junk) = (2 * Bn)%nat.

Lemma absorbed_init : absorbed avb_sha_init [].
Proof using Hp.
  destruct Bn_pos as [HB HB'].
  exists [], [], 0%nat, (replicate (Z.to_nat (2 * B)) 0).
  split_and!; try done; simpl; rewrite ?length_replicate; lia.
Qed.

Lemma update_small ctx d x extra :
  absorbed ctx d → ctx_len ctx + zlen x < B →
  ∃ ctx', avb_sha_update ctx (x ++ extra) (zlen x) = Ret ctx' ∧ absorbed ctx' (d ++ x).
Proof using Hp.
  destruct Bn_pos as [HB HB'].
  intros (full & tail & q & junk & -> & Hf & Ht & Hh & El & Et & Eb & Hb) Hs.
  pose proof (zlen_nonneg x). pose proof (zlen_nonneg tail). rewrite El in Hs.
  unfold avb_sha_update. rewrite El, Eb.
  rewrite (u32_small (B - zlen tail)) by (unfold is_u32; lia).
  rewrite (u32_small (zlen tail + zlen x)) by (unfold is_u32; lia).
  rewrite (proj2 (Z.ltb_lt (zlen x) _)) by lia. rewrite (proj2 (Z.ltb_lt _ B)) by lia.
  rewrite rd_ok by (rewrite ?zlen_app; auto with bytes; pose proof (zlen_nonneg extra); lia).
  rewrite slice_app_l, slice_all by lia. cbn [mbind run_bind].
  rewrite length_app in Hb.
  destruct (list_split_at (length x) junk) as (j1 & j2 & -> & Ej); [unfold zlen in *; lia|].
  rewrite wr_app by (unfold zlen; lia). cbn [mbind run_bind].
  eexists. split; [reflexivity|].
  exists full, (tail ++ x), q, j2. cbn [ctx_h ctx_len ctx_tot_len ctx_block].
  rewrite !length_app in *. unfold zlen in *.
  split_and!; try done; rewrite ?length_app, <-?app_assoc; try done; lia.
Qed.

(** An update that completes a block: [x1] fills it, [x2] is whole blocks and
    [x3] goes into the emptied buffer. *)
Lemma update_split h tot tail junk x1 x2 x3 extra n :
  zlen tail + zlen x1 = B → length (tail ++ junk) = (2 * Bn)%nat →
  length x2 = (n * Bn)%nat → zlen x3 < B → zlen x1 + zlen x2 + zlen x3 < 0x80000000 →
  ∃ junk',
    avb_sha_update (mkCtx h tot (zlen tail) (tail ++ junk))
      (x1 ++ x2 ++ x3 ++ extra) (zlen x1 + zlen x2 + zlen x3) =
    Ret (mkCtx (hash_blocks n (hash_blocks 1 h (tail ++ x1)) x2)
           (u32 (tot + (Z.of_nat n + 1) * B)) (zlen x3) (x3 ++ junk')) ∧
    length (x3 ++ junk') = (2 * Bn)%nat.
Proof using Hp.
  destruct Bn_pos as [HB HB']. intros H1 Hb H2 H3 H31. unfold avb_sha_update.
  cbn [ctx_h ctx_len ctx_tot_len ctx_block].
  pose proof (zlen_nonneg x1). pose proof (zlen_nonneg x2). pose proof (zlen_nonneg x3).
  pose proof (zlen_nonneg tail). pose proof (zlen_nonneg extra).
  assert (zlen x2 = Z.of_nat n * B) as E2 by (unfold zlen; lia).
  rewrite (u32_small (B - zlen tail)) by (unfold is_u32; lia).
  rewrite (u32_small (zlen tail + _)) by (unfold is_u32; lia).
  rewrite (proj2 (Z.ltb_ge _ (B - zlen tail))), (proj2 (Z.ltb_ge (zlen tail + _) B)) by lia.
  replace (B - zlen tail) with (zlen x1) by lia.
  rewrite (rd_ok _ 0) by (rewrite ?zlen_app; lia).
  rewrite slice_app_l, slice_all by lia. cbn [mbind run_bind].
  rewrite length_app in Hb.
  destruct (list_split_at (length x1) junk) as (j1 & j2 & -> & Ej); [unfold zlen in *; lia|].
  rewrite length_app in Hb. rewrite wr_app by (unfold zlen; lia). cbn [mbind run_bind].
  replace (zlen x1 + zlen x2 + zlen x3 - zlen x1) with (zlen x2 + zlen x3) by lia.
  rewrite (u32_small (zlen x2 + zlen x3)) by (unfold is_u32; lia).
  replace ((zlen x2 + zlen x3) / B) with (Z.of_nat n)
    by (apply Z.div_unique_pos with (zlen x3); lia).
  replace ((zlen x2 + zlen x3) mod B) with (zlen x3)
    by (apply Z.mod_unique_pos with (Z.of_nat n); lia).
  replace (drop _ _) with (x2 ++ x3 ++ extra)
    by (unfold zlen; by rewrite Nat2Z.id, drop_app_length).
  change (SHA_transform h (tail ++ x1 ++ j2) 1)
    with (SHA_transform h (tail ++ x1 ++ j2) (Z.of_nat 1)).
  rewrite (transform_blocks h (tail ++ x1 ++ j2) 1) by (rewrite ?zlen_app; unfold zlen in *; lia).
  cbn [mbind run_bind].
  assert (hash_blocks 1 h (tail ++ x1 ++ j2) = hash_blocks 1 h (tail ++ x1)) as ->.
  { rewrite app_assoc. apply hash_blocks_prefix. rewrite length_app. unfold zlen in *. lia. }
  rewrite transform_blocks by (rewrite ?zlen_app; lia). cbn [mbind run_bind].
  rewrite (u32_small (Z.of_nat n * B)) by (unfold is_u32; lia). rewrite <-E2.
  rewrite rd_ok by (rewrite ?zlen_app; lia). rewrite slice_app_r by lia.
  rewrite slice_app_l, slice_all by lia. cbn [mbind run_bind].
  destruct (list_split_at (length x3) (tail ++ x1 ++ j2)) as (b1 & b2 & Eb & Lb).
  { rewrite !length_app. unfold zlen in *. lia. }
  pose proof (f_equal length Eb) as Lb'. rewrite !length_app in Lb'.
  exists b2. split; [|rewrite length_app; lia].
  rewrite Eb, wr_app_0 by (unfold zlen; lia). cbn [mbind run_bind].
  f_equal. f_equal; [|by rewrite Z.add_comm, u32_add_u32, Z.add_comm].
  apply hash_blocks_prefix. lia.
Qed.

Lemma update_large ctx d x extra :
  absorbed ctx d → B ≤ ctx_len ctx + zlen x → zlen x < 0x80000000 →
  ∃ ctx', avb_sha_update ctx (x ++ extra) (zlen x) = Ret ctx' ∧ absorbed ctx' (d ++ x).
Proof using Hp.
  destruct Bn_pos as [HB HB']. destruct ctx as [h tot len block].
  intros (full & tail & q & junk & -> & Hf & Ht & Hh & El & Et & Eb & Hb) Hs H31.
  cbn [ctx_h ctx_len ctx_tot_len ctx_block] in *. subst len block.
  destruct (list_split_at (Z.to_nat (B - zlen tail)) x) as (x1 & x' & -> & E1);
    [unfold zlen in *; lia|].
  pose proof (Nat.div_mod (length x') Bn ltac:(lia)) as Hdm.
  pose proof (Nat.mod_upper_bound (length x') Bn ltac:(lia)) as Hm.
  set (n := (length x' / Bn)%nat) in *.
  destruct (list_split_at (n * Bn) x') as (x2 & x3 & -> & E2); [lia|].
  rewrite length_app in Hdm, Hm.
  destruct (update_split h tot tail junk x1 x2 x3 extra n) as (junk' & Hu & Hj).
  { unfold zlen in *. lia. }
  { done. }
  { done. }
  { unfold zlen in *. lia. }
  { rewrite !zlen_app in H31. lia. }
  rewrite <-!app_assoc, !zlen_app, Z.add_assoc, Hu. eexists. split; [reflexivity|].
  exists (full ++ (tail ++ x1) ++ x2), x3, (q + (1 + n))%nat, junk'.
  cbn [ctx_h ctx_len ctx_tot_len ctx_block]. rewrite !length_app in *.
  split_and!; try done; try lia.
  - by rewrite <-!app_assoc.
  - unfold zlen in *. lia.
  - rewrite hash_blocks_app by done. rewrite hash_blocks_app, <-Hh; [done|].
    rewrite length_app. unfold zlen in *. lia.
  - rewrite Et, u32_add_u32. f_equal. rewrite !zlen_app. unfold zlen in *. nia.
Qed.

(** Feeding more bytes: the digest state of [d] becomes that of [d ++ x]. *)
Lemma update_absorbs ctx d x extra :
  absorbed ctx d → zlen x < 0x80000000 →
  ∃ ctx', avb_sha_update ctx (x ++ extra) (zlen x) = Ret ctx' ∧ absorbed ctx' (d ++ x).
Proof using Hp.
  intros Ha Hx. destruct (Z_lt_le_dec (ctx_len ctx + zlen x) B).
  - by apply update_small.
  - by apply update_large.
Qed.

(** ** Padding *)

(** The bytes [avb_sha_final] appends: the end mark, zeros up to the end of the
    block (or of the next one), and the bit count in the last four bytes. *)
Definition final_blocks (t : Z) : Z := if B - pad_min p <? t then 2 else 1.
Definition final_padding (d : bytes) : bytes :=
  let t := zlen d mod B in
  0x80 :: replicate (Z.to_nat (final_blocks t * B - t - 5)) 0 ++ UNPACK32 (u32 (8 * zlen d)).

Definition digest_of (h : list Z) : bytes := concat (map (UNPACK p) h).

Lemma final_buffer tail junk len_b :
  zlen tail < B → length (tail ++ junk) = (2 * Bn)%nat →
  let pm_len := final_blocks (zlen tail) * B in
  ∃ junk',
    (block ← wr (tail ++ junk) (zlen tail)
               (replicate (Z.to_nat (u32 (pm_len - zlen tail))) 0);
     block ← wr block (zlen tail) [0x80];
     wr block (pm_len - 4) (UNPACK32 len_b)) =
    Ret ((tail ++ 0x80 :: replicate (Z.to_nat (pm_len - zlen tail - 5)) 0 ++ UNPACK32 len_b)
         ++ junk').
Proof using Hp.
  destruct Bn_pos as [HB HB']. intros Ht Hb pm_len. pose proof (zlen_nonneg tail).
  destruct Hp as (_ & Hpad & _).
  assert (zlen tail + 9 ≤ pm_len ≤ 2 * B) as Hpm.
  { unfold pm_len, final_blocks. destruct (Z.ltb_spec (B - pad_min p) (zlen tail)); lia. }
  clearbody pm_len. rewrite u32_small by (unfold is_u32; lia). rewrite length_app in Hb.
  destruct (list_split_at (Z.to_nat (pm_len - zlen tail)) junk) as (j1 & j2 & -> & Ej);
    [unfold zlen in *; lia|].
  rewrite (wr_app tail j1 j2) by (rewrite zlen_replicate; unfold zlen in *; lia).
  cbn [mbind run_bind].
  replace (Z.to_nat (pm_len - zlen tail))
    with (1 + (Z.to_nat (pm_len - zlen tail - 5) + 4))%nat by lia.
  rewrite !replicate_add, <-!app_assoc.
  change (replicate 1 0) with [0]. rewrite wr_app by done. cbn [mbind run_bind].
  exists j2. rewrite !app_assoc. rewrite <-app_assoc.
  set (pre := (tail ++ [128]) ++ replicate _ 0).
  replace (pm_len - 4) with (zlen pre).
  - rewrite wr_app by done. unfold pre. rewrite <-!app_assoc. cbn [app].
    by rewrite <-!app_assoc.
  - unfold pre. rewrite !zlen_app, zlen_replicate. change (zlen [128]) with 1. lia.
Qed.

Lemma final_absorbed ctx d :
  absorbed ctx d →
  ∃ n, zlen (d ++ final_padding d) = Z.of_nat n * B ∧
    avb_sha_final ctx = Ret (digest_of (hash_blocks n (sha_h0 p) (d ++ final_padding d))).
Proof using Hp.
  destruct Bn_pos as [HB HB']. destruct ctx as [h tot len block].
  intros (full & tail & q & junk & -> & Hf & Ht & Hh & El & Et & Eb & Hb).
  cbn [ctx_h ctx_len ctx_tot_len ctx_block] in *. subst len block.
  pose proof (zlen_nonneg tail). assert (zlen tail < B) by (unfold zlen; lia).
  assert (zlen (full ++ tail) mod B = zlen tail) as Em.
  { symmetry. apply Z.mod_unique_pos with (Z.of_nat q); [lia|].
    rewrite zlen_app. unfold zlen in *. lia. }
  assert (zlen tail mod B = zlen tail) as Em' by (by apply Z.mod_small).
  destruct (final_buffer tail junk (u32 (8 * zlen (full ++ tail)))) as (junk' & Hw); [done..|].
  unfold final_padding. rewrite Em. unfold avb_sha_final.
  cbn [ctx_h ctx_len ctx_tot_len ctx_block]. rewrite Em'. fold (final_blocks (zlen tail)).
  assert (u32 (Z.shiftl (u32 (tot + zlen tail)) 3) = u32 (8 * zlen (full ++ tail))) as ->.
  { rewrite Et, u32_add_u32, Z.shiftl_mul_pow2 by lia. rewrite <-zlen_app, Z.mul_comm.
    unfold u32. by rewrite Zmult_mod_idemp_r. }
  apply run_bind_Ret in Hw as (b1 & -> & Hw). cbn [mbind run_bind].
  apply run_bind_Ret in Hw as (b2 & -> & Hw). cbn [mbind run_bind].
  rewrite Hw. cbn [mbind run_bind].
  set (n2 := if B - pad_min p <? zlen tail then 2%nat else 1%nat).
  replace (final_blocks (zlen tail)) with (Z.of_nat n2)
    by (unfold n2, final_blocks; by destruct (_ <? _)).
  set (last := tail ++ _).
  assert (length last = (n2 * Bn)%nat) as Hlast.
  { destruct Hp as (_ & Hpad & _). unfold last. rewrite !length_app. cbn [length].
    rewrite length_app, length_replicate. cbn [length UNPACK32].
    unfold n2. unfold zlen in *.
    destruct (Z.ltb_spec (B - pad_min p) (Z.of_nat (length tail))); lia. }
  rewrite transform_blocks.
  2-3: rewrite ?zlen_app; pose proof (zlen_nonneg junk'); unfold zlen in *;
       assert (n2 ≤ 2)%nat by (unfold n2; destruct (_ <? _); lia); nia.
  exists (q + n2)%nat. cbn [mbind run_bind]. rewrite <-app_assoc. fold last. split.
  - rewrite zlen_app. unfold zlen. lia.
  - rewrite hash_blocks_app, <-Hh by done. rewrite hash_blocks_prefix by lia. done.
Qed.

(** ** The padding of the standard *)

(** Padding of FIPS 180-4: the end mark, the fewest zeros that complete a block,
    the bit count as a 64-bit (128-bit) big-endian number. *)
Definition fips_padding (d : bytes) : bytes :=
  0x80 :: replicate (Z.to_nat ((- (zlen d + pad_min p)) mod B)) 0 ++
  be_encode (Z.to_nat (pad_min p - 1)) (8 * zlen d).

(** The blocks of the padded message, hashed. *)
Definition padded_digest (d : bytes) : bytes :=
  let m := d ++ fips_padding d in
  digest_of (hash_blocks (Z.to_nat (zlen m / B)) (sha_h0 p) m).

Lemma UNPACK32_be x : UNPACK32 x = be_encode 4 x.
Proof using Type.
  unfold UNPACK32, be_encode, u8. cbn [le_encode rev app].
  rewrite !Z.shiftr_div_pow2, !Z.div_div by lia. done.
Qed.

Lemma replicate_snoc {A} n (x : A) : replicate n x ++ [x] = x :: replicate n x.
Proof using Type. symmetry. apply replicate_cons_app. Qed.

Lemma rev_replicate {A} n (x : A) : rev (replicate n x) = replicate n x.
Proof using Type. induction n as [|n IH]; [done|]. simpl. by rewrite IH, replicate_snoc. Qed.

Lemma padding_standard d :
  8 * zlen d < 0x100000000 → final_padding d = fips_padding d.
Proof using Hp.
  destruct Bn_pos as [HB HB']. destruct Hp as (_ & Hpad & _). intros Hd.
  pose proof (zlen_nonneg d). unfold final_padding, fips_padding.
  rewrite u32_small, UNPACK32_be by (unfold is_u32; lia).
  replace (Z.to_nat (pad_min p - 1)) with (4 + Z.to_nat (pad_min p - 5))%nat by lia.
  unfold be_encode. rewrite le_encode_zeros by (change (256 ^ Z.of_nat 4) with 0x100000000; lia).
  rewrite rev_app_distr, rev_replicate, app_assoc, <-replicate_add. do 3 f_equal.
  set (t := zlen d mod B). pose proof (Z.mod_pos_bound (zlen d) B ltac:(lia)). fold t in H0.
  assert ((- (zlen d + pad_min p)) mod B = final_blocks t * B - t - pad_min p) as ->.
  { symmetry. apply Z.mod_unique_pos with (- (zlen d / B) - final_blocks t).
    - unfold final_blocks. destruct (Z.ltb_spec (B - pad_min p) t); lia.
    - pose proof (Z.div_mod (zlen d) B ltac:(lia)) as Hdm. fold t in Hdm. lia. }
  unfold final_blocks. destruct (Z.ltb_spec (B - pad_min p) t); lia.
Qed.

(** The digest of whatever was absorbed. *)
Lemma final_of_absorbed ctx d :
  absorbed ctx d →
  avb_sha_final ctx =
    let m := d ++ final_padding d in
    Ret (digest_of (hash_blocks (Z.to_nat (zlen m / B)) (sha_h0 p) m)).
Proof using Hp.
  intros Ha. destruct Bn_pos as [HB HB'].
  destruct (final_absorbed ctx d Ha) as (n & En & ->). cbv zeta.
  by rewrite En, Z.div_mul, Nat2Z.id by lia.
Qed.

Lemma final_of_absorbed_standard ctx d :
  absorbed ctx d → 8 * zlen d < 0x100000000 → avb_sha_final ctx = Ret (padded_digest d).
Proof using Hp.
  intros Ha Hd. rewrite (final_of_absorbed ctx d Ha). unfold padded_digest.
  by rewrite padding_standard.
Qed.

(** Feeding from a buffer that is longer than the length given. *)
Lemma update_slice ctx d data len :
  absorbed ctx d → 0 ≤ len ≤ zlen data → len < 0x80000000 →
  ∃ ctx', avb_sha_update ctx data len = Ret ctx' ∧ absorbed ctx' (d ++ slice data 0 len).
Proof using Hp.
  intros Ha Hl Hlt.
  pose proof (zlen_slice data 0 len ltac:(lia) ltac:(lia) ltac:(lia)) as Hz.
  destruct (update_absorbs ctx d (slice data 0 len) (drop (Z.to_nat len) data) Ha)
    as (ctx' & E & Ha'); [lia|].
  exists ctx'. split; [|done]. rewrite Hz in E. rewrite <-E. f_equal.
  unfold slice. by rewrite drop_0, take_drop.
Qed.

(** An update that returns has found its [len] bytes. *)
Lemma update_reads ctx d data len ctx' :
  absorbed ctx d → 0 ≤ len < 0x80000000 → avb_sha_update ctx data len = Ret ctx' →
  len ≤ zlen data.
Proof using Hp.
  intros (full & tail & q & junk & _ & _ & Ht & _ & Ec & _ & _ & _) Hl E.
  destruct Bn_pos as [HB HB']. pose proof (zlen_nonneg tail).
  assert (zlen tail < B) as Ht' by (unfold zlen; lia).
  unfold avb_sha_update in E. rewrite Ec in E.
  apply run_bind_Ret in E as (x & Ex & E). apply rd_Ret in Ex as (_ & H1 & H2 & _).
  apply run_bind_Ret in E as (block & _ & E).
  rewrite (u32_small (B - zlen tail)) in * by (unfold is_u32; lia).
  rewrite (u32_small (zlen tail + len)) in E by (unfold is_u32; lia).
  destruct (Z.ltb_spec (zlen tail + len) B).
  { rewrite (proj2 (Z.ltb_lt len _)) in H2 by lia. lia. }
  rewrite (proj2 (Z.ltb_ge len _)) in * by lia.
  apply run_bind_Ret in E as (h1 & _ & E). apply run_bind_Ret in E as (h2 & _ & E).
  apply run_bind_Ret in E as (y & Ey & _). apply rd_Ret in Ey as (_ & _ & H3 & _).
  rewrite zlen_drop in H3 by lia. rewrite (u32_small (len - _)) in H3 by (unfold is_u32; lia).
  set (n := len - (B - zlen tail)) in *. pose proof (Z.div_mod n B ltac:(lia)).
  pose proof (Z.mod_pos_bound n B ltac:(lia)).
  assert (0 ≤ n / B * B) by (apply Z.mul_nonneg_nonneg; [apply Z.div_pos|]; lia).
  rewrite u32_small in H3 by (unfold is_u32; lia). lia.
Qed.

(** Feeding a sequence of buffers, and hashing them. *)
Fixpoint feed (ctx : ShaCtx) (chunks : list bytes) : run ShaCtx :=
  match chunks with
  | [] => Ret ctx
  | x :: chunks => ctx ← avb_sha_update ctx x (zlen x); feed ctx chunks
  end.

Definition avb_sha (chunks : list bytes) : run bytes :=
  ctx ← feed avb_sha_init chunks; avb_sha_final ctx.

Lemma feed_absorbs ctx d chunks :
  absorbed ctx d → Forall (fun x => zlen x < 0x80000000) chunks →
  ∃ ctx', feed ctx chunks = Ret ctx' ∧ absorbed ctx' (d ++ concat chunks).
Proof using Hp.
  intros Ha Hc. revert ctx d Ha. induction Hc as [|x chunks Hx _ IH]; intros ctx d Ha; simpl.
  - rewrite app_nil_r. eauto.
  - destruct (update_absorbs ctx d x [] Ha Hx) as (ctx1 & E & Ha1).
    rewrite app_nil_r in E. rewrite E. cbn [mbind run_bind].
    rewrite app_assoc. by apply IH.
Qed.

Lemma avb_sha_blocks chunks :
  Forall (fun x => zlen x < 0x80000000) chunks →
  let d := concat chunks in
  let m := d ++ final_padding d in
  avb_sha chunks = Ret (digest_of (hash_blocks (Z.to_nat (zlen m / B)) (sha_h0 p) m)).
Proof using Hp.
  intros Hc d m. destruct Bn_pos as [HB HB'].
  destruct (feed_absorbs _ [] chunks absorbed_init Hc) as (ctx & E & Ha).
  unfold avb_sha. rewrite E. exact (final_of_absorbed ctx _ Ha).
Qed.

Lemma avb_sha_standard chunks :
  Forall (fun x => zlen x < 0x80000000) chunks → 8 * zlen (concat chunks) < 0x100000000 →
  avb_sha chunks = Ret (padded_digest (concat chunks)).
Proof using Hp.
  intros Hc Hd. rewrite avb_sha_blocks by done. unfold padded_digest.
  by rewrite padding_standard.
Qed.

(** ** Size of a digest *)

Lemma compress_length h sub_block : length h = 8%nat → length (compress h sub_block) = 8%nat.
Proof using Type.
  intros Hh. unfold compress, add_words. rewrite length_zip_with, Hh.
  assert (∀ l, length (foldl (sha_round (schedule sub_block)) h l) = 8%nat) as ->; [|done].
  intros l. revert h Hh. induction l as [|j l IH]; intros h Hh; [done|]. cbn [foldl].
  apply IH. do 8 (destruct h as [|? h]; [done|]). by destruct h.
Qed.

Lemma hash_blocks_length n h m : length h = 8%nat → length (hash_blocks n h m) = 8%nat.
Proof using Type.
  revert h m. induction n as [|n IH]; intros h m Hh; [done|]. apply IH. by apply compress_length.
Qed.

Lemma digest_length h k :
  length h = 8%nat → (∀ x, length (UNPACK p x) = k) → length (digest_of h) = (8 * k)%nat.
Proof using Type.
  intros Hh Hk. unfold digest_of. rewrite <-Hh. clear Hh.
  induction h as [|x h IH]; [done|]. cbn [map concat]. rewrite length_app, Hk, IH. simpl. lia.
Qed.

End Sha2.

(** ** The functions of the two files

    [avb_sha256.c] and [avb_sha512.c] are the same code over two parameter sets. *)

Definition SHA256_transform := SHA_transform SHA256.
Definition avb_sha256_init : ShaCtx := avb_sha_init SHA256.
Definition avb_sha256_update := avb_sha_update SHA256.
Definition avb_sha256_final := avb_sha_final SHA256.
Definition SHA512_transform := SHA_transform SHA512.
Definition avb_sha512_init : ShaCtx := avb_sha_init SHA512.
Definition avb_sha512_update := avb_sha_update SHA512.
Definition avb_sha512_final := avb_sha_final SHA512.
Definition SHA512_transform_unrolled := compress_unrolled SHA512.

Lemma sha256_ok : sha2_ok SHA256.
Proof. by apply (bool_decide_unpack _). Qed.
Lemma sha512_ok : sha2_ok SHA512.
Proof. by apply (bool_decide_unpack _). Qed.

(** ** The unrolled variant *)

Section Unrolled.
Variable p : Sha2.

(** The eight working variables in the order the rolled loop keeps them, when
    [r] rounds (modulo 8) have renamed them. *)
Definition view (r : nat) (wv : list Z) : list Z :=
  map (fun i => wv !!! ((i + (8 - r)) mod 8)%nat) (seq 0 8).

Lemma unrolled_round_view w wv j :
  length wv = 8%nat →
  view (S j mod 8) (unrolled_round p w wv j) = sha_round p w (view (j mod 8) wv) j ∧
  length (unrolled_round p w wv j) = 8%nat.
Proof.
  intros Hl. do 8 (destruct wv as [|? wv]; [done|]). destruct wv; [|done].
  unfold unrolled_round. rewrite <-Nat.add_1_r, <-Nat.Div0.add_mod_idemp_l.
  pose proof (Nat.mod_upper_bound j 8 ltac:(lia)) as Hr.
  destruct (j mod 8)%nat as [|[|[|[|[|[|[|[|]]]]]]]]; [..|lia]; split; reflexivity.
Qed.

Lemma unrolled_rounds_view w wv i n :
  length wv = 8%nat →
  view ((i + n) mod 8) (foldl (unrolled_round p w) wv (seq i n)) =
    foldl (sha_round p w) (view (i mod 8) wv) (seq i n) ∧
  length (foldl (unrolled_round p w) wv (seq i n)) = 8%nat.
Proof.
  revert i wv. induction n as [|n IH]; intros i wv Hl.
  - by rewrite Nat.add_0_r.
  - cbn [seq foldl]. destruct (unrolled_round_view w wv i Hl) as [E Hl'].
    rewrite <-E, <-Nat.add_succ_comm. by apply IH.
Qed.

Lemma compress_unrolled_eq h sub_block :
  length h = 8%nat → (length (sha_k p) mod 8 = 0)%nat →
  compress_unrolled p h sub_block = compress p h sub_block.
Proof.
  intros Hh Hk. unfold compress_unrolled, compress. f_equal.
  set (w := schedule p sub_block).
  destruct (unrolled_rounds_view w h 0 (length (sha_k p)) Hh) as [E Hl].
  rewrite Nat.add_0_l, Hk in E. change (0 mod 8)%nat with 0%nat in E.
  assert (∀ l : list Z, length l = 8%nat → view 0 l = l) as Hv.
  { intros l Hl'. do 8 (destruct l as [|? l]; [done|]). by destruct l. }
  by rewrite !Hv in E.
Qed.

End Unrolled.

(** The unrolled block function (UNROLL_LOOPS) computes the same chaining
    value as the rolled one, for both hashes and every block. *)
Theorem unrolled_transform_same p h sub_block :
  p = SHA256 ∨ p = SHA512 → length h = 8%nat →
  compress_unrolled p h sub_block = compress p h sub_block.
Proof. intros [-> | ->] Hh; by apply compress_unrolled_eq. Qed.

Lemma unrolled_transform_same_witness :
  compress_unrolled SHA512 sha512_h0 (replicate 128 0) =
  compress SHA512 sha512_h0 (replicate 128 0).
Proof. apply unrolled_transform_same; [by right|done]. Defined.

(** ** Long messages *)

(** From 512 MiB on the bit count no longer fits the four bytes the code
    writes, and the bytes hashed are not the padded message of the standard. *)
Theorem sha_length_field_wraps p chunks :
  p = SHA256 ∨ p = SHA512 →
  Forall (fun x => zlen x < 0x80000000) chunks →
  let d := concat chunks in
  0x20000000 ≤ zlen d < 0x2000000000000000 →
  (let m := d ++ final_padding p d in
   avb_sha p chunks =
     Ret (digest_of p (hash_blocks p (Z.to_nat (zlen m / BLOCK_SIZE p)) (sha_h0 p) m))) ∧
  final_padding p d ≠ fips_padding p d.
Proof.
  intros Hp Hc d Hd. split.
  { apply avb_sha_blocks; [|done].
    destruct Hp as [-> | ->]; [apply sha256_ok|apply sha512_ok]. }
  intros E. assert (0x100000000 ≤ 8 * zlen d < 256 ^ 8) as H8 by lia.
  unfold final_padding, fips_padding in E. injection E as E.
  apply (f_equal be_decode) in E.
  rewrite !be_decode_zeros, UNPACK32_be, !be_decode_encode in E.
  assert (8 * zlen d mod 256 ^ Z.of_nat (Z.to_nat (pad_min p - 1)) = 8 * zlen d) as Hm.
  { apply Z.mod_small. split; [lia|]. destruct Hp as [-> | ->]; [apply H8|].
    etransitivity; [apply H8|]. done. }
  rewrite Hm in E.
  pose proof (Z.mod_pos_bound (u32 (8 * zlen d)) (256 ^ Z.of_nat 4) ltac:(done)) as Hb.
  rewrite E in Hb. change (256 ^ Z.of_nat 4) with 0x100000000 in Hb. lia.
Qed.

Lemma sha_length_field_wraps_witness :
  ∃ d, zlen (concat [d]) = 0x20000000 ∧
       final_padding SHA256 (concat [d]) ≠ fips_padding SHA256 (concat [d]).
Proof.
  assert (∃ d : bytes, zlen d = 0x20000000) as [d Hd].
  { exists (replicate (Z.to_nat 0x20000000) 0). rewrite zlen_replicate. by rewrite Z2Nat.id. }
  assert (zlen (concat [d]) = 0x20000000) as Hd' by (simpl; by rewrite app_nil_r).
  exists d. split; [exact Hd'|].
  apply (sha_length_field_wraps SHA256 [d]); [by left| |lia].
  constructor; [lia|constructor].
Defined.
