(* ===== verification/Sha2Spec.v ===== *)
(** * The hash functions compute the standard

    The block function, the constants and the padding of Sha2 are those of
    Fips180 on words below [2^w], for both parameter sets, and so is the digest. *)

From S2P Require Import Prelude AvbUtil Fips180 Sha2.

Definition word (w x : Z) : Prop := 0 ≤ x < 2 ^ w.

(** ** Operations on words *)

Lemma word_high w x i : word w x → 0 ≤ w ≤ i → Z.testbit x i = false.
Proof.
  intros [Hx Hx'] Hi. destruct (Z.eq_dec x 0) as [->|]; [apply Z.bits_0|].
  apply Z.bits_above_log2; [done|]. apply Z.log2_lt_pow2; [lia|].
  eapply Z.lt_le_trans; [exact Hx'|apply Z.pow_le_mono_r; lia].
Qed.

Lemma lor_word n a b : 0 ≤ n → word n a → Z.lor a (b * 2 ^ n) = a + b * 2 ^ n.
Proof.
  intros Hn Ha. assert (Z.land a (b * 2 ^ n) = 0) as E.
  { apply Z.bits_inj'. intros i Hi. rewrite Z.land_spec, Z.bits_0, <-Z.shiftl_mul_pow2 by done.
    destruct (Z_lt_le_dec i n) as [Hl|Hl]; [by rewrite (Z.shiftl_spec_low _ _ _ Hl), andb_false_r|].
    by rewrite (word_high n a i Ha) by done. }
  by rewrite Z.add_nocarry_lxor, Z.lxor_lor by done.
Qed.

Lemma rotate_word w n x : 0 ≤ n ≤ w → word w x →
  Z.lor (Z.shiftr x n) (Z.shiftl x (w - n) mod 2 ^ w) = x / 2 ^ n + x mod 2 ^ n * 2 ^ (w - n).
Proof.
  intros Hn [Hx Hw]. rewrite Z.shiftr_div_pow2, Z.shiftl_mul_pow2 by lia.
  assert (2 ^ w = 2 ^ n * 2 ^ (w - n)) as E by (rewrite <-Z.pow_add_r by lia; f_equal; lia).
  pose proof (Z.pow_pos_nonneg 2 n ltac:(lia) ltac:(lia)).
  rewrite E, Z.mul_mod_distr_r by (try apply Z.pow_nonzero; lia). apply lor_word; [lia|].
  split; [by apply Z.div_pos|]. apply Z.div_lt_upper_bound; lia.
Qed.

Lemma lnot_word w x z : 0 ≤ w → word w x → word w z →
  Z.land (Z.lnot x) z = Z.land (2 ^ w - 1 - x) z.
Proof.
  intros Hw [Hx Hx'] Hz. apply Z.bits_inj'. intros i Hi. rewrite !Z.land_spec.
  destruct (Z_lt_le_dec i w) as [Hl|Hl].
  - f_equal. rewrite <-(Z.mod_pow2_bits_low (Z.lnot x) w i Hl).
    f_equal. unfold Z.lnot. symmetry. apply Z.mod_unique_pos with (-1); lia.
  - by rewrite (word_high w z i Hz), !andb_false_r by done.
Qed.

(** ** What the parameters of the code have to be *)

Record implements (p : Sha2) (f : sha_function) : Prop := {
  im_word : word_bytes p = word_bits f / 8;
  im_block : BLOCK_SIZE p = block_bits f / 8;
  im_pad : pad_min p = length_bits f / 8 + 1;
  im_mask : ∀ x, wmask p x = x mod 2 ^ word_bits f;
  im_F1 : ∀ x, word (word_bits f) x → F1 p x = Sigma0 f x;
  im_F2 : ∀ x, word (word_bits f) x → F2 p x = Sigma1 f x;
  im_F3 : ∀ x, word (word_bits f) x → F3 p x = sigma0 f x;
  im_F4 : ∀ x, word (word_bits f) x → F4 p x = sigma1 f x;
  im_h0 : sha_h0 p = initial_hash f;
  im_k : sha_k p = K f <$> seq 0 (rounds f);
  im_pack : ∀ s, bytes_ok s → zlen s = word_bits f / 8 → PACK p s = be_decode s;
  im_unpack : ∀ x, UNPACK p x = be_encode (Z.to_nat (word_bits f / 8)) x
}.

Lemma pack_add a b n : 0 ≤ n → 0 ≤ a < 2 ^ n → Z.lor a (Z.shiftl b n) = a + b * 2 ^ n.
Proof. intros Hn Ha. rewrite Z.shiftl_mul_pow2 by done. by apply lor_word. Qed.

Lemma PACK32_be s : bytes_ok s → zlen s = 4 → PACK32 s = be_decode s.
Proof.
  intros Hs Hl. destruct s as [|b0 [|b1 [|b2 [|b3 [|]]]]]; try (unfold zlen in Hl; cbn in Hl; lia).
  unfold bytes_ok, is_u8 in Hs. rewrite !Forall_cons in Hs. unfold PACK32, be_decode.
  cbn [foldl lookup_total list_lookup_total].
  rewrite (pack_add _ _ 8), (pack_add _ _ 16), (pack_add _ _ 24) by lia. lia.
Qed.

Lemma PACK64_be s : bytes_ok s → zlen s = 8 → PACK64 s = be_decode s.
Proof.
  intros Hs Hl. destruct s as [|b0 [|b1 [|b2 [|b3 [|b4 [|b5 [|b6 [|b7 [|]]]]]]]]];
    try (unfold zlen in Hl; cbn in Hl; lia).
  unfold bytes_ok, is_u8 in Hs. rewrite !Forall_cons in Hs. unfold PACK64, be_decode.
  cbn [foldl lookup_total list_lookup_total].
  rewrite (pack_add _ _ 8), (pack_add _ _ 16), (pack_add _ _ 24), (pack_add _ _ 32), (pack_add _ _ 40),
    (pack_add _ _ 48), (pack_add _ _ 56) by lia. lia.
Qed.

Lemma UNPACK64_be x : UNPACK64 x = be_encode 8 x.
Proof.
  unfold UNPACK64, be_encode, u8. cbn [le_encode rev app].
  rewrite !Z.shiftr_div_pow2, !Z.div_div by lia. done.
Qed.

Lemma ROTR32_word x n : 0 ≤ n ≤ 32 → word 32 x → ROTR32 x n = rotr SHA_256 n x.
Proof. apply rotate_word. Qed.

Lemma ROTR64_word x n : 0 ≤ n ≤ 64 → word 64 x → ROTR64 x n = rotr SHA_512 n x.
Proof. apply rotate_word. Qed.

Lemma sha256_implements : implements SHA256 SHA_256.
Proof.
  split; [done..| | | | |by vm_compute|by vm_compute|apply PACK32_be|apply UNPACK32_be];
    cbn [F1 F2 F3 F4 SHA256 word_bits Sigma0 Sigma1 sigma0 sigma1].
  all: intros x Hx; unfold SHA256_F1, SHA256_F2, SHA256_F3, SHA256_F4, three;
    rewrite !ROTR32_word by (done || lia); unfold SHFR; by rewrite ?Z.shiftr_div_pow2 by lia.
Qed.

Lemma sha512_implements : implements SHA512 SHA_512.
Proof.
  split; [done..| | | | |by vm_compute|by vm_compute|apply PACK64_be|apply UNPACK64_be];
    cbn [F1 F2 F3 F4 SHA512 word_bits Sigma0 Sigma1 sigma0 sigma1].
  all: intros x Hx; unfold SHA512_F1, SHA512_F2, SHA512_F3, SHA512_F4, three;
    rewrite !ROTR64_word by (done || lia); unfold SHFR; by rewrite ?Z.shiftr_div_pow2 by lia.
Qed.

(** ** The block function *)

Section Refines.
Context (p : Sha2) (f : sha_function) (im : implements p f).

Notation w := (word_bits f).
Notation words := (Forall (word w)).

Lemma word_bits_pos : 0 < w ∧ w = 8 * (w / 8) ∧ 0 < w / 8.
Proof using Type. clear im. by destruct f. Qed.

Lemma mod_word x : word w (x mod 2 ^ w).
Proof using Type. apply Z.mod_pos_bound, Z.pow_pos_nonneg; [done|]. pose proof word_bits_pos. lia. Qed.
Local Hint Resolve mod_word : core.

Lemma be_word s : bytes_ok s → zlen s = w / 8 → word w (be_decode s).
Proof using Type.
  intros Hs Hl. pose proof (be_decode_range s Hs) as Hr. destruct word_bits_pos as (_ & Hw & Hp).
  unfold word. rewrite Hw, Z.pow_mul_r, <-Hl by lia. exact Hr.
Qed.

(** The sums of the code are reduced once, those of the standard at every step. *)
Lemma plus_mod x y : plus f (x mod 2 ^ w) y = (x + y) mod 2 ^ w.
Proof using Type. unfold plus. apply Zplus_mod_idemp_l. Qed.

Lemma CH_word x y z : word w x → word w z → CH x y z = Ch f x y z.
Proof using Type.
  intros Hx Hz. unfold CH, Ch, complement. f_equal. apply lnot_word; [|done..].
  pose proof word_bits_pos. lia.
Qed.

(** *** The schedule *)

Definition block_words (block : bytes) : list Z :=
  map (fun j => PACK p (slice block (Z.of_nat j * word_bytes p) (word_bytes p))) (seq 0 16).

Definition code_schedule (block : bytes) (n : nat) : list Z :=
  foldl (fun w j => w ++ [SHA_SCR p w j]) (block_words block) (seq 16 n).

Lemma block_words_standard block : bytes_ok block → zlen block = block_bits f / 8 →
  block_words block = block_word f block <$> seq 0 16 ∧ words (block_words block).
Proof using im.
  intros Hb Hl. pose proof word_bits_pos as (H0 & Hw & Hp).
  assert (block_bits f / 8 = 16 * (w / 8)) as E by by destruct f.
  assert (∀ j, j ∈ seq 0 16 →
    PACK p (slice block (Z.of_nat j * word_bytes p) (word_bytes p)) = block_word f block j
    ∧ word w (block_word f block j)) as Hj.
  { intros j Hj%elem_of_seq. unfold block_word. rewrite (im_word _ _ im).
    assert (zlen (slice block (Z.of_nat j * (w / 8)) (w / 8)) = w / 8) as Hz
      by (apply zlen_slice; nia).
    split; [apply (im_pack _ _ im)|apply be_word]; auto using slice_ok. }
  unfold block_words. change (@map nat Z) with (@fmap list _ nat Z). split.
  - apply list_fmap_ext. intros i j Hij. apply Hj. by eapply list_elem_of_lookup_2.
  - apply Forall_fmap, Forall_forall. intros j Hin. cbn. destruct (Hj j Hin) as [-> ?]. done.
Qed.

Lemma schedule_step block n : bytes_ok block → zlen block = block_bits f / 8 →
  code_schedule block n = reverse (expand f n (reverse (block_word f block <$> seq 0 16)))
  ∧ words (code_schedule block n) ∧ length (code_schedule block n) = (16 + n)%nat.
Proof using im.
  intros Hb Hl. destruct (block_words_standard block Hb Hl) as [E Hw].
  induction n as [|n (IH & IHw & IHl)].
  { unfold code_schedule. change (seq 16 0) with (@nil nat). cbn [foldl expand].
    by rewrite reverse_involutive, <-E. }
  unfold code_schedule in *. rewrite seq_S, foldl_app. cbn [foldl expand].
  set (l := foldl _ (block_words block) (seq 16 n)) in *. rewrite reverse_cons, <-IH.
  rewrite <-(reverse_involutive (expand f n _)), <-IH.
  assert (∀ i, (i < length l)%nat → reverse l !!! i = l !!! (length l - S i)%nat) as Hrev.
  { intros i Hi. by rewrite !list_lookup_total_alt, reverse_lookup. }
  rewrite !Hrev, IHl by lia.
  assert (∀ i, (i < length l)%nat → word w (l !!! i)) as Hin.
  { intros i Hi. destruct (lookup_lt_is_Some_2 l i Hi) as [x Hx].
    rewrite (list_lookup_total_correct _ _ _ Hx). by eapply Forall_lookup_1. }
  assert (SHA_SCR p l (16 + n) = plus f (plus f (plus f (sigma1 f (l !!! (16 + n - 2)%nat))
    (l !!! (16 + n - 7)%nat)) (sigma0 f (l !!! (16 + n - 15)%nat))) (l !!! (16 + n - 16)%nat)) as Es.
  { unfold SHA_SCR. rewrite (im_mask _ _ im), (im_F3 _ _ im), (im_F4 _ _ im) by (apply Hin; lia).
    unfold plus at 3. by rewrite !plus_mod. }
  rewrite Es. split; [done|]. split; [|rewrite length_app, IHl; cbn; lia].
  apply Forall_app_2; [done|]. constructor; [|done]. unfold plus at 1. auto.
Qed.

Lemma schedule_standard block : bytes_ok block → zlen block = block_bits f / 8 →
  schedule p block = message_schedule f block ∧ words (schedule p block).
Proof using im.
  intros Hb Hl. destruct (schedule_step block (rounds f - 16) Hb Hl) as (E & Hw & _).
  unfold schedule, message_schedule. rewrite <-E. unfold code_schedule, block_words in *.
  rewrite (im_k _ _ im), length_fmap, length_seq. done.
Qed.

(** *** The rounds *)

Lemma round_standard W t v : words (words_of v) → (t < rounds f)%nat →
  sha_round p W (words_of v) t = words_of (fips_round f W t v) ∧ words (words_of (fips_round f W t v)).
Proof using im.
  destruct v as [a b c d e g h i]. unfold words_of, sha_round, fips_round.
  cbn [va vb vc vd ve vf vg vh]. rewrite !Forall_cons.
  intros (Ha & Hb & Hc & Hd & He & Hf & Hg & Hh & _) Ht.
  assert (sha_k p !!! t = K f t) as ->.
  { rewrite (im_k _ _ im). apply list_lookup_total_correct. rewrite list_lookup_fmap.
    by rewrite lookup_seq_lt. }
  rewrite !(im_mask _ _ im), (im_F1 _ _ im), (im_F2 _ _ im), CH_word by done.
  change (MAJ a b c) with (Maj a b c).
  assert (plus f (plus f (plus f (plus f i (Sigma1 f e)) (Ch f e g h)) (K f t)) (W !!! t)
    = (i + Sigma1 f e + Ch f e g h + K f t + W !!! t) mod 2 ^ w) as ->
    by (unfold plus at 4; by rewrite !plus_mod).
  unfold plus. split; [done|split_and!; auto].
Qed.

Lemma rounds_standard W ts v : words (words_of v) → Forall (fun t => (t < rounds f)%nat) ts →
  foldl (sha_round p W) (words_of v) ts = words_of (foldl (fun v t => fips_round f W t v) v ts)
  ∧ words (words_of (foldl (fun v t => fips_round f W t v) v ts)).
Proof using im.
  intros Hv Hts. revert v Hv. induction Hts as [|t ts Ht _ IH]; intros v Hv; [done|]. cbn [foldl].
  destruct (round_standard W t v Hv Ht) as [-> Hv']. by apply IH.
Qed.

Lemma compress_standard v block : words (words_of v) → bytes_ok block → zlen block = block_bits f / 8 →
  compress p (words_of v) block = words_of (fips_compress f v block)
  ∧ words (words_of (fips_compress f v block)).
Proof using im.
  intros Hv Hb Hl. destruct (schedule_standard block Hb Hl) as [Es Hs]. unfold compress, fips_compress.
  rewrite Es, (im_k _ _ im), length_fmap, length_seq.
  destruct (rounds_standard (message_schedule f block) (seq 0 (rounds f)) v Hv) as [-> _].
  { apply Forall_forall. intros t Ht%elem_of_seq. lia. }
  set (v' := foldl _ v _). unfold add_words, words_of. cbn [zip_with va vb vc vd ve vf vg vh].
  rewrite !(im_mask _ _ im). unfold plus. split; [|rewrite !Forall_cons; split_and!; auto].
  by rewrite (Z.add_comm (va v')), (Z.add_comm (vb v')), (Z.add_comm (vc v')), (Z.add_comm (vd v')),
    (Z.add_comm (ve v')), (Z.add_comm (vf v')), (Z.add_comm (vg v')), (Z.add_comm (vh v')).
Qed.

(** ** The digest *)

Lemma blocks_standard m i n v : words (words_of v) → bytes_ok m →
  Z.of_nat (i + n) * (block_bits f / 8) ≤ zlen m →
  hash_blocks p n (words_of v) (drop (i * Z.to_nat (block_bits f / 8)) m)
  = words_of (foldl (fips_compress f) v (block_at f m <$> seq i n)).
Proof using im.
  intros Hv Hm. assert (0 < block_bits f / 8) as HB by by destruct f.
  revert i v Hv. induction n as [|n IH]; intros i v Hv Hl; [done|].
  cbn [hash_blocks seq fmap list_fmap foldl]. rewrite (im_block _ _ im), drop_drop.
  replace (take _ _) with (block_at f m i)
    by (unfold block_at, slice; do 2 f_equal; rewrite Z2Nat.inj_mul, Nat2Z.id by lia; done).
  destruct (compress_standard v (block_at f m i) Hv) as [-> Hv'].
  { by apply slice_ok. }
  { unfold block_at. apply zlen_slice; nia. }
  rewrite <-(Nat.mul_succ_l i). apply IH; [done|]. etransitivity; [|exact Hl].
  apply Z.mul_le_mono_nonneg_r; lia.
Qed.

Lemma fips_padding_standard d : d ++ fips_padding p d = padded f d.
Proof using im.
  unfold fips_padding, padded. rewrite (im_pad _ _ im), (im_block _ _ im). do 4 f_equal.
  - f_equal. pose proof (zlen_nonneg d). unfold length_bits, block_bits, word_bits. destruct f.
    + change (2 * 32 / 8 + 1) with 9. change (16 * 32 / 8) with 64. change (16 * 32) with 512. change (2 * 32) with 64.
      Z.div_mod_to_equations. lia.
    + change (2 * 64 / 8 + 1) with 17. change (16 * 64 / 8) with 128. change (16 * 64) with 1024. change (2 * 64) with 128.
      Z.div_mod_to_equations. lia.
  - f_equal. lia.
Qed.

Lemma initial_words : words (initial_hash f) ∧ words_of (vars_of (initial_hash f)) = initial_hash f.
Proof using Type.
  unfold initial_hash. split; [|clear im; by destruct f]. apply Forall_fmap, Forall_true. intros x. apply mod_word.
Qed.

Lemma padded_digest_standard d : bytes_ok d → padded_digest p d = fips_digest f d.
Proof using im.
  intros Hd. destruct initial_words as [Hi Ei]. unfold padded_digest, fips_digest, digest_of.
  rewrite fips_padding_standard, (im_block _ _ im), (im_h0 _ _ im). cbv zeta.
  assert (bytes_ok (padded f d)) as Hp.
  { rewrite <-fips_padding_standard. apply Forall_app_2; [done|]. unfold fips_padding.
    constructor; [done|]. apply Forall_app_2; [by apply Forall_replicate|apply be_encode_ok]. }
  pose proof (blocks_standard (padded f d) 0 (Z.to_nat (zlen (padded f d) / (block_bits f / 8)))
    (vars_of (initial_hash f))) as E. rewrite Ei in E. cbn [Nat.mul] in E. rewrite drop_0 in E.
  assert (0 < block_bits f / 8) as HB by by destruct f.
  rewrite E; [|done|done|].
  - f_equal. change (@map Z bytes) with (@fmap list _ Z bytes). apply list_fmap_ext.
    intros i x _. apply (im_unpack _ _ im).
  - pose proof (zlen_nonneg (padded f d)).
    pose proof (Z.div_pos (zlen (padded f d)) _ ltac:(done) HB).
    rewrite Nat.add_0_l, Z2Nat.id by done. rewrite Z.mul_comm. by apply Z.mul_div_le.
Qed.

End Refines.

(** ** The hashes of the code *)

(** The function of the standard that a parameter set is for. *)
Definition function_of (p : Sha2) : sha_function := if word_bytes p =? 4 then SHA_256 else SHA_512.

(** The digest the standard assigns to the bytes [d]. *)
Definition sha2_digest (p : Sha2) (d : bytes) : bytes := fips_digest (function_of p) d.

Lemma code_implements p : p = SHA256 ∨ p = SHA512 → sha2_ok p ∧ implements p (function_of p).
Proof.
  intros [-> | ->];
    [split; [apply sha256_ok|apply sha256_implements]|split; [apply sha512_ok|apply sha512_implements]].
Qed.

Lemma padded_digest_fips p d : p = SHA256 ∨ p = SHA512 → bytes_ok d → padded_digest p d = sha2_digest p d.
Proof. intros Hp. by apply padded_digest_standard, code_implements. Qed.

Lemma sha2_digest_length p d : p = SHA256 ∨ p = SHA512 → length (sha2_digest p d) = Z.to_nat (8 * word_bytes p).
Proof.
  intros [-> | ->]; unfold sha2_digest, fips_digest, words_of; cbn [fmap list_fmap concat];
    rewrite !length_app, !be_encode_length; done.
Qed.

(** C28: hashing a message in any sequence of buffers of less than 2 GiB gives the
    FIPS 180-4 digest of their concatenation, for SHA-256 and SHA-512, as long
    as the message is shorter than 512 MiB; no access leaves a buffer.  The
    digest is the one of Fips180, which shares nothing with the code. *)
Theorem avb_sha_incremental p chunks :
  p = SHA256 ∨ p = SHA512 → Forall bytes_ok chunks →
  Forall (fun x => zlen x < 0x80000000) chunks → zlen (concat chunks) < 0x20000000 →
  avb_sha p chunks = Ret (fips_digest (function_of p) (concat chunks)).
Proof.
  intros Hp Hb Hc Hd. rewrite avb_sha_standard; [|by apply code_implements|done|lia].
  f_equal. apply padded_digest_fips; [done|]. by apply Forall_concat.
Qed.

Lemma avb_sha_incremental_witness :
  avb_sha SHA256 [str "a"; str "bc"] = Ret (fips_digest SHA_256 (str "abc")) ∧
  avb_sha SHA256 [str "a"; str "bc"] = Ret
    (be_encode 32 0xba7816bf8f01cfea414140de5dae2223b00361a396177a9cb410ff61f20015ad).
Proof.
  split; [|vm_compute; reflexivity].
  apply (avb_sha_incremental SHA256 [str "a"; str "bc"]); [by left| | |done];
    apply (bool_decide_unpack _); by vm_compute.
Defined.
