(* ===== verification/Rsa.v ===== *)
(** * RSA signature check (lib/libavb/avb_rsa.c)

    Montgomery arithmetic on little-endian arrays of 32-bit words, the public
    exponentiation with exponent 65537 built from it, and the PKCS#1 v1.5 check
    of a signature.  A pointer argument is the list of bytes from the pointer
    to the end of the object it points into. *)

From S2P Require Import Prelude AvbUtil Sha2.

Record AvbRSAPublicKeyHeader := mkKeyHeader {
  hdr_key_num_bits : Z;
  hdr_n0inv : Z;
}.

Definition avb_rsa_public_key_header_validate_and_byteswap (src : bytes)
    : run AvbRSAPublicKeyHeader :=
  key_num_bits ← load32 src 0;
  n0inv ← load32 src 4;
  mret (mkKeyHeader (avb_be32toh key_num_bits) (avb_be32toh n0inv)).

Record IAvbKey := mkKey {
  key_len : nat;
  key_n0inv : Z;
  key_n : list Z;
  key_rr : list Z;
}.

(** ** Arithmetic *)

(** [subM]: [A] carries the borrow, as an [int64_t]. *)
Fixpoint subM_loop (A : Z) (a n : list Z) : list Z :=
  match a, n with
  | x :: a, y :: n =>
      let A := s64 (A + u64 (x - y)) in
      u32 A :: subM_loop (Z.shiftr A 32) a n
  | _, _ => []
  end.

Definition subM (key : IAvbKey) (a : list Z) : list Z := subM_loop 0 a (key_n key).

(** [geM]: from the most significant word down. *)
Fixpoint geM_loop (a n : list Z) : bool :=
  match a, n with
  | x :: a, y :: n => if x <? y then false else if y <? x then true else geM_loop a n
  | _, _ => true
  end.

Definition geM (key : IAvbKey) (a : list Z) : bool := geM_loop (rev a) (rev (key_n key)).

(** The loop of [montMulAdd] over the words from index 1 on: the words stored
    into [c] and the final accumulators. *)
Fixpoint montMulAdd_loop (a d0 A B : Z) (b c n : list Z) : list Z * Z * Z :=
  match b, c, n with
  | bi :: b, ci :: c, ni :: n =>
      let A := u64 (Z.shiftr A 32 + a * bi + ci) in
      let B := u64 (Z.shiftr B 32 + d0 * ni + u32 A) in
      let '(out, A', B') := montMulAdd_loop a d0 A B b c n in
      (u32 B :: out, A', B')
  | _, _, _ => ([], A, B)
  end.

Definition montMulAdd (key : IAvbKey) (c : list Z) (a : Z) (b : list Z) : list Z :=
  match b, c, key_n key with
  | b0 :: bs, c0 :: cs, n0 :: ns =>
      let A := u64 (a * b0 + c0) in
      let d0 := u32 (u32 A * key_n0inv key) in
      let B := u64 (d0 * n0 + u32 A) in
      let '(out, A, B) := montMulAdd_loop a d0 A B bs cs ns in
      let A := u64 (Z.shiftr A 32 + Z.shiftr B 32) in
      let c := out ++ [u32 A] in
      if Z.shiftr A 32 =? 0 then c else subM key c
  | _, _, _ => c
  end.

Definition montMul (key : IAvbKey) (a b : list Z) : list Z :=
  foldl (fun c ai => montMulAdd key c ai b) (replicate (key_len key) 0) a.

(** The eight rounds of two squarings. *)
Fixpoint square_loop (key : IAvbKey) (rounds : nat) (aR : list Z) : list Z :=
  match rounds with
  | O => aR
  | S rounds =>
      let aaR := montMul key aR aR in
      let aR := montMul key aaR aaR in
      square_loop key rounds aR
  end.

(** Big-endian bytes to little-endian words and back. *)
Definition be_word (l : bytes) (off : nat) : Z :=
  Z.lor (Z.lor (Z.lor (Z.shiftl (l !!! off) 24) (Z.shiftl (l !!! (off + 1)%nat) 16))
    (Z.shiftl (l !!! (off + 2)%nat) 8)) (l !!! (off + 3)%nat).

Definition words_of_be (k : nat) (l : bytes) : list Z :=
  map (fun i => be_word l ((k - 1 - i) * 4)) (seq 0 k).

Definition bytes_of_words (a : list Z) : bytes := concat (map UNPACK32 (rev a)).

Definition modpowF4_words (key : IAvbKey) (a : list Z) : list Z :=
  let aR := montMul key a (key_rr key) in
  let aR := square_loop key 8 aR in
  let aaa := montMul key aR a in
  if geM key aaa then subM key aaa else aaa.

Section Verify.
Context {W : Type} `{Heap W}.

(** The bytes of [inout] afterwards; unchanged when an allocation fails. *)
Definition modpowF4 (key : IAvbKey) (inout : bytes) : comp W bytes :=
  a ← avb_malloc (4 * Z.of_nat (key_len key));
  aR ← avb_malloc (4 * Z.of_nat (key_len key));
  aaR ← avb_malloc (4 * Z.of_nat (key_len key));
  if negb a || negb aR || negb aaR then mret inout
  else mret (bytes_of_words (modpowF4_words key (words_of_be (key_len key) inout))).

Definition sizeof_IAvbKey : Z := 24.
Definition sizeof_AvbRSAPublicKeyHeader : Z := 8.

(** Word [i] of the key: host-order load of the big-endian word [k - i - 1]. *)
Definition key_word (l : bytes) (k i : nat) : Z :=
  avb_be32toh (le_decode (slice l (4 * Z.of_nat (k - i - 1)) 4)).

Definition iavb_parse_key_data (data : bytes) (length : Z) : comp W (option IAvbKey) :=
  h ← lift (avb_rsa_public_key_header_validate_and_byteswap data);
  let bits := hdr_key_num_bits h in
  if negb ((bits =? 2048) || (bits =? 4096) || (bits =? 8192)) then mret None
  else
    let expected_length := sizeof_AvbRSAPublicKeyHeader + 2 * bits / 8 in
    if negb (length =? expected_length) then mret None
    else
      key ← avb_malloc (sizeof_IAvbKey + 2 * bits / 8);
      if negb key then mret None
      else
        let k := Z.to_nat (bits / 32) in
        nb ← lift (rd data sizeof_AvbRSAPublicKeyHeader (bits / 8));
        rb ← lift (rd data (sizeof_AvbRSAPublicKeyHeader + bits / 8) (bits / 8));
        mret (Some (mkKey k (hdr_n0inv h) (map (key_word nb k) (seq 0 k))
                      (map (key_word rb k) (seq 0 k)))).

Definition avb_rsa_verify (key : option bytes) (key_num_bytes : Z)
    (sig : option bytes) (sig_num_bytes : Z) (hash : option bytes) (hash_num_bytes : Z)
    (padding : option bytes) (padding_num_bytes : Z) : comp W bool :=
  match key, sig, hash, padding with
  | Some key, Some sig, Some hash, Some padding =>
      parsed_key ← iavb_parse_key_data key key_num_bytes;
      match parsed_key with
      | None => mret false
      | Some parsed_key =>
          if negb (sig_num_bytes =? 4 * Z.of_nat (key_len parsed_key)) then mret false
          else if negb (padding_num_bytes =? u64 (sig_num_bytes - hash_num_bytes)) then mret false
          else
            ok ← avb_malloc sig_num_bytes;
            if negb ok then mret false
            else
              buf ← lift (rd sig 0 sig_num_bytes);
              buf ← modpowF4 parsed_key buf;
              r ← lift (avb_safe_memcmp buf padding padding_num_bytes);
              if negb (r =? 0) then mret false
              else
                r ← lift (avb_safe_memcmp (drop (Z.to_nat padding_num_bytes) buf) hash
                            hash_num_bytes);
                if negb (r =? 0) then mret false else mret true
      end
  | _, _, _, _ => mret false
  end.

Lemma avb_rsa_verify_keeps key kn sig sn hash hn padding pn :
  (∀ n (w : W), (heap_alloc n w).2 = w) →
  keeps_world (avb_rsa_verify key kn sig sn hash hn padding pn).
Proof.
  intros Hh. unfold avb_rsa_verify, iavb_parse_key_data, modpowF4, avb_malloc.
  repeat first [ progress intros | apply keeps_bind | progress auto with keeps | case_match ].
Qed.

End Verify.

(** ** Values of word arrays *)

Notation W32 := 0x100000000 (only parsing).

Fixpoint wval (l : list Z) : Z :=
  match l with [] => 0 | x :: l => x + W32 * wval l end.

Notation words := (Forall is_u32).

Lemma W32_pow_pos k : 0 < W32 ^ Z.of_nat k.
Proof. apply Z.pow_pos_nonneg; lia. Qed.

Lemma W32_pow_S k : W32 ^ Z.of_nat (S k) = W32 * W32 ^ Z.of_nat k.
Proof. rewrite Nat2Z.inj_succ, Z.pow_succ_r by lia. done. Qed.

Lemma wval_range l : words l → 0 ≤ wval l < W32 ^ Z.of_nat (length l).
Proof.
  induction 1 as [|x l Hx _ IH]; [done|]. cbn [wval length]. rewrite W32_pow_S.
  unfold is_u32 in Hx. lia.
Qed.

Lemma wval_app l k : wval (l ++ k) = wval l + W32 ^ Z.of_nat (length l) * wval k.
Proof.
  induction l as [|x l IH]; [simpl; lia|]. cbn [app wval length]. rewrite IH, W32_pow_S. lia.
Qed.

Lemma wval_zeros k : wval (replicate k 0) = 0.
Proof. induction k as [|k IH]; [done|]. cbn [replicate wval]. lia. Qed.

(** ** Subtraction and comparison *)

Lemma subM_loop_spec A a n :
  length a = length n → words a → words n → -1 ≤ A ≤ 0 →
  let r := subM_loop A a n in
  words r ∧ length r = length a ∧
  ∃ borrow, -1 ≤ borrow ≤ 0 ∧
    wval r + W32 ^ Z.of_nat (length a) * borrow = A + wval a - wval n.
Proof.
  intros Hl Ha. revert A n Hl. induction Ha as [|x a Hx Ha IH]; intros A [|y n] Hl Hn HA;
    simplify_eq/=.
  - split_and!; [constructor|done|]. exists A. simpl. lia.
  - apply Forall_cons in Hn as [Hy Hn]. unfold is_u32 in Hx, Hy.
    rewrite s64_add_u64, s64_u64 by lia.
    replace (A + (x - y)) with (A + x - y) by lia. set (D := A + x - y).
    assert (-1 ≤ Z.shiftr D 32 ≤ 0) as HD.
    { rewrite Z.shiftr_div_pow2 by lia. change (2 ^ 32) with W32. unfold D.
      split; [apply Z.div_le_lower_bound; lia|].
      apply Z.lt_succ_r, Z.div_lt_upper_bound; lia. }
    destruct (IH (Z.shiftr D 32) n) as (Hr & Hlr & b & Hb & E); [done..|].
    split_and!; [constructor; auto with words|simpl; congruence|].
    exists b. split; [done|]. cbn [wval length]. rewrite W32_pow_S.
    assert (D = u32 D + W32 * Z.shiftr D 32) as HDm.
    { rewrite Z.shiftr_div_pow2 by lia. unfold u32. change (2 ^ 32) with W32.
      rewrite Z.add_comm. apply Z.div_mod. lia. }
    unfold D in HDm at 1. lia.
Qed.

Lemma subM_exact n a :
  length a = length n → words a → words n → wval n ≤ wval a →
  words (subM_loop 0 a n) ∧ length (subM_loop 0 a n) = length a ∧
  wval (subM_loop 0 a n) = wval a - wval n.
Proof.
  intros Hl Ha Hn Hle.
  destruct (subM_loop_spec 0 a n) as (Hr & Hlr & b & Hb & E); [done..|lia|].
  split_and!; [done..|]. pose proof (wval_range _ Hr) as Hrr. rewrite Hlr in Hrr.
  pose proof (W32_pow_pos (length a)). pose proof (wval_range _ Hn).
  pose proof (wval_range _ Ha). assert (b = 0 ∨ b = -1) as [-> | ->] by lia; lia.
Qed.

(** With a carry out of the top word pending, the borrow cancels it. *)
Lemma subM_carry n a :
  length a = length n → words a → words n → wval a < wval n →
  words (subM_loop 0 a n) ∧ length (subM_loop 0 a n) = length a ∧
  wval (subM_loop 0 a n) = W32 ^ Z.of_nat (length a) + wval a - wval n.
Proof.
  intros Hl Ha Hn Hlt.
  destruct (subM_loop_spec 0 a n) as (Hr & Hlr & b & Hb & E); [done..|lia|].
  split_and!; [done..|]. pose proof (wval_range _ Hr) as Hrr. rewrite Hlr in Hrr.
  assert (b = 0 ∨ b = -1) as [-> | ->] by lia; lia.
Qed.

Lemma geM_loop_spec a n :
  length a = length n → words a → words n →
  geM_loop (rev a) (rev n) = bool_decide (wval n ≤ wval a).
Proof.
  revert n. induction a as [|x a IH] using rev_ind; intros n Hl Ha Hn.
  - by destruct n.
  - destruct n as [|y n _] using rev_ind; [rewrite length_app in Hl; simpl in Hl; lia|].
    rewrite !length_app in Hl. simpl in Hl.
    apply Forall_app in Ha as [Ha _], Hn as [Hn _].
    rewrite !rev_app_distr. cbn [rev app geM_loop]. rewrite IH by (done || lia).
    rewrite !wval_app. cbn [wval].
    pose proof (wval_range _ Ha). pose proof (wval_range _ Hn).
    replace (length n) with (length a) in * by lia.
    pose proof (W32_pow_pos (length a)).
    set (P := W32 ^ Z.of_nat (length a)) in *.
    destruct (Z.ltb_spec x y); [symmetry; apply bool_decide_eq_false_2; nia|].
    destruct (Z.ltb_spec y x); [symmetry; apply bool_decide_eq_true_2; nia|].
    apply bool_decide_ext. replace x with y by lia. lia.
Qed.

(** ** Montgomery multiplication *)

Lemma shiftr32 x : Z.shiftr x 32 = x / W32.
Proof. by rewrite Z.shiftr_div_pow2. Qed.

Lemma split32 x : x = u32 x + W32 * (x / W32).
Proof. unfold u32. rewrite Z.add_comm. apply Z.div_mod. lia. Qed.

Lemma hi_u32 x : is_u64 x → is_u32 (x / W32).
Proof.
  unfold is_u64, is_u32. intros.
  split; [apply Z.div_pos; lia|apply Z.div_lt_upper_bound; lia].
Qed.

(** The two sums of one word fit a [uint64_t]. *)
Lemma mul_add_u64 x y z w :
  is_u32 x → is_u32 y → is_u32 z → is_u32 w → is_u64 (w + x * y + z).
Proof. unfold is_u32, is_u64. nia. Qed.

Lemma montMulAdd_loop_spec a d0 A B b c n :
  is_u32 a → is_u32 d0 → is_u64 A → is_u64 B →
  words b → words c → words n → length c = length b → length n = length b →
  let '(out, A', B') := montMulAdd_loop a d0 A B b c n in
  words out ∧ length out = length b ∧ is_u64 A' ∧ is_u64 B' ∧
  A / W32 + B / W32 + a * wval b + wval c + d0 * wval n =
    wval out + W32 ^ Z.of_nat (length b) * (A' / W32 + B' / W32).
Proof.
  intros Ha Hd HA HB Hb. revert A B HA HB c n.
  induction Hb as [|bi b Hbi Hb IH]; intros A B HA HB c n Hc Hn Lc Ln.
  - destruct c, n; [|done..]. simpl. split_and!; [constructor|done..|lia].
  - destruct Hc as [|ci c Hci Hc]; [done|]. destruct Hn as [|ni n Hni Hn]; [done|].
    simplify_eq/=. rewrite !shiftr32.
    rewrite (u64_small (A / W32 + a * bi + ci)) by auto using mul_add_u64, hi_u32.
    set (A1 := A / W32 + a * bi + ci).
    rewrite (u64_small (B / W32 + d0 * ni + u32 A1)) by auto using mul_add_u64, hi_u32 with words.
    set (B1 := B / W32 + d0 * ni + u32 A1).
    specialize (IH A1 B1 ltac:(apply mul_add_u64; auto using hi_u32)
      ltac:(apply mul_add_u64; auto using hi_u32 with words) c n Hc Hn ltac:(done) ltac:(done)).
    destruct (montMulAdd_loop a d0 A1 B1 b c n) as [[out A'] B'].
    destruct IH as (Ho & Lo & HA' & HB' & E).
    split_and!; [constructor; auto with words|simpl; congruence|done..|].
    cbn [wval]. rewrite W32_pow_S. pose proof (split32 A1). pose proof (split32 B1).
    unfold A1 in H at 1. unfold B1 in H0 at 1. lia.
Qed.

Section Montgomery.
Variable key : IAvbKey.

Notation N := (wval (key_n key)).
Notation R := (W32 ^ Z.of_nat (key_len key)).

(** A key whose modulus has [key_len] words, with [n0inv] the value -1/n[0]
    modulo 2^32 the key format prescribes. *)
Record key_ok : Prop := {
  key_n_words : words (key_n key);
  key_n_length : length (key_n key) = key_len key;
  key_n0inv_u32 : is_u32 (key_n0inv key);
  key_n0inv_ok : (N * key_n0inv key + 1) mod W32 = 0;
}.
Hypothesis Hkey : key_ok.

Notation wf_words l := (words l ∧ length l = key_len key).

(** [d0] makes the low word of the sum vanish. *)
Lemma low_word_zero A n0 ns :
  key_n key = n0 :: ns → is_u64 A →
  let d0 := u32 (u32 A * key_n0inv key) in
  d0 * n0 + u32 A = W32 * ((d0 * n0 + u32 A) / W32).
Proof using Hkey.
  intros En HA d0. pose proof (key_n0inv_ok Hkey) as Hinv. rewrite En in Hinv.
  cbn [wval] in Hinv. apply Z.div_exact; [lia|]. unfold d0, u32 at 1.
  rewrite <-Zplus_mod_idemp_l, Zmult_mod_idemp_l, Zplus_mod_idemp_l.
  replace (u32 A * key_n0inv key * n0 + u32 A)
    with (u32 A * ((n0 + W32 * wval ns) * key_n0inv key + 1) +
          - (u32 A * wval ns * key_n0inv key) * W32) by ring.
  rewrite Z_mod_plus_full, <-Zmult_mod_idemp_r, Hinv, Z.mul_0_r. done.
Qed.

(** The words before the final reduction and the carry out of the top one. *)
Lemma montMulAdd_sum c a b :
  wf_words c → wf_words b → is_u32 a → key_len key ≠ 0%nat →
  ∃ c_out carry d0,
    montMulAdd key c a b = (if carry =? 0 then c_out else subM key c_out) ∧
    wf_words c_out ∧ 0 ≤ carry ≤ 1 ∧ is_u32 d0 ∧
    W32 * (wval c_out + R * carry) = wval c + a * wval b + d0 * N.
Proof using Hkey.
  destruct Hkey as [Hn Ln Hi _]. intros [Hc Lc] [Hb Lb] Ha H0. unfold montMulAdd.
  destruct (key_n key) as [|n0 ns] eqn:En; [simpl in Ln; lia|].
  destruct c as [|c0 cs]; [simpl in Lc; lia|]. destruct b as [|b0 bs]; [simpl in Lb; lia|].
  apply Forall_cons in Hc as [Hc0 Hc], Hb as [Hb0 Hb], Hn as [Hn0 Hn].
  assert (is_u64 (a * b0 + c0)) as HA.
  { apply (mul_add_u64 a b0 c0 0); auto. done. }
  rewrite (u64_small (a * b0 + c0)) by done. set (A := a * b0 + c0) in *.
  set (d0 := u32 (u32 A * key_n0inv key)). assert (is_u32 d0) as Hd by apply u32_range.
  assert (is_u64 (d0 * n0 + u32 A)) as HB.
  { apply (mul_add_u64 d0 n0 (u32 A) 0); auto with words. done. }
  rewrite (u64_small (d0 * n0 + u32 A)) by done.
  pose proof (low_word_zero A n0 ns En HA) as HB0. cbv zeta in HB0. fold d0 in HB0.
  set (B := d0 * n0 + u32 A) in *. simpl in Lc, Lb, Ln.
  pose proof (montMulAdd_loop_spec a d0 A B bs cs ns Ha Hd HA HB Hb Hc Hn
    ltac:(lia) ltac:(lia)) as Hs.
  destruct (montMulAdd_loop a d0 A B bs cs ns) as [[out A'] B'].
  destruct Hs as (Ho & Lo & HA' & HB' & E). rewrite !shiftr32.
  pose proof (hi_u32 A' HA') as Ta. pose proof (hi_u32 B' HB') as Tb. unfold is_u32 in Ta, Tb.
  rewrite (u64_small (A' / W32 + B' / W32)) by (unfold is_u64; lia).
  set (T := A' / W32 + B' / W32) in *.
  exists (out ++ [u32 T]), (T / W32), d0. split; [done|]. split; [split|].
  - apply Forall_app. auto with words.
  - rewrite length_app. simpl. lia.
  - split_and!; [apply Z.div_pos; lia|apply Z.lt_succ_r, Z.div_lt_upper_bound; lia|done|].
    rewrite wval_app, Lo. cbn [wval]. pose proof (split32 T) as ET. pose proof (split32 A) as EA.
    replace (key_len key) with (S (length bs)) by lia. rewrite W32_pow_S.
    unfold A in EA at 1. unfold B in HB0 at 1.
    clearbody A B T d0. cbn [wval]. nia.
Qed.

Lemma montMulAdd_spec c a b :
  wf_words c → wf_words b → is_u32 a →
  let c' := montMulAdd key c a b in
  wf_words c' ∧ ∃ k, wval c' * W32 = wval c + a * wval b + k * N.
Proof using Hkey.
  intros Hc Hb Ha c'. destruct (decide (key_len key = 0%nat)) as [E0|H0].
  { assert (c' = c) as ->.
    { unfold c', montMulAdd. destruct Hb as [_ Lb]. by destruct b; [|simpl in Lb; lia]. }
    split; [done|]. exists 0. destruct Hc as [_ Lc], Hb as [_ Lb].
    destruct c, b; simpl in *; lia. }
  destruct (montMulAdd_sum c a b Hc Hb Ha H0) as (co & carry & d0 & E & [Ho Lo] & Hca & Hd & Es).
  unfold c'. rewrite E. destruct (Z.eqb_spec carry 0) as [->|Hne].
  { split; [done|]. exists d0. lia. }
  assert (carry = 1) as -> by lia. destruct Hkey as [Hn Ln _ _].
  pose proof (wval_range _ Ho). destruct Hc as [Hc Lc], Hb as [Hb Lb].
  pose proof (wval_range _ Hc) as Rc. pose proof (wval_range _ Hb) as Rb.
  pose proof (wval_range _ Hn) as Rn. rewrite Lc in Rc. rewrite Lb in Rb. rewrite Ln in Rn.
  unfold is_u32 in *.
  assert (wval co < N) as Hlt by nia.
  unfold subM. destruct (subM_carry (key_n key) co) as (Hr & Lr & Er);
    [congruence|done..|]. split; [split; [done|congruence]|].
  exists (d0 - W32). rewrite Er, Lo. lia.
Qed.

(** [montMul]: the product divided by R modulo N. *)
Lemma montMul_spec a b :
  wf_words a → wf_words b →
  let c := montMul key a b in
  wf_words c ∧ ∃ k, wval c * R = wval a * wval b + k * N.
Proof using Hkey.
  intros [Ha La] Hb. unfold montMul.
  assert (∀ a, words a → let c := foldl (fun c ai => montMulAdd key c ai b)
      (replicate (key_len key) 0) a in
    wf_words c ∧ ∃ k, wval c * W32 ^ Z.of_nat (length a) = wval a * wval b + k * N) as Hind.
  { clear a Ha La. intros a. induction a as [|x a IH] using rev_ind; intros Ha.
    - simpl. rewrite wval_zeros, length_replicate. split; [split; [|done]|by exists 0].
      apply Forall_replicate. done.
    - apply Forall_app in Ha as [Ha [Hx _]%Forall_cons].
      destruct (IH Ha) as [Hc [k E]]. rewrite foldl_app. cbn [foldl].
      destruct (montMulAdd_spec _ x b Hc Hb Hx) as [Hc' [k' E']]. split; [done|].
      rewrite length_app, Nat.add_1_r, W32_pow_S, wval_app. cbn [wval].
      exists (k + k' * W32 ^ Z.of_nat (length a)).
      rewrite (Z.mul_assoc (wval _)), E'. lia. }
  destruct (Hind a Ha) as [Hc [k E]]. split; [done|]. exists k. by rewrite <-E, La.
Qed.

(** ** Exponentiation *)

(** Congruence modulo N. *)
Definition cong (x y : Z) : Prop := ∃ k, x = y + k * N.

Lemma cong_trans x y z : cong x y → cong y z → cong x z.
Proof using Type. intros [k ->] [l ->]. exists (k + l). ring. Qed.

Lemma cong_mul x x' y y' : cong x x' → cong y y' → cong (x * y) (x' * y').
Proof using Type. intros [k ->] [l ->]. exists (x' * l + k * y' + k * l * N). ring. Qed.

Lemma cong_refl x : cong x x.
Proof using Type. exists 0. ring. Qed.

Lemma N_R_coprime : Znumtheory.rel_prime N R.
Proof using Hkey.
  assert (Znumtheory.rel_prime N W32) as H1.
  { apply Znumtheory.bezout_rel_prime.
    pose proof (key_n0inv_ok Hkey) as Hi. apply Z.mod_divide in Hi as [q Hq]; [|lia].
    apply (Znumtheory.Bezout_intro _ _ _ (- key_n0inv key) q). lia. }
  induction (key_len key) as [|k IH].
  - apply Znumtheory.rel_prime_sym, Znumtheory.rel_prime_1.
  - rewrite W32_pow_S. by apply Znumtheory.rel_prime_mult.
Qed.

Lemma cong_cancel x y : cong (x * R) (y * R) → cong x y.
Proof using Hkey.
  intros [k E]. assert (Z.divide N (R * (x - y))) as Hd by (exists k; lia).
  apply Znumtheory.Gauss in Hd as [q Hq]; [|apply N_R_coprime]. exists q. lia.
Qed.

(** Multiplying a representative of [x] by one of [y], both times R. *)
Lemma montMul_cong a b x y :
  wf_words a → wf_words b → cong (wval a) (x * R) → cong (wval b) y →
  wf_words (montMul key a b) ∧ cong (wval (montMul key a b)) (x * y).
Proof using Hkey.
  intros Ha Hb Hx Hy. destruct (montMul_spec a b Ha Hb) as [Hc Hk]. split; [done|].
  apply cong_cancel. eapply cong_trans; [exact Hk|].
  replace (x * y * R) with (x * R * y) by ring. by apply cong_mul.
Qed.

Lemma square_loop_cong rounds aR x :
  wf_words aR → cong (wval aR) (x * R) →
  wf_words (square_loop key rounds aR) ∧
  cong (wval (square_loop key rounds aR)) (x ^ (4 ^ Z.of_nat rounds) * R).
Proof using Hkey.
  revert aR x. induction rounds as [|k IH]; intros aR x Ha Hx.
  - change (4 ^ Z.of_nat 0) with 1. by rewrite Z.pow_1_r.
  - cbn [square_loop].
    destruct (montMul_cong aR aR x (x * R)) as [H1 C1]; [done..|].
    destruct (montMul_cong (montMul key aR aR) (montMul key aR aR) (x * x) (x * x * R))
      as [H2 C2]; [done..| | |].
    + eapply cong_trans; [exact C1|]. exists 0. ring.
    + eapply cong_trans; [exact C1|]. exists 0. ring.
    + destruct (IH _ (x * x * (x * x)) H2) as [H3 C3].
      { eapply cong_trans; [exact C2|]. exists 0. ring. }
      split; [done|]. eapply cong_trans; [exact C3|].
      replace (x * x * (x * x)) with (x ^ 4) by ring.
      rewrite <-Z.pow_mul_r by lia. rewrite Nat2Z.inj_succ, Z.pow_succ_r by lia.
      apply cong_refl.
Qed.

(** The public exponent. *)
Definition exponent : Z := 65537.

(** The precomputed [rr] is R squared modulo N; the modulus has its top bit set. *)
Record key_full : Prop := {
  key_full_ok : key_ok;
  key_rr_words : words (key_rr key) ∧ length (key_rr key) = key_len key;
  key_rr_ok : wval (key_rr key) mod N = (R * R) mod N;
  key_top_bit : R ≤ 2 * N;
}.

Lemma modpowF4_words_spec a :
  key_full → wf_words a →
  wf_words (modpowF4_words key a) ∧ wval (modpowF4_words key a) = wval a ^ exponent mod N.
Proof using Hkey.
  intros [_ Hrr Hrm Htop] Ha. unfold modpowF4_words.
  pose proof (W32_pow_pos (key_len key)) as HR. assert (0 < N) as HN by lia.
  assert (cong (wval (key_rr key)) (R * R)) as Crr.
  { exists (wval (key_rr key) / N - R * R / N).
    rewrite (Z.div_mod (wval (key_rr key)) N) at 1 by lia.
    rewrite (Z.div_mod (R * R) N) at 1 by lia. rewrite Hrm. ring. }
  destruct (montMul_spec a (key_rr key) Ha Hrr) as [H1 K1].
  assert (cong (wval (montMul key a (key_rr key))) (wval a * R)) as C1.
  { apply cong_cancel. eapply cong_trans; [exact K1|].
    replace (wval a * R * R) with (wval a * (R * R)) by ring.
    apply cong_mul; [apply cong_refl|done]. }
  destruct (square_loop_cong 8 _ _ H1 C1) as [H2 C2].
  assert (wval a ^ exponent = wval a ^ (4 ^ Z.of_nat 8) * wval a) as ->.
  { change exponent with (4 ^ Z.of_nat 8 + 1). by rewrite Z.pow_add_r, Z.pow_1_r. }
  set (m := wval a ^ (4 ^ Z.of_nat 8)) in *. clearbody m.
  destruct (montMul_cong _ a _ (wval a) H2 Ha C2 (cong_refl _)) as [[H3 L3] C3].
  set (aaa := montMul key _ a) in *. clearbody aaa.
  assert (wval aaa mod N = (m * wval a) mod N) as Em.
  { destruct C3 as [k ->]. apply Z_mod_plus_full. }
  destruct Hkey as [Hn Ln _ _]. pose proof (wval_range _ H3) as Hr. rewrite L3 in Hr.
  unfold geM. rewrite geM_loop_spec by (done || congruence). case_bool_decide.
  - destruct (subM_exact (key_n key) aaa) as (Hs & Ls & Es); [congruence|done..|].
    unfold subM. split; [split; [done|congruence]|]. rewrite Es, <-Em.
    apply Z.mod_unique_pos with 1; lia.
  - split; [done|]. rewrite <-Em. symmetry. apply Z.mod_small. lia.
Qed.

End Montgomery.

(** ** Conversions *)

Lemma be_word_decode a b c d :
  bytes_ok [a; b; c; d] →
  Z.lor (Z.lor (Z.lor (Z.shiftl a 24) (Z.shiftl b 16)) (Z.shiftl c 8)) d = be_decode [a; b; c; d].
Proof.
  unfold bytes_ok. rewrite !Forall_cons. intros (?&?&?&?&_).
  rewrite (lor_byte _ _ 16), (lor_byte _ _ 8), lor_byte_last by (done || lia).
  unfold be_decode. cbn [foldl]. lia.
Qed.

Lemma words_of_be_snoc k w rest :
  length w = 4%nat →
  words_of_be (S k) (w ++ rest) = words_of_be k rest ++ [be_word w 0].
Proof.
  intros Hw. do 4 (destruct w as [|? w]; [done|]). destruct w; [|done].
  unfold words_of_be. rewrite seq_S, map_app. f_equal.
  - apply map_ext_in. intros i Hi%in_seq.
    replace ((S k - 1 - (0 + i)) * 4)%nat with (4 + (k - 1 - i) * 4)%nat by lia.
    replace ((S k - 1 - i) * 4)%nat with (4 + (k - 1 - i) * 4)%nat by lia. done.
  - cbn [map]. replace ((S k - 1 - (0 + k)) * 4)%nat with 0%nat by lia. done.
Qed.

Lemma words_of_be_spec k l :
  bytes_ok l → length l = (4 * k)%nat →
  words (words_of_be k l) ∧ length (words_of_be k l) = k ∧ wval (words_of_be k l) = be_decode l.
Proof.
  revert l. induction k as [|k IH]; intros l Hl El.
  - destruct l; [|done]. split_and!; [constructor|done..].
  - destruct (list_split_at 4 l) as (w & rest & -> & Ew); [lia|].
    apply Forall_app in Hl as [Hw Hr]. rewrite length_app in El.
    destruct (IH rest Hr) as (H1 & H2 & H3); [lia|].
    rewrite words_of_be_snoc by done.
    assert (be_word w 0 = be_decode w ∧ is_u32 (be_decode w)) as [-> Hw32].
    { pose proof (be_decode_range w Hw) as Hb. unfold zlen in Hb. rewrite Ew in Hb.
      split; [|exact Hb]. do 4 (destruct w as [|? w]; [done|]). destruct w; [|done].
      by apply be_word_decode. }
    split_and!; [apply Forall_app; auto|rewrite length_app; simpl; lia|].
    rewrite wval_app, H2, H3, be_decode_app. cbn [wval].
    replace (zlen rest) with (4 * Z.of_nat k) by (unfold zlen; lia).
    rewrite Z.pow_mul_r by lia. change (256 ^ 4) with W32. lia.
Qed.

Lemma W32_pow_bytes k : W32 ^ Z.of_nat k = 256 ^ Z.of_nat (4 * k).
Proof. rewrite Nat2Z.inj_mul, Z.pow_mul_r by lia. done. Qed.

Lemma bytes_of_words_spec a :
  words a → bytes_of_words a = be_encode (4 * length a) (wval a).
Proof.
  induction a as [|x a IH] using rev_ind; intros Ha; [done|].
  apply Forall_app in Ha as [Ha [Hx _]%Forall_cons].
  unfold bytes_of_words in *. rewrite rev_app_distr, length_app, wval_app. cbn [rev app map concat].
  rewrite IH, UNPACK32_be by done. cbn [wval length].
  replace (4 * (length a + 1))%nat with (4 * length a + 4)%nat by lia.
  pose proof (wval_range a Ha) as Hr. rewrite W32_pow_bytes in *.
  rewrite Z.mul_0_r, Z.add_0_r. by rewrite be_encode_app.
Qed.

(** ** Parsing a key *)

(** A parsed key is the big-endian numbers of its serialisation. *)
Definition parsed (data : bytes) (bits : Z) (key : IAvbKey) : Prop :=
  (bits = 2048 ∨ bits = 4096 ∨ bits = 8192) ∧ be_decode (slice data 0 4) = bits ∧
  key_len key = Z.to_nat (bits / 32) ∧
  key_n0inv key = be_decode (slice data 4 4) ∧
  words (key_n key) ∧ length (key_n key) = key_len key ∧
  wval (key_n key) = be_decode (slice data 8 (bits / 8)) ∧
  words (key_rr key) ∧ length (key_rr key) = key_len key ∧
  wval (key_rr key) = be_decode (slice data (8 + bits / 8) (bits / 8)).

Lemma key_words_be l k :
  bytes_ok l → length l = (4 * k)%nat →
  map (key_word l k) (seq 0 k) = words_of_be k l.
Proof.
  intros Hl El. unfold words_of_be. apply map_ext_in. intros i Hi%in_seq.
  unfold key_word. set (o := ((k - 1 - i) * 4)%nat).
  replace (4 * Z.of_nat (k - i - 1)) with (Z.of_nat o) by lia.
  assert (o + 4 ≤ length l)%nat as Ho by lia.
  rewrite be32toh_decode; [|by apply slice_ok|].
  2: { pose proof (zlen_slice l (Z.of_nat o) 4) as Hz. unfold zlen in Hz. lia. }
  unfold slice. rewrite Nat2Z.id. change (Z.to_nat 4) with 4%nat. clearbody o.
  destruct (list_split_at o l) as (pre & l' & -> & Lp); [lia|].
  rewrite length_app in Ho. destruct (list_split_at 4 l') as (w & rest & -> & Lw); [lia|].
  rewrite <-Lp, drop_app_length, take_app_length'. 2: done.
  apply Forall_app in Hl as [_ [Hw _]%Forall_app].
  unfold be_word. do 4 (destruct w as [|? w]; [done|]). destruct w; [|done].
  rewrite !lookup_total_app_add, lookup_total_app_0.
  symmetry. by apply be_word_decode.
Qed.

Lemma load_be32 data off x :
  bytes_ok data → load32 data off = Ret x →
  avb_be32toh x = be_decode (slice data off 4) ∧ is_u32 (avb_be32toh x) ∧ off + 4 ≤ zlen data.
Proof.
  intros Hd. unfold load32. intros E. apply run_bind_Ret in E as (b & Hb & [= <-]).
  apply rd_Ret in Hb as (H1 & H2 & H3 & ->).
  pose proof (zlen_slice data off 4 H1 H2 H3) as Hz.
  assert (bytes_ok (slice data off 4)) as Hok by by apply slice_ok.
  rewrite be32toh_decode by (done || (unfold zlen in Hz; lia)).
  pose proof (be_decode_range _ Hok) as Hr. by rewrite Hz in Hr.
Qed.

Lemma parse_key_spec {W} `{Heap W} data length (w w' : W) key :
  bytes_ok data → iavb_parse_key_data data length w = Ret (Some key, w') →
  ∃ bits, parsed data bits key ∧ length = 8 + bits / 4 ∧ length ≤ zlen data.
Proof.
  intros Hd E. unfold iavb_parse_key_data in E.
  apply comp_bind_Ret in E as (h & w1 & Eh & E). apply lift_Ret in Eh as (h' & Eh & [= -> ->]).
  unfold avb_rsa_public_key_header_validate_and_byteswap in Eh.
  apply run_bind_Ret in Eh as (x & Ex & Eh). apply run_bind_Ret in Eh as (y & Ey & [= <-]).
  apply load_be32 in Ex as (Ex & _ & _); [|done].
  apply load_be32 in Ey as (Ey & _ & _); [|done]. cbn [hdr_key_num_bits hdr_n0inv] in E.
  set (bits := avb_be32toh x) in *.
  destruct (_ || _) eqn:Eb in E; [|discriminate E]. cbn [negb] in E.
  rewrite !orb_true_iff, !Z.eqb_eq in Eb.
  destruct (Z.eqb_spec length (sizeof_AvbRSAPublicKeyHeader + 2 * bits / 8)) as [El|];
    [|discriminate E]. cbn [negb] in E.
  apply comp_bind_Ret in E as (ok & w2 & _ & E). destruct ok; [|discriminate E]. cbn [negb] in E.
  apply comp_bind_Ret in E as (nb & w3 & En & E). apply lift_Ret in En as (nb' & En & [= -> ->]).
  apply comp_bind_Ret in E as (rb & w4 & Er & E). apply lift_Ret in Er as (rb' & Er & [= -> ->]).
  apply rd_Ret in En as (_ & _ & Hn & ->). apply rd_Ret in Er as (_ & _ & Hr & ->).
  unfold sizeof_AvbRSAPublicKeyHeader in *. apply comp_ret_eq in E. injection E as -> ->.
  exists bits. assert (0 ≤ bits / 8 ∧ 2 * bits / 8 = bits / 4 ∧ bits / 4 = 2 * (bits / 8) ∧
    bits / 8 = 4 * (bits / 32)) as (H0 & H1 & H2 & H3)
    by (destruct Eb as [[-> | ->] | ->]; done).
  split; [|lia]. unfold parsed. cbn [key_len key_n0inv key_n key_rr].
  assert (∀ off, 0 ≤ off → off + bits / 8 ≤ zlen data →
    List.length (slice data off (bits / 8)) = (4 * Z.to_nat (bits / 32))%nat) as Hlen.
  { intros off Ho Hz. pose proof (zlen_slice data off (bits / 8) Ho H0 Hz) as Hs.
    unfold zlen in Hs. lia. }
  rewrite !key_words_be by (by apply slice_ok || (apply Hlen; lia)).
  destruct (words_of_be_spec (Z.to_nat (bits / 32)) (slice data 8 (bits / 8)))
    as (? & ? & ?); [by apply slice_ok|apply Hlen; lia|].
  destruct (words_of_be_spec (Z.to_nat (bits / 32)) (slice data (8 + bits / 8) (bits / 8)))
    as (? & ? & ?); [by apply slice_ok|apply Hlen; lia|].
  rewrite Ey. symmetry in Ex. tauto.
Qed.

(** ** The signature check *)

(** The serialised key at [data] is a public key of the stated size, as the key
    format prescribes: modulus with its top bit set, [n0inv] and [rr] the
    Montgomery constants of the modulus. *)
Record key_format (data : bytes) (bits : Z) : Prop := {
  kf_bits : bits = 2048 ∨ bits = 4096 ∨ bits = 8192;
  kf_length : 8 + bits / 4 ≤ zlen data;
  kf_header : be_decode (slice data 0 4) = bits;
  kf_n0inv : (be_decode (slice data 8 (bits / 8)) * be_decode (slice data 4 4) + 1) mod W32 = 0;
  kf_rr : be_decode (slice data (8 + bits / 8) (bits / 8))
            mod be_decode (slice data 8 (bits / 8)) =
          (2 ^ bits * 2 ^ bits) mod be_decode (slice data 8 (bits / 8));
  kf_top : 2 ^ bits ≤ 2 * be_decode (slice data 8 (bits / 8));
}.

Lemma load32_ok data off :
  bytes_ok data → 0 ≤ off → off + 4 ≤ zlen data →
  ∃ x, load32 data off = Ret x ∧ avb_be32toh x = be_decode (slice data off 4).
Proof.
  intros Hd H0 H1. unfold load32. rewrite rd_ok by lia. eexists. split; [reflexivity|].
  apply be32toh_decode; [by apply slice_ok|]. pose proof (zlen_slice data off 4 H0 ltac:(done) H1).
  unfold zlen in *. lia.
Qed.

Lemma parse_key_format {W} `{Heap W} data bits (w w1 : W) :
  bytes_ok data → key_format data bits →
  malloc (sizeof_IAvbKey + bits / 4) w = Ret (true, w1) →
  ∃ key, iavb_parse_key_data data (8 + bits / 4) w = Ret (Some key, w1) ∧
    parsed data bits key.
Proof.
  intros Hd [Hb Hl Hh _ _ _] Em.
  assert (0 ≤ bits / 8 ∧ 2 * bits / 8 = bits / 4 ∧ bits / 4 = 2 * (bits / 8))
    as (H0 & H1 & H2) by (destruct Hb as [-> | [-> | ->]]; done).
  assert (∃ key, iavb_parse_key_data data (8 + bits / 4) w = Ret (Some key, w1))
    as (key & E).
  { destruct (load32_ok data 0 Hd) as (x & Ex & Ex'); [lia..|].
    destruct (load32_ok data 4 Hd) as (y & Ey & Ey'); [lia..|].
    unfold iavb_parse_key_data.
    erewrite comp_bind_run
      by (apply lift_run; unfold avb_rsa_public_key_header_validate_and_byteswap;
          rewrite Ex; cbn [mbind run_bind]; rewrite Ey; reflexivity).
    cbn [hdr_key_num_bits hdr_n0inv]. rewrite Ex', Hh.
    assert ((bits =? 2048) || (bits =? 4096) || (bits =? 8192) = true) as ->
      by (destruct Hb as [-> | [-> | ->]]; done).
    unfold sizeof_AvbRSAPublicKeyHeader. rewrite H1, Z.eqb_refl. cbn [negb].
    erewrite comp_bind_run by exact Em. cbn [negb].
    erewrite comp_bind_run by (apply lift_run, rd_ok; lia).
    erewrite comp_bind_run by (apply lift_run, rd_ok; lia).
    eexists. reflexivity. }
  exists key. split; [done|].
  destruct (parse_key_spec _ _ _ _ _ Hd E) as (bits' & Hp & El & _).
  replace bits with bits'; [done|]. destruct Hp as (Hb' & _).
  destruct Hb' as [-> | [-> | ->]], Hb as [-> | [-> | ->]]; done.
Qed.

(** The two comparisons at the end of [avb_rsa_verify]. *)
Lemma check_em {W} (em padding hash : bytes) padding_n hash_n (w : W) :
  0 ≤ hash_n ≤ zlen hash → 0 ≤ padding_n ≤ zlen padding → padding_n + hash_n = zlen em →
  (r ← lift (avb_safe_memcmp em padding padding_n);
   if negb (r =? 0) then mret false
   else r ← lift (avb_safe_memcmp (drop (Z.to_nat padding_n) em) hash hash_n);
        if negb (r =? 0) then mret false else mret true) w =
  Ret (bool_decide (em = slice padding 0 padding_n ++ slice hash 0 hash_n), w).
Proof.
  intros Hh Hp Hs.
  erewrite comp_bind_run by (apply lift_run, safe_memcmp_spec; unfold zlen in *; lia).
  destruct (list_split_at (Z.to_nat padding_n) em) as (e1 & e2 & -> & L1);
    [unfold zlen in *; lia|]. rewrite zlen_app in Hs.
  assert (slice (e1 ++ e2) 0 padding_n = e1) as ->.
  { unfold slice. rewrite drop_0, <-L1. apply take_app_length. }
  assert (length (slice padding 0 padding_n) = length e1) as Lp.
  { pose proof (zlen_slice padding 0 padding_n). unfold zlen in *. lia. }
  case_bool_decide as Hc; cbn [negb Z.eqb].
  - subst e1. erewrite comp_bind_run
      by (apply lift_run, safe_memcmp_spec; unfold zlen in *; rewrite ?length_drop, ?length_app; lia).
    rewrite <-L1, drop_app_length.
    assert (slice e2 0 hash_n = e2) as ->.
    { rewrite <-(slice_all e2) at 2. f_equal. unfold zlen in *. lia. }
    do 2 case_bool_decide; try done; exfalso; naive_solver.
  - rewrite bool_decide_eq_false_2; [done|]. intros E. apply app_inj_1 in E as [-> _]; done.
Qed.

Section VerifySpec.
Context {W : Type} `{Heap W}.
Hypothesis roomy : ∀ size (w : W), (heap_alloc size w).1 = true.

Lemma malloc_roomy size (w : W) : ∃ w', malloc size w = Ret (true, w').
Proof using roomy.
  unfold malloc. specialize (roomy size w). destruct (heap_alloc size w) as [b w'].
  simpl in roomy. subst b. by exists w'.
Qed.

Lemma modpowF4_run key inout (w : W) :
  ∃ w', modpowF4 key inout w =
    Ret (bytes_of_words (modpowF4_words key (words_of_be (key_len key) inout)), w').
Proof using roomy.
  unfold modpowF4, avb_malloc.
  destruct (malloc_roomy (4 * Z.of_nat (key_len key)) w) as (w1 & E1).
  destruct (malloc_roomy (4 * Z.of_nat (key_len key)) w1) as (w2 & E2).
  destruct (malloc_roomy (4 * Z.of_nat (key_len key)) w2) as (w3 & E3).
  erewrite !comp_bind_run by eassumption. by exists w3.
Qed.

(** The exponentiation on bytes: big-endian in, big-endian out. *)
Lemma modpowF4_spec data bits key inout (w : W) :
  key_format data bits → bytes_ok data → parsed data bits key →
  bytes_ok inout → zlen inout = bits / 8 →
  ∃ w', modpowF4 key inout w =
    Ret (be_encode (length inout)
           (be_decode inout ^ exponent mod be_decode (slice data 8 (bits / 8))), w').
Proof using roomy.
  intros [Hb Hl Hh Hi Hrr Ht] Hd (_ & _ & El & Ei & Hnw & Hnl & En & Hrw & Hrl & Er) Hin Hlen.
  destruct (modpowF4_run key inout w) as (w' & ->). exists w'. do 2 f_equal.
  assert (length inout = (4 * key_len key)%nat) as Lin.
  { assert (bits / 8 = 4 * (bits / 32) ∧ 0 ≤ bits / 32) as []
      by (clear -Hb; destruct Hb as [-> | [-> | ->]]; done).
    unfold zlen in Hlen. lia. }
  assert (W32 ^ Z.of_nat (key_len key) = 2 ^ bits) as ER.
  { rewrite El. destruct Hb as [-> | [-> | ->]]; reflexivity. }
  assert (is_u32 (key_n0inv key)) as Hi32.
  { rewrite Ei. pose proof (be_decode_range (slice data 4 4) (slice_ok _ _ _ Hd)) as Hr.
    rewrite zlen_slice in Hr; [exact Hr|lia..|]. clear -Hb Hl.
    change (4 + 4) with 8. etransitivity; [|exact Hl]. destruct Hb as [-> | [-> | ->]]; done. }
  assert (key_ok key) as Hok by (constructor; [done..|]; by rewrite En, Ei).
  assert (key_full key) as Hfull.
  { constructor; [done|done| |]; by rewrite ?En, ?Er, ?ER. }
  destruct (words_of_be_spec (key_len key) inout Hin Lin) as (Hw & Lw & Ew).
  destruct (modpowF4_words_spec key Hok _ Hfull (conj Hw Lw)) as [[Hw' Lw'] Ev].
  by rewrite bytes_of_words_spec, Ev, Ew, En, Lw', Lin.
Qed.

Lemma rsa_verify_run key bits sig hash hash_n padding padding_n (w : W) :
  bytes_ok key → bytes_ok sig → key_format key bits →
  bits / 8 ≤ zlen sig → 0 ≤ hash_n ≤ zlen hash → 0 ≤ padding_n ≤ zlen padding →
  padding_n + hash_n = bits / 8 →
  let em := be_encode (Z.to_nat (bits / 8))
    (be_decode (slice sig 0 (bits / 8)) ^ exponent mod be_decode (slice key 8 (bits / 8))) in
  ∃ w', avb_rsa_verify (Some key) (8 + bits / 4) (Some sig) (bits / 8) (Some hash) hash_n
          (Some padding) padding_n w =
    Ret (bool_decide (em = slice padding 0 padding_n ++ slice hash 0 hash_n), w').
Proof using roomy.
  intros Hk Hs Hf Hsl Hh Hpd Hsum em. pose proof Hf as [Hb _ _ _ _ _].
  assert (0 ≤ bits / 8 ∧ bits / 8 = 4 * Z.of_nat (Z.to_nat (bits / 32)) ∧
    u64 (bits / 8) = bits / 8 ∧ bits / 8 ≤ 1024) as (H0 & H1 & H2 & H3)
    by (destruct Hb as [-> | [-> | ->]]; done).
  unfold avb_rsa_verify. destruct (malloc_roomy (sizeof_IAvbKey + bits / 4) w) as (w1 & Em).
  destruct (parse_key_format key bits w w1 Hk Hf Em) as (pk & Ep & Hp).
  erewrite comp_bind_run by exact Ep. pose proof Hp as (_ & _ & El & _).
  rewrite El, <-H1, Z.eqb_refl. cbn [negb].
  rewrite (u64_small (bits / 8 - hash_n)) by (unfold is_u64; lia).
  rewrite (proj2 (Z.eqb_eq padding_n _)) by lia. cbn [negb].
  destruct (malloc_roomy (bits / 8) w1) as (w2 & Em2).
  erewrite comp_bind_run by exact Em2. cbn [negb].
  erewrite comp_bind_run by (apply lift_run, rd_ok; lia).
  destruct (modpowF4_spec key bits pk (slice sig 0 (bits / 8)) w2) as (w3 & Ew); [done..| | |].
  { by apply slice_ok. }
  { apply zlen_slice; lia. }
  erewrite comp_bind_run by exact Ew.
  replace (length (slice sig 0 (bits / 8))) with (Z.to_nat (bits / 8))
    by (pose proof (zlen_slice sig 0 (bits / 8)) as Hz; unfold zlen in *; lia).
  fold em. assert (length em = Z.to_nat (bits / 8)) as Lem by apply be_encode_length.
  clearbody em. clear Ew.
  exists w3. apply check_em; unfold zlen in *; lia.
Qed.

End VerifySpec.

(** C6: with memory available and a key in the documented format, the signature
    check returns true exactly when the signature, raised to the power 65537
    modulo the key's modulus, is the expected padding followed by the expected
    hash; every read stays inside its buffer. *)
Theorem avb_rsa_verify_correct {W} `{Heap W} key bits sig hash hash_n padding padding_n (w : W) :
  (∀ size (w : W), (heap_alloc size w).1 = true) →
  bytes_ok key → bytes_ok sig → key_format key bits →
  bits / 8 ≤ zlen sig → 0 ≤ hash_n ≤ zlen hash → 0 ≤ padding_n ≤ zlen padding →
  padding_n + hash_n = bits / 8 →
  let n := be_decode (slice key 8 (bits / 8)) in
  let s := be_decode (slice sig 0 (bits / 8)) in
  ∃ w', avb_rsa_verify (Some key) (8 + bits / 4) (Some sig) (bits / 8) (Some hash) hash_n
          (Some padding) padding_n w =
    Ret (bool_decide (be_encode (Z.to_nat (bits / 8)) (s ^ exponent mod n) =
                      slice padding 0 padding_n ++ slice hash 0 hash_n), w').
Proof. intros. by apply rsa_verify_run. Qed.

(** A key for runs: the modulus 2^2048 - 1, whose Montgomery constants are 1. *)
Definition demo_key : bytes :=
  be_encode 4 2048 ++ be_encode 4 1 ++ replicate 256 255 ++ replicate 255 0 ++ [1].

Lemma demo_key_format : key_format demo_key 2048.
Proof. constructor; [by left|vm_compute..]; done. Qed.

(** The format only depends on the bytes of the key itself. *)
Lemma key_format_slice key data :
  key_format key 2048 → slice data 0 520 = slice key 0 520 → key_format data 2048.
Proof.
  intros [Hb Hl Hh Hi Hrr Ht] E.
  assert (∀ off n, 0 ≤ off → 0 ≤ n → off + n ≤ 520 → slice data off n = slice key off n) as Hs.
  { intros off n ???. pose proof (slice_slice data 0 520 off n) as E1.
    rewrite Z.add_0_l in E1. rewrite <-E1, E, slice_slice by lia. done. }
  change (2048 / 4) with 512 in *. change (2048 / 8) with 256 in *.
  assert (520 ≤ zlen data) as Hd.
  { apply (f_equal zlen) in E. rewrite (zlen_slice key) in E by lia.
    unfold zlen, slice in *. rewrite length_take, length_drop in E. lia. }
  constructor; change (2048 / 4) with 512; change (2048 / 8) with 256;
    rewrite ?Hs by lia; [by left|lia|done..].
Qed.

Lemma avb_rsa_verify_correct_witness :
  ∃ w', avb_rsa_verify (H := roomy_heap) (Some demo_key) 520 (Some (replicate 256 7)) 256
          (Some (replicate 32 1)) 32 (Some (replicate 224 2)) 224 tt =
    Ret (bool_decide (be_encode 256 (be_decode (slice (replicate 256 7) 0 256) ^ exponent
                        mod be_decode (slice demo_key 8 256)) =
                      slice (replicate 224 2) 0 224 ++ slice (replicate 32 1) 0 32), w').
Proof.
  apply (avb_rsa_verify_correct (H := roomy_heap) demo_key 2048).
  - done.
  - apply (bool_decide_unpack _). vm_compute. exact I.
  - apply (bool_decide_unpack _). vm_compute. exact I.
  - exact demo_key_format.
  - vm_compute. done.
  - vm_compute. done.
  - vm_compute. done.
  - done.
Defined.

(** When the heap is exhausted inside [modpowF4], the buffer keeps the raw
    signature, and a "signature" that simply is the padding followed by the hash
    is accepted under any key. *)
Theorem rsa_verify_oom_accepts_forgery key bits hash padding :
  bytes_ok key → key_format key bits → zlen padding + zlen hash = bits / 8 →
  avb_rsa_verify (H := budget_heap) (Some key) (8 + bits / 4)
    (Some (padding ++ hash)) (bits / 8) (Some hash) (zlen hash)
    (Some padding) (zlen padding) 2%nat = Ret (true, 0%nat).
Proof.
  intros Hk Hf Hl. pose proof Hf as [Hb _ _ _ _ _].
  assert (bits / 8 = 4 * Z.of_nat (Z.to_nat (bits / 32)) ∧ bits / 8 ≤ 1024) as [H1 H2]
    by (destruct Hb as [-> | [-> | ->]]; done).
  pose proof (zlen_nonneg padding). pose proof (zlen_nonneg hash).
  destruct (parse_key_format (H := budget_heap) key bits 2%nat 1%nat Hk Hf eq_refl)
    as (pk & Ep & (_ & _ & El & _)).
  unfold avb_rsa_verify. erewrite comp_bind_run by exact Ep. cbv iota.
  rewrite El, <-H1, Z.eqb_refl. cbn [negb].
  rewrite (u64_small (bits / 8 - zlen hash)) by (unfold is_u64; lia).
  rewrite (proj2 (Z.eqb_eq (zlen padding) _)) by lia. cbn [negb].
  erewrite comp_bind_run by reflexivity. cbn [negb].
  erewrite comp_bind_run by (apply lift_run, rd_ok; rewrite ?zlen_app; lia).
  erewrite comp_bind_run by reflexivity.
  replace (bits / 8) with (zlen (padding ++ hash)) by (rewrite zlen_app; lia).
  rewrite slice_all, check_em by (rewrite ?zlen_app; lia).
  by rewrite !slice_all, bool_decide_eq_true_2.
Qed.

Lemma rsa_verify_oom_accepts_forgery_witness :
  avb_rsa_verify (H := budget_heap) (Some demo_key) (8 + 2048 / 4)
    (Some (replicate 224 2 ++ replicate 32 1)) (2048 / 8)
    (Some (replicate 32 1)) (zlen (replicate 32 1))
    (Some (replicate 224 2)) (zlen (replicate 224 2)) 2%nat = Ret (true, 0%nat).
Proof.
  apply rsa_verify_oom_accepts_forgery; [|exact demo_key_format|done].
  apply (bool_decide_unpack _). vm_compute. exact I.
Defined.

(** ** Absence of stray reads for arbitrary keys

    The constants of a key are attacker-controlled when the signature of an
    untrusted image is checked, so the lengths are followed without assuming
    anything of them. *)

Lemma subM_length key a :
  length a = length (key_n key) → length (subM key a) = length a.
Proof.
  unfold subM. generalize 0, (key_n key). intros A l. revert A a.
  induction l as [|y l IH]; intros A [|x a] E; simpl in *; try lia. f_equal. apply IH. lia.
Qed.

Lemma montMulAdd_loop_length a d0 A B b c l :
  length c = length b → length l = length b →
  length (montMulAdd_loop a d0 A B b c l).1.1 = length b.
Proof.
  revert A B c l. induction b as [|x b IH]; intros A B [|y c] [|z l] E1 E2; simpl in *; try lia.
  match goal with |- context [montMulAdd_loop a d0 ?A ?B b c l] =>
    specialize (IH A B c l ltac:(lia) ltac:(lia));
    destruct (montMulAdd_loop a d0 A B b c l) as [[out A'] B'] end.
  simpl in *. lia.
Qed.

Lemma montMulAdd_length key c a b :
  length c = length (key_n key) → length b = length (key_n key) →
  length (montMulAdd key c a b) = length (key_n key).
Proof.
  intros Ec Eb. unfold montMulAdd. destruct b as [|b0 bs]; [done|].
  destruct c as [|c0 cs]; [done|]. destruct (key_n key) as [|n0 ns] eqn:En; [done|].
  simpl in Ec, Eb.
  match goal with |- context [montMulAdd_loop a ?d ?A ?B bs cs ns] =>
    pose proof (montMulAdd_loop_length a d A B bs cs ns ltac:(lia) ltac:(lia)) as Hl;
    destruct (montMulAdd_loop a d A B bs cs ns) as [[out A'] B'] end.
  simpl in Hl.
  case_match; [|rewrite subM_length]; rewrite ?En, length_app; simpl; lia.
Qed.

Definition key_sized (key : IAvbKey) : Prop :=
  length (key_n key) = key_len key ∧ length (key_rr key) = key_len key.

Lemma montMul_length key a b :
  key_sized key → length b = key_len key → length (montMul key a b) = key_len key.
Proof.
  intros [Hn _] Hb. unfold montMul. rewrite <-Hn in *.
  generalize (length_replicate (length (key_n key)) 0).
  generalize (replicate (length (key_n key)) 0).
  induction a as [|x a IH]; intros c Hc; [done|]. cbn [foldl]. apply IH.
  by apply montMulAdd_length.
Qed.

Lemma square_loop_length key rounds aR :
  key_sized key → length aR = key_len key → length (square_loop key rounds aR) = key_len key.
Proof.
  intros Hk. revert aR. induction rounds as [|k IH]; intros aR Ha; [done|].
  cbn [square_loop]. apply IH. by repeat apply montMul_length.
Qed.

Lemma bytes_of_words_length a : length (bytes_of_words a) = (4 * length a)%nat.
Proof.
  unfold bytes_of_words. rewrite <-(length_rev a).
  induction (rev a) as [|x l IH]; [done|]. cbn [map concat]. rewrite length_app, IH. simpl. lia.
Qed.

Lemma modpowF4_returns {W} `{Heap W} key inout (w : W) :
  key_sized key → length inout = (4 * key_len key)%nat →
  ∃ out w', modpowF4 key inout w = Ret (out, w') ∧ length out = (4 * key_len key)%nat.
Proof.
  intros Hk Hl. unfold modpowF4, avb_malloc, malloc, mbind, comp_bind.
  destruct (heap_alloc _ w) as [a w1], (heap_alloc _ w1) as [b w2], (heap_alloc _ w2) as [c w3].
  case_match; eexists _, _; (split; [reflexivity|]); [done|].
  rewrite bytes_of_words_length. f_equal. unfold modpowF4_words.
  set (a0 := words_of_be _ _).
  assert (length a0 = key_len key) by (unfold a0, words_of_be; by rewrite length_map, length_seq).
  assert (∀ x, length (montMul key x a0) = key_len key) as Hm by (intros; by apply montMul_length).
  case_match; [rewrite subM_length by (rewrite Hm; symmetry; apply Hk)|]; apply Hm.
Qed.

Lemma parse_key_returns {W} `{Heap W} data length (w : W) :
  8 ≤ zlen data → length ≤ zlen data →
  ∃ o w', iavb_parse_key_data data length w = Ret (o, w') ∧
    ∀ key, o = Some key → key_sized key.
Proof.
  intros H8 Hl. unfold iavb_parse_key_data, avb_rsa_public_key_header_validate_and_byteswap, load32.
  rewrite !rd_ok by lia. erewrite comp_bind_run by (apply lift_run; reflexivity).
  cbn [hdr_key_num_bits hdr_n0inv]. set (bits := avb_be32toh _).
  destruct ((bits =? 2048) || (bits =? 4096) || (bits =? 8192)) eqn:Eb; cbn [negb];
    [|by eexists _, _]. rewrite !orb_true_iff, !Z.eqb_eq in Eb.
  unfold sizeof_AvbRSAPublicKeyHeader.
  destruct (Z.eqb_spec length (8 + 2 * bits / 8)) as [E|]; cbn [negb]; [|by eexists _, _].
  assert (0 ≤ bits / 8 ∧ 2 * bits / 8 = 2 * (bits / 8)) as [H1 H2]
    by (clear -Eb; destruct Eb as [[-> | ->] | ->]; done).
  unfold avb_malloc, malloc, mbind at 1, comp_bind at 1.
  destruct (heap_alloc _ w) as [[] w1]; cbn [negb]; [|by eexists _, _].
  erewrite comp_bind_run by (apply lift_run, rd_ok; lia).
  erewrite comp_bind_run by (apply lift_run, rd_ok; lia).
  eexists _, _. split; [reflexivity|]. intros key [= <-].
  split; cbn [key_n key_rr key_len]; by rewrite length_map, length_seq.
Qed.

(** The check returns, whatever the key, the signature and the heap. *)
Lemma rsa_verify_returns {W} `{Heap W} key key_n_ sig sig_n hash hash_n padding padding_n (w : W) :
  8 ≤ zlen key → key_n_ ≤ zlen key → 0 ≤ sig_n ≤ zlen sig → 0 ≤ hash_n ≤ zlen hash →
  0 ≤ padding_n ≤ zlen padding → padding_n + hash_n < 0x10000000000000000 →
  sig_n < 0x10000000000000000 →
  ∃ b w', avb_rsa_verify (Some key) key_n_ (Some sig) sig_n (Some hash) hash_n
            (Some padding) padding_n w = Ret (b, w').
Proof.
  intros H8 Hk Hs Hh Hp Hph Hs64. unfold avb_rsa_verify.
  destruct (parse_key_returns key key_n_ w H8 Hk) as (o & w1 & E & Ho).
  erewrite comp_bind_run by exact E. destruct o as [pk|]; [|by eexists _, _].
  specialize (Ho pk eq_refl).
  destruct (Z.eqb_spec sig_n (4 * Z.of_nat (key_len pk))) as [Es|]; cbn [negb]; [|by eexists _, _].
  destruct (Z.eqb_spec padding_n (u64 (sig_n - hash_n))) as [Ep|]; cbn [negb]; [|by eexists _, _].
  assert (padding_n + hash_n = sig_n) as Esum.
  { unfold u64 in Ep. destruct (Z_le_gt_dec hash_n sig_n).
    - rewrite Z.mod_small in Ep by lia. lia.
    - replace ((sig_n - hash_n) mod _) with (sig_n - hash_n + 0x10000000000000000) in Ep
        by (apply Z.mod_unique_pos with (-1); lia). lia. }
  unfold avb_malloc, malloc, mbind at 1, comp_bind at 1.
  destruct (heap_alloc _ w1) as [[] w2]; cbn [negb]; [|by eexists _, _].
  erewrite comp_bind_run by (apply lift_run, rd_ok; lia).
  destruct (modpowF4_returns pk (slice sig 0 sig_n) w2 Ho) as (out & w3 & Em & Lo).
  { pose proof (zlen_slice sig 0 sig_n). unfold zlen in *. lia. }
  erewrite comp_bind_run by exact Em.
  rewrite check_em by (unfold zlen in *; lia). by eexists _, _.
Qed.

(** What acceptance says about the sizes, without any assumption on the heap. *)
Lemma rsa_verify_true_sizes {W} `{Heap W} key key_n_ sig sig_n hash hash_n padding padding_n
    (w w' : W) :
  bytes_ok key →
  avb_rsa_verify (Some key) key_n_ (Some sig) sig_n (Some hash) hash_n (Some padding) padding_n w
    = Ret (true, w') →
  let bits := be_decode (slice key 0 4) in
  (bits = 2048 ∨ bits = 4096 ∨ bits = 8192) ∧ key_n_ = 8 + bits / 4 ∧ sig_n = bits / 8 ∧
  padding_n = u64 (sig_n - hash_n).
Proof.
  intros Hk E. unfold avb_rsa_verify in E.
  apply comp_bind_Ret in E as (o & w1 & Ep & E). destruct o as [pk|]; [|discriminate E].
  destruct (parse_key_spec _ _ _ _ _ Hk Ep) as (bits & (Hb & -> & El & _) & En & _).
  destruct (Z.eqb_spec sig_n (4 * Z.of_nat (key_len pk))) as [Es|]; [|discriminate E].
  destruct (Z.eqb_spec padding_n (u64 (sig_n - hash_n))) as [Eq|]; [|discriminate E].
  split_and!; [done|done| |done]. rewrite Es, El.
  clear -Hb. destruct Hb as [-> | [-> | ->]]; done.
Qed.
