(* ===== verification/Vbmeta.v ===== *)
(** * The vbmeta image (lib/libavb/avb_vbmeta_image.c, avb_crypto.c)

    The header of a vbmeta image, the table of signature algorithms and the
    verification of an image: layout checks, hash over header and auxiliary
    block, signature over the hash. *)

From S2P Require Import Prelude AvbUtil Sha2 Sha2Spec Rsa.

(** ** Algorithms *)

Definition AVB_SHA256_DIGEST_SIZE : Z := 32.
Definition AVB_SHA512_DIGEST_SIZE : Z := 64.

(** The PKCS#1 v1.5 paddings: 00 01 ff..ff 00 and the DER prefix of the hash. *)
Definition padding_RSA2048_SHA256 : bytes :=
  [0x00; 0x01] ++ replicate 202 0xff ++
  [0x00; 0x30; 0x31; 0x30; 0x0d; 0x06; 0x09; 0x60; 0x86; 0x48; 0x01; 0x65; 0x03; 0x04; 0x02;
   0x01; 0x05; 0x00; 0x04; 0x20].
Definition padding_RSA4096_SHA256 : bytes :=
  [0x00; 0x01] ++ replicate 458 0xff ++
  [0x00; 0x30; 0x31; 0x30; 0x0d; 0x06; 0x09; 0x60; 0x86; 0x48; 0x01; 0x65; 0x03; 0x04; 0x02;
   0x01; 0x05; 0x00; 0x04; 0x20].
Definition padding_RSA8192_SHA256 : bytes :=
  [0x00; 0x01] ++ replicate 970 0xff ++
  [0x00; 0x30; 0x31; 0x30; 0x0d; 0x06; 0x09; 0x60; 0x86; 0x48; 0x01; 0x65; 0x03; 0x04; 0x02;
   0x01; 0x05; 0x00; 0x04; 0x20].
Definition padding_RSA2048_SHA512 : bytes :=
  [0x00; 0x01] ++ replicate 170 0xff ++
  [0x00; 0x30; 0x51; 0x30; 0x0d; 0x06; 0x09; 0x60; 0x86; 0x48; 0x01; 0x65; 0x03; 0x04; 0x02;
   0x03; 0x05; 0x00; 0x04; 0x40].
Definition padding_RSA4096_SHA512 : bytes :=
  [0x00; 0x01] ++ replicate 426 0xff ++
  [0x00; 0x30; 0x51; 0x30; 0x0d; 0x06; 0x09; 0x60; 0x86; 0x48; 0x01; 0x65; 0x03; 0x04; 0x02;
   0x03; 0x05; 0x00; 0x04; 0x40].
Definition padding_RSA8192_SHA512 : bytes :=
  [0x00; 0x01] ++ replicate 938 0xff ++
  [0x00; 0x30; 0x51; 0x30; 0x0d; 0x06; 0x09; 0x60; 0x86; 0x48; 0x01; 0x65; 0x03; 0x04; 0x02;
   0x03; 0x05; 0x00; 0x04; 0x40].

(** [AvbAlgorithmType]. *)
Definition AVB_ALGORITHM_TYPE_NONE : Z := 0.
Definition AVB_ALGORITHM_TYPE_SHA256_RSA2048 : Z := 1.
Definition AVB_ALGORITHM_TYPE_SHA256_RSA4096 : Z := 2.
Definition AVB_ALGORITHM_TYPE_SHA256_RSA8192 : Z := 3.
Definition AVB_ALGORITHM_TYPE_SHA512_RSA2048 : Z := 4.
Definition AVB_ALGORITHM_TYPE_SHA512_RSA4096 : Z := 5.
Definition AVB_ALGORITHM_TYPE_SHA512_RSA8192 : Z := 6.
Definition AVB_ALGORITHM_NUM_TYPES : Z := 7.

Record AvbAlgorithmData := mkAlg {
  alg_padding : option bytes;
  alg_padding_len : Z;
  alg_hash_len : Z;
}.

Definition algorithm_data : list AvbAlgorithmData :=
  [mkAlg None 0 0;
   mkAlg (Some padding_RSA2048_SHA256) (zlen padding_RSA2048_SHA256) AVB_SHA256_DIGEST_SIZE;
   mkAlg (Some padding_RSA4096_SHA256) (zlen padding_RSA4096_SHA256) AVB_SHA256_DIGEST_SIZE;
   mkAlg (Some padding_RSA8192_SHA256) (zlen padding_RSA8192_SHA256) AVB_SHA256_DIGEST_SIZE;
   mkAlg (Some padding_RSA2048_SHA512) (zlen padding_RSA2048_SHA512) AVB_SHA512_DIGEST_SIZE;
   mkAlg (Some padding_RSA4096_SHA512) (zlen padding_RSA4096_SHA512) AVB_SHA512_DIGEST_SIZE;
   mkAlg (Some padding_RSA8192_SHA512) (zlen padding_RSA8192_SHA512) AVB_SHA512_DIGEST_SIZE].

Definition avb_get_algorithm_data (algorithm : Z) : option AvbAlgorithmData :=
  if algorithm <? AVB_ALGORITHM_NUM_TYPES then algorithm_data !! Z.to_nat algorithm else None.

(** ** Header *)

Definition AVB_MAGIC : bytes := str "AVB0".
Definition AVB_MAGIC_LEN : Z := 4.
Definition AVB_VBMETA_IMAGE_HEADER_SIZE : Z := 256.
Definition AVB_RELEASE_STRING_SIZE : Z := 48.
Definition AVB_VERSION_MAJOR : Z := 1.
Definition AVB_VERSION_MINOR : Z := 1.

Record AvbVBMetaImageHeader := mkHeader {
  required_libavb_version_major : Z;
  required_libavb_version_minor : Z;
  authentication_data_block_size : Z;
  auxiliary_data_block_size : Z;
  algorithm_type : Z;
  hash_offset : Z;
  hash_size : Z;
  signature_offset : Z;
  signature_size : Z;
  public_key_offset : Z;
  public_key_size : Z;
  public_key_metadata_offset : Z;
  public_key_metadata_size : Z;
  descriptors_offset : Z;
  descriptors_size : Z;
  rollback_index : Z;
  flags : Z;
  release_string : bytes;
}.

(** Big-endian fields at the byte offsets of the packed struct. *)
Definition be32_at (l : bytes) (off : Z) : Z := avb_be32toh (le_decode (slice l off 4)).
Definition be64_at (l : bytes) (off : Z) : Z := avb_be64toh (le_decode (slice l off 8)).

Definition avb_vbmeta_image_header_to_host_byte_order (src : bytes)
    : run AvbVBMetaImageHeader :=
  l ← rd src 0 AVB_VBMETA_IMAGE_HEADER_SIZE;
  mret {|
    required_libavb_version_major := be32_at l 4;
    required_libavb_version_minor := be32_at l 8;
    authentication_data_block_size := be64_at l 12;
    auxiliary_data_block_size := be64_at l 20;
    algorithm_type := be32_at l 28;
    hash_offset := be64_at l 32;
    hash_size := be64_at l 40;
    signature_offset := be64_at l 48;
    signature_size := be64_at l 56;
    public_key_offset := be64_at l 64;
    public_key_size := be64_at l 72;
    public_key_metadata_offset := be64_at l 80;
    public_key_metadata_size := be64_at l 88;
    descriptors_offset := be64_at l 96;
    descriptors_size := be64_at l 104;
    rollback_index := be64_at l 112;
    flags := be32_at l 120;
    release_string := slice l 128 AVB_RELEASE_STRING_SIZE;
  |}.

Inductive AvbVBMetaVerifyResult :=
| AVB_VBMETA_VERIFY_RESULT_OK
| AVB_VBMETA_VERIFY_RESULT_OK_NOT_SIGNED
| AVB_VBMETA_VERIFY_RESULT_INVALID_VBMETA_HEADER
| AVB_VBMETA_VERIFY_RESULT_UNSUPPORTED_VERSION
| AVB_VBMETA_VERIFY_RESULT_HASH_MISMATCH
| AVB_VBMETA_VERIFY_RESULT_SIGNATURE_MISMATCH.

#[export] Instance AvbVBMetaVerifyResult_eq_dec : EqDecision AvbVBMetaVerifyResult.
Proof. solve_decision. Defined.

Definition avb_vbmeta_verify_result_to_string (r : AvbVBMetaVerifyResult) : bytes :=
  match r with
  | AVB_VBMETA_VERIFY_RESULT_OK => str "OK"
  | AVB_VBMETA_VERIFY_RESULT_OK_NOT_SIGNED => str "OK_NOT_SIGNED"
  | AVB_VBMETA_VERIFY_RESULT_INVALID_VBMETA_HEADER => str "INVALID_VBMETA_HEADER"
  | AVB_VBMETA_VERIFY_RESULT_UNSUPPORTED_VERSION => str "UNSUPPORTED_VERSION"
  | AVB_VBMETA_VERIFY_RESULT_HASH_MISMATCH => str "HASH_MISMATCH"
  | AVB_VBMETA_VERIFY_RESULT_SIGNATURE_MISMATCH => str "SIGNATURE_MISMATCH"
  end.

(** ** Verification *)

(** [offset + size] computed without overflow and within a block. *)
Definition fits_in (off size block : Z) : bool :=
  let '(ok, end_) := avb_safe_add off size in ok && negb (block <? end_).

(** The checks on the header, in order; [Some r] is the early return with [r],
    [None] that the hash and the signature are to be checked. *)
Definition header_check (h : AvbVBMetaImageHeader) (length data_ptr : Z)
    : option AvbVBMetaVerifyResult :=
  if negb (required_libavb_version_major h =? AVB_VERSION_MAJOR) ||
     (AVB_VERSION_MINOR <? required_libavb_version_minor h)
  then Some AVB_VBMETA_VERIFY_RESULT_UNSUPPORTED_VERSION
  else if negb (release_string h !!! Z.to_nat (AVB_RELEASE_STRING_SIZE - 1) =? 0)
  then Some AVB_VBMETA_VERIFY_RESULT_INVALID_VBMETA_HEADER
  else if negb (Z.land (authentication_data_block_size h) 0x3f =? 0) ||
          negb (Z.land (auxiliary_data_block_size h) 0x3f =? 0)
  then Some AVB_VBMETA_VERIFY_RESULT_INVALID_VBMETA_HEADER
  else
    let '(ok1, total) := avb_safe_add_to AVB_VBMETA_IMAGE_HEADER_SIZE
                           (authentication_data_block_size h) in
    let '(ok2, total) := avb_safe_add_to total (auxiliary_data_block_size h) in
    if negb ok1 || negb ok2 then Some AVB_VBMETA_VERIFY_RESULT_INVALID_VBMETA_HEADER
    else if length <? total then Some AVB_VBMETA_VERIFY_RESULT_INVALID_VBMETA_HEADER
    else if negb (avb_safe_add data_ptr length).1
    then Some AVB_VBMETA_VERIFY_RESULT_INVALID_VBMETA_HEADER
    else if negb (fits_in (hash_offset h) (hash_size h) (authentication_data_block_size h))
    then Some AVB_VBMETA_VERIFY_RESULT_INVALID_VBMETA_HEADER
    else if negb (fits_in (signature_offset h) (signature_size h)
                    (authentication_data_block_size h))
    then Some AVB_VBMETA_VERIFY_RESULT_INVALID_VBMETA_HEADER
    else if negb (fits_in (public_key_offset h) (public_key_size h)
                    (auxiliary_data_block_size h))
    then Some AVB_VBMETA_VERIFY_RESULT_INVALID_VBMETA_HEADER
    else if (0 <? public_key_metadata_size h) &&
            negb (fits_in (public_key_metadata_offset h) (public_key_metadata_size h)
                    (auxiliary_data_block_size h))
    then Some AVB_VBMETA_VERIFY_RESULT_INVALID_VBMETA_HEADER
    else if algorithm_type h =? AVB_ALGORITHM_TYPE_NONE
    then Some AVB_VBMETA_VERIFY_RESULT_OK_NOT_SIGNED
    else None.

(** The hash of an algorithm, by the cases of the switch. *)
Definition algorithm_hash (t : Z) : option Sha2 :=
  if (t =? AVB_ALGORITHM_TYPE_SHA256_RSA2048) || (t =? AVB_ALGORITHM_TYPE_SHA256_RSA4096) ||
     (t =? AVB_ALGORITHM_TYPE_SHA256_RSA8192) then Some SHA256
  else if (t =? AVB_ALGORITHM_TYPE_SHA512_RSA2048) || (t =? AVB_ALGORITHM_TYPE_SHA512_RSA4096) ||
     (t =? AVB_ALGORITHM_TYPE_SHA512_RSA8192) then Some SHA512
  else None.

(** The digest of two buffers, each given by a pointer and a 32-bit length. *)
Definition hash_two (p : Sha2) (d1 : bytes) (len1 : Z) (d2 : bytes) (len2 : Z) : run bytes :=
  ctx ← avb_sha_update p (avb_sha_init p) d1 (u32 len1);
  ctx ← avb_sha_update p ctx d2 (u32 len2);
  avb_sha_final p ctx.

Section Verify.
Context {W : Type} `{Heap W}.

(** The result and, on success, the offset and the size of the public key.
    [data_ptr] is the address of [data]. *)
Definition avb_vbmeta_image_verify (data_ptr : Z) (data : bytes) (length : Z)
    : comp W (AvbVBMetaVerifyResult * option (Z * Z)) :=
  r ← lift (avb_safe_memcmp data AVB_MAGIC AVB_MAGIC_LEN);
  if negb (r =? 0) then mret (AVB_VBMETA_VERIFY_RESULT_INVALID_VBMETA_HEADER, None)
  else if length <? AVB_VBMETA_IMAGE_HEADER_SIZE
  then mret (AVB_VBMETA_VERIFY_RESULT_INVALID_VBMETA_HEADER, None)
  else
    h ← lift (avb_vbmeta_image_header_to_host_byte_order data);
    match header_check h length data_ptr with
    | Some r => mret (r, None)
    | None =>
        match avb_get_algorithm_data (algorithm_type h), algorithm_hash (algorithm_type h) with
        | Some algorithm, Some p =>
            if negb (hash_size h =? alg_hash_len algorithm)
            then mret (AVB_VBMETA_VERIFY_RESULT_INVALID_VBMETA_HEADER, None)
            else
              let authentication_block := AVB_VBMETA_IMAGE_HEADER_SIZE in
              let auxiliary_block := authentication_block + authentication_data_block_size h in
              let at_ off := drop (Z.to_nat off) data in
              computed_hash ← lift (hash_two p data AVB_VBMETA_IMAGE_HEADER_SIZE
                (at_ auxiliary_block) (auxiliary_data_block_size h));
              r ← lift (avb_safe_memcmp (at_ (authentication_block + hash_offset h))
                          computed_hash (hash_size h));
              if negb (r =? 0) then mret (AVB_VBMETA_VERIFY_RESULT_HASH_MISMATCH, None)
              else
                verification_result ← avb_rsa_verify
                  (Some (at_ (auxiliary_block + public_key_offset h))) (public_key_size h)
                  (Some (at_ (authentication_block + signature_offset h))) (signature_size h)
                  (Some (at_ (authentication_block + hash_offset h))) (hash_size h)
                  (alg_padding algorithm) (alg_padding_len algorithm);
                if negb verification_result
                then mret (AVB_VBMETA_VERIFY_RESULT_SIGNATURE_MISMATCH, None)
                else mret (AVB_VBMETA_VERIFY_RESULT_OK,
                           if 0 <? public_key_size h
                           then Some (auxiliary_block + public_key_offset h, public_key_size h)
                           else None)
        | _, _ => mret (AVB_VBMETA_VERIFY_RESULT_INVALID_VBMETA_HEADER, None)
        end
    end.

Lemma avb_vbmeta_image_verify_keeps data_ptr data length :
  (∀ n (w : W), (heap_alloc n w).2 = w) →
  keeps_world (avb_vbmeta_image_verify data_ptr data length).
Proof.
  intros Hh. unfold avb_vbmeta_image_verify.
  repeat first [ progress intros | apply keeps_bind | apply avb_rsa_verify_keeps
               | progress auto with keeps | case_match ]; done.
Qed.

End Verify.

(** ** What the layout checks establish *)

Lemma fits_in_true off size block :
  is_u64 off → is_u64 size → fits_in off size block = true → off + size ≤ block.
Proof.
  intros Ho Hs. unfold fits_in. destruct (avb_safe_add off size) as [[] e] eqn:E; [|done].
  apply safe_add_true in E as [-> _]; [|done..]. cbn [andb].
  rewrite negb_true_iff, Z.ltb_ge. done.
Qed.

(** The fields are machine words. *)
Definition header_words (h : AvbVBMetaImageHeader) : Prop :=
  is_u64 (authentication_data_block_size h) ∧ is_u64 (auxiliary_data_block_size h) ∧
  is_u64 (hash_offset h) ∧ is_u64 (hash_size h) ∧
  is_u64 (signature_offset h) ∧ is_u64 (signature_size h) ∧
  is_u64 (public_key_offset h) ∧ is_u64 (public_key_size h) ∧
  is_u64 (public_key_metadata_offset h) ∧ is_u64 (public_key_metadata_size h) ∧
  is_u64 (descriptors_offset h) ∧ is_u64 (descriptors_size h) ∧
  is_u64 (rollback_index h) ∧ is_u32 (flags h) ∧ is_u32 (algorithm_type h).

Lemma header_words_ok src h :
  avb_vbmeta_image_header_to_host_byte_order src = Ret h → header_words h.
Proof.
  intros E. apply run_bind_Ret in E as (l & _ & [= <-]).
  unfold header_words, be32_at, be64_at. cbn. split_and!; auto with words.
Qed.

(** A header that passes: the blocks fit the image and the parts their blocks. *)
Record header_layout (h : AvbVBMetaImageHeader) (length : Z) : Prop := {
  hl_version : required_libavb_version_major h = AVB_VERSION_MAJOR ∧
               required_libavb_version_minor h ≤ AVB_VERSION_MINOR;
  hl_total : AVB_VBMETA_IMAGE_HEADER_SIZE + authentication_data_block_size h +
             auxiliary_data_block_size h ≤ length;
  hl_hash : hash_offset h + hash_size h ≤ authentication_data_block_size h;
  hl_signature : signature_offset h + signature_size h ≤ authentication_data_block_size h;
  hl_key : public_key_offset h + public_key_size h ≤ auxiliary_data_block_size h;
  hl_metadata : 0 < public_key_metadata_size h →
    public_key_metadata_offset h + public_key_metadata_size h ≤ auxiliary_data_block_size h;
}.

Definition check_accepts (o : option AvbVBMetaVerifyResult) : Prop :=
  o = None ∨ o = Some AVB_VBMETA_VERIFY_RESULT_OK_NOT_SIGNED.

Lemma header_check_layout h length data_ptr :
  header_words h → check_accepts (header_check h length data_ptr) → header_layout h length.
Proof.
  intros (Ha & Hx & Ho & Hs & Hso & Hss & Hko & Hks & Hmo & Hms & _) Hc.
  unfold check_accepts, header_check in Hc.
  destruct (_ || _) eqn:Ev; [naive_solver|].
  apply orb_false_iff in Ev as [Ev1%negb_false_iff%Z.eqb_eq Ev2%Z.ltb_ge].
  case_match; [naive_solver|]. case_match; [naive_solver|].
  destruct (avb_safe_add_to AVB_VBMETA_IMAGE_HEADER_SIZE (authentication_data_block_size h))
    as [ok1 t1] eqn:E1.
  destruct (avb_safe_add_to t1 (auxiliary_data_block_size h)) as [ok2 t2] eqn:E2.
  destruct ok1; [|naive_solver]. destruct ok2; [|naive_solver]. cbn [negb orb] in Hc.
  apply safe_add_true in E1 as [-> ?]; [|done..]. apply safe_add_true in E2 as [-> ?]; [|done..].
  destruct (Z.ltb_spec length (AVB_VBMETA_IMAGE_HEADER_SIZE + authentication_data_block_size h +
    auxiliary_data_block_size h)); [naive_solver|].
  case_match; [naive_solver|].
  destruct (fits_in (hash_offset h) _ _) eqn:F1; [|naive_solver].
  destruct (fits_in (signature_offset h) _ _) eqn:F2; [|naive_solver].
  destruct (fits_in (public_key_offset h) _ _) eqn:F3; [|naive_solver]. cbn [negb] in Hc.
  apply fits_in_true in F1, F2, F3; try done. constructor; try done.
  intros Hm. rewrite (proj2 (Z.ltb_lt _ _)) in Hc by done. cbn [andb] in Hc.
  destruct (fits_in (public_key_metadata_offset h) _ _) eqn:F4; [|naive_solver].
  by apply fits_in_true in F4.
Qed.

Lemma header_check_fits h n ptr :
  is_u64 ptr → is_u64 n → header_check h n ptr = None → ptr + n < 2 ^ 64.
Proof.
  intros Hp Hn E. unfold header_check in E. do 3 (case_match; [discriminate E|]).
  destruct (avb_safe_add_to AVB_VBMETA_IMAGE_HEADER_SIZE _) as [ok1 t1].
  destruct (avb_safe_add_to t1 _) as [ok2 t2]. do 2 (case_match; [discriminate E|]).
  destruct (negb (avb_safe_add ptr n).1) eqn:Ea; [discriminate E|]. apply negb_false_iff in Ea.
  unfold avb_safe_add in Ea. rewrite safe_add_to_spec in Ea by done.
  case_bool_decide as Hc; [|discriminate Ea]. lia.
Qed.

(** ** Hashing the image *)

Lemma hash_two_absorbs p d1 len1 d2 len2 :
  sha2_ok p → 0 ≤ len1 ≤ zlen d1 → 0 ≤ len2 ≤ zlen d2 →
  len1 < 0x80000000 → len2 < 0x80000000 →
  ∃ ctx, hash_two p d1 len1 d2 len2 = avb_sha_final p ctx ∧
    absorbed p ctx (slice d1 0 len1 ++ slice d2 0 len2).
Proof.
  intros Hp H1 H2 H1' H2'. unfold hash_two. rewrite !u32_small by (unfold is_u32; lia).
  destruct (update_slice p Hp _ [] d1 len1 (absorbed_init p Hp) H1 H1') as (c1 & -> & A1).
  cbn [mbind run_bind app] in *.
  destruct (update_slice p Hp c1 _ d2 len2 A1 H2 H2') as (c2 & -> & A2). by exists c2.
Qed.

Lemma algorithm_cases t alg p :
  is_u32 t → avb_get_algorithm_data t = Some alg → algorithm_hash t = Some p →
  (p = SHA256 ∧ alg_hash_len alg = 32 ∨ p = SHA512 ∧ alg_hash_len alg = 64) ∧
  ∃ padding, alg_padding alg = Some padding ∧ alg_padding_len alg = zlen padding ∧
    zlen padding < 1024 ∧ bytes_ok padding.
Proof.
  unfold is_u32, avb_get_algorithm_data, AVB_ALGORITHM_NUM_TYPES.
  destruct (Z.ltb_spec t 7) as [Hlt|]; [|done]. intros [Ht _] Ea Eh.
  assert (t = 0 ∨ t = 1 ∨ t = 2 ∨ t = 3 ∨ t = 4 ∨ t = 5 ∨ t = 6) as Hc by lia.
  destruct Hc as [-> | [-> | [-> | [-> | [-> | [-> | ->]]]]]]; try discriminate Eh;
    injection Eh as <-; injection Ea as <-; (split; [by auto|]);
    eexists; (split; [reflexivity|]); (split; [reflexivity|]); split; done || by apply (bool_decide_unpack _).
Qed.

(** The digest has the length the algorithm table announces. *)
Lemma hash_two_returns p d1 len1 d2 len2 :
  p = SHA256 ∨ p = SHA512 → 0 ≤ len1 ≤ zlen d1 → 0 ≤ len2 ≤ zlen d2 →
  len1 < 0x80000000 → len2 < 0x80000000 →
  ∃ digest, hash_two p d1 len1 d2 len2 = Ret digest ∧
    length digest = Z.to_nat (8 * word_bytes p) ∧
    (bytes_ok d1 → bytes_ok d2 → len1 + len2 < 0x20000000 →
     digest = sha2_digest p (slice d1 0 len1 ++ slice d2 0 len2)).
Proof.
  intros Hp H1 H2 H1' H2'.
  assert (sha2_ok p) as Hok by (destruct Hp as [-> | ->]; [apply sha256_ok|apply sha512_ok]).
  destruct (hash_two_absorbs p d1 len1 d2 len2) as (ctx & -> & Ha); [done..|].
  rewrite (final_of_absorbed p Hok ctx _ Ha). eexists. split; [reflexivity|]. split.
  - assert (∀ m k, length (hash_blocks p k (sha_h0 p) m) = 8%nat) as Hl
      by (intros; apply hash_blocks_length, Hok).
    destruct Hp as [-> | ->]; [by rewrite (digest_length SHA256 _ 4)|by rewrite (digest_length SHA512 _ 8)].
  - intros Hb1 Hb2 Hlt. assert (8 * zlen (slice d1 0 len1 ++ slice d2 0 len2) < 0x100000000).
    { rewrite zlen_app, !zlen_slice by lia. lia. }
    pose proof (final_of_absorbed p Hok ctx _ Ha) as E1.
    rewrite (final_of_absorbed_standard p Hok ctx _ Ha) in E1 by done.
    rewrite padded_digest_fips in E1 by (try done; apply Forall_app_2; by apply slice_ok). congruence.
Qed.

(** A hash that returns has found its bytes and is the digest of them. *)
Lemma hash_two_inv p d1 len1 d2 len2 digest :
  p = SHA256 ∨ p = SHA512 → 0 ≤ len1 < 0x80000000 → 0 ≤ len2 < 0x80000000 →
  hash_two p d1 len1 d2 len2 = Ret digest →
  len1 ≤ zlen d1 ∧ len2 ≤ zlen d2 ∧ length digest = Z.to_nat (8 * word_bytes p) ∧
  (bytes_ok d1 → bytes_ok d2 → len1 + len2 < 0x20000000 →
   digest = sha2_digest p (slice d1 0 len1 ++ slice d2 0 len2)).
Proof.
  intros Hp H1 H2 E.
  assert (sha2_ok p) as Hok by (destruct Hp as [-> | ->]; [apply sha256_ok|apply sha512_ok]).
  assert (len1 ≤ zlen d1 ∧ len2 ≤ zlen d2) as [L1 L2].
  { unfold hash_two in E. rewrite !u32_small in E by (unfold is_u32; lia).
    apply run_bind_Ret in E as (c1 & E1 & E). apply run_bind_Ret in E as (c2 & E2 & _).
    pose proof (update_reads p Hok _ [] _ _ _ (absorbed_init p Hok) H1 E1) as L1.
    split; [done|].
    destruct (update_slice p Hok _ [] d1 len1 (absorbed_init p Hok)) as (c1' & E1' & A1); [lia..|].
    rewrite E1 in E1'. injection E1' as <-.
    exact (update_reads p Hok _ _ _ _ _ A1 H2 E2). }
  destruct (hash_two_returns p d1 len1 d2 len2 Hp) as (d & Ed & Ld & Sd); [lia..|].
  rewrite E in Ed. injection Ed as ->. done.
Qed.

(** ** Verification: properties *)

Section VerifySpec.
Context {W : Type} `{Heap W}.

(** Every run that passes the header has this shape: the digest of header and
    auxiliary block is compared, then the signature is checked. *)
Lemma verify_signed_path h alg p padding data data_ptr length (w : W) :
  avb_safe_memcmp data AVB_MAGIC AVB_MAGIC_LEN = Ret 0 → AVB_VBMETA_IMAGE_HEADER_SIZE ≤ length →
  avb_vbmeta_image_header_to_host_byte_order data = Ret h →
  header_check h length data_ptr = None →
  avb_get_algorithm_data (algorithm_type h) = Some alg →
  algorithm_hash (algorithm_type h) = Some p → hash_size h = alg_hash_len alg →
  alg_padding alg = Some padding → 0 ≤ length ≤ zlen data → length < 0x80000000 →
  let auth := AVB_VBMETA_IMAGE_HEADER_SIZE in
  let aux := auth + authentication_data_block_size h in
  let at_ off := drop (Z.to_nat off) data in
  ∃ digest,
    List.length digest = Z.to_nat (hash_size h) ∧
    (bytes_ok data → length < 0x20000000 →
     digest = sha2_digest p (slice data 0 auth ++ slice data aux (auxiliary_data_block_size h))) ∧
    avb_vbmeta_image_verify data_ptr data length w =
      (if bool_decide (slice data (auth + hash_offset h) (hash_size h) = digest) then
         b ← avb_rsa_verify (Some (at_ (aux + public_key_offset h))) (public_key_size h)
               (Some (at_ (auth + signature_offset h))) (signature_size h)
               (Some (at_ (auth + hash_offset h))) (hash_size h)
               (Some padding) (alg_padding_len alg);
         if negb b then mret (AVB_VBMETA_VERIFY_RESULT_SIGNATURE_MISMATCH, None)
         else mret (AVB_VBMETA_VERIFY_RESULT_OK,
                    if 0 <? public_key_size h
                    then Some (aux + public_key_offset h, public_key_size h) else None)
       else mret (AVB_VBMETA_VERIFY_RESULT_HASH_MISMATCH, None)) w.
Proof.
  intros Em Hl Eh Ec Ea Ep Es Epad Hlen H31 auth aux at_.
  pose proof (header_words_ok _ _ Eh) as Hw.
  pose proof (header_check_layout h length data_ptr Hw (or_introl Ec)) as HL.
  destruct HL as [_ Ht Hh _ _ _].
  destruct Hw as (Wa & Wx & Wo & Wh & _ & _ & _ & _ & _ & _ & _ & _ & _ & _ & Wt).
  unfold is_u64 in *.
  destruct (algorithm_cases _ _ _ Wt Ea Ep) as [Hp _].
  assert (p = SHA256 ∨ p = SHA512) as Hp' by tauto.
  unfold AVB_VBMETA_IMAGE_HEADER_SIZE in Ht.
  destruct (hash_two_returns p data AVB_VBMETA_IMAGE_HEADER_SIZE (at_ aux)
    (auxiliary_data_block_size h) Hp') as (digest & Eg & Lg & Sg).
  1,3: unfold AVB_VBMETA_IMAGE_HEADER_SIZE in *; lia.
  { unfold at_. rewrite zlen_drop; unfold aux, auth, AVB_VBMETA_IMAGE_HEADER_SIZE; lia. }
  { lia. }
  assert (Z.to_nat (8 * word_bytes p) = Z.to_nat (hash_size h)) as Ewb.
  { rewrite Es. by destruct Hp as [[-> ->] | [-> ->]]. }
  assert (0 ≤ aux) by (unfold aux, auth, AVB_VBMETA_IMAGE_HEADER_SIZE; lia).
  exists digest. split; [congruence|]. split.
  { intros Hb Hlt. rewrite Sg; [|done|by apply Forall_drop|unfold AVB_VBMETA_IMAGE_HEADER_SIZE; lia].
    unfold at_. by rewrite slice_drop, Z.add_0_r by lia. }
  unfold avb_vbmeta_image_verify.
  erewrite comp_bind_run by (apply lift_run; exact Em). cbn [Z.eqb negb].
  rewrite (proj2 (Z.ltb_ge _ _)) by done.
  erewrite comp_bind_run by (apply lift_run; exact Eh). rewrite Ec, Ea, Ep, Es, Z.eqb_refl, Epad.
  cbn [negb]. rewrite <-Es. fold auth aux.
  erewrite comp_bind_run by (apply lift_run; exact Eg).
  assert (zlen digest = hash_size h) as Ld by (unfold zlen; lia).
  assert (0 ≤ auth + hash_offset h ≤ zlen data) as Hao by (unfold auth, AVB_VBMETA_IMAGE_HEADER_SIZE; lia).
  erewrite comp_bind_run by (apply lift_run, safe_memcmp_spec;
    rewrite ?zlen_drop; unfold auth, AVB_VBMETA_IMAGE_HEADER_SIZE; lia).
  rewrite <-Ld, slice_all, slice_drop, Z.add_0_r by lia. rewrite Ld.
  by case_bool_decide.
Qed.

Lemma verify_ok_path data_ptr data length (w w' : W) pk :
  avb_vbmeta_image_verify data_ptr data length w = Ret ((AVB_VBMETA_VERIFY_RESULT_OK, pk), w') →
  avb_safe_memcmp data AVB_MAGIC AVB_MAGIC_LEN = Ret 0 ∧ AVB_VBMETA_IMAGE_HEADER_SIZE ≤ length ∧
  ∃ h alg p padding,
    avb_vbmeta_image_header_to_host_byte_order data = Ret h ∧
    header_check h length data_ptr = None ∧
    avb_get_algorithm_data (algorithm_type h) = Some alg ∧
    algorithm_hash (algorithm_type h) = Some p ∧ hash_size h = alg_hash_len alg ∧
    alg_padding alg = Some padding ∧ alg_padding_len alg = zlen padding ∧
    zlen padding < 1024 ∧ bytes_ok padding.
Proof.
  intros E. unfold avb_vbmeta_image_verify in E.
  apply comp_bind_Ret in E as (r & w1 & Er & E). apply lift_Ret in Er as (r' & Er & [= -> ->]).
  destruct (Z.eqb_spec r' 0) as [->|]; [|discriminate E]. cbn [negb] in E.
  destruct (Z.ltb_spec length AVB_VBMETA_IMAGE_HEADER_SIZE); [discriminate E|].
  split; [done|]. split; [done|].
  apply comp_bind_Ret in E as (h & w2 & Eh & E). apply lift_Ret in Eh as (h' & Eh & [= -> ->]).
  destruct (header_check h' length data_ptr) as [r|] eqn:Ec.
  { apply comp_ret_eq in E. injection E as <- _ _. exfalso. revert Ec. unfold header_check.
    repeat case_match; congruence. }
  destruct (avb_get_algorithm_data (algorithm_type h')) as [alg|] eqn:Ea; [|discriminate E].
  destruct (algorithm_hash (algorithm_type h')) as [p|] eqn:Ep; [|discriminate E].
  destruct (Z.eqb_spec (hash_size h') (alg_hash_len alg)) as [Es|]; [|discriminate E].
  pose proof (header_words_ok _ _ Eh) as Hw.
  assert (is_u32 (algorithm_type h')) as Wt by apply Hw.
  destruct (algorithm_cases _ _ _ Wt Ea Ep) as (_ & padding & E1 & E2 & E3 & E4).
  by exists h', alg, p, padding.
Qed.

Lemma verify_magic data :
  4 ≤ zlen data → ∃ r, avb_safe_memcmp data AVB_MAGIC AVB_MAGIC_LEN = Ret r.
Proof.
  intros Hd. rewrite safe_memcmp_spec; [by eexists|done|unfold AVB_MAGIC_LEN; lia|done].
Qed.

Lemma header_parses data :
  AVB_VBMETA_IMAGE_HEADER_SIZE ≤ zlen data →
  ∃ h, avb_vbmeta_image_header_to_host_byte_order data = Ret h ∧
       public_key_size h = be64_at data 72.
Proof.
  intros Hd. unfold avb_vbmeta_image_header_to_host_byte_order.
  unfold AVB_VBMETA_IMAGE_HEADER_SIZE in *. rewrite rd_ok by lia.
  eexists. split; [reflexivity|]. cbn. unfold be64_at. by rewrite slice_slice.
Qed.

Lemma verify_returns data_ptr data length (w : W) :
  4 ≤ zlen data → 0 ≤ length ≤ zlen data → length < 0x80000000 →
  8 ≤ be64_at data 72 ∨ length + 8 ≤ zlen data →
  ∃ r w', avb_vbmeta_image_verify data_ptr data length w = Ret (r, w').
Proof.
  intros H4 Hl H31 H8. destruct (verify_magic data H4) as (r & Em).
  destruct (Z.ltb_spec length AVB_VBMETA_IMAGE_HEADER_SIZE) as [Hlt|Hge].
  { unfold avb_vbmeta_image_verify. erewrite comp_bind_run by (apply lift_run; exact Em).
    case_match; [by eexists _, _|]. rewrite (proj2 (Z.ltb_lt _ _)) by done. by eexists _, _. }
  destruct (header_parses data) as (h & Eh & Ek); [lia|].
  destruct (decide (r = 0)) as [->|Hr].
  2: { unfold avb_vbmeta_image_verify. erewrite comp_bind_run by (apply lift_run; exact Em).
       rewrite (proj2 (Z.eqb_neq _ _)) by done. by eexists _, _. }
  destruct (header_check h length data_ptr) as [r|] eqn:Ec;
  [|destruct (avb_get_algorithm_data (algorithm_type h)) as [alg|] eqn:Ea;
  [destruct (algorithm_hash (algorithm_type h)) as [p|] eqn:Ep;
  [destruct (decide (hash_size h = alg_hash_len alg)) as [Es|Es]|]|]].
  2: { pose proof (header_words_ok _ _ Eh) as Hw. assert (is_u32 (algorithm_type h)) as Wt by apply Hw.
    destruct (algorithm_cases _ _ _ Wt Ea Ep) as (Hp & padding & E1 & E2 & E3 & _).
    destruct (verify_signed_path h alg p padding data data_ptr length w)
      as (digest & _ & _ & ->); [done..|].
    case_bool_decide; [|by eexists _, _].
    destruct (header_check_layout h length data_ptr Hw (or_introl Ec)) as [_ Ht Hh Hs Hk _].
    destruct Hw as (Wa & Wx & Wo & Wh & Wso & Wss & Wko & Wks & _). unfold is_u64 in *.
    unfold AVB_VBMETA_IMAGE_HEADER_SIZE in *.
    match goal with |- context [avb_rsa_verify ?a ?b ?c ?d ?e ?f ?g ?i] =>
      assert (∃ b0 w1, avb_rsa_verify a b c d e f g i w = Ret (b0, w1)) as (b0 & w1 & Ev) end.
    { apply rsa_verify_returns; rewrite ?zlen_drop by lia; rewrite ?E2;
        pose proof (zlen_nonneg padding); try lia. }
    erewrite comp_bind_run by exact Ev. by destruct b0; eexists _, _. }
  all: unfold avb_vbmeta_image_verify; erewrite comp_bind_run by (apply lift_run; exact Em);
    cbn [negb Z.eqb]; rewrite (proj2 (Z.ltb_ge _ _)) by done;
    erewrite comp_bind_run by (apply lift_run; exact Eh); rewrite Ec, ?Ea, ?Ep;
    rewrite ?(proj2 (Z.eqb_neq _ _)) by done; by eexists _, _.
Qed.

End VerifySpec.

(** Every image with a consistent header, whose stored hash is
    the digest of header and auxiliary block and whose signature opens to the
    algorithm's padding and that digest under the embedded key, is reported as
    OK together with the position of the key. *)
Lemma verify_accepts {W} `{Heap W} data_ptr data length h alg p padding bits (w : W) :
  (∀ size (w : W), (heap_alloc size w).1 = true) →
  bytes_ok data → AVB_VBMETA_IMAGE_HEADER_SIZE ≤ length ≤ zlen data → length < 0x20000000 →
  slice data 0 4 = AVB_MAGIC →
  avb_vbmeta_image_header_to_host_byte_order data = Ret h →
  header_check h length data_ptr = None →
  avb_get_algorithm_data (algorithm_type h) = Some alg →
  algorithm_hash (algorithm_type h) = Some p → alg_padding alg = Some padding →
  let auth := AVB_VBMETA_IMAGE_HEADER_SIZE in
  let aux := auth + authentication_data_block_size h in
  let digest := sha2_digest p (slice data 0 auth ++
                               slice data aux (auxiliary_data_block_size h)) in
  let key := drop (Z.to_nat (aux + public_key_offset h)) data in
  hash_size h = alg_hash_len alg → signature_size h = bits / 8 →
  public_key_size h = 8 + bits / 4 → zlen padding + hash_size h = bits / 8 →
  slice data (auth + hash_offset h) (hash_size h) = digest → key_format key bits →
  be_encode (Z.to_nat (bits / 8))
    (be_decode (slice data (auth + signature_offset h) (bits / 8)) ^ exponent
       mod be_decode (slice key 8 (bits / 8))) = padding ++ digest →
  ∃ w', avb_vbmeta_image_verify data_ptr data length w =
    Ret ((AVB_VBMETA_VERIFY_RESULT_OK, Some (aux + public_key_offset h, public_key_size h)), w').
Proof.
  intros roomy Hd Hl Hlt Em Eh Ec Ea Ep Epd auth aux digest key Hhs Hss Hks Hsum Hh Hf Hsig.
  destruct (verify_signed_path h alg p padding data data_ptr length w)
    as (digest' & Ld & Sd & Ev);
    [rewrite safe_memcmp_spec by (unfold AVB_MAGIC_LEN, AVB_VBMETA_IMAGE_HEADER_SIZE in *; lia || done);
     change (slice data 0 AVB_MAGIC_LEN) with (slice data 0 4); 
     rewrite Em; by rewrite bool_decide_true|
     (done || unfold AVB_VBMETA_IMAGE_HEADER_SIZE in *; lia)..|].
  rewrite Ev. clear Ev. rewrite Sd by done. rewrite bool_decide_true by exact Hh.
  pose proof (header_words_ok _ _ Eh) as Hw.
  pose proof (header_check_layout h length data_ptr Hw (or_introl Ec)) as HL.
  destruct HL as [_ Ht Hho Hs Hk _].
  destruct Hw as (Wa & Wx & Wo & Wh & Wso & Wss & Wko & Wks & Wt).
  assert (alg_padding_len alg = zlen padding) as Epl.
  { assert (is_u32 (algorithm_type h)) as Wty by apply Wt.
    destruct (algorithm_cases _ _ _ Wty Ea Ep) as (_ & pd & E1 & E2 & _). congruence. }
  unfold is_u64, AVB_VBMETA_IMAGE_HEADER_SIZE in *. pose proof (zlen_nonneg padding).
  destruct (rsa_verify_run roomy key bits (drop (Z.to_nat (256 + signature_offset h)) data)
    (drop (Z.to_nat (256 + hash_offset h)) data) (hash_size h) padding (zlen padding) w)
    as (w2 & Er); [by apply Forall_drop|by apply Forall_drop|done|rewrite ?zlen_drop; lia..|done|].
  rewrite !slice_drop, slice_all, !Z.add_0_r in Er by lia.
  fold auth in Er. rewrite Hh, Hsig, bool_decide_true in Er by done.
  exists w2. rewrite Hks, Hss, Epl.
  erewrite comp_bind_run by exact Er. cbn [negb].
  destruct (kf_bits _ _ Hf) as [-> | [-> | ->]]; done.
Qed.

(** C29: verifying an image of less than 2 GiB never reads outside the buffer it is
    in, whatever the image and the heap, provided the embedded key is at least
    as long as its header or the buffer has eight spare bytes. *)
Theorem avb_vbmeta_image_verify_in_bounds {W} `{Heap W} data_ptr data length (w : W) :
  4 ≤ zlen data → 0 ≤ length ≤ zlen data → length < 0x80000000 →
  8 ≤ be64_at data 72 ∨ length + 8 ≤ zlen data →
  ∃ r w', avb_vbmeta_image_verify data_ptr data length w = Ret (r, w').
Proof. apply verify_returns. Qed.

Lemma avb_vbmeta_image_verify_in_bounds_witness :
  ∃ r w', avb_vbmeta_image_verify (H := roomy_heap) 0x1000 (AVB_MAGIC ++ replicate 300 0) 256 tt
          = Ret (r, w').
Proof.
  apply (avb_vbmeta_image_verify_in_bounds (H := roomy_heap)); [done|done|done|by right].
Defined.

(** What an accepted image is: consistent with its length, hashed and signed. *)
Definition authentic (data : bytes) (length : Z) (pk : option (Z * Z)) : Prop :=
  ∃ h p alg padding,
    avb_vbmeta_image_header_to_host_byte_order data = Ret h ∧ header_layout h length ∧
    algorithm_hash (algorithm_type h) = Some p ∧
    avb_get_algorithm_data (algorithm_type h) = Some alg ∧ alg_padding alg = Some padding ∧
    let auth := AVB_VBMETA_IMAGE_HEADER_SIZE in
    let aux := auth + authentication_data_block_size h in
    let digest := sha2_digest p (slice data 0 auth ++
                                 slice data aux (auxiliary_data_block_size h)) in
    let key := drop (Z.to_nat (aux + public_key_offset h)) data in
    slice data (auth + hash_offset h) (hash_size h) = digest ∧
    pk = Some (aux + public_key_offset h, public_key_size h) ∧
    ∀ bits, key_format key bits →
      public_key_size h = 8 + bits / 4 ∧
      be_encode (Z.to_nat (bits / 8))
        (be_decode (slice data (auth + signature_offset h) (bits / 8)) ^ exponent
           mod be_decode (slice key 8 (bits / 8))) = padding ++ digest.

Lemma verify_authentic {W} `{Heap W} data_ptr data length pk (w w' : W) :
  (∀ size (w : W), (heap_alloc size w).1 = true) →
  bytes_ok data → 0 ≤ length ≤ zlen data → length < 0x20000000 →
  avb_vbmeta_image_verify data_ptr data length w = Ret ((AVB_VBMETA_VERIFY_RESULT_OK, pk), w') →
  authentic data length pk.
Proof.
  intros roomy Hd Hl Hlt E.
  destruct (verify_ok_path _ _ _ _ _ _ E)
    as (Em & Hge & h & alg & p & padding & Eh & Ec & Ea & Ep & Es & E1 & E2 & E3 & E4).
  destruct (verify_signed_path h alg p padding data data_ptr length w)
    as (digest & Ld & Sd & Ev); [done..|lia|].
  pose proof (header_words_ok _ _ Eh) as Hw.
  pose proof (header_check_layout h length data_ptr Hw (or_introl Ec)) as HL.
  rewrite Ev in E. clear Ev. case_bool_decide as Hh; [|discriminate E].
  apply comp_bind_Ret in E as (b & w1 & Er & E). destruct b; [|discriminate E].
  apply comp_ret_eq in E. injection E as -> ->. rewrite Sd in Hh by done.
  exists h, p, alg, padding. do 5 (split; [done|]). cbv zeta. split; [exact Hh|].
  destruct HL as [_ Ht Hho Hs Hk _].
  destruct Hw as (Wa & Wx & Wo & Wh & Wso & Wss & Wko & Wks & _).
  unfold is_u64, AVB_VBMETA_IMAGE_HEADER_SIZE in *.
  set (key := drop _ data) in *.
  assert (bytes_ok key) as Hkb by by apply Forall_drop.
  destruct (rsa_verify_true_sizes _ _ _ _ _ _ _ _ _ _ Hkb Er) as (Hb & Ekn & Esn & Epn).
  assert (0 ≤ be_decode (slice key 0 4) / 8 ∧ 8 ≤ 8 + be_decode (slice key 0 4) / 4) as [Hb8 Hk8]
    by (clear -Hb; destruct Hb as [-> | [-> | ->]]; done).
  split. { rewrite (proj2 (Z.ltb_lt _ _)) by lia. done. }
  intros bits Hf. rewrite (kf_header _ _ Hf) in *. split; [done|].
  rewrite E2, Ekn, Esn in Er. rewrite Esn, E2 in Epn.
  pose proof (zlen_nonneg padding) as Hpn.
  assert (zlen padding + hash_size h = bits / 8) as Hsum.
  { unfold u64 in Epn. destruct (Z_le_gt_dec (hash_size h) (bits / 8)).
    - rewrite Z.mod_small in Epn by lia. lia.
    - replace ((bits / 8 - hash_size h) mod _) with (bits / 8 - hash_size h + 0x10000000000000000)
        in Epn by (apply Z.mod_unique_pos with (-1); lia). lia. }
  destruct (rsa_verify_run roomy key bits (drop (Z.to_nat (256 + signature_offset h)) data)
    (drop (Z.to_nat (256 + hash_offset h)) data) (hash_size h) padding (zlen padding) w)
    as (w2 & Er2); [done|by apply Forall_drop|done|rewrite ?zlen_drop; lia..|done|].
  rewrite Er2 in Er. injection Er as Er _. apply bool_decide_eq_true_1 in Er.
  rewrite !slice_drop, slice_all, !Z.add_0_r, Hh in Er by lia. exact Er.
Qed.

(** C3: with memory that does not run out, an image of less than 512 MiB
    reported as OK is authentic: its header is consistent with its length, the
    stored hash is the FIPS 180-4 digest of the header followed by the
    auxiliary block, and, when the embedded key is in the documented format,
    the signature raised to 65537 modulo the key is the algorithm's padding
    followed by that digest. *)
Theorem avb_vbmeta_image_verify_sound {W} `{Heap W} data_ptr data length pk (w w' : W) :
  (∀ size (w : W), (heap_alloc size w).1 = true) →
  bytes_ok data → 0 ≤ length ≤ zlen data → length < 0x20000000 →
  avb_vbmeta_image_verify data_ptr data length w = Ret ((AVB_VBMETA_VERIFY_RESULT_OK, pk), w') →
  ∃ h p alg padding,
    avb_vbmeta_image_header_to_host_byte_order data = Ret h ∧ header_layout h length ∧
    algorithm_hash (algorithm_type h) = Some p ∧
    avb_get_algorithm_data (algorithm_type h) = Some alg ∧ alg_padding alg = Some padding ∧
    let auth := AVB_VBMETA_IMAGE_HEADER_SIZE in
    let aux := auth + authentication_data_block_size h in
    let digest := sha2_digest p (slice data 0 auth ++
                                 slice data aux (auxiliary_data_block_size h)) in
    let key := drop (Z.to_nat (aux + public_key_offset h)) data in
    slice data (auth + hash_offset h) (hash_size h) = digest ∧
    pk = Some (aux + public_key_offset h, public_key_size h) ∧
    ∀ bits, key_format key bits →
      public_key_size h = 8 + bits / 4 ∧
      be_encode (Z.to_nat (bits / 8))
        (be_decode (slice data (auth + signature_offset h) (bits / 8)) ^ exponent
           mod be_decode (slice key 8 (bits / 8))) = padding ++ digest.
Proof. apply verify_authentic. Qed.

(** C30: conversely every image with a consistent header, whose stored hash is
    the digest of header and auxiliary block and whose signature opens to the
    algorithm's padding and that digest under the embedded key, is reported as
    OK together with the position of the key. *)
Theorem avb_vbmeta_image_verify_complete {W} `{Heap W} data_ptr data length h alg p padding bits
    (w : W) :
  (∀ size (w : W), (heap_alloc size w).1 = true) →
  bytes_ok data → AVB_VBMETA_IMAGE_HEADER_SIZE ≤ length ≤ zlen data → length < 0x20000000 →
  slice data 0 4 = AVB_MAGIC →
  avb_vbmeta_image_header_to_host_byte_order data = Ret h →
  header_check h length data_ptr = None →
  avb_get_algorithm_data (algorithm_type h) = Some alg →
  algorithm_hash (algorithm_type h) = Some p → alg_padding alg = Some padding →
  let auth := AVB_VBMETA_IMAGE_HEADER_SIZE in
  let aux := auth + authentication_data_block_size h in
  let digest := sha2_digest p (slice data 0 auth ++
                               slice data aux (auxiliary_data_block_size h)) in
  let key := drop (Z.to_nat (aux + public_key_offset h)) data in
  hash_size h = alg_hash_len alg → signature_size h = bits / 8 →
  public_key_size h = 8 + bits / 4 → zlen padding + hash_size h = bits / 8 →
  slice data (auth + hash_offset h) (hash_size h) = digest → key_format key bits →
  be_encode (Z.to_nat (bits / 8))
    (be_decode (slice data (auth + signature_offset h) (bits / 8)) ^ exponent
       mod be_decode (slice key 8 (bits / 8))) = padding ++ digest →
  ∃ w', avb_vbmeta_image_verify data_ptr data length w =
    Ret ((AVB_VBMETA_VERIFY_RESULT_OK, Some (aux + public_key_offset h, public_key_size h)), w').
Proof. apply verify_accepts. Qed.

(** ** A signed image

    A vbmeta image signed with [demo_key], whose only descriptor is the hash of a
    partition "boot" that holds the six bytes "kernel". *)

Definition demo_image_digest : Z :=
  0x6923dd1bc0460082c5d55a831908c24a282860b7f1cd6c2b79cf1bc8857c639c.
Definition demo_hash : Z :=
  0x825adc7161547b4207709c1f37082163a6cd9e5b64fc669214ff06d42c835c1d.
Definition demo_signature : bytes := concat (be_encode 32 <$>
  [0x7f58b9aca240bc2a78a4d253497115a6f6eec08c8cbdf3082cfa4fcf2d868f8f;
   0xe364bad735e521e66f193497b70b52ba6a8f79ef4a034b8bef01c88cad128020;
   0x54dbf56db9247b1f353becba5c6745eb9da2112ad58e09e5773f28828644d310;
   0x0a9c87a8937a9f010362428d28d452cd23975a021ec201957c09ea4cf04c072a;
   0x6d7da266a78b7a036bf49f246f9a1f14b915c88dd3e5c3a8675ad80609e3b944;
   0x406556e37b048c3f2f754c6176016b60bb511ea61b7f4181581a48c54e395b86;
   0xccfb98e4ceed75305863bdfaf8a29668116752220ef448b86baa53d425125a72;
   0x422d83684efc47bfdfff72b3e495aefdf793ba67a086afa37c167ee45ae38066]).

Definition demo_descriptor : bytes :=
  be_encode 8 2 ++ be_encode 8 152 ++ be_encode 8 6 ++ str "sha256" ++ replicate 26 0 ++
  be_encode 4 4 ++ be_encode 4 0 ++ be_encode 4 32 ++ replicate 64 0 ++ str "boot" ++
  be_encode 32 demo_image_digest.

Definition demo_header : bytes :=
  AVB_MAGIC ++ be_encode 4 1 ++ be_encode 4 0 ++ be_encode 8 320 ++ be_encode 8 704 ++
  be_encode 4 AVB_ALGORITHM_TYPE_SHA256_RSA2048 ++
  concat (be_encode 8 <$> [0; 32; 32; 256; 168; 520; 0; 0; 0; 168; 0]) ++ replicate 136 0.

Definition demo_vbmeta : bytes :=
  demo_header ++ be_encode 32 demo_hash ++ demo_signature ++ replicate 32 0 ++
  demo_descriptor ++ demo_key ++ replicate 16 0.

(** Powers modulo [2^k - 1] by squaring and folding the upper half. *)
Definition fold_mersenne (k x : Z) : Z := Z.shiftr x k + Z.land x (Z.ones k).

Definition reduce_mersenne (k x : Z) : Z := fold_mersenne k (fold_mersenne k x).

Definition pow_mersenne (k x : Z) : Z :=
  reduce_mersenne k (Nat.iter 16 (λ y, reduce_mersenne k (y * y)) x * x).

Lemma reduce_mersenne_mod k x :
  0 ≤ k → reduce_mersenne k x mod Z.ones k = x mod Z.ones k.
Proof.
  intros Hk. assert (∀ x, fold_mersenne k x mod Z.ones k = x mod Z.ones k) as Hf.
  { intros y. unfold fold_mersenne. rewrite Z.shiftr_div_pow2, Z.land_ones, Z.ones_equiv by done.
    pose proof (Z.div_mod y (2 ^ k)). assert (2 ^ k ≠ 0) by (apply Z.pow_nonzero; lia).
    replace (y `div` 2 ^ k + y `mod` 2 ^ k) with (y + (- (y `div` 2 ^ k)) * Z.pred (2 ^ k)) by nia.
    apply Z_mod_plus_full. }
  unfold reduce_mersenne. by rewrite !Hf.
Qed.

Lemma iter_square_mod n k x m :
  0 ≤ k → m = Z.ones k → m ≠ 0 →
  Nat.iter n (λ y, reduce_mersenne k (y * y)) x mod m = x ^ (2 ^ Z.of_nat n) mod m.
Proof.
  intros Hk -> Hm. induction n as [|n IH]; [by rewrite Z.pow_1_r|].
  rewrite Nat.iter_succ. rewrite reduce_mersenne_mod, Z.mul_mod, IH, <-Z.mul_mod by done.
  rewrite <-Z.pow_2_r, <-Z.pow_mul_r by lia.
  by rewrite Nat2Z.inj_succ, Z.pow_succ_r, (Z.mul_comm 2) by lia.
Qed.

Lemma pow_mersenne_mod k x :
  0 ≤ k → Z.ones k ≠ 0 → 0 ≤ pow_mersenne k x < Z.ones k →
  x ^ exponent mod Z.ones k = pow_mersenne k x.
Proof.
  intros Hk Hm Hb. rewrite <-(Z.mod_small _ _ Hb). unfold pow_mersenne.
  rewrite reduce_mersenne_mod, Z.mul_mod, (iter_square_mod 16) by done.
  rewrite <-Z.mul_mod by done. f_equal.
  change exponent with (2 ^ Z.of_nat 16 + 1). by rewrite Z.pow_add_r, Z.pow_1_r.
Qed.

Lemma demo_signature_power :
  be_encode 256 (be_decode demo_signature ^ exponent mod be_decode (replicate 256 255)) =
  padding_RSA2048_SHA256 ++ be_encode 32 demo_hash.
Proof.
  assert (pow_mersenne 2048 (be_decode demo_signature) =
          be_decode (padding_RSA2048_SHA256 ++ be_encode 32 demo_hash)) as E by by vm_compute.
  replace (be_decode (replicate 256 255)) with (Z.ones 2048) by by vm_compute.
  rewrite pow_mersenne_mod; rewrite ?E; [by vm_compute|done|by vm_compute|].
  apply (bool_decide_unpack _). by vm_compute.
Qed.

Lemma demo_digest :
  slice demo_vbmeta (256 + 0) 32 =
  sha2_digest SHA256 (slice demo_vbmeta 0 256 ++ slice demo_vbmeta (256 + 320) 704).
Proof.
  rewrite <-padded_digest_fips; [by vm_compute|by left|]. apply (bool_decide_unpack _). by vm_compute.
Qed.

(** The header of the demonstration image, as read by the code. *)
Definition demo_header_host : AvbVBMetaImageHeader :=
  mkHeader 1 0 320 704 AVB_ALGORITHM_TYPE_SHA256_RSA2048 0 32 32 256 168 520 0 0 0 168 0 0
    (replicate 48 0).

Lemma demo_bytes_ok : bytes_ok demo_vbmeta.
Proof. apply (bool_decide_unpack _). by vm_compute. Qed.

Lemma demo_slice rest off n :
  0 ≤ off → 0 ≤ n → off + n ≤ 1280 → slice (demo_vbmeta ++ rest) off n = slice demo_vbmeta off n.
Proof. intros. apply slice_app_l; [done..|]. change (zlen demo_vbmeta) with 1280. lia. Qed.

Lemma demo_header_parses rest :
  avb_vbmeta_image_header_to_host_byte_order (demo_vbmeta ++ rest) = Ret demo_header_host.
Proof.
  unfold avb_vbmeta_image_header_to_host_byte_order, AVB_VBMETA_IMAGE_HEADER_SIZE.
  pose proof (zlen_nonneg rest). rewrite rd_ok.
  - rewrite demo_slice by done. by vm_compute.
  - done.
  - done.
  - rewrite zlen_app. change (zlen demo_vbmeta) with 1280. lia.
Qed.

Lemma demo_key_in_place rest : key_format (drop (Z.to_nat 744) (demo_vbmeta ++ rest)) 2048.
Proof.
  apply key_format_slice with demo_key; [exact demo_key_format|].
  rewrite slice_drop, demo_slice by done. by vm_compute.
Qed.

Lemma demo_header_check data_ptr n :
  is_u64 data_ptr → data_ptr < 0x100000000 → 1280 ≤ n < 0x20000000 →
  header_check demo_header_host n data_ptr = None.
Proof.
  intros [Hp _] Hp' Hn. assert ((avb_safe_add data_ptr n).1 = true) as E.
  { unfold avb_safe_add. rewrite safe_add_to_spec by (unfold is_u64; lia).
    by rewrite bool_decide_true by lia. }
  assert ((n <? 1280) = false) as E' by lia.
  unfold header_check. cbn -[avb_safe_add Z.ltb]. rewrite E.
  match goal with |- context [n <? ?t] => change t with 1280 end. rewrite E'. by vm_compute.
Qed.

Lemma demo_signature_in_place rest :
  let h := demo_header_host in
  let auth := AVB_VBMETA_IMAGE_HEADER_SIZE in
  let aux := auth + authentication_data_block_size h in
  let data := demo_vbmeta ++ rest in
  be_encode (Z.to_nat (2048 / 8))
    (be_decode (slice data (auth + signature_offset h) (2048 / 8)) ^ exponent
       mod be_decode (slice (drop (Z.to_nat (aux + public_key_offset h)) data) 8 (2048 / 8))) =
  padding_RSA2048_SHA256 ++
  sha2_digest SHA256 (slice data 0 auth ++ slice data aux (auxiliary_data_block_size h)).
Proof.
  intros h auth aux data. unfold data.
  assert (sha2_digest SHA256 (slice demo_vbmeta 0 auth ++
    slice demo_vbmeta aux (auxiliary_data_block_size h)) = be_encode 32 demo_hash) as E1
    by (symmetry; etransitivity; [|exact demo_digest]; by vm_compute).
  assert (slice demo_vbmeta (auth + signature_offset h) (2048 / 8) = demo_signature) as E2
    by by vm_compute.
  assert (slice demo_vbmeta (aux + public_key_offset h + 8) (2048 / 8) = replicate 256 255) as E3
    by by vm_compute.
  rewrite slice_drop, !demo_slice by done. rewrite E1, E2, E3.
  change (Z.to_nat (2048 / 8)) with 256%nat. exact demo_signature_power.
Qed.

(** The demonstration image is accepted wherever it is in a larger buffer. *)
Lemma demo_vbmeta_verifies {W} `{Heap W} data_ptr rest n (w : W) :
  (∀ size (w : W), (heap_alloc size w).1 = true) → bytes_ok rest →
  is_u64 data_ptr → data_ptr < 0x100000000 →
  1280 ≤ n ≤ 1280 + zlen rest → n < 0x20000000 →
  ∃ w', avb_vbmeta_image_verify data_ptr (demo_vbmeta ++ rest) n w =
    Ret ((AVB_VBMETA_VERIFY_RESULT_OK, Some (744, 520)), w').
Proof.
  intros roomy Hr Hp Hp' Hn Hn'.
  destruct (verify_accepts data_ptr (demo_vbmeta ++ rest) n demo_header_host
    (mkAlg (Some padding_RSA2048_SHA256) (zlen padding_RSA2048_SHA256) AVB_SHA256_DIGEST_SIZE)
    SHA256 padding_RSA2048_SHA256 2048 w roomy) as (w' & E);
    [apply Forall_app; split; [exact demo_bytes_ok|exact Hr]| |done| |apply demo_header_parses|
     apply demo_header_check; [done|done|lia]|reflexivity|reflexivity|reflexivity|done|done|done|
     by vm_compute| |apply demo_key_in_place| |].
  - rewrite zlen_app. change (zlen demo_vbmeta) with 1280.
    unfold AVB_VBMETA_IMAGE_HEADER_SIZE. lia.
  - rewrite demo_slice by done. by vm_compute.
  - rewrite !demo_slice by done. exact demo_digest.
  - exact (demo_signature_in_place rest).
  - by exists w'.
Qed.

Lemma avb_vbmeta_image_verify_sound_witness :
  ∃ h p alg padding,
    avb_vbmeta_image_header_to_host_byte_order (demo_vbmeta ++ []) = Ret h ∧
    header_layout h 1280 ∧ algorithm_hash (algorithm_type h) = Some p ∧
    avb_get_algorithm_data (algorithm_type h) = Some alg ∧ alg_padding alg = Some padding.
Proof.
  destruct (demo_vbmeta_verifies (H := roomy_heap) 0x1000 [] 1280 tt) as (w' & E);
    [done|by constructor|done..|].
  destruct (avb_vbmeta_image_verify_sound (H := roomy_heap) 0x1000 (demo_vbmeta ++ []) 1280
    (Some (744, 520)) tt w' (λ _ _, eq_refl)) as (h & p & alg & padding & A & B & C & D & F & _);
    [rewrite app_nil_r; exact demo_bytes_ok|clear E; done|clear E; done|exact E|].
  clear E. exists h, p, alg, padding. tauto.
Defined.

Lemma avb_vbmeta_image_verify_complete_witness :
  ∃ w', avb_vbmeta_image_verify (H := roomy_heap) 0x1000 demo_vbmeta 1280 tt =
    Ret ((AVB_VBMETA_VERIFY_RESULT_OK, Some (744, 520)), w').
Proof.
  rewrite <-(app_nil_r demo_vbmeta).
  apply (avb_vbmeta_image_verify_complete (H := roomy_heap) 0x1000 (demo_vbmeta ++ []) 1280
    demo_header_host
    (mkAlg (Some padding_RSA2048_SHA256) (zlen padding_RSA2048_SHA256) AVB_SHA256_DIGEST_SIZE)
    SHA256 padding_RSA2048_SHA256 2048 tt (λ _ _, eq_refl));
    [rewrite app_nil_r; exact demo_bytes_ok|done|done|done|apply demo_header_parses|
     by apply demo_header_check|reflexivity|reflexivity|reflexivity|done|done|done|
     by vm_compute|rewrite app_nil_r; exact demo_digest|apply demo_key_in_place|].
  exact (demo_signature_in_place []).
Defined.

(** An image of 320 bytes with a correct hash and an empty public key at its end. *)
Definition keyless_header : bytes :=
  AVB_MAGIC ++ be_encode 4 1 ++ be_encode 4 0 ++ be_encode 8 64 ++ be_encode 8 0 ++
  be_encode 4 AVB_ALGORITHM_TYPE_SHA256_RSA2048 ++
  concat (be_encode 8 <$> [0; 32; 0; 0; 0; 0; 0; 0; 0; 0; 0]) ++ replicate 136 0.

Definition keyless_vbmeta : bytes :=
  keyless_header ++ padded_digest SHA256 keyless_header ++ replicate 32 0.

(** The embedded key is parsed before its size is looked at: an
    attacker-made image of 320 bytes that announces an empty public key makes
    the verification read the eight bytes behind the image. *)
Example vbmeta_short_key_overreads :
  zlen keyless_vbmeta = 320 ∧
  avb_vbmeta_image_verify (H := roomy_heap) 0x1000 keyless_vbmeta 320 tt = Crash OutOfBounds.
Proof. by vm_compute. Qed.
