(* ===== verification/Descriptors.v ===== *)
(** * Descriptors and the footer (lib/libavb/avb_descriptor.c,
    avb_*_descriptor.c, avb_footer.c, avb_version.c)

    The binary formats inside a vbmeta image, the walk over its descriptors
    and the property lookup.  A pointer into an image is its offset. *)

From S2P Require Import Prelude AvbUtil Vbmeta.

(** ** Data *)

Definition AVB_DESCRIPTOR_TAG_PROPERTY : Z := 0.
Definition AVB_DESCRIPTOR_TAG_HASHTREE : Z := 1.
Definition AVB_DESCRIPTOR_TAG_HASH : Z := 2.
Definition AVB_DESCRIPTOR_TAG_KERNEL_CMDLINE : Z := 3.
Definition AVB_DESCRIPTOR_TAG_CHAIN_PARTITION : Z := 4.

Definition AVB_ALIGNMENT_SIZE : Z := 8.

Record AvbDescriptor := mkDescriptor {
  tag : Z;
  num_bytes_following : Z;
}.

Record AvbHashDescriptor := mkHash {
  hash_parent : AvbDescriptor;
  hash_image_size : Z;
  hash_algorithm_name : bytes;
  hash_partition_name_len : Z;
  hash_salt_len : Z;
  hash_digest_len : Z;
  hash_flags : Z;
}.

Record AvbHashtreeDescriptor := mkHashtree {
  tree_parent : AvbDescriptor;
  dm_verity_version : Z;
  tree_image_size : Z;
  tree_offset : Z;
  tree_size : Z;
  data_block_size : Z;
  hash_block_size : Z;
  fec_num_roots : Z;
  fec_offset : Z;
  fec_size : Z;
  tree_hash_algorithm : bytes;
  tree_partition_name_len : Z;
  tree_salt_len : Z;
  root_digest_len : Z;
  tree_flags : Z;
}.

Record AvbKernelCmdlineDescriptor := mkCmdline {
  cmdline_parent : AvbDescriptor;
  cmdline_flags : Z;
  kernel_cmdline_length : Z;
}.

Record AvbChainPartitionDescriptor := mkChain {
  chain_parent : AvbDescriptor;
  rollback_index_location : Z;
  chain_partition_name_len : Z;
  chain_public_key_len : Z;
}.

Record AvbPropertyDescriptor := mkProperty {
  prop_parent : AvbDescriptor;
  key_num_bytes : Z;
  value_num_bytes : Z;
}.

Definition sizeof_AvbDescriptor : Z := 16.
Definition sizeof_AvbHashDescriptor : Z := 132.
Definition sizeof_AvbHashtreeDescriptor : Z := 180.
Definition sizeof_AvbKernelCmdlineDescriptor : Z := 24.
Definition sizeof_AvbChainPartitionDescriptor : Z := 92.
Definition sizeof_AvbPropertyDescriptor : Z := 32.

(** ** Validation *)

Definition avb_descriptor_validate_and_byteswap (src : bytes) : run (bool * AvbDescriptor) :=
  l ← rd src 0 sizeof_AvbDescriptor;
  let dest := mkDescriptor (be64_at l 0) (be64_at l 8) in
  mret (Z.land (num_bytes_following dest) 0x07 =? 0, dest).

(** The sum of the lengths, added to [expected_size] one after the other, is
    free of overflow and at most [limit]. *)
Fixpoint sizes_fit (expected_size : Z) (lens : list Z) (limit : Z) : bool :=
  match lens with
  | [] => negb (limit <? expected_size)
  | n :: lens =>
      let '(ok, expected_size) := avb_safe_add_to expected_size n in
      if ok then sizes_fit expected_size lens limit else false
  end.

(** The common shape of the five functions: copy the struct, check the parent
    descriptor and its tag, swap the fields, check the lengths. *)
Definition validate_descriptor {D} (size t : Z) (swap : bytes → AvbDescriptor → D)
    (extra : D → bool) (base : Z) (lens : D → list Z) (src : bytes) : run (option D) :=
  l ← rd src 0 size;
  r ← avb_descriptor_validate_and_byteswap src;
  let '(ok, parent) := r in
  if negb ok then mret None
  else if negb (tag parent =? t) then mret None
  else
    let dest := swap l parent in
    if negb (extra dest) then mret None
    else if negb (sizes_fit base (lens dest) (num_bytes_following parent)) then mret None
    else mret (Some dest).

Definition avb_hash_descriptor_validate_and_byteswap : bytes → run (option AvbHashDescriptor) :=
  validate_descriptor sizeof_AvbHashDescriptor AVB_DESCRIPTOR_TAG_HASH
    (fun l parent => mkHash parent (be64_at l 16) (slice l 24 32) (be32_at l 56) (be32_at l 60)
                       (be32_at l 64) (be32_at l 68))
    (fun _ => true)
    (sizeof_AvbHashDescriptor - sizeof_AvbDescriptor)
    (fun d => [hash_partition_name_len d; hash_salt_len d; hash_digest_len d]).

Definition avb_hashtree_descriptor_validate_and_byteswap
    : bytes → run (option AvbHashtreeDescriptor) :=
  validate_descriptor sizeof_AvbHashtreeDescriptor AVB_DESCRIPTOR_TAG_HASHTREE
    (fun l parent =>
       mkHashtree parent (be32_at l 16) (be64_at l 20) (be64_at l 28) (be64_at l 36)
         (be32_at l 44) (be32_at l 48) (be32_at l 52) (be64_at l 56) (be64_at l 64)
         (slice l 72 32) (be32_at l 104) (be32_at l 108) (be32_at l 112) (be32_at l 116))
    (fun _ => true)
    (sizeof_AvbHashtreeDescriptor - sizeof_AvbDescriptor)
    (fun d => [tree_partition_name_len d; tree_salt_len d; root_digest_len d]).

Definition avb_kernel_cmdline_descriptor_validate_and_byteswap
    : bytes → run (option AvbKernelCmdlineDescriptor) :=
  validate_descriptor sizeof_AvbKernelCmdlineDescriptor AVB_DESCRIPTOR_TAG_KERNEL_CMDLINE
    (fun l parent => mkCmdline parent (be32_at l 16) (be32_at l 20))
    (fun _ => true)
    (sizeof_AvbKernelCmdlineDescriptor - sizeof_AvbDescriptor)
    (fun d => [kernel_cmdline_length d]).

Definition avb_chain_partition_descriptor_validate_and_byteswap
    : bytes → run (option AvbChainPartitionDescriptor) :=
  validate_descriptor sizeof_AvbChainPartitionDescriptor AVB_DESCRIPTOR_TAG_CHAIN_PARTITION
    (fun l parent => mkChain parent (be32_at l 16) (be32_at l 20) (be32_at l 24))
    (fun d => negb (rollback_index_location d <? 1))
    (sizeof_AvbChainPartitionDescriptor - sizeof_AvbDescriptor)
    (fun d => [chain_partition_name_len d; chain_public_key_len d]).

Definition avb_property_descriptor_validate_and_byteswap
    : bytes → run (option AvbPropertyDescriptor) :=
  validate_descriptor sizeof_AvbPropertyDescriptor AVB_DESCRIPTOR_TAG_PROPERTY
    (fun l parent => mkProperty parent (be64_at l 16) (be64_at l 24))
    (fun _ => true)
    (sizeof_AvbPropertyDescriptor - sizeof_AvbDescriptor + 2)
    (fun d => [key_num_bytes d; value_num_bytes d]).

(** ** Footer and version *)

Definition AVB_FOOTER_MAGIC : bytes := str "AVBf".
Definition AVB_FOOTER_MAGIC_LEN : Z := 4.
Definition AVB_FOOTER_SIZE : Z := 64.
Definition AVB_FOOTER_VERSION_MAJOR : Z := 1.

Record AvbFooter := mkFooter {
  footer_version_major : Z;
  footer_version_minor : Z;
  original_image_size : Z;
  vbmeta_offset : Z;
  vbmeta_size : Z;
}.

Definition avb_footer_validate_and_byteswap (src : bytes) : run (option AvbFooter) :=
  l ← rd src 0 AVB_FOOTER_SIZE;
  let dest := mkFooter (be32_at l 4) (be32_at l 8) (be64_at l 12) (be64_at l 20) (be64_at l 28) in
  r ← avb_safe_memcmp l AVB_FOOTER_MAGIC AVB_FOOTER_MAGIC_LEN;
  if negb (r =? 0) then mret None
  else if AVB_FOOTER_VERSION_MAJOR <? footer_version_major dest then mret None
  else mret (Some dest).

Definition AVB_VERSION_SUB : Z := 0.

Definition avb_version_string : bytes :=
  dec_of_Z AVB_VERSION_MAJOR ++ str "." ++ dec_of_Z AVB_VERSION_MINOR ++ str "." ++
  dec_of_Z AVB_VERSION_SUB.

(** ** Walking over the descriptors *)

Definition aligned (ptr : Z) : bool := Z.land ptr (AVB_ALIGNMENT_SIZE - 1) =? 0.

Section Foreach.
Context {U : Type}.
Variable foreach_func : Z → comp U bool.
Variables (image_data : bytes) (image_ptr : Z).

(** No caller passes a null image or a null callback.  The loop from the address
    [p]; the callback gets the offset of the
    descriptor in the image. *)
Fixpoint foreach_loop (fuel : nat) (desc_start desc_end p : Z) : comp U bool :=
  match fuel with
  | O => fun _ => Crash NoFuel
  | S fuel =>
      if p <? desc_end then
        assert (aligned p);;
        x ← lift (rd image_data (p - image_ptr + 8) 8);
        let nb_following := avb_be64toh (le_decode x) in
        let nb_total := u64 (sizeof_AvbDescriptor + nb_following) in
        if negb (Z.land nb_total 7 =? 0) then mret false
        else if (u64 (nb_total + p) <? desc_start) || (desc_end <? u64 (nb_total + p))
        then mret false
        else
          continue ← foreach_func (p - image_ptr);
          if negb continue then mret false
          else foreach_loop fuel desc_start desc_end (u64 (p + nb_total))
      else mret true
  end.

Definition avb_descriptor_foreach (fuel : nat) (image_size : Z) : comp U bool :=
  if image_size <? AVB_VBMETA_IMAGE_HEADER_SIZE then mret false
  else
    same ← lift (avb_memcmp_eq image_data AVB_MAGIC AVB_MAGIC_LEN);
    if negb same then mret false
    else
      assert (aligned image_ptr);;
      h ← lift (rd image_data 0 AVB_VBMETA_IMAGE_HEADER_SIZE);
      let image_end := u64 (image_ptr + image_size) in
      let desc_start := u64 (image_ptr + AVB_VBMETA_IMAGE_HEADER_SIZE +
                             be64_at h 12 + be64_at h 96) in
      let desc_end := u64 (desc_start + be64_at h 104) in
      if (desc_start <? image_ptr) || (image_end <? desc_start) || (desc_end <? image_ptr) ||
         (image_end <? desc_end) || (desc_end <? desc_start)
      then mret false
      else foreach_loop fuel desc_start desc_end desc_start.

End Foreach.

Definition count_descriptors (descriptor : Z) : comp Z bool :=
  fun num_descriptors => Ret (true, u64 (num_descriptors + 1)).

Record SetDescriptorData := mkSetData {
  descriptor_number : Z;
  descriptors : list (option Z);
}.

Definition set_descriptors (descriptor : Z) : comp SetDescriptorData bool := fun data =>
  if descriptor_number data <? zlen (descriptors data)
  then Ret (true, mkSetData (u64 (descriptor_number data + 1))
                    (<[Z.to_nat (descriptor_number data) := Some descriptor]> (descriptors data)))
  else Crash OutOfBounds.

(** The NULL-terminated array and the number of descriptors. *)
Definition avb_descriptor_get_all {W} `{Heap W} (fuel : nat) (image_data : bytes)
    (image_ptr image_size : Z) : comp W (option (list (option Z) * Z)) :=
  r ← lift (avb_descriptor_foreach count_descriptors image_data image_ptr fuel image_size 0);
  let num_descriptors := r.2 in
  let size := u64 (8 * u64 (num_descriptors + 1)) in
  ok ← avb_calloc size;
  match ok with
  | None => mret None
  | Some _ =>
      let data := mkSetData 0 (replicate (Z.to_nat (size / 8)) None) in
      r ← lift (avb_descriptor_foreach set_descriptors image_data image_ptr fuel image_size data);
      assert (descriptor_number r.2 =? num_descriptors);;
      mret (Some (descriptors r.2, num_descriptors))
  end.

(** ** Properties *)

(** The part of [PropertyIteratorData] that changes: the value's offset, [None]
    being NULL, and its size. *)
Record PropertyIteratorData := mkPropertyData {
  ret_value : option Z;
  ret_value_size : Z;
}.

(** The value is recorded and the iteration stopped. *)
Definition property_found (value size : Z) : comp PropertyIteratorData bool :=
  fun _ => Ret (false, mkPropertyData (Some value) size).

Section Property.
Variables (image_data : bytes) (image_ptr : Z).

Definition property_lookup_desc_foreach (key : bytes) (key_size : Z) (header : Z)
    : comp PropertyIteratorData bool :=
  t ← lift (rd image_data header 8);
  if negb (le_decode t =? AVB_DESCRIPTOR_TAG_PROPERTY) then mret true
  else
    r ← lift (avb_property_descriptor_validate_and_byteswap (drop (Z.to_nat header) image_data));
    match r with
    | None => mret true
    | Some prop_desc =>
        let p := header + sizeof_AvbPropertyDescriptor in
        nul ← lift (rd image_data (p + key_num_bytes prop_desc) 1);
        if negb (le_decode nul =? 0) then mret true
        else if key_size =? key_num_bytes prop_desc then
          same ← lift (avb_memcmp_eq (drop (Z.to_nat p) image_data) key key_size);
          if same : bool then
            property_found (p + key_num_bytes prop_desc + 1) (value_num_bytes prop_desc)
          else mret true
        else mret true
    end.

(** [key] is the object the key pointer points into, its string ending at the
    first NUL; [data] is what the uninitialised local variable holds.  The
    result is the value and the size written to [*out_value_size]. *)
Definition avb_property_lookup (data : PropertyIteratorData) (fuel : nat) (image_size : Z)
    (key : bytes) (key_size : Z) : run (option Z * Z) :=
  let key_size := if key_size =? 0 then zlen key else key_size in
  r ← avb_descriptor_foreach (property_lookup_desc_foreach key key_size)
        image_data image_ptr fuel image_size data;
  let '(all, data) := r in
  if negb all then mret (ret_value data, ret_value_size data)
  else mret (None, 0).

Definition property_digit (base c : Z) : option Z :=
  if (48 <=? c) && (c <=? 57) then Some (c - 48)
  else if (base =? 16) && (97 <=? c) && (c <=? 102) then Some (c - 97 + 10)
  else if (base =? 16) && (65 <=? c) && (c <=? 70) then Some (c - 65 + 10)
  else None.

(** The digits from the current character on, up to the NUL. *)
Fixpoint parse_digits (base parsed_val : Z) (value : bytes) : run (option Z) :=
  match value with
  | [] => Crash OutOfBounds
  | c :: value =>
      if c =? 0 then Ret (Some parsed_val)
      else
        match property_digit base c with
        | None => Ret None
        | Some digit => parse_digits base (u64 (u64 (parsed_val * base) + digit)) value
        end
  end.

(** [Some v] is success with [*out_value = v]. *)
Definition avb_property_lookup_uint64 (data : PropertyIteratorData) (fuel : nat) (image_size : Z)
    (key : bytes) (key_size : Z) : run (option Z) :=
  r ← avb_property_lookup data fuel image_size key key_size;
  match r.1 with
  | None => mret None
  | Some off =>
      let value := drop (Z.to_nat off) image_data in
      hex ← avb_memcmp_eq value (str "0x") 2;
      if hex : bool then parse_digits 16 0 (drop 2 value) else parse_digits 10 0 value
  end.

End Property.

(** ** Encodings *)

Lemma be64_at_encode l off x :
  slice l off 8 = be_encode 8 x → is_u64 x → be64_at l off = x.
Proof.
  intros E Hx. unfold be64_at. rewrite E, be64toh_decode by auto using be_encode_length with bytes.
  rewrite be_decode_encode. by apply u64_small.
Qed.

Lemma be32_at_encode l off x :
  slice l off 4 = be_encode 4 x → is_u32 x → be32_at l off = x.
Proof.
  intros E Hx. unfold be32_at. rewrite E, be32toh_decode by auto using be_encode_length with bytes.
  rewrite be_decode_encode. by apply u32_small.
Qed.

(** A descriptor as the image holds it: tag, length of the payload, payload. *)
Definition descriptor_bytes (d : Z * bytes) : bytes :=
  be_encode 8 d.1 ++ be_encode 8 (zlen d.2) ++ d.2.

Definition descriptor_area (ds : list (Z * bytes)) : bytes := concat (descriptor_bytes <$> ds).

Definition descriptor_wf (d : Z * bytes) : Prop :=
  is_u64 d.1 ∧ zlen d.2 mod 8 = 0 ∧ bytes_ok d.2.

(** The offsets of the descriptors when the first one is at [off]. *)
Fixpoint descriptor_offsets (off : Z) (ds : list (Z * bytes)) : list Z :=
  match ds with
  | [] => []
  | d :: ds => off :: descriptor_offsets (off + zlen (descriptor_bytes d)) ds
  end.

Lemma zlen_descriptor d : zlen (descriptor_bytes d) = 16 + zlen d.2.
Proof. unfold descriptor_bytes. autorewrite with bytes. lia. Qed.

(** The image has its descriptors at [start]. *)
Record holds_descriptors (image : bytes) (image_ptr image_size : Z) (start : Z)
    (ds : list (Z * bytes)) : Prop := {
  hd_magic : slice image 0 4 = AVB_MAGIC;
  hd_start : start = AVB_VBMETA_IMAGE_HEADER_SIZE + be64_at image 12 + be64_at image 96;
  hd_size : be64_at image 104 = zlen (descriptor_area ds);
  hd_area : slice image start (zlen (descriptor_area ds)) = descriptor_area ds;
  hd_aligned : start mod 8 = 0 ∧ image_ptr mod 8 = 0;
  hd_bounds : start + zlen (descriptor_area ds) ≤ image_size ≤ zlen image;
  hd_ptr : 0 ≤ image_ptr ∧ image_ptr + image_size < 0x10000000000000000;
  hd_wf : Forall descriptor_wf ds;
}.

(** What the loop does with such descriptors. *)
Fixpoint walk {U} (f : Z → comp U bool) (offs : list Z) : comp U bool :=
  match offs with
  | [] => mret true
  | o :: offs => continue ← f o; if negb continue then mret false else walk f offs
  end.

Lemma aligned_mod x : aligned x = (x mod 8 =? 0).
Proof.
  unfold aligned. change (AVB_ALIGNMENT_SIZE - 1) with (2 ^ 3 - 1). by rewrite land_ones_0.
Qed.

Lemma descriptor_area_cons image off d ds :
  0 ≤ off →
  slice image off (zlen (descriptor_area (d :: ds))) = descriptor_area (d :: ds) →
  slice image off (zlen (descriptor_bytes d)) = descriptor_bytes d ∧
  slice image (off + 8) 8 = be_encode 8 (zlen d.2) ∧
  slice image (off + zlen (descriptor_bytes d)) (zlen (descriptor_area ds)) = descriptor_area ds.
Proof.
  intros Hoff E. change (descriptor_area (d :: ds)) with (descriptor_bytes d ++ descriptor_area ds) in E.
  pose proof (zlen_descriptor d). pose proof (zlen_nonneg d.2).
  pose proof (zlen_nonneg (descriptor_area ds)). rewrite zlen_app in E.
  assert (∀ a n, 0 ≤ a → 0 ≤ n → a + n ≤ zlen (descriptor_bytes d) + zlen (descriptor_area ds) →
    slice image (off + a) n = slice (descriptor_bytes d ++ descriptor_area ds) a n) as Hs.
  { intros. rewrite <-E. rewrite slice_slice by lia. done. }
  split_and!.
  - rewrite <-(Z.add_0_r off), Hs by lia. by apply slice_app_take.
  - rewrite Hs by lia. unfold descriptor_bytes. rewrite <-!app_assoc.
    rewrite slice_app_skip by (autorewrite with bytes; lia).
    rewrite zlen_be_encode. by apply slice_app_take.
  - rewrite Hs, slice_app_r by lia. apply slice_all.
Qed.

(** One iteration on a well-formed descriptor. *)
Lemma foreach_loop_step {U} (f : Z → comp U bool) image ptr start stop d fuel p (u : U) :
  0 ≤ ptr ≤ start → start ≤ p → p + (16 + zlen d.2) ≤ stop →
  stop - ptr ≤ zlen image → stop < 0x10000000000000000 → p mod 8 = 0 → descriptor_wf d →
  slice image (p - ptr + 8) 8 = be_encode 8 (zlen d.2) →
  foreach_loop f image ptr (S fuel) start stop p u =
  (continue ← f (p - ptr);
   if negb continue then mret false
   else foreach_loop f image ptr fuel start stop (p + (16 + zlen d.2))) u.
Proof.
  intros Hptr Hp Hstop Hin Hmax Hal (Ht & Hm & Hb) En. pose proof (zlen_nonneg d.2).
  cbn [foreach_loop]. rewrite (proj2 (Z.ltb_lt _ _)) by lia.
  rewrite aligned_mod, Hal. erewrite comp_bind_run by reflexivity.
  erewrite comp_bind_run by (apply lift_run, rd_ok; lia). rewrite En.
  rewrite be64toh_decode by auto using be_encode_length with bytes.
  rewrite be_decode_encode. change (_ mod 256 ^ Z.of_nat 8) with (u64 (zlen d.2)).
  unfold sizeof_AvbDescriptor.
  assert (u64 (zlen d.2) = zlen d.2) as -> by (apply u64_small; unfold is_u64; lia).
  assert (u64 (16 + zlen d.2) = 16 + zlen d.2) as -> by (apply u64_small; unfold is_u64; lia).
  assert (u64 (16 + zlen d.2 + p) = p + (16 + zlen d.2)) as ->
    by (rewrite u64_small by (unfold is_u64; lia); lia).
  assert (u64 (p + (16 + zlen d.2)) = p + (16 + zlen d.2)) as ->
    by (apply u64_small; unfold is_u64; lia).
  change 7 with (2 ^ 3 - 1). rewrite land_ones_0 by done. change (2 ^ 3) with 8.
  rewrite <-Z.add_mod_idemp_r, Hm by done. change ((16 + 0) mod 8 =? 0) with true. cbn [negb].
  by rewrite (proj2 (Z.ltb_ge _ _)), (proj2 (Z.ltb_ge _ _)) by lia.
Qed.

Lemma foreach_loop_walk {U} (f : Z → comp U bool) image ptr start stop ds fuel p (u : U) :
  0 ≤ ptr ≤ start → start ≤ p → stop = p + zlen (descriptor_area ds) →
  stop - ptr ≤ zlen image → stop < 0x10000000000000000 → p mod 8 = 0 →
  Forall descriptor_wf ds →
  slice image (p - ptr) (zlen (descriptor_area ds)) = descriptor_area ds →
  (length ds < fuel)%nat →
  foreach_loop f image ptr fuel start stop p u = walk f (descriptor_offsets (p - ptr) ds) u.
Proof.
  intros Hptr Hp Hstop Hin Hmax Hal Hwf. revert fuel p u Hp Hstop Hal.
  induction Hwf as [|d ds Hd Hwf IH]; intros [|fuel] p u Hp Hstop Hal Harea Hf;
    simpl in Hf; try lia.
  { cbn [foreach_loop]. change (zlen (descriptor_area [])) with 0 in Hstop.
    by rewrite (proj2 (Z.ltb_ge _ _)) by lia. }
  apply descriptor_area_cons in Harea as (_ & En & Harea); [|lia].
  change (descriptor_area (d :: ds)) with (descriptor_bytes d ++ descriptor_area ds) in Hstop.
  rewrite zlen_app in Hstop. rewrite zlen_descriptor in Hstop, Harea.
  pose proof (zlen_nonneg d.2). pose proof (zlen_nonneg (descriptor_area ds)).
  rewrite (foreach_loop_step f image ptr start stop d) by (done || lia).
  cbn [walk descriptor_offsets]. unfold mbind, comp_bind.
  destruct (f (p - ptr) u) as [[[] u']|]; [|done|done]. cbn [negb].
  replace (p - ptr + (16 + zlen d.2)) with (p + (16 + zlen d.2) - ptr) in * by lia.
  rewrite IH; [|lia|lia| |done|lia].
  - rewrite zlen_descriptor. do 2 f_equal. lia.
  - destruct Hd as (_ & Hm & _). rewrite <-Z.add_mod_idemp_l, Hal by done.
    rewrite Z.add_0_l, <-Z.add_mod_idemp_r, Hm by done. done.
Qed.

Lemma foreach_image {U} (f : Z → comp U bool) image ptr size start ds fuel (u : U) :
  holds_descriptors image ptr size start ds → (length ds < fuel)%nat →
  avb_descriptor_foreach f image ptr fuel size u = walk f (descriptor_offsets start ds) u.
Proof.
  intros [Em Es En Ea [Hal Hal'] Hb [Hp Hp'] Hwf] Hf.
  assert (is_u64 (be64_at image 12) ∧ is_u64 (be64_at image 96)) as [[H1 _] [H2 _]]
    by (unfold be64_at; auto with words).
  pose proof (zlen_nonneg (descriptor_area ds)). unfold AVB_VBMETA_IMAGE_HEADER_SIZE in *.
  unfold avb_descriptor_foreach, AVB_VBMETA_IMAGE_HEADER_SIZE.
  rewrite (proj2 (Z.ltb_ge _ _)) by lia.
  assert (avb_memcmp_eq image AVB_MAGIC AVB_MAGIC_LEN = Ret true) as Ec.
  { unfold avb_memcmp_eq, AVB_MAGIC_LEN. rewrite (rd_ok image) by lia. by rewrite Em. }
  erewrite comp_bind_run by (apply lift_run, Ec). cbn [negb].
  rewrite aligned_mod, Hal'. erewrite comp_bind_run by reflexivity.
  erewrite comp_bind_run by (apply lift_run, rd_ok; lia).
  assert (∀ off, 0 ≤ off → off + 8 ≤ 256 → be64_at (slice image 0 256) off = be64_at image off) as Hh.
  { intros. unfold be64_at. by rewrite slice_slice by lia. }
  rewrite !Hh by lia. rewrite En.
  replace (ptr + 256 + be64_at image 12 + be64_at image 96) with (ptr + start) by lia.
  assert (u64 (ptr + start) = ptr + start) as -> by (apply u64_small; unfold is_u64; lia).
  rewrite !u64_small by (unfold is_u64; lia).
  do 5 rewrite (proj2 (Z.ltb_ge _ _)) by lia. cbn [orb].
  rewrite (foreach_loop_walk f image ptr (ptr + start) _ ds); [| |lia..| |done| |done].
  - do 2 f_equal. lia.
  - lia.
  - rewrite <-Z.add_mod_idemp_l, Hal', Z.add_0_l; done.
  - by replace (ptr + start - ptr) with start by lia.
Qed.

Lemma walk_count offs n :
  is_u64 (n + zlen offs) → 0 ≤ n → walk count_descriptors offs n = Ret (true, n + zlen offs).
Proof.
  revert n. induction offs as [|o offs IH]; intros n Hn H0.
  { change (zlen []) with 0. by rewrite Z.add_0_r. }
  rewrite zlen_cons in *. pose proof (zlen_nonneg offs). unfold is_u64 in *.
  cbn [walk]. erewrite comp_bind_run by reflexivity. cbn [negb].
  rewrite u64_small by (unfold is_u64; lia). rewrite IH by (unfold is_u64; lia).
  do 2 f_equal. lia.
Qed.

Lemma walk_set offs done rest :
  is_u64 (zlen done + zlen offs) → (length offs ≤ length rest)%nat →
  walk set_descriptors offs (mkSetData (zlen done) (done ++ rest)) =
  Ret (true, mkSetData (zlen done + zlen offs)
               (done ++ (Some <$> offs) ++ drop (length offs) rest)).
Proof.
  revert done rest. induction offs as [|o offs IH]; intros done rest Hn Hr.
  { change (zlen []) with 0. by rewrite Z.add_0_r. }
  destruct rest as [|r rest]; simpl in Hr; [lia|]. rewrite zlen_cons in *.
  pose proof (zlen_nonneg offs). pose proof (zlen_nonneg done). unfold is_u64 in *.
  assert (set_descriptors o (mkSetData (zlen done) (done ++ r :: rest)) =
    Ret (true, mkSetData (zlen (done ++ [Some o])) ((done ++ [Some o]) ++ rest))) as E.
  { unfold set_descriptors. cbn [descriptor_number descriptors].
    rewrite zlen_app, zlen_cons. pose proof (zlen_nonneg rest).
    rewrite (proj2 (Z.ltb_lt _ _)), u64_small by (unfold is_u64; lia).
    unfold zlen at 2. rewrite Nat2Z.id, insert_app_r_alt, Nat.sub_diag, zlen_app, <-app_assoc by lia.
    done. }
  cbn [walk]. erewrite comp_bind_run by exact E. cbn [negb].
  rewrite IH; rewrite ?zlen_app; change (zlen [Some o]) with 1; [|unfold is_u64; lia|lia].
  do 3 f_equal; [lia|]. by rewrite <-app_assoc.
Qed.

Lemma length_offsets off ds : length (descriptor_offsets off ds) = length ds.
Proof. revert off. induction ds; intros; simpl; auto. Qed.

Lemma area_length ds : 16 * zlen ds ≤ zlen (descriptor_area ds).
Proof.
  induction ds as [|d ds IH]; [done|].
  change (descriptor_area (d :: ds)) with (descriptor_bytes d ++ descriptor_area ds).
  rewrite zlen_cons, zlen_app, zlen_descriptor. pose proof (zlen_nonneg d.2). lia.
Qed.

Lemma offsets_hold image start ds i o d :
  0 ≤ start → slice image start (zlen (descriptor_area ds)) = descriptor_area ds →
  descriptor_offsets start ds !! i = Some o → ds !! i = Some d →
  slice image o (zlen (descriptor_bytes d)) = descriptor_bytes d ∧ start ≤ o ∧
  o + zlen (descriptor_bytes d) ≤ start + zlen (descriptor_area ds).
Proof.
  revert start i. induction ds as [|d' ds IH]; intros start [|i] Hs Ha Ho Hd; try done.
  - injection Ho as <-. injection Hd as <-. apply descriptor_area_cons in Ha as (E & _ & _); [|done].
    split; [done|]. change (descriptor_area (d' :: ds)) with (descriptor_bytes d' ++ descriptor_area ds).
    rewrite zlen_app. pose proof (zlen_nonneg (descriptor_area ds)). lia.
  - apply descriptor_area_cons in Ha as (_ & _ & Ha); [|done].
    pose proof (zlen_nonneg (descriptor_bytes d')).
    destruct (IH (start + zlen (descriptor_bytes d')) i) as (E & H1 & H2); [lia|done..|].
    split; [done|]. change (descriptor_area (d' :: ds)) with (descriptor_bytes d' ++ descriptor_area ds).
    rewrite zlen_app. lia.
Qed.

Lemma get_all_run {W} `{Heap W} image ptr size start ds fuel (w : W) :
  holds_descriptors image ptr size start ds → (length ds < fuel)%nat →
  avb_descriptor_get_all fuel image ptr size w =
    let '(ok, w') := heap_alloc (8 * (zlen ds + 1)) w in
    Ret (if ok then Some ((Some <$> descriptor_offsets start ds) ++ [None], zlen ds) else None, w').
Proof.
  intros Hh Hf. assert (zlen (descriptor_offsets start ds) = zlen ds) as El
    by (unfold zlen; by rewrite length_offsets).
  assert (0 ≤ zlen ds < 0x1000000000000000) as Hz.
  { destruct Hh as [_ -> _ _ _ Hb [Hp Hp'] _]. pose proof (area_length ds).
    assert (is_u64 (be64_at image 12) ∧ is_u64 (be64_at image 96)) as [[H1 _] [H2 _]]
      by (unfold be64_at; auto with words).
    unfold AVB_VBMETA_IMAGE_HEADER_SIZE in *. pose proof (zlen_nonneg ds). lia. }
  assert (length (descriptor_offsets start ds) = Z.to_nat (zlen ds)) as Elen
    by (unfold zlen; rewrite length_offsets; lia).
  unfold avb_descriptor_get_all. erewrite comp_bind_run
    by (apply lift_run; rewrite (foreach_image _ _ _ _ _ _ _ _ Hh Hf);
        apply walk_count; [unfold is_u64; rewrite El; lia|done]).
  cbn [snd]. rewrite El, Z.add_0_l, !u64_small by (unfold is_u64; rewrite ?u64_small; unfold is_u64; lia).
  destruct (heap_alloc (8 * (zlen ds + 1)) w) as [ok w'] eqn:Ew.
  erewrite comp_bind_run by (unfold avb_calloc, avb_malloc;
    erewrite comp_bind_run by (unfold malloc; by rewrite Ew); reflexivity).
  destruct ok; [|done].
  replace (8 * (zlen ds + 1) / 8) with (zlen ds + 1) by (rewrite Z.mul_comm, Z.div_mul; lia).
  erewrite comp_bind_run by (apply lift_run; rewrite (foreach_image _ _ _ _ _ _ _ _ Hh Hf);
    apply (walk_set _ []); rewrite ?El, ?Elen, ?length_replicate;
    [unfold is_u64; change (zlen []) with 0; lia|lia]).
  cbn [snd descriptor_number descriptors app]. change (zlen []) with 0.
  rewrite El, Z.add_0_l, Z.eqb_refl, drop_replicate, Elen.
  erewrite comp_bind_run by reflexivity.
  by replace (Z.to_nat (zlen ds + 1) - Z.to_nat (zlen ds))%nat with 1%nat by lia.
Qed.

(** C31: on an image whose descriptor area is a sequence of well-formed
    descriptors, [avb_descriptor_get_all] ends within one iteration per
    descriptor and, when memory is available, returns the NULL-terminated array
    of pointers to exactly those descriptors in order. *)
Theorem avb_descriptor_get_all_correct {W} `{Heap W} image ptr size start ds fuel (w : W) :
  holds_descriptors image ptr size start ds → (length ds < fuel)%nat →
  (avb_descriptor_get_all fuel image ptr size w =
    let '(ok, w') := heap_alloc (8 * (zlen ds + 1)) w in
    Ret (if ok then Some ((Some <$> descriptor_offsets start ds) ++ [None], zlen ds)
         else None, w')) ∧
  ∀ i o d, descriptor_offsets start ds !! i = Some o → ds !! i = Some d →
    slice image o (zlen (descriptor_bytes d)) = descriptor_bytes d.
Proof.
  intros Hh Hf. split; [by apply get_all_run|].
  destruct Hh as [_ -> _ Ha _ _ _ _]. intros i o d Ho Hd.
  assert (is_u64 (be64_at image 12) ∧ is_u64 (be64_at image 96)) as [[H1 _] [H2 _]]
    by (unfold be64_at; auto with words).
  eapply offsets_hold; [|exact Ha|done..]. unfold AVB_VBMETA_IMAGE_HEADER_SIZE. lia.
Qed.

(** The descriptors of the demonstration image. *)
Lemma demo_holds_descriptors :
  holds_descriptors demo_vbmeta 0x1000 1280 576
    [(AVB_DESCRIPTOR_TAG_HASH, slice demo_descriptor 16 152)].
Proof.
  constructor; [by vm_compute|by vm_compute|by vm_compute|by vm_compute|done|by vm_compute|done|].
  constructor; [|constructor]. split; [done|]. split; [done|].
  apply (bool_decide_unpack _). by vm_compute.
Qed.

Lemma avb_descriptor_get_all_correct_witness :
  avb_descriptor_get_all (H := roomy_heap) 2 demo_vbmeta 0x1000 1280 tt =
  Ret (Some ([Some 576; None], 1), tt).
Proof.
  destruct (avb_descriptor_get_all_correct (H := roomy_heap) demo_vbmeta 0x1000 1280 576 _ 2 tt
    demo_holds_descriptors) as [E _]; [simpl; lia|exact E].
Defined.

(** ** A descriptor that never ends *)

(** An unsigned image whose only descriptor announces 2^64 - 16 following bytes. *)
Definition looping_image : bytes :=
  AVB_MAGIC ++ be_encode 4 1 ++ be_encode 4 0 ++ be_encode 8 0 ++ be_encode 8 64 ++
  be_encode 4 AVB_ALGORITHM_TYPE_NONE ++
  concat (be_encode 8 <$> [0; 0; 0; 0; 0; 0; 0; 0; 0; 16; 0]) ++ replicate 136 0 ++
  be_encode 8 AVB_DESCRIPTOR_TAG_HASH ++ be_encode 8 (0x10000000000000000 - 16) ++
  replicate 48 0.

Lemma looping_image_loops fuel n :
  foreach_loop count_descriptors looping_image 0x1000 fuel 4352 4368 4352 n = Crash NoFuel.
Proof.
  revert n. induction fuel as [|fuel IH]; intros n; [done|]. cbn [foreach_loop].
  change (4352 <? 4368) with true. cbv iota.
  erewrite comp_bind_run by (vm_compute; reflexivity).
  erewrite comp_bind_run by (apply lift_run; vm_compute; reflexivity).
  cbv zeta. set (nb := u64 (sizeof_AvbDescriptor + _)).
  assert (nb = 0) as -> by by vm_compute.
  change (negb (Z.land 0 7 =? 0)) with false. cbv iota.
  change ((u64 (0 + 4352) <? 4352) || (4368 <? u64 (0 + 4352))) with false. cbv iota.
  erewrite comp_bind_run by reflexivity. apply IH.
Qed.

(** The sum of the header size and the announced length is computed modulo
    2^64, so a descriptor that announces 2^64 - 16 bytes has size 0 and the
    walk over the descriptors of this 320-byte image does not end, however many
    iterations are granted. *)
Theorem descriptor_length_wraps_forever fuel :
  avb_vbmeta_image_verify (H := roomy_heap) 0x1000 looping_image 320 tt =
    Ret ((AVB_VBMETA_VERIFY_RESULT_OK_NOT_SIGNED, None), tt) ∧
  avb_descriptor_get_all (H := roomy_heap) fuel looping_image 0x1000 320 tt = Crash NoFuel.
Proof.
  split; [by vm_compute|]. unfold avb_descriptor_get_all.
  assert (avb_descriptor_foreach count_descriptors looping_image 0x1000 fuel 320 0 =
          foreach_loop count_descriptors looping_image 0x1000 fuel 4352 4368 4352 0) as E.
  { unfold avb_descriptor_foreach. change (320 <? AVB_VBMETA_IMAGE_HEADER_SIZE) with false.
    cbv iota. erewrite comp_bind_run by (apply lift_run; vm_compute; reflexivity). cbn [negb].
    erewrite comp_bind_run by (vm_compute; reflexivity).
    erewrite comp_bind_run by (apply lift_run; reflexivity).
    cbv zeta. set (s := u64 (0x1000 + _ + _ + _)). set (e := u64 (s + _)).
    assert (s = 4352) as Hs by by vm_compute. assert (e = 4368) as He by by vm_compute.
    by rewrite He, Hs. }
  unfold mbind at 1, comp_bind. unfold lift at 1. by rewrite E, looping_image_loops.
Qed.

(** ** Validated descriptors *)

Lemma be64_at_prefix l n off :
  0 ≤ off → off + 8 ≤ n → be64_at (slice l 0 n) off = be64_at l off.
Proof. intros. unfold be64_at. by rewrite slice_slice by lia. Qed.

Lemma be32_at_prefix l n off :
  0 ≤ off → off + 4 ≤ n → be32_at (slice l 0 n) off = be32_at l off.
Proof. intros. unfold be32_at. by rewrite slice_slice by lia. Qed.

Definition zsum : list Z → Z := foldr Z.add 0.

Lemma zsum_nonneg lens : Forall is_u64 lens → 0 ≤ zsum lens.
Proof. induction 1 as [|n lens Hn _ IH]; simpl; [done|]. unfold is_u64 in Hn. lia. Qed.

Lemma sizes_fit_spec e lens limit :
  is_u64 e → Forall is_u64 lens → is_u64 limit →
  sizes_fit e lens limit = bool_decide (e + zsum lens ≤ limit).
Proof.
  intros He Hl Hm. revert e He. induction Hl as [|n lens Hn Hl IH]; intros e He;
    cbn [sizes_fit zsum foldr].
  - rewrite Z.add_0_r. case_bool_decide; [apply negb_true_iff, Z.ltb_ge|apply negb_false_iff, Z.ltb_lt];
      lia.
  - rewrite safe_add_to_spec by done. pose proof (zsum_nonneg lens Hl). unfold is_u64 in *.
    case_bool_decide as Hc.
    + rewrite IH by (unfold is_u64; lia). by rewrite Z.add_assoc.
    + rewrite bool_decide_false; [done|]. unfold zsum in *. lia.
Qed.

(** When the struct is readable, the result of a validation is decided by four
    conditions. *)
Lemma validate_descriptor_spec {D} size t (swap : bytes → AvbDescriptor → D) extra base lens src :
  sizeof_AvbDescriptor ≤ size ≤ zlen src → is_u64 base →
  let parent := mkDescriptor (be64_at src 0) (be64_at src 8) in
  let dest := swap (slice src 0 size) parent in
  Forall is_u64 (lens dest) →
  validate_descriptor size t swap extra base lens src =
  Ret (if bool_decide (num_bytes_following parent mod 8 = 0 ∧ tag parent = t ∧
                       extra dest = true ∧ base + zsum (lens dest) ≤ num_bytes_following parent)
       then Some dest else None).
Proof.
  intros Hs Hb parent dest Hl. unfold sizeof_AvbDescriptor in Hs.
  unfold validate_descriptor, avb_descriptor_validate_and_byteswap, sizeof_AvbDescriptor.
  rewrite (rd_ok src 0 size), (rd_ok src 0 16) by lia.
  cbn [mbind run_bind mret run_ret].
  assert (mkDescriptor (be64_at (slice src 0 16) 0) (be64_at (slice src 0 16) 8) = parent) as ->.
  { unfold parent. rewrite !be64_at_prefix by lia. exact eq_refl. }
  fold dest. change 0x07 with (2 ^ 3 - 1). rewrite land_ones_0 by done. change (2 ^ 3) with 8.
  rewrite sizes_fit_spec; [|done|done|unfold parent, be64_at; cbn; auto with words].
  destruct (Z.eqb_spec (num_bytes_following parent mod 8) 0); cbn [negb];
    [|rewrite bool_decide_false; [done|tauto]].
  destruct (Z.eqb_spec (tag parent) t); cbn [negb]; [|rewrite bool_decide_false; [done|tauto]].
  destruct (extra dest); cbn [negb]; [|rewrite bool_decide_false; [done|naive_solver]].
  case_bool_decide; cbn [negb]; [rewrite bool_decide_true|rewrite bool_decide_false]; done || tauto.
Qed.

(** A hash descriptor with its name, salt and digest. *)
Definition hash_descriptor_payload (image_size : Z) (algorithm name salt digest : bytes) (flags : Z)
    (pad : bytes) : bytes :=
  be_encode 8 image_size ++ algorithm ++ be_encode 4 (zlen name) ++ be_encode 4 (zlen salt) ++
  be_encode 4 (zlen digest) ++ be_encode 4 flags ++ replicate 60 0 ++ name ++ salt ++ digest ++ pad.

Lemma slice_skip_len {A} (l k : list A) m off n :
  zlen l = m → m ≤ off → slice (l ++ k) off n = slice k (off - m) n.
Proof. intros <- ?. by apply slice_app_skip. Qed.

Lemma slice_take_len {A} (l k : list A) n : zlen l = n → slice (l ++ k) 0 n = l.
Proof. intros <-. by apply slice_app_take. Qed.

(** Finds a field at a known offset of a concatenation. *)
Ltac known_length :=
  first [apply zlen_be_encode | apply zlen_replicate | eassumption | reflexivity].
Ltac get_field :=
  rewrite <-?app_assoc;
  repeat (erewrite slice_skip_len; [|known_length|by vm_compute];
          match goal with
          | |- slice _ ?off _ = _ => let o := eval vm_compute in off in change off with o
          end);
  apply slice_take_len; known_length.

Lemma hash_fields image_size algorithm name salt digest flags pad rest :
  is_u64 image_size → zlen algorithm = 32 → is_u32 flags →
  is_u32 (zlen name) → is_u32 (zlen salt) → is_u32 (zlen digest) →
  let src := descriptor_bytes (AVB_DESCRIPTOR_TAG_HASH,
    hash_descriptor_payload image_size algorithm name salt digest flags pad) ++ rest in
  be64_at src 16 = image_size ∧ slice src 24 32 = algorithm ∧ be32_at src 56 = zlen name ∧
  be32_at src 60 = zlen salt ∧ be32_at src 64 = zlen digest ∧ be32_at src 68 = flags.
Proof.
  intros Hi Ha Hf Hn Hs Hd src. unfold src, descriptor_bytes, hash_descriptor_payload. cbn [fst snd].
  split; [apply be64_at_encode; [get_field|exact Hi]|]. split; [get_field|].
  split; [apply be32_at_encode; [get_field|exact Hn]|].
  split; [apply be32_at_encode; [get_field|exact Hs]|].
  split; [apply be32_at_encode; [get_field|exact Hd]|].
  apply be32_at_encode; [get_field|exact Hf].
Qed.

(** Reading back a serialised hash descriptor gives its fields: the image
    size, the algorithm name, the lengths of name, salt and digest and the flags. *)
Theorem hash_descriptor_roundtrip image_size algorithm name salt digest flags pad rest :
  is_u64 image_size → zlen algorithm = 32 → is_u32 flags →
  is_u32 (zlen name) → is_u32 (zlen salt) → is_u32 (zlen digest) →
  let payload := hash_descriptor_payload image_size algorithm name salt digest flags pad in
  zlen payload mod 8 = 0 → is_u64 (zlen payload) →
  avb_hash_descriptor_validate_and_byteswap
    (descriptor_bytes (AVB_DESCRIPTOR_TAG_HASH, payload) ++ rest) =
  Ret (Some (mkHash (mkDescriptor AVB_DESCRIPTOR_TAG_HASH (zlen payload)) image_size algorithm
               (zlen name) (zlen salt) (zlen digest) flags)).
Proof.
  intros Hi Ha Hf Hn Hs Hd payload Hm Hp.
  set (src := descriptor_bytes _ ++ rest).
  assert (zlen payload = 116 + (zlen name + (zlen salt + (zlen digest + zlen pad)))) as El.
  { unfold payload, hash_descriptor_payload. autorewrite with bytes. rewrite Ha. lia. }
  assert (132 ≤ zlen src) as Hsrc.
  { unfold src. rewrite zlen_app, zlen_descriptor. cbn [snd]. pose proof (zlen_nonneg rest).
    pose proof (zlen_nonneg pad). unfold is_u32 in *. lia. }
  assert (be64_at src 0 = AVB_DESCRIPTOR_TAG_HASH) as E0
    by (apply be64_at_encode; [unfold src, descriptor_bytes; cbn [fst snd]; get_field|done]).
  assert (be64_at src 8 = zlen payload) as E8
    by (apply be64_at_encode; [unfold src, descriptor_bytes; cbn [fst snd]; get_field|done]).
  destruct (hash_fields image_size algorithm name salt digest flags pad rest Hi Ha Hf Hn Hs Hd)
    as (F1 & F2 & F3 & F4 & F5 & F6).
  fold payload src in F1, F2, F3, F4, F5, F6.
  unfold avb_hash_descriptor_validate_and_byteswap, sizeof_AvbHashDescriptor, sizeof_AvbDescriptor.
  rewrite validate_descriptor_spec; cbn [hash_partition_name_len hash_salt_len hash_digest_len];
    rewrite ?be64_at_prefix, ?be32_at_prefix, ?slice_slice by (unfold sizeof_AvbDescriptor; lia);
    rewrite ?Z.add_0_l, ?E0, ?E8, ?F1, ?F2, ?F3, ?F4, ?F5, ?F6; [|unfold sizeof_AvbDescriptor; lia|done|].
  - rewrite bool_decide_true; [done|]. cbn [tag num_bytes_following].
    split_and!; [done..|]. pose proof (zlen_nonneg pad). cbn [zsum foldr]. lia.
  - unfold is_u32, is_u64 in *. repeat constructor; lia.
Qed.

Lemma hash_descriptor_roundtrip_witness :
  avb_hash_descriptor_validate_and_byteswap
    (descriptor_bytes (AVB_DESCRIPTOR_TAG_HASH,
       hash_descriptor_payload 6 (str "sha256" ++ replicate 26 0) (str "boot") [] (replicate 32 7) 0 [])
     ++ []) =
  Ret (Some (mkHash (mkDescriptor AVB_DESCRIPTOR_TAG_HASH 152) 6 (str "sha256" ++ replicate 26 0)
               4 0 32 0)).
Proof.
  exact (hash_descriptor_roundtrip 6 (str "sha256" ++ replicate 26 0) (str "boot") []
    (replicate 32 7) 0 [] [] ltac:(done) ltac:(done) ltac:(done) ltac:(done) ltac:(done)
    ltac:(done) ltac:(done) ltac:(done)).
Defined.

(** ** Looking up properties *)

(** The descriptors of an image: properties, and others. *)
Inductive item :=
| Other (t : Z) (payload : bytes)
| Property (key value pad : bytes).

Definition property_payload (key value pad : bytes) : bytes :=
  be_encode 8 (zlen key) ++ be_encode 8 (zlen value) ++ key ++ [0] ++ value ++ [0] ++ pad.

Definition item_descriptor (it : item) : Z * bytes :=
  match it with
  | Other t payload => (t, payload)
  | Property key value pad => (AVB_DESCRIPTOR_TAG_PROPERTY, property_payload key value pad)
  end.

Definition item_ok (it : item) : Prop :=
  match it with Other t _ => t ≠ AVB_DESCRIPTOR_TAG_PROPERTY | Property _ _ _ => True end.

(** Position and size of the value of the first property with the given key. *)
Fixpoint find_property (key : bytes) (off : Z) (items : list item) : option (Z * Z) :=
  match items with
  | [] => None
  | it :: items =>
      let rest := find_property key (off + zlen (descriptor_bytes (item_descriptor it))) items in
      match it with
      | Property k v _ =>
          if decide (k = key) then Some (off + 32 + zlen k + 1, zlen v) else rest
      | Other _ _ => rest
      end
  end.

Lemma le_decode_be_zero t : is_u64 t → le_decode (be_encode 8 t) = 0 → t = 0.
Proof.
  intros Ht E. assert (be_encode 8 t = le_encode 8 0) as Eb.
  { pose proof (le_encode_decode (be_encode 8 t) ltac:(auto with bytes)) as Eb.
    rewrite be_encode_length, E in Eb. by symmetry. }
  apply (f_equal be_decode) in Eb. rewrite be_decode_encode in Eb.
  change (t mod 256 ^ Z.of_nat 8) with (u64 t) in Eb. by rewrite u64_small in Eb.
Qed.

Lemma descriptor_tag image o d :
  0 ≤ o → slice image o (zlen (descriptor_bytes d)) = descriptor_bytes d →
  slice image o 8 = be_encode 8 d.1.
Proof.
  intros Ho E. pose proof (zlen_descriptor d). pose proof (zlen_nonneg d.2).
  rewrite <-(Z.add_0_r o), <-(slice_slice image o (zlen (descriptor_bytes d)) 0 8), E by lia.
  unfold descriptor_bytes. apply slice_take_len, zlen_be_encode.
Qed.

Lemma other_skipped image key n o t payload (u : PropertyIteratorData) :
  t ≠ AVB_DESCRIPTOR_TAG_PROPERTY → is_u64 t → 0 ≤ o → o + 16 ≤ zlen image →
  slice image o (zlen (descriptor_bytes (t, payload))) = descriptor_bytes (t, payload) →
  property_lookup_desc_foreach image key n o u = Ret (true, u).
Proof.
  intros Ht Hu Ho Hi E. apply descriptor_tag in E as Et; [|done]. cbn [fst] in Et.
  unfold property_lookup_desc_foreach.
  erewrite comp_bind_run by (apply lift_run, rd_ok; lia). rewrite Et.
  destruct (Z.eqb_spec (le_decode (be_encode 8 t)) AVB_DESCRIPTOR_TAG_PROPERTY) as [E0|]; [|done].
  by apply le_decode_be_zero in E0.
Qed.

(** The fields of a property at [o]. *)
Lemma property_fields image o key value pad :
  0 ≤ o → is_u64 (zlen (property_payload key value pad)) →
  let d := item_descriptor (Property key value pad) in
  o + zlen (descriptor_bytes d) ≤ zlen image →
  slice image o (zlen (descriptor_bytes d)) = descriptor_bytes d →
  be64_at image o = 0 ∧ be64_at image (o + 8) = zlen (property_payload key value pad) ∧
  be64_at image (o + 16) = zlen key ∧ be64_at image (o + 24) = zlen value ∧
  slice image (o + 32) (zlen key) = key ∧ slice image (o + 32 + zlen key) 1 = [0] ∧
  slice image (o + 32 + zlen key + 1) (zlen value) = value.
Proof.
  intros Ho Hp d Hi E. pose proof (zlen_descriptor d) as Hd.
  assert (zlen d.2 = 18 + zlen key + zlen value + zlen pad) as El.
  { cbn [d item_descriptor snd]. unfold property_payload. autorewrite with bytes. lia. }
  pose proof (zlen_nonneg key). pose proof (zlen_nonneg value). pose proof (zlen_nonneg pad).
  assert (∀ a n, 0 ≤ a → 0 ≤ n → a + n ≤ zlen (descriptor_bytes d) →
    slice image (o + a) n = slice (descriptor_bytes d) a n) as Hs.
  { intros. rewrite <-E, slice_slice by lia. done. }
  change (zlen (property_payload key value pad)) with (zlen d.2) in *. unfold is_u64 in Hp.
  assert (descriptor_bytes d = be_encode 8 0 ++ be_encode 8 (zlen d.2) ++ be_encode 8 (zlen key) ++
    be_encode 8 (zlen value) ++ key ++ [0] ++ value ++ [0] ++ pad) as Eb by done.
  split; [apply be64_at_encode; [exact (descriptor_tag _ _ _ Ho E)|done]|].
  split; [apply be64_at_encode; [rewrite Hs, Eb by lia; get_field|unfold is_u64; lia]|].
  split; [apply be64_at_encode; [rewrite Hs, Eb by lia; get_field|unfold is_u64; lia]|].
  split; [apply be64_at_encode; [rewrite Hs, Eb by lia; get_field|unfold is_u64; lia]|].
  split; [rewrite Hs, Eb by lia; get_field|].
  assert (∀ x n, 0 ≤ x → 0 ≤ n → x + n ≤ 1 + zlen value →
    slice image (o + 32 + zlen key + x) n = slice ([0] ++ value ++ [0] ++ pad) x n) as Hs2.
  { intros. rewrite <-!(Z.add_assoc o), Hs, Eb by lia.
    do 4 (erewrite slice_skip_len by (apply zlen_be_encode || lia)).
    rewrite slice_app_skip by lia. f_equal. lia. }
  split; [rewrite <-(Z.add_0_r (o + 32 + zlen key)), Hs2 by lia; done|].
  rewrite Hs2 by lia. erewrite slice_skip_len by (reflexivity || lia). by apply slice_take_len.
Qed.

Lemma be64_at_drop l o off :
  0 ≤ o → 0 ≤ off → be64_at (drop (Z.to_nat o) l) off = be64_at l (o + off).
Proof. intros. unfold be64_at. by rewrite slice_drop. Qed.

Lemma property_validates image o key value pad :
  0 ≤ o → is_u64 (zlen (property_payload key value pad)) →
  zlen (property_payload key value pad) mod 8 = 0 →
  let d := item_descriptor (Property key value pad) in
  o + zlen (descriptor_bytes d) ≤ zlen image →
  slice image o (zlen (descriptor_bytes d)) = descriptor_bytes d →
  avb_property_descriptor_validate_and_byteswap (drop (Z.to_nat o) image) =
  Ret (Some (mkProperty (mkDescriptor 0 (zlen (property_payload key value pad)))
               (zlen key) (zlen value))).
Proof.
  intros Ho Hp Hm d Hi E.
  destruct (property_fields image o key value pad) as (F0 & F8 & F16 & F24 & _); [done..|].
  pose proof (zlen_descriptor d) as Hd. change d.2 with (property_payload key value pad) in Hd.
  assert (zlen (property_payload key value pad) = 18 + zlen key + zlen value + zlen pad) as El
    by (unfold property_payload; autorewrite with bytes; lia).
  pose proof (zlen_nonneg key). pose proof (zlen_nonneg value). pose proof (zlen_nonneg pad).
  unfold avb_property_descriptor_validate_and_byteswap,
    sizeof_AvbPropertyDescriptor, sizeof_AvbDescriptor.
  rewrite validate_descriptor_spec; cbn [key_num_bytes value_num_bytes];
    rewrite ?be64_at_prefix, ?be64_at_drop, ?Z.add_0_r by lia;
    rewrite ?F0, ?F8, ?F16, ?F24;
    [|rewrite zlen_drop by lia; unfold sizeof_AvbDescriptor; lia|done|].
  - rewrite bool_decide_true; [done|]. cbn [tag num_bytes_following zsum foldr].
    split; [done|]. split; [done|]. split; [done|]. lia.
  - unfold is_u64 in *. repeat constructor; lia.
Qed.

Lemma property_visited image key' o key value pad (u : PropertyIteratorData) :
  0 ≤ o → is_u64 (zlen (property_payload key value pad)) →
  zlen (property_payload key value pad) mod 8 = 0 →
  let d := item_descriptor (Property key value pad) in
  o + zlen (descriptor_bytes d) ≤ zlen image →
  slice image o (zlen (descriptor_bytes d)) = descriptor_bytes d →
  property_lookup_desc_foreach image key' (zlen key') o u =
  Ret (if decide (key = key')
       then (false, mkPropertyData (Some (o + 32 + zlen key + 1)) (zlen value)) else (true, u)).
Proof.
  intros Ho Hp Hm d Hi E. pose proof (property_validates image o key value pad Ho Hp Hm Hi E) as Ev.
  destruct (property_fields image o key value pad) as (F0 & _ & _ & _ & Fk & Fn & _); [done..|].
  pose proof (zlen_descriptor d) as Hd. change d.2 with (property_payload key value pad) in Hd.
  assert (zlen (property_payload key value pad) = 18 + zlen key + zlen value + zlen pad) as El
    by (unfold property_payload; autorewrite with bytes; lia).
  pose proof (zlen_nonneg key). pose proof (zlen_nonneg value). pose proof (zlen_nonneg pad).
  unfold property_lookup_desc_foreach, sizeof_AvbPropertyDescriptor.
  erewrite comp_bind_run by (apply lift_run, rd_ok; lia).
  rewrite (descriptor_tag _ _ d Ho E).
  change (le_decode (be_encode 8 d.1) =? AVB_DESCRIPTOR_TAG_PROPERTY) with true. cbn [negb].
  erewrite comp_bind_run by (apply lift_run, Ev). cbn [key_num_bytes value_num_bytes].
  erewrite comp_bind_run by (apply lift_run, rd_ok; lia). rewrite Fn.
  change (negb (le_decode [0] =? 0)) with false. cbv iota.
  destruct (Z.eqb_spec (zlen key') (zlen key)) as [Ek|Ek].
  - assert (avb_memcmp_eq (drop (Z.to_nat (o + 32)) image) key' (zlen key') =
      Ret (bool_decide (key = key'))) as Ec.
    { unfold avb_memcmp_eq. rewrite (rd_ok (drop _ _)) by (rewrite ?zlen_drop; lia).
      cbn [mbind run_bind]. rewrite (rd_ok key') by lia. cbn [mbind run_bind mret run_ret].
      rewrite slice_drop, Z.add_0_r, slice_all, Ek, Fk by lia. done. }
    erewrite comp_bind_run by (apply lift_run, Ec).
    case_bool_decide; destruct (decide (key = key')); done.
  - destruct (decide (key = key')) as [->|]; done.
Qed.

Lemma walk_properties image key items off (u : PropertyIteratorData) :
  0 ≤ off → Forall item_ok items → Forall descriptor_wf (item_descriptor <$> items) →
  let area := descriptor_area (item_descriptor <$> items) in
  off + zlen area ≤ zlen image → zlen image < 0x10000000000000000 →
  slice image off (zlen area) = area →
  walk (property_lookup_desc_foreach image key (zlen key))
    (descriptor_offsets off (item_descriptor <$> items)) u =
  Ret (match find_property key off items with
       | Some (o, n) => (false, mkPropertyData (Some o) n)
       | None => (true, u)
       end).
Proof.
  intros Ho Hok. revert off Ho. induction Hok as [|it items Hit Hok IH]; intros off Ho Hwf area Hb Hz Ha;
    [done|]. cbn [fmap list_fmap] in *. apply Forall_cons in Hwf as [Hd Hwf].
  apply descriptor_area_cons in Ha as (Ed & _ & Ha); [|done].
  unfold area in Hb. change (descriptor_area (item_descriptor it :: ?l))
    with (descriptor_bytes (item_descriptor it) ++ descriptor_area l) in Hb.
  rewrite zlen_app in Hb. pose proof (zlen_descriptor (item_descriptor it)) as El.
  pose proof (zlen_nonneg (item_descriptor it).2).
  pose proof (zlen_nonneg (descriptor_area (item_descriptor <$> items))).
  specialize (IH (off + zlen (descriptor_bytes (item_descriptor it)))).
  cbn [descriptor_offsets walk find_property].
  destruct it as [t payload|k v pad]; cbn [item_ok] in Hit.
  - erewrite comp_bind_run by (apply (other_skipped image key _ off t payload u Hit);
      [apply Hd|done|lia|exact Ed]).
    apply IH; [lia|done|lia|done|exact Ha].
  - destruct Hd as (_ & Hm & _). cbn [item_descriptor snd] in Hm.
    pose proof (property_visited image key off k v pad u Ho) as Ev.
    destruct (decide (k = key));
      erewrite comp_bind_run by (apply Ev;
        [unfold is_u64; change (property_payload k v pad) with (item_descriptor (Property k v pad)).2;
         lia|done|lia|exact Ed]); [done|].
    apply IH; [lia|done|lia|done|exact Ha].
Qed.

(** Looking up a property in an image with well-formed descriptors ends and
    gives the value of the first property with that key, or NULL and size 0 when
    there is none; what the uninitialised local held does not matter. *)
Theorem avb_property_lookup_correct image ptr size start items fuel data key key_size :
  holds_descriptors image ptr size start (item_descriptor <$> items) → Forall item_ok items →
  zlen image < 0x10000000000000000 → (length items < fuel)%nat →
  key_size = 0 ∨ key_size = zlen key →
  avb_property_lookup image ptr data fuel size key key_size =
  Ret (match find_property key start items with Some (o, n) => (Some o, n) | None => (None, 0) end).
Proof.
  intros Hh Hok Hz Hf Hk. unfold avb_property_lookup.
  assert ((if key_size =? 0 then zlen key else key_size) = zlen key) as ->
    by (destruct (Z.eqb_spec key_size 0), Hk; congruence).
  rewrite (foreach_image _ _ _ _ _ _ _ _ Hh) by (by rewrite length_fmap).
  destruct Hh as [_ Es _ Ha _ Hb _ Hwf].
  assert (is_u64 (be64_at image 12) ∧ is_u64 (be64_at image 96)) as [[H1 _] [H2 _]]
    by (unfold be64_at; auto with words).
  unfold AVB_VBMETA_IMAGE_HEADER_SIZE in Es.
  rewrite walk_properties by (done || lia).
  cbn [mbind run_bind]. by destruct (find_property key start items) as [[o n]|].
Qed.

(** When the walk stops before a match, for instance because the image has
    no vbmeta magic, [avb_property_lookup] returns the uninitialised local
    variable as if it were the value. *)
Theorem property_lookup_returns_garbage image ptr data fuel size key key_size :
  AVB_VBMETA_IMAGE_HEADER_SIZE ≤ size ≤ zlen image → slice image 0 4 ≠ AVB_MAGIC →
  avb_property_lookup image ptr data fuel size key key_size =
  Ret (ret_value data, ret_value_size data).
Proof.
  unfold AVB_VBMETA_IMAGE_HEADER_SIZE. intros Hs Hm. unfold avb_property_lookup.
  assert (avb_memcmp_eq image AVB_MAGIC AVB_MAGIC_LEN = Ret false) as Ec.
  { unfold avb_memcmp_eq, AVB_MAGIC_LEN. rewrite (rd_ok image) by lia.
    cbn [mbind run_bind]. change (rd AVB_MAGIC 0 4) with (Ret AVB_MAGIC).
    cbn [mbind run_bind]. by rewrite bool_decide_false. }
  unfold avb_descriptor_foreach, AVB_VBMETA_IMAGE_HEADER_SIZE.
  rewrite (proj2 (Z.ltb_ge size 256)) by lia.
  erewrite comp_bind_run by (apply lift_run, Ec). done.
Qed.

Lemma property_lookup_returns_garbage_witness :
  avb_property_lookup (replicate 256 0) 0x1000 (mkPropertyData (Some 0xdead) 0xbeef) 0 256
    (str "key") 3 = Ret (Some 0xdead, 0xbeef).
Proof. apply property_lookup_returns_garbage; [split; vm_compute; discriminate|done]. Defined.

(** An image with two properties. *)
Definition demo_items : list item :=
  [Other AVB_DESCRIPTOR_TAG_HASH (replicate 8 1); Property (str "a") (str "1") (replicate 4 0);
   Property (str "key") (str "42") [0]].

Definition property_image : bytes :=
  AVB_MAGIC ++ be_encode 4 1 ++ be_encode 4 0 ++ be_encode 8 0 ++ be_encode 8 128 ++
  be_encode 4 AVB_ALGORITHM_TYPE_NONE ++
  concat (be_encode 8 <$> [0; 0; 0; 0; 0; 0; 0; 0; 0; 104; 0]) ++ replicate 136 0 ++
  descriptor_area (item_descriptor <$> demo_items) ++ replicate 24 0.

Lemma avb_property_lookup_correct_witness :
  avb_property_lookup property_image 0x1000 (mkPropertyData None 0) 4 384 (str "key") 0 =
    Ret (Some 356, 2) ∧ slice property_image 356 2 = str "42".
Proof.
  split; [|by vm_compute].
  refine (avb_property_lookup_correct property_image 0x1000 384 256 demo_items 4
    (mkPropertyData None 0) (str "key") 0 _ _ _ _ (or_introl eq_refl)).
  - constructor; [by vm_compute|by vm_compute|by vm_compute|by vm_compute|done|by vm_compute|done|].
    repeat constructor; done || (split; vm_compute; congruence).
  - repeat constructor. done.
  - by vm_compute.
  - simpl. lia.
Defined.

(** The numeric lookup on that image. *)
Example property_lookup_uint64_example :
  avb_property_lookup_uint64 property_image 0x1000 (mkPropertyData None 0) 4 384 (str "key") 3 =
  Ret (Some 42).
Proof. by vm_compute. Qed.

(** ** Where the descriptors are *)

(** The loop hands out addresses inside of the area only, and the address behind
    each descriptor, computed modulo [2^64], is in the area again. *)
Definition visited (image : bytes) (ptr start stop p : Z) : Prop :=
  start ≤ p < stop
  ∧ start ≤ u64 (u64 (sizeof_AvbDescriptor + be64_at image (p - ptr + 8)) + p) ≤ stop.

Lemma foreach_loop_visits {U} (f : Z → comp U bool) image ptr start stop (I : U → Prop) fuel p (u : U) b u' :
  (∀ p u b u', visited image ptr start stop p → I u → f (p - ptr) u = Ret (b, u') → I u') →
  start ≤ p → I u → foreach_loop f image ptr fuel start stop p u = Ret (b, u') → I u'.
Proof.
  intros Hf. revert p u. induction fuel as [|fuel IH]; intros p u Hp Hu E; [discriminate E|].
  cbn [foreach_loop] in E. destruct (Z.ltb_spec p stop) as [Hlt|_]; [|by injection E as _ <-].
  apply comp_bind_Ret in E as ([] & u0 & E1 & E). apply assert_Ret in E1 as [_ [= ->]].
  apply comp_bind_Ret in E as (x & u1 & E1 & E). apply lift_Ret in E1 as (x' & E1 & [= -> ->]).
  apply rd_Ret in E1 as (_ & _ & _ & ->). fold (be64_at image (p - ptr + 8)) in E.
  destruct (negb _); [by injection E as _ <-|].
  set (next := u64 (_ + p)) in E.
  destruct (Z.ltb_spec next start); [by injection E as _ <-|].
  destruct (Z.ltb_spec stop next); [by injection E as _ <-|]. cbn [orb] in E.
  apply comp_bind_Ret in E as (c & u1 & E1 & E).
  assert (I u1) as Hu1 by (eapply Hf; [|exact Hu|exact E1]; split; [lia|]; fold next; lia).
  destruct c; cbn [negb] in E; [|by injection E as _ <-].
  rewrite (Z.add_comm p) in E. fold next in E. by eapply IH in E.
Qed.

(** The offset [off] is that of a descriptor in the area the header of the image
    gives, whose own length stays inside of the area unless it is so large that
    the address behind it wraps. *)
Definition descriptor_place (image : bytes) (off : Z) : Prop :=
  let first := u64 (AVB_VBMETA_IMAGE_HEADER_SIZE + be64_at image 12 + be64_at image 96) in
  let next := first + be64_at image 104 in
  let total := sizeof_AvbDescriptor + be64_at image (off + 8) in
  first ≤ off < next ∧ (total ≤ 2 ^ 63 → off + total ≤ next).

Lemma foreach_visits {U} (f : Z → comp U bool) image ptr size (I : U → Prop) fuel (u : U) b u' :
  0 ≤ ptr → 0 ≤ size < 2 ^ 63 → ptr + size < 2 ^ 64 →
  (∀ off u b u', descriptor_place image off → I u → f off u = Ret (b, u') → I u') →
  I u → avb_descriptor_foreach f image ptr fuel size u = Ret (b, u') → I u'.
Proof.
  intros Hptr Hsize Hend Hf Hu E. unfold avb_descriptor_foreach in E.
  destruct (_ <? _); [by injection E as _ <-|].
  apply comp_bind_Ret in E as (a & u1 & E1 & E). apply lift_Ret in E1 as (same & _ & [= -> ->]).
  destruct same; cbn [negb] in E; [|by injection E as _ <-].
  apply comp_bind_Ret in E as ([] & u1 & E1 & E). apply assert_Ret in E1 as [_ [= ->]].
  apply comp_bind_Ret in E as (h & u1 & E1 & E). apply lift_Ret in E1 as (? & E1 & [= -> ->]).
  apply rd_Ret in E1 as (_ & _ & _ & ->).
  rewrite !be64_at_prefix in E by done.
  assert (is_u64 (be64_at image 12) ∧ is_u64 (be64_at image 96) ∧ is_u64 (be64_at image 104))
    as (W1 & W2 & W3) by (unfold be64_at; auto with words).
  unfold AVB_VBMETA_IMAGE_HEADER_SIZE in *. unfold is_u64 in *.
  set (x := 256 + be64_at image 12 + be64_at image 96) in *.
  replace (ptr + 256 + be64_at image 12 + be64_at image 96) with (ptr + x) in E by lia.
  rewrite (u64_small (ptr + size)) in E by (unfold is_u64; lia).
  set (start := u64 (ptr + x)) in *. set (stop := u64 (start + be64_at image 104)) in *.
  destruct (Z.ltb_spec start ptr); [by injection E as _ <-|].
  destruct (Z.ltb_spec (ptr + size) start); [by injection E as _ <-|].
  destruct (Z.ltb_spec stop ptr); [by injection E as _ <-|].
  destruct (Z.ltb_spec (ptr + size) stop); [by injection E as _ <-|].
  destruct (Z.ltb_spec stop start); [by injection E as _ <-|]. cbn [orb] in E.
  assert (start = ptr + u64 x) as Est.
  { pose proof (u64_range x) as Hx. unfold is_u64 in Hx. unfold start in *.
    assert (u64 (ptr + x) = u64 (ptr + u64 x)) as Ex by (unfold u64; by rewrite Zplus_mod_idemp_r).
    rewrite Ex in *. destruct (Z_lt_le_dec (ptr + u64 x) 0x10000000000000000).
    - apply u64_small. unfold is_u64. lia.
    - exfalso. replace (u64 (ptr + u64 x)) with (ptr + u64 x - 0x10000000000000000) in *; [lia|].
      apply Z.mod_unique_pos with 1; lia. }
  assert (stop = start + be64_at image 104) as Esp.
  { unfold stop in *. destruct (Z_lt_le_dec (start + be64_at image 104) 0x10000000000000000).
    - apply u64_small. unfold is_u64. lia.
    - exfalso. replace (u64 (start + be64_at image 104)) with (start + be64_at image 104 - 0x10000000000000000) in *;
        [lia|]. apply Z.mod_unique_pos with 1; lia. }
  eapply foreach_loop_visits in E; [exact E| |lia|exact Hu].
  intros p v c v' [[Hp1 Hp2] Hn] Hv Ef. eapply Hf; [|exact Hv|exact Ef]. unfold descriptor_place.
  unfold AVB_VBMETA_IMAGE_HEADER_SIZE. fold x. split; [lia|]. intros Ht.
  set (total := sizeof_AvbDescriptor + _) in *.
  assert (0 ≤ total) by (unfold total, sizeof_AvbDescriptor;
    assert (is_u64 (be64_at image (p - ptr + 8))) as [? _] by (unfold be64_at; auto with words); lia).
  rewrite (u64_small total) in Hn by (unfold is_u64; lia).
  destruct (Z_lt_le_dec (total + p) 0x10000000000000000) as [Hc|Hc].
  - rewrite u64_small in Hn by (unfold is_u64; lia). lia.
  - exfalso. replace (u64 (total + p)) with (total + p - 0x10000000000000000) in Hn; [lia|].
    apply Z.mod_unique_pos with 1; lia.
Qed.

Lemma get_all_places {W} `{Heap W} fuel image ptr size (w : W) ds num w' :
  0 ≤ ptr → 0 ≤ size < 2 ^ 63 → ptr + size < 2 ^ 64 →
  avb_descriptor_get_all fuel image ptr size w = Ret (Some (ds, num), w') →
  Forall (fun o => ∀ off, o = Some off → descriptor_place image off) ds.
Proof.
  intros Hptr Hsize Hend E. unfold avb_descriptor_get_all in E.
  apply comp_bind_Ret in E as (r & w1 & _ & E). apply comp_bind_Ret in E as (ok & w2 & _ & E).
  destruct ok; [|discriminate E].
  apply comp_bind_Ret in E as ([b data] & w3 & E1 & E). apply lift_Ret in E1 as ([b' data'] & E1 & Eq).
  injection Eq as -> -> ->. apply comp_bind_Ret in E as ([] & w4 & _ & E). injection E as <- _ _.
  eapply (foreach_visits set_descriptors _ _ _
    (λ data, Forall (fun o => ∀ off, o = Some off → descriptor_place image off) (descriptors data)))
    in E1; [exact E1|done..| |].
  - intros off u c u' Hp Hu Es. unfold set_descriptors in Es. destruct (_ <? _); [|discriminate Es].
    injection Es as _ <-. cbn [descriptors]. apply Forall_insert; [done|]. by intros off' [= <-].
  - cbn [descriptors]. by apply Forall_replicate.
Qed.
