(* ===== verification/AvbOps.v ===== *)
(** * Operations and results of slot verification (include/libavb/avb_ops.h,
    avb_slot_verify.h)

    The platform operations libavb is given, as a class over the world they
    act on, and the data [avb_slot_verify] fills in.  A buffer an operation
    writes to is returned with its contents afterwards; an operation that may
    be absent is an option. *)

From S2P Require Import Prelude AvbUtil Vbmeta.

Inductive AvbIOResult :=
| AVB_IO_RESULT_OK
| AVB_IO_RESULT_ERROR_OOM
| AVB_IO_RESULT_ERROR_IO
| AVB_IO_RESULT_ERROR_NO_SUCH_PARTITION
| AVB_IO_RESULT_ERROR_RANGE_OUTSIDE_PARTITION
| AVB_IO_RESULT_ERROR_NO_SUCH_VALUE
| AVB_IO_RESULT_ERROR_INVALID_VALUE_SIZE
| AVB_IO_RESULT_ERROR_INSUFFICIENT_SPACE.

#[export] Instance AvbIOResult_eq_dec : EqDecision AvbIOResult.
Proof. solve_decision. Defined.

(** The operations used by the verification.  [read_from_partition partition
    offset num_bytes] gives the contents of the [num_bytes] long buffer and
    [*out_num_read]; [get_preloaded_partition] the buffer it points to, if
    any, and the number of bytes in it. *)
Class AvbOps (W : Type) := {
  read_from_partition : bytes → Z → Z → comp W (AvbIOResult * (bytes * Z));
  get_preloaded_partition : option (bytes → Z → comp W (AvbIOResult * (option bytes * Z)));
  validate_vbmeta_public_key : bytes → option bytes → comp W (AvbIOResult * bool);
  read_rollback_index : Z → comp W (AvbIOResult * Z);
  read_is_device_unlocked : comp W (AvbIOResult * bool);
  get_unique_guid_for_partition : bytes → Z → comp W (AvbIOResult * bytes);
  get_size_of_partition : option (bytes → comp W (AvbIOResult * Z));
  read_persistent_value : option (bytes → Z → comp W (AvbIOResult * (bytes * Z)));
}.

Inductive AvbSlotVerifyResult :=
| AVB_SLOT_VERIFY_RESULT_OK
| AVB_SLOT_VERIFY_RESULT_ERROR_OOM
| AVB_SLOT_VERIFY_RESULT_ERROR_IO
| AVB_SLOT_VERIFY_RESULT_ERROR_VERIFICATION
| AVB_SLOT_VERIFY_RESULT_ERROR_ROLLBACK_INDEX
| AVB_SLOT_VERIFY_RESULT_ERROR_PUBLIC_KEY_REJECTED
| AVB_SLOT_VERIFY_RESULT_ERROR_INVALID_METADATA
| AVB_SLOT_VERIFY_RESULT_ERROR_UNSUPPORTED_VERSION
| AVB_SLOT_VERIFY_RESULT_ERROR_INVALID_ARGUMENT.

#[export] Instance AvbSlotVerifyResult_eq_dec : EqDecision AvbSlotVerifyResult.
Proof. solve_decision. Defined.

Inductive AvbHashtreeErrorMode :=
| AVB_HASHTREE_ERROR_MODE_RESTART_AND_INVALIDATE
| AVB_HASHTREE_ERROR_MODE_RESTART
| AVB_HASHTREE_ERROR_MODE_EIO
| AVB_HASHTREE_ERROR_MODE_LOGGING.

#[export] Instance AvbHashtreeErrorMode_eq_dec : EqDecision AvbHashtreeErrorMode.
Proof. solve_decision. Defined.

Definition AVB_SLOT_VERIFY_FLAGS_ALLOW_VERIFICATION_ERROR : Z := 1.
Definition AVB_MAX_NUMBER_OF_ROLLBACK_INDEX_LOCATIONS : Z := 32.
Definition AVB_NPV_PERSISTENT_DIGEST_PREFIX : bytes := str "avb.persistent_digest.".
Definition AVB_VBMETA_IMAGE_FLAGS_HASHTREE_DISABLED : Z := 1.
Definition AVB_VBMETA_IMAGE_FLAGS_VERIFICATION_DISABLED : Z := 2.

(** Strings that come from [avb_strdup] may be NULL. *)
Record AvbPartitionData := mkPartition {
  loaded_name : option bytes;
  loaded_data : bytes;
  loaded_size : Z;
  preloaded : bool;
}.

Record AvbVBMetaData := mkVBMeta {
  vbmeta_partition_name : option bytes;
  vbmeta_data : bytes;
  vbmeta_data_size : Z;
  verify_result : AvbVBMetaVerifyResult;
}.

(** The two arrays are the lists of their used entries. *)
Record AvbSlotVerifyData := mkSlotData {
  ab_suffix : option bytes;
  vbmeta_images : list AvbVBMetaData;
  loaded_partitions : list AvbPartitionData;
  cmdline : option bytes;
  rollback_indexes : list Z;
}.

(** [flags & mask] as a condition. *)
Definition has_flag (flags mask : Z) : bool := negb (Z.land flags mask =? 0).
