(* ===== verification/Cmdline.v ===== *)
(** * The kernel command line (lib/libavb/avb_cmdline.c)

    Substitution of variables and the options slot verification adds. *)

From S2P Require Import Prelude AvbUtil Sha2 Vbmeta AvbOps.

Definition NUM_GUIDS : Z := 3.
Definition AVB_PART_NAME_MAX_SIZE : Z := 32.
Definition AVB_MAX_NUM_CMDLINE_SUBST : Z := 10.
Definition AVB_MAX_DIGITS_UINT64 : Z := 32.

(** The token and value pairs in use. *)
Definition AvbCmdlineSubstList : Type := list (bytes * bytes).

Definition sizeof_AvbCmdlineSubstList : Z := 8 + 2 * 8 * AVB_MAX_NUM_CMDLINE_SUBST.

(** [avb_str_concat] into a local [char part_name[AVB_PART_NAME_MAX_SIZE]]: the
    string it then holds. *)
Definition concat_part_name (str1 : bytes) (str1_len : Z) (ab_suffix : bytes) : run (option bytes) :=
  r ← avb_str_concat (replicate (Z.to_nat AVB_PART_NAME_MAX_SIZE) 0) AVB_PART_NAME_MAX_SIZE
        str1 str1_len ab_suffix (zlen ab_suffix);
  if negb r.1 then mret None else s ← c_str r.2; mret (Some s).

(** ** Numbers *)

(** The digits in the order they are produced, the last one first. *)
Fixpoint rev_digits (n : nat) (value : Z) : bytes :=
  match n with
  | O => []
  | S n =>
      let '(remainder, value) := avb_div_by_10 value in
      (remainder + 0x30) :: if value =? 0 then [] else rev_digits n value
  end.

Definition uint64_to_base10 (value : Z) : bytes :=
  rev (rev_digits (Z.to_nat (AVB_MAX_DIGITS_UINT64 - 1)) value).

Section Cmdline.
Context {W : Type} `{Heap W} `{AvbOps W}.

(** ** Substitution *)

(** The loop over the GUIDs: names and patterns still to be handled; [ret] is
    the string so far, NULL before the first turn. *)
Fixpoint sub_guids (cmdline ab_suffix : bytes) (guids : list (bytes * bytes)) (ret : option bytes)
    : comp W (option bytes) :=
  match guids with
  | [] => mret ret
  | (part_name_str, replace_str) :: guids =>
      part_name ← lift (concat_part_name part_name_str (zlen part_name_str) ab_suffix);
      match part_name with
      | None => mret None
      | Some part_name =>
          io ← get_unique_guid_for_partition part_name 37;
          let '(io_ret, guid_buf) := io in
          if negb (bool_decide (io_ret = AVB_IO_RESULT_OK)) then mret None
          else
            ret ← match ret with
                  | None => avb_replace cmdline replace_str guid_buf
                  | Some ret => avb_replace ret replace_str guid_buf
                  end;
            match ret with
            | None => mret None
            | Some _ => sub_guids cmdline ab_suffix guids ret
            end
      end
  end.

Fixpoint sub_additional (ret : bytes) (substs : AvbCmdlineSubstList) : comp W (option bytes) :=
  match substs with
  | [] => mret (Some ret)
  | (token, value) :: substs =>
      new_ret ← avb_replace ret token value;
      match new_ret with
      | None => mret None
      | Some ret => sub_additional ret substs
      end
  end.

Definition avb_sub_cmdline (cmdline ab_suffix : bytes) (using_boot_for_vbmeta : bool)
    (additional_substitutions : AvbCmdlineSubstList) : comp W (option bytes) :=
  let guids :=
    [(str "system", str "PARTUUID=$(ANDROID_SYSTEM_PARTUUID)");
     (str "boot", str "PARTUUID=$(ANDROID_BOOT_PARTUUID)");
     (if using_boot_for_vbmeta then str "boot" else str "vbmeta",
      str "PARTUUID=$(ANDROID_VBMETA_PARTUUID)")] in
  ret ← sub_guids cmdline ab_suffix guids None;
  match ret with
  | None => mret None
  | Some ret => sub_additional ret additional_substitutions
  end.

(** ** Options *)

(** The success flag and the new [slot_data->cmdline]. *)
Definition cmdline_append_option (cmdline : option bytes) (key value : bytes)
    : comp W (bool * option bytes) :=
  let offset := match cmdline with
                | Some c => if 0 <? zlen c then u64 (zlen c + 1) else zlen c
                | None => 0
                end in
  new_cmdline ← avb_calloc (u64 (offset + zlen key + zlen value + 2));
  match new_cmdline with
  | None => mret (false, cmdline)
  | Some _ =>
      let option_ := key ++ str "=" ++ value in
      mret (true, Some (match cmdline with
                        | Some c => if 0 <? offset then c ++ str " " ++ option_ else option_
                        | None => option_
                        end))
  end.

Definition cmdline_append_version (cmdline : option bytes) (key : bytes)
    (major_version minor_version : Z) : comp W (bool * option bytes) :=
  cmdline_append_option cmdline key
    (uint64_to_base10 major_version ++ str "." ++ uint64_to_base10 minor_version).

Definition cmdline_append_uint64_base10 (cmdline : option bytes) (key : bytes) (value : Z)
    : comp W (bool * option bytes) :=
  cmdline_append_option cmdline key (uint64_to_base10 value).

Definition cmdline_append_hex (cmdline : option bytes) (key data : bytes)
    : comp W (bool * option bytes) :=
  hex_data ← avb_bin2hex data;
  match hex_data with
  | None => mret (false, cmdline)
  | Some hex_data => cmdline_append_option cmdline key hex_data
  end.

(** [if (!append(...)) { ret = ERROR_OOM; goto out; }] and what follows. *)
Definition append_or_oom (append : comp W (bool * option bytes))
    (k : option bytes → comp W (AvbSlotVerifyResult * option bytes))
    : comp W (AvbSlotVerifyResult * option bytes) :=
  r ← append;
  let '(ok, cmdline) := r in
  if negb ok then mret (AVB_SLOT_VERIFY_RESULT_ERROR_OOM, cmdline) else k cmdline.

(** The loop over the vbmeta images: the hash context and the total size. *)
Fixpoint hash_vbmeta_images (p : Sha2) (images : list AvbVBMetaData) (ctx : ShaCtx) (total_size : Z)
    : run (ShaCtx * Z) :=
  match images with
  | [] => Ret (ctx, total_size)
  | image :: images =>
      ctx ← avb_sha_update p ctx (vbmeta_data image) (u32 (vbmeta_data_size image));
      hash_vbmeta_images p images ctx (u64 (total_size + vbmeta_data_size image))
  end.

(** One case of the switch on the algorithm. *)
Definition append_vbmeta_digest (p : Sha2) (hash_alg : bytes) (images : list AvbVBMetaData)
    (cmdline : option bytes) (k : option bytes → comp W (AvbSlotVerifyResult * option bytes))
    : comp W (AvbSlotVerifyResult * option bytes) :=
  r ← lift (hash_vbmeta_images p images (avb_sha_init p) 0);
  let '(ctx, total_size) := r in
  append_or_oom (cmdline_append_option cmdline (str "androidboot.vbmeta.hash_alg") hash_alg) (λ c,
  append_or_oom (cmdline_append_uint64_base10 c (str "androidboot.vbmeta.size") total_size) (λ c,
  digest ← lift (avb_sha_final p ctx);
  append_or_oom (cmdline_append_hex c (str "androidboot.vbmeta.digest") digest) k)).

Definition append_hash_options (algorithm_type : Z) (images : list AvbVBMetaData)
    (cmdline : option bytes) (k : option bytes → comp W (AvbSlotVerifyResult * option bytes))
    : comp W (AvbSlotVerifyResult * option bytes) :=
  if (algorithm_type =? AVB_ALGORITHM_TYPE_NONE) ||
     (algorithm_type =? AVB_ALGORITHM_TYPE_SHA256_RSA2048) ||
     (algorithm_type =? AVB_ALGORITHM_TYPE_SHA256_RSA4096) ||
     (algorithm_type =? AVB_ALGORITHM_TYPE_SHA256_RSA8192)
  then append_vbmeta_digest SHA256 (str "sha256") images cmdline k
  else if (algorithm_type =? AVB_ALGORITHM_TYPE_SHA512_RSA2048) ||
          (algorithm_type =? AVB_ALGORITHM_TYPE_SHA512_RSA4096) ||
          (algorithm_type =? AVB_ALGORITHM_TYPE_SHA512_RSA8192)
  then append_vbmeta_digest SHA512 (str "sha512") images cmdline k
  else if algorithm_type =? AVB_ALGORITHM_NUM_TYPES then avb_abort
  else k cmdline.

(** The verity mode of the options and of dm-verity. *)
Definition verity_modes (mode : AvbHashtreeErrorMode) : bytes * bytes :=
  match mode with
  | AVB_HASHTREE_ERROR_MODE_RESTART_AND_INVALIDATE | AVB_HASHTREE_ERROR_MODE_RESTART =>
      (str "enforcing", str "restart_on_corruption")
  | AVB_HASHTREE_ERROR_MODE_EIO => (str "eio", str "ignore_zero_blocks")
  | AVB_HASHTREE_ERROR_MODE_LOGGING => (str "logging", str "ignore_corruption")
  end.

Definition append_verity_options (toplevel_flags : Z) (hashtree_error_mode : AvbHashtreeErrorMode)
    (cmdline : option bytes) : comp W (AvbSlotVerifyResult * option bytes) :=
  let finish (verity_mode : bytes) (c : option bytes) :
      comp W (AvbSlotVerifyResult * option bytes) :=
    append_or_oom (cmdline_append_option c (str "androidboot.veritymode") verity_mode)
      (λ c, mret (AVB_SLOT_VERIFY_RESULT_OK, c)) in
  if has_flag toplevel_flags AVB_VBMETA_IMAGE_FLAGS_HASHTREE_DISABLED
  then finish (str "disabled") cmdline
  else
    let '(verity_mode, dm_verity_mode) := verity_modes hashtree_error_mode in
    let substitute (c : option bytes) : comp W (AvbSlotVerifyResult * option bytes) :=
      match c with
      | None => null_deref
      | Some c =>
          new_ret ← avb_replace c (str "$(ANDROID_VERITY_MODE)") dm_verity_mode;
          match new_ret with
          | None => mret (AVB_SLOT_VERIFY_RESULT_ERROR_OOM, None)
          | Some _ => finish verity_mode new_ret
          end
      end in
    if bool_decide (hashtree_error_mode = AVB_HASHTREE_ERROR_MODE_RESTART_AND_INVALIDATE)
    then append_or_oom (cmdline_append_option cmdline
           (str "androidboot.vbmeta.invalidate_on_error") (str "yes")) substitute
    else substitute cmdline.

(** The result and the new command line of [slot_data]. *)
Definition avb_append_options (slot_data : AvbSlotVerifyData)
    (toplevel_vbmeta : AvbVBMetaImageHeader) (algorithm_type : Z)
    (hashtree_error_mode : AvbHashtreeErrorMode) : comp W (AvbSlotVerifyResult * option bytes) :=
  append_or_oom (cmdline_append_option (cmdline slot_data) (str "androidboot.vbmeta.device")
                   (str "PARTUUID=$(ANDROID_VBMETA_PARTUUID)")) (λ c,
  append_or_oom (cmdline_append_version c (str "androidboot.vbmeta.avb_version")
                   AVB_VERSION_MAJOR AVB_VERSION_MINOR) (λ c,
  io ← read_is_device_unlocked;
  let '(io_ret, is_device_unlocked) := io in
  match io_ret with
  | AVB_IO_RESULT_ERROR_OOM => mret (AVB_SLOT_VERIFY_RESULT_ERROR_OOM, c)
  | AVB_IO_RESULT_OK =>
      append_or_oom (cmdline_append_option c (str "androidboot.vbmeta.device_state")
                       (if (is_device_unlocked : bool) then str "unlocked" else str "locked")) (λ c,
      append_hash_options algorithm_type (vbmeta_images slot_data) c (λ c,
      append_verity_options (flags toplevel_vbmeta) hashtree_error_mode c))
  | _ => mret (AVB_SLOT_VERIFY_RESULT_ERROR_IO, c)
  end)).

(** ** The list of substitutions *)

Definition avb_new_cmdline_subst_list : comp W (option AvbCmdlineSubstList) :=
  p ← avb_calloc sizeof_AvbCmdlineSubstList;
  mret (match p with None => None | Some _ => Some [] end).

Definition avb_add_root_digest_substitution (part_name digest : bytes) (digest_size : Z)
    (subst : AvbCmdlineSubstList) : comp W (AvbSlotVerifyResult * AvbCmdlineSubstList) :=
  assert (zlen part_name <? AVB_PART_NAME_MAX_SIZE);;
  assert (digest_size <=? AVB_SHA512_DIGEST_SIZE);;
  if AVB_MAX_NUM_CMDLINE_SUBST <=? zlen subst
  then mret (AVB_SLOT_VERIFY_RESULT_ERROR_INVALID_METADATA, subst)
  else
    token ← avb_strdupv [str "$(AVB_"; part_name; str "_ROOT_DIGEST)"];
    match token with
    | None => mret (AVB_SLOT_VERIFY_RESULT_ERROR_OOM, subst)
    | Some token =>
        d ← lift (rd digest 0 digest_size);
        value ← avb_bin2hex d;
        match value with
        | None => mret (AVB_SLOT_VERIFY_RESULT_ERROR_OOM, subst)
        | Some value => mret (AVB_SLOT_VERIFY_RESULT_OK, subst ++ [(avb_uppercase token, value)])
        end
    end.

End Cmdline.
