(* ===== verification/CmdlineSpec.v ===== *)
(** * What the kernel is told about its verification

    The options [avb_append_options] adds to the command line, as text, and the
    effect of [avb_sub_cmdline]. *)

From S2P Require Import Prelude AvbUtil Sha2 Sha2Spec Vbmeta AvbOps Cmdline.

(** ** Numbers *)

(** The digits of a 64-bit number, by the loop of the code and by recursion. *)
Lemma rev_digits_dec n k v :
  0 ≤ v < 10 ^ Z.of_nat (S k) → (k < n)%nat → rev (rev_digits n v) = dec_digits (S k) v.
Proof.
  revert n v. induction k as [|k IH]; intros n v Hv Hk; (destruct n as [|n]; [lia|]);
    cbn [rev_digits avb_div_by_10]; unfold avb_div_by_10;
    pose proof (Z.mod_pos_bound v 10 ltac:(lia));
    rewrite u32_small by (unfold is_u32; lia); cbn [rev]; rewrite (Z.add_comm _ 48).
  - simpl in Hv. rewrite (Z.div_small v 10) by lia. cbn [dec_digits].
    by rewrite (proj2 (Z.ltb_lt v 10)) by lia.
  - change (dec_digits (S (S k)) v)
      with ((if v <? 10 then [] else dec_digits (S k) (v / 10)) ++ [48 + v mod 10]).
    f_equal. destruct (Z.ltb_spec v 10).
    + by rewrite Z.div_small by lia.
    + assert (1 ≤ v / 10) by (apply Z.div_le_lower_bound; lia).
      rewrite (proj2 (Z.eqb_neq (v / 10) 0)) by lia. apply IH; [|lia].
      rewrite (Nat2Z.inj_succ (S k)), Z.pow_succ_r in Hv by lia.
      split; [lia|]. apply Z.div_lt_upper_bound; lia.
Qed.

Lemma uint64_to_base10_dec v : is_u64 v → uint64_to_base10 v = dec_of_Z v.
Proof.
  intros Hv. unfold uint64_to_base10, dec_of_Z. apply rev_digits_dec; [|vm_compute; lia].
  unfold is_u64 in Hv. change (10 ^ Z.of_nat 20) with 100000000000000000000. lia.
Qed.

Lemma dec_digits_bound n v : (length (dec_digits n v) ≤ n)%nat.
Proof.
  revert v. induction n as [|n IH]; intros v; [done|]. simpl. rewrite length_app. simpl.
  destruct (v <? 10); simpl; [lia|]. specialize (IH (v / 10)). lia.
Qed.

(** ** The options *)

(** A command line with one more option. *)
Definition add_option (c : bytes) (option_ : bytes * bytes) : bytes :=
  (if bool_decide (c = []) then [] else c ++ str " ") ++ option_.1 ++ str "=" ++ option_.2.

Definition hex_of (data : bytes) : bytes :=
  concat (map (fun b => [hex_digits !!! Z.to_nat (Z.shiftr b 4);
                         hex_digits !!! Z.to_nat (Z.land b 0x0f)]) data).

(** The content of a loaded image. *)
Definition image_bytes (image : AvbVBMetaData) : bytes :=
  slice (vbmeta_data image) 0 (vbmeta_data_size image).

Definition image_sized (image : AvbVBMetaData) : Prop :=
  0 ≤ vbmeta_data_size image ≤ zlen (vbmeta_data image) ∧ vbmeta_data_size image < 0x80000000
  ∧ bytes_ok (vbmeta_data image).

(** The hash the options name: that of the signature of the main image. *)
Definition option_hash (algorithm_type : Z) : Sha2 * bytes :=
  if algorithm_type <=? AVB_ALGORITHM_TYPE_SHA256_RSA8192 then (SHA256, str "sha256")
  else (SHA512, str "sha512").

Definition digest_options (p : Sha2) (hash_alg data : bytes) : list (bytes * bytes) :=
  [ (str "androidboot.vbmeta.hash_alg", hash_alg);
    (str "androidboot.vbmeta.size", dec_of_Z (zlen data));
    (str "androidboot.vbmeta.digest", hex_of (sha2_digest p data)) ].

Definition first_options (unlocked : bool) : list (bytes * bytes) :=
  [ (str "androidboot.vbmeta.device", str "PARTUUID=$(ANDROID_VBMETA_PARTUUID)");
    (str "androidboot.vbmeta.avb_version",
     dec_of_Z AVB_VERSION_MAJOR ++ str "." ++ dec_of_Z AVB_VERSION_MINOR);
    (str "androidboot.vbmeta.device_state", if unlocked then str "unlocked" else str "locked") ].

(** The options about the images: where they are, the version of the verifier,
    the state of the device, and the size and the digest of all images. *)
Definition vbmeta_options (unlocked : bool) (algorithm_type : Z) (images : list AvbVBMetaData)
    : list (bytes * bytes) :=
  let '(p, hash_alg) := option_hash algorithm_type in
  first_options unlocked ++ digest_options p hash_alg (concat (image_bytes <$> images)).

(** The rest: the mode of dm-verity takes the place of its variable. *)
Definition verity_text (toplevel_flags : Z) (mode : AvbHashtreeErrorMode) (c text : bytes) : Prop :=
  if has_flag toplevel_flags AVB_VBMETA_IMAGE_FLAGS_HASHTREE_DISABLED
  then text = add_option c (str "androidboot.veritymode", str "disabled")
  else
    let c := if bool_decide (mode = AVB_HASHTREE_ERROR_MODE_RESTART_AND_INVALIDATE)
             then add_option c (str "androidboot.vbmeta.invalidate_on_error", str "yes") else c in
    ∃ full, replaced (str "$(ANDROID_VERITY_MODE)") (verity_modes mode).2 c full
      ∧ text = add_option full (str "androidboot.veritymode", (verity_modes mode).1).

(** A length far from wrapping. *)
Definition short (c : bytes) (room : Z) : Prop := zlen c + room < 0x8000000000000000.

Lemma add_option_length c k v : zlen (add_option c (k, v)) ≤ zlen c + zlen k + zlen v + 2.
Proof.
  unfold add_option. case_bool_decide; subst; cbn [fst snd]; rewrite !zlen_app;
    rewrite ?zlen_app; change (zlen (str "=")) with 1; change (zlen (str " ")) with 1;
    rewrite ?zlen_nil; lia.
Qed.

Lemma hex_of_length data : zlen (hex_of data) = 2 * zlen data.
Proof.
  induction data as [|b data IH]; [done|]. unfold hex_of in *. cbn [map concat].
  rewrite zlen_app, IH, !zlen_cons, zlen_nil. lia.
Qed.

Lemma sha2_digest_bound p d : p = SHA256 ∨ p = SHA512 → zlen (sha2_digest p d) ≤ 64.
Proof.
  intros Hp. unfold zlen. rewrite (sha2_digest_length p d Hp). by destruct Hp as [-> | ->].
Qed.

(** The lengths while the options of the digest are added. *)
Lemma digest_options_room p hash_alg data c :
  (length hash_alg ≤ 8)%nat →
  zlen (foldl add_option c (take 1 (digest_options p hash_alg data))) ≤ zlen c + 40
  ∧ zlen (foldl add_option c (take 2 (digest_options p hash_alg data))) ≤ zlen c + 100.
Proof.
  intros Ha. set (c1 := add_option c (str "androidboot.vbmeta.hash_alg", hash_alg)).
  pose proof (add_option_length c (str "androidboot.vbmeta.hash_alg") hash_alg) as L1.
  pose proof (add_option_length c1 (str "androidboot.vbmeta.size") (dec_of_Z (zlen data))) as L2.
  pose proof (dec_digits_bound 20 (zlen data)) as Ld. fold (dec_of_Z (zlen data)) in Ld.
  change (zlen (str "androidboot.vbmeta.hash_alg")) with 27 in L1.
  change (zlen (str "androidboot.vbmeta.size")) with 23 in L2.
  assert (zlen hash_alg ≤ 8) by (unfold zlen; lia).
  assert (zlen (dec_of_Z (zlen data)) ≤ 20) by (unfold zlen at 1; lia).
  fold c1 in L1. cbn [digest_options take foldl]. fold c1. lia.
Qed.

Lemma digest_options_length p hash_alg data c :
  p = SHA256 ∨ p = SHA512 → (length hash_alg ≤ 8)%nat →
  zlen (foldl add_option c (digest_options p hash_alg data)) ≤ zlen c + 300.
Proof.
  intros Hp Ha. destruct (digest_options_room p hash_alg data c Ha) as [_ L2].
  cbn [digest_options take foldl] in *.
  set (c2 := add_option _ (str "androidboot.vbmeta.size", dec_of_Z (zlen data))) in *.
  pose proof (add_option_length c2 (str "androidboot.vbmeta.digest") (hex_of (sha2_digest p data))) as L3.
  change (zlen (str "androidboot.vbmeta.digest")) with 25 in L3.
  rewrite hex_of_length in L3. pose proof (sha2_digest_bound p data Hp). lia.
Qed.

Lemma first_options_room unlocked c :
  let c' n := foldl add_option c (take n (first_options unlocked)) in
  zlen (c' 1%nat) ≤ zlen c + 100 ∧ zlen (c' 2%nat) ≤ zlen c + 200 ∧ zlen (c' 3%nat) ≤ zlen c + 300.
Proof.
  cbn [first_options take foldl].
  set (o1 := (str "androidboot.vbmeta.device", _)). set (o2 := (str "androidboot.vbmeta.avb_version", _)).
  set (o3 := (str "androidboot.vbmeta.device_state", _)).
  pose proof (add_option_length c o1.1 o1.2) as L1.
  pose proof (add_option_length (add_option c o1) o2.1 o2.2) as L2.
  pose proof (add_option_length (add_option (add_option c o1) o2) o3.1 o3.2) as L3.
  rewrite <- (surjective_pairing o1) in L1. rewrite <- (surjective_pairing o2) in L2.
  rewrite <- (surjective_pairing o3) in L3.
  assert (zlen o1.1 + zlen o1.2 ≤ 98) by (by vm_compute).
  assert (zlen o2.1 + zlen o2.2 ≤ 98) by (by vm_compute).
  assert (zlen o3.1 + zlen o3.2 ≤ 98) by (by destruct unlocked; vm_compute).
  lia.
Qed.

Lemma option_hash_cases algorithm_type :
  ((option_hash algorithm_type).1 = SHA256 ∨ (option_hash algorithm_type).1 = SHA512)
  ∧ (length (option_hash algorithm_type).2 ≤ 8)%nat.
Proof. unfold option_hash. destruct (_ <=? _); cbn [fst snd]; (split; [auto|vm_compute; lia]). Qed.

(** The effect of a list of substitutions, one after the other. *)
Inductive substituted : list (bytes * bytes) → bytes → bytes → Prop :=
| substituted_nil s : substituted [] s s
| substituted_cons token value substs s s' full :
    replaced token value s s' → substituted substs s' full →
    substituted ((token, value) :: substs) s full.

Lemma substituted_app l1 l2 s s' full :
  substituted l1 s s' → substituted l2 s' full → substituted (l1 ++ l2) s full.
Proof. induction 1; intros; [done|]. cbn. econstructor; eauto. Qed.

Section Text.
Context {W : Type} `{Heap W} `{AvbOps W}.
Context (roomy : ∀ n (w : W), (heap_alloc n w).1 = true).

Lemma malloc_runs n (w : W) : ∃ w', malloc n w = Ret (true, w').
Proof.
  unfold malloc. specialize (roomy n w). destruct (heap_alloc n w) as [b w']. cbn in roomy. subst b.
  by exists w'.
Qed.

Lemma append_option_runs cmdline key value (w : W) :
  short (default [] cmdline) 1 →
  ∃ w', cmdline_append_option cmdline key value w
        = Ret ((true, Some (add_option (default [] cmdline) (key, value))), w').
Proof.
  intros Hs. unfold cmdline_append_option, avb_calloc, avb_malloc.
  destruct (malloc_runs (u64 ((match cmdline with
    | Some c => if 0 <? zlen c then u64 (zlen c + 1) else zlen c | None => 0 end)
      + zlen key + zlen value + 2)) w) as [w' E].
  exists w'. erewrite comp_bind_run by (erewrite comp_bind_run by exact E; reflexivity).
  cbv iota. unfold mret, comp_ret, add_option. cbn [fst snd].
  destruct cmdline as [[|b c]|]; cbn [default]; [done| |done].
  unfold short in Hs. cbn [default from_option] in Hs. pose proof (zlen_nonneg c).
  rewrite zlen_cons in *. change (id ?x) with x in *. rewrite zlen_cons in *.
  rewrite (proj2 (Z.ltb_lt 0 (1 + zlen c))) by lia.
  rewrite u64_small by (unfold is_u64; lia). rewrite (proj2 (Z.ltb_lt 0 _)) by lia.
  rewrite bool_decide_false by done. by rewrite <- !app_assoc.
Qed.

(** One option on a command line that is not NULL, and what follows. *)
Lemma append_or_oom_runs cmdline key value (k : option bytes → comp W (AvbSlotVerifyResult * option bytes))
    (w : W) :
  short (default [] cmdline) 1 →
  ∃ w', append_or_oom (cmdline_append_option cmdline key value) k w
        = k (Some (add_option (default [] cmdline) (key, value))) w'.
Proof.
  intros Hs. destruct (append_option_runs cmdline key value w Hs) as [w' E].
  exists w'. unfold append_or_oom. by rewrite (comp_bind_run _ _ _ _ _ E).
Qed.

Lemma append_hex_runs cmdline key data (w : W) :
  short (default [] cmdline) 1 →
  ∃ w', cmdline_append_hex cmdline key data w
        = Ret ((true, Some (add_option (default [] cmdline) (key, hex_of data))), w').
Proof.
  intros Hs. unfold cmdline_append_hex, avb_bin2hex, avb_malloc.
  destruct (malloc_runs (u64 (zlen data * 2 + 1)) w) as [w1 E1].
  destruct (append_option_runs cmdline key (hex_of data) w1 Hs) as [w2 E2].
  exists w2. by erewrite comp_bind_run by (erewrite comp_bind_run by exact E1; reflexivity).
Qed.

Lemma hash_images_absorb p (ok : sha2_ok p) images ctx d total :
  absorbed p ctx d → Forall image_sized images → is_u64 total →
  total + zlen (concat (image_bytes <$> images)) < 0x10000000000000000 →
  ∃ ctx', hash_vbmeta_images p images ctx total
          = Ret (ctx', total + zlen (concat (image_bytes <$> images)))
    ∧ absorbed p ctx' (d ++ concat (image_bytes <$> images)).
Proof.
  intros Ha Hi. revert ctx d total Ha.
  induction Hi as [|im images (Hs & Hlt & _) _ IH]; intros ctx d total Ha Ht Hb; cbn [hash_vbmeta_images].
  { exists ctx. cbn. by rewrite app_nil_r, Z.add_0_r. }
  rewrite fmap_cons in *. cbn [concat] in *. rewrite zlen_app in *.
  pose proof (zlen_nonneg (concat (image_bytes <$> images))).
  assert (Hz : zlen (image_bytes im) = vbmeta_data_size im) by (apply zlen_slice; lia).
  rewrite u32_small by (unfold is_u32; lia).
  destruct (update_slice p ok ctx d (vbmeta_data im) (vbmeta_data_size im) Ha) as (ctx1 & E & Ha1);
    [lia..|].
  rewrite E. cbn [mbind run_bind]. unfold is_u64 in Ht. rewrite u64_small by (unfold is_u64; lia).
  destruct (IH ctx1 _ (total + vbmeta_data_size im) Ha1) as (ctx' & E' & Ha');
    [unfold is_u64; lia|lia|].
  exists ctx'. rewrite E', Hz, Z.add_assoc. split; [done|]. by rewrite app_assoc.
Qed.

Lemma replace_runs (s search repl : bytes) (w : W) :
  search ≠ [] → ∃ full w', avb_replace s search repl w = Ret (Some full, w')
    ∧ replaced search repl s full.
Proof.
  intros Hne. destruct (replace_loop_spec search repl (length s) s None w Hne)
    as (o & w' & E & full & Hf & _ & Hh); [lia|].
  exists full, w'. by rewrite (Hh roomy) in E.
Qed.

(** A replacement no longer than what it replaces does not lengthen. *)
Lemma replaced_length search repl s full :
  replaced search repl s full → zlen repl ≤ zlen search → zlen full ≤ zlen s.
Proof. intros Hr Hl. induction Hr as [|b r f _ _ IH]; [lia|]. rewrite !zlen_app. lia. Qed.

(** Appending the digest: three options. *)
Lemma append_digest_runs p hash_alg images cmdline k (w : W) :
  p = SHA256 ∨ p = SHA512 → (length hash_alg ≤ 8)%nat →
  Forall image_sized images → 8 * zlen (concat (image_bytes <$> images)) < 0x100000000 →
  short (default [] cmdline) 1000 →
  ∃ w', append_vbmeta_digest p hash_alg images cmdline k w
        = k (Some (foldl add_option (default [] cmdline)
                     (digest_options p hash_alg (concat (image_bytes <$> images))))) w'.
Proof.
  intros Hp Halg Hi Hlen Hs.
  assert (sha2_ok p) as ok by (destruct Hp as [-> | ->]; [apply sha256_ok|apply sha512_ok]).
  set (data := concat (image_bytes <$> images)) in *. pose proof (zlen_nonneg data).
  destruct (digest_options_room p hash_alg data (default [] cmdline) Halg) as [L1 L2].
  cbn [digest_options take foldl] in L1, L2.
  unfold short in Hs.
  destruct (hash_images_absorb p ok images (avb_sha_init p) [] 0 (absorbed_init p ok) Hi)
    as (ctx & E & Ha); [by unfold is_u64; lia|fold data; lia|]. fold data in E, Ha.
  unfold append_vbmeta_digest. erewrite comp_bind_run by (apply lift_run; exact E). cbv iota.
  edestruct (append_or_oom_runs cmdline (str "androidboot.vbmeta.hash_alg") hash_alg) as [w1 ->];
    [unfold short; lia|].
  unfold cmdline_append_uint64_base10. rewrite Z.add_0_l, uint64_to_base10_dec by (unfold is_u64; lia).
  edestruct append_or_oom_runs as [w2 ->]; [unfold short; cbn [default from_option id]; lia|].
  assert (bytes_ok data) as Hb.
  { apply Forall_concat, Forall_fmap. eapply Forall_impl; [exact Hi|]. intros im (_ & _ & Hb). by apply slice_ok. }
  assert (avb_sha_final p ctx = Ret (sha2_digest p data)) as Ef
    by (rewrite (final_of_absorbed_standard p ok ctx data Ha) by lia; by rewrite padded_digest_fips).
  erewrite comp_bind_run by (apply lift_run; exact Ef).
  edestruct append_hex_runs as [w3 E3]; [|exists w3; unfold append_or_oom;
    by erewrite comp_bind_run by exact E3].
  unfold short. cbn [default from_option id]. lia.
Qed.

Lemma append_hash_runs algorithm_type images cmdline k (w : W) :
  0 ≤ algorithm_type < AVB_ALGORITHM_NUM_TYPES →
  Forall image_sized images → 8 * zlen (concat (image_bytes <$> images)) < 0x100000000 →
  short (default [] cmdline) 1000 →
  let '(p, hash_alg) := option_hash algorithm_type in
  ∃ w', append_hash_options algorithm_type images cmdline k w
        = k (Some (foldl add_option (default [] cmdline)
                     (digest_options p hash_alg (concat (image_bytes <$> images))))) w'.
Proof.
  intros Ha Hi Hlen Hs.
  assert (algorithm_type ∈ [0; 1; 2; 3; 4; 5; 6]) as Hin
    by (change AVB_ALGORITHM_NUM_TYPES with 7 in Ha; rewrite !elem_of_cons; lia).
  unfold append_hash_options.
  repeat (apply elem_of_cons in Hin as [->|Hin];
    [cbn [option_hash Z.leb Z.eqb orb]; apply append_digest_runs; auto; by vm_compute; lia|]).
  by apply elem_of_nil in Hin.
Qed.

Lemma verity_modes_short mode :
  zlen (verity_modes mode).2 ≤ zlen (str "$(ANDROID_VERITY_MODE)").
Proof. by destruct mode; vm_compute. Qed.

Lemma substitute_runs verity_mode dm c (w : W) :
  short c 1 → zlen dm ≤ zlen (str "$(ANDROID_VERITY_MODE)") →
  ∃ text w',
    (new_ret ← avb_replace c (str "$(ANDROID_VERITY_MODE)") dm;
     match new_ret with
     | None => mret (AVB_SLOT_VERIFY_RESULT_ERROR_OOM, None)
     | Some _ => append_or_oom (cmdline_append_option new_ret (str "androidboot.veritymode") verity_mode)
                   (λ c, mret (AVB_SLOT_VERIFY_RESULT_OK, c))
     end) w = Ret ((AVB_SLOT_VERIFY_RESULT_OK, Some text), w')
    ∧ ∃ full, replaced (str "$(ANDROID_VERITY_MODE)") dm c full
        ∧ text = add_option full (str "androidboot.veritymode", verity_mode).
Proof.
  intros Hs Hdm. unfold short in Hs.
  destruct (replace_runs c (str "$(ANDROID_VERITY_MODE)") dm w) as (full & w2 & E & Hr); [done|].
  pose proof (replaced_length _ _ _ _ Hr Hdm).
  erewrite comp_bind_run by exact E. cbv iota.
  edestruct append_or_oom_runs as [w3 ->]; [unfold short; cbn [default from_option id]; lia|].
  eexists _, w3. split; [reflexivity|]. by exists full.
Qed.

Lemma append_verity_runs toplevel_flags mode c (w : W) :
  short c 100 →
  ∃ text w', append_verity_options toplevel_flags mode (Some c) w
             = Ret ((AVB_SLOT_VERIFY_RESULT_OK, Some text), w')
    ∧ verity_text toplevel_flags mode c text.
Proof.
  intros Hs. unfold short in Hs. unfold append_verity_options, verity_text.
  destruct (has_flag toplevel_flags _).
  { edestruct append_or_oom_runs as [w1 ->]; [unfold short; cbn [default from_option id]; lia|].
    by eexists _, w1. }
  pose proof (verity_modes_short mode) as Hdm.
  destruct (verity_modes mode) as [verity_mode dm]. cbn [fst snd] in *.
  case_bool_decide; [|apply substitute_runs; [unfold short; lia|done]].
  edestruct append_or_oom_runs as [w1 ->]; [unfold short; cbn [default from_option id]; lia|].
  cbn [default from_option id]. apply substitute_runs; [|done].
  pose proof (add_option_length c (str "androidboot.vbmeta.invalidate_on_error") (str "yes")) as L.
  change (zlen (str "androidboot.vbmeta.invalidate_on_error")) with 38 in L.
  change (zlen (str "yes")) with 3 in L. unfold short. lia.
Qed.

(** With memory to spare, the command line given to the kernel is extended
    by exactly the documented options: they name the state the device reports,
    the version, the number of bytes of all vbmeta images and the digest of
    their content, and the verity mode, whose variable is replaced throughout. *)
Theorem avb_append_options_text slot_data toplevel_vbmeta algorithm_type mode unlocked (w : W) :
  0 ≤ algorithm_type < AVB_ALGORITHM_NUM_TYPES →
  Forall image_sized (vbmeta_images slot_data) →
  8 * zlen (concat (image_bytes <$> vbmeta_images slot_data)) < 0x100000000 →
  short (default [] (cmdline slot_data)) 2000 →
  (∀ w, ∃ w', read_is_device_unlocked w = Ret ((AVB_IO_RESULT_OK, unlocked), w')) →
  ∃ text w', avb_append_options slot_data toplevel_vbmeta algorithm_type mode w
             = Ret ((AVB_SLOT_VERIFY_RESULT_OK, Some text), w')
    ∧ verity_text (flags toplevel_vbmeta) mode
        (foldl add_option (default [] (cmdline slot_data))
           (vbmeta_options unlocked algorithm_type (vbmeta_images slot_data))) text.
Proof.
  intros Ha Hi Hlen Hs Hu. unfold avb_append_options. set (c0 := default [] (cmdline slot_data)) in *.
  destruct (first_options_room unlocked c0) as (L1 & L2 & L3). unfold short in Hs.
  cbn [first_options take foldl] in L1, L2, L3.
  edestruct append_or_oom_runs as [w1 ->]; [unfold short; fold c0; lia|]. fold c0.
  unfold cmdline_append_version.
  rewrite !uint64_to_base10_dec by (by unfold is_u64).
  edestruct append_or_oom_runs as [w2 ->]; [unfold short; cbn [default from_option id]; lia|].
  cbn [default from_option id]. destruct (Hu w2) as [w3 Eu]. erewrite comp_bind_run by exact Eu.
  cbv iota. edestruct append_or_oom_runs as [w4 ->]; [unfold short; cbn [default from_option id]; lia|].
  cbn [default from_option id]. unfold vbmeta_options.
  pose proof (append_hash_runs algorithm_type (vbmeta_images slot_data)) as Hh.
  pose proof (digest_options_length (option_hash algorithm_type).1 (option_hash algorithm_type).2
    (concat (image_bytes <$> vbmeta_images slot_data))) as Hdl.
  pose proof (option_hash_cases algorithm_type) as [Hp Hl].
  destruct (option_hash algorithm_type) as [p hash_alg]. cbn [fst snd] in *.
  edestruct Hh as [w5 ->]; [done..|unfold short; cbn [default from_option id]; lia|].
  cbn [default from_option id]. rewrite foldl_app. apply append_verity_runs. unfold short.
  specialize (Hdl (foldl add_option c0 (first_options unlocked)) Hp Hl).
  cbn [first_options foldl] in Hdl |- *. lia.
Qed.

(** ** Substitution *)

Context (guid : bytes → bytes).
Context (guids_known : ∀ part (w : W), ∃ w',
  get_unique_guid_for_partition part 37 w = Ret ((AVB_IO_RESULT_OK, guid part), w')).

Lemma concat_part_name_runs name suffix :
  Forall (λ c, c ≠ 0) name → Forall (λ c, c ≠ 0) suffix →
  zlen name + zlen suffix < AVB_PART_NAME_MAX_SIZE →
  concat_part_name name (zlen name) suffix = Ret (Some (name ++ suffix)).
Proof.
  intros Hn Hs Hl. unfold concat_part_name. change AVB_PART_NAME_MAX_SIZE with 32 in *.
  pose proof (zlen_nonneg name). pose proof (zlen_nonneg suffix).
  pose proof (avb_str_concat_spec (replicate (Z.to_nat 32) 0) name suffix) as E.
  change (zlen (replicate (Z.to_nat 32) 0)) with 32 in E.
  rewrite E by (unfold is_u64; lia). rewrite bool_decide_true by done. cbn [mbind run_bind negb fst snd].
  rewrite app_assoc, c_str_app by (by apply Forall_app). done.
Qed.

Lemma sub_guids_runs cmdline suffix guids ret (w : W) :
  Forall (λ c, c ≠ 0) suffix →
  Forall (λ g, Forall (λ c, c ≠ 0) g.1 ∧ zlen g.1 + zlen suffix < AVB_PART_NAME_MAX_SIZE ∧ g.2 ≠ [])
    guids → guids ≠ [] ∨ is_Some ret →
  ∃ full w', sub_guids cmdline suffix guids ret w = Ret (Some full, w')
    ∧ substituted ((λ g, (g.2, guid (g.1 ++ suffix))) <$> guids) (default cmdline ret) full.
Proof.
  intros Hs Hg. revert ret w. induction Hg as [|[name pat] guids (Hn & Hl & Hp) _ IH];
    intros ret w Hne; cbn [sub_guids].
  { destruct Hne as [?|[r ->]]; [done|]. exists r, w. split; [done|constructor]. }
  cbn [fst snd] in *.
  erewrite comp_bind_run by (apply lift_run; by apply concat_part_name_runs). cbv iota.
  destruct (guids_known (name ++ suffix) w) as [w1 E1]. erewrite comp_bind_run by exact E1.
  cbv iota. rewrite bool_decide_true by done. cbn [negb].
  destruct (replace_runs (default cmdline ret) pat (guid (name ++ suffix)) w1 Hp) as (s1 & w2 & E2 & Hr).
  erewrite comp_bind_run by (destruct ret; exact E2). cbv iota.
  destruct (IH (Some s1) w2) as (full & w3 & E3 & Hsub); [by right|].
  exists full, w3. split; [done|]. by econstructor.
Qed.

Lemma sub_additional_runs substs s (w : W) :
  Forall (λ t, t.1 ≠ []) substs →
  ∃ full w', sub_additional s substs w = Ret (Some full, w') ∧ substituted substs s full.
Proof.
  intros Ht. revert s w. induction Ht as [|[t v] substs Hne _ IH]; intros s w; cbn [sub_additional].
  { exists s, w. split; [done|constructor]. }
  destruct (replace_runs s t v w Hne) as (s1 & w1 & E & Hr). erewrite comp_bind_run by exact E.
  cbv iota. destruct (IH s1 w1) as (full & w2 & E2 & Hsub). exists full, w2. split; [done|].
  by econstructor.
Qed.

(** With memory to spare and a suffix that fits, the variables for the
    partitions are replaced by the GUIDs of the partitions of this slot, in the
    order system, boot, vbmeta, and then the additional tokens by their values. *)
Theorem avb_sub_cmdline_text cmdline suffix (using_boot : bool) substs (w : W) :
  Forall (λ c, c ≠ 0) suffix → zlen suffix < 26 → Forall (λ t, t.1 ≠ []) substs →
  let vbmeta := if using_boot then str "boot" else str "vbmeta" in
  ∃ text w', avb_sub_cmdline cmdline suffix using_boot substs w = Ret (Some text, w')
    ∧ substituted
        ((str "PARTUUID=$(ANDROID_SYSTEM_PARTUUID)", guid (str "system" ++ suffix)) ::
         (str "PARTUUID=$(ANDROID_BOOT_PARTUUID)", guid (str "boot" ++ suffix)) ::
         (str "PARTUUID=$(ANDROID_VBMETA_PARTUUID)", guid (vbmeta ++ suffix)) :: substs)
        cmdline text.
Proof.
  intros Hs Hl Ht vbmeta. unfold avb_sub_cmdline. fold vbmeta.
  match goal with |- context [sub_guids _ _ ?g] => set (guids := g) end.
  destruct (sub_guids_runs cmdline suffix guids None w Hs) as (s1 & w1 & E1 & Hs1); [|by left|].
  { assert (Hn : ∀ name, Forall (λ c, c ≠ 0) name → zlen name ≤ 6 → Forall (λ c, c ≠ 0) name
      ∧ zlen name + zlen suffix < AVB_PART_NAME_MAX_SIZE)
      by (intros name; change AVB_PART_NAME_MAX_SIZE with 32; split; [done|lia]).
    assert (Hv : Forall (λ c, c ≠ 0) vbmeta ∧ zlen vbmeta ≤ 6)
      by (unfold vbmeta; destruct using_boot; (split; [by repeat constructor|by vm_compute])).
    destruct Hv. repeat constructor; try done; cbn [fst]; apply Hn; try done; by repeat constructor. }
  erewrite comp_bind_run by exact E1. cbv iota.
  destruct (sub_additional_runs substs s1 w1 Ht) as (text & w2 & E2 & Hs2).
  exists text, w2. split; [done|]. cbn in Hs1.
  by apply (substituted_app _ substs _ _ _ Hs1).
Qed.

End Text.

(** ** Examples *)

#[local] Instance locked_ops : AvbOps unit := {|
  read_from_partition _ _ _ := mret (AVB_IO_RESULT_ERROR_NO_SUCH_PARTITION, ([], 0));
  get_preloaded_partition := None;
  validate_vbmeta_public_key _ _ := mret (AVB_IO_RESULT_OK, false);
  read_rollback_index _ := mret (AVB_IO_RESULT_OK, 0);
  read_is_device_unlocked := mret (AVB_IO_RESULT_OK, false);
  get_unique_guid_for_partition part _ := mret (AVB_IO_RESULT_OK, part);
  get_size_of_partition := None;
  read_persistent_value := None;
|}.

Lemma avb_sub_cmdline_text_witness :
  avb_sub_cmdline (H := roomy_heap) (str "root=PARTUUID=$(ANDROID_BOOT_PARTUUID) $(X)") (str "_a") false
    [(str "$(X)", str "y")] tt = Ret (Some (str "root=boot_a y"), tt)
  ∧ ∃ text w', avb_sub_cmdline (H := roomy_heap)
      (str "root=PARTUUID=$(ANDROID_BOOT_PARTUUID) $(X)") (str "_a") false
      [(str "$(X)", str "y")] tt = Ret (Some text, w')
    ∧ substituted
        [(str "PARTUUID=$(ANDROID_SYSTEM_PARTUUID)", str "system_a");
         (str "PARTUUID=$(ANDROID_BOOT_PARTUUID)", str "boot_a");
         (str "PARTUUID=$(ANDROID_VBMETA_PARTUUID)", str "vbmeta_a"); (str "$(X)", str "y")]
        (str "root=PARTUUID=$(ANDROID_BOOT_PARTUUID) $(X)") text.
Proof.
  split; [by vm_compute|].
  apply (avb_sub_cmdline_text (H := roomy_heap) (fun _ _ => eq_refl) (fun part => part)).
  - intros part []. by exists tt.
  - by repeat constructor.
  - by vm_compute.
  - by repeat constructor.
Defined.

Definition demo_images : list AvbVBMetaData :=
  [mkVBMeta (Some (str "vbmeta")) (str "abc") 3 AVB_VBMETA_VERIFY_RESULT_OK].
Definition demo_slot_data : AvbSlotVerifyData :=
  mkSlotData None demo_images [] (Some (str "quiet $(ANDROID_VERITY_MODE)")) [].

Lemma avb_append_options_text_witness :
  ∃ text w', avb_append_options (H := roomy_heap) demo_slot_data demo_header_host 1
      AVB_HASHTREE_ERROR_MODE_RESTART tt = Ret ((AVB_SLOT_VERIFY_RESULT_OK, Some text), w')
    ∧ str "quiet restart_on_corruption androidboot.vbmeta.device=" `prefix_of` text
    ∧ verity_text (flags demo_header_host) AVB_HASHTREE_ERROR_MODE_RESTART
        (foldl add_option (str "quiet $(ANDROID_VERITY_MODE)") (vbmeta_options false 1 demo_images))
        text.
Proof.
  destruct (avb_append_options_text (H := roomy_heap) (fun _ _ => eq_refl) demo_slot_data demo_header_host 1
    AVB_HASHTREE_ERROR_MODE_RESTART false tt) as (text & w' & E & Ht).
  - by split; vm_compute.
  - repeat constructor; by vm_compute.
  - by vm_compute.
  - by vm_compute.
  - intros []. by exists tt.
  - exists text, w'. split; [exact E|]. split; [|exact Ht].
    vm_compute in E. injection E as <- _. by apply (bool_decide_unpack _); vm_compute.
Defined.
