(* ===== verification/SlotVerify.v ===== *)
(** * Slot verification (lib/libavb/avb_slot_verify.c)

    Loading and checking the vbmeta images of a slot, the partitions they
    describe and the chained partitions, and the result [avb_slot_verify] gives
    to the boot command.  [goto out] is the left of a sum; the slot data and the
    substitution list are a state that survives it. *)

From S2P Require Import Prelude AvbUtil Sha2 Vbmeta Descriptors AvbOps Cmdline.

Definition MAX_NUMBER_OF_LOADED_PARTITIONS : Z := 32.
Definition MAX_NUMBER_OF_VBMETA_IMAGES : Z := 32.
Definition VBMETA_MAX_SIZE : Z := 64 * 1024.
Definition AVB_SHA1_DIGEST_SIZE : Z := 20.
Definition AVB_HASH_DESCRIPTOR_FLAGS_DO_NOT_USE_AB : Z := 1.
Definition AVB_HASHTREE_DESCRIPTOR_FLAGS_DO_NOT_USE_AB : Z := 1.
Definition AVB_KERNEL_CMDLINE_FLAGS_USE_ONLY_IF_HASHTREE_NOT_DISABLED : Z := 1.
Definition AVB_KERNEL_CMDLINE_FLAGS_USE_ONLY_IF_HASHTREE_DISABLED : Z := 2.

Definition result_should_continue (result : AvbSlotVerifyResult) : bool :=
  match result with
  | AVB_SLOT_VERIFY_RESULT_ERROR_OOM
  | AVB_SLOT_VERIFY_RESULT_ERROR_IO
  | AVB_SLOT_VERIFY_RESULT_ERROR_INVALID_METADATA
  | AVB_SLOT_VERIFY_RESULT_ERROR_UNSUPPORTED_VERSION
  | AVB_SLOT_VERIFY_RESULT_ERROR_INVALID_ARGUMENT => false
  | AVB_SLOT_VERIFY_RESULT_OK
  | AVB_SLOT_VERIFY_RESULT_ERROR_VERIFICATION
  | AVB_SLOT_VERIFY_RESULT_ERROR_ROLLBACK_INDEX
  | AVB_SLOT_VERIFY_RESULT_ERROR_PUBLIC_KEY_REJECTED => true
  end.

Definition avb_slot_verify_result_to_string (result : AvbSlotVerifyResult) : bytes :=
  match result with
  | AVB_SLOT_VERIFY_RESULT_OK => str "OK"
  | AVB_SLOT_VERIFY_RESULT_ERROR_OOM => str "ERROR_OOM"
  | AVB_SLOT_VERIFY_RESULT_ERROR_IO => str "ERROR_IO"
  | AVB_SLOT_VERIFY_RESULT_ERROR_VERIFICATION => str "ERROR_VERIFICATION"
  | AVB_SLOT_VERIFY_RESULT_ERROR_ROLLBACK_INDEX => str "ERROR_ROLLBACK_INDEX"
  | AVB_SLOT_VERIFY_RESULT_ERROR_PUBLIC_KEY_REJECTED => str "ERROR_PUBLIC_KEY_REJECTED"
  | AVB_SLOT_VERIFY_RESULT_ERROR_INVALID_METADATA => str "ERROR_INVALID_METADATA"
  | AVB_SLOT_VERIFY_RESULT_ERROR_UNSUPPORTED_VERSION => str "ERROR_UNSUPPORTED_VERSION"
  | AVB_SLOT_VERIFY_RESULT_ERROR_INVALID_ARGUMENT => str "ERROR_INVALID_ARGUMENT"
  end.

(** [if (io_ret == ERROR_OOM) OOM; else if (io_ret != OK) IO]. *)
Definition io_error (io_ret : AvbIOResult) : option AvbSlotVerifyResult :=
  match io_ret with
  | AVB_IO_RESULT_OK => None
  | AVB_IO_RESULT_ERROR_OOM => Some AVB_SLOT_VERIFY_RESULT_ERROR_OOM
  | _ => Some AVB_SLOT_VERIFY_RESULT_ERROR_IO
  end.

(** ** The state and the early exit *)

Record SlotState (W : Type) := mkState {
  world : W;
  slot_data : AvbSlotVerifyData;
  cmdline_subst : AvbCmdlineSubstList;
  out_algorithm_type : Z;
}.
Arguments mkState {W}.
Arguments world {W}.
Arguments slot_data {W}.
Arguments cmdline_subst {W}.
Arguments out_algorithm_type {W}.

Definition M (W A : Type) : Type := comp (SlotState W) (AvbSlotVerifyResult + A).

#[export] Instance M_ret {W} : MRet (M W) := fun A a st => Ret (inr a, st).
#[export] Instance M_bind {W} : MBind (M W) := fun A B f m st =>
  match m st with
  | Ret (inr a, st) => f a st
  | Ret (inl ret, st) => Ret (inl ret, st)
  | Crash c => Crash c
  end.

(** [ret = r; goto out;] *)
Definition stop {W A} (r : AvbSlotVerifyResult) : M W A := fun st => Ret (inl r, st).

(** A call that does not touch the slot data. *)
Definition call {W A} (m : comp W A) : M W A := fun st =>
  match m (world st) with
  | Ret (a, w) => Ret (inr a, mkState w (slot_data st) (cmdline_subst st) (out_algorithm_type st))
  | Crash c => Crash c
  end.

(** Such a call whose failure is a result to exit with. *)
Definition call_or_stop {W A} (m : comp W (AvbSlotVerifyResult + A)) : M W A :=
  r ← call m; match r with inl ret => stop ret | inr a => mret a end.

(** A call that works on the slot data and returns a result. *)
Definition sub_call {W} (m : comp (SlotState W) AvbSlotVerifyResult) : M W AvbSlotVerifyResult :=
  fun st => match m st with Ret (r, st) => Ret (inr r, st) | Crash c => Crash c end.

(** The label [out]: both ways give the result. *)
Definition out {W} (m : M W AvbSlotVerifyResult) : comp (SlotState W) AvbSlotVerifyResult :=
  fun st => match m st with
            | Ret (inl r, st) | Ret (inr r, st) => Ret (r, st)
            | Crash c => Crash c
            end.

Definition get_slot {W} : M W AvbSlotVerifyData := fun st => Ret (inr (slot_data st), st).
Definition set_slot_data {W} (s : AvbSlotVerifyData) : M W unit := fun st =>
  Ret (inr tt, mkState (world st) s (cmdline_subst st) (out_algorithm_type st)).
Definition get_subst {W} : M W AvbCmdlineSubstList := fun st => Ret (inr (cmdline_subst st), st).
Definition set_subst {W} (s : AvbCmdlineSubstList) : M W unit := fun st =>
  Ret (inr tt, mkState (world st) (slot_data st) s (out_algorithm_type st)).
Definition set_algorithm_type {W} (t : Z) : M W unit := fun st =>
  Ret (inr tt, mkState (world st) (slot_data st) (cmdline_subst st) t).

Definition add_vbmeta_image (image : AvbVBMetaData) (s : AvbSlotVerifyData) : AvbSlotVerifyData :=
  mkSlotData (ab_suffix s) (vbmeta_images s ++ [image]) (loaded_partitions s) (cmdline s)
    (rollback_indexes s).
Definition add_loaded_partition (p : AvbPartitionData) (s : AvbSlotVerifyData)
    : AvbSlotVerifyData :=
  mkSlotData (ab_suffix s) (vbmeta_images s) (loaded_partitions s ++ [p]) (cmdline s)
    (rollback_indexes s).
Definition set_cmdline (c : option bytes) (s : AvbSlotVerifyData) : AvbSlotVerifyData :=
  mkSlotData (ab_suffix s) (vbmeta_images s) (loaded_partitions s) c (rollback_indexes s).
Definition set_ab_suffix (x : option bytes) (s : AvbSlotVerifyData) : AvbSlotVerifyData :=
  mkSlotData x (vbmeta_images s) (loaded_partitions s) (cmdline s) (rollback_indexes s).
Definition set_rollback_index (n : nat) (x : Z) (s : AvbSlotVerifyData) : AvbSlotVerifyData :=
  mkSlotData (ab_suffix s) (vbmeta_images s) (loaded_partitions s) (cmdline s)
    (<[n := x]> (rollback_indexes s)).

(** ** Partitions *)

Section Partitions.
Context {W : Type} `{Heap W} `{AvbOps W}.

(** The image and whether it was preloaded. *)
Definition load_full_partition (part_name : bytes) (image_size : Z)
    : comp W (AvbSlotVerifyResult + (bytes * bool)) :=
  let read : comp W (AvbSlotVerifyResult + (bytes * bool)) :=
    ok ← avb_malloc image_size;
    if negb ok then mret (inl AVB_SLOT_VERIFY_RESULT_ERROR_OOM)
    else
      io ← read_from_partition part_name 0 image_size;
      let '(io_ret, (buf, part_num_read)) := io in
      match io_error io_ret with
      | Some ret => mret (inl ret)
      | None =>
          if negb (part_num_read =? image_size) then mret (inl AVB_SLOT_VERIFY_RESULT_ERROR_IO)
          else mret (inr (buf, false))
      end in
  match get_preloaded_partition with
  | None => read
  | Some get =>
      io ← get part_name image_size;
      let '(io_ret, (buf, part_num_read)) := io in
      match io_error io_ret, buf with
      | Some ret, _ => mret (inl ret)
      | None, None => read
      | None, Some buf =>
          if negb (part_num_read =? image_size) then mret (inl AVB_SLOT_VERIFY_RESULT_ERROR_IO)
          else mret (inr (buf, true))
      end
  end.

Definition read_persistent_digest (part_name : bytes) (expected_digest_size : Z)
    : comp W (AvbSlotVerifyResult + bytes) :=
  match read_persistent_value with
  | None => mret (inl AVB_SLOT_VERIFY_RESULT_ERROR_INVALID_METADATA)
  | Some read =>
      name ← avb_strdupv [AVB_NPV_PERSISTENT_DIGEST_PREFIX; part_name];
      match name with
      | None => mret (inl AVB_SLOT_VERIFY_RESULT_ERROR_OOM)
      | Some name =>
          io ← read name expected_digest_size;
          let '(io_ret, (digest, stored_digest_size)) := io in
          match io_ret with
          | AVB_IO_RESULT_ERROR_OOM => mret (inl AVB_SLOT_VERIFY_RESULT_ERROR_OOM)
          | AVB_IO_RESULT_ERROR_NO_SUCH_VALUE
          | AVB_IO_RESULT_ERROR_INVALID_VALUE_SIZE
          | AVB_IO_RESULT_ERROR_INSUFFICIENT_SPACE =>
              mret (inl AVB_SLOT_VERIFY_RESULT_ERROR_INVALID_METADATA)
          | _ =>
              if negb (expected_digest_size =? stored_digest_size)
              then mret (inl AVB_SLOT_VERIFY_RESULT_ERROR_INVALID_METADATA)
              else match io_ret with
                   | AVB_IO_RESULT_OK => mret (inr digest)
                   | _ => mret (inl AVB_SLOT_VERIFY_RESULT_ERROR_IO)
                   end
          end
      end
  end.

(** The hash of the algorithm a descriptor names, and its digest size. *)
Definition descriptor_hash (hash_algorithm : bytes) : run (option (Sha2 * Z)) :=
  is256 ← c_streq hash_algorithm (str "sha256");
  if is256 : bool then mret (Some (SHA256, AVB_SHA256_DIGEST_SIZE))
  else
    is512 ← c_streq hash_algorithm (str "sha512");
    if is512 : bool then mret (Some (SHA512, AVB_SHA512_DIGEST_SIZE)) else mret None.

Variables (requested_partitions : list bytes) (suffix : bytes) (allow_verification_error : bool).

(** The name of the partition a hash descriptor is about, the name length
    checked; [None] is an exit with ERROR_INVALID_METADATA. *)
Definition hash_part_name (hash_desc : AvbHashDescriptor) (desc_partition_name : bytes)
    : run (option bytes) :=
  let len := hash_partition_name_len hash_desc in
  if has_flag (hash_flags hash_desc) AVB_HASH_DESCRIPTOR_FLAGS_DO_NOT_USE_AB then
    if AVB_PART_NAME_MAX_SIZE <=? len then mret None
    else name ← rd desc_partition_name 0 len; s ← c_str (name ++ [0]); mret (Some s)
  else if (hash_digest_len hash_desc =? 0) && negb (zlen suffix =? 0) then mret None
  else concat_part_name desc_partition_name len suffix.

(** The size to load: the whole partition when errors are allowed. *)
Definition hash_image_size_to_load (hash_desc : AvbHashDescriptor) (part_name : bytes)
    : comp W (AvbSlotVerifyResult + Z) :=
  if allow_verification_error then
    match get_size_of_partition with
    | None => mret (inr (hash_image_size hash_desc))
    | Some get =>
        io ← get part_name;
        let '(io_ret, image_size) := io in
        mret (match io_error io_ret with Some ret => inl ret | None => inr image_size end)
    end
  else mret (inr (hash_image_size hash_desc)).

(** The comparison of a loaded image with its descriptor; [desc] is the
    descriptor followed by the rest of the vbmeta buffer. *)
Definition check_hash (hash_desc : AvbHashDescriptor) (desc part_name image_buf : bytes)
    : comp W AvbSlotVerifyResult :=
  let name_len := hash_partition_name_len hash_desc in
  let desc_salt := drop (Z.to_nat (sizeof_AvbHashDescriptor + name_len)) desc in
  let desc_digest := drop (Z.to_nat (hash_salt_len hash_desc)) desc_salt in
  alg ← lift (descriptor_hash (hash_algorithm_name hash_desc));
  match alg with
  | None => mret AVB_SLOT_VERIFY_RESULT_ERROR_INVALID_METADATA
  | Some (p, digest_len) =>
      digest ← lift (hash_two p desc_salt (hash_salt_len hash_desc)
                       image_buf (hash_image_size hash_desc));
      let compare expected_digest_len expected_digest : comp W AvbSlotVerifyResult :=
        if negb (digest_len =? expected_digest_len)
        then mret AVB_SLOT_VERIFY_RESULT_ERROR_INVALID_METADATA
        else
          r ← lift (avb_safe_memcmp digest expected_digest digest_len);
          mret (if negb (r =? 0) then AVB_SLOT_VERIFY_RESULT_ERROR_VERIFICATION
                else AVB_SLOT_VERIFY_RESULT_OK) in
      if hash_digest_len hash_desc =? 0 then
        assert (digest_len <=? AVB_SHA512_DIGEST_SIZE);;
        r ← read_persistent_digest part_name digest_len;
        match r with
        | inl ret => mret ret
        | inr expected_digest => compare digest_len expected_digest
        end
      else compare (hash_digest_len hash_desc) desc_digest
  end.

(** The function up to the label [out]: the result, and the partition that has
    been loaded by then. *)
Definition verify_hash_partition (desc : bytes)
    : comp W (AvbSlotVerifyResult * option (bytes * AvbPartitionData)) :=
  d ← lift (avb_hash_descriptor_validate_and_byteswap desc);
  match d with
  | None => mret (AVB_SLOT_VERIFY_RESULT_ERROR_INVALID_METADATA, None)
  | Some hash_desc =>
      let desc_partition_name := drop (Z.to_nat sizeof_AvbHashDescriptor) desc in
      let len := hash_partition_name_len hash_desc in
      utf8 ← lift (avb_validate_utf8 desc_partition_name len);
      if negb utf8 then mret (AVB_SLOT_VERIFY_RESULT_ERROR_INVALID_METADATA, None)
      else
        match avb_strv_find_str requested_partitions desc_partition_name len with
        | None => mret (AVB_SLOT_VERIFY_RESULT_OK, None)
        | Some found =>
            part_name ← lift (hash_part_name hash_desc desc_partition_name);
            match part_name with
            | None => mret (AVB_SLOT_VERIFY_RESULT_ERROR_INVALID_METADATA, None)
            | Some part_name =>
                size ← hash_image_size_to_load hash_desc part_name;
                match size with
                | inl ret => mret (ret, None)
                | inr image_size =>
                    l ← load_full_partition part_name image_size;
                    match l with
                    | inl ret => mret (ret, None)
                    | inr (image_buf, image_preloaded) =>
                        ret ← check_hash hash_desc desc part_name image_buf;
                        mret (ret, Some (found,
                          mkPartition None image_buf image_size image_preloaded))
                    end
                end
            end
        end
  end.

Definition load_and_verify_hash_partition (desc : bytes)
    : comp (SlotState W) AvbSlotVerifyResult :=
  out (r ← call (verify_hash_partition desc);
       let '(ret, loaded) := r in
       match loaded with
       | None => mret ret
       | Some (found, p) =>
           if bool_decide (ret = AVB_SLOT_VERIFY_RESULT_OK) || result_should_continue ret then
             s ← get_slot;
             if zlen (loaded_partitions s) =? MAX_NUMBER_OF_LOADED_PARTITIONS
             then stop AVB_SLOT_VERIFY_RESULT_ERROR_OOM
             else
               name ← call (avb_strdup found);
               set_slot_data (add_loaded_partition
                 (mkPartition name (loaded_data p) (loaded_size p) (preloaded p)) s);;
               mret ret
           else mret ret
       end).

(** The loop over the requested partitions still to be loaded. *)
Fixpoint load_requested_loop (get_size : bytes → comp W (AvbIOResult * Z)) (requested : list bytes)
    : M W AvbSlotVerifyResult :=
  match requested with
  | [] => mret AVB_SLOT_VERIFY_RESULT_OK
  | r :: requested =>
      part_name ← call (lift (concat_part_name r (zlen r) suffix));
      match part_name with
      | None => stop AVB_SLOT_VERIFY_RESULT_ERROR_INVALID_METADATA
      | Some part_name =>
          io ← call (get_size part_name);
          let '(io_ret, image_size) := io in
          match io_error io_ret with
          | Some ret => stop ret
          | None =>
              l ← call_or_stop (load_full_partition part_name image_size);
              let '(image_buf, image_preloaded) := l in
              s ← get_slot;
              if zlen (loaded_partitions s) =? MAX_NUMBER_OF_LOADED_PARTITIONS
              then stop AVB_SLOT_VERIFY_RESULT_ERROR_OOM
              else
                name ← call (avb_strdup r);
                match name with
                | None =>
                    set_slot_data (add_loaded_partition (mkPartition None [] 0 false) s);;
                    stop AVB_SLOT_VERIFY_RESULT_ERROR_OOM
                | Some _ =>
                    set_slot_data (add_loaded_partition
                      (mkPartition name image_buf image_size image_preloaded) s);;
                    load_requested_loop get_size requested
                end
          end
      end
  end.

Definition load_requested_partitions : comp (SlotState W) AvbSlotVerifyResult :=
  out (match get_size_of_partition with
       | None => stop AVB_SLOT_VERIFY_RESULT_ERROR_INVALID_ARGUMENT
       | Some get_size => load_requested_loop get_size requested_partitions
       end).

End Partitions.

(** ** vbmeta images *)

Section VBMeta.
Context {W : Type} `{Heap W} `{AvbOps W}.

(** [fuel] bounds the walk over the descriptors of an image, [buffer_address]
    is where [avb_malloc] puts an image, and [uninit_count] what the variable
    [num_descriptors] holds before it is assigned. *)
Variables (fuel : nat) (buffer_address : W → Z) (uninit_count : Z).
Variables (requested_partitions : list bytes) (suffix : bytes) (allow_verification_error : bool).

(** An error that only counts when errors are not allowed. *)
Definition tolerate (ret : AvbSlotVerifyResult) : M W AvbSlotVerifyResult :=
  if allow_verification_error then mret ret else stop ret.

(** Offset and size of the vbmeta image in its partition. *)
Definition locate_vbmeta (is_vbmeta_partition : bool) (full_partition_name : bytes) : M W (Z * Z) :=
  if is_vbmeta_partition then mret (0, VBMETA_MAX_SIZE)
  else
    io ← call (read_from_partition full_partition_name (- AVB_FOOTER_SIZE) AVB_FOOTER_SIZE);
    let '(io_ret, (footer_buf, footer_num_read)) := io in
    match io_error io_ret with
    | Some ret => stop ret
    | None =>
        call (assert (footer_num_read =? AVB_FOOTER_SIZE));;
        f ← call (lift (avb_footer_validate_and_byteswap footer_buf));
        match f with
        | None => stop AVB_SLOT_VERIFY_RESULT_ERROR_INVALID_METADATA
        | Some footer =>
            if VBMETA_MAX_SIZE <? vbmeta_size footer
            then stop AVB_SLOT_VERIFY_RESULT_ERROR_INVALID_METADATA
            else mret (vbmeta_offset footer, vbmeta_size footer)
        end
    end.

(** The switch on the verification result of the image. *)
Definition check_image_result (vbmeta_ret : AvbVBMetaVerifyResult) (pk : option (Z * Z))
    : M W AvbSlotVerifyResult :=
  match vbmeta_ret with
  | AVB_VBMETA_VERIFY_RESULT_OK =>
      call (assert (match pk with Some (_, pk_len) => 0 <? pk_len | None => false end));;
      mret AVB_SLOT_VERIFY_RESULT_OK
  | AVB_VBMETA_VERIFY_RESULT_OK_NOT_SIGNED
  | AVB_VBMETA_VERIFY_RESULT_HASH_MISMATCH
  | AVB_VBMETA_VERIFY_RESULT_SIGNATURE_MISMATCH =>
      tolerate AVB_SLOT_VERIFY_RESULT_ERROR_VERIFICATION
  | AVB_VBMETA_VERIFY_RESULT_INVALID_VBMETA_HEADER =>
      stop AVB_SLOT_VERIFY_RESULT_ERROR_INVALID_METADATA
  | AVB_VBMETA_VERIFY_RESULT_UNSUPPORTED_VERSION =>
      stop AVB_SLOT_VERIFY_RESULT_ERROR_UNSUPPORTED_VERSION
  end.

(** The key that signed the image against the key of the chain descriptor, or
    against the device's keys. *)
Definition check_public_key (is_main_vbmeta : bool) (expected_public_key : option (bytes * Z))
    (vbmeta_buf : bytes) (header : AvbVBMetaImageHeader) (pk : option (Z * Z))
    (ret : AvbSlotVerifyResult) : M W AvbSlotVerifyResult :=
  match pk with
  | None => mret ret
  | Some (pk_data, pk_len) =>
      match expected_public_key with
      | Some (key, key_len) =>
          call (assert (negb is_main_vbmeta));;
          if negb (key_len =? pk_len) then tolerate AVB_SLOT_VERIFY_RESULT_ERROR_PUBLIC_KEY_REJECTED
          else
            r ← call (lift (avb_safe_memcmp key (drop (Z.to_nat pk_data) vbmeta_buf) pk_len));
            if negb (r =? 0) then tolerate AVB_SLOT_VERIFY_RESULT_ERROR_PUBLIC_KEY_REJECTED
            else mret ret
      | None =>
          call (assert is_main_vbmeta);;
          metadata ← (if 0 <? public_key_metadata_size header then
                        m ← call (lift (rd vbmeta_buf
                          (AVB_VBMETA_IMAGE_HEADER_SIZE + authentication_data_block_size header +
                           public_key_metadata_offset header) (public_key_metadata_size header)));
                        mret (Some m)
                      else mret None);
          key ← call (lift (rd vbmeta_buf pk_data pk_len));
          io ← call (validate_vbmeta_public_key key metadata);
          let '(io_ret, key_is_trusted) := io in
          match io_error io_ret with
          | Some ret => stop ret
          | None =>
              if negb key_is_trusted
              then tolerate AVB_SLOT_VERIFY_RESULT_ERROR_PUBLIC_KEY_REJECTED
              else mret ret
          end
      end
  end.

Definition check_rollback_index (rollback_index_location : Z) (header : AvbVBMetaImageHeader)
    (ret : AvbSlotVerifyResult) : M W AvbSlotVerifyResult :=
  io ← call (read_rollback_index (u64 rollback_index_location));
  let '(io_ret, stored_rollback_index) := io in
  match io_error io_ret with
  | Some ret => stop ret
  | None =>
      if rollback_index header <? stored_rollback_index
      then tolerate AVB_SLOT_VERIFY_RESULT_ERROR_ROLLBACK_INDEX
      else mret ret
  end.

(** The image is put into the slot data. *)
Definition record_vbmeta (is_main_vbmeta : bool) (partition_name vbmeta_buf : bytes)
    (header : AvbVBMetaImageHeader) (vbmeta_ret : AvbVBMetaVerifyResult) : M W unit :=
  s ← get_slot;
  call (assert (if is_main_vbmeta then zlen (vbmeta_images s) =? 0
                else 0 <? zlen (vbmeta_images s)));;
  if zlen (vbmeta_images s) =? MAX_NUMBER_OF_VBMETA_IMAGES
  then stop AVB_SLOT_VERIFY_RESULT_ERROR_OOM
  else
    name ← call (lift (c_str partition_name));
    name ← call (avb_strdup name);
    set_slot_data (add_vbmeta_image
      (mkVBMeta name vbmeta_buf
         (u64 (AVB_VBMETA_IMAGE_HEADER_SIZE + authentication_data_block_size header +
               auxiliary_data_block_size header)) vbmeta_ret) s).

(** ** Descriptors *)

(** A snippet of the kernel command line. *)
Definition append_cmdline (kernel_cmdline : bytes) : M W unit :=
  s ← get_slot;
  match cmdline s with
  | None =>
      b ← call (avb_calloc (u32 (zlen kernel_cmdline + 1)));
      match b with
      | None => stop AVB_SLOT_VERIFY_RESULT_ERROR_OOM
      | Some buf =>
          buf ← call (lift (wr buf 0 kernel_cmdline));
          c ← call (lift (c_str buf));
          set_slot_data (set_cmdline (Some c) s)
      end
  | Some old =>
      b ← call (avb_calloc (u64 (zlen old + 1 + zlen kernel_cmdline + 1)));
      match b with
      | None => stop AVB_SLOT_VERIFY_RESULT_ERROR_OOM
      | Some _ =>
          c ← call (lift (c_str (old ++ str " " ++ kernel_cmdline ++ [0])));
          set_slot_data (set_cmdline (Some c) s)
      end
  end.

Definition process_cmdline_descriptor (toplevel_vbmeta_flags : Z) (desc : bytes) : M W unit :=
  d ← call (lift (avb_kernel_cmdline_descriptor_validate_and_byteswap desc));
  match d with
  | None => stop AVB_SLOT_VERIFY_RESULT_ERROR_INVALID_METADATA
  | Some d =>
      let kernel_cmdline := drop (Z.to_nat sizeof_AvbKernelCmdlineDescriptor) desc in
      utf8 ← call (lift (avb_validate_utf8 kernel_cmdline (kernel_cmdline_length d)));
      if negb utf8 then stop AVB_SLOT_VERIFY_RESULT_ERROR_INVALID_METADATA
      else
        let apply_cmdline :=
          if has_flag toplevel_vbmeta_flags AVB_VBMETA_IMAGE_FLAGS_HASHTREE_DISABLED
          then negb (has_flag (cmdline_flags d)
                       AVB_KERNEL_CMDLINE_FLAGS_USE_ONLY_IF_HASHTREE_NOT_DISABLED)
          else negb (has_flag (cmdline_flags d)
                       AVB_KERNEL_CMDLINE_FLAGS_USE_ONLY_IF_HASHTREE_DISABLED) in
        if apply_cmdline then
          c ← call (lift (rd kernel_cmdline 0 (kernel_cmdline_length d)));
          append_cmdline c
        else mret tt
  end.

Definition hashtree_digest_size (hash_algorithm : bytes) : run (option Z) :=
  is1 ← c_streq hash_algorithm (str "sha1");
  if is1 : bool then mret (Some AVB_SHA1_DIGEST_SIZE)
  else r ← descriptor_hash hash_algorithm; mret (snd <$> r).

(** [want_outputs]: the callers of the main image pass the output pointers. *)
Definition process_hashtree_descriptor (want_outputs : bool) (desc : bytes)
    (ret : AvbSlotVerifyResult) : M W AvbSlotVerifyResult :=
  d ← call (lift (avb_hashtree_descriptor_validate_and_byteswap desc));
  match d with
  | None => stop AVB_SLOT_VERIFY_RESULT_ERROR_INVALID_METADATA
  | Some d =>
      if negb (root_digest_len d =? 0) then mret ret
      else
        let len := tree_partition_name_len d in
        let desc_partition_name := drop (Z.to_nat sizeof_AvbHashtreeDescriptor) desc in
        utf8 ← call (lift (avb_validate_utf8 desc_partition_name len));
        if negb utf8 then stop AVB_SLOT_VERIFY_RESULT_ERROR_INVALID_METADATA
        else if negb (has_flag (tree_flags d) AVB_HASHTREE_DESCRIPTOR_FLAGS_DO_NOT_USE_AB) &&
                negb (zlen suffix =? 0)
        then stop AVB_SLOT_VERIFY_RESULT_ERROR_INVALID_METADATA
        else if AVB_PART_NAME_MAX_SIZE <=? len
        then stop AVB_SLOT_VERIFY_RESULT_ERROR_INVALID_METADATA
        else
          name ← call (lift (rd desc_partition_name 0 len));
          part_name ← call (lift (c_str (name ++ [0])));
          size ← call (lift (hashtree_digest_size (tree_hash_algorithm d)));
          match size with
          | None => stop AVB_SLOT_VERIFY_RESULT_ERROR_INVALID_METADATA
          | Some digest_len =>
              digest ← call_or_stop (read_persistent_digest part_name digest_len);
              if want_outputs then
                subst ← get_subst;
                r ← call (avb_add_root_digest_substitution part_name digest digest_len subst);
                let '(ret, subst) := r in
                set_subst subst;;
                if negb (bool_decide (ret = AVB_SLOT_VERIFY_RESULT_OK)) then stop ret else mret ret
              else mret AVB_SLOT_VERIFY_RESULT_OK
          end
  end.

(** A chained partition; [load_chain location name name_len key key_len] verifies
    its vbmeta image. *)
Definition process_chain_descriptor
    (load_chain : Z → bytes → Z → bytes → Z → comp (SlotState W) AvbSlotVerifyResult)
    (is_main_vbmeta : bool) (desc : bytes) (ret : AvbSlotVerifyResult) : M W AvbSlotVerifyResult :=
  if negb is_main_vbmeta then stop AVB_SLOT_VERIFY_RESULT_ERROR_INVALID_METADATA
  else
    d ← call (lift (avb_chain_partition_descriptor_validate_and_byteswap desc));
    match d with
    | None => stop AVB_SLOT_VERIFY_RESULT_ERROR_INVALID_METADATA
    | Some d =>
        if rollback_index_location d =? 0 then stop AVB_SLOT_VERIFY_RESULT_ERROR_INVALID_METADATA
        else
          let chain_partition_name := drop (Z.to_nat sizeof_AvbChainPartitionDescriptor) desc in
          let chain_public_key :=
            drop (Z.to_nat (chain_partition_name_len d)) chain_partition_name in
          sub_ret ← sub_call (load_chain (s32 (rollback_index_location d)) chain_partition_name
                                (chain_partition_name_len d) chain_public_key
                                (chain_public_key_len d));
          if bool_decide (sub_ret = AVB_SLOT_VERIFY_RESULT_OK) then mret ret
          else if negb (result_should_continue sub_ret) then stop sub_ret
          else mret sub_ret
    end.

(** One descriptor, given by its offset in the image. *)
Definition process_descriptor
    (load_chain : Z → bytes → Z → bytes → Z → comp (SlotState W) AvbSlotVerifyResult)
    (is_main_vbmeta want_outputs : bool) (toplevel_vbmeta_flags : Z) (vbmeta_buf : bytes)
    (descriptor : Z) (ret : AvbSlotVerifyResult) : M W AvbSlotVerifyResult :=
  let desc := drop (Z.to_nat descriptor) vbmeta_buf in
  r ← call (lift (avb_descriptor_validate_and_byteswap desc));
  let '(ok, d) := r in
  if negb ok then stop AVB_SLOT_VERIFY_RESULT_ERROR_INVALID_METADATA
  else if tag d =? AVB_DESCRIPTOR_TAG_HASH then
    sub_ret ← sub_call (load_and_verify_hash_partition requested_partitions suffix
                          allow_verification_error desc);
    if bool_decide (sub_ret = AVB_SLOT_VERIFY_RESULT_OK) then mret ret
    else if negb allow_verification_error || negb (result_should_continue sub_ret)
    then stop sub_ret else mret sub_ret
  else if tag d =? AVB_DESCRIPTOR_TAG_CHAIN_PARTITION then
    process_chain_descriptor load_chain is_main_vbmeta desc ret
  else if tag d =? AVB_DESCRIPTOR_TAG_KERNEL_CMDLINE then
    process_cmdline_descriptor toplevel_vbmeta_flags desc;; mret ret
  else if tag d =? AVB_DESCRIPTOR_TAG_HASHTREE then
    process_hashtree_descriptor want_outputs desc ret
  else mret ret.

(** The loop over [descriptors[n]]. *)
Fixpoint process_descriptors
    (process : Z → AvbSlotVerifyResult → M W AvbSlotVerifyResult)
    (ds : list (option Z)) (ret : AvbSlotVerifyResult) : M W AvbSlotVerifyResult :=
  match ds with
  | [] => mret ret
  | None :: _ => call null_deref
  | Some d :: ds => ret ← process d ret; process_descriptors process ds ret
  end.

(** [avb_descriptor_get_all] and the loop; after a failed allocation the array
    is NULL and the count the uninitialised one. *)
Definition process_all_descriptors
    (process : Z → AvbSlotVerifyResult → M W AvbSlotVerifyResult)
    (vbmeta_buf : bytes) (vbmeta_ptr vbmeta_num_read : Z) (ret : AvbSlotVerifyResult)
    : M W AvbSlotVerifyResult :=
  r ← call (avb_descriptor_get_all fuel vbmeta_buf vbmeta_ptr vbmeta_num_read);
  match r with
  | None => if 0 <? uninit_count then call null_deref else mret ret
  | Some (ds, num_descriptors) =>
      process_descriptors process (take (Z.to_nat num_descriptors) ds) ret
  end.

(** The rollback index and the algorithm of the image are handed out. *)
Definition publish_vbmeta (location : Z) (want_outputs : bool) (header : AvbVBMetaImageHeader)
    (ret : AvbSlotVerifyResult) : M W AvbSlotVerifyResult :=
  if AVB_MAX_NUMBER_OF_ROLLBACK_INDEX_LOCATIONS <=? location
  then stop AVB_SLOT_VERIFY_RESULT_ERROR_INVALID_METADATA
  else if location <? 0 then call (fun _ => Crash OutOfBounds)
  else
    s ← get_slot;
    set_slot_data (set_rollback_index (Z.to_nat location) (rollback_index header) s);;
    (if want_outputs then set_algorithm_type (algorithm_type header) else mret tt);;
    mret ret.

(** What is done with an image after its signature has been checked: [process]
    handles one of its descriptors, given the flags of the top-level image. *)
Definition handle_vbmeta
    (process : Z → Z → AvbSlotVerifyResult → M W AvbSlotVerifyResult)
    (toplevel_vbmeta_flags location : Z) (partition_name : bytes)
    (expected_public_key : option (bytes * Z)) (want_outputs : bool)
    (vbmeta_buf : bytes) (vbmeta_ptr vbmeta_num_read : Z)
    (vbmeta_ret : AvbVBMetaVerifyResult) (pk : option (Z * Z)) : M W AvbSlotVerifyResult :=
  let is_main_vbmeta := location =? 0 in
  ret ← check_image_result vbmeta_ret pk;
  header ← call (lift (avb_vbmeta_image_header_to_host_byte_order vbmeta_buf));
  if negb is_main_vbmeta && negb (flags header =? 0)
  then stop AVB_SLOT_VERIFY_RESULT_ERROR_INVALID_METADATA
  else
    let toplevel_vbmeta_flags := if is_main_vbmeta then flags header else toplevel_vbmeta_flags in
    ret ← check_public_key is_main_vbmeta expected_public_key vbmeta_buf header pk ret;
    ret ← check_rollback_index location header ret;
    record_vbmeta is_main_vbmeta partition_name vbmeta_buf header vbmeta_ret;;
    if has_flag (flags header) AVB_VBMETA_IMAGE_FLAGS_VERIFICATION_DISABLED then
      sub_ret ← sub_call (load_requested_partitions requested_partitions suffix);
      stop (if bool_decide (sub_ret = AVB_SLOT_VERIFY_RESULT_OK) then ret else sub_ret)
    else
      ret ← process_all_descriptors (process toplevel_vbmeta_flags)
              vbmeta_buf vbmeta_ptr vbmeta_num_read ret;
      publish_vbmeta location want_outputs header ret.

Definition verify_loaded_vbmeta
    (process : Z → Z → AvbSlotVerifyResult → M W AvbSlotVerifyResult)
    (toplevel_vbmeta_flags location : Z) (partition_name : bytes)
    (expected_public_key : option (bytes * Z)) (want_outputs : bool)
    (vbmeta_buf : bytes) (vbmeta_ptr vbmeta_num_read : Z) : M W AvbSlotVerifyResult :=
  v ← call (avb_vbmeta_image_verify vbmeta_ptr vbmeta_buf vbmeta_num_read);
  handle_vbmeta process toplevel_vbmeta_flags location partition_name expected_public_key
    want_outputs vbmeta_buf vbmeta_ptr vbmeta_num_read v.1 v.2.

(** The function, given itself as [load]. *)
Definition load_vbmeta_step
    (load : Z → Z → bytes → Z → option (bytes * Z) → bool → comp (SlotState W) AvbSlotVerifyResult)
    (toplevel_vbmeta_flags location : Z) (partition_name : bytes) (partition_name_len : Z)
    (expected_public_key : option (bytes * Z)) (want_outputs : bool)
    : comp (SlotState W) AvbSlotVerifyResult :=
  let is_main_vbmeta := location =? 0 in
  out (
    is_vbmeta_partition ← call (lift (c_streq partition_name (str "vbmeta")));
    utf8 ← call (lift (avb_validate_utf8 partition_name partition_name_len));
    if negb utf8 then stop AVB_SLOT_VERIFY_RESULT_ERROR_INVALID_METADATA
    else
      name ← call (lift (concat_part_name partition_name partition_name_len suffix));
      match name with
      | None => stop AVB_SLOT_VERIFY_RESULT_ERROR_INVALID_METADATA
      | Some full_partition_name =>
          l ← locate_vbmeta is_vbmeta_partition full_partition_name;
          let '(offset, size) := l in
          ok ← call (avb_malloc size);
          if negb ok then stop AVB_SLOT_VERIFY_RESULT_ERROR_OOM
          else
            io ← call (read_from_partition full_partition_name (s64 offset) size);
            let '(io_ret, (vbmeta_buf, vbmeta_num_read)) := io in
            match io_ret with
            | AVB_IO_RESULT_OK =>
                call (assert (vbmeta_num_read <=? size));;
                ptr ← call (fun w => Ret (buffer_address w, w));
                verify_loaded_vbmeta
                  (fun flags =>
                     process_descriptor
                       (fun location name name_len key key_len =>
                          load flags location name name_len
                            (Some (key, key_len)) false)
                       is_main_vbmeta want_outputs flags vbmeta_buf)
                  toplevel_vbmeta_flags location partition_name expected_public_key
                  want_outputs vbmeta_buf ptr vbmeta_num_read
            | AVB_IO_RESULT_ERROR_OOM => stop AVB_SLOT_VERIFY_RESULT_ERROR_OOM
            | AVB_IO_RESULT_ERROR_NO_SUCH_PARTITION =>
                if is_main_vbmeta && is_vbmeta_partition
                then sub_call (load 0 0 (str "boot" ++ [0]) 4
                                 None want_outputs)
                else stop AVB_SLOT_VERIFY_RESULT_ERROR_IO
            | _ => stop AVB_SLOT_VERIFY_RESULT_ERROR_IO
            end
      end).

(** [depth] bounds the recursion: "vbmeta" may fall back to "boot", which may
    chain to other partitions, which may not. *)
Fixpoint load_and_verify_vbmeta (depth : nat)
    : Z → Z → bytes → Z → option (bytes * Z) → bool → comp (SlotState W) AvbSlotVerifyResult :=
  match depth with
  | O => fun _ _ _ _ _ _ _ => Crash NoFuel
  | S depth => load_vbmeta_step (load_and_verify_vbmeta depth)
  end.

End VBMeta.

(** ** The entry point *)

Definition sizeof_AvbSlotVerifyData : Z := 304.
Definition sizeof_AvbVBMetaData : Z := 32.
Definition sizeof_AvbPartitionData : Z := 32.

Definition empty_slot_data : AvbSlotVerifyData :=
  mkSlotData None [] [] None
    (replicate (Z.to_nat AVB_MAX_NUMBER_OF_ROLLBACK_INDEX_LOCATIONS) 0).

Section SlotVerify.
Context {W : Type} `{Heap W} `{AvbOps W}.
Variables (fuel : nat) (buffer_address : W → Z) (uninit_count : Z).

(** The command line of a slot that may be booted: the part of
    [avb_slot_verify] under [result_should_continue], which leaves the slot
    data complete or exits with an error. *)
Definition finish_slot (suffix : bytes) (hashtree_error_mode : AvbHashtreeErrorMode)
    (algorithm_type : Z) (subst : AvbCmdlineSubstList) (s : AvbSlotVerifyData)
    : comp W (AvbSlotVerifyResult + AvbSlotVerifyData) :=
  match vbmeta_images s with
  | [] => null_deref
  | image :: _ =>
      match vbmeta_partition_name image with
      | None => null_deref
      | Some name =>
          let using_boot_for_vbmeta := negb (bool_decide (name = str "vbmeta")) in
          assert (negb using_boot_for_vbmeta || bool_decide (name = str "boot"));;
          toplevel_vbmeta ← lift (avb_vbmeta_image_header_to_host_byte_order (vbmeta_data image));
          dup ← avb_strdup suffix;
          match dup with
          | None => mret (inl AVB_SLOT_VERIFY_RESULT_ERROR_OOM)
          | Some _ =>
              let s := set_ab_suffix dup s in
              r ← (if has_flag (flags toplevel_vbmeta)
                        AVB_VBMETA_IMAGE_FLAGS_VERIFICATION_DISABLED
                   then
                     assert (bool_decide (cmdline s = None));;
                     c ← avb_strdup (str "root=PARTUUID=$(ANDROID_SYSTEM_PARTUUID)");
                     mret (match c with
                           | None => (AVB_SLOT_VERIFY_RESULT_ERROR_OOM, None)
                           | Some _ => (AVB_SLOT_VERIFY_RESULT_OK, c)
                           end)
                   else avb_append_options s toplevel_vbmeta algorithm_type hashtree_error_mode);
              let '(sub_ret, c) := r in
              if negb (bool_decide (sub_ret = AVB_SLOT_VERIFY_RESULT_OK)) then mret (inl sub_ret)
              else
                match c with
                | None => mret (inr (set_cmdline None s))
                | Some c =>
                    new_cmdline ← avb_sub_cmdline c suffix using_boot_for_vbmeta subst;
                    match new_cmdline with
                    | None => mret (inl AVB_SLOT_VERIFY_RESULT_ERROR_OOM)
                    | Some _ => mret (inr (set_cmdline new_cmdline s))
                    end
                end
          end
      end
  end.

(** What follows the walk over the vbmeta images, up to the labels [out] and [fail]. *)
Definition conclude_slot (suffix : bytes) (hashtree_error_mode : AvbHashtreeErrorMode)
    (allow_verification_error : bool) (r : AvbSlotVerifyResult * SlotState W)
    : comp W (AvbSlotVerifyResult * option AvbSlotVerifyData) :=
  let '(ret, st) := r in
  if negb allow_verification_error && negb (bool_decide (ret = AVB_SLOT_VERIFY_RESULT_OK))
  then mret (ret, None)
  else if result_should_continue ret then
    f ← finish_slot suffix hashtree_error_mode (out_algorithm_type st) (cmdline_subst st)
          (slot_data st);
    match f with
    | inl ret => mret (ret, None)
    | inr s =>
        assert (allow_verification_error || bool_decide (ret = AVB_SLOT_VERIFY_RESULT_OK));;
        mret (ret, Some s)
    end
  else
    assert (allow_verification_error || bool_decide (ret = AVB_SLOT_VERIFY_RESULT_OK));;
    mret (ret, None).

(** The result and [*out_data]; the callers pass a non-null [out_data]. *)
Definition avb_slot_verify (requested_partitions : list bytes) (suffix : bytes)
    (slot_flags : Z) (hashtree_error_mode : AvbHashtreeErrorMode)
    : comp W (AvbSlotVerifyResult * option AvbSlotVerifyData) :=
  let allow_verification_error :=
    has_flag slot_flags AVB_SLOT_VERIFY_FLAGS_ALLOW_VERIFICATION_ERROR in
  if bool_decide (hashtree_error_mode = AVB_HASHTREE_ERROR_MODE_LOGGING) &&
     negb allow_verification_error
  then mret (AVB_SLOT_VERIFY_RESULT_ERROR_INVALID_ARGUMENT, None)
  else
    a ← avb_calloc sizeof_AvbSlotVerifyData;
    if bool_decide (a = None) then mret (AVB_SLOT_VERIFY_RESULT_ERROR_OOM, None) else
    a ← avb_calloc (sizeof_AvbVBMetaData * MAX_NUMBER_OF_VBMETA_IMAGES);
    if bool_decide (a = None) then mret (AVB_SLOT_VERIFY_RESULT_ERROR_OOM, None) else
    a ← avb_calloc (sizeof_AvbPartitionData * MAX_NUMBER_OF_LOADED_PARTITIONS);
    if bool_decide (a = None) then mret (AVB_SLOT_VERIFY_RESULT_ERROR_OOM, None) else
    subst ← avb_new_cmdline_subst_list;
    match subst with
    | None => mret (AVB_SLOT_VERIFY_RESULT_ERROR_OOM, None)
    | Some subst =>
        r ← (fun w =>
          match load_and_verify_vbmeta fuel buffer_address uninit_count requested_partitions suffix
                  allow_verification_error 3 0 0 (str "vbmeta" ++ [0]) 6 None true
                  (mkState w empty_slot_data subst AVB_ALGORITHM_TYPE_NONE) with
          | Ret (ret, st) => Ret ((ret, st), world st)
          | Crash c => Crash c
          end);
        conclude_slot suffix hashtree_error_mode allow_verification_error r
    end.

End SlotVerify.

(** ** A simulated platform

    Partitions by name, one trusted key, and a world without state; the
    operations behave as documented. *)

Record Platform := mkPlatform {
  partitions : list (bytes * bytes);
  device_key : bytes;
  device_unlocked : bool;
  stored_rollback : Z;
  persistent_values : option (list (bytes * bytes));
}.

Fixpoint find_partition (ps : list (bytes * bytes)) (name : bytes) : option bytes :=
  match ps with
  | [] => None
  | (n, data) :: ps => if decide (n = name) then Some data else find_partition ps name
  end.

(** A buffer of [num_bytes] that starts with [data]. *)
Definition fill_buffer (num_bytes : Z) (data : bytes) : bytes :=
  data ++ replicate (Z.to_nat (num_bytes - zlen data)) 0.

Definition platform_read (pl : Platform) (name : bytes) (offset num_bytes : Z)
    : AvbIOResult * (bytes * Z) :=
  match find_partition (partitions pl) name with
  | None => (AVB_IO_RESULT_ERROR_NO_SUCH_PARTITION, (fill_buffer num_bytes [], 0))
  | Some data =>
      let got := slice data (if offset <? 0 then zlen data + offset else offset) num_bytes in
      (AVB_IO_RESULT_OK, (fill_buffer num_bytes got, zlen got))
  end.

Definition platform_ops (pl : Platform) : AvbOps unit := {|
  read_from_partition := fun name offset n => mret (platform_read pl name offset n);
  get_preloaded_partition := None;
  validate_vbmeta_public_key := fun key _ =>
    mret (AVB_IO_RESULT_OK, bool_decide (key = device_key pl));
  read_rollback_index := fun _ => mret (AVB_IO_RESULT_OK, stored_rollback pl);
  read_is_device_unlocked := mret (AVB_IO_RESULT_OK, device_unlocked pl);
  get_unique_guid_for_partition := fun name _ =>
    mret (AVB_IO_RESULT_OK, str "guid-of-" ++ name);
  get_size_of_partition := Some (fun name =>
    mret (match find_partition (partitions pl) name with
          | None => (AVB_IO_RESULT_ERROR_NO_SUCH_PARTITION, 0)
          | Some data => (AVB_IO_RESULT_OK, zlen data)
          end));
  read_persistent_value := match persistent_values pl with
    | None => None
    | Some vs => Some (fun name n =>
        mret (match find_partition vs name with
              | None => (AVB_IO_RESULT_ERROR_NO_SUCH_VALUE, (fill_buffer n [], 0))
              | Some v => (AVB_IO_RESULT_OK, (fill_buffer n v, zlen v))
              end))
    end;
|}.
