(* ===== verification/SlotSound.v ===== *)
(** * What a verified slot guarantees

    Theorems on slot verification: on a locked device without persistent
    digests a successful [avb_slot_verify] means that every vbmeta image is
    signed by a key that is trusted or endorsed by the main image, that no
    rollback index is below the stored one, and that every partition handed out
    has the digest the signed descriptors give it; how the result can be wrong
    outside these conditions; and that the recursion is bounded. *)

From S2P Require Import Prelude AvbUtil Sha2 Sha2Spec Rsa Vbmeta Descriptors AvbOps Cmdline SlotVerify.

(** ** Reasoning on the state *)

(** [triple P m Q E]: started with slot data satisfying [P], [m] ends, if it
    ends, with a value satisfying [Q] or an exit satisfying [E]. *)
Definition triple {W A} (P : AvbSlotVerifyData → Prop) (m : M W A)
    (Q : A → AvbSlotVerifyData → Prop) (E : AvbSlotVerifyResult → AvbSlotVerifyData → Prop)
    : Prop :=
  ∀ st r st', P (slot_data st) → m st = Ret (r, st') →
    match r with inl e => E e (slot_data st') | inr a => Q a (slot_data st') end.

Section Rules.
Context {W : Type}.
Implicit Types (P : AvbSlotVerifyData → Prop) (E : AvbSlotVerifyResult → AvbSlotVerifyData → Prop).

Lemma triple_ret {A} P (a : A) (Q : A → AvbSlotVerifyData → Prop) E :
  (∀ s, P s → Q a s) → triple (W := W) P (mret a) Q E.
Proof. intros HQ st r st' HP [= <- <-]. auto. Qed.

Lemma triple_stop {A} P r (Q : A → AvbSlotVerifyData → Prop) E :
  (∀ s, P s → E r s) → triple (W := W) P (stop r) Q E.
Proof. intros HE st r' st' HP [= <- <-]. auto. Qed.

Lemma triple_bind {A B} P (m : M W A) (f : A → M W B) R Q E :
  triple P m R E → (∀ a, triple (R a) (f a) Q E) → triple P (mbind f m) Q E.
Proof.
  intros Hm Hf st r st' HP Er. unfold mbind, M_bind in Er.
  destruct (m st) as [[[e|a] st1]|] eqn:Em; [|..|discriminate Er].
  - injection Er as <- <-. exact (Hm _ _ _ HP Em).
  - exact (Hf _ _ _ _ (Hm _ _ _ HP Em) Er).
Qed.

(** What is known after a call: that it returned. *)
Lemma triple_call {A} P (m : comp W A) E :
  triple P (call m) (λ a s, P s ∧ ∃ w w', m w = Ret (a, w')) E.
Proof.
  intros st r st' HP Er. unfold call in Er.
  destruct (m (world st)) as [[a w]|] eqn:Em; [|discriminate Er].
  injection Er as <- <-. split; [done|]. by exists (world st), w.
Qed.

Lemma triple_lift {A} P (m : run A) E :
  triple (W := W) P (call (lift m)) (λ a s, P s ∧ m = Ret a) E.
Proof.
  intros st r st' HP Er. unfold call, lift in Er.
  destruct m as [a|]; [|discriminate Er]. injection Er as <- <-. done.
Qed.

Lemma triple_assert P b E :
  triple (W := W) P (call (assert b)) (λ _ s, P s ∧ b = true) E.
Proof.
  intros st r st' HP Er. unfold call, assert in Er.
  destruct b; [|discriminate Er]. injection Er as <- <-. done.
Qed.

Lemma triple_get_slot {B} P (f : AvbSlotVerifyData → M W B) Q E :
  (∀ s0, P s0 → triple (λ s, s = s0) (f s0) Q E) → triple P (mbind f get_slot) Q E.
Proof. intros Hf st r st' HP Er. exact (Hf _ HP st r st' eq_refl Er). Qed.

Lemma triple_set_slot_data P s' (Q : unit → AvbSlotVerifyData → Prop) E :
  (∀ s, P s → Q tt s') → triple (W := W) P (set_slot_data s') Q E.
Proof. intros HQ st r st' HP [= <- <-]. cbn. eauto. Qed.

Lemma triple_pre {A} P P' (m : M W A) Q E :
  (∀ s, P s → P' s) → triple P' m Q E → triple P m Q E.
Proof. intros HP Hm st r st' H1 Er. exact (Hm _ _ _ (HP _ H1) Er). Qed.

Lemma triple_post {A} P (m : M W A) (Q Q' : A → AvbSlotVerifyData → Prop) E :
  (∀ a s, Q' a s → Q a s) → triple P m Q' E → triple P m Q E.
Proof.
  intros HQ Hm st r st' H1 Er. specialize (Hm _ _ _ H1 Er). destruct r; auto.
Qed.

(** A fact independent of the state. *)
Lemma triple_fact {A} P (F : Prop) (m : M W A) Q E :
  (F → triple P m Q E) → triple (λ s, P s ∧ F) m Q E.
Proof. intros Hm st r st' [H1 HF]. exact (Hm HF _ _ _ H1). Qed.

Lemma triple_sub_call P (m : comp (SlotState W) AvbSlotVerifyResult)
    (Q : AvbSlotVerifyResult → AvbSlotVerifyData → Prop) E :
  (∀ st r st', P (slot_data st) → m st = Ret (r, st') → Q r (slot_data st')) →
  triple P (sub_call m) Q E.
Proof.
  intros Hm st r st' HP Er. unfold sub_call in Er.
  destruct (m st) as [[a st1]|] eqn:Em; [|discriminate Er]. injection Er as <- <-. eauto.
Qed.

(** [goto out] and falling through to it give the result alike. *)
Lemma out_triple (P : AvbSlotVerifyData → Prop) (m : M W AvbSlotVerifyResult) Q st r st' :
  triple P m Q Q → P (slot_data st) → out m st = Ret (r, st') → Q r (slot_data st').
Proof.
  intros Hm HP Er. unfold out in Er.
  destruct (m st) as [[[e|a] st1]|] eqn:Em; [| |discriminate Er];
    injection Er as <- <-; exact (Hm _ _ _ HP Em).
Qed.

End Rules.

(** ** The guarantees *)

(** The partition [p] is what the hash descriptor [desc] describes: it goes by
    the descriptor's name, and the digest in the descriptor is the FIPS digest of
    the salt and the image (of any size the code hashes correctly).  Name, salt
    and digest are inside of the descriptor. *)
Definition partition_matches (desc : bytes) (p : AvbPartitionData) : Prop :=
  ∃ d alg digest_len,
    avb_hash_descriptor_validate_and_byteswap desc = Ret (Some d) ∧
    descriptor_hash (hash_algorithm_name d) = Ret (Some (alg, digest_len)) ∧
    hash_digest_len d = digest_len ∧
    sizeof_AvbHashDescriptor + hash_partition_name_len d + hash_salt_len d + digest_len
      ≤ sizeof_AvbDescriptor + be64_at desc 8 ∧
    (∀ name, loaded_name p = Some name →
       name = slice desc sizeof_AvbHashDescriptor (hash_partition_name_len d)) ∧
    (hash_salt_len d + hash_image_size d < 0x20000000 →
     hash_image_size d ≤ zlen (loaded_data p) ∧
     slice desc (sizeof_AvbHashDescriptor + hash_partition_name_len d + hash_salt_len d) digest_len =
     sha2_digest alg
       (slice desc (sizeof_AvbHashDescriptor + hash_partition_name_len d) (hash_salt_len d) ++
        slice (loaded_data p) 0 (hash_image_size d))).

Lemma descriptor_hash_cases name alg len :
  descriptor_hash name = Ret (Some (alg, len)) →
  alg = SHA256 ∧ len = 32 ∨ alg = SHA512 ∧ len = 64.
Proof.
  intros E. unfold descriptor_hash in E. apply run_bind_Ret in E as (b & _ & E).
  destruct b; [injection E as <- <-; by left|].
  apply run_bind_Ret in E as (b & _ & E). destruct b; [injection E as <- <-; by right|discriminate E].
Qed.

Lemma validate_descriptor_fields {D} size t (swap : bytes → AvbDescriptor → D) extra base lens src d :
  validate_descriptor size t swap extra base lens src = Ret (Some d) →
  ∃ l parent, rd src 0 size = Ret l ∧ d = swap l parent.
Proof.
  intros E. unfold validate_descriptor in E. apply run_bind_Ret in E as (l & El & E).
  apply run_bind_Ret in E as ([ok parent] & _ & E).
  repeat (case_match; try discriminate E). injection E as <-. by exists l, parent.
Qed.

Lemma hash_descriptor_words desc d :
  avb_hash_descriptor_validate_and_byteswap desc = Ret (Some d) →
  is_u32 (hash_partition_name_len d) ∧ is_u32 (hash_salt_len d) ∧ is_u64 (hash_image_size d) ∧
  is_u32 (hash_digest_len d).
Proof.
  intros E. apply validate_descriptor_fields in E as (l & parent & _ & ->).
  cbn. unfold be32_at, be64_at. auto with words.
Qed.

Lemma hash_descriptor_inside desc d :
  avb_hash_descriptor_validate_and_byteswap desc = Ret (Some d) →
  sizeof_AvbHashDescriptor + hash_partition_name_len d + hash_salt_len d + hash_digest_len d
    ≤ sizeof_AvbDescriptor + be64_at desc 8.
Proof.
  intros E. pose proof E as E'. apply validate_descriptor_fields in E' as (l & parent & El & _).
  apply rd_Ret in El as (_ & _ & Hl & _). unfold avb_hash_descriptor_validate_and_byteswap in E.
  rewrite validate_descriptor_spec in E; [|done|done|].
  - case_bool_decide as Hc; [|discriminate E]. injection E as <-. destruct Hc as (_ & _ & _ & Hc).
    cbn in Hc |- *. unfold sizeof_AvbHashDescriptor, sizeof_AvbDescriptor in *. lia.
  - cbn. repeat (apply Forall_cons_2; [unfold be32_at; auto with words|]). apply Forall_nil_2.
Qed.

Lemma header_fields data h :
  avb_vbmeta_image_header_to_host_byte_order data = Ret h →
  authentication_data_block_size h = be64_at data 12 ∧ auxiliary_data_block_size h = be64_at data 20
  ∧ descriptors_offset h = be64_at data 96 ∧ descriptors_size h = be64_at data 104.
Proof.
  intros E. apply run_bind_Ret in E as (l & El & E). apply rd_Ret in El as (_ & _ & _ & ->). injection E as <-.
  split_and!; by apply be64_at_prefix.
Qed.

Lemma strv_find_str_spec strings s n x :
  avb_strv_find_str strings s n = Some x → x ∈ strings ∧ x = take (Z.to_nat n) s.
Proof.
  induction strings as [|y strings IH]; cbn [avb_strv_find_str]; [done|].
  destruct (_ && _) eqn:Eb.
  - intros [= <-]. apply andb_true_iff in Eb as [_ Eb]. apply bool_decide_eq_true_1 in Eb.
    split; [by left|done].
  - intros E. apply IH in E as [? ?]. split; [by right|done].
Qed.

Section Hash.
Context {W : Type} `{Heap W} `{AvbOps W}.

(** A successful comparison against the digest in the descriptor. *)
Lemma check_hash_ok d desc part_name buf (w w' : W) name size pre :
  avb_hash_descriptor_validate_and_byteswap desc = Ret (Some d) →
  hash_digest_len d ≠ 0 → bytes_ok desc → bytes_ok buf →
  check_hash d desc part_name buf w = Ret (AVB_SLOT_VERIFY_RESULT_OK, w') →
  (∀ n, name = Some n → n = slice desc sizeof_AvbHashDescriptor (hash_partition_name_len d)) →
  partition_matches desc (mkPartition name buf size pre).
Proof.
  intros Ed Hd Hbd Hbb E Hn. destruct (hash_descriptor_words _ _ Ed) as (Wn & Ws & Wi & Wd).
  unfold is_u32, is_u64 in *. unfold check_hash in E.
  apply comp_bind_Ret in E as (alg & w1 & Ea & E). apply lift_Ret in Ea as (alg' & Ea & [= <- <-]).
  destruct alg as [[p len]|]; [|discriminate E].
  apply comp_bind_Ret in E as (digest & w2 & Eg & E). apply lift_Ret in Eg as (g & Eg & [= <- <-]).
  rewrite (proj2 (Z.eqb_neq _ 0)) in E by done. cbv beta zeta in E.
  destruct (Z.eqb_spec len (hash_digest_len d)) as [El|]; cbn [negb] in E; [|discriminate E].
  apply comp_bind_Ret in E as (r & w3 & Er & E). apply lift_Ret in Er as (r' & Er & [= <- <-]).
  destruct (Z.eqb_spec r 0) as [->|]; cbn [negb] in E; [|discriminate E].
  apply safe_memcmp_zero in Er. pose proof (descriptor_hash_cases _ _ _ Ea) as Hc.
  exists d, p, len. split; [done|]. split; [done|]. split; [done|].
  split; [rewrite El; by apply hash_descriptor_inside|]. split; [exact Hn|].
  intros Hlt. cbn [loaded_data].
  apply hash_two_inv in Eg as (L1 & L2 & Lg & Sg); [|tauto|lia|lia].
  split; [done|]. specialize (Sg ltac:(by apply Forall_drop) Hbb Hlt).
  assert (slice digest 0 len = digest) as Efull.
  { apply slice_full. unfold zlen. rewrite Lg. destruct Hc as [[-> ->]|[-> ->]]; done. }
  rewrite Efull in Er. rewrite Sg in Er. unfold sizeof_AvbHashDescriptor in *.
  rewrite !slice_drop, ?Z.add_0_r in Er by lia. rewrite <-Er. done.
Qed.

Variables (requested_partitions : list bytes) (suffix : bytes) (allow : bool).
Hypothesis no_persistent : read_persistent_value (W := W) = None.
Hypothesis reads : ∀ part off n (w : W) buf k w',
  read_from_partition part off n w = Ret ((AVB_IO_RESULT_OK, (buf, k)), w') →
  bytes_ok buf ∧ (0 ≤ n → zlen buf = n ∧ 0 ≤ k).
Hypothesis preloads : ∀ get part n (w : W) buf k w', get_preloaded_partition = Some get →
  get part n w = Ret ((AVB_IO_RESULT_OK, (Some buf, k)), w') → bytes_ok buf.

Lemma load_full_bytes part n (w w' : W) buf pre :
  load_full_partition part n w = Ret (inr (buf, pre), w') → bytes_ok buf.
Proof using reads preloads.
  intros E. unfold load_full_partition in E.
  assert (∀ w : W, (ok ← avb_malloc n;
    if negb ok then mret (inl AVB_SLOT_VERIFY_RESULT_ERROR_OOM)
    else io ← read_from_partition part 0 n;
      let '(io_ret, (buf, part_num_read)) := io in
      match io_error io_ret with
      | Some ret => mret (inl ret)
      | None => if negb (part_num_read =? n) then mret (inl AVB_SLOT_VERIFY_RESULT_ERROR_IO)
                else mret (inr (buf, false))
      end) w = Ret (inr (buf, pre), w') → bytes_ok buf) as Hread.
  { intros w0 E0. apply comp_bind_Ret in E0 as (ok & w1 & _ & E0). destruct ok; [|discriminate E0].
    apply comp_bind_Ret in E0 as ([io [b k]] & w2 & E1 & E0). destruct io; try discriminate E0.
    cbn [io_error] in E0. destruct (negb _); [discriminate E0|]. injection E0 as -> _ _.
    by destruct (reads _ _ _ _ _ _ _ E1). }
  destruct get_preloaded_partition as [get|] eqn:Eg; [|by eapply Hread].
  apply comp_bind_Ret in E as ([io [b k]] & w1 & E1 & E). destruct io; try discriminate E.
  cbn [io_error] in E. destruct b as [b|]; [|by eapply Hread].
  destruct (negb _); [discriminate E|]. injection E as -> _ _. by eapply preloads.
Qed.

Lemma check_hash_no_digest d desc part_name buf (w w' : W) :
  hash_digest_len d = 0 →
  check_hash d desc part_name buf w = Ret (AVB_SLOT_VERIFY_RESULT_OK, w') → False.
Proof using no_persistent.
  intros Hd E. unfold check_hash in E.
  apply comp_bind_Ret in E as (alg & w1 & Ea & E). apply lift_Ret in Ea as (alg' & _ & [= <- <-]).
  destruct alg as [[p len]|]; [|discriminate E].
  apply comp_bind_Ret in E as (digest & w2 & Eg & E). apply lift_Ret in Eg as (g & _ & [= <- <-]).
  rewrite Hd in E. cbn [Z.eqb] in E. apply comp_bind_Ret in E as (u & w3 & Eu & E).
  unfold read_persistent_digest in E. rewrite no_persistent in E. discriminate E.
Qed.

Lemma verify_hash_partition_ok desc (w w' : W) found p :
  bytes_ok desc →
  verify_hash_partition requested_partitions suffix allow desc w =
    Ret ((AVB_SLOT_VERIFY_RESULT_OK, Some (found, p)), w') →
  ∀ name, name = None ∨ name = Some found →
    partition_matches desc (mkPartition name (loaded_data p) (loaded_size p) (preloaded p)).
Proof using no_persistent reads preloads.
  intros Hbd E name Hname. unfold verify_hash_partition in E.
  apply comp_bind_Ret in E as (d & w1 & Ed & E). apply lift_Ret in Ed as (d' & Ed & [= <- <-]).
  destruct d as [d|]; [|discriminate E].
  apply comp_bind_Ret in E as (utf8 & w2 & _ & E). destruct utf8; [|discriminate E].
  cbn [negb] in E.
  destruct (avb_strv_find_str _ _ _) as [found'|] eqn:Ef; [|discriminate E].
  apply strv_find_str_spec in Ef as [_ Ef].
  apply comp_bind_Ret in E as (pn & w3 & _ & E). destruct pn as [part_name|]; [|discriminate E].
  apply comp_bind_Ret in E as (size & w4 & _ & E). destruct size as [e|size]; [discriminate E|].
  apply comp_bind_Ret in E as (l & w5 & Eb & E). destruct l as [e|[buf pre]]; [discriminate E|].
  apply load_full_bytes in Eb.
  apply comp_bind_Ret in E as (ret & w6 & Ec & E). apply comp_ret_eq in E.
  injection E as <- -> -> ->. cbn [loaded_data loaded_size preloaded].
  destruct (decide (hash_digest_len d = 0)) as [Hz|Hz].
  { exfalso. eapply check_hash_no_digest; [exact Hz|exact Ec]. }
  eapply check_hash_ok; [exact Ed|exact Hz|exact Hbd|exact Eb|exact Ec|].
  intros n Hn. destruct Hname as [-> | ->]; [discriminate Hn|]. injection Hn as <-. exact Ef.
Qed.

(** The partition that may be added to the slot data. *)
Lemma hash_partition_triple desc s0 :
  bytes_ok desc →
  triple (λ s, s = s0)
    (sub_call (load_and_verify_hash_partition (W := W) requested_partitions suffix allow desc))
    (λ ret s, s = s0 ∨ ∃ p, s = add_loaded_partition p s0 ∧
       (ret = AVB_SLOT_VERIFY_RESULT_OK → partition_matches desc p))
    (λ _ _, False).
Proof using no_persistent reads preloads.
  intros Hbd. apply triple_sub_call. intros st r st' HP Er.
  set (Q := λ (ret : AvbSlotVerifyResult) s, s = s0 ∨ ∃ p, s = add_loaded_partition p s0 ∧
       (ret = AVB_SLOT_VERIFY_RESULT_OK → partition_matches desc p)).
  change (Q r (slot_data st')).
  refine (out_triple (λ s, s = s0) _ Q _ _ _ _ HP Er). clear HP Er.
  eapply triple_bind; [apply triple_call|]. intros [ret [[found p]|]]; cbv beta iota.
  2:{ apply triple_ret. intros s [-> _]. by left. }
  apply triple_fact. intros (w & w' & Ev).
  destruct (bool_decide _ || _); [|apply triple_ret; by left].
  apply triple_get_slot. intros s1 ->.
  destruct (_ =? _); [apply triple_stop; by left|].
  eapply triple_bind; [apply triple_call|]. intros name. cbv beta.
  apply triple_fact. intros (w1 & w1' & Es). eapply triple_bind.
  { apply (triple_set_slot_data _ _ (λ _ s, s = add_loaded_partition
      (mkPartition name (loaded_data p) (loaded_size p) (preloaded p)) s0)). done. }
  intros []. apply triple_ret. intros s ->. right. eexists. split; [reflexivity|]. intros ->.
  eapply verify_hash_partition_ok; [exact Hbd|exact Ev|]. unfold avb_strdup in Es.
  apply comp_bind_Ret in Es as (b & w2 & _ & Es). injection Es as <- _. destruct b; auto.
Qed.

End Hash.

(** ** Locked devices *)

Section Guarantee.
Context {W : Type} `{Heap W} `{AvbOps W}.

(** The keys the device accepts and the rollback indexes it has stored. *)
Variables (trusted : bytes → Prop) (stored_index : Z → Z).

(** The memory does not run out, and the operations fill buffers with bytes. *)
Hypothesis roomy : ∀ n (w : W), (heap_alloc n w).1 = true.
Hypothesis no_persistent : read_persistent_value (W := W) = None.
Hypothesis reads : ∀ part off n (w : W) buf k w',
  read_from_partition part off n w = Ret ((AVB_IO_RESULT_OK, (buf, k)), w') →
  bytes_ok buf ∧ (0 ≤ n → zlen buf = n ∧ 0 ≤ k).
Hypothesis preloads : ∀ get part n (w : W) buf k w', get_preloaded_partition = Some get →
  get part n w = Ret ((AVB_IO_RESULT_OK, (Some buf, k)), w') → bytes_ok buf.

(** [data] is a vbmeta image with the digest and the signature, by [key], that
    its header announces. *)
Definition signed_with (data key : bytes) : Prop :=
  ∃ n off len, n ≤ zlen data ∧ authentic data n (Some (off, len)) ∧ key = slice data off len.

(** A descriptor is at [off], in the area the signed header gives; the whole of it
    is under the signature when that area is in the auxiliary block and its
    length is not one that makes the address behind it wrap. *)
Definition signed_descriptor (data : bytes) (off : Z) : Prop :=
  descriptor_place data off ∧
  ∀ h, avb_vbmeta_image_header_to_host_byte_order data = Ret h →
    let aux := AVB_VBMETA_IMAGE_HEADER_SIZE + authentication_data_block_size h in
    let total := sizeof_AvbDescriptor + be64_at data (off + 8) in
    descriptors_offset h + descriptors_size h ≤ auxiliary_data_block_size h → total ≤ 2 ^ 63 →
    aux ≤ off ∧ off + total ≤ aux + auxiliary_data_block_size h.

Lemma place_signed data off n h :
  avb_vbmeta_image_header_to_host_byte_order data = Ret h → header_layout h n → n < 2 ^ 63 →
  descriptor_place data off → signed_descriptor data off.
Proof.
  intros Eh HL Hn Hp. split; [done|]. intros h' Eh'. rewrite Eh in Eh'. injection Eh' as <-. cbv zeta.
  destruct (header_words_ok _ _ Eh) as (Wa & Wx & _). pose proof (hl_total _ _ HL) as Htot.
  destruct (header_fields _ _ Eh) as (Ea & Ex & Eo & Es). destruct Hp as [[Hp1 Hp2] Hp3].
  assert (is_u64 (descriptors_offset h) ∧ is_u64 (descriptors_size h)) as [W2 W3]
    by (rewrite Eo, Es; unfold be64_at; auto with words).
  rewrite <-Ea, <-Eo, <-Es in *. clear Ea Ex Eo Es. intros Ha Ht. specialize (Hp3 Ht). revert Hp1 Hp2 Hp3.
  unfold is_u64, AVB_VBMETA_IMAGE_HEADER_SIZE in *. generalize (sizeof_AvbDescriptor + be64_at data (off + 8)).
  rewrite u64_small by (unfold is_u64; lia). lia.
Qed.

(** The image is signed by a key with the property [ok] and not older than the
    index stored at [location]. *)
Definition image_good (ok : bytes → Prop) (location : Z) (im : AvbVBMetaData) : Prop :=
  verify_result im = AVB_VBMETA_VERIFY_RESULT_OK ∧
  ∃ key h, bytes_ok (vbmeta_data im) ∧ signed_with (vbmeta_data im) key ∧ ok key ∧
    avb_vbmeta_image_header_to_host_byte_order (vbmeta_data im) = Ret h ∧
    stored_index (u64 location) ≤ rollback_index h.

(** The key is the one a chain descriptor at [off] of the main image gives. *)
Definition endorsed (data : bytes) (off : Z) (d : AvbChainPartitionDescriptor) (key : bytes) : Prop :=
  signed_descriptor data off ∧
  avb_chain_partition_descriptor_validate_and_byteswap (drop (Z.to_nat off) data) = Ret (Some d) ∧
  key = slice (drop (Z.to_nat (chain_partition_name_len d))
                 (drop (Z.to_nat sizeof_AvbChainPartitionDescriptor) (drop (Z.to_nat off) data)))
          0 (chain_public_key_len d).

Definition chain_good (main im : AvbVBMetaData) : Prop :=
  ∃ off d, image_good (endorsed (vbmeta_data main) off d) (s32 (rollback_index_location d)) im.

Definition partition_good (images : list AvbVBMetaData) (p : AvbPartitionData) : Prop :=
  ∃ im off, im ∈ images ∧ signed_descriptor (vbmeta_data im) off ∧ partition_matches (drop (Z.to_nat off) (vbmeta_data im)) p.

(** The main image does not ask for verification to be skipped. *)
Definition verification_enabled (data : bytes) : Prop :=
  ∀ h, avb_vbmeta_image_header_to_host_byte_order data = Ret h →
    has_flag (flags h) AVB_VBMETA_IMAGE_FLAGS_VERIFICATION_DISABLED = false.

Definition slot_good (s : AvbSlotVerifyData) : Prop :=
  ∃ main rest, vbmeta_images s = main :: rest ∧ image_good trusted 0 main ∧
    Forall (chain_good main) rest ∧
    (verification_enabled (vbmeta_data main) →
     Forall (partition_good (vbmeta_images s)) (loaded_partitions s)).

(** The slot data while the descriptors of [im] are handled: [main] is the
    first image, and the data is good as long as no error has occurred, provided
    it was good before, [G]. *)
Definition handling (G : Prop) (main im : AvbVBMetaData) (ret : AvbSlotVerifyResult)
    (s : AvbSlotVerifyData) : Prop :=
  (∃ rest, vbmeta_images s = main :: rest) ∧ im ∈ vbmeta_images s ∧
  (ret = AVB_SLOT_VERIFY_RESULT_OK → G → slot_good s).

Lemma slot_good_same s s' :
  vbmeta_images s' = vbmeta_images s → loaded_partitions s' = loaded_partitions s →
  slot_good s → slot_good s'.
Proof. unfold slot_good. by intros -> ->. Qed.

Lemma handling_same G main im ret s s' :
  vbmeta_images s' = vbmeta_images s → loaded_partitions s' = loaded_partitions s →
  handling G main im ret s → handling G main im ret s'.
Proof.
  intros Ei El (H1 & H2 & H3). unfold handling. rewrite Ei.
  split; [done|]. split; [done|]. intros Hr HG. eapply slot_good_same; eauto.
Qed.

Lemma handling_error G main im ret e s :
  handling G main im ret s → e ≠ AVB_SLOT_VERIFY_RESULT_OK → handling G main im e s.
Proof. intros (H1 & H2 & _) He. split; [done|]. split; [done|]. by intros ->. Qed.

Lemma slot_good_add_partition s p :
  slot_good s → partition_good (vbmeta_images s) p → slot_good (add_loaded_partition p s).
Proof.
  intros (main & rest & E & Hm & Hc & Hp) Hg. exists main, rest.
  split; [done|]. split; [done|]. split; [done|]. intros Hv. cbn.
  apply Forall_app. split; [by apply Hp|]. by constructor.
Qed.

Lemma partition_good_app images images' p :
  partition_good images p → partition_good (images ++ images') p.
Proof. intros (im & off & Hi & Hm). exists im, off. split; [apply elem_of_app; by left|done]. Qed.

Lemma slot_good_add_image s main rest im :
  vbmeta_images s = main :: rest → slot_good s → chain_good main im →
  slot_good (add_vbmeta_image im s).
Proof.
  intros E (main' & rest' & E' & Hm & Hc & Hp) Hg. rewrite E in E'. injection E' as <- <-.
  exists main, (rest ++ [im]). cbn [vbmeta_images add_vbmeta_image loaded_partitions].
  rewrite E. split; [done|]. split; [done|]. split; [apply Forall_app; split; [done|by constructor]|].
  intros Hv. specialize (Hp Hv). rewrite E in Hp. eapply Forall_impl; [exact Hp|].
  intros p. apply (partition_good_app (main :: rest)).
Qed.

Lemma slot_good_first im s :
  vbmeta_images s = [] → loaded_partitions s = [] → image_good trusted 0 im →
  slot_good (add_vbmeta_image im s).
Proof.
  intros E El Hg. exists im, []. cbn. rewrite E, El.
  split; [done|]. split; [done|]. split; [constructor|]. constructor.
Qed.

(** ** The checks on an image *)

Lemma io_error_not_ok io_ret e : io_error io_ret = Some e → e ≠ AVB_SLOT_VERIFY_RESULT_OK.
Proof. by destruct io_ret; intros [= <-]. Qed.

Section Checks.
Variables (P : AvbSlotVerifyData → Prop) (E : AvbSlotVerifyResult → AvbSlotVerifyData → Prop).
Hypothesis exit_ok : ∀ e s, e ≠ AVB_SLOT_VERIFY_RESULT_OK → P s → E e s.

Lemma check_image_triple r pk :
  triple (W := W) P (check_image_result false r pk)
    (λ ret s, P s ∧ ret = AVB_SLOT_VERIFY_RESULT_OK ∧ r = AVB_VBMETA_VERIFY_RESULT_OK ∧
       ∃ off len, pk = Some (off, len)) E.
Proof using exit_ok.
  destruct r; cbn [check_image_result tolerate];
    try (apply triple_stop; intros s Hs; by apply exit_ok).
  eapply triple_bind; [apply triple_assert|]. intros []. apply triple_fact. intros Hb.
  apply triple_ret. intros s Hs. destruct pk as [[off len]|]; [eauto 10|discriminate Hb].
Qed.

Lemma check_trusted_key_triple is_main buf h off len :
  (∀ key md (w w' : W), validate_vbmeta_public_key key md w = Ret ((AVB_IO_RESULT_OK, true), w') →
     trusted key) →
  triple (W := W) P (check_public_key false is_main None buf h (Some (off, len))
                       AVB_SLOT_VERIFY_RESULT_OK)
    (λ ret s, P s ∧ ret = AVB_SLOT_VERIFY_RESULT_OK ∧ trusted (slice buf off len)) E.
Proof using exit_ok.
  intros Ht. cbn [check_public_key].
  eapply triple_bind; [apply triple_assert|]. intros []. apply triple_fact. intros _.
  eapply (triple_bind _ _ _ (λ _, P)).
  { destruct (_ <? _); [|by apply triple_ret].
    eapply triple_bind; [apply triple_lift|]. intros m. apply triple_fact. intros _. by apply triple_ret. }
  intros md. eapply triple_bind; [apply triple_lift|]. intros key. apply triple_fact. intros Ek.
  apply rd_Ret in Ek as (_ & _ & _ & ->).
  eapply triple_bind; [apply triple_call|]. intros [io b]. apply triple_fact. intros (w & w' & Ev).
  destruct (io_error io) as [e|] eqn:Ei.
  { apply triple_stop. intros s Hs. apply exit_ok; [by eapply io_error_not_ok|done]. }
  destruct io; try discriminate Ei.
  destruct b; cbn [negb tolerate]; [|apply triple_stop; intros s Hs; by apply exit_ok].
  apply triple_ret. intros s Hs. split; [done|]. split; [done|]. by eapply Ht.
Qed.

Lemma check_endorsed_key_triple is_main key klen buf h off len :
  triple (W := W) P (check_public_key false is_main (Some (key, klen)) buf h (Some (off, len))
                       AVB_SLOT_VERIFY_RESULT_OK)
    (λ ret s, P s ∧ ret = AVB_SLOT_VERIFY_RESULT_OK ∧ slice buf off len = slice key 0 klen) E.
Proof using exit_ok.
  cbn [check_public_key].
  eapply triple_bind; [apply triple_assert|]. intros []. apply triple_fact. intros _.
  destruct (Z.eqb_spec klen len) as [->|]; cbn [negb tolerate];
    [|apply triple_stop; intros s Hs; by apply exit_ok].
  eapply triple_bind; [apply triple_lift|]. intros r. apply triple_fact. intros Er.
  destruct (Z.eqb_spec r 0) as [->|]; cbn [negb tolerate];
    [|apply triple_stop; intros s Hs; by apply exit_ok].
  apply triple_ret. intros s Hs. split; [done|]. split; [done|].
  apply safe_memcmp_zero in Er. rewrite Er. unfold slice. by rewrite drop_0.
Qed.

Lemma check_rollback_triple location h :
  (∀ loc (w : W) x w', read_rollback_index loc w = Ret ((AVB_IO_RESULT_OK, x), w') →
     x = stored_index loc) →
  triple (W := W) P (check_rollback_index false location h AVB_SLOT_VERIFY_RESULT_OK)
    (λ ret s, P s ∧ ret = AVB_SLOT_VERIFY_RESULT_OK ∧
       stored_index (u64 location) ≤ rollback_index h) E.
Proof using exit_ok.
  intros Hi. unfold check_rollback_index.
  eapply triple_bind; [apply triple_call|]. intros [io x]. apply triple_fact. intros (w & w' & Ev).
  destruct (io_error io) as [e|] eqn:Ei.
  { apply triple_stop. intros s Hs. apply exit_ok; [by eapply io_error_not_ok|done]. }
  destruct io; try discriminate Ei. apply Hi in Ev as ->.
  destruct (Z.ltb_spec (rollback_index h) (stored_index (u64 location))); cbn [tolerate];
    [apply triple_stop; intros s Hs; by apply exit_ok|].
  apply triple_ret. intros s Hs. done.
Qed.

End Checks.

Lemma record_triple is_main name buf h r s0 (E : AvbSlotVerifyResult → AvbSlotVerifyData → Prop) :
  (∀ e, e ≠ AVB_SLOT_VERIFY_RESULT_OK → E e s0) →
  triple (W := W) (λ s, s = s0) (record_vbmeta is_main name buf h r)
    (λ _ s, (∃ n size, s = add_vbmeta_image (mkVBMeta n buf size r) s0) ∧
       (is_main = true → vbmeta_images s0 = [])) E.
Proof.
  intros HE. unfold record_vbmeta. apply triple_get_slot. intros s ->.
  eapply triple_bind; [apply triple_assert|]. intros []. apply triple_fact. intros Hb.
  destruct (_ =? MAX_NUMBER_OF_VBMETA_IMAGES).
  { apply triple_stop. intros s ->. by apply HE. }
  eapply triple_bind; [apply triple_lift|]. intros n. apply triple_fact. intros _.
  eapply triple_bind; [apply triple_call|]. intros nm. apply triple_fact. intros _.
  apply triple_set_slot_data. intros s _. split; [eauto|]. intros ->.
  apply Z.eqb_eq in Hb. unfold zlen in Hb. destruct (vbmeta_images s0); [done|simpl in Hb; lia].
Qed.

(** ** The descriptors of an image *)

Section Descriptors.
Variables (requested_partitions : list bytes) (suffix : bytes).
Variables (G : Prop) (main im : AvbVBMetaData).
Hypothesis image_bytes : bytes_ok (vbmeta_data im).

(** What is needed of the verification of a chained partition. *)
Definition chain_spec
    (load_chain : Z → bytes → Z → bytes → Z → comp (SlotState W) AvbSlotVerifyResult) : Prop :=
  ∀ off d st r st',
    let desc := drop (Z.to_nat off) (vbmeta_data main) in
    signed_descriptor (vbmeta_data main) off →
    avb_chain_partition_descriptor_validate_and_byteswap desc = Ret (Some d) →
    rollback_index_location d ≠ 0 →
    let name := drop (Z.to_nat sizeof_AvbChainPartitionDescriptor) desc in
    (∃ rest, vbmeta_images (slot_data st) = main :: rest) →
    load_chain (s32 (rollback_index_location d)) name (chain_partition_name_len d)
      (drop (Z.to_nat (chain_partition_name_len d)) name) (chain_public_key_len d) st =
      Ret (r, st') →
    handling (slot_good (slot_data st)) main main r (slot_data st').

Lemma stop_error_triple {A} ret e (Q : A → AvbSlotVerifyData → Prop) :
  e ≠ AVB_SLOT_VERIFY_RESULT_OK →
  triple (W := W) (handling G main im ret) (stop e) Q (handling G main im).
Proof. intros He. apply triple_stop. intros s Hs. by eapply handling_error. Qed.

Lemma hash_descriptor_triple desc off ret :
  signed_descriptor (vbmeta_data im) off → desc = drop (Z.to_nat off) (vbmeta_data im) →
  triple (W := W) (handling G main im ret)
    (sub_ret ← sub_call (load_and_verify_hash_partition requested_partitions suffix false desc);
     if bool_decide (sub_ret = AVB_SLOT_VERIFY_RESULT_OK) then mret ret
     else if negb false || negb (result_should_continue sub_ret) then stop sub_ret
     else mret sub_ret)
    (handling G main im) (handling G main im).
Proof using no_persistent reads preloads image_bytes.
  intros Hsd ->. pose proof (Forall_drop _ (Z.to_nat off) _ image_bytes) as Hbd. intros st r st' Hs Er. unfold mbind, M_bind in Er.
  destruct (sub_call _ st) as [[[e|sub_ret] st1]|] eqn:Ec; [| |discriminate Er].
  { by apply (hash_partition_triple requested_partitions suffix false no_persistent reads preloads _
      (slot_data st) Hbd) in Ec. }
  apply (hash_partition_triple requested_partitions suffix false no_persistent reads preloads _
      (slot_data st) Hbd) in Ec; [|done].
  assert (∀ e, (e = AVB_SLOT_VERIFY_RESULT_OK → sub_ret = AVB_SLOT_VERIFY_RESULT_OK ∧ e = ret) →
    handling G main im e (slot_data st1)) as Hh.
  { intros e He. destruct Ec as [-> | (p & -> & Hp)].
    - destruct Hs as (H1 & H2 & H3). split; [done|]. split; [done|]. intros Ee.
      destruct (He Ee) as [_ <-]. auto.
    - destruct Hs as (H1 & H2 & H3). split; [done|]. split; [done|]. intros Ee HG.
      destruct (He Ee) as [Hsub <-]. apply slot_good_add_partition; [auto|].
      exists im, off. split; [done|]. split; [done|]. auto. }
  case_bool_decide as Hb; cbn [negb orb] in Er; injection Er as <- <-; apply Hh; naive_solver.
Qed.

Lemma cmdline_descriptor_triple tflags desc ret :
  triple (W := W) (handling G main im ret)
    (process_cmdline_descriptor tflags desc;; mret ret) (handling G main im) (handling G main im).
Proof.
  assert (∀ c, triple (W := W) (handling G main im ret) (append_cmdline c)
    (λ _, handling G main im ret) (handling G main im)) as Ha.
  { intros c. apply triple_get_slot. intros s0 Hs.
    destruct (cmdline s0); (eapply triple_bind; [apply triple_call|]; intros b; apply triple_fact; intros _;
      destruct b; [|apply triple_stop; intros s ->; by eapply handling_error]);
      repeat (eapply triple_bind; [apply triple_lift|]; intros ?; apply triple_fact; intros _);
      apply triple_set_slot_data; intros s _; by eapply handling_same. }
  apply (triple_bind _ _ _ (λ _, handling G main im ret)); [|intros u; by apply triple_ret].
  unfold process_cmdline_descriptor.
  eapply triple_bind; [apply triple_lift|]. intros d. apply triple_fact. intros _.
  destruct d; [|by apply stop_error_triple].
  eapply triple_bind; [apply triple_lift|]. intros b. apply triple_fact. intros _.
  destruct b; cbn [negb]; [|by apply stop_error_triple].
  match goal with |- context [if ?c then _ else _] => destruct c end; [|by apply triple_ret].
  eapply triple_bind; [apply triple_lift|]. intros c. apply triple_fact. intros _. apply Ha.
Qed.

Lemma hashtree_descriptor_triple want desc ret :
  triple (W := W) (handling G main im ret) (process_hashtree_descriptor suffix want desc ret)
    (handling G main im) (handling G main im).
Proof using no_persistent.
  unfold process_hashtree_descriptor.
  eapply triple_bind; [apply triple_lift|]. intros d. apply triple_fact. intros _.
  destruct d as [d|]; [|by apply stop_error_triple].
  destruct (negb _); [by apply triple_ret|].
  eapply triple_bind; [apply triple_lift|]. intros b. apply triple_fact. intros _.
  destruct b; cbn [negb]; [|by apply stop_error_triple].
  destruct (_ && _); [by apply stop_error_triple|].
  destruct (_ <=? _); [by apply stop_error_triple|].
  do 2 (eapply triple_bind; [apply triple_lift|]; intros ?; apply triple_fact; intros _).
  eapply triple_bind; [apply triple_lift|]. intros size. apply triple_fact. intros _.
  destruct size as [len|]; [|by apply stop_error_triple].
  unfold read_persistent_digest. rewrite no_persistent.
  intros st r st' Hs Er. injection Er as <- <-. by eapply handling_error.
Qed.

Lemma chain_descriptor_triple load_chain is_main off ret :
  signed_descriptor (vbmeta_data im) off →
  (is_main = true → im = main ∧ chain_spec load_chain) →
  triple (W := W) (handling G main im ret)
    (process_chain_descriptor load_chain is_main (drop (Z.to_nat off) (vbmeta_data im)) ret)
    (handling G main im) (handling G main im).
Proof.
  intros Hsd Hc. unfold process_chain_descriptor.
  destruct is_main; cbn [negb]; [|by apply stop_error_triple].
  destruct (Hc eq_refl) as [Eim Hl]. clear Hc.
  eapply triple_bind; [apply triple_lift|]. intros d. apply triple_fact. intros Ed.
  destruct d as [d|]; [|by apply stop_error_triple].
  destruct (Z.eqb_spec (rollback_index_location d) 0) as [|Hz]; [by apply stop_error_triple|].
  intros st r st' Hs Er. unfold mbind, M_bind, sub_call in Er.
  destruct (load_chain _ _ _ _ _ st) as [[sub_ret st1]|] eqn:El; [|discriminate Er].
  assert (∃ rest, vbmeta_images (slot_data st) = main :: rest) as Hrest by apply Hs.
  rewrite Eim in Ed, El, Hsd. destruct (Hl off d st sub_ret st1 Hsd Ed Hz Hrest El) as (H1 & H2 & H3).
  assert (∀ e, (e = AVB_SLOT_VERIFY_RESULT_OK → sub_ret = AVB_SLOT_VERIFY_RESULT_OK ∧ e = ret) →
    handling G main im e (slot_data st1)) as Hh.
  { intros e He. rewrite Eim. split; [done|]. split; [done|]. intros Ee HG.
    destruct (He Ee) as [Hsub <-].
    apply H3; [done|]. destruct Hs as (_ & _ & H4). auto. }
  case_bool_decide as Hb; [injection Er as <- <-; apply Hh; auto|].
  destruct (negb _); injection Er as <- <-; apply Hh; naive_solver.
Qed.

Lemma process_descriptor_triple load_chain is_main want tflags off ret :
  signed_descriptor (vbmeta_data im) off →
  (is_main = true → im = main ∧ chain_spec load_chain) →
  triple (W := W) (handling G main im ret)
    (process_descriptor requested_partitions suffix false load_chain is_main want tflags
       (vbmeta_data im) off ret)
    (handling G main im) (handling G main im).
Proof using no_persistent reads preloads image_bytes.
  intros Hsd Hc. unfold process_descriptor.
  eapply triple_bind; [apply triple_lift|]. intros [ok d]. apply triple_fact. intros _.
  destruct ok; cbn [negb]; [|by apply stop_error_triple].
  destruct (tag d =? AVB_DESCRIPTOR_TAG_HASH).
  { exact (hash_descriptor_triple (drop (Z.to_nat off) (vbmeta_data im)) off ret Hsd eq_refl). }
  destruct (tag d =? AVB_DESCRIPTOR_TAG_CHAIN_PARTITION); [by apply chain_descriptor_triple|].
  destruct (tag d =? AVB_DESCRIPTOR_TAG_KERNEL_CMDLINE); [apply cmdline_descriptor_triple|].
  destruct (tag d =? AVB_DESCRIPTOR_TAG_HASHTREE); [apply hashtree_descriptor_triple|].
  by apply triple_ret.
Qed.

Lemma process_all_triple fuel uninit process buf ptr n ret :
  0 ≤ ptr → 0 ≤ n < 2 ^ 63 → ptr + n < 2 ^ 64 →
  (∀ off ret, descriptor_place buf off → triple (W := W) (handling G main im ret) (process off ret)
     (handling G main im) (handling G main im)) →
  triple (W := W) (handling G main im ret) (process_all_descriptors fuel uninit process buf ptr n ret)
    (handling G main im) (handling G main im).
Proof.
  intros Hptr Hn Hend Hp. unfold process_all_descriptors.
  eapply triple_bind; [apply triple_call|]. intros r. apply triple_fact. intros (w & w' & Eg).
  destruct r as [[ds num]|].
  - apply get_all_places in Eg; [|done..]. apply (Forall_take _ (Z.to_nat num)) in Eg. revert Eg.
    generalize (take (Z.to_nat num) ds). intros l Hl. clear ds. revert ret.
    induction Hl as [|[off|] l Ho _ IH]; intros ret; cbn [process_descriptors].
    + by apply triple_ret.
    + eapply triple_bind; [by apply Hp, Ho|]. intros ret'. apply IH.
    + intros st r st' _ Er. discriminate Er.
  - destruct (0 <? uninit); [|by apply triple_ret]. intros st r st' _ Er. discriminate Er.
Qed.

Lemma publish_triple location want h ret :
  triple (W := W) (handling G main im ret) (publish_vbmeta location want h ret)
    (handling G main im) (handling G main im).
Proof.
  unfold publish_vbmeta. destruct (_ <=? _); [by apply stop_error_triple|].
  destruct (_ <? _); [intros st r st' _ Er; discriminate Er|].
  apply triple_get_slot. intros s0 Hs.
  apply (triple_bind _ _ _ (λ _, handling G main im ret)).
  { apply triple_set_slot_data. intros s _. by eapply handling_same. }
  intros u. apply (triple_bind _ _ _ (λ _, handling G main im ret)).
  { destruct want; [|by apply triple_ret]. intros st r st' Hs' [= <- <-]. exact Hs'. }
  intros u'. by apply triple_ret.
Qed.

End Descriptors.

(** ** One image *)

(** The checks before the image is recorded, for any condition on the key. *)
Lemma verify_loaded_triple requested suffix fuel uninit process tflags location pname expected want
    buf ptr n s0 (ok : bytes → Prop)
    (Q : AvbSlotVerifyResult → AvbSlotVerifyData → Prop) :
  bytes_ok buf → 0 ≤ n ≤ zlen buf → n < 0x20000000 → is_u64 ptr →
  (∀ loc (w : W) x w', read_rollback_index loc w = Ret ((AVB_IO_RESULT_OK, x), w') →
     x = stored_index loc) →
  (∀ e, e ≠ AVB_SLOT_VERIFY_RESULT_OK → Q e s0) →
  (∀ off len h, triple (W := W) (λ s, s = s0)
     (check_public_key false (location =? 0) expected buf h (Some (off, len))
        AVB_SLOT_VERIFY_RESULT_OK)
     (λ ret s, s = s0 ∧ ret = AVB_SLOT_VERIFY_RESULT_OK ∧ ok (slice buf off len)) Q) →
  (∀ im h, vbmeta_data im = buf → image_good ok location im →
     avb_vbmeta_image_header_to_host_byte_order buf = Ret h →
     (location = 0 ∨ flags h = 0) → (location = 0 → vbmeta_images s0 = []) →
     header_layout h n → ptr + n < 2 ^ 64 →
     triple (W := W) (λ s, s = add_vbmeta_image im s0)
       (if has_flag (flags h) AVB_VBMETA_IMAGE_FLAGS_VERIFICATION_DISABLED then
          sub_ret ← sub_call (load_requested_partitions requested suffix);
          stop (if bool_decide (sub_ret = AVB_SLOT_VERIFY_RESULT_OK)
                then AVB_SLOT_VERIFY_RESULT_OK else sub_ret)
        else
          ret ← process_all_descriptors fuel uninit
                  (process (if location =? 0 then flags h else tflags)) buf ptr n
                  AVB_SLOT_VERIFY_RESULT_OK;
          publish_vbmeta location want h ret) Q Q) →
  triple (W := W) (λ s, s = s0)
    (verify_loaded_vbmeta fuel uninit requested suffix false process tflags location pname expected
       want buf ptr n) Q Q.
Proof using roomy.
  intros Hbuf Hlen Hn Hptr Hi HE Hkey Hrest. assert (∀ e s, e ≠ AVB_SLOT_VERIFY_RESULT_OK → s = s0 → Q e s) as HE'
    by (intros e s He ->; auto). unfold verify_loaded_vbmeta.
  eapply triple_bind; [apply triple_call|]. intros [vr pk]. apply triple_fact. intros (w & w' & Ev).
  unfold handle_vbmeta. cbn [fst snd].
  eapply triple_bind; [by apply check_image_triple|]. intros ret. cbv beta.
  apply triple_fact. intros (-> & -> & off & len & ->).
  eapply triple_bind; [apply triple_lift|]. intros h. apply triple_fact. intros Eh.
  destruct (negb (location =? 0) && negb (flags h =? 0)) eqn:Ef.
  { apply triple_stop. intros s ->. by apply HE. }
  eapply triple_bind; [apply Hkey|]. intros ret. cbv beta. apply triple_fact. intros (-> & Hok).
  eapply triple_bind; [by apply check_rollback_triple|]. intros ret. cbv beta.
  apply triple_fact. intros (-> & Hr).
  eapply triple_bind; [by apply record_triple|]. intros u. cbv beta.
  apply triple_fact. intros Hmain. intros st r st' (nm & size & Es) Er.
  set (im := mkVBMeta nm buf size AVB_VBMETA_VERIFY_RESULT_OK) in *.
  destruct (verify_ok_path _ _ _ _ _ _ Ev) as (_ & _ & h' & _ & _ & _ & Eh' & Ec & _).
  rewrite Eh in Eh'. injection Eh' as <-.
  pose proof (header_check_fits h n ptr Hptr ltac:(unfold is_u64; lia) Ec) as Hend.
  refine (Hrest im h eq_refl _ Eh _ _ _ Hend st r st' Es Er).
  - split; [done|]. exists (slice buf off len), h. split; [done|]. split; [|done].
    exists n, off, len. split; [apply Hlen|]. split; [|done]. by eapply verify_authentic.
  - destruct (Z.eqb_spec location 0), (Z.eqb_spec (flags h) 0); auto. discriminate Ef.
  - intros ->. by apply Hmain.
  - apply (header_check_layout h n ptr); [by apply header_words_ok with buf|by left].
Qed.

Lemma load_requested_images requested suffix imgs st r st' :
  vbmeta_images (slot_data st) = imgs →
  load_requested_partitions (W := W) requested suffix st = Ret (r, st') →
  vbmeta_images (slot_data st') = imgs.
Proof.
  intros Hi Er. set (P := λ s, vbmeta_images s = imgs).
  refine (out_triple P _ (λ _, P) _ _ _ _ Hi Er). clear st r st' Hi Er.
  assert (∀ get_size l, triple (W := W) P (load_requested_loop suffix get_size l) (λ _, P) (λ _, P))
    as Hl; [|destruct get_size_of_partition; [apply Hl|by apply triple_stop]].
  intros get_size l. induction l as [|x l IH]; cbn [load_requested_loop]; [by apply triple_ret|].
  eapply triple_bind; [apply triple_lift|]. intros pn. apply triple_fact. intros _.
  destruct pn as [pn|]; [|by apply triple_stop].
  eapply triple_bind; [apply triple_call|]. intros [io size]. apply triple_fact. intros _.
  destruct (io_error io); [by apply triple_stop|].
  apply (triple_bind _ _ _ (λ _, P)).
  { eapply triple_bind; [apply triple_call|]. intros r. apply triple_fact. intros _.
    destruct r; [by apply triple_stop|by apply triple_ret]. }
  intros [buf pre]. apply triple_get_slot. intros s0 Hs.
  destruct (_ =? _); [apply triple_stop; intros s ->; exact Hs|].
  eapply triple_bind; [apply triple_call|]. intros nm. apply triple_fact. intros _.
  destruct nm; (apply (triple_bind _ _ _ (λ _, P)); [apply triple_set_slot_data; intros; exact Hs|]);
    intros u; [exact IH|by apply triple_stop].
Qed.

Section Load.
Variables (fuel : nat) (buffer_address : W → Z) (uninit_count : Z).
Variables (requested_partitions : list bytes) (suffix : bytes).
Hypothesis addresses : ∀ w, is_u64 (buffer_address w).
Hypothesis keys_trusted : ∀ key md (w w' : W),
  validate_vbmeta_public_key key md w = Ret ((AVB_IO_RESULT_OK, true), w') → trusted key.
Hypothesis indexes_stored : ∀ loc (w : W) x w',
  read_rollback_index loc w = Ret ((AVB_IO_RESULT_OK, x), w') → x = stored_index loc.

Let load := load_and_verify_vbmeta fuel buffer_address uninit_count requested_partitions suffix false.

Lemma footer_size src f : avb_footer_validate_and_byteswap src = Ret (Some f) → 0 ≤ vbmeta_size f.
Proof.
  intros E. unfold avb_footer_validate_and_byteswap in E. apply run_bind_Ret in E as (l & _ & E).
  apply run_bind_Ret in E as (r & _ & E). destruct (negb _); [discriminate E|].
  destruct (_ <? _); [discriminate E|]. injection E as <-. cbn.
  assert (is_u64 (be64_at l 28)) as [? _] by (unfold be64_at; auto with words). done.
Qed.

Lemma locate_triple b name (P : AvbSlotVerifyData → Prop) E :
  (∀ e s, e ≠ AVB_SLOT_VERIFY_RESULT_OK → P s → E e s) →
  triple (W := W) P (locate_vbmeta b name) (λ l s, P s ∧ 0 ≤ l.2 ≤ VBMETA_MAX_SIZE) E.
Proof.
  intros HE. unfold locate_vbmeta. destruct b; [by apply triple_ret|].
  eapply triple_bind; [apply triple_call|]. intros [io [buf n]]. apply triple_fact. intros _.
  destruct (io_error io) as [e|] eqn:Ei.
  { apply triple_stop. intros s Hs. apply HE; [by eapply io_error_not_ok|done]. }
  eapply triple_bind; [apply triple_assert|]. intros u. apply triple_fact. intros _.
  eapply triple_bind; [apply triple_lift|]. intros f. apply triple_fact. intros Ef.
  destruct f as [a|]; [|apply triple_stop; intros s Hs; by apply HE]. apply footer_size in Ef.
  destruct (Z.ltb_spec VBMETA_MAX_SIZE (vbmeta_size a));
    [apply triple_stop; intros s Hs; by apply HE|by apply triple_ret].
Qed.

(** Up to the point where an image has been read. *)
Lemma load_step depth tflags location pname plen expected want s0
    (Q : AvbSlotVerifyResult → AvbSlotVerifyData → Prop) :
  (∀ e, e ≠ AVB_SLOT_VERIFY_RESULT_OK → Q e s0) →
  (location = 0 → ∀ st r st', slot_data st = s0 →
     load depth 0 0 (str "boot" ++ [0]) 4 None want st = Ret (r, st') → Q r (slot_data st')) →
  (∀ buf ptr n, bytes_ok buf → 0 ≤ n ≤ zlen buf → n < 0x20000000 → is_u64 ptr → triple (W := W) (λ s, s = s0)
     (verify_loaded_vbmeta fuel uninit_count requested_partitions suffix false
        (fun flags => process_descriptor requested_partitions suffix false
           (fun location name name_len key key_len =>
              load depth flags location name name_len (Some (key, key_len)) false)
           (location =? 0) want flags buf)
        tflags location pname expected want buf ptr n) Q Q) →
  ∀ st r st', slot_data st = s0 →
    load (S depth) tflags location pname plen expected want st = Ret (r, st') → Q r (slot_data st').
Proof.
  intros HE Hboot Hv st r st' Hs Er.
  assert (∀ e s, e ≠ AVB_SLOT_VERIFY_RESULT_OK → s = s0 → Q e s) as HE' by (intros e s He ->; auto).
  refine (out_triple (λ s, s = s0) _ Q _ _ _ _ Hs Er). clear st r st' Hs Er.
  eapply triple_bind; [apply triple_lift|]. intros isv. apply triple_fact. intros _.
  eapply triple_bind; [apply triple_lift|]. intros utf8. apply triple_fact. intros _.
  destruct utf8; cbn [negb]; [|apply triple_stop; by auto].
  eapply triple_bind; [apply triple_lift|]. intros full. apply triple_fact. intros _.
  destruct full as [full|]; [|apply triple_stop; by auto].
  eapply triple_bind; [by apply locate_triple|]. intros [off size]. cbv beta. apply triple_fact. intros Hsize.
  eapply triple_bind; [apply triple_call|]. intros ok. apply triple_fact. intros _.
  destruct ok; cbn [negb]; [|apply triple_stop; by auto].
  eapply triple_bind; [apply triple_call|]. intros [io [buf n]]. apply triple_fact. intros (w & w' & Eread).
  destruct io; try (apply triple_stop; by auto).
  - apply reads in Eread as (Hbuf & Hk). destruct (Hk (proj1 Hsize)) as [Hz Hk0].
    eapply triple_bind; [apply triple_assert|]. intros u. apply triple_fact. intros Hn%Z.leb_le.
    eapply triple_bind; [apply triple_call|]. intros ptr. apply triple_fact. intros (w1 & w1' & [= <- _]).
    unfold VBMETA_MAX_SIZE in Hsize. apply Hv; [done|cbn in Hsize; lia|cbn in Hsize; lia|apply addresses].
  - destruct (Z.eqb_spec location 0) as [E0|]; cbn [andb]; [|apply triple_stop; by auto].
    destruct isv; [|apply triple_stop; by auto].
    apply triple_sub_call. intros st r st' Hs Er. by eapply Hboot.
Qed.

Lemma handling_main G main im ret s : handling G main im ret s → handling G main main ret s.
Proof.
  intros ((rest & E) & _ & H3). split; [by exists rest|]. split; [rewrite E; by left|done].
Qed.

Lemma chain_descriptor_location desc d :
  avb_chain_partition_descriptor_validate_and_byteswap desc = Ret (Some d) →
  is_u32 (rollback_index_location d).
Proof.
  intros E. apply validate_descriptor_fields in E as (l & parent & _ & ->).
  cbn. unfold be32_at. auto with words.
Qed.

(** A chained partition keeps the slot good. *)
Lemma chain_load_spec depth tflags main :
  chain_spec main (fun location name name_len key key_len =>
    load depth tflags location name name_len (Some (key, key_len)) false).
Proof using no_persistent reads preloads roomy addresses indexes_stored.
  intros off d st r st' desc Hsd Ed Hz name [rest Hrest] Er.
  destruct depth as [|depth]; [discriminate Er|].
  pose proof (s32_nonzero _ (chain_descriptor_location _ _ Ed) Hz) as Hloc.
  set (key := drop (Z.to_nat (chain_partition_name_len d)) name) in *.
  set (G := slot_good (slot_data st)).
  eapply (load_step depth _ _ _ _ _ _ (slot_data st) (handling G main main)); [| | |done|exact Er].
  { intros e He. split; [by exists rest|]. split; [rewrite Hrest; by left|]. done. }
  { intros E. by destruct Hloc. }
  intros buf ptr n Hbytes Hlen Hn Hptr.
  apply (verify_loaded_triple requested_partitions suffix fuel uninit_count _ _ _ _ _ _ _ _ _
    (slot_data st) (endorsed (vbmeta_data main) off d)); [done|done|done|done|done| | |].
  { intros e He. split; [by exists rest|]. split; [rewrite Hrest; by left|]. done. }
  { intros o len h. eapply triple_post; [|apply check_endorsed_key_triple].
    - intros a s (-> & -> & E). split; [done|]. split; [done|]. split; [exact Hsd|]. split; [exact Ed|exact E].
    - intros e s He ->. split; [by exists rest|]. split; [rewrite Hrest; by left|]. done. }
  intros im h Hbuf Him Eh [E|Hfl] _ Hlay Hend; [by destruct Hloc|]. rewrite Hfl.
  change (has_flag 0 AVB_VBMETA_IMAGE_FLAGS_VERIFICATION_DISABLED) with false. cbv iota.
  rewrite (proj2 (Z.eqb_neq _ 0) Hloc).
  apply (triple_pre _ (handling G main im AVB_SLOT_VERIFY_RESULT_OK)).
  { intros s ->. split; [exists (rest ++ [im]); cbn; by rewrite Hrest|].
    split; [cbn; apply elem_of_app; right; by left|].
    intros _ HG. eapply slot_good_add_image; [exact Hrest|exact HG|]. by exists off, d. }
  intros st1 r1 st1' HP Er1. rewrite <-Hbuf in Er1.
  assert (match r1 with inl e => handling G main im e (slot_data st1')
          | inr a => handling G main im a (slot_data st1') end) as Hres.
  { revert st1 r1 st1' HP Er1. eapply triple_bind; [|intros ret; apply publish_triple].
    rewrite Hbuf. apply process_all_triple; [apply Hptr|lia|done|]. intros o ret Ho.
    rewrite <-Hbuf. apply process_descriptor_triple; [by rewrite Hbuf| |done].
    rewrite Hbuf. apply (place_signed buf o n h); [done|done|lia|done]. }
  destruct r1; by eapply handling_main.
Qed.

(** The main image, in "vbmeta" or in "boot". *)
Lemma main_load_spec depth tflags pname plen want st r st' :
  vbmeta_images (slot_data st) = [] → loaded_partitions (slot_data st) = [] →
  load depth tflags 0 pname plen None want st = Ret (r, st') →
  r = AVB_SLOT_VERIFY_RESULT_OK → slot_good (slot_data st').
Proof using no_persistent reads preloads roomy addresses indexes_stored keys_trusted.
  revert tflags pname plen st r st'. induction depth as [|depth IH]; intros tflags pname plen st r st' Hi Hl Er;
    [discriminate Er|].
  set (Q := λ (r : AvbSlotVerifyResult) s, r = AVB_SLOT_VERIFY_RESULT_OK → slot_good s).
  change (Q r (slot_data st')).
  eapply (load_step depth _ _ _ _ _ _ (slot_data st) Q); [by intros e He ?| | |done|exact Er].
  { intros _ st1 r1 st1' E1 Er1. unfold Q. eapply (IH 0); [by rewrite E1|by rewrite E1|exact Er1]. }
  intros buf ptr n Hbytes Hlen Hn Hptr.
  apply (verify_loaded_triple requested_partitions suffix fuel uninit_count _ _ _ _ _ _ _ _ _
    (slot_data st) trusted); [done|done|done|done|done|by intros e He ?| |].
  { intros o len h. apply check_trusted_key_triple; [|exact keys_trusted].
    intros e s He _ Ee. by destruct He. }
  intros im h Hbuf Him Eh _ _ Hlay Hend.
  pose proof (slot_good_first im (slot_data st) Hi Hl Him) as Hg.
  destruct (has_flag (flags h) _) eqn:Ef.
  - intros st1 r1 st1' E1 Er1. unfold mbind, M_bind, sub_call in Er1.
    destruct (load_requested_partitions _ _ st1) as [[sub st2]|] eqn:El; [|discriminate Er1].
    injection Er1 as <- <-. intros _.
    eapply load_requested_images in El; [|rewrite E1; cbn; rewrite Hi; reflexivity].
    exists im, []. split; [exact El|]. split; [exact Him|]. split; [constructor|].
    intros Hv. rewrite <-Hbuf in Eh. by rewrite (Hv h Eh) in Ef.
  - rewrite <-Hbuf. rewrite Z.eqb_refl.
    apply (triple_pre _ (handling True im im AVB_SLOT_VERIFY_RESULT_OK)).
    { intros s ->. unfold handling. cbn [vbmeta_images add_vbmeta_image]. rewrite Hi.
      split; [by exists []|]. split; [by left|]. intros _ _. exact Hg. }
    intros st1 r1 st1' HP Er1.
    assert (match r1 with inl e => handling True im im e (slot_data st1')
            | inr a => handling True im im a (slot_data st1') end) as Hres.
    { revert st1 r1 st1' HP Er1. eapply triple_bind; [|intros ret; apply publish_triple].
      apply process_all_triple; [apply Hptr|lia|done|]. intros o ret Ho.
      apply process_descriptor_triple; [by rewrite Hbuf| |].
      { rewrite Hbuf in *. apply (place_signed buf o n h); [done|done|lia|done]. }
      intros _. split; [done|]. apply chain_load_spec. }
    destruct r1 as [e|a]; intros Ha; by apply Hres.
Qed.

End Load.

End Guarantee.

(** ** The guarantee *)

Lemma finish_slot_keeps {W} `{Heap W} `{AvbOps W} suffix mode alg subst s (w w' : W) s' :
  finish_slot suffix mode alg subst s w = Ret (inr s', w') →
  vbmeta_images s' = vbmeta_images s ∧ loaded_partitions s' = loaded_partitions s.
Proof.
  intros E. unfold finish_slot in E. destruct (vbmeta_images s) as [|im ims] eqn:Ei; [discriminate E|].
  destruct (vbmeta_partition_name im); [|discriminate E].
  apply comp_bind_Ret in E as (u & w1 & _ & E). apply comp_bind_Ret in E as (h & w2 & _ & E).
  apply comp_bind_Ret in E as (dup & w3 & _ & E). destruct dup; [|discriminate E].
  apply comp_bind_Ret in E as ([sub c] & w4 & _ & E). case_bool_decide; [|discriminate E].
  cbn [negb] in E. destruct c as [c|].
  - apply comp_bind_Ret in E as (nc & w5 & _ & E). destruct nc; [|discriminate E].
    injection E as <- _. done.
  - injection E as <- _. done.
Qed.

Lemma locked_slot_good {W} `{Heap W} `{AvbOps W} (trusted : bytes → Prop)
    (stored_index : Z → Z) fuel buffer_address uninit_count requested_partitions suffix slot_flags
    mode (w w' : W) s :
  (∀ n (w : W), (heap_alloc n w).1 = true) → (∀ w, is_u64 (buffer_address w)) →
  read_persistent_value (W := W) = None →
  (∀ part off n (w : W) buf k w',
     read_from_partition part off n w = Ret ((AVB_IO_RESULT_OK, (buf, k)), w') →
     bytes_ok buf ∧ (0 ≤ n → zlen buf = n ∧ 0 ≤ k)) →
  (∀ get part n (w : W) buf k w', get_preloaded_partition = Some get →
     get part n w = Ret ((AVB_IO_RESULT_OK, (Some buf, k)), w') → bytes_ok buf) →
  (∀ key md (w w' : W),
     validate_vbmeta_public_key key md w = Ret ((AVB_IO_RESULT_OK, true), w') → trusted key) →
  (∀ loc (w : W) x w',
     read_rollback_index loc w = Ret ((AVB_IO_RESULT_OK, x), w') → x = stored_index loc) →
  has_flag slot_flags AVB_SLOT_VERIFY_FLAGS_ALLOW_VERIFICATION_ERROR = false →
  avb_slot_verify fuel buffer_address uninit_count requested_partitions suffix slot_flags mode w =
    Ret ((AVB_SLOT_VERIFY_RESULT_OK, Some s), w') →
  slot_good trusted stored_index s.
Proof.
  intros Hroomy Haddr Hp Hrd Hpre Hk Hi Hf E. unfold avb_slot_verify in E. rewrite Hf in E.
  destruct (_ && _); [discriminate E|].
  do 3 (apply comp_bind_Ret in E as (? & ? & _ & E); case_bool_decide; [discriminate E|]).
  apply comp_bind_Ret in E as (subst & w4 & Es & E). destruct subst as [subst|]; [|discriminate E].
  apply comp_bind_Ret in E as ([ret st] & w5 & El & E).
  destruct (load_and_verify_vbmeta _ _ _ _ _ _ _ _ _ _ _ _ _ _) as [[ret' st']|] eqn:Eload;
    [|discriminate El].
  injection El as -> -> _. unfold conclude_slot in E. case_bool_decide as Hr; [|discriminate E]. subst ret. cbn in E.
  apply comp_bind_Ret in E as (f & w6 & Ef & E). destruct f as [e|s1].
  { discriminate E. }
  apply comp_bind_Ret in E as (? & ? & _ & E). injection E as <- _. apply finish_slot_keeps in Ef as [E1 E2].
  eapply slot_good_same; [exact E1|exact E2|].
  eapply (main_load_spec trusted stored_index); [exact Hroomy|exact Hp|exact Hrd|exact Hpre|exact Haddr|
    exact Hk|exact Hi| | |exact Eload|done]; done.
Qed.

(** C1: on a locked device, with a heap that does not run out, no persistent
    digests and reads that return the bytes asked for, slot data returned with
    OK is good: the main vbmeta image is signed by a key the device trusts,
    each further image by the key a chain descriptor of the main image gives,
    no image is older than the rollback index stored for its location, and,
    unless the main image has the flag VERIFICATION_DISABLED, the content of
    every partition handed out has the digest of a hash descriptor of one of
    these images.  That says the signature is exact for keys in the documented
    format, and the digest the one of FIPS 180-4 for salt and image of less
    than 512 MiB.  The descriptor is in the area the signed header gives; that
    this area lies inside of the signed auxiliary block is not checked. *)
Theorem avb_slot_verify_locked_sound {W} `{Heap W} `{AvbOps W} (trusted : bytes → Prop)
    (stored_index : Z → Z) fuel buffer_address uninit_count requested_partitions suffix slot_flags
    mode (w w' : W) s :
  (∀ n (w : W), (heap_alloc n w).1 = true) → (∀ w, is_u64 (buffer_address w)) →
  read_persistent_value (W := W) = None →
  (∀ part off n (w : W) buf k w',
     read_from_partition part off n w = Ret ((AVB_IO_RESULT_OK, (buf, k)), w') →
     bytes_ok buf ∧ (0 ≤ n → zlen buf = n ∧ 0 ≤ k)) →
  (∀ get part n (w : W) buf k w', get_preloaded_partition = Some get →
     get part n w = Ret ((AVB_IO_RESULT_OK, (Some buf, k)), w') → bytes_ok buf) →
  (∀ key md (w w' : W),
     validate_vbmeta_public_key key md w = Ret ((AVB_IO_RESULT_OK, true), w') → trusted key) →
  (∀ loc (w : W) x w',
     read_rollback_index loc w = Ret ((AVB_IO_RESULT_OK, x), w') → x = stored_index loc) →
  has_flag slot_flags AVB_SLOT_VERIFY_FLAGS_ALLOW_VERIFICATION_ERROR = false →
  avb_slot_verify fuel buffer_address uninit_count requested_partitions suffix slot_flags mode w =
    Ret ((AVB_SLOT_VERIFY_RESULT_OK, Some s), w') →
  slot_good trusted stored_index s.
Proof. apply locked_slot_good. Qed.

(** ** A locked device that boots the demonstration image *)

Definition demo_platform : Platform :=
  mkPlatform [(str "vbmeta", demo_vbmeta); (str "boot", str "kernel")] demo_key false 0 None.

Notation demo_slot pl slot_flags :=
  (avb_slot_verify (H := roomy_heap) (H0 := platform_ops pl) 8 (fun _ => 0x1000) 0
    [str "boot"] [] slot_flags AVB_HASHTREE_ERROR_MODE_RESTART tt).

Lemma M_bind_run {W A B} (m : M W A) (f : A → M W B) st a st' :
  m st = Ret (inr a, st') → mbind f m st = f a st'.
Proof. unfold mbind, M_bind. by intros ->. Qed.

Lemma call_run {W A} (m : comp W A) st a w' :
  m (world st) = Ret (a, w') →
  call m st = Ret (inr a, mkState w' (slot_data st) (cmdline_subst st) (out_algorithm_type st)).
Proof. unfold call. by intros ->. Qed.

Lemma out_eq {W} (m m' : M W AvbSlotVerifyResult) st st' :
  m st = m' st' → out m st = out m' st'.
Proof. unfold out. by intros ->. Qed.

Definition demo_buffer : bytes := demo_vbmeta ++ replicate (Z.to_nat (VBMETA_MAX_SIZE - 1280)) 0.

Lemma demo_read : platform_read demo_platform (str "vbmeta") 0 VBMETA_MAX_SIZE =
  (AVB_IO_RESULT_OK, (demo_buffer, 1280)).
Proof.
  unfold platform_read. change (find_partition _ _) with (Some demo_vbmeta). cbv iota.
  change (if 0 <? 0 then _ else 0) with 0.
  assert (slice demo_vbmeta 0 VBMETA_MAX_SIZE = demo_vbmeta) as -> by by vm_compute.
  by assert (zlen demo_vbmeta = 1280) as -> by by vm_compute.
Qed.

(** Once the signature is checked, the rest of the run. *)
Definition demo_state : SlotState unit :=
  mkState tt empty_slot_data [] AVB_ALGORITHM_TYPE_NONE.

(** The signature check of the demonstration image done, what is left of loading
    it on any platform that reads it into a buffer. *)
Lemma demo_load_run {W} `{Heap W} `{AvbOps W} fuel ba count requested allow depth n w s subst alg :
  (∀ n (w : W), heap_alloc n w = (true, w)) →
  (∀ w : W, is_u64 (ba w) ∧ ba w < 0x100000000) → 1280 ≤ n ≤ VBMETA_MAX_SIZE →
  read_from_partition (str "vbmeta") 0 VBMETA_MAX_SIZE w =
    Ret ((AVB_IO_RESULT_OK, (demo_buffer, n)), w) →
  let st := mkState w s subst alg in
  load_and_verify_vbmeta fuel ba count requested [] allow (S depth) 0 0 (str "vbmeta" ++ [0]) 6
    None true st =
  out (handle_vbmeta fuel count requested [] allow
         (fun flags => process_descriptor requested [] allow
            (fun location name name_len key key_len =>
               load_and_verify_vbmeta fuel ba count requested [] allow depth flags location name
                 name_len (Some (key, key_len)) false)
            true true flags demo_buffer)
         0 0 (str "vbmeta" ++ [0]) None true demo_buffer (ba w) n
         AVB_VBMETA_VERIFY_RESULT_OK (Some (744, 520))) st.
Proof.
  intros roomy Hba Hn Hread st. cbn [load_and_verify_vbmeta]. unfold load_vbmeta_step.
  change (0 =? 0) with true. apply out_eq.
  erewrite M_bind_run by (apply (call_run _ _ true w); reflexivity).
  erewrite M_bind_run by (apply (call_run _ _ true w); reflexivity). cbn [negb].
  erewrite M_bind_run by (apply (call_run _ _ (Some (str "vbmeta")) w); reflexivity). cbv iota.
  erewrite M_bind_run by reflexivity. cbv iota beta.
  erewrite M_bind_run by (apply (call_run _ _ true w); unfold avb_malloc, malloc; by rewrite roomy).
  cbn [negb].
  erewrite M_bind_run by (apply call_run; exact Hread). cbv iota beta.
  erewrite M_bind_run by (apply (call_run _ _ tt w); unfold assert;
    by rewrite (proj2 (Z.leb_le _ _)) by apply Hn).
  erewrite M_bind_run by (apply (call_run _ _ (ba w) w); reflexivity).
  unfold verify_loaded_vbmeta. destruct (Hba w) as [Hb Hb'].
  destruct (demo_vbmeta_verifies (ba w) (replicate (Z.to_nat (VBMETA_MAX_SIZE - 1280)) 0) n w)
    as (w' & E); [intros; by rewrite roomy|by apply Forall_replicate|done|done|
      rewrite zlen_replicate; lia|unfold VBMETA_MAX_SIZE in Hn; lia|].
  assert (w' = w) as -> by (eapply avb_vbmeta_image_verify_keeps; [|exact E]; intros; by rewrite roomy).
  erewrite M_bind_run by (apply call_run; exact E). clear E.
  reflexivity.
Qed.

Definition reported_ok (r : run ((AvbSlotVerifyResult * option AvbSlotVerifyData) * unit)) : bool :=
  match r with Ret ((AVB_SLOT_VERIFY_RESULT_OK, Some s), _) =>
    bool_decide (length (vbmeta_images s) = 1%nat) &&
    bool_decide (loaded_data <$> loaded_partitions s = [str "kernel"])
  | _ => false end.

Lemma roomy_calloc {W} `{Heap W} size (w : W) :
  (∀ n (w : W), heap_alloc n w = (true, w)) → ∃ buf, avb_calloc size w = Ret (Some buf, w).
Proof.
  intros roomy. unfold avb_calloc, avb_malloc, malloc, mbind, comp_bind. rewrite roomy. by eexists.
Qed.

(** With memory to spare, verifying a slot is the walk over the images and the
    conclusion drawn from it. *)
Lemma roomy_slot_verify {W} `{Heap W} `{AvbOps W} fuel ba count requested suffix slot_flags mode
    (w : W) r :
  (∀ n (w : W), heap_alloc n w = (true, w)) →
  let allow := has_flag slot_flags AVB_SLOT_VERIFY_FLAGS_ALLOW_VERIFICATION_ERROR in
  bool_decide (mode = AVB_HASHTREE_ERROR_MODE_LOGGING) && negb allow = false →
  load_and_verify_vbmeta fuel ba count requested suffix allow 3 0 0
    (str "vbmeta" ++ [0]) 6 None true (mkState w empty_slot_data [] AVB_ALGORITHM_TYPE_NONE) = r →
  avb_slot_verify fuel ba count requested suffix slot_flags mode w =
  r ≫= λ '(ret, st), conclude_slot suffix mode allow (ret, st) (world st).
Proof.
  cbv zeta. intros roomy Ha <-. unfold avb_slot_verify. rewrite Ha.
  do 3 match goal with |- mbind _ (avb_calloc ?n) w = _ =>
    destruct (roomy_calloc n w roomy) as (? & Ec); rewrite (comp_bind_run _ _ _ _ _ Ec); clear Ec;
    rewrite bool_decide_false by done end.
  unfold avb_new_cmdline_subst_list. destruct (roomy_calloc sizeof_AvbCmdlineSubstList w roomy) as (? & Ec).
  erewrite comp_bind_run by (erewrite comp_bind_run by exact Ec; reflexivity). cbv iota beta.
  unfold mbind, comp_bind, run_bind. by destruct (load_and_verify_vbmeta _ _ _ _ _ _ _ _ _ _ _ _ _ _) as [[]|].
Qed.

Lemma demo_slot_ok : reported_ok (demo_slot demo_platform 0) = true.
Proof.
  erewrite roomy_slot_verify; [|done|reflexivity|
    apply (demo_load_run 8 _ 0 [str "boot"] _ 2 1280); [done|done|done|
      cbn [read_from_partition platform_ops]; rewrite demo_read; reflexivity]].
  vm_compute. reflexivity.
Qed.

Lemma platform_reads pl name offset n buf k :
  Forall (λ p, bytes_ok p.2) (partitions pl) → platform_read pl name offset n = (AVB_IO_RESULT_OK, (buf, k)) →
  bytes_ok buf ∧ (0 ≤ n → zlen buf = n ∧ 0 ≤ k).
Proof.
  intros Hp E. unfold platform_read in E. destruct (find_partition _ _) as [data|] eqn:Ef; [|discriminate E].
  injection E as <- <-. assert (bytes_ok data) as Hd.
  { revert Ef. induction Hp as [|[nm d] ps Hd _ IH]; cbn [find_partition]; [done|].
    destruct (decide _); [intros [= <-]; exact Hd|exact IH]. }
  split; [apply Forall_app; split; [by apply slice_ok|by apply Forall_replicate]|]. intros Hn.
  set (off := if offset <? 0 then _ else _). split; [|apply zlen_nonneg]. unfold fill_buffer.
  rewrite zlen_app, zlen_replicate. unfold zlen, slice. rewrite length_take. lia.
Qed.

Lemma avb_slot_verify_locked_sound_witness :
  ∃ s, demo_slot demo_platform 0 = Ret ((AVB_SLOT_VERIFY_RESULT_OK, Some s), tt) ∧
    slot_good (λ key, key = demo_key) (λ _, 0) s.
Proof.
  pose proof demo_slot_ok as Hok. destruct (demo_slot demo_platform 0) as [[[r s] []]|] eqn:E;
    [|discriminate Hok].
  destruct r; try discriminate Hok. destruct s as [s|]; [|discriminate Hok]. clear Hok.
  exists s. split; [reflexivity|].
  eapply (avb_slot_verify_locked_sound (H := roomy_heap) (H0 := platform_ops demo_platform)
    _ _ 8 (fun _ => 0x1000) 0 [str "boot"] [] 0 AVB_HASHTREE_ERROR_MODE_RESTART tt tt);
    [reflexivity|clear E; intros; done|reflexivity| | | | |reflexivity|exact E]; clear E.
  - intros part off n w buf k w' Er. injection Er as Er _. eapply platform_reads; [|exact Er].
    constructor; [exact demo_bytes_ok|]. apply (bool_decide_unpack _). by vm_compute.
  - intros get part n w buf k w' Eg. discriminate Eg.
  - intros key md w w' Ev. injection Ev as Ev _. by apply bool_decide_eq_true_1 in Ev.
  - intros loc w x w' Ev. by injection Ev as <- _.
Defined.
