(* ===== verification/SlotEdge.v ===== *)
(** * Slot verification at its edges

    The bound on the recursion over chained images, and runs that show how the
    result of [avb_slot_verify] can be wrong: an error forgotten because of a
    hashtree descriptor without digest, descriptors skipped when the array for
    them cannot be allocated, and a rollback index location that is negative
    as an [int]. *)

From Stdlib Require Import FunctionalExtensionality.
From S2P Require Import Prelude AvbUtil Sha2 Rsa Vbmeta Descriptors AvbOps Cmdline SlotVerify.
From S2P Require Import SlotSound.

(** ** The recursion is bounded *)

Section Depth.
Context {W : Type} `{Heap W} `{AvbOps W}.
Context (fuel : nat) (buffer_address : W → Z) (uninit_count : Z).
Context (requested_partitions : list bytes) (suffix : bytes) (allow : bool).

Notation load := (load_and_verify_vbmeta fuel buffer_address uninit_count requested_partitions
                    suffix allow).

(** Two ways of loading chained images that agree outside location 0 are the
    same to a descriptor. *)
Lemma process_descriptor_ext f g is_main want flags buf :
  (∀ location, location ≠ 0 → f location = g location) →
  process_descriptor (W := W) requested_partitions suffix allow f is_main want flags buf =
  process_descriptor requested_partitions suffix allow g is_main want flags buf.
Proof.
  intros Hfg. extensionality descriptor. extensionality ret. extensionality st.
  unfold process_descriptor, mbind, M_bind. destruct (call _ st) as [[[e|[ok d]] st1]|]; [done| |done].
  destruct (negb ok), (tag d =? AVB_DESCRIPTOR_TAG_HASH); try done.
  destruct (tag d =? AVB_DESCRIPTOR_TAG_CHAIN_PARTITION); [|done].
  unfold process_chain_descriptor. destruct (negb is_main); [done|].
  unfold mbind, M_bind, call, lift.
  destruct (avb_chain_partition_descriptor_validate_and_byteswap _) as [[c|]|] eqn:E; [|done..].
  apply chain_descriptor_location in E. destruct (Z.eqb_spec (rollback_index_location c) 0); [done|].
  by rewrite Hfg by by apply s32_nonzero.
Qed.

Lemma M_bind_ext {A B} (m : M W A) (f g : A → M W B) :
  (∀ a, f a = g a) → mbind f m = mbind g m.
Proof. intros Hfg. by assert (f = g) as -> by (extensionality a; apply Hfg). Qed.

Lemma call_lift_bind_ext {A B} (x : run A) (f g : A → M W B) :
  (∀ a, x = Ret a → f a = g a) → mbind f (call (lift x)) = mbind g (call (lift x)).
Proof.
  intros Hfg. extensionality st. unfold mbind, M_bind, call, lift. destruct x; [|done].
  by rewrite Hfg.
Qed.

Notation step := (load_vbmeta_step fuel buffer_address uninit_count requested_partitions suffix
                    allow).

(** One level looks at the levels below through chain descriptors and, for the
    main image, through "boot". *)
Lemma load_vbmeta_step_ext r1 r2 tflags location name len key want :
  (∀ flags location, location ≠ 0 → r1 flags location = r2 flags location) →
  (location = 0 → c_streq name (str "vbmeta") = Ret true →
   r1 0 0 (str "boot" ++ [0]) 4 None want = r2 0 0 (str "boot" ++ [0]) 4 None want) →
  step r1 tflags location name len key want = step r2 tflags location name len key want.
Proof.
  intros Hc Hb. unfold load_vbmeta_step.
  assert (∀ buf,
    (fun flags => process_descriptor (W := W) requested_partitions suffix allow
       (fun location name len key key_len => r1 flags location name len (Some (key, key_len)) false)
       (location =? 0) want flags buf) =
    (fun flags => process_descriptor requested_partitions suffix allow
       (fun location name len key key_len => r2 flags location name len (Some (key, key_len)) false)
       (location =? 0) want flags buf)) as Hp.
  { intros buf. extensionality flags. apply process_descriptor_ext. intros l Hl.
    by rewrite Hc. }
  extensionality st. apply out_eq. apply (f_equal (fun m => m st)).
  apply call_lift_bind_ext. intros isv Ev. apply M_bind_ext. intros utf8.
  destruct (negb utf8); [done|]. apply M_bind_ext. intros [full|]; [|done].
  apply M_bind_ext. intros [offset size]. apply M_bind_ext. intros ok. destruct (negb ok); [done|].
  apply M_bind_ext. intros [io [buf n]]. destruct io; try reflexivity.
  - apply M_bind_ext. intros _. apply M_bind_ext. intros ptr. by rewrite Hp.
  - destruct (Z.eqb_spec location 0); [|done]. destruct isv; [|done]. cbn [andb]. by rewrite Hb.
Qed.

(** An image loaded for a chain descriptor needs one level. *)
Lemma load_chained depth tflags location :
  location ≠ 0 → load (S depth) tflags location = load 1 tflags location.
Proof.
  intros Hl. extensionality name. extensionality len. extensionality key. extensionality want.
  cbn [load_and_verify_vbmeta]. unfold load_vbmeta_step.
  by rewrite (proj2 (Z.eqb_neq location 0)).
Qed.

Lemma load_S depth : load (S depth) = step (load depth).
Proof. done. Qed.

Lemma load_boot depth tflags key want :
  load (S (S depth)) tflags 0 (str "boot" ++ [0]) 4 key want =
  load 2 tflags 0 (str "boot" ++ [0]) 4 key want.
Proof.
  rewrite (load_S (S depth)), (load_S 1). apply load_vbmeta_step_ext.
  - intros flags location Hl. by apply load_chained.
  - intros _ E. vm_compute in E. discriminate E.
Qed.

(** C36: the recursion over vbmeta images is at most three calls deep, whatever
    the images and the platform: allowing the verification of the main image
    to recurse further never changes its outcome. *)
Theorem vbmeta_recursion_bounded depth tflags key want :
  load_and_verify_vbmeta fuel buffer_address uninit_count requested_partitions suffix allow
    (S (S (S depth))) tflags 0 (str "vbmeta" ++ [0]) 6 key want =
  load_and_verify_vbmeta fuel buffer_address uninit_count requested_partitions suffix allow
    3 tflags 0 (str "vbmeta" ++ [0]) 6 key want.
Proof.
  rewrite (load_S (S (S depth))), (load_S 2). apply load_vbmeta_step_ext.
  - intros flags location Hl. by rewrite (load_chained (S depth)), (load_chained 1).
  - intros _ _. apply load_boot.
Qed.

End Depth.

(** ** An error that is forgotten *)

(** An unsigned vbmeta image with the given descriptors, whose area is [n]
    bytes long and is padded to [aux] bytes. *)
Definition unsigned_image (ds : list (Z * bytes)) (n aux : Z) : bytes :=
  AVB_MAGIC ++ be_encode 4 1 ++ be_encode 4 0 ++ be_encode 8 0 ++ be_encode 8 aux ++
  be_encode 4 AVB_ALGORITHM_TYPE_NONE ++
  concat (be_encode 8 <$> [0; 0; 0; 0; 0; 0; 0; 0; 0; n; 0]) ++ replicate 136 0 ++
  descriptor_area ds ++ replicate (Z.to_nat (aux - n)) 0.

(** A hashtree descriptor for "odm" without root digest. *)
Definition digestless_hashtree : Z * bytes :=
  (AVB_DESCRIPTOR_TAG_HASHTREE,
   be_encode 4 1 ++ replicate 24 0 ++ be_encode 4 4096 ++ be_encode 4 4096 ++ be_encode 4 0 ++
   replicate 16 0 ++ str "sha1" ++ replicate 28 0 ++
   be_encode 4 3 ++ be_encode 4 0 ++ be_encode 4 0 ++ be_encode 4 1 ++ replicate 60 0 ++
   str "odm" ++ [0]).

Definition odm_digest : bytes * bytes := (AVB_NPV_PERSISTENT_DIGEST_PREFIX ++ str "odm", replicate 20 7).

Definition unsigned_platform : Platform :=
  mkPlatform [(str "vbmeta", unsigned_image [digestless_hashtree] 184 192)] demo_key true 0
    (Some [odm_digest]).

(** What a run reports: the result and the verification results of the images. *)
Definition report (r : run ((AvbSlotVerifyResult * option AvbSlotVerifyData) * unit))
    : option (AvbSlotVerifyResult * option (list AvbVBMetaVerifyResult)) :=
  match r with
  | Ret ((ret, s), _) => Some (ret, (fun s => verify_result <$> vbmeta_images s) <$> s)
  | Crash _ => None
  end.

(** With verification errors allowed, the main image is unsigned, yet OK is
    returned: the hashtree descriptor without digest assigns its own success
    to the result.  Both documented guarantees fail: OK is returned although
    there was an error, and for an image whose verification result is not OK. *)
Example hashtree_hides_verification_error :
  report (demo_slot unsigned_platform AVB_SLOT_VERIFY_FLAGS_ALLOW_VERIFICATION_ERROR) =
  Some (AVB_SLOT_VERIFY_RESULT_OK, Some [AVB_VBMETA_VERIFY_RESULT_OK_NOT_SIGNED]).
Proof. vm_compute. reflexivity. Qed.

(** ** Chained images *)

(** A chain descriptor for "odm" with the given rollback index location and
    key. *)
Definition chain_to_odm (location : Z) (key pad : bytes) : Z * bytes :=
  (AVB_DESCRIPTOR_TAG_CHAIN_PARTITION,
   be_encode 4 location ++ be_encode 4 3 ++ be_encode 4 (zlen key) ++ replicate 64 0 ++
   str "odm" ++ key ++ pad).

(** A partition that holds a vbmeta image and its footer. *)
Definition with_footer (image : bytes) : bytes :=
  image ++ AVB_FOOTER_MAGIC ++ be_encode 4 1 ++ be_encode 4 0 ++ be_encode 8 0 ++
  be_encode 8 0 ++ be_encode 8 (zlen image) ++ replicate 28 0.

Definition chaining_platform (ds : list (Z * bytes)) (n : Z) : Platform :=
  mkPlatform [(str "vbmeta", unsigned_image ds n 320); (str "odm", with_footer (unsigned_image [] 0 0))]
    demo_key true 0 (Some [odm_digest]).

(** The loop over the descriptors of the main image of such a platform, on a
    device that does not allow errors. *)
Definition locked_descriptors (ds : list (Z * bytes)) (offsets : list Z) :=
  let buf := unsigned_image ds 280 320 in
  match process_descriptors
    (process_descriptor (H := roomy_heap) (H0 := platform_ops (chaining_platform ds 280)) [] [] false
       (fun location name len key key_len =>
          load_and_verify_vbmeta (H := roomy_heap) (H0 := platform_ops (chaining_platform ds 280)) 8
            (fun _ => 0x1000) 0 [] [] false 1 0 location name len (Some (key, key_len)) false)
       true true 0 buf) (Some <$> offsets) AVB_SLOT_VERIFY_RESULT_OK
    (mkState tt (add_vbmeta_image (mkVBMeta None buf 576 AVB_VBMETA_VERIFY_RESULT_OK)
                   empty_slot_data) [] AVB_ALGORITHM_TYPE_NONE) with
  | Ret (inr ret, _) => Some ret
  | _ => None
  end.

(** Also on a locked device: the image "odm" chains to is unsigned, which
    the walk over the descriptors of the main image reports as long as the
    chain descriptor is the last one; a hashtree descriptor without digest
    behind it turns the result into OK. *)
Example locked_chain_error_hidden :
  let chain := chain_to_odm 1 [65] [] in
  locked_descriptors [chain; digestless_hashtree] [256] =
    Some AVB_SLOT_VERIFY_RESULT_ERROR_VERIFICATION ∧
  locked_descriptors [chain; digestless_hashtree] [256; 352] = Some AVB_SLOT_VERIFY_RESULT_OK.
Proof. vm_compute. split; reflexivity. Qed.

(** A rollback index location from 2^31 on becomes a negative [int], which
    passes the check against the number of locations, and the rollback index is
    written in front of the array. *)
Example negative_rollback_location :
  demo_slot (chaining_platform [chain_to_odm 0x80000000 [65] []] 96)
    AVB_SLOT_VERIFY_FLAGS_ALLOW_VERIFICATION_ERROR = Crash OutOfBounds.
Proof. vm_compute. reflexivity. Qed.

(** The name recorded for a chained image runs on into the key, which follows
    it without terminator. *)
Example chained_name_runs_on :
  match demo_slot (chaining_platform [chain_to_odm 1 [65] []] 96)
          AVB_SLOT_VERIFY_FLAGS_ALLOW_VERIFICATION_ERROR with
  | Ret ((_, Some s), _) => vbmeta_partition_name <$> vbmeta_images s =
                              [Some (str "vbmeta"); Some (str "odmA")]
  | _ => False
  end.
Proof. vm_compute. reflexivity. Qed.

(** ** Descriptors that are skipped *)

(** When the array of descriptors cannot be allocated, the loop runs on an
    uninitialised count: if it happens to be 0, every descriptor of the image
    is skipped, no partition is checked and the result stays what it was;
    otherwise the NULL array is read. *)
Theorem oom_skips_descriptors {W} `{Heap W} fuel uninit_count process image ptr size start ds ret
    (st : SlotState W) w' :
  holds_descriptors image ptr size start ds → (length ds < fuel)%nat →
  heap_alloc (8 * (zlen ds + 1)) (world st) = (false, w') →
  process_all_descriptors fuel uninit_count process image ptr size ret st =
  if 0 <? uninit_count then Crash NullDeref
  else Ret (inr ret, mkState w' (slot_data st) (cmdline_subst st) (out_algorithm_type st)).
Proof.
  intros Hh Hf Ha. unfold process_all_descriptors.
  pose proof (get_all_run image ptr size start ds fuel (world st) Hh Hf) as E. rewrite Ha in E.
  erewrite M_bind_run by (apply call_run; exact E). cbv iota. by destruct (0 <? uninit_count).
Qed.

Lemma oom_skips_descriptors_witness :
  process_all_descriptors (H := budget_heap) 2 0 (fun _ _ => stop AVB_SLOT_VERIFY_RESULT_ERROR_IO)
    demo_vbmeta 0x1000 1280 AVB_SLOT_VERIFY_RESULT_OK
    (mkState 0%nat empty_slot_data [] AVB_ALGORITHM_TYPE_NONE) =
  Ret (inr AVB_SLOT_VERIFY_RESULT_OK, mkState 0%nat empty_slot_data [] AVB_ALGORITHM_TYPE_NONE).
Proof.
  apply (oom_skips_descriptors (H := budget_heap) 2 0
    (fun _ _ => stop AVB_SLOT_VERIFY_RESULT_ERROR_IO) demo_vbmeta 0x1000 1280 576 _
    AVB_SLOT_VERIFY_RESULT_OK (mkState 0%nat empty_slot_data [] AVB_ALGORITHM_TYPE_NONE) 0%nat
    demo_holds_descriptors); [simpl; lia|reflexivity].
Defined.
