(* ===== verification/BootCtl.v ===== *)
(** * A/B slot control (common/cmd_bootctl_avb.c)

    The slot metadata kept in the misc partition and the boot commands that
    read and write it.  The storage driver is an interface ([StoreOps]); a
    command is a function of the command line and of the boot state. *)

From S2P Require Import Prelude AvbUtil Crc32.

Definition AB_METADATA_MISC_PARTITION_OFFSET : Z := 2048.
Definition MISCBUF_SIZE : Z := 2080.
Definition AVB_AB_MAGIC : bytes := [0; 0x41; 0x42; 0x30].
Definition AVB_AB_MAJOR_VERSION : Z := 1.
Definition AVB_AB_MINOR_VERSION : Z := 0.
Definition AVB_AB_DATA_SIZE : Z := 32.
Definition AVB_AB_MAX_PRIORITY : Z := 15.
Definition AVB_AB_MAX_TRIES_REMAINING : Z := 7.

Record AvbABSlotData := mkSlot {
  priority : Z;
  tries_remaining : Z;
  successful_boot : Z;
  slot_reserved : Z;
}.

Record AvbABData := mkAB {
  ab_magic : bytes;
  version_major : Z;
  version_minor : Z;
  reserved1 : bytes;
  slot_0 : AvbABSlotData;
  slot_1 : AvbABSlotData;
  reserved2 : bytes;
  ab_crc32 : Z;
}.

(** [info->slots[i]] and its update. *)
Definition slots (info : AvbABData) (i : Z) : AvbABSlotData :=
  if i =? 0 then slot_0 info else slot_1 info.

Definition set_slot (info : AvbABData) (i : Z) (s : AvbABSlotData) : AvbABData :=
  if i =? 0
  then mkAB (ab_magic info) (version_major info) (version_minor info) (reserved1 info)
         s (slot_1 info) (reserved2 info) (ab_crc32 info)
  else mkAB (ab_magic info) (version_major info) (version_minor info) (reserved1 info)
         (slot_0 info) s (reserved2 info) (ab_crc32 info).

Definition set_crc (info : AvbABData) (crc : Z) : AvbABData :=
  mkAB (ab_magic info) (version_major info) (version_minor info) (reserved1 info)
    (slot_0 info) (slot_1 info) (reserved2 info) crc.

(** ** Layout of the struct in memory and on disk *)

Definition slot_bytes (s : AvbABSlotData) : bytes :=
  [priority s; tries_remaining s; successful_boot s; slot_reserved s].

(** The 28 bytes in front of the checksum, and the whole struct. *)
Definition ab_prefix (info : AvbABData) : bytes :=
  ab_magic info ++ [version_major info; version_minor info] ++ reserved1 info ++
  slot_bytes (slot_0 info) ++ slot_bytes (slot_1 info) ++ reserved2 info.

Definition ab_bytes (info : AvbABData) : bytes :=
  ab_prefix info ++ le_encode 4 (ab_crc32 info).

Definition slot_of_bytes (l : bytes) : AvbABSlotData :=
  mkSlot (l !!! 0%nat) (l !!! 1%nat) (l !!! 2%nat) (l !!! 3%nat).

Definition ab_of_bytes (l : bytes) : AvbABData :=
  mkAB (slice l 0 4) (l !!! 4%nat) (l !!! 5%nat) (slice l 6 2)
    (slot_of_bytes (slice l 8 4)) (slot_of_bytes (slice l 12 4))
    (slice l 16 12) (le_decode (slice l 28 4)).

(** ** Operations on the metadata *)

Definition ab_validate_crc32 (info : AvbABData) : Z :=
  avb_htobe32 (avb_crc32 (ab_prefix info)).

Definition boot_info_validate (info : AvbABData) : bool :=
  if negb (ab_crc32 info =? ab_validate_crc32 info) then false
  else if negb (bool_decide (ab_magic info = AVB_AB_MAGIC)) then false
  else if AVB_AB_MAJOR_VERSION <? version_major info then false
  else true.

(** Every field is overwritten: the result does not depend on the old struct. *)
Definition boot_info_reset : AvbABData :=
  mkAB AVB_AB_MAGIC AVB_AB_MAJOR_VERSION AVB_AB_MINOR_VERSION [0; 0]
    (mkSlot AVB_AB_MAX_PRIORITY AVB_AB_MAX_TRIES_REMAINING 0 0)
    (mkSlot (AVB_AB_MAX_PRIORITY - 1) AVB_AB_MAX_TRIES_REMAINING 0 0)
    (replicate 12 0) 0.

Definition slot_is_bootable (s : AvbABSlotData) : bool :=
  (0 <? priority s) && (negb (successful_boot s =? 0) || (0 <? tries_remaining s)).

Definition boot_info_set_active_slot (info : AvbABData) (slot : Z) : AvbABData :=
  let info := set_slot info slot
    (mkSlot AVB_AB_MAX_PRIORITY AVB_AB_MAX_TRIES_REMAINING 0
       (slot_reserved (slots info slot))) in
  let other_slot_number := 1 - slot in
  let o := slots info other_slot_number in
  if priority o =? AVB_AB_MAX_PRIORITY
  then set_slot info other_slot_number
         (mkSlot (AVB_AB_MAX_PRIORITY - 1) (tries_remaining o) (successful_boot o)
            (slot_reserved o))
  else info.

(** Whether the slot was changed, and the metadata afterwards. *)
Definition boot_info_normalize (info : AvbABData) (slot : Z) : bool * AvbABData :=
  let s := slots info slot in
  if (priority s =? AVB_AB_MAX_PRIORITY) &&
     (tries_remaining s =? AVB_AB_MAX_TRIES_REMAINING) && (successful_boot s =? 1)
  then (true, set_slot info slot (mkSlot (priority s) 0 (successful_boot s) (slot_reserved s)))
  else (false, info).

Definition get_active_slot (info : AvbABData) : Z :=
  if priority (slot_1 info) <? priority (slot_0 info) then 0 else 1.

Definition boot_info_mark_slot_successful (info : AvbABData) (slot : Z) : AvbABData :=
  let s := slots info slot in
  set_slot info slot (mkSlot (priority s) 0 1 (slot_reserved s)).

(** The slot update of [do_DecrementRetryCount]. *)
Definition decrement_retry (info : AvbABData) : AvbABData :=
  let active_slot := get_active_slot info in
  let s := slots info active_slot in
  if negb (successful_boot s =? 1) then
    if 0 <? tries_remaining s then
      set_slot info active_slot
        (mkSlot (priority s) (tries_remaining s - 1) (successful_boot s) (slot_reserved s))
    else
      let info := set_slot info active_slot
        (mkSlot 0 (tries_remaining s) 0 (slot_reserved s)) in
      let other_slot := 1 - active_slot in
      let o := slots info other_slot in
      set_slot info other_slot
        (mkSlot AVB_AB_MAX_PRIORITY (tries_remaining o) (successful_boot o) (slot_reserved o))
  else info.

(** ** Storage and the boot commands *)

(** The storage driver: [store_read_ops part buf off size] gives the return
    code and the buffer afterwards, [store_write_ops part buf off size] the
    return code; both may change the device. *)
Class StoreOps (D : Type) := {
  store_read_ops : bytes → bytes → Z → Z → D → Z * bytes * D;
  store_write_ops : bytes → bytes → Z → Z → D → Z * D;
}.

Record BootState (D : Type) := mkBoot {
  device : D;
  env : gmap bytes bytes;
  has_boot_slot : Z;
  dynamic_partition : Z;
  active_slot : Z;
}.
Arguments mkBoot {D} _ _ _ _ _.
Arguments device {D} _.
Arguments env {D} _.
Arguments has_boot_slot {D} _.
Arguments dynamic_partition {D} _.
Arguments active_slot {D} _.

Section Commands.
Context {D : Type} `{StoreOps D}.
Implicit Types st : BootState D.

Definition set_device st (d : D) : BootState D :=
  mkBoot d (env st) (has_boot_slot st) (dynamic_partition st) (active_slot st).
Definition setenv st (name value : bytes) : BootState D :=
  mkBoot (device st) (<[name := value]> (env st)) (has_boot_slot st)
    (dynamic_partition st) (active_slot st).
Definition set_active_char st (c : Z) : BootState D :=
  mkBoot (device st) (env st) (has_boot_slot st) (dynamic_partition st) c.

Definition boot_info_open_partition (miscbuf : bytes) st : Z * bytes * BootState D :=
  let '(ret, miscbuf, d) := store_read_ops (str "misc") miscbuf 0 MISCBUF_SIZE (device st) in
  (if ret <? 0 then -1 else 0, miscbuf, set_device st d).

Definition boot_info_load (miscbuf : bytes) : AvbABData :=
  ab_of_bytes (slice miscbuf AB_METADATA_MISC_PARTITION_OFFSET AVB_AB_DATA_SIZE).

(** The metadata with its checksum filled in, the buffer, and the state. *)
Definition boot_info_save (info : AvbABData) (miscbuf : bytes) st
    : AvbABData * bytes * BootState D :=
  let info := set_crc info (avb_htobe32 (avb_crc32 (ab_prefix info))) in
  let miscbuf := take (Z.to_nat AB_METADATA_MISC_PARTITION_OFFSET) miscbuf ++ ab_bytes info ++
    drop (Z.to_nat (AB_METADATA_MISC_PARTITION_OFFSET + AVB_AB_DATA_SIZE)) miscbuf in
  let '(_, d) := store_write_ops (str "misc") miscbuf 0 MISCBUF_SIZE (device st) in
  (info, miscbuf, set_device st d).

Definition cmd_usage : Z := 1.

Definition zero_miscbuf : bytes := replicate (Z.to_nat MISCBUF_SIZE) 0.

Definition do_ResetAbMetadata (argv : list bytes) st : Z * BootState D :=
  match argv with
  | [_] =>
      let '(_, miscbuf, st) := boot_info_open_partition zero_miscbuf st in
      let '(_, _, st) := boot_info_save boot_info_reset miscbuf st in
      (0, st)
  | _ => (cmd_usage, st)
  end.

(** The common start of the other commands: read the metadata, and replace it
    by the default when it does not validate. *)
Definition load_or_reset st : AvbABData * bytes * BootState D :=
  let '(_, miscbuf, st) := boot_info_open_partition zero_miscbuf st in
  let info := boot_info_load miscbuf in
  if boot_info_validate info then (info, miscbuf, st)
  else boot_info_save boot_info_reset miscbuf st.

Definition do_DecrementRetryCount (argv : list bytes) st : Z * BootState D :=
  match argv with
  | [_] =>
      let '(info, miscbuf, st) := load_or_reset st in
      let '(_, _, st) := boot_info_save (decrement_retry info) miscbuf st in
      (0, st)
  | _ => (cmd_usage, st)
  end.

Definition do_MarkSlotSuccessful (argv : list bytes) st : Z * BootState D :=
  match argv with
  | [_; arg] =>
      let '(info, miscbuf, st) := load_or_reset st in
      if bool_decide (arg = str "a") then
        let '(_, _, st) := boot_info_save (boot_info_mark_slot_successful info 0) miscbuf st in
        (0, st)
      else if bool_decide (arg = str "b") then
        let '(_, _, st) := boot_info_save (boot_info_mark_slot_successful info 1) miscbuf st in
        (0, st)
      else (-1, st)
  | _ => (cmd_usage, st)
  end.

(** [boot_info_normalize(&info, 0) || boot_info_normalize(&info, 1)]: the second
    slot is looked at only when the first was left alone. *)
Definition normalize_any (info : AvbABData) : bool * AvbABData :=
  let '(b0, info) := boot_info_normalize info 0 in
  if b0 then (true, info) else boot_info_normalize info 1.

(** The second half of [do_GetValidSlot]: the slot chosen from the metadata is
    published in the environment. *)
Definition publish_slot (info : AvbABData) st : BootState D :=
  let slot := get_active_slot info in
  let bootable_a := slot_is_bootable (slot_0 info) in
  let bootable_b := slot_is_bootable (slot_1 info) in
  let st :=
    if has_boot_slot st =? 1
    then setenv (setenv st (str "retry-count_a") (dec_of_Z (tries_remaining (slot_0 info))))
           (str "retry-count_b") (dec_of_Z (tries_remaining (slot_1 info)))
    else st in
  let st := setenv st (str "partiton_mode")
    (if negb (dynamic_partition st =? 0) then str "dynamic" else str "normal") in
  if (slot =? 0) && bootable_a then
    if has_boot_slot st =? 1 then
      set_active_char (setenv (setenv (setenv st (str "active_slot") (str "_a"))
        (str "boot_part") (str "boot_a")) (str "slot-suffixes") (str "0")) 0x61
    else setenv (setenv st (str "active_slot") (str "normal")) (str "boot_part") (str "boot")
  else if (slot =? 1) && bootable_b then
    if has_boot_slot st =? 1 then
      set_active_char (setenv (setenv (setenv st (str "active_slot") (str "_b"))
        (str "boot_part") (str "boot_b")) (str "slot-suffixes") (str "1")) 0x62
    else setenv (setenv st (str "active_slot") (str "normal")) (str "boot_part") (str "boot")
  else st.

Definition do_GetValidSlot (argv : list bytes) st : Z * BootState D :=
  match argv with
  | [_] =>
      let '(info, miscbuf, st) := load_or_reset st in
      let '(changed, info) := normalize_any info in
      if changed
      then let '(info, _, st) := boot_info_save info miscbuf st in (0, publish_slot info st)
      else (0, publish_slot info st)
  | _ => (cmd_usage, st)
  end.

Definition do_SetActiveSlot (argv : list bytes) st : Z * BootState D :=
  match argv with
  | [_; arg] =>
      if has_boot_slot st =? 0 then (-1, st) else
      let '(info, miscbuf, st) := load_or_reset st in
      if bool_decide (arg = str "a") then
        let st := setenv (setenv (setenv st (str "active_slot") (str "_a"))
          (str "slot-suffixes") (str "0")) (str "boot_part") (str "boot_a") in
        let '(_, _, st) := boot_info_save (boot_info_set_active_slot info 0) miscbuf st in
        (0, st)
      else if bool_decide (arg = str "b") then
        let st := setenv (setenv (setenv st (str "active_slot") (str "_b"))
          (str "slot-suffixes") (str "1")) (str "boot_part") (str "boot_b") in
        let '(_, _, st) := boot_info_save (boot_info_set_active_slot info 1) miscbuf st in
        (0, st)
      else (-1, st)
  | _ => (cmd_usage, st)
  end.

Definition do_Get_slot_state (argv : list bytes) st : Z * BootState D :=
  match argv with
  | [_; arg1; arg2] =>
      if has_boot_slot st =? 0 then (-1, st) else
      let '(info, _, st) := load_or_reset st in
      let which (f : AvbABSlotData → bool) (k : Z) :=
        if bool_decide (arg1 = str "a") then (if f (slot_0 info) then 1 else 0)
        else if bool_decide (arg1 = str "b") then (if f (slot_1 info) then 1 else 0)
        else k in
      if bool_decide (arg2 = str "suc_stete")
      then (which (fun s => successful_boot s =? 1) (-1), st)
      else if bool_decide (arg2 = str "boot_state")
      then (which slot_is_bootable (-1), st)
      else (-1, st)
  | _ => (cmd_usage, st)
  end.

End Commands.

(** ** The layout is a round trip *)

Definition ab_layout (info : AvbABData) : Prop :=
  length (ab_magic info) = 4%nat ∧ length (reserved1 info) = 2%nat ∧
  length (reserved2 info) = 12%nat ∧ bytes_ok (ab_prefix info) ∧ is_u32 (ab_crc32 info).

Lemma ab_prefix_length info : ab_layout info → length (ab_prefix info) = 28%nat.
Proof.
  intros (E1 & E2 & E3 & _). unfold ab_prefix. rewrite !length_app, E1, E2, E3. done.
Qed.

Lemma ab_bytes_length info : ab_layout info → zlen (ab_bytes info) = AVB_AB_DATA_SIZE.
Proof.
  intros Hl. unfold ab_bytes, zlen.
  by rewrite length_app, ab_prefix_length, le_encode_length.
Qed.

Lemma ab_of_bytes_ab_bytes info : ab_layout info → ab_of_bytes (ab_bytes info) = info.
Proof.
  intros (E1 & E2 & E3 & _ & Hc).
  destruct info as [m vM vm r1 [] [] r2 crc]; simpl in *.
  do 4 (destruct m as [|? m]; [done|]). destruct m; [|done].
  do 2 (destruct r1 as [|? r1]; [done|]). destruct r1; [|done].
  do 12 (destruct r2 as [|? r2]; [done|]). destruct r2; [|done].
  unfold ab_bytes, ab_prefix. cbn -[le_encode]. unfold ab_of_bytes.
  cbn -[le_encode le_decode]. f_equal.
  change (slice _ 28 4) with (take 4 (le_encode 4 crc)).
  rewrite take_ge by (by rewrite le_encode_length).
  rewrite le_decode_encode. by apply u32_small.
Qed.

Lemma ab_bytes_of_bytes l :
  bytes_ok l → length l = 32%nat →
  ab_bytes (ab_of_bytes l) = l ∧ ab_layout (ab_of_bytes l).
Proof.
  intros Hl E. do 32 (destruct l as [|? l]; [done|]). destruct l; [|done].
  assert (ab_prefix (ab_of_bytes [z; z0; z1; z2; z3; z4; z5; z6; z7; z8; z9; z10; z11; z12;
    z13; z14; z15; z16; z17; z18; z19; z20; z21; z22; z23; z24; z25; z26; z27; z28; z29; z30])
    = [z; z0; z1; z2; z3; z4; z5; z6; z7; z8; z9; z10; z11; z12;
       z13; z14; z15; z16; z17; z18; z19; z20; z21; z22; z23; z24; z25; z26]) as E' by done.
  assert (bytes_ok [z27; z28; z29; z30]) as Hc.
  { unfold bytes_ok in *. rewrite !Forall_cons in *. tauto. }
  split.
  - unfold ab_bytes. rewrite E'. cbn [ab_of_bytes ab_crc32].
    change (slice _ 28 4) with [z27; z28; z29; z30].
    pose proof (le_encode_decode _ Hc) as Hd. cbn [length] in Hd. by rewrite Hd.
  - unfold ab_layout. rewrite E'. split_and!; [done..| |].
    + unfold bytes_ok in *. rewrite !Forall_cons in *. tauto.
    + apply (le_decode_range [z27; z28; z29; z30] Hc).
Qed.

Lemma set_crc_layout info crc : is_u32 crc → ab_layout info → ab_layout (set_crc info crc).
Proof. intros ? (?&?&?&?&?). by split_and!. Qed.

Lemma htobe32_u32 x : is_u32 (avb_htobe32 x).
Proof.
  rewrite htobe32_encode.
  exact (le_decode_range (rev (le_encode 4 x)) (bytes_ok_rev _ (le_encode_ok 4 x))).
Qed.
#[export] Hint Resolve htobe32_u32 set_crc_layout : words.

(** The metadata as [boot_info_save] leaves it. *)
Definition sealed (info : AvbABData) : AvbABData :=
  set_crc info (avb_htobe32 (avb_crc32 (ab_prefix info))).

Definition ab_current (info : AvbABData) : Prop :=
  ab_layout info ∧ ab_magic info = AVB_AB_MAGIC ∧ version_major info ≤ AVB_AB_MAJOR_VERSION.

Lemma sealed_validates info : ab_current info → boot_info_validate (sealed info) = true.
Proof.
  intros (_ & Em & Ev). unfold boot_info_validate, sealed, ab_validate_crc32.
  cbn [set_crc ab_crc32 ab_magic version_major].
  change (ab_prefix (set_crc info _)) with (ab_prefix info).
  rewrite Z.eqb_refl, bool_decide_eq_true_2 by done. simpl.
  by rewrite (proj2 (Z.ltb_ge _ _)).
Qed.

Lemma validate_current info :
  ab_layout info → boot_info_validate info = true → ab_current info.
Proof.
  unfold boot_info_validate. intros Hl. destruct (_ =? _); [|done]. simpl.
  case_bool_decide; [|done]. simpl. destruct (Z.ltb_spec AVB_AB_MAJOR_VERSION (version_major info)); [done|].
  unfold ab_current. auto.
Qed.

Lemma sealed_current info : ab_current info → ab_current (sealed info).
Proof. intros (? & ? & ?). unfold ab_current, sealed. auto with words. Qed.

(** ** A working device *)

(** What the commands rely on of the storage driver when the misc partition is
    accessible: a read fills the buffer with the partition's first bytes and
    leaves them as they are, a write replaces them. *)
Class WorkingStore (D : Type) `{StoreOps D} := {
  misc_of : D → bytes;
  misc_length d : MISCBUF_SIZE ≤ zlen (misc_of d);
  misc_bytes d : bytes_ok (misc_of d);
  misc_read buf d : zlen buf = MISCBUF_SIZE →
    ∃ ret d', store_read_ops (str "misc") buf 0 MISCBUF_SIZE d =
                (ret, slice (misc_of d) 0 MISCBUF_SIZE, d') ∧
              0 ≤ ret ∧ misc_of d' = misc_of d;
  misc_write buf d : zlen buf = MISCBUF_SIZE → bytes_ok buf →
    ∃ ret d', store_write_ops (str "misc") buf 0 MISCBUF_SIZE d = (ret, d') ∧
              0 ≤ ret ∧
              misc_of d' = buf ++ drop (Z.to_nat MISCBUF_SIZE) (misc_of d);
}.

(** A device that is its misc partition; a partition of another size or with
    something else than bytes does not occur. *)
Record MiscDisk := mkDisk {
  disk_bytes : bytes;
  disk_wf : bool_decide (zlen disk_bytes = MISCBUF_SIZE ∧ bytes_ok disk_bytes) = true;
}.

Definition disk_write (buf : bytes) (d : MiscDisk) : MiscDisk :=
  match bool_decide (zlen buf = MISCBUF_SIZE ∧ bytes_ok buf) as b
    return bool_decide (zlen buf = MISCBUF_SIZE ∧ bytes_ok buf) = b → MiscDisk
  with
  | true => fun E => mkDisk buf E
  | false => fun _ => d
  end eq_refl.

#[export] Instance misc_disk_ops : StoreOps MiscDisk := {
  store_read_ops _ _ off n d := (0, slice (disk_bytes d) off n, d);
  store_write_ops _ buf _ _ d := (0, disk_write buf d);
}.

Lemma disk_inv d : zlen (disk_bytes d) = MISCBUF_SIZE ∧ bytes_ok (disk_bytes d).
Proof. exact (bool_decide_eq_true_1 _ (disk_wf d)). Qed.

Lemma disk_write_bytes buf d :
  zlen buf = MISCBUF_SIZE → bytes_ok buf → disk_bytes (disk_write buf d) = buf.
Proof.
  intros H1 H2. unfold disk_write.
  generalize (eq_refl (bool_decide (zlen buf = MISCBUF_SIZE ∧ bytes_ok buf))).
  case_bool_decide as Hb; [done|]. tauto.
Qed.

#[export] Instance misc_disk_working : WorkingStore MiscDisk.
Proof.
  refine {| misc_of := disk_bytes |}.
  - intros d. by destruct (disk_inv d) as [-> _].
  - intros d. apply disk_inv.
  - intros buf d _. by exists 0, d.
  - intros buf d H1 H2. exists 0, (disk_write buf d). split_and!; [done..|].
    rewrite disk_write_bytes by done. rewrite drop_ge, app_nil_r; [done|].
    destruct (disk_inv d) as [E _]. unfold zlen in E. lia.
Defined.

(** ** Commands on a working device *)

Section Working.
Context {D : Type} `{WorkingStore D}.
Implicit Types st : BootState D.

(** The metadata a command works with: what is stored when it validates, the
    default otherwise. *)
Definition stored st : AvbABData := boot_info_load (misc_of (device st)).
Definition effective st : AvbABData :=
  if boot_info_validate (stored st) then stored st else sealed boot_info_reset.

Lemma stored_layout st : ab_layout (stored st).
Proof.
  pose proof (misc_length (device st)) as Hl. unfold MISCBUF_SIZE, zlen in Hl.
  apply ab_bytes_of_bytes; [apply slice_ok, misc_bytes|].
  unfold slice. rewrite length_take, length_drop.
  unfold AB_METADATA_MISC_PARTITION_OFFSET, AVB_AB_DATA_SIZE. lia.
Qed.

Lemma reset_current : ab_current boot_info_reset.
Proof. by apply (bool_decide_unpack _). Qed.

Lemma effective_current st : ab_current (effective st).
Proof.
  unfold effective. destruct (boot_info_validate (stored st)) eqn:E.
  - apply validate_current; [apply stored_layout|done].
  - apply sealed_current, reset_current.
Qed.

Definition same_env st st' : Prop :=
  env st' = env st ∧ has_boot_slot st' = has_boot_slot st ∧
  dynamic_partition st' = dynamic_partition st ∧ active_slot st' = active_slot st.

Lemma same_env_trans st1 st2 st3 : same_env st1 st2 → same_env st2 st3 → same_env st1 st3.
Proof. unfold same_env. intuition congruence. Qed.

Lemma open_spec st buf :
  zlen buf = MISCBUF_SIZE →
  ∃ st', boot_info_open_partition buf st =
           (0, slice (misc_of (device st)) 0 MISCBUF_SIZE, st') ∧
         misc_of (device st') = misc_of (device st) ∧ same_env st st'.
Proof.
  intros Hb. unfold boot_info_open_partition.
  destruct (misc_read buf (device st) Hb) as (ret & d' & -> & Hret & Hd).
  rewrite (proj2 (Z.ltb_ge _ _)) by done. eexists. by repeat split.
Qed.

Lemma save_spec info miscbuf st :
  zlen miscbuf = MISCBUF_SIZE → bytes_ok miscbuf → ab_current info →
  ∃ st' mb, boot_info_save info miscbuf st = (sealed info, mb, st') ∧
    zlen mb = MISCBUF_SIZE ∧ bytes_ok mb ∧
    stored st' = sealed info ∧ effective st' = sealed info ∧ same_env st st'.
Proof.
  intros Hl Hb Hi. unfold boot_info_save. fold (sealed info).
  assert (ab_layout (sealed info)) as Hsl by apply sealed_current, Hi.
  assert (bytes_ok (ab_bytes (sealed info))) as Hsb.
  { apply Forall_app. split; [apply Hsl|apply le_encode_ok]. }
  pose proof (ab_bytes_length _ Hsl) as El.
  unfold zlen, MISCBUF_SIZE, AB_METADATA_MISC_PARTITION_OFFSET, AVB_AB_DATA_SIZE in *.
  rewrite (drop_ge miscbuf), app_nil_r by lia.
  set (mb := take _ miscbuf ++ _).
  assert (Z.of_nat (length mb) = 2080) as Emb.
  { unfold mb. rewrite length_app, length_take. lia. }
  assert (bytes_ok mb) as Hmb by (apply Forall_app; auto using Forall_take).
  destruct (misc_write mb (device st) Emb Hmb) as (ret & d' & E & _ & Hd).
  unfold MISCBUF_SIZE in E, Hd. rewrite E.
  assert (boot_info_load (misc_of d') = sealed info) as Hst.
  { unfold boot_info_load. rewrite Hd.
    rewrite <-(ab_of_bytes_ab_bytes (sealed info)) by done. f_equal.
    unfold slice, AB_METADATA_MISC_PARTITION_OFFSET, AVB_AB_DATA_SIZE, mb.
    rewrite <-app_assoc, drop_app_length', take_app_length'; [done| |].
    all: rewrite ?length_take; lia. }
  exists (set_device st d'), mb. do 4 (split; [done|]). split; [|by repeat split].
  unfold effective, stored. cbn [set_device device]. rewrite Hst.
  by rewrite sealed_validates.
Qed.

Lemma load_or_reset_spec st :
  ∃ st' mb, load_or_reset st = (effective st, mb, st') ∧
    zlen mb = MISCBUF_SIZE ∧ bytes_ok mb ∧ effective st' = effective st ∧ same_env st st'.
Proof.
  unfold load_or_reset.
  destruct (open_spec st zero_miscbuf) as (st' & -> & Hd & He); [done|].
  set (mb := slice (misc_of (device st)) 0 MISCBUF_SIZE).
  pose proof (misc_length (device st)) as Hl.
  assert (zlen mb = MISCBUF_SIZE) as Hmb by by apply zlen_slice.
  assert (bytes_ok mb) as Hok by apply slice_ok, misc_bytes.
  assert (boot_info_load mb = stored st) as ->.
  { unfold stored, boot_info_load, mb. by rewrite slice_slice by done. }
  assert (effective st' = effective st) as Heff.
  { unfold effective, stored. by rewrite Hd. }
  unfold effective at 1. destruct (boot_info_validate (stored st)) eqn:Ev.
  - exists st', mb. auto.
  - destruct (save_spec boot_info_reset mb st' Hmb Hok reset_current)
      as (st'' & mb' & -> & ? & ? & ? & Hef & He').
    exists st'', mb'. do 3 (split; [done|]). split.
    + rewrite Hef. unfold effective. by rewrite Ev.
    + by apply same_env_trans with st'.
Qed.

(** ** The metadata operations keep the format *)

Lemma current_slot_u8 info i : ab_current info → bytes_ok (slot_bytes (slots info i)).
Proof.
  intros ((_ & _ & _ & Hb & _) & _). unfold ab_prefix in Hb.
  unfold bytes_ok in *. rewrite !Forall_app in Hb. unfold slots. destruct (i =? 0); tauto.
Qed.

Lemma set_slot_current info i s :
  ab_current info → bytes_ok (slot_bytes s) → ab_current (set_slot info i s).
Proof.
  intros ((E1 & E2 & E3 & Hb & Hc) & Em & Ev) Hs. unfold set_slot.
  unfold ab_current, ab_layout, ab_prefix, bytes_ok in *. rewrite !Forall_app in Hb.
  destruct (i =? 0);
    cbn [ab_magic version_major version_minor reserved1 slot_0 slot_1 reserved2 ab_crc32];
    rewrite !Forall_app; tauto.
Qed.

Ltac slot_u8_tac :=
  unfold bytes_ok, slot_bytes; rewrite !Forall_cons;
  cbn [priority tries_remaining successful_boot slot_reserved];
  unfold is_u8, AVB_AB_MAX_PRIORITY, AVB_AB_MAX_TRIES_REMAINING in *;
  repeat split; try lia; apply Forall_nil; done.

Lemma decrement_current info : ab_current info → ab_current (decrement_retry info).
Proof.
  intros Hi. unfold decrement_retry. set (a := get_active_slot info).
  pose proof (current_slot_u8 info a Hi) as Ha. unfold bytes_ok, slot_bytes in Ha.
  rewrite !Forall_cons in Ha. destruct Ha as (? & ? & ? & ? & _). unfold is_u8 in *.
  destruct (successful_boot (slots info a) =? 1); [done|]. cbn [negb].
  destruct (Z.ltb_spec 0 (tries_remaining (slots info a))).
  - apply set_slot_current; [done|]. slot_u8_tac.
  - assert (ab_current (set_slot info a
      (mkSlot 0 (tries_remaining (slots info a)) 0 (slot_reserved (slots info a))))) as Hi'.
    { apply set_slot_current; [done|]. slot_u8_tac. }
    apply set_slot_current; [done|].
    pose proof (current_slot_u8 _ (1 - a) Hi') as Hb. unfold bytes_ok, slot_bytes in *.
    rewrite !Forall_cons in Hb. destruct Hb as (? & ? & ? & ? & _). slot_u8_tac.
Qed.

Lemma set_active_current info i :
  ab_current info → ab_current (boot_info_set_active_slot info i).
Proof.
  intros Hi. unfold boot_info_set_active_slot.
  pose proof (current_slot_u8 info i Hi) as Ha. unfold bytes_ok, slot_bytes in Ha.
  rewrite !Forall_cons in Ha. destruct Ha as (_ & _ & _ & ? & _).
  match goal with |- context [set_slot info i ?s] =>
    assert (ab_current (set_slot info i s)) as Hi'; [apply set_slot_current; [done|slot_u8_tac]|]
  end.
  case_match; [|done]. apply set_slot_current; [done|].
  pose proof (current_slot_u8 _ (1 - i) Hi') as Hb. unfold bytes_ok, slot_bytes in *.
  rewrite !Forall_cons in Hb. destruct Hb as (? & ? & ? & ? & _). slot_u8_tac.
Qed.

Lemma mark_current info i :
  ab_current info → ab_current (boot_info_mark_slot_successful info i).
Proof.
  intros Hi. unfold boot_info_mark_slot_successful.
  pose proof (current_slot_u8 info i Hi) as Ha. unfold bytes_ok, slot_bytes in Ha.
  rewrite !Forall_cons in Ha. destruct Ha as (? & _ & _ & ? & _).
  apply set_slot_current; [done|slot_u8_tac].
Qed.

Lemma normalize_current info i :
  ab_current info → ab_current (boot_info_normalize info i).2.
Proof.
  intros Hi. unfold boot_info_normalize.
  pose proof (current_slot_u8 info i Hi) as Ha. unfold bytes_ok, slot_bytes in Ha.
  rewrite !Forall_cons in Ha. destruct Ha as (? & _ & ? & ? & _).
  destruct (_ && _); [|done]. apply set_slot_current; [done|slot_u8_tac].
Qed.

Lemma normalize_any_current info : ab_current info → ab_current (normalize_any info).2.
Proof.
  intros Hi. unfold normalize_any. pose proof (normalize_current info 0 Hi).
  destruct (boot_info_normalize info 0) as [[] info']; [done|]. by apply normalize_current.
Qed.

(** ** What each command does to the metadata *)

(** A command that loads the metadata and stores [f] of it. *)
Lemma load_save_effect (f : AvbABData → AvbABData) (g : BootState D → BootState D) st :
  (∀ info, ab_current info → ab_current (f info)) →
  (∀ st, device (g st) = device st) →
  ∃ st1 st2 mb mb', load_or_reset st = (effective st, mb, st1) ∧
    boot_info_save (f (effective st)) mb (g st1) = (sealed (f (effective st)), mb', st2) ∧
    effective st2 = sealed (f (effective st)) ∧ stored st2 = sealed (f (effective st)) ∧
    same_env st st1 ∧ same_env (g st1) st2.
Proof.
  intros Hf Hg.
  destruct (load_or_reset_spec st) as (st1 & mb & E1 & Hl & Hb & _ & He).
  destruct (save_spec (f (effective st)) mb (g st1) Hl Hb (Hf _ (effective_current st)))
    as (st2 & mb' & E2 & _ & _ & Hs & Hef & He2).
  by exists st1, st2, mb, mb'.
Qed.

Lemma decrement_effect name st :
  effective (do_DecrementRetryCount [name] st).2 = sealed (decrement_retry (effective st)) ∧
  same_env st (do_DecrementRetryCount [name] st).2.
Proof.
  destruct (load_save_effect decrement_retry (fun st => st) st decrement_current)
    as (st1 & st2 & mb & mb' & E1 & E2 & Hef & _ & He1 & He2); [done|].
  unfold do_DecrementRetryCount. rewrite E1, E2.
  split; [done|]. by apply same_env_trans with st1.
Qed.

Lemma mark_effect name (b : bool) st :
  effective (do_MarkSlotSuccessful [name; if b then str "b" else str "a"] st).2 =
    sealed (boot_info_mark_slot_successful (effective st) (if b then 1 else 0)).
Proof.
  destruct (load_save_effect (fun i => boot_info_mark_slot_successful i (if b then 1 else 0))
    (fun st => st) st) as (st1 & st2 & mb & mb' & E1 & E2 & Hef & _);
    [intros; by apply mark_current|done|].
  unfold do_MarkSlotSuccessful. rewrite E1.
  destruct b; [rewrite (bool_decide_eq_false_2 (_ = str "a")) by done|];
    rewrite bool_decide_eq_true_2 by done; by rewrite E2.
Qed.

Lemma set_active_effect name (b : bool) st :
  has_boot_slot st ≠ 0 →
  let st' := (do_SetActiveSlot [name; if b then str "b" else str "a"] st).2 in
  effective st' = sealed (boot_info_set_active_slot (effective st) (if b then 1 else 0)) ∧
  env st' !! str "active_slot" = Some (if b then str "_b" else str "_a") ∧
  env st' !! str "boot_part" = Some (if b then str "boot_b" else str "boot_a").
Proof.
  intros Hbs.
  destruct (load_save_effect (fun i => boot_info_set_active_slot i (if b then 1 else 0))
    (fun st => setenv (setenv (setenv st (str "active_slot") (if b then str "_b" else str "_a"))
          (str "slot-suffixes") (if b then str "1" else str "0"))
          (str "boot_part") (if b then str "boot_b" else str "boot_a")) st)
    as (st1 & st2 & mb & mb' & E1 & E2 & Hef & _ & He1 & He2);
    [intros; by apply set_active_current|done|].
  unfold do_SetActiveSlot. rewrite (proj2 (Z.eqb_neq _ _)) by done. rewrite E1.
  assert (env st2 !! str "active_slot" = Some (if b then str "_b" else str "_a") ∧
    env st2 !! str "boot_part" = Some (if b then str "boot_b" else str "boot_a")).
  { destruct He2 as (-> & _). cbn [setenv env]. split.
    - rewrite !lookup_insert_ne by done. apply lookup_insert_eq.
    - apply lookup_insert_eq. }
  destruct b; [rewrite (bool_decide_eq_false_2 (_ = str "a")) by done|];
    rewrite bool_decide_eq_true_2 by done; by rewrite E2.
Qed.

(** ** Retry accounting *)

Definition slot_pair (info : AvbABData) := (slot_0 info, slot_1 info).

Lemma slot_pair_view x y :
  slot_pair x = slot_pair y →
  get_active_slot x = get_active_slot y ∧ ∀ i, slots x i = slots y i.
Proof. unfold slot_pair, get_active_slot, slots. by intros [= -> ->]. Qed.

Lemma active_slot_01 info : get_active_slot info = 0 ∨ get_active_slot info = 1.
Proof. unfold get_active_slot. case_match; auto. Qed.

Lemma slots_sealed info i : slots (sealed info) i = slots info i.
Proof. done. Qed.
Lemma active_sealed info : get_active_slot (sealed info) = get_active_slot info.
Proof. done. Qed.

Lemma slots_set_slot info i s : slots (set_slot info i s) i = s.
Proof. unfold slots, set_slot. by destruct (i =? 0). Qed.
Lemma slots_set_other info i s :
  i = 0 ∨ i = 1 → slots (set_slot info i s) (1 - i) = slots info (1 - i).
Proof. unfold slots, set_slot. by intros [-> | ->]. Qed.
Lemma slots_set_other' info i s :
  i = 0 ∨ i = 1 → slots (set_slot info (1 - i) s) i = slots info i.
Proof. unfold slots, set_slot. by intros [-> | ->]. Qed.

(** The active slot in terms of the two priorities. *)
Lemma active_spec info i :
  i = 0 ∨ i = 1 →
  get_active_slot info = i ↔
  if i =? 0 then priority (slots info 1) < priority (slots info 0)
  else priority (slots info 0) ≤ priority (slots info 1).
Proof.
  unfold get_active_slot, slots. intros [-> | ->]; cbn;
    destruct (Z.ltb_spec (priority (slot_1 info)) (priority (slot_0 info))); lia.
Qed.

Lemma decrement_while_trying info i :
  get_active_slot info = i → successful_boot (slots info i) ≠ 1 →
  0 < tries_remaining (slots info i) →
  get_active_slot (decrement_retry info) = i ∧
  successful_boot (slots (decrement_retry info) i) = successful_boot (slots info i) ∧
  tries_remaining (slots (decrement_retry info) i) = tries_remaining (slots info i) - 1 ∧
  slots (decrement_retry info) (1 - i) = slots info (1 - i).
Proof.
  intros Ea Hs Ht. pose proof (active_slot_01 info) as Hi. rewrite Ea in Hi.
  unfold decrement_retry. rewrite Ea, (proj2 (Z.eqb_neq _ _)), (proj2 (Z.ltb_lt _ _)) by done.
  cbn [negb]. rewrite slots_set_slot, slots_set_other by done. split; [|done].
  rewrite active_spec in * by done. unfold slots, set_slot in *.
  by destruct Hi as [-> | ->].
Qed.

Lemma decrement_when_exhausted info i :
  get_active_slot info = i → successful_boot (slots info i) ≠ 1 →
  tries_remaining (slots info i) ≤ 0 →
  get_active_slot (decrement_retry info) = 1 - i ∧
  priority (slots (decrement_retry info) i) = 0 ∧
  tries_remaining (slots (decrement_retry info) (1 - i)) = tries_remaining (slots info (1 - i)) ∧
  successful_boot (slots (decrement_retry info) (1 - i)) = successful_boot (slots info (1 - i)) ∧
  priority (slots (decrement_retry info) (1 - i)) = AVB_AB_MAX_PRIORITY.
Proof.
  intros Ea Hs Ht. pose proof (active_slot_01 info) as Hi. rewrite Ea in Hi.
  unfold decrement_retry. rewrite Ea, (proj2 (Z.eqb_neq _ _)), (proj2 (Z.ltb_ge _ _)) by done.
  cbn [negb]. rewrite slots_set_slot, slots_set_other', slots_set_slot, slots_set_other by done.
  split; [|done]. unfold get_active_slot. by destruct Hi as [-> | ->].
Qed.

Lemma decrement_successful info i :
  get_active_slot info = i → successful_boot (slots info i) = 1 → decrement_retry info = info.
Proof. intros Ea Hs. unfold decrement_retry. by rewrite Ea, Hs. Qed.

Definition decrements (name : bytes) (n : nat) st : BootState D :=
  Nat.iter n (fun st => (do_DecrementRetryCount [name] st).2) st.

Lemma decrements_S name k st :
  decrements name (S k) st = (do_DecrementRetryCount [name] (decrements name k st)).2.
Proof. done. Qed.

Lemma decrements_trying name st i t k :
  get_active_slot (effective st) = i → successful_boot (slots (effective st) i) ≠ 1 →
  tries_remaining (slots (effective st) i) = Z.of_nat t → (k ≤ t)%nat →
  let info := effective (decrements name k st) in
  get_active_slot info = i ∧ successful_boot (slots info i) ≠ 1 ∧
  tries_remaining (slots info i) = Z.of_nat (t - k) ∧
  slots info (1 - i) = slots (effective st) (1 - i).
Proof.
  intros Ea Hs Ht. induction k as [|k IH]; intros Hk.
  - cbn. rewrite Nat.sub_0_r. done.
  - destruct IH as (Ea' & Hs' & Ht' & Ho'); [lia|].
    rewrite decrements_S. destruct (decrement_effect name (decrements name k st)) as [-> _].
    destruct (decrement_while_trying _ _ Ea' Hs') as (Ea2 & Hs2 & Ht2 & Ho2); [lia|].
    cbv zeta. rewrite active_sealed, !slots_sealed.
    split_and!; [done|congruence|lia|congruence].
Qed.

(** ** The promises of the component *)

(** C11: a slot that is not marked successful and keeps failing to boot is
    given up after its last try: with [t] tries left the slot stays active for
    [t] decrements, each taking one try, and the next decrement makes it
    unbootable and the other slot, whose own record is kept, the active one. *)
Theorem retries_exhausted_switch_slot name st i t :
  get_active_slot (effective st) = i → successful_boot (slots (effective st) i) ≠ 1 →
  tries_remaining (slots (effective st) i) = Z.of_nat t →
  (∀ k, (k ≤ t)%nat →
     get_active_slot (effective (decrements name k st)) = i ∧
     tries_remaining (slots (effective (decrements name k st)) i) = Z.of_nat (t - k)) ∧
  let info := effective (decrements name (S t) st) in
  get_active_slot info = 1 - i ∧ slot_is_bootable (slots info i) = false ∧
  tries_remaining (slots info (1 - i)) = tries_remaining (slots (effective st) (1 - i)) ∧
  successful_boot (slots info (1 - i)) = successful_boot (slots (effective st) (1 - i)).
Proof.
  intros Ea Hs Ht. split.
  { intros k Hk. destruct (decrements_trying name st i t k Ea Hs Ht Hk) as (? & _ & ? & _).
    done. }
  destruct (decrements_trying name st i t t Ea Hs Ht) as (Ea' & Hs' & Ht' & Ho'); [lia|].
  rewrite decrements_S.
  destruct (decrement_effect name (decrements name t st)) as [-> _]. cbv zeta.
  rewrite active_sealed, !slots_sealed.
  destruct (decrement_when_exhausted _ _ Ea' Hs') as (? & Hp & Ht2 & Hs2 & _); [lia|].
  split_and!; [done| |congruence|congruence]. unfold slot_is_bootable. by rewrite Hp.
Qed.

(** Once the active slot is marked successful, no number of retry decrements
    changes the metadata: a good slot is never given up. *)
Theorem successful_slot_is_kept name st n :
  successful_boot (slots (effective st) (get_active_slot (effective st))) = 1 →
  slot_pair (effective (decrements name n st)) = slot_pair (effective st).
Proof.
  intros Hs. induction n as [|n IH]; [done|]. rewrite decrements_S.
  destruct (decrement_effect name (decrements name n st)) as [-> _].
  rewrite <-IH. set (info := effective (decrements name n st)) in *.
  rewrite (decrement_successful info (get_active_slot info)); [reflexivity..|].
  destruct (slot_pair_view _ _ IH) as [-> Es]. by rewrite Es.
Qed.

(** Priorities and tries within the limits of the format. *)
Definition slot_limits (s : AvbABSlotData) : Prop :=
  0 ≤ priority s ≤ AVB_AB_MAX_PRIORITY ∧ 0 ≤ tries_remaining s ≤ AVB_AB_MAX_TRIES_REMAINING.
Definition limits (info : AvbABData) : Prop :=
  slot_limits (slot_0 info) ∧ slot_limits (slot_1 info).

Lemma limits_slots info i :
  i = 0 ∨ i = 1 →
  limits info ↔ slot_limits (slots info i) ∧ slot_limits (slots info (1 - i)).
Proof. unfold limits, slots. intros [-> | ->]; cbn; tauto. Qed.

Lemma set_active_slots info i :
  i = 0 ∨ i = 1 →
  let info' := boot_info_set_active_slot info i in
  slots info' i = mkSlot AVB_AB_MAX_PRIORITY AVB_AB_MAX_TRIES_REMAINING 0
                    (slot_reserved (slots info i)) ∧
  slots info' (1 - i) =
    let o := slots info (1 - i) in
    if priority o =? AVB_AB_MAX_PRIORITY
    then mkSlot (AVB_AB_MAX_PRIORITY - 1) (tries_remaining o) (successful_boot o) (slot_reserved o)
    else o.
Proof.
  intros Hi. unfold boot_info_set_active_slot. rewrite slots_set_other by done.
  cbv zeta. case_match; [by rewrite slots_set_other', !slots_set_slot|].
  by rewrite slots_set_slot, slots_set_other.
Qed.

Lemma set_active_other info i :
  i = 0 ∨ i = 1 → slot_limits (slots info i) ∧ slot_limits (slots info (1 - i)) →
  let o := slots (boot_info_set_active_slot info i) (1 - i) in
  priority o < AVB_AB_MAX_PRIORITY ∧ slot_limits o.
Proof.
  intros Hi [_ Ho]. destruct (set_active_slots info i Hi) as [_ ->].
  unfold slot_limits, AVB_AB_MAX_PRIORITY, AVB_AB_MAX_TRIES_REMAINING in *. cbv zeta.
  destruct (Z.eqb_spec (priority (slots info (1 - i))) 15); cbn; lia.
Qed.

(** [set_active_slot] makes the requested slot the active one, bootable with
    the full number of tries, both in the stored metadata and in the
    environment the boot script reads. *)
Theorem set_active_slot_selects name (b : bool) st :
  has_boot_slot st ≠ 0 → limits (effective st) →
  let st' := (do_SetActiveSlot [name; if b then str "b" else str "a"] st).2 in
  let i := if b then 1 else 0 in
  get_active_slot (effective st') = i ∧
  slot_is_bootable (slots (effective st') i) = true ∧
  tries_remaining (slots (effective st') i) = AVB_AB_MAX_TRIES_REMAINING ∧
  limits (effective st') ∧
  env st' !! str "active_slot" = Some (if b then str "_b" else str "_a") ∧
  env st' !! str "boot_part" = Some (if b then str "boot_b" else str "boot_a").
Proof.
  intros Hbs Hl. cbv zeta.
  destruct (set_active_effect name b st Hbs) as (-> & -> & ->).
  assert ((if b then 1 else 0) = 0 ∨ (if b then 1 else 0) = 1) as Hi by (destruct b; auto).
  revert Hi. generalize (if b then 1 else 0). intros i Hi.
  rewrite active_sealed, !slots_sealed. rewrite limits_slots in * by exact Hi.
  rewrite !slots_sealed. rewrite active_spec by done.
  destruct (set_active_slots (effective st) i Hi) as [E1 E2].
  destruct (set_active_other (effective st) i Hi Hl) as [Hlt Hlim].
  rewrite E1. split_and!; try done.
  destruct Hi as [-> | ->]; cbn [Z.eqb].
  - change (1 - 0) with 1 in *. rewrite E1. done.
  - change (1 - 1) with 0 in *. rewrite E1. cbn [priority]. lia.
Qed.

(** The commands as steps of the boot state. *)
Inductive step : BootState D → BootState D → Prop :=
| step_reset argv st : step st (do_ResetAbMetadata argv st).2
| step_decrement argv st : step st (do_DecrementRetryCount argv st).2
| step_mark argv st : step st (do_MarkSlotSuccessful argv st).2
| step_valid argv st : step st (do_GetValidSlot argv st).2
| step_active argv st : step st (do_SetActiveSlot argv st).2
| step_state argv st : step st (do_Get_slot_state argv st).2.

Lemma effective_ext st st' : device st' = device st → effective st' = effective st.
Proof. unfold effective, stored. by intros ->. Qed.

Lemma publish_device info st : device (publish_slot info st) = device st.
Proof. unfold publish_slot. repeat case_match; done. Qed.

Lemma normalize_unchanged info : (normalize_any info).1 = false → (normalize_any info).2 = info.
Proof.
  unfold normalize_any, boot_info_normalize. repeat (case_match; simplify_eq/=); done.
Qed.

(** What [get_valid_slot] publishes is the normalised metadata it stores. *)
Lemma get_valid_effect name st :
  ∃ info st1, (do_GetValidSlot [name] st).2 = publish_slot info st1 ∧
    slot_pair info = slot_pair (normalize_any (effective st)).2 ∧
    slot_pair (effective (do_GetValidSlot [name] st).2) = slot_pair info ∧ same_env st st1.
Proof.
  unfold do_GetValidSlot.
  destruct (load_or_reset_spec st) as (st1 & mb & -> & Hl & Hb & Hef & He).
  pose proof (normalize_any_current _ (effective_current st)) as Hc.
  pose proof (normalize_unchanged (effective st)) as Hn.
  destruct (normalize_any (effective st)) as [[] info]; cbn [fst snd] in *.
  - destruct (save_spec info mb st1 Hl Hb Hc) as (st2 & mb' & -> & _ & _ & _ & Hef2 & He2).
    exists (sealed info), st2. split_and!; [done..| |by eapply same_env_trans].
    cbn [snd]. rewrite (effective_ext st2) by apply publish_device. by rewrite Hef2.
  - rewrite Hn by done. exists (effective st), st1. split_and!; [done..| |done].
    cbn [snd]. rewrite (effective_ext st1) by apply publish_device. by rewrite Hef.
Qed.

(** ** Limits *)

Lemma limits_sealed info : limits (sealed info) ↔ limits info.
Proof. done. Qed.

Lemma limits_set_slot info i s : limits info → slot_limits s → limits (set_slot info i s).
Proof. unfold limits, set_slot. intros [] ?. by destruct (i =? 0). Qed.

Lemma limits_slot info i : limits info → slot_limits (slots info i).
Proof. unfold limits, slots. intros []. by destruct (i =? 0). Qed.

Ltac limits_tac :=
  unfold slot_limits, AVB_AB_MAX_PRIORITY, AVB_AB_MAX_TRIES_REMAINING in *;
  cbn [priority tries_remaining] in *; lia.

Lemma limits_decrement info : limits info → limits (decrement_retry info).
Proof.
  intros Hl. unfold decrement_retry. set (a := get_active_slot info).
  pose proof (limits_slot info a Hl) as Ha. case_match; [|done].
  destruct (Z.ltb_spec 0 (tries_remaining (slots info a))).
  - apply limits_set_slot; [done|]. limits_tac.
  - match goal with |- context [slots ?x (1 - a)] => assert (limits x) as Hx end.
    { apply limits_set_slot; [done|]. limits_tac. }
    apply limits_set_slot; [done|]. pose proof (limits_slot _ (1 - a) Hx). limits_tac.
Qed.

Lemma limits_mark info i : limits info → limits (boot_info_mark_slot_successful info i).
Proof.
  intros Hl. pose proof (limits_slot info i Hl). apply limits_set_slot; [done|]. limits_tac.
Qed.

Lemma limits_set_active info i :
  i = 0 ∨ i = 1 → limits info → limits (boot_info_set_active_slot info i).
Proof.
  intros Hi Hl. rewrite (limits_slots _ i) in Hl by done. rewrite (limits_slots _ i) by done.
  destruct (set_active_other info i Hi Hl) as [_ Ho]. split; [|done].
  destruct (set_active_slots info i Hi) as [-> _]. limits_tac.
Qed.

Lemma limits_normalize info i : limits info → limits (boot_info_normalize info i).2.
Proof.
  intros Hl. unfold boot_info_normalize. pose proof (limits_slot info i Hl).
  case_match; [|done]. apply limits_set_slot; [done|]. limits_tac.
Qed.

Lemma limits_normalize_any info : limits info → limits (normalize_any info).2.
Proof.
  intros Hl. unfold normalize_any. pose proof (limits_normalize info 0 Hl).
  destruct (boot_info_normalize info 0) as [[] ?]; [done|]. by apply limits_normalize.
Qed.

Lemma limits_pair info info' : slot_pair info = slot_pair info' → limits info → limits info'.
Proof. unfold slot_pair, limits. by intros [= -> ->]. Qed.

Lemma step_limits st st' : step st st' → limits (effective st) → limits (effective st').
Proof.
  destruct 1 as [argv st|argv st|argv st|argv st|argv st|argv st]; intros Hl.
  - destruct argv as [|name [|]]; [done| |done]. unfold do_ResetAbMetadata.
    destruct (open_spec st zero_miscbuf) as (st1 & -> & _ & _); [done|].
    destruct (save_spec boot_info_reset (slice (misc_of (device st)) 0 MISCBUF_SIZE) st1)
      as (st2 & mb & E & _ & _ & _ & Ef & _).
    + apply zlen_slice; [done..|apply misc_length].
    + apply slice_ok, misc_bytes.
    + apply reset_current.
    + rewrite E. cbn [snd]. rewrite Ef. by apply (bool_decide_unpack _).
  - destruct argv as [|name [|]]; [done| |done].
    destruct (decrement_effect name st) as [-> _]. by apply limits_sealed, limits_decrement.
  - destruct argv as [|name [|arg []]]; [done..| |done].
    destruct (decide (arg = str "a")) as [->|Ha];
      [rewrite (mark_effect name false); by apply limits_sealed, limits_mark|].
    destruct (decide (arg = str "b")) as [->|Hb];
      [rewrite (mark_effect name true); by apply limits_sealed, limits_mark|].
    unfold do_MarkSlotSuccessful. rewrite !bool_decide_eq_false_2 by done.
    destruct (load_or_reset_spec st) as (st1 & mb & -> & _ & _ & Hef & _).
    cbn [snd]. by rewrite Hef.
  - destruct argv as [|name [|]]; [done| |done].
    destruct (get_valid_effect name st) as (info & st1 & _ & E1 & E2 & _).
    eapply limits_pair; [symmetry; rewrite E2; exact E1|]. by apply limits_normalize_any.
  - destruct argv as [|name [|arg []]]; [done..| |done].
    destruct (decide (has_boot_slot st = 0)) as [E0|E0];
      [unfold do_SetActiveSlot; by rewrite E0|].
    destruct (decide (arg = str "a")) as [->|Ha];
      [destruct (set_active_effect name false st E0) as [-> _];
       apply limits_sealed, limits_set_active; auto|].
    destruct (decide (arg = str "b")) as [->|Hb];
      [destruct (set_active_effect name true st E0) as [-> _];
       apply limits_sealed, limits_set_active; auto|].
    unfold do_SetActiveSlot. rewrite !bool_decide_eq_false_2 by done.
    destruct (load_or_reset_spec st) as (st1 & mb & -> & _ & _ & Hef & _).
    case_match; [done|]. cbn [snd]. by rewrite Hef.
  - destruct argv as [|name [|a1 [|a2 []]]]; [done..| |done]. unfold do_Get_slot_state.
    destruct (load_or_reset_spec st) as (st1 & mb & -> & _ & _ & Hef & _).
    case_match; [done|]. do 2 (case_bool_decide; [cbn [snd]; by rewrite Hef|]).
    cbn [snd]. by rewrite Hef.
Qed.

(** C27: whatever sequence of boot commands runs, with whatever arguments, the
    slot priorities and retry counts the next boot works with stay within the
    limits of the format. *)
Theorem commands_keep_limits st st' :
  rtc step st st' → limits (effective st) → limits (effective st').
Proof.
  induction 1 as [|st1 st2 st3 Hs _ IH]; intros Hl; [exact Hl|].
  apply IH. exact (step_limits _ _ Hs Hl).
Qed.

Lemma app_cons_split (a c pre post : bytes) x :
  a ++ c = pre ++ x :: post → (length pre < length a)%nat →
  ∃ p, a = pre ++ x :: p ∧ post = p ++ c.
Proof.
  revert a. induction pre as [|y pre IH]; intros [|z a] E Hl; simpl in *; try lia.
  - injection E as -> <-. by exists a.
  - injection E as -> E. apply IH in E as (p & -> & ->); [|lia]. by exists p.
Qed.

Lemma htobe32_inj x y : is_u32 x → is_u32 y → avb_htobe32 x = avb_htobe32 y → x = y.
Proof.
  intros Hx Hy E. rewrite <-(be32_roundtrip x), <-(be32_roundtrip y) by done. by rewrite E.
Qed.

(** Metadata [info'] that validates and differs from sealed metadata in at most
    one byte does not differ. *)
Lemma valid_byte_same info info' pre b b' post :
  ab_current info → ab_layout info' → boot_info_validate info' = true →
  ab_bytes (sealed info) = pre ++ b :: post → ab_bytes info' = pre ++ b' :: post →
  (length pre < 28)%nat → b' = b.
Proof.
  intros Hi Hl' Hv Hb E' Hpre. assert (ab_layout (sealed info)) as Hl by apply sealed_current, Hi.
  unfold ab_bytes in E', Hb.
  apply app_cons_split in E' as (p1 & E1 & E2); [|by rewrite ab_prefix_length].
  apply app_cons_split in Hb as (p2 & E3 & E4); [|by rewrite ab_prefix_length].
  rewrite E2 in E4. apply app_inj_2 in E4 as [<- Hcrc]; [|by rewrite !le_encode_length].
  apply (f_equal le_decode) in Hcrc. rewrite !le_decode_encode in Hcrc.
  destruct Hl as (_ & _ & _ & _ & Hc), Hl' as (_ & _ & _ & Hok' & Hc').
  change (256 ^ Z.of_nat 4) with 0x100000000 in Hcrc.
  rewrite !Z.mod_small in Hcrc by done.
  unfold boot_info_validate in Hv. destruct (Z.eqb_spec (ab_crc32 info') (ab_validate_crc32 info'))
    as [Ev|]; [|done]. unfold ab_validate_crc32 in Ev. rewrite E1 in Ev, Hok'.
  rewrite Hcrc in Ev. cbn [sealed set_crc ab_crc32] in Ev.
  change (ab_prefix (sealed info)) with (ab_prefix info) in E3. rewrite E3 in Ev.
  apply Forall_app in Hok' as [? [? ?]%Forall_cons].
  destruct Hi as ((_ & _ & _ & Hok3 & _) & _). rewrite E3 in Hok3.
  apply Forall_app in Hok3 as Hok4. destruct Hok4 as [_ [? _]%Forall_cons].
  apply htobe32_inj in Ev; [|apply avb_crc32_u32..]; [|done|by apply Forall_app; auto].
  symmetry. by apply crc32_byte_change in Ev.
Qed.

(** Nor in a byte of the checksum, which the other bytes determine. *)
Lemma valid_checksum_same info info' pre b b' post :
  ab_current info → ab_layout info' → boot_info_validate info' = true →
  ab_bytes (sealed info) = pre ++ b :: post → ab_bytes info' = pre ++ b' :: post →
  (28 ≤ length pre)%nat → b' = b.
Proof.
  intros Hi Hl' Hv Hb E' Hpre. assert (ab_layout (sealed info)) as Hl by apply sealed_current, Hi.
  assert (∀ x : AvbABData, ab_layout x → ∀ c, ab_bytes x = pre ++ c →
    ab_prefix x = take 28 pre ∧ le_encode 4 (ab_crc32 x) = drop 28 pre ++ c) as Hsplit.
  { intros x Hx c E. unfold ab_bytes in E. pose proof (ab_prefix_length x Hx) as Hlen. split.
    - apply (f_equal (take 28)) in E. by rewrite take_app_length', take_app_le in E.
    - apply (f_equal (drop 28)) in E. by rewrite drop_app_length', drop_app_le in E. }
  destruct (Hsplit _ Hl _ Hb) as [P1 C1], (Hsplit _ Hl' _ E') as [P2 C2].
  unfold boot_info_validate in Hv. destruct (Z.eqb_spec (ab_crc32 info') (ab_validate_crc32 info')) as [Ev|]; [|done].
  unfold ab_validate_crc32 in Ev. rewrite P2, <- P1 in Ev.
  change (ab_prefix (sealed info)) with (ab_prefix info) in Ev.
  change (ab_crc32 (sealed info)) with (avb_htobe32 (avb_crc32 (ab_prefix info))) in C1.
  rewrite Ev in C2. rewrite C1 in C2. apply app_inv_head in C2. by injection C2.
Qed.

(** C26: metadata of which one byte was changed on disk, wherever in its
    thirty-two bytes, is never used: the next command works with the default
    metadata instead. *)
Theorem corrupted_metadata_is_reset st pre b b' post info :
  ab_current info → ab_bytes (sealed info) = pre ++ b :: post →
  is_u8 b' → b' ≠ b →
  slice (misc_of (device st)) AB_METADATA_MISC_PARTITION_OFFSET AVB_AB_DATA_SIZE =
    pre ++ b' :: post →
  boot_info_validate (stored st) = false ∧ effective st = sealed boot_info_reset.
Proof.
  intros Hi Hb Hb' Hne Hs.
  assert (boot_info_validate (stored st) = false) as Hv; [|by unfold effective; rewrite Hv].
  destruct (boot_info_validate (stored st)) eqn:Hv; [|done]. exfalso. apply Hne.
  assert (bytes_ok (pre ++ b' :: post)) as Hok by (rewrite <-Hs; apply slice_ok, misc_bytes).
  assert (ab_layout (sealed info)) as Hl by apply sealed_current, Hi.
  destruct (ab_bytes_of_bytes (pre ++ b' :: post) Hok) as [E' Hl'].
  { pose proof (ab_bytes_length _ Hl) as Hlen. rewrite Hb in Hlen. unfold zlen in Hlen.
    rewrite length_app in *. unfold AVB_AB_DATA_SIZE in Hlen. simpl in *. lia. }
  unfold stored, boot_info_load in Hv. rewrite Hs in Hv.
  destruct (decide (length pre < 28)%nat).
  - by eapply valid_byte_same.
  - eapply valid_checksum_same; [done..|lia].
Qed.

(** What [get_valid_slot] leaves in the environment: the active slot when it is
    bootable, and otherwise whatever was there before. *)
Lemma publish_env info st :
  env (publish_slot info st) !! str "active_slot" =
    if slot_is_bootable (slots info (get_active_slot info)) then
      Some (if has_boot_slot st =? 1
            then if get_active_slot info =? 0 then str "_a" else str "_b"
            else str "normal")
    else env st !! str "active_slot".
Proof.
  unfold publish_slot.
  set (st1 := setenv (if has_boot_slot st =? 1 then _ else st) (str "partiton_mode") _).
  assert (env st1 !! str "active_slot" = env st !! str "active_slot" ∧
          has_boot_slot st1 = has_boot_slot st) as [E1 E2].
  { unfold st1. destruct (has_boot_slot st =? 1); cbn [setenv env has_boot_slot];
      rewrite !lookup_insert_ne by done; done. }
  cbv zeta. fold st1. rewrite E2, <-E1. clearbody st1. unfold slots.
  destruct (active_slot_01 info) as [-> | ->]; cbn [Z.eqb Pos.eqb andb];
    (destruct (slot_is_bootable _); [|done]); cbn [andb];
    destruct (has_boot_slot st =? 1); cbn [setenv set_active_char env];
    rewrite !lookup_insert_ne by done; apply lookup_insert_eq.
Qed.

(** [get_valid_slot] publishes the slot of highest priority (slot b on a tie)
    when that slot is bootable; when it is not, the command still returns 0 and
    leaves the previous value, without trying the other slot. *)
Theorem get_valid_slot_publishes name st :
  let r := do_GetValidSlot [name] st in
  let info := effective r.2 in
  r.1 = 0 ∧
  slot_pair info = slot_pair (normalize_any (effective st)).2 ∧
  env r.2 !! str "active_slot" =
    if slot_is_bootable (slots info (get_active_slot info)) then
      Some (if has_boot_slot st =? 1
            then if get_active_slot info =? 0 then str "_a" else str "_b"
            else str "normal")
    else env st !! str "active_slot".
Proof.
  cbv zeta. split.
  { unfold do_GetValidSlot. destruct (load_or_reset st) as [[info mb] st1].
    destruct (normalize_any info) as [[] info']; [|done].
    by destruct (boot_info_save info' mb st1) as [[? ?] ?]. }
  destruct (get_valid_effect name st) as (info & st1 & E & E1 & E2 & He).
  split; [congruence|]. rewrite E at 1. rewrite publish_env. destruct He as (-> & -> & _).
  destruct (slot_pair_view _ _ E2) as [-> Es]. by rewrite Es.
Qed.

End Working.

(** ** Runs on a concrete device *)

Lemma blank_disk_wf :
  bool_decide (zlen (replicate 2080 0) = MISCBUF_SIZE ∧ bytes_ok (replicate 2080 0)) = true.
Proof. vm_compute. reflexivity. Qed.

(** A device whose misc partition was never written. *)
Definition blank_boot : BootState MiscDisk :=
  mkBoot (mkDisk (replicate 2080 0) blank_disk_wf) ∅ 1 0 0.

Lemma retries_exhausted_switch_slot_witness :
  get_active_slot (effective blank_boot) = 0 ∧
  get_active_slot (effective (decrements (str "decrement_retry_count") 8 blank_boot)) = 1 ∧
  slot_is_bootable (slots (effective (decrements (str "decrement_retry_count") 8 blank_boot)) 0)
    = false.
Proof.
  destruct (retries_exhausted_switch_slot (str "decrement_retry_count") blank_boot 0 7)
    as (Hk & Ha & Hb & _); [vm_compute; reflexivity|vm_compute; done|vm_compute; reflexivity|].
  split; [apply (Hk 0%nat); lia|]. split; [exact Ha|exact Hb].
Defined.

Lemma successful_slot_is_kept_witness :
  let st := (do_MarkSlotSuccessful [str "mark_slot_successful"; str "a"] blank_boot).2 in
  slot_pair (effective (decrements (str "decrement_retry_count") 20 st)) =
  slot_pair (effective st).
Proof. intros st. apply successful_slot_is_kept. vm_compute. reflexivity. Defined.

Lemma set_active_slot_selects_witness :
  get_active_slot (effective (do_SetActiveSlot
    [str "set_active_slot"; if true then str "b" else str "a"] blank_boot).2) = 1.
Proof.
  assert (limits (effective blank_boot)) as Hl
    by (apply (bool_decide_unpack _); vm_compute; exact I).
  destruct (set_active_slot_selects (str "set_active_slot") true blank_boot ltac:(done) Hl)
    as [E _]. exact E.
Defined.

Lemma commands_keep_limits_witness :
  limits (effective (do_DecrementRetryCount [str "d"]
                       (do_GetValidSlot [str "g"] blank_boot).2).2).
Proof.
  apply (commands_keep_limits blank_boot).
  - eapply rtc_l; [apply step_valid|]. apply rtc_once. apply step_decrement.
  - apply (bool_decide_unpack _). vm_compute. exact I.
Defined.

(** The default metadata with the priority of slot a raised. *)
Definition tampered_misc : bytes :=
  replicate 2048 0 ++ take 8 (ab_bytes (sealed boot_info_reset)) ++
  0x10 :: drop 9 (ab_bytes (sealed boot_info_reset)).

Lemma tampered_misc_wf :
  bool_decide (zlen tampered_misc = MISCBUF_SIZE ∧ bytes_ok tampered_misc) = true.
Proof. vm_compute. reflexivity. Qed.

Lemma corrupted_metadata_is_reset_witness :
  effective (mkBoot (mkDisk tampered_misc tampered_misc_wf) ∅ 1 0 0) = sealed boot_info_reset.
Proof.
  apply (corrupted_metadata_is_reset _ (take 8 (ab_bytes (sealed boot_info_reset))) 15 0x10
           (drop 9 (ab_bytes (sealed boot_info_reset))) boot_info_reset).
  - exact reset_current.
  - vm_compute. reflexivity.
  - done.
  - done.
  - vm_compute. reflexivity.
Defined.
