(* ===== verification/CmdAvb.v ===== *)
(** * The board's side of verified boot

    [common/cmd_avb.c]: the operations the board gives to libavb, on top of its
    storage driver, its environment and the slot selection of
    [cmd_bootctl_avb.c]; the command that verifies a slot; and what holds of a
    slot this board reports as verified. *)

From S2P Require Import Prelude AvbUtil Sha2 Rsa Vbmeta Descriptors AvbOps Cmdline SlotVerify.
From S2P Require Import SlotSound BootCtl.

(** The key built into the bootloader ([lib/libavb/testkey.c]). *)
Definition testkey2048 : bytes :=
  [0x00; 0x00; 0x08; 0x00; 0xc9; 0xd8; 0x7d; 0x7b; 0xc6; 0x55; 0x51; 0xdd; 0x32; 0x24; 0xa2; 0xe0; 0x0e; 0xbc; 0x7e; 0xfd;
   0xbd; 0xa2; 0x53; 0x80; 0x58; 0x69; 0x7e; 0xf5; 0x4a; 0x40; 0x87; 0x95; 0x90; 0x54; 0x59; 0x3d; 0x55; 0xca; 0xff; 0x36;
   0x34; 0x1a; 0xfa; 0xe1; 0xe0; 0x90; 0x2a; 0x1a; 0x32; 0x68; 0x5b; 0xf3; 0xdf; 0xad; 0x0b; 0xf9; 0xb1; 0xd0; 0xf7; 0xea;
   0xab; 0x47; 0x1f; 0x76; 0xbe; 0x1b; 0x98; 0x4b; 0x67; 0xa3; 0x62; 0xfa; 0xdf; 0xe6; 0xb5; 0xf8; 0xee; 0x73; 0x16; 0x5f;
   0xb8; 0xb1; 0x82; 0xde; 0x49; 0x89; 0xd5; 0x3d; 0xd7; 0xa8; 0x42; 0x99; 0x81; 0x75; 0xc8; 0xd8; 0x84; 0x7b; 0xbd; 0x54;
   0xa8; 0x22; 0x64; 0x44; 0xbc; 0x34; 0x06; 0x10; 0x3c; 0x89; 0xc2; 0xd1; 0xf3; 0x2c; 0x03; 0x65; 0x91; 0xb1; 0xa0; 0xd1;
   0xc8; 0x21; 0x56; 0x15; 0x99; 0x48; 0x20; 0x27; 0x74; 0xef; 0x01; 0x7a; 0x76; 0xa5; 0x0b; 0x6b; 0xfd; 0xe3; 0xfa; 0xed;
   0x0d; 0xf9; 0x0f; 0x7a; 0x41; 0xfa; 0x76; 0x05; 0x37; 0x49; 0xfe; 0x34; 0x4f; 0x4b; 0x01; 0x49; 0xe4; 0x98; 0xf7; 0x89;
   0x8e; 0xcd; 0x36; 0xaa; 0x39; 0x1d; 0xa9; 0x7d; 0x5d; 0x6b; 0x5a; 0x52; 0xd1; 0x75; 0x69; 0xa8; 0xdf; 0x7c; 0xde; 0x1c;
   0x1b; 0xf9; 0xd9; 0x19; 0x5b; 0xb7; 0x47; 0x4c; 0xb9; 0x70; 0x2e; 0xad; 0xe5; 0xd6; 0x88; 0x7c; 0xed; 0x92; 0x6e; 0x46;
   0x08; 0x10; 0xb5; 0x76; 0x03; 0x3e; 0x09; 0xac; 0x4d; 0xb6; 0x2c; 0xcd; 0x12; 0x00; 0xbd; 0xd4; 0xa7; 0x03; 0xd3; 0x1b;
   0x91; 0x08; 0x23; 0x36; 0x5b; 0x11; 0xfe; 0xaf; 0x59; 0x69; 0xb3; 0x3c; 0x88; 0x24; 0x37; 0x2d; 0x61; 0xba; 0xc5; 0x99;
   0x51; 0x18; 0x97; 0xf9; 0x23; 0x42; 0x96; 0x9f; 0x87; 0x2e; 0xcd; 0xb2; 0x4d; 0x5f; 0xa9; 0x24; 0xf2; 0x45; 0xda; 0xe2;
   0x65; 0x26; 0x26; 0x4d; 0x1e; 0xfa; 0x3b; 0x53; 0xab; 0xc5; 0xd3; 0x79; 0x53; 0x2f; 0x66; 0xb8; 0x21; 0x94; 0x66; 0x9a;
   0x93; 0x6f; 0x35; 0x26; 0x43; 0x8c; 0x8f; 0x96; 0xb9; 0xff; 0xac; 0xcd; 0xf4; 0x00; 0x6e; 0xbe; 0xb6; 0x73; 0x54; 0x84;
   0x50; 0x85; 0x46; 0x53; 0xd5; 0xdd; 0x43; 0xfe; 0xb2; 0x6a; 0x78; 0x40; 0x79; 0x56; 0x9f; 0x86; 0xf3; 0xd3; 0x81; 0x3b;
   0x3d; 0x40; 0x90; 0x35; 0x32; 0x9a; 0x51; 0x7f; 0xf8; 0xc3; 0x4b; 0xc7; 0xd6; 0xa1; 0xca; 0x30; 0xfb; 0x1b; 0xfd; 0x27;
   0x0a; 0xb8; 0x64; 0x41; 0x34; 0xc1; 0x17; 0xde; 0xa1; 0x76; 0x9a; 0xeb; 0xcf; 0x0c; 0x50; 0xd9; 0x13; 0xf5; 0x0d; 0x0b;
   0x2c; 0x99; 0x24; 0xcb; 0xb5; 0xb4; 0xf8; 0xc6; 0x0a; 0xd0; 0x26; 0xb1; 0x5b; 0xfd; 0x4d; 0x44; 0x66; 0x9d; 0xb0; 0x76;
   0xaa; 0x79; 0x9d; 0xc0; 0x5c; 0x3b; 0x94; 0x36; 0xc1; 0x8f; 0xfe; 0xc9; 0xd2; 0x5a; 0x6a; 0xa0; 0x46; 0xe1; 0xa2; 0x8b;
   0x2f; 0x51; 0x61; 0x51; 0xa3; 0x36; 0x91; 0x83; 0xb4; 0xfb; 0xcd; 0xa9; 0x40; 0x34; 0x46; 0x98; 0x8a; 0x1a; 0x91; 0xdf;
   0xd9; 0x2c; 0x3a; 0xbf; 0x57; 0x3a; 0x46; 0x46; 0x20; 0xf2; 0xf0; 0xbc; 0x31; 0x5e; 0x29; 0xfe; 0x58; 0x90; 0x32; 0x5c;
   0x66; 0x97; 0x99; 0x9a; 0x8e; 0x15; 0x23; 0xeb; 0xa9; 0x47; 0xd3; 0x63; 0xc6; 0x18; 0xbb; 0x8e; 0xd2; 0x20; 0x9f; 0x78;
   0xaf; 0x71; 0xb3; 0x2e; 0x08; 0x89; 0xa1; 0xf1; 0x7d; 0xb1; 0x30; 0xa0; 0xe6; 0x1b; 0xbd; 0x6e; 0xc8; 0xf6; 0x33; 0xe1;
   0xda; 0xb0; 0xbd; 0x16; 0x41; 0xfe; 0x07; 0x6f; 0x6e; 0x97; 0x8b; 0x6a; 0x33; 0xd2; 0xd7; 0x80; 0x03; 0x6a; 0x4d; 0xe7;
   0x05; 0x82; 0x28; 0x1f; 0xef; 0x6a; 0xa9; 0x75; 0x7e; 0xe1; 0x4e; 0xe2; 0x95; 0x5b; 0x4f; 0xe6; 0xdc; 0x03; 0xb9; 0x81].

Definition testkey2048_length : Z := 520.

Definition AML_DTB_IMG_MAX_SZ : Z := 256 * 1024 - 512.
Definition MAX_DTB_SIZE : Z := AML_DTB_IMG_MAX_SZ + 512.
Definition AVB_NUM_SLOT : Z := 4.

(** The further functions of the storage driver: [store_dtb_rw buf size op]
    gives the return code and the buffer afterwards,
    [store_get_partititon_size part] the return code and the number of sectors,
    and [get_partition_num_by_name] the number of a partition. *)
Class BoardStore (D : Type) := {
  store_dtb_rw : bytes → Z → Z → D → Z * bytes * D;
  store_get_partititon_size : bytes → D → Z * Z * D;
  get_partition_num_by_name : bytes → D → Z;
}.

(** The lock state kept in the environment variable "lock". *)
Record LockData := mkLock {
  lock_version_major : Z;
  lock_version_minor : Z;
  lock_state : Z;
  lock_critical_state : Z;
  lock_bootloader : Z;
}.

(** ** Looking up a command *)

Section FindCommand.
Context {A : Type}.

(** The loop of [find_cmd_tbl] over the names and handlers of a table; [cmd] is
    the command up to its first dot. *)
Fixpoint find_cmd_from (cmd : bytes) (table : list (bytes * A)) (cmdtp_temp : option A)
    (n_found : Z) : option A :=
  match table with
  | [] => if n_found =? 1 then cmdtp_temp else None
  | (name, c) :: table =>
      if bool_decide (take (length cmd) name = cmd) then
        if bool_decide (length cmd = length name) then Some c
        else find_cmd_from cmd table (Some c) (n_found + 1)
      else find_cmd_from cmd table cmdtp_temp n_found
  end.

Definition before_dot (cmd : bytes) : bytes :=
  match list_find (fun c => c = 46) cmd with Some (i, _) => take i cmd | None => cmd end.

Definition find_cmd_tbl (cmd : option bytes) (table : list (bytes * A)) : option A :=
  match cmd with
  | None => None
  | Some cmd => find_cmd_from (before_dot cmd) table None 0
  end.

Definition abbreviates (cmd : bytes) (e : bytes * A) : Prop := take (length cmd) e.1 = cmd.
#[export] Instance abbreviates_dec cmd e : Decision (abbreviates cmd e).
Proof. unfold abbreviates. apply _. Defined.

Lemma find_cmd_from_spec cmd table temp n :
  0 ≤ n → (n = 1 → is_Some temp) →
  find_cmd_from cmd table temp n =
  match list_find (fun e => e.1 = cmd) table with
  | Some (_, e) => Some e.2
  | None => match filter (abbreviates cmd) table with
            | [] => if n =? 1 then temp else None
            | [e] => if n =? 0 then Some e.2 else None
            | _ => None
            end
  end.
Proof.
  revert temp n. induction table as [|[name c] table IH]; intros temp n Hn Ht; [done|].
  cbn [find_cmd_from list_find]. rewrite filter_cons. cbn [fst].
  case_bool_decide as Hp.
  - rewrite (decide_True (P := abbreviates cmd (name, c))) by exact Hp. case_bool_decide as Hl.
    + rewrite take_ge in Hp by lia. by rewrite decide_True.
    + rewrite decide_False by (intros ->; lia). rewrite IH by (eauto; lia).
      destruct (list_find _ table) as [[i e]|]; cbn; [done|].
      destruct (filter _ table) as [|e [|e' l]].
      * destruct (Z.eqb_spec n 0) as [->|]; [done|]. by destruct (Z.eqb_spec (n + 1) 1); [lia|].
      * by destruct (Z.eqb_spec (n + 1) 0); [lia|].
      * done.
  - rewrite (decide_False (P := name = cmd)) by (intros ->; by rewrite firstn_all in Hp).
    rewrite decide_False by exact Hp. rewrite IH by done.
    by destruct (list_find _ table) as [[i e]|].
Qed.

(** A command names the entry with exactly its name, or else the only entry it
    abbreviates. *)
Lemma find_cmd_tbl_spec cmd table :
  find_cmd_tbl (Some cmd) table =
  match list_find (fun e => e.1 = before_dot cmd) table with
  | Some (_, e) => Some e.2
  | None => match filter (abbreviates (before_dot cmd)) table with [e] => Some e.2 | _ => None end
  end.
Proof.
  unfold find_cmd_tbl. rewrite find_cmd_from_spec by done. by repeat case_match.
Qed.
End FindCommand.

Section Board.
Context {D : Type} `{StoreOps D} `{BoardStore D} `{Heap (BootState D)}.

(** What a buffer of the given size holds before it is written, and the key
    linked into the bootloader, which is [testkey2048]. *)
Context (fresh_buffer : Z → bytes) (builtin_key : bytes).

Notation W := (BootState D).

Definition getenv (name : bytes) : comp W (option bytes) := fun st => Ret (env st !! name, st).

(** A C string that must not be NULL, as the argument of [strcmp]. *)
Definition not_null (s : option bytes) : comp W bytes :=
  match s with Some s => mret s | None => null_deref end.

(** [run_command("get_valid_slot;", 0)] *)
Definition run_get_valid_slot : comp W Z := fun st =>
  Ret (do_GetValidSlot [str "get_valid_slot"] st).

Definition on_device {A} (f : D → A * D) : comp W A := fun st =>
  let '(a, d) := f (device st) in Ret (a, set_device st d).

Definition aml_get_size_of_partition (partition : bytes) : comp W (AvbIOResult * Z) :=
  if has_prefix partition (str "dtb") then mret (AVB_IO_RESULT_OK, MAX_DTB_SIZE)
  else
    r ← on_device (store_get_partititon_size partition);
    let '(rc, sectors) := r in
    if negb (rc =? 0) then mret (AVB_IO_RESULT_ERROR_NO_SUCH_PARTITION, sectors)
    else mret (AVB_IO_RESULT_OK, u64 (sectors * 512)).

(** [part_bytes < offset] compares as unsigned 64-bit integers. *)
Definition aml_read_from_partition (partition : bytes) (offset num_bytes : Z)
    : comp W (AvbIOResult * (bytes * Z)) :=
  let buffer := fresh_buffer num_bytes in
  io ← aml_get_size_of_partition partition;
  let '(io_ret, part_bytes) := io in
  if negb (bool_decide (io_ret = AVB_IO_RESULT_OK))
  then mret (AVB_IO_RESULT_ERROR_NO_SUCH_PARTITION, (buffer, 0))
  else if part_bytes <? u64 offset
  then mret (AVB_IO_RESULT_ERROR_RANGE_OUTSIDE_PARTITION, (buffer, 0))
  else if has_prefix partition (str "dtb") then
    ok ← malloc MAX_DTB_SIZE;
    if negb ok then mret (AVB_IO_RESULT_ERROR_OOM, (buffer, 0))
    else
      r ← on_device (store_dtb_rw (fresh_buffer MAX_DTB_SIZE) MAX_DTB_SIZE 2);
      let '(rc, dtb_buf) := r in
      if negb (rc =? 0) then mret (AVB_IO_RESULT_ERROR_IO, (buffer, 0))
      else
        let out_num_read := if MAX_DTB_SIZE <? num_bytes then MAX_DTB_SIZE else num_bytes in
        copied ← lift (rd dtb_buf 0 out_num_read);
        buffer ← lift (wr buffer 0 copied);
        mret (AVB_IO_RESULT_OK, (buffer, out_num_read))
  else
    r ← on_device (store_read_ops partition buffer offset num_bytes);
    let '(rc, buffer) := r in
    if negb (rc =? 0) then mret (AVB_IO_RESULT_ERROR_IO, (buffer, 0))
    else mret (AVB_IO_RESULT_OK, (buffer, num_bytes)).

Definition aml_write_to_partition (partition : bytes) (offset num_bytes : Z) (buffer : bytes)
    : comp W AvbIOResult :=
  io ← aml_get_size_of_partition partition;
  let '(io_ret, part_bytes) := io in
  if negb (bool_decide (io_ret = AVB_IO_RESULT_OK)) then mret AVB_IO_RESULT_ERROR_NO_SUCH_PARTITION
  else if part_bytes <? u64 offset then mret AVB_IO_RESULT_ERROR_RANGE_OUTSIDE_PARTITION
  else if has_prefix partition (str "dtb") then
    if negb (offset =? 0) then mret AVB_IO_RESULT_ERROR_IO
    else
      r ← on_device (store_dtb_rw buffer num_bytes 1);
      mret (if negb (r.1 =? 0) then AVB_IO_RESULT_ERROR_IO else AVB_IO_RESULT_OK)
  else
    rc ← on_device (store_write_ops partition buffer offset num_bytes);
    mret (if negb (rc =? 0) then AVB_IO_RESULT_ERROR_IO else AVB_IO_RESULT_OK).

(** The string left in [guid_buf]; the longest, a device path, fits. *)
Definition aml_get_unique_guid_for_partition (partition : bytes) (guid_buf_size : Z)
    : comp W (AvbIOResult * bytes) :=
  run_get_valid_slot;;
  s1 ← getenv (str "active_slot");
  if has_prefix partition (str "system") then
    s1 ← not_null s1;
    let name := if bool_decide (s1 = str "_a") then str "system_a"
                else if bool_decide (s1 = str "_b") then str "system_b" else str "system" in
    ret ← on_device (fun d => (get_partition_num_by_name name d, d));
    mret (AVB_IO_RESULT_OK,
          take (Z.to_nat guid_buf_size) (str "/dev/mmcblk0p" ++ dec_of_Z (ret + 1)))
  else if has_prefix partition (str "vbmeta")
  then mret (AVB_IO_RESULT_OK, take (Z.to_nat guid_buf_size) (str "/dev/block/vbmeta"))
  else mret (AVB_IO_RESULT_OK, []).

Definition aml_validate_vbmeta_public_key (public_key : bytes) (metadata : option bytes)
    : comp W (AvbIOResult * bool) :=
  if negb (testkey2048_length =? zlen public_key) then mret (AVB_IO_RESULT_OK, false)
  else
    r ← lift (avb_safe_memcmp public_key builtin_key testkey2048_length);
    mret (AVB_IO_RESULT_OK, r =? 0).

(** Without CONFIG_AML_ANTIROLLBACK no index is stored. *)
Definition aml_read_rollback_index (rollback_index_location : Z) : comp W (AvbIOResult * Z) :=
  mret (AVB_IO_RESULT_OK, 0).

Definition aml_write_rollback_index (rollback_index_location rollback_index : Z)
    : comp W AvbIOResult := mret AVB_IO_RESULT_OK.

(** The variable "lock" with its terminator; the fields are [uint8_t]. *)
Definition lock_data (lock_s : bytes) : run LockData :=
  let at_ i := c ← rd (lock_s ++ [0]) i 1; mret (u8 (hd 0 c - 48)) in
  major ← at_ 0; minor ← at_ 1; state ← at_ 4; critical ← at_ 5; bootloader ← at_ 6;
  mret (mkLock major minor state critical bootloader).

Definition aml_read_is_device_unlocked : comp W (AvbIOResult * bool) :=
  lock_s ← getenv (str "lock");
  match lock_s with
  | None => mret (AVB_IO_RESULT_ERROR_IO, false)
  | Some lock_s =>
      info ← lift (lock_data lock_s);
      mret (AVB_IO_RESULT_OK, negb (lock_state info =? 1))
  end.

(** [avb_init] *)
#[export] Instance avb_ops_ : AvbOps W := {|
  read_from_partition := aml_read_from_partition;
  get_preloaded_partition := None;
  validate_vbmeta_public_key := aml_validate_vbmeta_public_key;
  read_rollback_index := aml_read_rollback_index;
  read_is_device_unlocked := aml_read_is_device_unlocked;
  get_unique_guid_for_partition := aml_get_unique_guid_for_partition;
  get_size_of_partition := Some aml_get_size_of_partition;
  read_persistent_value := None;
|}.

Definition is_device_unlocked : comp W bool :=
  r ← aml_read_is_device_unlocked;
  let '(ret, out_is_unlocked) := r in
  mret (if bool_decide (ret = AVB_IO_RESULT_OK) then out_is_unlocked else false).

(** The strings of an array up to its NULL. *)
Fixpoint until_null (strings : list (option bytes)) : list bytes :=
  match strings with
  | Some s :: strings => s :: until_null strings
  | _ => []
  end.

(** [fuel], [buffer_address] and [uninit_count] are those of [avb_slot_verify]. *)
Context (fuel : nat) (buffer_address : W → Z) (uninit_count : Z).

(** The result and [*out_data]. *)
Definition avb_verify : comp W (AvbSlotVerifyResult * option AvbSlotVerifyData) :=
  let requested_partitions := [Some (str "boot"); Some (str "dtb"); None; None; None] in
  run_get_valid_slot;;
  s1 ← getenv (str "active_slot");
  s1 ← not_null s1;
  let ab_suffix := if bool_decide (s1 = str "normal") then [] else s1 in
  upgradestep ← getenv (str "upgrade_step");
  unlocked ← is_device_unlocked;
  allow ← (if unlocked : bool then mret true
           else step ← not_null upgradestep; mret (bool_decide (step = str "3")));
  let flags := if allow : bool then AVB_SLOT_VERIFY_FLAGS_ALLOW_VERIFICATION_ERROR else 0 in
  let requested :=
    if bool_decide (ab_suffix = []) then
      match list_find (fun s => s = None) (take (Z.to_nat AVB_NUM_SLOT) requested_partitions) with
      | Some (i, _) => Some (<[i := Some (str "recovery")]> requested_partitions)
      | None => None
      end
    else Some requested_partitions in
  match requested with
  | None => mret (AVB_SLOT_VERIFY_RESULT_ERROR_INVALID_ARGUMENT, None)
  | Some requested =>
      r ← avb_slot_verify fuel buffer_address uninit_count (until_null requested) ab_suffix flags
            AVB_HASHTREE_ERROR_MODE_RESTART_AND_INVALIDATE;
      let '(result, out_data) := r in
      step ← not_null upgradestep;
      mret (if bool_decide (step = str "3") then AVB_SLOT_VERIFY_RESULT_OK else result, out_data)
  end.

(** The command prints fields of [out_data] when the result is OK. *)
Definition do_avb_verify : comp W AvbSlotVerifyResult :=
  r ← avb_verify;
  let '(result, out_data) := r in
  if bool_decide (result = AVB_SLOT_VERIFY_RESULT_OK) then
    match out_data with
    | None => null_deref
    | Some _ => mret result
    end
  else mret result.

(** [argv] without the name of the command; the other result is [cmd_usage]. *)
Definition do_avb_ops (argv : list bytes) : comp W (AvbSlotVerifyResult + Z) :=
  match find_cmd_tbl (head argv) [(str "verify", do_avb_verify)] with
  | Some cmd => r ← cmd; mret (inl r)
  | None => mret (inr cmd_usage)
  end.

(** ** Properties *)

(** The variables [get_valid_slot] may set. *)
Definition published : list bytes :=
  [str "retry-count_a"; str "retry-count_b"; str "partiton_mode"; str "active_slot";
   str "boot_part"; str "slot-suffixes"].

Lemma setenv_other (st : W) name value x :
  x ≠ name → env (setenv st name value) !! x = env st !! x.
Proof. intros Hx. cbn. by rewrite lookup_insert_ne by congruence. Qed.

Lemma publish_slot_other info (st : W) x :
  x ∉ published → env (publish_slot info st) !! x = env st !! x.
Proof.
  clear fresh_buffer buffer_address uninit_count. intros Hx. unfold published in Hx. unfold publish_slot.
  repeat case_match; cbn; rewrite ?lookup_insert_ne; set_solver.
Qed.

Lemma load_or_reset_env (st : W) : env (load_or_reset st).2 = env st.
Proof.
  unfold load_or_reset, boot_info_open_partition. destruct (store_read_ops _ _ _ _ _) as [[ret buf] d].
  case_match; [done|]. unfold boot_info_save. by destruct (store_write_ops _ _ _ _ _).
Qed.

Lemma get_valid_slot_other argv (st : W) x :
  x ∉ published → env (do_GetValidSlot argv st).2 !! x = env st !! x.
Proof.
  intros Hx. unfold do_GetValidSlot. destruct argv as [|a [|b argv]]; [done| |done].
  pose proof (load_or_reset_env st) as E. destruct (load_or_reset st) as [[info buf] st1].
  cbn in E. destruct (normalize_any info) as [[] info'].
  - unfold boot_info_save. destruct (store_write_ops _ _ _ _ _). cbn [snd].
    rewrite publish_slot_other by done. cbn. by rewrite E.
  - cbn [snd]. rewrite publish_slot_other by done. by rewrite E.
Qed.

(** A locked device: the fifth character of "lock" is a one. *)
Definition locked (st : W) : Prop :=
  ∃ lock_s, env st !! str "lock" = Some lock_s ∧ lock_s !! 4%nat = Some 49.

Lemma lock_data_locked lock_s info :
  lock_s !! 4%nat = Some 49 → lock_data lock_s = Ret info → lock_state info = 1.
Proof.
  intros E4 E. unfold lock_data in E.
  apply run_bind_Ret in E as (? & _ & E). apply run_bind_Ret in E as (? & _ & E).
  apply run_bind_Ret in E as (state & Es & E). apply run_bind_Ret in E as (? & _ & E).
  apply run_bind_Ret in E as (? & _ & E). injection E as <-. cbn.
  apply run_bind_Ret in Es as (c & Ec & Es). apply rd_Ret in Ec as (_ & _ & _ & ->).
  injection Es as <-. unfold slice. change (Z.to_nat 4) with 4%nat.
  rewrite (drop_S (lock_s ++ [0]) 49 4) by by apply lookup_app_l_Some. done.
Qed.

Lemma locked_not_unlocked (st st' : W) b :
  locked st → is_device_unlocked st = Ret (b, st') → b = false ∧ st' = st.
Proof.
  intros (lock_s & El & E4) E. unfold is_device_unlocked in E.
  apply comp_bind_Ret in E as ([ret u] & st1 & E1 & E). injection E as <- <-.
  unfold aml_read_is_device_unlocked in E1.
  apply comp_bind_Ret in E1 as (ls & st2 & [= <- <-] & E1). rewrite El in E1.
  apply comp_bind_Ret in E1 as (info & st3 & E3 & E1).
  apply lift_Ret in E3 as (i & E3 & [= -> ->]). injection E1 as <- <- <-.
  by rewrite (lock_data_locked _ _ E4 E3).
Qed.

(** What the board trusts, as libavb sees it. *)
Lemma board_key_trusted key md (st st' : W) :
  zlen builtin_key = testkey2048_length →
  validate_vbmeta_public_key key md st = Ret ((AVB_IO_RESULT_OK, true), st') → key = builtin_key.
Proof.
  intros Hk E. cbn in E. unfold aml_validate_vbmeta_public_key in E.
  destruct (Z.eqb_spec testkey2048_length (zlen key)) as [El|]; [|discriminate E]. cbn [negb] in E.
  apply comp_bind_Ret in E as (r & st1 & E1 & [= Er _]).
  apply lift_Ret in E1 as (r' & E1 & [= -> ->]). unfold testkey2048_length in *.
  rewrite safe_memcmp_spec in E1 by lia. injection E1 as <-.
  case_bool_decide as Heq; [|discriminate Er].
  by rewrite !slice_full in Heq by done.
Qed.

Lemma get_valid_slot_locked (st : W) :
  locked st → locked (do_GetValidSlot [str "get_valid_slot"] st).2.
Proof.
  intros (lock_s & El & E4). exists lock_s.
  by rewrite get_valid_slot_other by (apply (bool_decide_unpack _); vm_compute; exact I).
Qed.

Lemma is_device_unlocked_state (st st' : W) b : is_device_unlocked st = Ret (b, st') → st' = st.
Proof.
  unfold is_device_unlocked, aml_read_is_device_unlocked. intros E.
  apply comp_bind_Ret in E as ([ret u] & st1 & E1 & E). injection E as <- <-.
  apply comp_bind_Ret in E1 as (ls & st2 & [= <- <-] & E1).
  destruct (env st !! str "lock"); [|by injection E1].
  apply comp_bind_Ret in E1 as (info & st3 & E3 & E1).
  apply lift_Ret in E3 as (i & _ & [= -> ->]). by injection E1.
Qed.

Definition slot_selected (st : W) : W := (do_GetValidSlot [str "get_valid_slot"] st).2.

Lemma slot_selected_other (st : W) x :
  bool_decide (x ∉ published) = true → env (slot_selected st) !! x = env st !! x.
Proof. intros Hx. apply get_valid_slot_other. by apply bool_decide_eq_true in Hx. Qed.

(** A run of [avb_verify] is a run of [avb_slot_verify] with the flags and the
    override that the lock state and "upgrade_step" give. *)
Lemma avb_verify_inv (st st' : W) r out :
  avb_verify st = Ret ((r, out), st') →
  ∃ unlocked up suffix requested result,
    is_device_unlocked (slot_selected st) = Ret (unlocked, slot_selected st) ∧
    env st !! str "upgrade_step" = Some up ∧
    avb_slot_verify fuel buffer_address uninit_count requested suffix
      (if unlocked || bool_decide (up = str "3") then 1 else 0)
      AVB_HASHTREE_ERROR_MODE_RESTART_AND_INVALIDATE (slot_selected st) = Ret ((result, out), st') ∧
    r = if bool_decide (up = str "3") then AVB_SLOT_VERIFY_RESULT_OK else result.
Proof.
  intros E. unfold avb_verify in E.
  apply comp_bind_Ret in E as (n & st1 & E1 & E).
  assert (st1 = slot_selected st) as ->.
  { unfold run_get_valid_slot, slot_selected in *. destruct (do_GetValidSlot _ st). by injection E1. }
  apply comp_bind_Ret in E as (s1 & st2 & [= <- <-] & E).
  apply comp_bind_Ret in E as (s2 & st3 & Es & E).
  destruct (env _ !! str "active_slot"); [|discriminate Es]. injection Es as -> <-.
  apply comp_bind_Ret in E as (up & st3 & [= <- <-] & E).
  rewrite slot_selected_other in E by by vm_compute.
  apply comp_bind_Ret in E as (u & st3 & Eu & E).
  pose proof (is_device_unlocked_state _ _ _ Eu) as ->.
  apply comp_bind_Ret in E as (allow & st3 & Ea & E).
  destruct (if bool_decide _ then _ else _) as [requested|] eqn:Er.
  2: { by case_bool_decide; vm_compute in Er. }
  apply comp_bind_Ret in E as ([result out'] & st5 & Ev & E).
  apply comp_bind_Ret in E as (step & st6 & Es & E).
  destruct (env st !! str "upgrade_step") as [up|]; [|discriminate Es].
  injection Es as <- <-. injection E as <- <- <-.
  assert (allow = u || bool_decide (up = str "3") ∧ st3 = slot_selected st) as [-> ->].
  { destruct u; [by injection Ea as <- <-|]. apply comp_bind_Ret in Ea as (? & ? & [= <- <-] & Ea).
    by injection Ea as <- <-. }
  eexists _, _, _, _, _. split_and!; [exact Eu|done|exact Ev|done].
Qed.

(** What the storage driver and the allocator promise: memory does not run out,
    addresses are 64-bit, buffers have the size asked for, and a read that
    reports success leaves that many bytes in the buffer. *)
Record board_laws : Prop := {
  bl_roomy : ∀ n (st : W), (heap_alloc n st).1 = true;
  bl_address : ∀ st, is_u64 (buffer_address st);
  bl_fresh : ∀ n, bytes_ok (fresh_buffer n) ∧ (0 ≤ n → zlen (fresh_buffer n) = n);
  bl_read : ∀ part off n d buf d', store_read_ops part (fresh_buffer n) off n d = (0, buf, d') →
    bytes_ok buf ∧ (0 ≤ n → zlen buf = n);
  bl_dtb : ∀ d buf d', store_dtb_rw (fresh_buffer MAX_DTB_SIZE) MAX_DTB_SIZE 2 d = (0, buf, d') → bytes_ok buf
}.

Lemma board_reads part off n (st : W) buf k st' : board_laws →
  aml_read_from_partition part off n st = Ret ((AVB_IO_RESULT_OK, (buf, k)), st') →
  bytes_ok buf ∧ (0 ≤ n → zlen buf = n ∧ 0 ≤ k).
Proof.
  intros laws E. unfold aml_read_from_partition in E.
  apply comp_bind_Ret in E as ([io size] & st1 & _ & E).
  destruct (negb _); [discriminate E|]. destruct (_ <? _); [discriminate E|].
  destruct (has_prefix _ _).
  - apply comp_bind_Ret in E as (ok & st2 & _ & E). destruct ok; [|discriminate E]. cbn [negb] in E.
    apply comp_bind_Ret in E as ([rc dtb] & st3 & Er & E). unfold on_device in Er.
    destruct (store_dtb_rw _ _ _ _) as [[rc' dtb'] d] eqn:Ed. injection Er as -> -> _.
    destruct (Z.eqb_spec rc 0) as [->|]; [|discriminate E]. cbn [negb] in E.
    apply comp_bind_Ret in E as (c & st4 & Ec & E). apply lift_Ret in Ec as (? & Ec & [= -> ->]).
    apply comp_bind_Ret in E as (b & st5 & Eb & E). apply lift_Ret in Eb as (? & Eb & [= -> ->]).
    injection E as -> <- _. apply rd_Ret in Ec as (_ & Hk & _ & ->).
    destruct (bl_fresh laws n) as [Hf Hz]. split.
    + apply wr_Ret in Eb as (_ & _ & ->). apply Forall_app; split; [by apply Forall_take|].
      apply Forall_app; split; [apply slice_ok; by eapply (bl_dtb laws)|by apply Forall_drop].
    + intros Hn. rewrite (wr_length _ _ _ _ Eb). auto.
  - apply comp_bind_Ret in E as ([rc b] & st2 & Er & E). unfold on_device in Er.
    destruct (store_read_ops _ _ _ _ _) as [[rc' b'] d] eqn:Ed. injection Er as -> -> _.
    destruct (Z.eqb_spec rc 0) as [->|]; [|discriminate E]. cbn [negb] in E. injection E as -> <- _.
    destruct (bl_read laws _ _ _ _ _ _ Ed) as [Hb Hz]. auto.
Qed.

(** Slot data reported as OK on a locked device. *)
Lemma board_slot_good (st st' : W) s :
  board_laws →
  zlen builtin_key = testkey2048_length →
  locked st → env st !! str "upgrade_step" ≠ Some (str "3") →
  avb_verify st = Ret ((AVB_SLOT_VERIFY_RESULT_OK, Some s), st') →
  slot_good (fun key => key = builtin_key) (fun _ => 0) s.
Proof.
  intros laws Hk Hl Hu E. apply avb_verify_inv in E as (u & up & suffix & rq & result & Eu & Eup & Ev & Er).
  apply locked_not_unlocked in Eu as [-> _]; [|by apply get_valid_slot_locked].
  rewrite (bool_decide_false (up = str "3")) in Ev, Er by congruence. subst result.
  eapply locked_slot_good with (slot_flags := 0);
    [apply laws|apply laws|reflexivity| |by intros; discriminate| | |reflexivity|exact Ev].
  - intros part off n w buf k w'. by apply board_reads.
  - intros key md w w'. by apply board_key_trusted.
  - intros loc w x w' Ex. by injection Ex as <- _.
Qed.

(** C4: with memory that does not run out and a built-in key of the length of
    the test key, whatever a storage holds that returns as many bytes as asked
    for, slot data this board reports as OK while "lock" says locked and no
    upgrade is in step 3 is good, with the built-in key as the only trusted
    one: the main vbmeta image is signed by it, further images by keys the main
    image gives, and unless the main image disables verification the partitions
    handed out have the digests of their descriptors.  No rollback index
    protects it: the stored ones are 0. *)
Theorem board_locked_sound (st st' : W) s :
  board_laws →
  zlen builtin_key = testkey2048_length →
  locked st → env st !! str "upgrade_step" ≠ Some (str "3") →
  avb_verify st = Ret ((AVB_SLOT_VERIFY_RESULT_OK, Some s), st') →
  slot_good (fun key => key = builtin_key) (fun _ => 0) s.
Proof. apply board_slot_good. Qed.

(** In step 3 of an upgrade every slot is reported as OK, also on a locked
    device and whatever the verification found. *)
Theorem upgrade_step_3_accepts (st st' : W) r out :
  env st !! str "upgrade_step" = Some (str "3") →
  avb_verify st = Ret ((r, out), st') → r = AVB_SLOT_VERIFY_RESULT_OK.
Proof.
  intros Hu E. apply avb_verify_inv in E as (u & up & suffix & rq & result & _ & Eup & _ & ->).
  by rewrite bool_decide_true by congruence.
Qed.

(** A partition size is a multiple of 512, or that of the device tree. *)
Lemma board_size_bound name (w : W) :
  ∃ io n w', aml_get_size_of_partition name w = Ret ((io, n), w') ∧
    (io = AVB_IO_RESULT_OK → n < 0xffffffffffffffc0).
Proof.
  unfold aml_get_size_of_partition. destruct (has_prefix name (str "dtb")).
  { by eexists _, _, _. }
  unfold on_device, mbind, comp_bind.
  destruct (store_get_partititon_size name (device w)) as [[rc sectors] d].
  destruct (negb (rc =? 0)); do 3 eexists; (split; [reflexivity|]); [done|intros _].
  unfold u64. Z.div_mod_to_equations. lia.
Qed.

(** A footer is read at a negative offset, which the board compares with the
    partition size as an unsigned number: no vbmeta image is ever found in a
    partition other than "vbmeta", so every chained partition, and the fallback
    to "boot", fail with an I/O error. *)
Theorem board_footers_unreadable name (st : SlotState W) :
  ∃ st', locate_vbmeta false name st = Ret (inl AVB_SLOT_VERIFY_RESULT_ERROR_IO, st').
Proof.
  assert (∃ io buf n w', read_from_partition name (- AVB_FOOTER_SIZE) AVB_FOOTER_SIZE (world st) =
            Ret ((io, (buf, n)), w') ∧ io_error io = Some AVB_SLOT_VERIFY_RESULT_ERROR_IO)
    as (io & buf & n & w' & E & Eio).
  { destruct (board_size_bound name (world st)) as (io & n & w' & E & Hn).
    cbn. unfold aml_read_from_partition. erewrite comp_bind_run by exact E. cbv iota beta.
    change (u64 (- AVB_FOOTER_SIZE)) with 0xffffffffffffffc0.
    case_bool_decide; [|do 4 eexists; by split]. cbn [negb].
    rewrite (proj2 (Z.ltb_lt _ _)) by auto. do 4 eexists. by split. }
  unfold locate_vbmeta. erewrite M_bind_run by (apply call_run; exact E). cbn. rewrite Eio.
  by eexists.
Qed.

End Board.

(** The key built into the bootloader is in the format libavb expects: its
    length is that of a 2048-bit key, and the two precomputed Montgomery
    constants belong to its modulus. *)
Theorem testkey2048_format :
  zlen testkey2048 = testkey2048_length ∧ bytes_ok testkey2048 ∧ key_format testkey2048 2048.
Proof.
  split; [by vm_compute|]. split; [by apply (bool_decide_unpack _)|].
  constructor; [by left|by vm_compute..| |]; vm_compute; congruence.
Qed.

(** ** A board that boots the demonstration image *)

(** Partitions by name; a write is not kept. *)
#[local] Instance demo_store : StoreOps (list (bytes * bytes)) := {|
  store_read_ops := fun part buf off size d =>
    match find_partition d part with
    | None => (-1, buf, d)
    | Some data => (0, fill_buffer size (u8 <$> slice data off size), d)
    end;
  store_write_ops := fun part buf off size d => (0, d);
|}.

#[local] Instance demo_board_store : BoardStore (list (bytes * bytes)) := {|
  store_dtb_rw := fun buf size op d => (-1, buf, d);
  store_get_partititon_size := fun part d =>
    match find_partition d part with
    | None => (-1, 0, d)
    | Some _ => (0, 0x800, d)
    end;
  get_partition_num_by_name := fun part d => 4;
|}.

#[local] Instance demo_board_heap : Heap (BootState (list (bytes * bytes))) := fun _ w => (true, w).

Definition zero_buffer (n : Z) : bytes := replicate (Z.to_nat n) 0.

Definition demo_board (lock step : bytes) : BootState (list (bytes * bytes)) :=
  mkBoot [(str "misc", replicate 32 0); (str "vbmeta", demo_vbmeta); (str "boot", str "kernel")]
    {[str "lock" := lock; str "upgrade_step" := step]} 0 0 0.

Notation demo_avb_verify := (avb_verify zero_buffer demo_key 8 (fun _ => 0x1000) 0).

Definition board_ok {A} (r : run ((AvbSlotVerifyResult * option AvbSlotVerifyData) * A)) : bool :=
  match r with
  | Ret ((AVB_SLOT_VERIFY_RESULT_OK, Some s), _) =>
      bool_decide (loaded_data <$> loaded_partitions s = [str "kernel"])
  | _ => false
  end.

Lemma set_same_device (st : BootState (list (bytes * bytes))) : set_device st (device st) = st.
Proof. by destruct st. Qed.

Lemma demo_board_read (st : BootState (list (bytes * bytes))) :
  find_partition (device st) (str "vbmeta") = Some demo_vbmeta →
  aml_read_from_partition zero_buffer (str "vbmeta") 0 VBMETA_MAX_SIZE st =
  Ret ((AVB_IO_RESULT_OK, (demo_buffer, VBMETA_MAX_SIZE)), st).
Proof.
  intros Hf. unfold aml_read_from_partition, aml_get_size_of_partition, on_device.
  change (has_prefix (str "vbmeta") (str "dtb")) with false. cbv iota.
  erewrite comp_bind_run.
  2: { erewrite comp_bind_run by (cbn [store_get_partititon_size demo_board_store]; rewrite Hf;
         reflexivity). reflexivity. }
  cbv beta iota. change (_ <? _) with false. rewrite bool_decide_true by done. cbn [negb].
  rewrite set_same_device. erewrite comp_bind_run by (cbn [store_read_ops demo_store]; rewrite Hf; reflexivity).
  cbv beta iota. cbn [negb Z.eqb].
  change (slice demo_vbmeta 0 VBMETA_MAX_SIZE) with (slice demo_vbmeta 0 65536).
  assert (u8 <$> slice demo_vbmeta 0 65536 = demo_vbmeta) as -> by by vm_compute.
  unfold fill_buffer. assert (zlen demo_vbmeta = 1280) as -> by by vm_compute.
  by rewrite set_same_device.
Qed.

Lemma demo_board_run (st : BootState (list (bytes * bytes))) :
  env (slot_selected st) !! str "active_slot" = Some (str "normal") →
  env (slot_selected st) !! str "upgrade_step" = Some (str "0") →
  is_device_unlocked (slot_selected st) = Ret (false, slot_selected st) →
  demo_avb_verify st =
  avb_slot_verify (H0 := avb_ops_ zero_buffer demo_key) 8 (fun _ => 0x1000) 0
    [str "boot"; str "dtb"; str "recovery"] [] 0
    AVB_HASHTREE_ERROR_MODE_RESTART_AND_INVALIDATE (slot_selected st).
Proof.
  intros Ha Hu Hd. unfold avb_verify.
  assert (run_get_valid_slot st = Ret (0, slot_selected st)) as E.
  { unfold run_get_valid_slot, slot_selected. unfold do_GetValidSlot.
    destruct (load_or_reset st) as [[info buf] st1]. destruct (normalize_any info) as [[] info'];
      [|done]. unfold boot_info_save. by destruct (store_write_ops _ _ _ _ _). }
  erewrite comp_bind_run by exact E. cbv zeta beta.
  erewrite comp_bind_run by (unfold getenv; rewrite Ha; reflexivity). cbn [not_null].
  erewrite comp_bind_run by reflexivity. cbv beta.
  erewrite comp_bind_run by (unfold getenv; rewrite Hu; reflexivity). cbv beta.
  erewrite comp_bind_run by exact Hd. cbv iota beta.
  erewrite comp_bind_run by (cbn [not_null]; erewrite comp_bind_run by reflexivity; reflexivity).
  change (bool_decide (str "0" = str "3")) with false.
  change (bool_decide (str "normal" = str "normal")) with true. cbv iota beta.
  rewrite bool_decide_true by done. change (list_find _ _) with (Some (2%nat, @None bytes)).
  cbv iota. change (until_null _) with [str "boot"; str "dtb"; str "recovery"].
  unfold mbind, comp_bind. by destruct (avb_slot_verify _ _ _ _ _ _ _ _) as [[[? ?] ?]|].
Qed.

Lemma demo_board_ok :
  board_ok (demo_avb_verify (demo_board (str "10001000") (str "0"))) = true.
Proof.
  set (st := demo_board (str "10001000") (str "0")).
  rewrite demo_board_run by by vm_compute.
  erewrite roomy_slot_verify; [|done|reflexivity|
    apply (demo_load_run 8 _ 0 _ _ 2 VBMETA_MAX_SIZE); [done|done|done|
      apply demo_board_read; by vm_compute]].
  vm_compute. reflexivity.
Qed.

Lemma demo_board_laws : board_laws zero_buffer (λ _ : BootState (list (bytes * bytes)), 0x1000).
Proof.
  assert (∀ n, bytes_ok (zero_buffer n)) as Hz by (intros n; by apply Forall_replicate).
  split; [done|done| | |].
  - intros n. split; [done|]. intros Hn. unfold zero_buffer. rewrite zlen_replicate. lia.
  - intros part off n d buf d' E. cbn [store_read_ops demo_store] in E.
    destruct (find_partition d part) as [data|]; [|discriminate E]. injection E as <- _. unfold fill_buffer. split.
    + apply Forall_app. split; [apply Forall_fmap, Forall_true; intros x; apply u8_range|by apply Forall_replicate].
    + intros Hn. rewrite zlen_app, zlen_replicate. unfold zlen, slice. rewrite length_fmap, length_take. lia.
  - intros d buf d' E. discriminate E.
Qed.

Lemma board_locked_sound_witness :
  ∃ s st', demo_avb_verify (demo_board (str "10001000") (str "0")) =
             Ret ((AVB_SLOT_VERIFY_RESULT_OK, Some s), st') ∧
    slot_good (fun key => key = demo_key) (fun _ => 0) s.
Proof.
  pose proof demo_board_ok as Hok. destruct (demo_avb_verify _) as [[[r s] st']|] eqn:E;
    [|discriminate Hok].
  destruct r; try discriminate Hok. destruct s as [s|]; [|discriminate Hok]. clear Hok.
  exists s, st'. split; [reflexivity|].
  eapply board_locked_sound; [| | | |exact E]; clear E; [exact demo_board_laws|by vm_compute| |].
  - exists (str "10001000"). split; by vm_compute.
  - by vm_compute.
Defined.

(** An upgrade in step 3 on a locked board without any readable partition: the
    result is OK, there is no slot data, and the command reads through NULL. *)
Definition empty_board : BootState (list (bytes * bytes)) :=
  mkBoot [] {[str "lock" := str "10001000"; str "upgrade_step" := str "3"]} 0 0 0.

Lemma upgrade_step_3_accepts_witness :
  ∃ st', demo_avb_verify empty_board = Ret ((AVB_SLOT_VERIFY_RESULT_OK, None), st').
Proof.
  destruct (demo_avb_verify empty_board) as [[[r out] st']|] eqn:E;
    [|vm_compute in E; discriminate E].
  pose proof (upgrade_step_3_accepts zero_buffer demo_key 8 (fun _ => 0x1000) 0 empty_board st' r
    out eq_refl E) as ->.
  exists st'. vm_compute in E. by injection E as <- _.
Defined.

Example upgrade_step_3_null_data :
  do_avb_verify zero_buffer demo_key 8 (fun _ => 0x1000) 0 empty_board = Crash NullDeref.
Proof. by vm_compute. Qed.
