(* ===== verification/SecureBoot.v ===== *)
(** * Authentication of the boot image

    [ufbl-features/features/secure_boot]: the certificate that follows a boot
    image is decoded, checked against the root certificate of the device's
    kind, and its hash and product compared with the image and the device.
    libtomcrypt and libtommath are not part of the sources; what is used of them
    is the class [TomCrypt]. *)

From S2P Require Import Prelude Sha2.

(** ** Decoded certificates *)

Inductive ltc_asn1_type :=
| LTC_ASN1_SEQUENCE
| LTC_ASN1_SET
| LTC_ASN1_CONSTRUCTED
| LTC_ASN1_OBJECT_IDENTIFIER
| LTC_ASN1_BIT_STRING
| LTC_ASN1_OCTET_STRING
| LTC_ASN1_PRINTABLE_STRING
| LTC_ASN1_UTF8_STRING
| LTC_ASN1_CONTEXT_SPECIFIC
| LTC_ASN1_OTHER.

#[export] Instance ltc_asn1_type_eq_dec : EqDecision ltc_asn1_type.
Proof. solve_decision. Defined.

(** What [data] points to: nothing, an array of values (characters, wide
    characters, the words of an object identifier, or one value per bit), or the
    elements of a sequence. *)
Inductive asn1_data :=
| NoData
| Values (l : list Z)
| Elements (l : list (ltc_asn1_type * asn1_data * Z * Z)).

(** A node of the tree; its siblings are the other members of the list it is in
    and [has_parent] says whether its pointer to the parent is set. *)
Inductive ltc_asn1_list :=
| Asn1 (type : ltc_asn1_type) (data : asn1_data) (size used : Z) (has_parent : bool)
    (child : list ltc_asn1_list).

Definition asn1_type_of (n : ltc_asn1_list) := let 'Asn1 t _ _ _ _ _ := n in t.
Definition asn1_data_of (n : ltc_asn1_list) := let 'Asn1 _ d _ _ _ _ := n in d.
Definition asn1_size (n : ltc_asn1_list) := let 'Asn1 _ _ s _ _ _ := n in s.
Definition asn1_used (n : ltc_asn1_list) := let 'Asn1 _ _ _ u _ _ := n in u.
Definition asn1_has_parent (n : ltc_asn1_list) := let 'Asn1 _ _ _ _ p _ := n in p.
Definition asn1_child (n : ltc_asn1_list) := let 'Asn1 _ _ _ _ _ c := n in c.

(** What the sources use of libtomcrypt and libtommath.  Decoding and importing
    may fail; [rsa_verify_hash signature hash key] gives the error code and the
    status of the PSS verification with SHA-256 and a salt of 32 bytes.
    [nodes_in_memory] is how an array of nodes is laid out, and [mp_room] what
    [mp_init] asks the heap for. *)
Class TomCrypt := {
  rsa_key : Type;
  der_decode_sequence_flexi : bytes → option ltc_asn1_list;
  der_length_sequence : asn1_data → Z → option Z;
  der_encode_sequence_ex : asn1_data → Z → Z → option bytes;
  rsa_import : bytes → option rsa_key;
  rsa_verify_hash : bytes → bytes → rsa_key → Z * Z;
  ltc_sha256 : bytes → bytes;
  nodes_in_memory : list (ltc_asn1_type * asn1_data * Z * Z) → bytes;
  mp_room : Z;
  mp_read_radix : bytes → Z → option Z;
  mp_unsigned_bin_size : Z → Z;
  mp_to_unsigned_bin : Z → option bytes;
}.

Definition SHA256_DIGEST_LENGTH : Z := 32.

(** ** The root certificates *)

Definition production_cacert : bytes :=
  [48; 130; 4; 43; 48; 130; 2; 227; 160; 3; 2; 1; 2; 2; 9; 0; 132; 167; 194; 174; 82; 240; 196; 251;
   48; 61; 6; 9; 42; 134; 72; 134; 247; 13; 1; 1; 10; 48; 48; 160; 13; 48; 11; 6; 9; 96; 134; 72;
   1; 101; 3; 4; 2; 1; 161; 26; 48; 24; 6; 9; 42; 134; 72; 134; 247; 13; 1; 1; 8; 48; 11; 6;
   9; 96; 134; 72; 1; 101; 3; 4; 2; 1; 162; 3; 2; 1; 32; 48; 124; 49; 11; 48; 9; 6; 3; 85;
   4; 6; 19; 2; 85; 83; 49; 19; 48; 17; 6; 3; 85; 4; 8; 12; 10; 67; 97; 108; 105; 102; 111; 114;
   110; 105; 97; 49; 18; 48; 16; 6; 3; 85; 4; 7; 12; 9; 83; 117; 110; 110; 121; 118; 97; 108; 101; 49;
   22; 48; 20; 6; 3; 85; 4; 10; 12; 13; 65; 109; 97; 122; 111; 110; 32; 76; 97; 98; 49; 50; 54; 49;
   44; 48; 42; 6; 3; 85; 4; 11; 12; 35; 67; 111; 109; 109; 111; 110; 32; 75; 101; 114; 110; 101; 108; 32;
   83; 105; 103; 110; 105; 110; 103; 32; 80; 114; 111; 100; 117; 99; 116; 105; 111; 110; 32; 67; 65; 48; 30; 23;
   13; 49; 53; 48; 52; 49; 54; 50; 51; 51; 48; 49; 48; 90; 23; 13; 50; 53; 48; 50; 50; 50; 50; 51;
   51; 48; 49; 48; 90; 48; 124; 49; 11; 48; 9; 6; 3; 85; 4; 6; 19; 2; 85; 83; 49; 19; 48; 17;
   6; 3; 85; 4; 8; 12; 10; 67; 97; 108; 105; 102; 111; 114; 110; 105; 97; 49; 18; 48; 16; 6; 3; 85;
   4; 7; 12; 9; 83; 117; 110; 110; 121; 118; 97; 108; 101; 49; 22; 48; 20; 6; 3; 85; 4; 10; 12; 13;
   65; 109; 97; 122; 111; 110; 32; 76; 97; 98; 49; 50; 54; 49; 44; 48; 42; 6; 3; 85; 4; 11; 12; 35;
   67; 111; 109; 109; 111; 110; 32; 75; 101; 114; 110; 101; 108; 32; 83; 105; 103; 110; 105; 110; 103; 32; 80; 114;
   111; 100; 117; 99; 116; 105; 111; 110; 32; 67; 65; 48; 130; 1; 34; 48; 13; 6; 9; 42; 134; 72; 134; 247;
   13; 1; 1; 1; 5; 0; 3; 130; 1; 15; 0; 48; 130; 1; 10; 2; 130; 1; 1; 0; 157; 205; 180; 239;
   169; 24; 2; 197; 234; 120; 85; 151; 76; 17; 14; 228; 143; 224; 245; 207; 11; 50; 62; 138; 245; 64; 158; 109;
   247; 249; 250; 188; 27; 143; 46; 207; 10; 120; 0; 150; 221; 48; 38; 226; 15; 80; 162; 76; 44; 38; 35; 197;
   55; 239; 82; 196; 203; 15; 145; 191; 21; 158; 9; 250; 193; 127; 103; 214; 69; 76; 61; 19; 52; 72; 205; 188;
   251; 174; 21; 228; 20; 31; 105; 68; 21; 25; 49; 98; 214; 73; 233; 13; 16; 38; 226; 17; 169; 132; 21; 185;
   229; 74; 180; 69; 200; 146; 2; 108; 128; 164; 187; 236; 148; 239; 4; 56; 126; 146; 142; 2; 31; 241; 132; 129;
   5; 218; 244; 72; 246; 170; 231; 168; 243; 53; 149; 205; 153; 133; 83; 143; 129; 231; 67; 166; 47; 75; 36; 159;
   241; 119; 79; 240; 22; 162; 48; 63; 84; 225; 77; 35; 153; 183; 133; 241; 40; 10; 216; 164; 165; 243; 192; 228;
   18; 43; 179; 105; 96; 40; 69; 129; 138; 68; 107; 245; 104; 207; 81; 147; 4; 163; 77; 53; 92; 159; 138; 111;
   40; 105; 173; 207; 122; 35; 75; 73; 241; 79; 37; 151; 80; 205; 24; 164; 93; 162; 212; 254; 254; 157; 245; 98;
   72; 149; 46; 152; 164; 165; 13; 183; 249; 247; 12; 219; 55; 114; 151; 250; 123; 43; 183; 229; 40; 67; 241; 119;
   172; 34; 25; 91; 106; 181; 34; 154; 161; 46; 224; 103; 2; 3; 1; 0; 1; 163; 80; 48; 78; 48; 29; 6;
   3; 85; 29; 14; 4; 22; 4; 20; 201; 142; 206; 129; 64; 34; 197; 152; 152; 180; 204; 49; 92; 214; 130; 14;
   103; 195; 250; 73; 48; 31; 6; 3; 85; 29; 35; 4; 24; 48; 22; 128; 20; 201; 142; 206; 129; 64; 34; 197;
   152; 152; 180; 204; 49; 92; 214; 130; 14; 103; 195; 250; 73; 48; 12; 6; 3; 85; 29; 19; 4; 5; 48; 3;
   1; 1; 255; 48; 61; 6; 9; 42; 134; 72; 134; 247; 13; 1; 1; 10; 48; 48; 160; 13; 48; 11; 6; 9;
   96; 134; 72; 1; 101; 3; 4; 2; 1; 161; 26; 48; 24; 6; 9; 42; 134; 72; 134; 247; 13; 1; 1; 8;
   48; 11; 6; 9; 96; 134; 72; 1; 101; 3; 4; 2; 1; 162; 3; 2; 1; 32; 3; 130; 1; 1; 0; 7;
   159; 5; 0; 142; 225; 196; 97; 23; 0; 234; 206; 235; 185; 24; 83; 106; 203; 149; 54; 35; 43; 252; 46; 70;
   169; 196; 48; 160; 47; 28; 132; 36; 221; 0; 82; 43; 18; 73; 228; 212; 176; 181; 52; 32; 35; 192; 172; 117;
   41; 147; 174; 174; 141; 91; 193; 10; 30; 165; 84; 129; 244; 199; 71; 148; 130; 128; 237; 1; 97; 107; 169; 59;
   127; 64; 38; 151; 5; 216; 0; 243; 31; 9; 199; 119; 121; 197; 56; 246; 113; 168; 59; 52; 156; 226; 208; 94;
   171; 118; 255; 31; 202; 181; 129; 220; 81; 127; 25; 14; 139; 173; 49; 71; 189; 69; 253; 251; 176; 141; 235; 234;
   198; 71; 163; 5; 176; 41; 104; 214; 150; 58; 131; 9; 191; 251; 173; 100; 97; 191; 222; 207; 165; 101; 74; 53;
   137; 177; 160; 178; 190; 165; 241; 60; 152; 0; 198; 154; 101; 215; 74; 62; 49; 241; 1; 37; 63; 178; 26; 46;
   161; 244; 219; 53; 98; 82; 109; 225; 243; 224; 134; 128; 228; 118; 193; 48; 148; 3; 15; 28; 193; 234; 174; 29;
   140; 179; 54; 126; 191; 70; 68; 76; 211; 235; 54; 235; 113; 144; 246; 208; 8; 154; 147; 47; 103; 221; 151; 178;
   9; 93; 26; 235; 113; 197; 29; 171; 42; 125; 180; 253; 254; 50; 49; 11; 225; 0; 196; 209; 64; 179; 112; 49;
   98; 181; 234; 36; 66; 54; 138; 141; 137; 38; 173; 72; 175; 103; 80].

Definition engineering_cacert : bytes :=
  [48; 130; 4; 45; 48; 130; 2; 229; 160; 3; 2; 1; 2; 2; 9; 0; 253; 82; 145; 11; 47; 190; 60; 130;
   48; 61; 6; 9; 42; 134; 72; 134; 247; 13; 1; 1; 10; 48; 48; 160; 13; 48; 11; 6; 9; 96; 134; 72;
   1; 101; 3; 4; 2; 1; 161; 26; 48; 24; 6; 9; 42; 134; 72; 134; 247; 13; 1; 1; 8; 48; 11; 6;
   9; 96; 134; 72; 1; 101; 3; 4; 2; 1; 162; 3; 2; 1; 32; 48; 125; 49; 11; 48; 9; 6; 3; 85;
   4; 6; 19; 2; 85; 83; 49; 19; 48; 17; 6; 3; 85; 4; 8; 12; 10; 67; 97; 108; 105; 102; 111; 114;
   110; 105; 97; 49; 18; 48; 16; 6; 3; 85; 4; 7; 12; 9; 83; 117; 110; 110; 121; 118; 97; 108; 101; 49;
   22; 48; 20; 6; 3; 85; 4; 10; 12; 13; 65; 109; 97; 122; 111; 110; 32; 76; 97; 98; 49; 50; 54; 49;
   45; 48; 43; 6; 3; 85; 4; 11; 12; 36; 67; 111; 109; 109; 111; 110; 32; 75; 101; 114; 110; 101; 108; 32;
   83; 105; 103; 110; 105; 110; 103; 32; 69; 110; 103; 105; 110; 101; 101; 114; 105; 110; 103; 32; 67; 65; 48; 30;
   23; 13; 49; 53; 48; 50; 48; 49; 49; 56; 51; 50; 49; 48; 90; 23; 13; 50; 52; 49; 50; 49; 48; 49;
   56; 51; 50; 49; 48; 90; 48; 125; 49; 11; 48; 9; 6; 3; 85; 4; 6; 19; 2; 85; 83; 49; 19; 48;
   17; 6; 3; 85; 4; 8; 12; 10; 67; 97; 108; 105; 102; 111; 114; 110; 105; 97; 49; 18; 48; 16; 6; 3;
   85; 4; 7; 12; 9; 83; 117; 110; 110; 121; 118; 97; 108; 101; 49; 22; 48; 20; 6; 3; 85; 4; 10; 12;
   13; 65; 109; 97; 122; 111; 110; 32; 76; 97; 98; 49; 50; 54; 49; 45; 48; 43; 6; 3; 85; 4; 11; 12;
   36; 67; 111; 109; 109; 111; 110; 32; 75; 101; 114; 110; 101; 108; 32; 83; 105; 103; 110; 105; 110; 103; 32; 69;
   110; 103; 105; 110; 101; 101; 114; 105; 110; 103; 32; 67; 65; 48; 130; 1; 34; 48; 13; 6; 9; 42; 134; 72;
   134; 247; 13; 1; 1; 1; 5; 0; 3; 130; 1; 15; 0; 48; 130; 1; 10; 2; 130; 1; 1; 0; 179; 35;
   204; 125; 49; 86; 252; 92; 198; 255; 250; 222; 193; 210; 241; 2; 182; 99; 98; 66; 254; 96; 99; 115; 201; 163;
   141; 220; 126; 68; 213; 58; 104; 201; 84; 152; 251; 24; 35; 246; 154; 174; 195; 143; 82; 167; 122; 168; 58; 235;
   150; 151; 128; 2; 137; 86; 199; 209; 227; 194; 57; 0; 41; 117; 239; 206; 54; 143; 206; 143; 162; 127; 214; 157;
   38; 146; 240; 245; 235; 125; 59; 101; 41; 30; 177; 96; 18; 87; 114; 216; 121; 50; 40; 193; 185; 155; 197; 184;
   219; 86; 227; 94; 190; 170; 160; 239; 185; 121; 12; 20; 123; 93; 113; 153; 220; 180; 198; 236; 54; 128; 170; 62;
   118; 97; 220; 56; 98; 159; 111; 141; 106; 93; 1; 9; 197; 169; 9; 72; 13; 29; 11; 93; 80; 181; 165; 232;
   218; 67; 216; 169; 20; 217; 130; 93; 98; 202; 234; 19; 96; 115; 117; 21; 51; 156; 169; 36; 38; 94; 230; 35;
   52; 59; 26; 184; 119; 127; 2; 168; 206; 109; 227; 65; 119; 158; 213; 45; 97; 113; 109; 197; 46; 86; 6; 155;
   208; 228; 26; 104; 250; 168; 128; 73; 60; 77; 8; 34; 154; 51; 0; 87; 97; 93; 226; 127; 87; 61; 24; 104;
   219; 14; 87; 194; 118; 34; 84; 102; 45; 50; 108; 222; 219; 43; 77; 247; 13; 3; 178; 41; 195; 150; 203; 229;
   105; 249; 17; 23; 28; 11; 209; 238; 102; 111; 48; 56; 244; 219; 2; 3; 1; 0; 1; 163; 80; 48; 78; 48;
   29; 6; 3; 85; 29; 14; 4; 22; 4; 20; 218; 250; 158; 76; 72; 69; 84; 114; 224; 162; 74; 85; 248; 168;
   23; 66; 62; 5; 55; 140; 48; 31; 6; 3; 85; 29; 35; 4; 24; 48; 22; 128; 20; 218; 250; 158; 76; 72;
   69; 84; 114; 224; 162; 74; 85; 248; 168; 23; 66; 62; 5; 55; 140; 48; 12; 6; 3; 85; 29; 19; 4; 5;
   48; 3; 1; 1; 255; 48; 61; 6; 9; 42; 134; 72; 134; 247; 13; 1; 1; 10; 48; 48; 160; 13; 48; 11;
   6; 9; 96; 134; 72; 1; 101; 3; 4; 2; 1; 161; 26; 48; 24; 6; 9; 42; 134; 72; 134; 247; 13; 1;
   1; 8; 48; 11; 6; 9; 96; 134; 72; 1; 101; 3; 4; 2; 1; 162; 3; 2; 1; 32; 3; 130; 1; 1;
   0; 139; 32; 99; 72; 77; 236; 165; 2; 75; 197; 237; 141; 75; 153; 45; 205; 214; 207; 61; 88; 224; 79; 220;
   170; 183; 81; 69; 255; 89; 35; 69; 87; 121; 6; 38; 201; 165; 192; 202; 239; 191; 246; 47; 34; 170; 202; 30;
   138; 37; 221; 250; 90; 166; 121; 164; 59; 147; 243; 42; 246; 44; 128; 217; 118; 51; 211; 99; 169; 170; 78; 102;
   110; 104; 97; 4; 181; 47; 53; 223; 117; 59; 8; 180; 72; 158; 127; 24; 243; 46; 221; 169; 181; 253; 217; 18;
   22; 70; 32; 121; 249; 206; 16; 106; 62; 163; 113; 76; 121; 127; 85; 46; 42; 231; 130; 195; 163; 104; 181; 73;
   193; 16; 229; 32; 61; 192; 39; 255; 138; 69; 52; 116; 52; 121; 201; 38; 179; 10; 183; 126; 121; 33; 111; 230;
   230; 177; 18; 66; 173; 96; 41; 207; 108; 158; 254; 218; 150; 239; 80; 139; 32; 1; 83; 215; 9; 86; 44; 225;
   139; 201; 145; 215; 242; 78; 162; 73; 218; 144; 147; 136; 9; 184; 27; 15; 121; 115; 54; 11; 57; 177; 184; 26;
   164; 147; 11; 10; 160; 145; 186; 99; 195; 109; 203; 118; 147; 130; 19; 194; 20; 190; 124; 67; 31; 63; 72; 211;
   25; 109; 62; 173; 12; 125; 82; 58; 119; 49; 83; 62; 9; 149; 93; 251; 101; 88; 141; 65; 46; 160; 67; 80;
   93; 249; 77; 9; 192; 15; 182; 135; 130; 238; 139; 96; 19; 191; 1; 114; 248].

Inductive cert_type :=
| AMZN_ENGINEERING_CERT
| AMZN_PRODUCTION_CERT.

Inductive device_type :=
| AMZN_ENGINEERING_DEVICE
| AMZN_PRODUCTION_DEVICE
| AMZN_INVALID_DEVICE.

#[export] Instance device_type_eq_dec : EqDecision device_type.
Proof. solve_decision. Defined.

Definition amzn_get_kernel_cert (t : cert_type) : bytes :=
  match t with
  | AMZN_ENGINEERING_CERT => engineering_cacert
  | AMZN_PRODUCTION_CERT => production_cacert
  end.

(** ** Walking the tree *)

Section Nodes.
Context `{TomCrypt}.

(** The bytes behind [data]: words of an object identifier are [unsigned long],
    wide characters [ulong32], everything else is bytes. *)
Definition raw_bytes (n : ltc_asn1_list) : run bytes :=
  match asn1_data_of n with
  | NoData => Crash NullDeref
  | Values l => mret match asn1_type_of n with
                     | LTC_ASN1_OBJECT_IDENTIFIER => concat (le_encode 8 <$> l)
                     | LTC_ASN1_UTF8_STRING => concat (le_encode 4 <$> l)
                     | _ => l
                     end
  | Elements l => mret (nodes_in_memory l)
  end.

(** The data of a node compared with an object identifier. *)
Definition data_is_oid (n : ltc_asn1_list) (oid : list Z) : run bool :=
  data ← raw_bytes n; memcmp_eq data (concat (le_encode 8 <$> oid)).

Definition check_rsa_node (p : ltc_asn1_list) : run bool :=
  if bool_decide (asn1_type_of p = LTC_ASN1_OBJECT_IDENTIFIER)
  then data_is_oid p [1; 2; 840; 113549; 1; 1; 1] else mret false.

Definition check_san_node (p : ltc_asn1_list) : run bool :=
  if bool_decide (asn1_type_of p = LTC_ASN1_OBJECT_IDENTIFIER)
  then data_is_oid p [2; 5; 29; 17] else mret false.

End Nodes.

(** A pointer to a node: the node, its next siblings and its ancestors. *)
Record asn1_ptr := mkPtr {
  here : ltc_asn1_list;
  next : list ltc_asn1_list;
  above : list ltc_asn1_list;
}.

(** [find_node] on one node; its children first.  The first hit is kept. *)
Fixpoint find_in (func : ltc_asn1_list → run bool) (up : list ltc_asn1_list)
    (l : ltc_asn1_list) (rest : list ltc_asn1_list) (p : option asn1_ptr)
    : run (option asn1_ptr) :=
  let 'Asn1 _ _ _ _ _ child := l in
  p ← (fix walk (ls : list ltc_asn1_list) (p : option asn1_ptr) : run (option asn1_ptr) :=
         match ls with
         | [] => mret p
         | c :: ls => p ← find_in func (l :: up) c ls p; walk ls p
         end) child p;
  hit ← func l;
  mret (if hit : bool then match p with None => Some (mkPtr l rest up) | Some _ => p end else p).

Fixpoint find_node (func : ltc_asn1_list → run bool) (up ls : list ltc_asn1_list)
    (p : option asn1_ptr) : run (option asn1_ptr) :=
  match ls with
  | [] => mret p
  | l :: ls => p ← find_in func up l ls p; find_node func up ls p
  end.

(** The signature buffer: the bits, eight to a byte, the first one highest. *)
Fixpoint pack_bits (bits : list Z) (y : nat) (buf : Z) : bytes :=
  match bits with
  | [] => if (y mod 8 =? 0)%nat then [] else [u8 buf]
  | b :: bits =>
      let buf := Z.lor buf (Z.shiftl (if b =? 0 then 0 else 1) (7 - Z.of_nat (y mod 8))) in
      if (y mod 8 =? 7)%nat then u8 buf :: pack_bits bits (S y) 0 else pack_bits bits (S y) buf
  end.

Definition is_container (t : ltc_asn1_type) : bool :=
  match t with
  | LTC_ASN1_SEQUENCE | LTC_ASN1_SET | LTC_ASN1_CONSTRUCTED => true
  | _ => false
  end.

Definition asn1_element (n : ltc_asn1_list) : ltc_asn1_type * asn1_data * Z * Z :=
  (asn1_type_of n, asn1_data_of n, asn1_size n, asn1_used n).

Section Ltc.
Context `{TomCrypt} {W : Type} `{Heap W}.
Context (amzn_target_device_name : bytes).

Definition sizeof_ltc_asn1_list : Z := 64.

Fixpoint der_rescan_tree (l : ltc_asn1_list) : comp W ltc_asn1_list :=
  let 'Asn1 t data size used par child := l in
  match child with
  | [] => mret l
  | _ :: _ =>
      child ← (fix walk (ls : list ltc_asn1_list) : comp W (list ltc_asn1_list) :=
                 match ls with
                 | [] => mret []
                 | c :: ls => c ← der_rescan_tree c; ls ← walk ls; mret (c :: ls)
                 end) child;
      if is_container t then
        s ← malloc (sizeof_ltc_asn1_list * Z.of_nat (length child));
        mret (if s : bool
              then Asn1 t (Elements (asn1_element <$> child)) (Z.of_nat (length child)) used par child
              else Asn1 t data size used par child)
      else mret (Asn1 t data size used par child)
  end.

(** The signature bits of a BIT STRING node. *)
Definition decode_signature (l : ltc_asn1_list) : comp W (option bytes) :=
  match asn1_type_of l, asn1_data_of l with
  | LTC_ASN1_BIT_STRING, Values data =>
      let size := asn1_size l in
      ok ← malloc (Z.shiftr size 3 + (if Z.land size 7 =? 0 then 0 else 1) + 1);
      if negb ok then mret None
      else bits ← lift (rd data 0 size); mret (Some (pack_bits bits 0 0))
  | _, _ => mret None
  end.

(** The parent of a node, when its pointer is set. *)
Definition parent_of (p : asn1_ptr) : option asn1_ptr :=
  match asn1_has_parent (here p), above p with
  | true, q :: up => Some (mkPtr q [] up)
  | _, _ => None
  end.

Definition grandparent_of (p : option asn1_ptr) : option asn1_ptr :=
  p ← p; q ← parent_of p; parent_of q.

Definition encoded_key (node : ltc_asn1_list) (len : Z) : option rsa_key :=
  key_seq ← der_encode_sequence_ex (asn1_data_of node) (asn1_size node) len; rsa_import key_seq.

Definition extract_cert_key_pub (l : ltc_asn1_list) : comp W (option rsa_key) :=
  node ← lift (find_node check_rsa_node [] [l] None);
  match grandparent_of node with
  | None => mret None
  | Some node =>
      match der_length_sequence (asn1_data_of (here node)) (asn1_size (here node)) with
      | None => mret None
      | Some len =>
          ok ← malloc len;
          if negb ok then mret None
          else mret (encoded_key (here node) len)
      end
  end.

(** The certificate [l], its tree rescanned, against the root key; 0 when its
    signature verifies. *)
Definition verify_certificate (l : ltc_asn1_list) (root_ca_key : rsa_key) : comp W Z :=
  match asn1_child l with
  | [] => mret (-1)
  | tbs_node :: rest =>
      match der_length_sequence (asn1_data_of tbs_node) (asn1_size tbs_node) with
      | None => mret (-1)
      | Some len =>
          ok ← malloc len;
          if negb ok then mret (-1) else
          match der_encode_sequence_ex (asn1_data_of tbs_node) (asn1_size tbs_node) len, rest with
          | Some tbs, _ :: sig_node :: _ =>
              if bool_decide (asn1_type_of sig_node = LTC_ASN1_BIT_STRING) then
                signature ← decode_signature sig_node;
                match signature with
                | None => mret (-1)
                | Some signature =>
                    let '(rc, status) := rsa_verify_hash signature (ltc_sha256 tbs) root_ca_key in
                    mret (if (rc =? 0) && (status =? 1) then 0 else -1)
                end
              else mret (-1)
          | _, _ => mret (-1)
          end
      end
  end.

Definition is_uri_node (p : ltc_asn1_list) : bool :=
  bool_decide (asn1_type_of p = LTC_ASN1_CONTEXT_SPECIFIC) && (asn1_used p =? 0x86).

(** The string, with its terminator, of the first URI of the alternative names. *)
Definition find_hash_string (data : bytes) : comp W (option bytes) :=
  match der_decode_sequence_flexi data with
  | None => mret None
  | Some san_data =>
      match List.find is_uri_node (asn1_child san_data) with
      | None => mret None
      | Some p =>
          ok ← malloc (asn1_size p + 1);
          if negb ok then mret None
          else data ← lift (raw_bytes p); s ← lift (rd data 0 (asn1_size p));
               mret (Some (s ++ [0]))
      end
  end.

(** [char_to_copy] characters, or up to the first NUL, into [ascii_str]. *)
Fixpoint ucs_copy (ascii_str ucs_buffer : list Z) (i : Z) (n : nat) {struct n}
    : run (option bytes) :=
  match n with
  | O => ascii_str ← wr ascii_str i [0]; mret (Some ascii_str)
  | S n =>
      match ucs_buffer with
      | [] => Crash OutOfBounds
      | c :: ucs_buffer =>
          if c >? 0x7f then mret None
          else ascii_str ← wr ascii_str i [c];
               if c =? 0 then mret (Some ascii_str)
               else ucs_copy ascii_str ucs_buffer (i + 1) n
      end
  end.

Definition ufbl_ucstoascii (ascii_str ucs_buffer : list Z) (char_to_copy : Z)
    : run (option bytes) :=
  if char_to_copy =? 0 then mret None
  else if char_to_copy <? 0 then mret (Some ascii_str)
  else ucs_copy ascii_str ucs_buffer 0 (Z.to_nat char_to_copy).

(** [!strncmp(a, b, n)] of two strings without their terminators. *)
Definition strncmp_eq (a b : bytes) (n : nat) : bool :=
  bool_decide (take n (a ++ [0]) = take n (b ++ [0])).

Definition product_matches (s : bytes) : bool :=
  strncmp_eq s (str "product:") 8
  && (let s := drop 8 s in
      strncmp_eq s amzn_target_device_name
        (Nat.max (length s) (length amzn_target_device_name))).

(** The text as a string in a zeroed buffer of [size] bytes. *)
Definition copy_text (t : ltc_asn1_type) (chars : list Z) (str_size size : Z)
    : run (option bytes) :=
  let ascii_cstring := replicate (Z.to_nat size) 0 in
  if bool_decide (t = LTC_ASN1_UTF8_STRING)
  then ufbl_ucstoascii ascii_cstring chars (s32 str_size)
  else s ← rd chars 0 str_size;
       buf ← wr ascii_cstring 0 s;
       buf ← wr buf (size - 1) [0];
       mret (Some buf).

(** How the loop over the subject goes on: [inl ret] leaves the function with
    [ret], [inr (size, ret)] goes to the next attribute.  A string never holds
    elements: [der_rescan_tree] gives them to containers only. *)
Definition subject_step (handler : option (bytes → Z)) (p : ltc_asn1_list) (size ret : Z)
    : comp W (Z + Z * Z) :=
  match asn1_child p with
  | c :: _ =>
      match asn1_child c with
      | oid :: text :: _ =>
          ou ← lift (data_is_oid oid [2; 5; 4; 11]);
          let t := asn1_type_of text in
          if negb ou then mret (inr (size, ret))
          else if negb (bool_decide (t = LTC_ASN1_PRINTABLE_STRING)
                        || bool_decide (t = LTC_ASN1_UTF8_STRING)) then mret (inr (size, ret))
          else match asn1_data_of text with
          | NoData => mret (inr (size, ret))
          | Elements _ => lift (Crash OutOfBounds)
          | Values chars =>
              let str_size := asn1_size text in
              room ← (if str_size + 1 >? size then malloc (str_size + 1) else mret true);
              if negb room then mret (inl ret) else
              let size := Z.max size (str_size + 1) in
              copied ← lift (copy_text t chars str_size size);
              match copied with
              | None => mret (inl ret)
              | Some buf =>
                  s ← lift (c_str buf);
                  match handler with
                  | Some f => if negb (f s =? 0) then mret (inl (-1))
                              else mret (inr (size, if product_matches s then 0 else ret))
                  | None => mret (inr (size, if product_matches s then 0 else ret))
                  end
              end
          end
      | _ => mret (inr (size, ret))
      end
  | [] => mret (inr (size, ret))
  end.

Fixpoint scan_subject (handler : option (bytes → Z)) (ps : list ltc_asn1_list) (size ret : Z)
    : comp W (Z + Z) :=
  match ps with
  | [] => mret (inr ret)
  | p :: ps =>
      r ← subject_step handler p size ret;
      match r with
      | inl ret => mret (inl ret)
      | inr (size, ret) => scan_subject handler ps size ret
      end
  end.

Definition next_of (p : option asn1_ptr) : option ltc_asn1_list := p ← p; head (next p).

(** The hash the certificate carries; [None] when there is none that fits. *)
Definition certified_hash (subject : ltc_asn1_list) (rest : list ltc_asn1_list)
    : comp W (option bytes) :=
  san_node ← lift (find_node check_san_node [] (subject :: rest) None);
  match next_of san_node with
  | None => mret None
  | Some value =>
      match asn1_data_of value with
      | NoData => mret None
      | _ =>
          data ← lift (raw_bytes value);
          hash_string ← find_hash_string (take (Z.to_nat (asn1_size value)) data);
          match hash_string with
          | None => mret None
          | Some hash_string =>
              ok ← malloc mp_room;
              if negb ok then mret None else
              ptr ← lift (c_str (drop 9 hash_string));
              match mp_read_radix ptr 16 with
              | None => mret None
              | Some mp_hash =>
                  if mp_unsigned_bin_size mp_hash >? SHA256_DIGEST_LENGTH then mret None
                  else match mp_to_unsigned_bin mp_hash with
                       | None => mret None
                       | Some bin =>
                           cert_hash ← lift (wr (replicate (Z.to_nat SHA256_DIGEST_LENGTH) 0)
                                    (SHA256_DIGEST_LENGTH - mp_unsigned_bin_size mp_hash) bin);
                           mret (Some cert_hash)
                       end
              end
          end
      end
  end.

(** The subject and the nodes after it in a certificate. *)
Definition subject_of (l : ltc_asn1_list) : option (ltc_asn1_list * list ltc_asn1_list) :=
  match asn1_child l with
  | tbs :: _ =>
      match asn1_child tbs with
      | _ :: _ :: _ :: _ :: _ :: subject :: rest => Some (subject, rest)
      | _ => None
      end
  | [] => None
  end.

(** 0 when the certificate vouches for [computed_hash].  The pointer to the
    decoded root certificate is read uninitialised when the root certificate
    does not decode. *)
Definition amzn_verify_image (ct : cert_type) (computed_hash usercert : bytes)
    (handler : option (bytes → Z)) : comp W Z :=
  match der_decode_sequence_flexi (amzn_get_kernel_cert ct) with
  | None => lift (Crash OutOfBounds)
  | Some root =>
      root ← der_rescan_tree root;
      match der_decode_sequence_flexi (take 2048 usercert) with
      | None => mret (-1)
      | Some user =>
          user ← der_rescan_tree user;
          root_ca_key ← extract_cert_key_pub root;
          match root_ca_key with
          | None => mret (-1)
          | Some root_ca_key =>
              bad ← verify_certificate user root_ca_key;
              if negb (bad =? 0) then mret (-1) else
              match subject_of user with
              | None => mret (-1)
              | Some (subject, rest) =>
                  if negb (bool_decide (asn1_type_of subject = LTC_ASN1_SEQUENCE)) then mret (-1)
                  else
                  r ← scan_subject handler (asn1_child subject) 0 (-1);
                  match r with
                  | inl ret => mret ret
                  | inr ret =>
                      if negb (ret =? 0) then mret ret else
                      cert_hash ← certified_hash subject rest;
                      mret match cert_hash with
                           | Some cert_hash =>
                               if bool_decide (computed_hash = cert_hash) then 0 else -1
                           | None => -1
                           end
                  end
              end
          end
      end
  end.

End Ltc.

(** ** The device *)

(** The secure configuration register and the hash engine of the chip. *)
Class SecureChip := {
  AO_SEC_SD_CFG10 : Z;
  sha256_csum_wd : bytes → bytes;
}.

Definition CONFIG_DEVICE_PRODUCT : bytes := str "lagunaf".

Definition tolower (c : Z) : Z := if (65 <=? c) && (c <=? 90) then c + 32 else c.

(** The name in its buffer of 16 bytes, the last one a NUL. *)
Definition amzn_target_device_name : bytes := tolower <$> take 15 CONFIG_DEVICE_PRODUCT.

Section Device.
Context `{SecureChip} `{TomCrypt} {W : Type} `{Heap W}.

Definition amzn_target_sha256 (data : bytes) : bytes := sha256_csum_wd data.

Definition secure_boot_enabled : bool := negb (Z.land AO_SEC_SD_CFG10 (Z.shiftl 1 4) =? 0).
Definition anti_rollback_enabled : bool := negb (Z.land AO_SEC_SD_CFG10 (Z.shiftl 1 25) =? 0).

Definition amzn_target_device_type : device_type :=
  if anti_rollback_enabled then AMZN_PRODUCTION_DEVICE else AMZN_ENGINEERING_DEVICE.

(** 1 when the image is signed and authorized. *)
Definition amzn_image_verify (image signature : bytes) (image_size : Z)
    (handler : option (bytes → Z)) : comp W Z :=
  ok ← malloc SHA256_DIGEST_LENGTH;
  if negb ok then mret 0 else
  data ← lift (rd image 0 image_size);
  let digest := amzn_target_sha256 data in
  bad ← amzn_verify_image amzn_target_device_name AMZN_PRODUCTION_CERT digest signature handler;
  if bad =? 0 then mret 1
  else if bool_decide (amzn_target_device_type = AMZN_PRODUCTION_DEVICE) then mret 0
  else if negb (bool_decide (amzn_target_device_type = AMZN_ENGINEERING_DEVICE)) then mret 0
  else
    bad ← amzn_verify_image amzn_target_device_name AMZN_ENGINEERING_CERT digest signature handler;
    mret (if bad =? 0 then 1 else 0).

End Device.

(** ** Searching the tree *)

Fixpoint asn1_ind' (P : ltc_asn1_list → Prop)
    (step : ∀ t d s u p c, Forall P c → P (Asn1 t d s u p c)) (l : ltc_asn1_list) : P l :=
  match l with
  | Asn1 t d s u p c =>
      step t d s u p c
        ((fix go (ls : list ltc_asn1_list) : Forall P ls :=
            match ls with
            | [] => Forall_nil_2 P
            | l :: ls => Forall_cons_2 P l ls (asn1_ind' P step l) (go ls)
            end) c)
  end.

(** The nodes of a tree in the order [find_node] looks at them. *)
Fixpoint postorder1 (up : list ltc_asn1_list) (l : ltc_asn1_list) (rest : list ltc_asn1_list)
    : list asn1_ptr :=
  let 'Asn1 _ _ _ _ _ child := l in
  (fix walk (ls : list ltc_asn1_list) : list asn1_ptr :=
     match ls with [] => [] | c :: ls => postorder1 (l :: up) c ls ++ walk ls end) child
  ++ [mkPtr l rest up].

Fixpoint postorder (up ls : list ltc_asn1_list) : list asn1_ptr :=
  match ls with [] => [] | c :: ls => postorder1 up c ls ++ postorder up ls end.

Fixpoint first_hit (func : ltc_asn1_list → run bool) (ps : list asn1_ptr) (p : option asn1_ptr)
    : run (option asn1_ptr) :=
  match ps with
  | [] => mret p
  | q :: ps => hit ← func (here q);
               first_hit func ps (match p with None => if hit : bool then Some q else None | _ => p end)
  end.

Lemma first_hit_app func ps qs p :
  first_hit func (ps ++ qs) p = (p ← first_hit func ps p; first_hit func qs p).
Proof.
  revert p; induction ps as [|q ps IH]; intros p; simpl; [done|].
  destruct (func (here q)) as [hit|c]; simpl; [apply IH|done].
Qed.

Lemma find_in_first_hit func up l rest p :
  find_in func up l rest p = first_hit func (postorder1 up l rest) p.
Proof.
  revert up rest p; induction l as [t d s u pa child IH] using asn1_ind'; intros up rest p.
  cbn [find_in postorder1]. rewrite first_hit_app.
  set (n := Asn1 t d s u pa child).
  match goal with |- context [mbind _ (?w child p)] => set (walk := w) end.
  match goal with |- context [first_hit func (?w child) p] => set (order := w) end.
  assert (Hw : ∀ ls p, Forall (λ l, ∀ up rest p,
      find_in func up l rest p = first_hit func (postorder1 up l rest) p) ls →
      walk ls p = first_hit func (order ls) p).
  { induction ls as [|c ls IHls]; intros p' Hls; [done|]. inversion Hls as [|?? Hc Hls']; subst.
    simpl. rewrite first_hit_app, <- Hc.
    destruct (find_in func (n :: up) c ls p') as [q|]; simpl; [apply IHls, Hls'|done]. }
  rewrite (Hw child p IH). destruct (first_hit func (order child) p) as [q|]; simpl; [|done].
  destruct (func n) as [[]|]; simpl; destruct q; done.
Qed.

Lemma find_node_first_hit func up ls p :
  find_node func up ls p = first_hit func (postorder up ls) p.
Proof.
  revert p; induction ls as [|l ls IH]; intros p; simpl; [done|].
  rewrite first_hit_app, find_in_first_hit.
  destruct (first_hit func (postorder1 up l ls) p); simpl; [apply IH|done].
Qed.

(** Once a node is kept it stays. *)
Lemma first_hit_kept func ps q r : first_hit func ps (Some q) = Ret r → r = Some q.
Proof.
  induction ps as [|x ps IH]; simpl; [by intros [= <-]|].
  destruct (func (here x)); simpl; [auto|done].
Qed.

(** A search that ends names the first node, children before parents and
    earlier siblings before later ones, whose test succeeds; none when no test
    does. *)
Theorem find_node_first (func : ltc_asn1_list → run bool) up ls r :
  find_node func up ls None = Ret r →
  match r with
  | Some p => ∃ before after, postorder up ls = before ++ p :: after
                ∧ func (here p) = Ret true ∧ Forall (λ q, func (here q) = Ret false) before
  | None => Forall (λ q, func (here q) = Ret false) (postorder up ls)
  end.
Proof.
  rewrite find_node_first_hit. induction (postorder up ls) as [|q ps IH]; simpl.
  { intros [= <-]. constructor. }
  destruct (func (here q)) as [[]|] eqn:Hq; simpl; intros Hr; [| |done].
  - apply first_hit_kept in Hr as ->. exists [], ps. split; [done|]. split; [done|constructor].
  - specialize (IH Hr). destruct r as [p|]; [|by constructor].
    destruct IH as (b & a & -> & Hp & Hb). exists (q :: b), a.
    split; [done|]. split; [done|by constructor].
Qed.

(** ** Signature bits *)

Definition byte_bits (b : Z) : list Z :=
  (fun i : nat => Z.b2z (Z.testbit b (7 - Z.of_nat i))) <$> seq 0 8.

Lemma pack_bits_mod bits y buf : pack_bits bits (8 + y) buf = pack_bits bits y buf.
Proof.
  assert (E : ∀ y, ((8 + y) mod 8 = y mod 8)%nat).
  { intros z. replace (8 + z)%nat with (z + 1 * 8)%nat by lia. apply Nat.Div0.mod_add. }
  revert y buf; induction bits as [|b bits IH]; intros y buf; cbn [pack_bits]; rewrite E; [done|].
  replace (S (8 + y)) with (8 + S y)%nat by lia. by rewrite !IH.
Qed.

Definition packed_byte (b : Z) : Z :=
  match pack_bits (byte_bits b) 0 0 with [c] => c | _ => -1 end.

Lemma pack_byte b bits : is_u8 b → pack_bits (byte_bits b ++ bits) 0 0 = b :: pack_bits bits 0 0.
Proof.
  intros Hb. transitivity (packed_byte b :: pack_bits bits (8 + 0) 0); [reflexivity|].
  rewrite pack_bits_mod. f_equal. apply Z.eqb_eq. revert b Hb.
  apply (byte_cases (fun b => packed_byte b =? b)). by vm_compute.
Qed.

(** The signature read from a BIT STRING that holds the bits of [signature],
    highest bit of each byte first, is [signature], given the memory for it. *)
Theorem decode_signature_roundtrip (signature : bytes) used par :
  bytes_ok signature →
  decode_signature (H0 := roomy_heap)
    (Asn1 LTC_ASN1_BIT_STRING (Values (concat (byte_bits <$> signature)))
       (8 * zlen signature) used par []) tt
  = Ret (Some signature, tt).
Proof.
  intros Hs.
  assert (Hl : zlen (concat (byte_bits <$> signature)) = 8 * zlen signature).
  { clear Hs. induction signature as [|b l IH]; [done|]. cbn [fmap list_fmap concat].
    rewrite zlen_app, IH, zlen_cons. change (zlen (byte_bits b)) with 8. lia. }
  unfold decode_signature; cbn [asn1_type_of asn1_data_of asn1_size].
  unfold mbind, comp_bind, malloc, heap_alloc, roomy_heap; cbn [negb].
  rewrite (lift_run _ _ (concat (byte_bits <$> signature))).
  2: { rewrite rd_ok by (pose proof (zlen_nonneg signature); lia).
       f_equal. by apply slice_full. }
  enough (pack_bits (concat (byte_bits <$> signature)) 0 0 = signature) as -> by done.
  clear Hl. induction Hs as [|b l Hb Hl IH]; [done|].
  cbn [fmap list_fmap concat]. rewrite pack_byte by done. by f_equal.
Qed.

(** ** What an accepted certificate says *)

Lemma wr_byte l i c l' :
  wr l i [c] = Ret l' →
  0 ≤ i ∧ take (Z.to_nat i) l' = take (Z.to_nat i) l
  ∧ drop (Z.to_nat i) l' = c :: drop (Z.to_nat i + 1) l'.
Proof.
  unfold wr. destruct (_ && _) eqn:Hb; [|done]. intros [= <-].
  apply andb_true_iff in Hb as [Hi%Z.leb_le Hl%Z.leb_le].
  autorewrite with bytes in Hl. unfold zlen in Hl.
  assert (Ht : length (take (Z.to_nat i) l) = Z.to_nat i) by (rewrite length_take; lia).
  split; [done|]. split; [by rewrite take_app_length' by done|].
  rewrite drop_app_length' by done.
  rewrite (drop_app_ge (take _ _)) by lia. rewrite Ht.
  by replace (Z.to_nat i + 1 - Z.to_nat i)%nat with 1%nat by lia.
Qed.

(** The characters [ucs_copy] leaves from [i] on are those of the wide string. *)
Lemma ucs_copy_c_str n : ∀ buf chars i buf',
  ucs_copy buf chars i n = Ret (Some buf') →
  take (Z.to_nat i) buf' = take (Z.to_nat i) buf
  ∧ c_str (drop (Z.to_nat i) buf') = c_str (take n chars ++ [0]).
Proof.
  induction n as [|n IH]; intros buf chars i buf' E; cbn [ucs_copy] in E.
  { run_inv. match goal with H : mret _ = Ret _ |- _ => injection H as <- end.
    destruct (wr_byte _ _ _ _ H) as (_ & -> & ->). done. }
  destruct chars as [|c chars]; [done|]. destruct (c >? 0x7f); [done|]. run_inv.
  destruct (wr_byte _ _ _ _ H) as (Hi & Ht & Hd). cbn [take app c_str].
  destruct (Z.eqb_spec c 0) as [->|Hc]; [injection E as <-; rewrite Hd; done|].
  destruct (IH _ _ _ _ E) as (Ht' & Hc').
  replace (Z.to_nat (i + 1)) with (Z.to_nat i + 1)%nat in * by lia.
  set (k := Z.to_nat i) in *; clearbody k.
  split.
  { rewrite <- Ht. transitivity (take k (take (k + 1) buf')); [|rewrite Ht'];
      rewrite take_take, Nat.min_l by lia; done. }
  assert (Hk : buf' !! k = Some c).
  { rewrite <- (lookup_take_lt _ (k + 1)), Ht', lookup_take_lt by lia.
    rewrite <- (Nat.add_0_r k), <- lookup_drop, Hd. done. }
  rewrite (drop_S _ _ _ Hk). cbn [c_str]. rewrite (proj2 (Z.eqb_neq c 0) Hc).
  replace (S k) with (k + 1)%nat by lia. by rewrite Hc'.
Qed.

Section Accepted.
Context `{TomCrypt} {W : Type} `{Heap W}.

(** The signature of the certificate [l] verifies under [key]. *)
Definition signed_by (key : rsa_key) (l : ltc_asn1_list) : Prop :=
  ∃ tbs_node alg sig_node rest len tbs bits,
    asn1_child l = tbs_node :: alg :: sig_node :: rest
    ∧ der_encode_sequence_ex (asn1_data_of tbs_node) (asn1_size tbs_node) len = Some tbs
    ∧ asn1_type_of sig_node = LTC_ASN1_BIT_STRING ∧ asn1_data_of sig_node = Values bits
    ∧ rsa_verify_hash (pack_bits (slice bits 0 (asn1_size sig_node)) 0 0) (ltc_sha256 tbs) key
      = (0, 1).

Lemma decode_signature_inv n w s w' :
  decode_signature n w = Ret (Some s, w') →
  ∃ bits, asn1_type_of n = LTC_ASN1_BIT_STRING ∧ asn1_data_of n = Values bits
    ∧ s = pack_bits (slice bits 0 (asn1_size n)) 0 0.
Proof.
  unfold decode_signature. intros E.
  destruct (asn1_type_of n); try (by run_inv). destruct (asn1_data_of n) as [|bits|]; try (by run_inv).
  run_inv. destruct (negb _); run_inv.
  match goal with H : rd _ _ _ = _ |- _ => apply rd_Ret in H as (_ & _ & _ & ->) end. eauto.
Qed.

Lemma verify_certificate_signed l key w w' :
  verify_certificate l key w = Ret (0, w') → signed_by key l.
Proof.
  unfold verify_certificate. intros E.
  repeat (case_hyp E || run_inv); try discriminate.
  match goal with H : decode_signature _ _ = _ |- _ =>
    apply decode_signature_inv in H as (bits & ? & ? & ->) end.
  match goal with H : _ && _ = true |- _ =>
    apply andb_true_iff in H as [->%Z.eqb_eq ->%Z.eqb_eq] end.
  unfold signed_by. do 7 eexists. eauto.
Qed.

(** The number of characters of a text that are looked at. *)
Definition text_size (text : ltc_asn1_list) : nat :=
  Z.to_nat (if bool_decide (asn1_type_of text = LTC_ASN1_UTF8_STRING) then s32 (asn1_size text)
            else asn1_size text).

(** The attribute [p] is an organizational unit whose value is [text]. *)
Definition ou_node (p text : ltc_asn1_list) (chars : list Z) : Prop :=
  ∃ c cs oid more,
    asn1_child p = c :: cs ∧ asn1_child c = oid :: text :: more
    ∧ data_is_oid oid [2; 5; 4; 11] = Ret true ∧ asn1_data_of text = Values chars.

(** The attribute [p] is an organizational unit that reads [s]. *)
Definition ou_text (p : ltc_asn1_list) (s : bytes) : Prop :=
  ∃ text chars, ou_node p text chars ∧ c_str (take (text_size text) chars ++ [0]) = Ret s.

(** An organizational unit that is no plain text: the copy of it fails. *)
Definition unreadable (p : ltc_asn1_list) : Prop :=
  ∃ text chars, ou_node p text chars ∧ asn1_type_of text = LTC_ASN1_UTF8_STRING
    ∧ (s32 (asn1_size text) = 0 ∨ Exists (λ c, 0x7f < c) chars).

Lemma c_str_pad s r : c_str (s ++ 0 :: r) = c_str (s ++ [0]).
Proof. induction s as [|c s IH]; simpl; [done|]. by rewrite IH. Qed.

Lemma printable_c_str size n chars s buf buf' :
  n + 1 ≤ size → rd chars 0 n = Ret s → wr (replicate (Z.to_nat size) 0) 0 s = Ret buf →
  wr buf (size - 1) [0] = Ret buf' → c_str buf' = c_str (take (Z.to_nat n) chars ++ [0]).
Proof.
  intros Hn (_ & Hn0 & Hl & ->)%rd_Ret. change (slice chars 0 n) with (take (Z.to_nat n) chars).
  set (s := take (Z.to_nat n) chars).
  assert (Hs : zlen s = n) by (unfold s, zlen in *; rewrite length_take; lia).
  clearbody s. set (m := Z.to_nat (size - n - 1)).
  replace (Z.to_nat size) with (Z.to_nat n + S m)%nat by lia. rewrite replicate_add.
  rewrite wr_app_0 by (rewrite zlen_replicate; lia). intros [= <-].
  rewrite replicate_cons_app, app_assoc.
  replace (size - 1) with (zlen (s ++ replicate m 0)) by (rewrite zlen_app, zlen_replicate; lia).
  rewrite <- (app_nil_r [0]) at 1. rewrite wr_app by done. intros [= <-].
  rewrite <- app_assoc, <- replicate_cons_app. apply c_str_pad.
Qed.

Lemma c_str_nonzero p s : c_str p = Ret s → Forall (λ c, c ≠ 0) s.
Proof.
  revert s; induction p as [|c p IH]; intros s; simpl; [done|].
  destruct (Z.eqb_spec c 0); [by intros [= <-]|].
  intros E. run_inv. constructor; auto.
Qed.

Lemma strncmp_prefix a lit :
  Forall (λ c, c ≠ 0) lit → strncmp_eq a lit (length lit) = true → take (length lit) a = lit.
Proof.
  intros Hlit. unfold strncmp_eq. rewrite bool_decide_eq_true, take_app_length.
  revert a; induction Hlit as [|c lit Hc Hlit IH]; intros a; [done|].
  destruct a as [|x a]; simpl; intros [= ? Ht]; [done|]. subst. f_equal. auto.
Qed.

Lemma strncmp_longer a b :
  Forall (λ c, c ≠ 0) a → Forall (λ c, c ≠ 0) b →
  strncmp_eq a b (Nat.max (length a) (length b)) = true → a = b.
Proof.
  intros Ha. unfold strncmp_eq. rewrite bool_decide_eq_true. revert b.
  induction Ha as [|x a Hx Ha IH]; intros b Hb; destruct Hb as [|y b Hy Hb]; simpl;
    [done|intros [= ? _]; subst; done|intros [= ? _]; subst; done|].
  intros [= -> Ht]. f_equal. auto.
Qed.

Context (name : bytes) (Hname : Forall (λ c, c ≠ 0) name) (handler : option (bytes → Z)).

Lemma product_matches_eq s :
  Forall (λ c, c ≠ 0) s → product_matches name s = true → s = str "product:" ++ name.
Proof.
  intros Hs [Hp Hn]%andb_true_iff.
  rewrite <- (take_drop 8 s) at 1. f_equal.
  - apply (strncmp_prefix s (str "product:")); [|done]. by repeat constructor.
  - apply strncmp_longer; [by apply Forall_drop|done|done].
Qed.

Lemma copy_text_c_str text chars size buf s :
  asn1_size text + 1 ≤ size →
  copy_text (asn1_type_of text) chars (asn1_size text) size = Ret (Some buf) →
  c_str buf = Ret s → c_str (take (text_size text) chars ++ [0]) = Ret s.
Proof.
  unfold copy_text, text_size. intros Hsz E Hs. destruct (bool_decide _).
  - unfold ufbl_ucstoascii in E. destruct (Z.eqb_spec (s32 (asn1_size text)) 0); [done|].
    destruct (Z.ltb_spec (s32 (asn1_size text)) 0) as [Hneg|Hpos].
    + injection E as <-. rewrite (Z2Nat.nonpos (s32 _)) by lia. by destruct (Z.to_nat size).
    + apply ucs_copy_c_str in E as [_ E]. cbn [Z.to_nat drop] in E. by rewrite <- E.
  - run_inv. match goal with H : mret _ = Ret _ |- _ => injection H as -> end.
    by erewrite <- printable_c_str.
Qed.

Lemma ucs_copy_None n : ∀ buf chars i, ucs_copy buf chars i n = Ret None → Exists (λ c, 0x7f < c) chars.
Proof.
  induction n as [|n IH]; intros buf chars i E; cbn [ucs_copy] in E; [by run_inv|].
  destruct chars as [|c chars]; [done|]. destruct (Z.gtb_spec c 0x7f); [by left|]. run_inv.
  destruct (c =? 0); [done|]. right. eauto.
Qed.

Lemma copy_text_None t chars n size :
  copy_text t chars n size = Ret None →
  t = LTC_ASN1_UTF8_STRING ∧ (s32 n = 0 ∨ Exists (λ c, 0x7f < c) chars).
Proof.
  unfold copy_text. intros E. case_bool_decide; [split; [done|]|by run_inv].
  unfold ufbl_ucstoascii in E. destruct (Z.eqb_spec (s32 n) 0); [by left|right].
  destruct (s32 n <? 0); [done|]. by eapply ucs_copy_None.
Qed.

(** What one attribute does to the loop. *)
Lemma subject_step_cases p size ret w r w' :
  subject_step name handler p size ret w = Ret (r, w') →
  r = inr (size, ret)
  ∨ ∃ text chars, ou_node p text chars
    ∧ (r = inl ret ∧ (unreadable p ∨ ∃ n w0, (heap_alloc n w0).1 = false)
       ∨ ∃ s, c_str (take (text_size text) chars ++ [0]) = Ret s
         ∧ (r = inl (-1) ∧ handler ≠ None
            ∨ r = inr (Z.max size (asn1_size text + 1), if product_matches name s then 0 else ret))).
Proof.
  unfold subject_step. intros E.
  destruct (asn1_child p) as [|c cs] eqn:Hp; [by run_inv; left|].
  destruct (asn1_child c) as [|oid [|text more]] eqn:Hc; [by run_inv; left..|].
  apply comp_bind_Ret in E as (ou & w1 & Hou & E). apply lift_Ret in Hou as (? & Hou & [= <- <-]).
  destruct ou; cbn [negb] in E; [|by run_inv; left].
  destruct (negb _); [by run_inv; left|].
  destruct (asn1_data_of text) as [|chars|] eqn:Hd; [by run_inv; left| |by run_inv].
  assert (Hn : ou_node p text chars) by (exists c, cs, oid, more; done).
  right. exists text, chars. split; [done|].
  apply comp_bind_Ret in E as (room & w2 & Hroom & E). destruct room; cbn [negb] in E.
  2: { left. run_inv. split; [done|]. right. destruct (_ >? _); run_inv.
       eexists _, _. by rewrite <- Hroom. }
  apply comp_bind_Ret in E as (copied & w3 & Hcopy & E).
  apply lift_Ret in Hcopy as (? & Hcopy & [= <- <-]).
  destruct copied as [buf|].
  2: { left. run_inv. split; [done|]. left. exists text, chars. by apply copy_text_None in Hcopy. }
  apply comp_bind_Ret in E as (s & w4 & Hs & E). apply lift_Ret in Hs as (? & Hs & [= <- <-]).
  right. exists s. split; [eapply copy_text_c_str; [|done|done]; lia|].
  destruct handler as [f|]; [destruct (negb _)|]; run_inv; auto.
Qed.

Lemma subject_step_inv p size ret w r w' :
  subject_step name handler p size ret w = Ret (r, w') →
  match r with
  | inl ret' => ret' = ret ∨ ret' = -1
  | inr (_, ret') => ret' = ret ∨ (ret' = 0 ∧ ou_text p (str "product:" ++ name))
  end.
Proof.
  intros [->|(text & chars & Hn & [[-> _]|(s & Hs & [[-> _]| ->])])]%subject_step_cases; auto.
  destruct (product_matches name s) eqn:Hm; [right|by left]. split; [done|].
  apply product_matches_eq in Hm as <-; [|by eapply c_str_nonzero]. exists text, chars. done.
Qed.

Lemma scan_subject_inv ps : ∀ size ret w r w',
  scan_subject name handler ps size ret w = Ret (r, w') →
  r = inl 0 ∨ r = inr 0 → ret = 0 ∨ Exists (λ p, ou_text p (str "product:" ++ name)) ps.
Proof.
  induction ps as [|p ps IH]; intros size ret w r w' E Hr; cbn [scan_subject] in E.
  { run_inv. left. by destruct Hr; simplify_eq. }
  apply comp_bind_Ret in E as (q & w1 & Hq & E). apply subject_step_inv in Hq.
  destruct q as [ret'|[size' ret']]; [run_inv; destruct Hr, Hq; simplify_eq; auto|].
  destruct (IH _ _ _ _ _ E Hr) as [->|Hps]; [|auto].
  destruct Hq as [<-|[_ Hq]]; auto.
Qed.

Lemma scan_subject_cut ps :
  handler = None → (∀ n w, (heap_alloc n w).1 = true) → ∀ size ret w r w',
  scan_subject name handler ps size ret w = Ret (inl r, w') → Exists unreadable ps.
Proof.
  intros Hh Hroomy. induction ps as [|p ps IH]; intros size ret w r w' E; cbn [scan_subject] in E.
  { by run_inv. }
  apply comp_bind_Ret in E as (q & w1 & Hq & E). destruct q as [ret'|[size' ret']]; [|eauto].
  left. apply subject_step_cases in Hq
    as [|(text & chars & _ & [[_ [?|(n & w0 & Hn)]]|(s & _ & [[_ ?]|?])])]; try done.
  by rewrite Hroomy in Hn.
Qed.

(** [usercert] is a certificate under the root of the kind [ct], for this
    product; [subject] and [rest] are the nodes from its subject on. *)
Definition authentic (ct : cert_type) (usercert : bytes) (subject : ltc_asn1_list)
    (rest : list ltc_asn1_list) : Prop :=
  ∃ root0 root user0 user key w0 w1 w2 w3,
    der_decode_sequence_flexi (amzn_get_kernel_cert ct) = Some root0
    ∧ der_decode_sequence_flexi (take 2048 usercert) = Some user0
    ∧ der_rescan_tree root0 w0 = Ret (root, w1) ∧ der_rescan_tree user0 w1 = Ret (user, w2)
    ∧ extract_cert_key_pub root w2 = Ret (Some key, w3)
    ∧ signed_by key user ∧ subject_of user = Some (subject, rest)
    ∧ Exists (λ p, ou_text p (str "product:" ++ name)) (asn1_child subject).

Lemma amzn_verify_image_inv ct computed_hash usercert w w' :
  amzn_verify_image name ct computed_hash usercert handler w = Ret (0, w') →
  ∃ subject rest, authentic ct usercert subject rest
    ∧ ((∃ w1 w2, certified_hash subject rest w1 = Ret (Some computed_hash, w2))
       ∨ ∃ w1 w2, scan_subject name handler (asn1_child subject) 0 (-1) w1 = Ret (inl 0, w2)).
Proof.
  unfold amzn_verify_image. intros E.
  destruct (der_decode_sequence_flexi (amzn_get_kernel_cert ct)) as [root0|] eqn:Hr0; [|by run_inv].
  apply comp_bind_Ret in E as (root & w1 & Hroot & E).
  destruct (der_decode_sequence_flexi (take 2048 usercert)) as [user0|] eqn:Hu0; [|by run_inv].
  apply comp_bind_Ret in E as (user & w2 & Huser & E).
  apply comp_bind_Ret in E as ([key|] & w3 & Hkey & E); [|by run_inv].
  apply comp_bind_Ret in E as (bad & w4 & Hbad & E).
  destruct (Z.eqb_spec bad 0) as [->|]; cbn [negb] in E; [|by run_inv].
  apply verify_certificate_signed in Hbad.
  destruct (subject_of user) as [[subject rest]|] eqn:Hs; [|by run_inv].
  destruct (negb _); [by run_inv|]. apply comp_bind_Ret in E as (r & w5 & Hscan & E).
  assert (Hn : r = inl 0 ∨ r = inr 0 → authentic ct usercert subject rest).
  { intros Hr. destruct (scan_subject_inv _ _ _ _ _ _ Hscan Hr) as [?|Hex]; [done|].
    exists root0, root, user0, user, key, w, w1, w2, w3. done. }
  exists subject, rest. destruct r as [ret|ret]; [run_inv; split; [auto|right; eauto]|].
  destruct (Z.eqb_spec ret 0) as [->|]; cbn [negb] in E; [|run_inv; congruence].
  split; [auto|left]. apply comp_bind_Ret in E as ([h|] & w6 & Hh & E); [|by run_inv].
  case_bool_decide; run_inv. eauto.
Qed.

End Accepted.

(** ** A device and its certificates, for the examples *)

Definition demo_node (t : ltc_asn1_type) (data : asn1_data) (n : Z) : ltc_asn1_list :=
  Asn1 t data n 0 false [].
Definition demo_seq (par : bool) (child : list ltc_asn1_list) : ltc_asn1_list :=
  Asn1 LTC_ASN1_SEQUENCE NoData 0 0 par child.
Definition demo_oid (par : bool) (oid : list Z) : ltc_asn1_list :=
  Asn1 LTC_ASN1_OBJECT_IDENTIFIER (Values oid) (zlen oid) 0 par [].

Definition demo_root : ltc_asn1_list :=
  demo_seq false [demo_seq true [demo_seq true
    [demo_seq true [demo_oid true [1; 2; 840; 113549; 1; 1; 1]]]]].

Definition demo_ou (s : bytes) : ltc_asn1_list :=
  demo_seq true [demo_seq true
    [demo_oid true [2; 5; 4; 11]; demo_node LTC_ASN1_UTF8_STRING (Values s) (zlen s)]].

(** A certificate whose subject has the given units, over an image whose hash is
    the number 5. *)
Definition demo_cert (units : list bytes) : ltc_asn1_list :=
  demo_seq false
    [demo_seq true
       (replicate 5 (demo_node LTC_ASN1_OTHER NoData 0)
        ++ [demo_seq false (demo_ou <$> units);
            demo_seq false [demo_oid true [2; 5; 29; 17];
                            demo_node LTC_ASN1_OCTET_STRING (Values [3]) 1]]);
     demo_node LTC_ASN1_OTHER NoData 0;
     demo_node LTC_ASN1_BIT_STRING (Values (byte_bits 170)) 8].

Definition demo_san : ltc_asn1_list :=
  demo_seq false [Asn1 LTC_ASN1_CONTEXT_SPECIFIC (Values (str "sha256://05")) 11 0x86 true []].

(** A decoder that knows the four structures, and a signature scheme in which
    the byte 170 signs every certificate. *)
#[local] Instance demo_tomcrypt : TomCrypt := {|
  rsa_key := unit;
  der_decode_sequence_flexi b :=
    match b with
    | 48 :: _ => Some demo_root
    | 1 :: _ => Some (demo_cert [str "product:lagunaf"; str "variant:user"])
    | 2 :: _ => Some (demo_cert [str "product:lagunaf"; [233]])
    | 3 :: _ => Some demo_san
    | _ => None
    end;
  der_length_sequence _ _ := Some 1;
  der_encode_sequence_ex _ _ _ := Some [7];
  rsa_import _ := Some tt;
  rsa_verify_hash signature _ _ := (0, if bool_decide (signature = [170]) then 1 else 0);
  ltc_sha256 b := b;
  nodes_in_memory _ := [];
  mp_room := 8;
  mp_read_radix s _ := Some (foldl (fun a c => 16 * a + (c - 48)) 0 s);
  mp_unsigned_bin_size _ := 1;
  mp_to_unsigned_bin x := Some [u8 x];
|}.

#[local] Instance demo_chip : SecureChip := {|
  AO_SEC_SD_CFG10 := 0x2000010;
  sha256_csum_wd data := be_encode 32 (be_decode data);
|}.

Lemma amzn_target_device_name_nonzero : Forall (λ c, c ≠ 0) amzn_target_device_name.
Proof. by repeat constructor. Qed.

(** A certificate of this product vouches for the data, unless a unit of its
    subject is no plain text. *)
Definition vouched `{SecureChip} `{TomCrypt} {W} `{Heap W} (ct : cert_type) (signature data : bytes) : Prop :=
  ∃ subject rest, authentic amzn_target_device_name ct signature subject rest
    ∧ ((∃ w1 w2, certified_hash subject rest w1 = Ret (Some (sha256_csum_wd data), w2))
       ∨ Exists unreadable (asn1_child subject)).

Lemma image_verify_vouched `{SecureChip} `{TomCrypt} {W} `{Heap W}
    (image signature : bytes) image_size w w' :
  (∀ n w, (heap_alloc n w).1 = true) →
  amzn_image_verify image signature image_size None w = Ret (1, w') →
  ∃ ct, (ct = AMZN_PRODUCTION_CERT
         ∨ ct = AMZN_ENGINEERING_CERT ∧ amzn_target_device_type = AMZN_ENGINEERING_DEVICE)
    ∧ vouched ct signature (slice image 0 image_size).
Proof.
  intros Hroomy E. unfold amzn_image_verify in E.
  apply comp_bind_Ret in E as (ok & w1 & _ & E). destruct (negb ok); [by run_inv|].
  apply comp_bind_Ret in E as (data & w2 & Hd & E). apply lift_Ret in Hd as (? & Hd & [= <- <-]).
  apply rd_Ret in Hd as (_ & _ & _ & ->).
  assert (Hok : ∀ ct w w', amzn_verify_image amzn_target_device_name ct
      (amzn_target_sha256 (slice image 0 image_size)) signature None w = Ret (0, w') →
    vouched ct signature (slice image 0 image_size)).
  { intros ct v v' Hv.
    apply amzn_verify_image_inv in Hv as (subject & rest & Ha & Hh);
      [|apply amzn_target_device_name_nonzero].
    exists subject, rest. split; [done|]. destruct Hh as [Hh|(v1 & v2 & Hcut)]; [by left|right].
    by eapply scan_subject_cut in Hcut. }
  apply comp_bind_Ret in E as (bad & w3 & Hbad & E). destruct (Z.eqb_spec bad 0) as [->|].
  { apply Hok in Hbad. exists AMZN_PRODUCTION_CERT. auto. }
  case_bool_decide; [by run_inv|]. case_bool_decide; [|by run_inv]. cbn [negb] in E.
  apply comp_bind_Ret in E as (bad' & w4 & Hbad' & E).
  destruct (Z.eqb_spec bad' 0) as [->|]; [|by run_inv].
  apply Hok in Hbad'. exists AMZN_ENGINEERING_CERT. auto.
Qed.

(** C5: on a heap that does not run out, an image that is declared authorized
    comes with a certificate of this product, signed under the production root
    or, on an engineering device only, under the engineering root, and the
    certificate carries the hash of the image; unless a later organizational
    unit of the subject is no plain text. *)
Theorem amzn_image_verify_sound `{SecureChip} `{TomCrypt} {W} `{Heap W}
    (image signature : bytes) image_size w w' :
  (∀ n w, (heap_alloc n w).1 = true) →
  amzn_image_verify image signature image_size None w = Ret (1, w') →
  ∃ ct subject rest,
    (ct = AMZN_PRODUCTION_CERT
     ∨ ct = AMZN_ENGINEERING_CERT ∧ amzn_target_device_type = AMZN_ENGINEERING_DEVICE)
    ∧ authentic amzn_target_device_name ct signature subject rest
    ∧ ((∃ w1 w2, certified_hash subject rest w1
                 = Ret (Some (sha256_csum_wd (slice image 0 image_size)), w2))
       ∨ Exists unreadable (asn1_child subject)).
Proof.
  intros Hroomy E. destruct (image_verify_vouched _ _ _ _ _ Hroomy E) as (ct & Hct & s & r & Hv).
  by exists ct, s, r.
Qed.

Lemma amzn_image_verify_sound_witness :
  amzn_image_verify (H1 := roomy_heap) [5] [1] 1 None tt = Ret (1, tt)
  ∧ ∃ ct subject rest,
    (ct = AMZN_PRODUCTION_CERT
     ∨ ct = AMZN_ENGINEERING_CERT ∧ amzn_target_device_type = AMZN_ENGINEERING_DEVICE)
    ∧ authentic (H0 := roomy_heap) amzn_target_device_name ct [1] subject rest
    ∧ ((∃ w1 w2, certified_hash (H0 := roomy_heap) subject rest w1
                 = Ret (Some (sha256_csum_wd (slice [5] 0 1)), w2))
       ∨ Exists unreadable (asn1_child subject)).
Proof.
  split; [by vm_compute|].
  apply (amzn_image_verify_sound (H1 := roomy_heap) [5] [1] 1 tt tt); [done|by vm_compute].
Defined.

(** A unit that is no plain text after the unit that names the product ends
    the check with success before the hash of the image is looked at: such a
    certificate authorizes any image. *)
Example unreadable_unit_skips_hash computed_hash :
  amzn_verify_image (H0 := roomy_heap) amzn_target_device_name AMZN_PRODUCTION_CERT
    computed_hash [2] None tt = Ret (0, tt)
  ∧ amzn_verify_image (H0 := roomy_heap) amzn_target_device_name AMZN_PRODUCTION_CERT
      (be_encode 32 6) [1] None tt = Ret (-1, tt).
Proof. split; by vm_compute. Qed.

Lemma find_node_first_witness :
  ∃ p before after,
    find_node check_rsa_node [] [demo_root] None = Ret (Some p)
    ∧ postorder [] [demo_root] = before ++ p :: after
    ∧ check_rsa_node (here p) = Ret true
    ∧ Forall (λ q, check_rsa_node (here q) = Ret false) before.
Proof.
  destruct (find_node check_rsa_node [] [demo_root] None) as [[p|]|] eqn:E; [|by vm_compute in E..].
  destruct (find_node_first check_rsa_node [] [demo_root] (Some p) E) as (b & a & ?).
  by exists p, b, a.
Defined.

Lemma decode_signature_roundtrip_witness :
  decode_signature (H0 := roomy_heap)
    (Asn1 LTC_ASN1_BIT_STRING (Values (concat (byte_bits <$> [170; 7]))) 16 0 false []) tt
  = Ret (Some [170; 7], tt).
Proof. apply (decode_signature_roundtrip [170; 7] 0 false). by repeat constructor. Defined.
