(* ===== verification/Idme.v ===== *)
(** * The device's data store

    [ufbl-features/features/idme]: a table of named items kept in the last
    blocks of a boot partition.  The table is a byte buffer; each item is a
    descriptor of 28 bytes followed by its data, aligned to four bytes. *)

From S2P Require Import Prelude.

Definition CONFIG_MMC_BLOCK_SIZE : Z := 512.
Definition IDME_NUM_OF_EMMC_BLOCKS : Z := 200.
Definition CONFIG_IDME_SIZE : Z := CONFIG_MMC_BLOCK_SIZE * IDME_NUM_OF_EMMC_BLOCKS.
Definition CONFIG_IDME_PARTITION_NUM : Z := 2.
Definition IDME_MAX_NAME_LEN : Z := 16.
Definition IDME_MAX_IDME_ITEM_SIZE : Z := CONFIG_IDME_SIZE.
Definition IDME_ALIGN_SIZE : Z := 4.
Definition IDME_MAGIC_NUMBER : bytes := str "beefdeed".
Definition IDME_VERSION_2P0 : bytes := str "2.0".
Definition IDME_VERSION_2P1 : bytes := str "2.1".
Definition IDME_DEFAULT_VERSION : bytes := IDME_VERSION_2P1.

(** [sizeof(struct idme_desc)] and the offsets of its fields after the name. *)
Definition sizeof_idme_desc : Z := 28.
Definition DESC_SIZE : Z := 16.
Definition DESC_EXPORTABLE : Z := 20.
Definition DESC_PERMISSION : Z := 24.

(** The fields of [struct idme_t]. *)
Definition IDME_VERSION_OFF : Z := 8.
Definition IDME_ITEMS_NUM_OFF : Z := 12.
Definition IDME_ITEM_DATA_OFF : Z := 16.

Record idme_desc := mkDesc {
  desc_name : bytes;
  desc_size : Z;
  desc_exportable : Z;
  desc_permission : Z;
}.

(** An entry of the default table; [value] is a string or a null pointer. *)
Record idme_init_values := mkInit {
  init_desc : idme_desc;
  init_value : option bytes;
}.

Definition item (name : string) (size exportable : Z) (value : option bytes) : idme_init_values :=
  mkInit (mkDesc (str name) size exportable 0x124) value.

Definition idme_default_values : list idme_init_values :=
  let s v := Some (str v) in
  [ item "board_id" 16 1 (s "ffffff0000000000"%string); item "serial" 16 1 (s "0"%string);
    item "mac_addr" 16 1 (s "0"%string); item "mac_sec" 32 1 (s "0"%string);
    item "bt_mac_addr" 16 1 (s "0"%string); item "product_name" 32 1 (s "0"%string);
    item "productid" 32 1 (s "0"%string); item "productid2" 32 1 (s "0"%string);
    item "bootmode" 4 1 (s "1"%string); item "postmode" 4 1 (s "0"%string);
    item "bootcount" 8 1 (s "0"%string); item "manufacturing" 512 1 (Some []);
    item "eth_mac_addr" 16 1 (s "0"%string); item "eth_ip_addr" 16 1 (s "0"%string);
    item "device_type_id" 32 1 (s "0"%string); item "unlock_code" 1024 1 (Some []);
    item "sensorcal" 160 1 (s "0"%string); item "wifi_mfg" 512 1 (s "0"%string);
    item "bt_mfg" 128 1 (s "0"%string); item "fos_flags" 8 1 (s "40"%string);
    item "dev_flags" 8 1 (s "0"%string); item "usr_flags" 8 1 (s "0"%string);
    item "model_name" 256 1 (s "/config/model/Customer_1.ini"%string);
    item "keys" 81920 0 None;
    item "mfr_name" 32 1 (s "0"%string); item "mfr_model" 32 1 (s "0"%string);
    item "product_model" 32 1 (s "0"%string); item "transition_done" 4 1 (s "0"%string);
    item "region" 32 1 (s "US"%string) ].

(** ** The table in its buffer *)

(** [strncmp(lit, p, n) == 0] for a string [lit] given without its NUL. *)
Fixpoint strncmp_is (lit p : bytes) (n : nat) : run bool :=
  match n, p with
  | O, _ => Ret true
  | S _, [] => Crash OutOfBounds
  | S n, c :: p =>
      match lit with
      | [] => Ret (c =? 0)
      | l :: lit => if c =? l then strncmp_is lit p n else Ret false
      end
  end.

(** [-1] for a null pointer, [-2] without the magic number. *)
Definition idme_check_magic_number (pidme : option bytes) : run Z :=
  match pidme with
  | None => mret (-1)
  | Some buf =>
      same ← strncmp_is IDME_MAGIC_NUMBER buf (length IDME_MAGIC_NUMBER);
      mret (if same : bool then 0 else -2)
  end.

(** [IDME_ITEM_NEXT]: the item after the one at [off]. *)
Definition item_step (size : Z) : Z :=
  Z.land (sizeof_idme_desc + size + IDME_ALIGN_SIZE - 1) (Z.lnot (IDME_ALIGN_SIZE - 1)).
Definition idme_item_next (buf : bytes) (off : Z) : run Z :=
  size ← load32 buf (off + DESC_SIZE); mret (off + item_step size).

Section Table.
(** What is read as a string through a null pointer. *)
Context (null_string : run bytes).

Definition value_string (v : option bytes) : run bytes :=
  match v with Some s => mret s | None => null_string end.

(** [IDME_ITEM_INIT]; an item beyond the limit stops the boot in a busy loop. *)
Definition idme_item_init (buf : bytes) (pitem limit : Z) (name : bytes)
    (max_size exportable permission : Z) (item_value : option bytes) : run bytes :=
  if pitem + sizeof_idme_desc + max_size >? limit then Crash Aborted
  else
    buf ← wr buf (pitem + sizeof_idme_desc) (replicate (Z.to_nat max_size) 0);
    value ← value_string item_value;
    buf ← wr buf (pitem + sizeof_idme_desc) (take (Z.to_nat max_size) value);
    buf ← wr buf pitem (replicate (Z.to_nat IDME_MAX_NAME_LEN) 0);
    buf ← wr buf pitem (take (Z.to_nat IDME_MAX_NAME_LEN) name);
    buf ← wr buf (pitem + DESC_SIZE) (le_encode 4 max_size);
    buf ← wr buf (pitem + DESC_EXPORTABLE) (le_encode 4 exportable);
    wr buf (pitem + DESC_PERMISSION) (le_encode 4 permission).

(** The loop of [idme_init_var_v2p0] over the default table. *)
Fixpoint init_items (ptr : list idme_init_values) (buf : bytes) (pitem : Z) : run bytes :=
  match ptr with
  | [] => mret buf
  | v :: ptr =>
      let d := init_desc v in
      buf ← idme_item_init buf pitem CONFIG_IDME_SIZE (desc_name d) (desc_size d)
              (desc_exportable d) (desc_permission d) (init_value v);
      match ptr with
      | [] => mret buf
      | _ :: _ => pitem ← idme_item_next buf pitem; init_items ptr buf pitem
      end
  end.

Definition idme_init_var_v2p0 (defaults : list idme_init_values) (data : bytes) : run bytes :=
  buf ← wr data 0 (replicate (Z.to_nat CONFIG_IDME_SIZE) 0);
  buf ← wr buf 0 IDME_MAGIC_NUMBER;
  buf ← wr buf IDME_VERSION_OFF IDME_VERSION_2P1;
  buf ← init_items defaults buf IDME_ITEM_DATA_OFF;
  wr buf IDME_ITEMS_NUM_OFF (le_encode 4 (zlen defaults)).

(** The search the operations share: the offset of the item called [name]
    among the next [n]. *)
Fixpoint find_item (name buf : bytes) (pitem : Z) (n : nat) : run (option Z) :=
  match n with
  | O => mret None
  | S n =>
      same ← c_streq (drop (Z.to_nat pitem) buf) name;
      if same : bool then mret (Some pitem)
      else pitem ← idme_item_next buf pitem; find_item name buf pitem n
  end.

Definition locate (name buf : bytes) : run (option Z) :=
  items_num ← load32 buf IDME_ITEMS_NUM_OFF;
  find_item name buf IDME_ITEM_DATA_OFF (Z.to_nat items_num).

(** The bytes put into the caller's buffer of [length] bytes; [None] for -1. *)
Definition idme_get_var_v2p0 (name : bytes) (length : Z) (data : option bytes)
    : run (option bytes) :=
  data_presence ← idme_check_magic_number data;
  match data with
  | Some buf =>
      if negb (data_presence =? 0) then mret None
      else
        pitem ← locate name buf;
        match pitem with
        | None => mret None
        | Some pitem =>
            size ← load32 buf (pitem + DESC_SIZE);
            got ← rd buf (pitem + sizeof_idme_desc) (Z.min size length);
            mret (Some got)
        end
  | None => mret None
  end.

(** The table with the item set; [None] for -1. *)
Definition idme_update_var_v2p0 (name : bytes) (value : option bytes) (length : Z)
    (data : option bytes) : run (option bytes) :=
  data_presence ← idme_check_magic_number data;
  match data, value with
  | Some buf, Some value =>
      if negb (data_presence =? 0) then mret None
      else
        pitem ← locate name buf;
        match pitem with
        | None => mret None
        | Some pitem =>
            size ← load32 buf (pitem + DESC_SIZE);
            buf ← wr buf (pitem + sizeof_idme_desc) (replicate (Z.to_nat size) 0);
            v ← rd value 0 (Z.min size length);
            buf ← wr buf (pitem + sizeof_idme_desc) v;
            mret (Some buf)
        end
  | _, _ => mret None
  end.

(** The descriptor of an item, as its offset. *)
Definition idme_get_item_desc_v2p0 (data : option bytes) (item_name : bytes) : run (option Z) :=
  data_presence ← idme_check_magic_number data;
  match data with
  | Some buf => if negb (data_presence =? 0) then mret None else locate item_name buf
  | None => mret None
  end.

(** The search of [idme_update_table_v2p0], with [strncmp] over 16 characters. *)
Fixpoint find_item_n (name buf : bytes) (pitem : Z) (n : nat) : run (option Z) :=
  match n with
  | O => mret None
  | S n =>
      same ← strncmp_is name (drop (Z.to_nat pitem) buf) (Z.to_nat IDME_MAX_NAME_LEN);
      if same : bool then mret (Some pitem)
      else pitem ← idme_item_next buf pitem; find_item_n name buf pitem n
  end.

(** One entry of the template: the new buffer, the next new item, the counts of
    added items, and whether a size differs. *)
Definition update_entry (old : bytes) (v : idme_init_values) (new : bytes) (pnew : Z)
    (added : Z) (differs : bool) : run (bytes * Z * Z * bool) :=
  let d := init_desc v in
  items_num ← load32 old IDME_ITEMS_NUM_OFF;
  found ← find_item_n (desc_name d) old IDME_ITEM_DATA_OFF (Z.to_nat items_num);
  match found with
  | Some pitem =>
      size ← load32 old (pitem + DESC_SIZE);
      name ← c_str (drop (Z.to_nat pitem) old);
      exportable ← load32 old (pitem + DESC_EXPORTABLE);
      permission ← load32 old (pitem + DESC_PERMISSION);
      new ← idme_item_init new pnew CONFIG_IDME_SIZE name (desc_size d) exportable permission
              (init_value v);
      let size_differ := s32 (desc_size d - size) in
      new ← (if 0 <=? size_differ
             then data ← rd old (pitem + sizeof_idme_desc) size;
                  wr new (pnew + sizeof_idme_desc) data
             else mret new);
      pnew ← idme_item_next new pnew;
      mret (new, pnew, added, differs || negb (size_differ =? 0))
  | None =>
      new ← idme_item_init new pnew CONFIG_IDME_SIZE (desc_name d) (desc_size d)
              (desc_exportable d) (desc_permission d) (init_value v);
      pnew ← idme_item_next new pnew;
      mret (new, pnew, added + 1, differs)
  end.

Fixpoint update_entries (old : bytes) (vs : list idme_init_values) (new : bytes) (pnew : Z)
    (added : Z) (differs : bool) : run (bytes * Z * bool) :=
  match vs with
  | [] => mret (new, added, differs)
  | v :: vs =>
      r ← update_entry old v new pnew added differs;
      let '(new, pnew, added, differs) := r in
      update_entries old vs new pnew added differs
  end.

End Table.

(** ** The store on its device *)

(** The eMMC driver: the device if there is one, its hardware partitions, and
    transfers of blocks with the number of blocks done. *)
Class Mmc (D : Type) := {
  find_mmc_device : D → bool;
  mmc_switch_part : Z → D → Z * D;
  mmc_capacity : D → Z;
  block_read : Z → Z → D → Z * bytes * D;
  block_write : Z → Z → bytes → D → Z * D;
}.

(** The globals of [cmd_idme.c]: the buffer, whether [pidme_data] points to it,
    and whether the version-2 functions are installed. *)
Record IdmeState (D : Type) := mkIdme {
  gidme_buff : bytes;
  pidme_set : bool;
  v2_functions : bool;
  mmc : D;
}.
Arguments mkIdme {D} _ _ _ _.
Arguments gidme_buff {D} _.
Arguments pidme_set {D} _.
Arguments v2_functions {D} _.
Arguments mmc {D} _.

Section Store.
Context {D : Type} `{Mmc D} `{Heap (IdmeState D)} (null_string : run bytes).
Context (defaults : list idme_init_values).
Implicit Types st : IdmeState D.

Definition on_mmc {A} (f : D → A * D) : comp (IdmeState D) A := fun st =>
  let '(a, d) := f (mmc st) in Ret (a, mkIdme (gidme_buff st) (pidme_set st) (v2_functions st) d).
Definition set_buff (buf : bytes) : comp (IdmeState D) unit := fun st =>
  Ret (tt, mkIdme buf (pidme_set st) (v2_functions st) (mmc st)).
Definition set_pidme (b : bool) : comp (IdmeState D) unit := fun st =>
  Ret (tt, mkIdme (gidme_buff st) b (v2_functions st) (mmc st)).
Definition set_functions (b : bool) : comp (IdmeState D) unit := fun st =>
  Ret (tt, mkIdme (gidme_buff st) (pidme_set st) b (mmc st)).
Definition get_idme : comp (IdmeState D) (IdmeState D) := fun st => Ret (st, st).

(** [pidme_data] *)
Definition pidme_data st : option bytes := if pidme_set st then Some (gidme_buff st) else None.

Definition idme_block st : Z :=
  u64 (mmc_capacity (mmc st) - IDME_NUM_OF_EMMC_BLOCKS * CONFIG_MMC_BLOCK_SIZE)
  / CONFIG_MMC_BLOCK_SIZE.

(** Reads the table into [gidme_buff], which stays as it is before the transfer. *)
Definition idme_platform_read : comp (IdmeState D) Z :=
  st ← get_idme;
  if negb (find_mmc_device (mmc st)) then mret (-1) else
  rc ← on_mmc (mmc_switch_part CONFIG_IDME_PARTITION_NUM);
  if negb (rc =? 0) then mret (-1) else
  st ← get_idme;
  r ← on_mmc (block_read (idme_block st) IDME_NUM_OF_EMMC_BLOCKS);
  let '(nread, data) := r in
  buf ← lift (wr (gidme_buff st) 0 data);
  set_buff buf;;
  rc ← on_mmc (mmc_switch_part 0);
  if negb (rc =? 0) then mret (-1)
  else mret (if s32 nread <? 0 then -1 else 0).

(** Writes the table at [pidme_data]. *)
Definition idme_platform_write : comp (IdmeState D) Z :=
  st ← get_idme;
  match pidme_data st with
  | None => mret (-1)
  | Some pbuf =>
      if negb (find_mmc_device (mmc st)) then mret (-1) else
      rc ← on_mmc (mmc_switch_part CONFIG_IDME_PARTITION_NUM);
      if negb (rc =? 0) then mret (-1) else
      st ← get_idme;
      nwrite ← on_mmc (block_write (idme_block st) IDME_NUM_OF_EMMC_BLOCKS pbuf);
      rc ← on_mmc (mmc_switch_part 0);
      if negb (rc =? 0) then mret (-1)
      else mret (if s32 nwrite <? 0 then -1 else 0)
  end.

Definition idme_null_func : comp (IdmeState D) Z := set_functions false;; mret 0.

Definition idme_clean : comp (IdmeState D) Z :=
  st ← get_idme;
  data_presence ← lift (idme_check_magic_number (pidme_data st));
  if negb (data_presence =? 0) then mret (-1) else
  buf ← lift (wr (gidme_buff st) 0 (replicate (Z.to_nat CONFIG_IDME_SIZE) 0));
  set_buff buf;;
  rc ← idme_platform_write;
  set_pidme false;;
  mret (if negb (rc =? 0) then -1 else 0).

(** [idme_get_var], [idme_update_var] through the function pointers. *)
Definition idme_get_var (name : bytes) (length : Z) : comp (IdmeState D) (option bytes) :=
  st ← get_idme; lift (idme_get_var_v2p0 name length (pidme_data st)).

Definition idme_update_var (name : bytes) (value : option bytes) (length : Z)
    : comp (IdmeState D) Z :=
  st ← get_idme;
  r ← lift (idme_update_var_v2p0 name value length (pidme_data st));
  match r with
  | None => mret (-1)
  | Some buf => set_buff buf;; mret 0
  end.

(** -2 without the functions, -1 without the item. *)
Definition idme_get_var_external (name : bytes) (length : Z)
    : comp (IdmeState D) (Z * option bytes) :=
  st ← get_idme;
  if negb (v2_functions st) then mret (-2, None)
  else got ← idme_get_var name length;
       mret (match got with Some b => (0, Some b) | None => (-1, None) end).

Definition idme_update_var_ex (name value : option bytes) (length : Z) : comp (IdmeState D) Z :=
  match name, value with
  | Some name, Some value =>
      st ← get_idme;
      if v2_functions st then
        rc ← idme_update_var name (Some value) length;
        if negb (rc =? 0) then mret (-1) else
        rc ← idme_platform_write;
        mret (if negb (rc =? 0) then -1 else 0)
      else mret (-1)
  | _, _ => mret (-1)
  end.

(** [atoi] and [atoui] without the standard library. *)
Fixpoint atoui_from (s : bytes) (i : Z) : run Z :=
  match s with
  | [] => Crash OutOfBounds
  | c :: s => if (48 <=? c) && (c <=? 57) then atoui_from s (s32 (i * 10 + c - 48)) else mret i
  end.
Definition atoui (s : bytes) : run Z := i ← atoui_from s 0; mret (u32 i).
Definition atoi (s : bytes) : run Z :=
  match s with
  | 45 :: s => i ← atoui_from s 0; mret (s32 (- i))
  | _ => atoui_from s 0
  end.

(** [snprintf(buf, size, "%d", value)]: the text cut to the buffer. *)
Definition decimal (v : Z) : bytes := if v <? 0 then 45 :: dec_of_Z (- v) else dec_of_Z v.
Definition snprintf_d (buf : bytes) (size value : Z) : run bytes :=
  wr buf 0 (take (Z.to_nat (size - 1)) (decimal (s32 value)) ++ [0]).

(** The boot counter goes up by one, unless it is 99999999. *)
Definition idme_boot_info : comp (IdmeState D) unit :=
  let boot_count_str := replicate 9 0 in
  st ← get_idme;
  if negb (v2_functions st) then mret tt else
  got ← idme_get_var (str "bootcount") 9;
  match got with
  | None => mret tt
  | Some got =>
      boot_count_str ← lift (wr boot_count_str 0 got);
      value ← lift (atoui boot_count_str);
      if value =? 99999999 then mret tt
      else
        boot_count_str ← lift (snprintf_d boot_count_str 9 (u32 (value + 1)));
        idme_update_var_ex (Some (str "bootcount")) (Some boot_count_str) IDME_MAX_IDME_ITEM_SIZE;;
        mret tt
  end.

Definition idme_boot_mode : comp (IdmeState D) Z :=
  let bootmode := replicate 6 0 in
  st ← get_idme;
  if negb (v2_functions st) then mret (-1) else
  got ← idme_get_var (str "bootmode") 6;
  match got with
  | None => mret (-1)
  | Some got =>
      bootmode ← lift (wr bootmode 0 got);
      value ← lift (atoi bootmode);
      mret (if value <? 0 then -1 else value)
  end.

Definition idme_update_table_v2p0 (data : option bytes) : comp (IdmeState D) (Z * option bytes) :=
  data_presence ← lift (idme_check_magic_number data);
  match data with
  | None => mret (-1, data)
  | Some pidme =>
      if negb (data_presence =? 0) then mret (-1, data) else
      same ← lift (strncmp_is IDME_DEFAULT_VERSION (drop (Z.to_nat IDME_VERSION_OFF) pidme)
                     (length IDME_DEFAULT_VERSION));
      if negb same then mret (-1, data) else
      ok ← malloc CONFIG_IDME_SIZE;
      if negb ok then mret (-1, data) else
      magic ← lift (rd pidme 0 8);
      version ← lift (rd pidme IDME_VERSION_OFF 4);
      items_num ← lift (load32 pidme IDME_ITEMS_NUM_OFF);
      new ← lift (wr (replicate (Z.to_nat CONFIG_IDME_SIZE) 0) 0 magic);
      new ← lift (wr new IDME_VERSION_OFF version);
      r ← lift (update_entries null_string pidme defaults new IDME_ITEM_DATA_OFF 0 false);
      let '(new, added, differs) := r in
      let deleted := s32 (items_num + added - zlen defaults) in
      if negb (added =? 0) || negb (deleted =? 0) || differs then
        new ← lift (wr new IDME_ITEMS_NUM_OFF (le_encode 4 (zlen defaults)));
        pidme ← lift (wr pidme 0 new);
        mret (0, Some pidme)
      else mret (-2, data)
  end.

(** The versions the table may have, and whether the functions of version 2
    serve them. *)
Definition idme_ver_table : list (bytes * bool) :=
  [(str "1.2", false); (IDME_VERSION_2P0, true); (IDME_VERSION_2P1, true); (str "3.0", false)].

Fixpoint select_version (tab : list (bytes * bool)) (version : bytes) : comp (IdmeState D) unit :=
  match tab with
  | [] => mret tt
  | (v, two) :: tab =>
      same ← lift (strncmp_is v version (length v));
      if same : bool then (if two : bool then set_functions true else idme_null_func;; mret tt)
      else select_version tab version
  end.

Definition idme_initialize : comp (IdmeState D) Z :=
  st ← get_idme;
  if pidme_set st then mret 0 else
  set_buff (replicate (Z.to_nat CONFIG_IDME_SIZE) 0);;
  rc ← idme_platform_read;
  if negb (rc =? 0) then mret (-1) else
  set_pidme true;;
  st ← get_idme;
  iTmp ← lift (idme_check_magic_number (pidme_data st));
  (if iTmp =? -2 then
     buf ← lift (wr (gidme_buff st) 0 IDME_MAGIC_NUMBER);
     buf ← lift (wr buf IDME_VERSION_OFF IDME_DEFAULT_VERSION);
     set_buff buf
   else mret tt);;
  st ← get_idme;
  select_version idme_ver_table (drop (Z.to_nat IDME_VERSION_OFF) (gidme_buff st));;
  st ← get_idme;
  if (iTmp =? -2) && v2_functions st then
    buf ← lift (idme_init_var_v2p0 null_string defaults (gidme_buff st));
    set_buff buf;;
    rc ← idme_platform_write;
    mret (if negb (rc =? 0) then -1 else 0)
  else if v2_functions st then
    r ← idme_update_table_v2p0 (pidme_data st);
    match r with
    | (0, Some buf) =>
        set_buff buf;;
        rc ← idme_platform_write;
        mret (if negb (rc =? 0) then -1 else 0)
    | _ => mret 0
    end
  else mret 0.

End Store.
