(* ===== verification/IdmeSpec.v ===== *)
(** * The data store as a list of named items

    The byte table of [Idme] represents a list of entries; its operations are
    the list's operations. *)

From S2P Require Import Prelude Idme.

(** ** Entries and their layout *)

Record entry := mkEntry {
  e_name : bytes;
  e_exportable : Z;
  e_permission : Z;
  e_data : bytes;
}.

Definition e_size (e : entry) : Z := zlen (e_data e).

Definition entry_wf (e : entry) : Prop :=
  Forall (λ c, c ≠ 0) (e_name e) ∧ zlen (e_name e) < IDME_MAX_NAME_LEN
  ∧ is_u32 (e_size e) ∧ is_u32 (e_exportable e) ∧ is_u32 (e_permission e).

Definition name_field (name : bytes) : bytes :=
  name ++ replicate (16 - length name) 0.

Definition encode_desc (e : entry) : bytes :=
  name_field (e_name e) ++ le_encode 4 (e_size e) ++ le_encode 4 (e_exportable e)
  ++ le_encode 4 (e_permission e).

Fixpoint items_at (buf : bytes) (off : Z) (es : list entry) : Prop :=
  match es with
  | [] => True
  | e :: es =>
      slice buf off sizeof_idme_desc = encode_desc e
      ∧ slice buf (off + sizeof_idme_desc) (e_size e) = e_data e
      ∧ off + sizeof_idme_desc + e_size e ≤ zlen buf
      ∧ items_at buf (off + item_step (e_size e)) es
  end.

(** Where the entries after [es] start. *)
Definition items_end (off : Z) (es : list entry) : Z :=
  foldl (fun off e => off + item_step (e_size e)) off es.

(** The table in [buf] holds the entries [es]. *)
Definition idme_repr (buf : bytes) (es : list entry) : Prop :=
  zlen buf = CONFIG_IDME_SIZE ∧ slice buf 0 8 = IDME_MAGIC_NUMBER
  ∧ slice buf IDME_ITEMS_NUM_OFF 4 = le_encode 4 (zlen es) ∧ is_u32 (zlen es)
  ∧ Forall entry_wf es ∧ items_at buf IDME_ITEM_DATA_OFF es.

(** ** Layout lemmas *)

Lemma item_step_bound size : 0 ≤ size → sizeof_idme_desc + size ≤ item_step size.
Proof.
  intros Hs. unfold item_step, sizeof_idme_desc, IDME_ALIGN_SIZE.
  change (Z.lnot (4 - 1)) with (Z.lnot (Z.ones 2)). rewrite <- Z.ldiff_land.
  rewrite Z.ldiff_ones_r, Z.shiftl_mul_pow2, Z.shiftr_div_pow2 by lia.
  change (2 ^ 2) with 4. pose proof (Z.mod_pos_bound (28 + size + 4 - 1) 4).
  pose proof (Z.div_mod (28 + size + 4 - 1) 4). lia.
Qed.

Lemma e_size_nonneg e : 0 ≤ e_size e.
Proof. apply zlen_nonneg. Qed.
#[local] Hint Resolve e_size_nonneg : core.

Lemma name_field_length name : zlen name < IDME_MAX_NAME_LEN → zlen (name_field name) = 16.
Proof.
  unfold name_field, zlen, IDME_MAX_NAME_LEN. rewrite length_app, length_replicate. lia.
Qed.

Lemma zlen_le_encode n x : zlen (le_encode n x) = Z.of_nat n.
Proof. unfold zlen. by rewrite le_encode_length. Qed.

Lemma encode_desc_length e : entry_wf e → zlen (encode_desc e) = sizeof_idme_desc.
Proof.
  intros (_ & Hn & _). unfold encode_desc.
  rewrite !zlen_app, name_field_length, !zlen_le_encode by done. done.
Qed.

Lemma slice_app_at (l k : bytes) off n : off = zlen l → slice (l ++ k) off n = slice k 0 n.
Proof. intros ->. rewrite slice_app_skip by lia. f_equal. lia. Qed.

(** A field of a descriptor, from the descriptor's bytes. *)
Lemma load32_slice buf off d k x :
  0 ≤ off → 0 ≤ k → k + 4 ≤ sizeof_idme_desc → slice buf off sizeof_idme_desc = d →
  zlen d = sizeof_idme_desc → off + sizeof_idme_desc ≤ zlen buf →
  slice d k 4 = le_encode 4 x → is_u32 x → load32 buf (off + k) = Ret x.
Proof.
  unfold sizeof_idme_desc. intros Ho Hk Hk4 Hd Hl Hb Hx Hu. unfold load32.
  rewrite rd_ok by lia. cbn [mbind run_bind].
  rewrite <- (slice_slice buf off 28 k 4) by lia. rewrite Hd, Hx. unfold mret, run_ret.
  rewrite le_decode_encode. f_equal. change (256 ^ Z.of_nat 4) with 0x100000000.
  apply Z.mod_small. done.
Qed.

Section Desc.
Context (buf : bytes) (off : Z) (e : entry).
Context (Hoff : 0 ≤ off) (Hwf : entry_wf e).
Context (Hd : slice buf off sizeof_idme_desc = encode_desc e).
Context (Hb : off + sizeof_idme_desc + e_size e ≤ zlen buf).

Lemma desc_fits : off + sizeof_idme_desc ≤ zlen buf.
Proof. pose proof (e_size_nonneg e). lia. Qed.

Lemma load_size : load32 buf (off + DESC_SIZE) = Ret (e_size e).
Proof.
  pose proof (encode_desc_length e Hwf). destruct Hwf as (_ & Hn & Hs & _).
  eapply load32_slice; try done; [apply desc_fits|].
  unfold encode_desc. rewrite slice_app_at by (by rewrite name_field_length).
  by rewrite slice_app_take.
Qed.

Lemma load_exportable : load32 buf (off + DESC_EXPORTABLE) = Ret (e_exportable e).
Proof.
  pose proof (encode_desc_length e Hwf). destruct Hwf as (_ & Hn & Hs & He & _).
  eapply load32_slice; try done; [apply desc_fits|].
  unfold encode_desc. rewrite app_assoc, slice_app_at
    by (by rewrite zlen_app, name_field_length, zlen_le_encode).
  by rewrite slice_app_take.
Qed.

Lemma load_permission : load32 buf (off + DESC_PERMISSION) = Ret (e_permission e).
Proof.
  pose proof (encode_desc_length e Hwf). destruct Hwf as (_ & Hn & Hs & _ & Hp).
  eapply load32_slice; try done; [apply desc_fits|].
  unfold encode_desc. rewrite (app_assoc _ (le_encode 4 (e_size e))), app_assoc, slice_app_at
    by (by rewrite !zlen_app, name_field_length, !zlen_le_encode).
  by rewrite slice_full.
Qed.

(** The descriptor starts with its name and a NUL. *)
Lemma desc_name_nul : ∃ rest, drop (Z.to_nat off) buf = e_name e ++ 0 :: rest.
Proof.
  destruct Hwf as (_ & Hn & _). unfold zlen, IDME_MAX_NAME_LEN in Hn.
  pose proof Hd as Hd'. unfold slice, encode_desc, name_field in Hd'.
  replace (16 - length (e_name e))%nat with (S (15 - length (e_name e))) in Hd' by lia.
  rewrite <- (take_drop (Z.to_nat sizeof_idme_desc) (drop (Z.to_nat off) buf)), Hd'.
  eexists. rewrite <- !app_assoc. reflexivity.
Qed.

Lemma name_is name :
  Forall (λ c, c ≠ 0) name →
  c_streq (drop (Z.to_nat off) buf) name = Ret (bool_decide (e_name e = name)).
Proof.
  intros Hname. destruct desc_name_nul as [rest ->]. apply c_streq_app; [apply Hwf|done].
Qed.

Lemma next_item : idme_item_next buf off = Ret (off + item_step (e_size e)).
Proof. unfold idme_item_next. by rewrite load_size. Qed.

End Desc.

(** ** Lookup *)

Fixpoint get_entry (name : bytes) (es : list entry) : option entry :=
  match es with
  | [] => None
  | e :: es => if bool_decide (e_name e = name) then Some e else get_entry name es
  end.

Fixpoint entry_offset (name : bytes) (off : Z) (es : list entry) : option Z :=
  match es with
  | [] => None
  | e :: es => if bool_decide (e_name e = name) then Some off
               else entry_offset name (off + item_step (e_size e)) es
  end.

Lemma item_step_pos e : 0 < item_step (e_size e).
Proof.
  pose proof (item_step_bound (e_size e) (e_size_nonneg e)). pose proof (e_size_nonneg e).
  unfold sizeof_idme_desc in *. lia.
Qed.

Lemma find_item_spec buf name : Forall (λ c, c ≠ 0) name → ∀ es off,
  0 ≤ off → Forall entry_wf es → items_at buf off es →
  find_item name buf off (length es) = Ret (entry_offset name off es).
Proof.
  intros Hname. induction es as [|e es IH]; intros off Hoff Hwf Hat; [done|].
  apply Forall_cons in Hwf as [He Hwf]. destruct Hat as (Hd & Hdata & Hb & Hat).
  cbn [length find_item entry_offset]. rewrite (name_is buf off e) by done.
  cbn [mbind run_bind]. case_bool_decide; [done|].
  rewrite (next_item buf off e) by done. cbn [mbind run_bind].
  apply IH; [pose proof (item_step_pos e); lia|done|done].
Qed.

(** The entry found at an offset. *)
Lemma entry_offset_get buf name es : ∀ off,
  0 ≤ off → Forall entry_wf es → items_at buf off es →
  match entry_offset name off es with
  | Some p => ∃ e, get_entry name es = Some e ∧ 0 ≤ p ∧ entry_wf e
      ∧ slice buf p sizeof_idme_desc = encode_desc e
      ∧ slice buf (p + sizeof_idme_desc) (e_size e) = e_data e
      ∧ p + sizeof_idme_desc + e_size e ≤ zlen buf
  | None => get_entry name es = None
  end.
Proof.
  induction es as [|e es IH]; intros off Hoff Hwf Hat; [done|].
  apply Forall_cons in Hwf as [He Hwf]. destruct Hat as (Hd & Hdata & Hb & Hat). simpl.
  case_bool_decide; [by exists e|].
  apply IH; [pose proof (item_step_pos e); lia|done|done].
Qed.

Lemma magic_present buf : slice buf 0 8 = IDME_MAGIC_NUMBER → idme_check_magic_number (Some buf) = Ret 0.
Proof.
  intros Hm. unfold idme_check_magic_number.
  rewrite <- (take_drop 8 buf). change (take 8 buf) with (slice buf 0 8). rewrite Hm. done.
Qed.

Lemma locate_spec buf es name :
  Forall (λ c, c ≠ 0) name → idme_repr buf es →
  locate name buf = Ret (entry_offset name IDME_ITEM_DATA_OFF es).
Proof.
  intros Hname (Hl & Hm & Hn & Hu & Hwf & Hat). unfold locate, load32.
  rewrite rd_ok by (rewrite ?Hl; done). cbn [mbind run_bind]. rewrite Hn. unfold mret, run_ret.
  rewrite le_decode_encode. change (256 ^ Z.of_nat 4) with 0x100000000.
  rewrite Z.mod_small by apply Hu. cbn [mbind run_bind]. unfold zlen. rewrite Nat2Z.id.
  by apply find_item_spec.
Qed.

Lemma get_var_repr buf es name len :
  Forall (λ c, c ≠ 0) name → idme_repr buf es → 0 ≤ len →
  idme_get_var_v2p0 name len (Some buf)
  = Ret (e ← get_entry name es; Some (take (Z.to_nat len) (e_data e))).
Proof.
  intros Hname Hr Hlen. unfold idme_get_var_v2p0. rewrite magic_present by apply Hr.
  cbn [mbind run_bind]. rewrite (locate_spec buf es) by done. cbn.
  destruct Hr as (Hl & _ & _ & _ & Hwf & Hat).
  pose proof (entry_offset_get buf name es IDME_ITEM_DATA_OFF ltac:(done) Hwf Hat) as He.
  destruct (entry_offset _ _ _) as [p|]; [|by rewrite He].
  destruct He as (e & -> & Hp & Hew & Hd & Hdata & Hb).
  rewrite (load_size buf p e) by done. cbn.
  pose proof (e_size_nonneg e).
  rewrite rd_ok by (unfold sizeof_idme_desc in *; lia). cbn. do 2 f_equal.
  rewrite <- Hdata at 1. unfold slice. rewrite take_take. f_equal. lia.
Qed.

(** ** Update *)

(** The data of the first item of that name replaced. *)
Fixpoint set_entry (name : bytes) (f : entry → bytes) (es : list entry) : list entry :=
  match es with
  | [] => []
  | e :: es => if bool_decide (e_name e = name)
               then mkEntry (e_name e) (e_exportable e) (e_permission e) (f e) :: es
               else e :: set_entry name f es
  end.

(** What an item holds after [value], [len] bytes of it, is stored. *)
Definition stored (value : bytes) (len : Z) (e : entry) : bytes :=
  take (Z.to_nat (Z.min (e_size e) len)) value
  ++ replicate (Z.to_nat (e_size e - Z.min (e_size e) len)) 0.

Lemma wr_wr l off s1 l1 s2 l2 :
  wr l off s1 = Ret l1 → wr l1 off s2 = Ret l2 → zlen s2 ≤ zlen s1 →
  wr l off (s2 ++ drop (length s2) s1) = Ret l2.
Proof.
  intros (H0 & Hb & ->)%wr_Ret (_ & _ & ->)%wr_Ret Hs. unfold zlen in *.
  rewrite wr_ok; [|done|unfold zlen; rewrite length_app, length_drop; lia].
  f_equal. unfold zlen. rewrite length_app, length_drop.
  rewrite take_app_length' by (rewrite length_take; lia). rewrite <- !app_assoc. do 2 f_equal.
  replace (Z.to_nat (off + Z.of_nat (length s2)))
    with (length (take (Z.to_nat off) l) + length s2)%nat by (rewrite length_take; lia).
  rewrite <- drop_drop, drop_app_length, drop_app_le by lia. do 2 f_equal. lia.
Qed.

Lemma items_at_other buf p src buf' off es :
  wr buf p src = Ret buf' → 0 ≤ off → p + zlen src ≤ off →
  items_at buf off es → items_at buf' off es.
Proof.
  intros Hw. revert off. induction es as [|e es IH]; intros off Hoff Hp; [done|].
  intros (Hd & Hdata & Hb & Hat). pose proof (e_size_nonneg e). pose proof (item_step_pos e).
  unfold sizeof_idme_desc in *. simpl. split_and!.
  - rewrite <- Hd. eapply slice_wr_other; [done|lia..].
  - rewrite <- Hdata. eapply slice_wr_other; [done|lia..].
  - by rewrite (wr_length _ _ _ _ Hw).
  - apply IH; [lia..|done].
Qed.

Lemma set_entry_at buf name f es : ∀ off p buf',
  0 ≤ off → Forall entry_wf es → items_at buf off es →
  (∀ e, get_entry name es = Some e → zlen (f e) = e_size e) →
  entry_offset name off es = Some p →
  (∀ e, get_entry name es = Some e → wr buf (p + sizeof_idme_desc) (f e) = Ret buf') →
  off ≤ p ∧ items_at buf' off (set_entry name f es).
Proof.
  induction es as [|e es IH]; intros off p buf' Hoff Hwf Hat Hf Hp Hw; [done|].
  apply Forall_cons in Hwf as [He Hwf]. destruct Hat as (Hd & Hdata & Hb & Hat).
  pose proof (e_size_nonneg e). pose proof (item_step_bound (e_size e) ltac:(done)).
  simpl in *. case_bool_decide.
  - injection Hp as <-. specialize (Hw e eq_refl). specialize (Hf e eq_refl). split; [lia|].
    set (e' := mkEntry _ _ _ _). assert (He' : e_size e' = e_size e) by exact Hf.
    assert (Hdesc : encode_desc e' = encode_desc e) by (unfold encode_desc; by rewrite He').
    unfold sizeof_idme_desc in *. cbn [items_at]. rewrite Hdesc, He'. split_and!.
    + rewrite <- Hd. eapply slice_wr_other; [done|lia..].
    + rewrite <- Hf. by eapply slice_wr_same.
    + by rewrite (wr_length _ _ _ _ Hw).
    + eapply items_at_other; [done|lia..|done].
  - destruct (IH (off + item_step (e_size e)) p buf') as [Hle Hat']; try done.
    { pose proof (item_step_pos e). lia. }
    split; [pose proof (item_step_pos e); lia|].
    destruct (get_entry name es) as [e'|] eqn:Hg.
    2: { exfalso. pose proof (entry_offset_get buf name es (off + item_step (e_size e))) as Hx.
         rewrite Hp in Hx. destruct Hx as (? & Hx & _); [pose proof (item_step_pos e); lia|done..|].
         congruence. }
    specialize (Hw e' eq_refl). unfold sizeof_idme_desc in *. simpl. split_and!; [..|done].
    + rewrite <- Hd. eapply slice_wr_other; [done|lia..].
    + rewrite <- Hdata. eapply slice_wr_other; [done|lia..].
    + by rewrite (wr_length _ _ _ _ Hw).
Qed.

Lemma set_entry_length name f es : length (set_entry name f es) = length es.
Proof. induction es; simpl; [done|]. case_bool_decide; simpl; congruence. Qed.

Lemma set_entry_wf name f es :
  (∀ e, get_entry name es = Some e → zlen (f e) = e_size e) →
  Forall entry_wf es → Forall entry_wf (set_entry name f es).
Proof.
  induction es as [|e es IH]; intros Hf Hwf; simpl in *; [done|].
  apply Forall_cons in Hwf as [He Hwf]. case_bool_decide; constructor; auto.
  destruct He as (? & ? & ? & ? & ?). unfold entry_wf, e_size in *. simpl.
  by rewrite Hf.
Qed.

Lemma stored_length value len e :
  0 ≤ len → Z.min (e_size e) len ≤ zlen value → zlen (stored value len e) = e_size e.
Proof.
  intros Hlen Hv. pose proof (e_size_nonneg e). unfold stored, zlen in *.
  rewrite length_app, length_take, length_replicate. lia.
Qed.

Lemma slice_header buf buf' p src a n :
  wr buf p src = Ret buf' → IDME_ITEM_DATA_OFF ≤ p → 0 ≤ a → 0 ≤ n → a + n ≤ IDME_ITEM_DATA_OFF →
  slice buf' a n = slice buf a n.
Proof. intros. eapply slice_wr_other; [done|lia..]. Qed.

(** The two writes of an update are one. *)
Lemma store_data buf off value len e :
  0 ≤ off → 0 ≤ len → off + e_size e ≤ zlen buf → Z.min (e_size e) len ≤ zlen value →
  ∃ buf1 buf2 v, wr buf off (replicate (Z.to_nat (e_size e)) 0) = Ret buf1
    ∧ rd value 0 (Z.min (e_size e) len) = Ret v ∧ wr buf1 off v = Ret buf2
    ∧ wr buf off (stored value len e) = Ret buf2.
Proof.
  intros Ho Hlen Hb Hv. pose proof (e_size_nonneg e).
  set (zeros := replicate (Z.to_nat (e_size e)) 0).
  assert (Hz : zlen zeros = e_size e) by (unfold zeros; rewrite zlen_replicate; lia).
  destruct (wr buf off zeros) as [buf1|] eqn:Hw1; [|rewrite wr_ok in Hw1 by lia; done].
  rewrite rd_ok by lia. set (v := slice value 0 _).
  assert (Hvl : zlen v = Z.min (e_size e) len) by (apply zlen_slice; lia).
  destruct (wr buf1 off v) as [buf2|] eqn:Hw2.
  2: { rewrite wr_ok in Hw2; [done|lia|]. rewrite (wr_length _ _ _ _ Hw1). lia. }
  exists buf1, buf2, v. split_and!; try done.
  rewrite <- (wr_wr _ _ _ _ _ _ Hw1 Hw2) by lia. unfold stored, v, slice. f_equal. f_equal.
  unfold zeros. rewrite drop_replicate. f_equal. unfold zlen in Hvl.
  change (take _ (drop _ value)) with v. lia.
Qed.

(** An update of an item that is there. *)
Lemma update_var_repr buf es name value len e :
  Forall (λ c, c ≠ 0) name → idme_repr buf es → 0 ≤ len → get_entry name es = Some e →
  Z.min (e_size e) len ≤ zlen value →
  ∃ buf', idme_update_var_v2p0 name (Some value) len (Some buf) = Ret (Some buf')
    ∧ idme_repr buf' (set_entry name (stored value len) es)
    ∧ slice buf' 0 IDME_ITEM_DATA_OFF = slice buf 0 IDME_ITEM_DATA_OFF.
Proof.
  intros Hname Hr Hlen Hg Hv. pose proof Hr as (Hl & Hm & Hn & Hu & Hwf & Hat).
  unfold idme_update_var_v2p0. rewrite magic_present by done. cbn [mbind run_bind].
  rewrite (locate_spec buf es) by done. cbn.
  pose proof (entry_offset_get buf name es IDME_ITEM_DATA_OFF ltac:(done) Hwf Hat) as He.
  destruct (entry_offset _ _ _) as [p|] eqn:Hp; [|congruence].
  destruct He as (e' & He' & Hp0 & Hew & Hd & Hdata & Hb). assert (e' = e) as -> by congruence.
  rewrite (load_size buf p e) by done. cbn. pose proof (e_size_nonneg e).
  destruct (store_data buf (p + sizeof_idme_desc) value len e)
    as (buf1 & buf2 & v & -> & Hv1 & Hw2 & Hw); [unfold sizeof_idme_desc in *; lia|done..|].
  cbn. rewrite Hv1. cbn. rewrite Hw2. cbn.
  exists buf2. split; [done|].
  destruct (set_entry_at buf name (stored value len) es IDME_ITEM_DATA_OFF p buf2) as [Hle Hat'];
    try done.
  { intros x ?. assert (x = e) as -> by congruence. by apply stored_length. }
  { intros x ?. assert (x = e) as -> by congruence. done. }
  assert (Hh : ∀ a n, 0 ≤ a → 0 ≤ n → a + n ≤ IDME_ITEM_DATA_OFF → slice buf2 a n = slice buf a n).
  { intros a n. eapply slice_header; [done|]. unfold sizeof_idme_desc; lia. }
  split; [|by apply Hh]. unfold idme_repr. rewrite !Hh by done.
  rewrite (wr_length _ _ _ _ Hw). unfold zlen at 2 3. rewrite set_entry_length.
  split_and!; try done. apply set_entry_wf; [|done].
  intros x ?. assert (x = e) as -> by congruence. by apply stored_length.
Qed.

Lemma get_set_entry name f es other :
  (∀ e, get_entry name es = Some e → zlen (f e) = e_size e) →
  get_entry other (set_entry name f es)
  = if bool_decide (other = name)
    then e ← get_entry name es;
         Some (mkEntry (e_name e) (e_exportable e) (e_permission e) (f e))
    else get_entry other es.
Proof.
  induction es as [|e es IH]; intros Hf; simpl in *; [by case_bool_decide|].
  destruct (decide (e_name e = name)) as [Hn|Hn].
  - rewrite (bool_decide_true (e_name e = name)) by done. simpl.
    destruct (decide (other = name)) as [->|Ho].
    + by rewrite !bool_decide_true by done.
    + by rewrite !(bool_decide_false (_ = other)), (bool_decide_false (other = name)) by congruence.
  - rewrite (bool_decide_false (e_name e = name)) in * by done. simpl. rewrite (IH Hf).
    repeat case_bool_decide; congruence.
Qed.

Lemma update_var_absent buf es name value len :
  Forall (λ c, c ≠ 0) name → idme_repr buf es → get_entry name es = None →
  idme_update_var_v2p0 name value len (Some buf) = Ret None.
Proof.
  intros Hname Hr Hg. unfold idme_update_var_v2p0. rewrite magic_present by apply Hr.
  cbn [mbind run_bind]. destruct value as [value|]; [|done].
  rewrite (locate_spec buf es) by done. destruct Hr as (_ & _ & _ & _ & Hwf & Hat).
  pose proof (entry_offset_get buf name es IDME_ITEM_DATA_OFF ltac:(done) Hwf Hat) as He.
  destruct (entry_offset _ _ _); [|done]. destruct He as (? & ? & _). congruence.
Qed.

(** C12: an update of a variable fails without changing anything when there is
    no item of that name; otherwise the table afterwards holds the same items,
    only the first one of that name has the new data, filled up with zeros. *)
Theorem idme_update_var_refines buf es name value len :
  Forall (λ c, c ≠ 0) name → idme_repr buf es → 0 ≤ len →
  (∀ e, get_entry name es = Some e → Z.min (e_size e) len ≤ zlen value) →
  match get_entry name es with
  | None => idme_update_var_v2p0 name (Some value) len (Some buf) = Ret None
  | Some _ => ∃ buf', idme_update_var_v2p0 name (Some value) len (Some buf) = Ret (Some buf')
      ∧ idme_repr buf' (set_entry name (stored value len) es)
      ∧ slice buf' 0 IDME_ITEM_DATA_OFF = slice buf 0 IDME_ITEM_DATA_OFF
  end.
Proof.
  intros Hname Hr Hlen Hv. destruct (get_entry name es) as [e|] eqn:Hg.
  - eapply update_var_repr; eauto.
  - by eapply update_var_absent.
Qed.

(** After a variable is stored, reading it gives what was stored and
    reading any other variable gives what it gave before. *)
Theorem idme_update_then_get buf es name value len buf' other n :
  Forall (λ c, c ≠ 0) name → Forall (λ c, c ≠ 0) other → idme_repr buf es → 0 ≤ len → 0 ≤ n →
  (∀ e, get_entry name es = Some e → Z.min (e_size e) len ≤ zlen value) →
  idme_update_var_v2p0 name (Some value) len (Some buf) = Ret (Some buf') →
  idme_get_var_v2p0 other n (Some buf')
  = if bool_decide (other = name)
    then Ret (e ← get_entry name es; Some (take (Z.to_nat n) (stored value len e)))
    else idme_get_var_v2p0 other n (Some buf).
Proof.
  intros Hname Hother Hr Hlen Hn Hv E.
  destruct (get_entry name es) as [e|] eqn:Hg.
  - destruct (update_var_repr buf es name value len e) as (b & Eb & Hb & _); auto.
    assert (b = buf') as -> by congruence.
    rewrite (get_var_repr buf' _ other n Hother Hb Hn), get_set_entry, Hg
      by (intros x ?; assert (x = e) as -> by congruence; by apply stored_length; auto).
    case_bool_decide; [done|]. by rewrite (get_var_repr buf es).
  - by rewrite (update_var_absent buf es) in E.
Qed.

(** Reading a variable gives the data of the first item of that name, cut
    to the caller's length, and an error exactly when there is no such item. *)
Theorem idme_get_var_refines buf es name len :
  Forall (λ c, c ≠ 0) name → idme_repr buf es → 0 ≤ len →
  idme_get_var_v2p0 name len (Some buf)
  = Ret (e ← get_entry name es; Some (take (Z.to_nat len) (e_data e))).
Proof. apply get_var_repr. Qed.

(** ** Writing an item *)

(** [v] in a field of [size] bytes. *)
Definition fill (size : Z) (v : bytes) : bytes :=
  take (Z.to_nat size) v ++ replicate (Z.to_nat size - length v) 0.

Lemma zlen_fill size v : 0 ≤ size → zlen (fill size v) = size.
Proof. intros. unfold fill, zlen. rewrite length_app, length_take, length_replicate. lia. Qed.

(** A field is cleared and then filled. *)
Lemma clear_fill buf off size v :
  0 ≤ off → 0 ≤ size → off + size ≤ zlen buf →
  ∃ buf1 buf2, wr buf off (replicate (Z.to_nat size) 0) = Ret buf1
    ∧ wr buf1 off (take (Z.to_nat size) v) = Ret buf2 ∧ wr buf off (fill size v) = Ret buf2.
Proof.
  intros Ho Hs Hb. set (zeros := replicate (Z.to_nat size) 0).
  assert (Hz : zlen zeros = size) by (unfold zeros; rewrite zlen_replicate; lia).
  destruct (wr buf off zeros) as [buf1|] eqn:Hw1; [|rewrite wr_ok in Hw1 by lia; done].
  assert (Hv : zlen (take (Z.to_nat size) v) ≤ size) by (unfold zlen; rewrite length_take; lia).
  destruct (wr buf1 off (take (Z.to_nat size) v)) as [buf2|] eqn:Hw2.
  2: { rewrite wr_ok in Hw2; [done|lia|]. rewrite (wr_length _ _ _ _ Hw1). lia. }
  exists buf1, buf2. split_and!; try done.
  rewrite <- (wr_wr _ _ _ _ _ _ Hw1 Hw2) by lia. unfold fill. f_equal. f_equal.
  unfold zeros. rewrite drop_replicate, length_take. f_equal. lia.
Qed.

Ltac write_ok W :=
  match goal with
  | |- context [wr ?b ?o ?s] =>
      let b' := fresh "buf" in
      destruct (wr b o s) as [b'|] eqn:W;
      [|rewrite wr_ok in W by (rewrite ?zlen_le_encode; lia); discriminate W]
  end.

(** Slices that the writes in the context leave as they are. *)
Ltac untouched :=
  repeat match goal with
  | W : wr ?b ?o ?s = Ret ?b' |- slice ?b' ?a ?n = _ =>
      first [ reflexivity
            | rewrite (slice_wr_other b o s b' a n W)
                by (rewrite ?zlen_le_encode; first [assumption | lia]) ]
  end; try reflexivity.

(** An item is written: its descriptor and its data, and nothing else changes. *)
Lemma item_init_repr null buf p name size exportable permission value v :
  0 ≤ p → 0 ≤ size → p + sizeof_idme_desc + size ≤ CONFIG_IDME_SIZE →
  zlen buf = CONFIG_IDME_SIZE → zlen name < IDME_MAX_NAME_LEN → value_string null value = Ret v →
  ∃ buf', idme_item_init null buf p CONFIG_IDME_SIZE name size exportable permission value = Ret buf'
    ∧ zlen buf' = CONFIG_IDME_SIZE
    ∧ slice buf' p sizeof_idme_desc
      = encode_desc (mkEntry name exportable permission (fill size v))
    ∧ slice buf' (p + sizeof_idme_desc) size = fill size v
    ∧ ∀ a n, 0 ≤ a → 0 ≤ n → a + n ≤ p ∨ p + sizeof_idme_desc + size ≤ a →
        slice buf' a n = slice buf a n.
Proof.
  intros Hp Hs Hlim Hl Hname Hv. unfold idme_item_init.
  destruct (Z.gtb_spec (p + sizeof_idme_desc + size) CONFIG_IDME_SIZE); [lia|].
  unfold sizeof_idme_desc in *.
  destruct (clear_fill buf (p + 28) size v) as (b1 & b2 & -> & W1 & Wd); [lia..|].
  cbn [mbind run_bind]. rewrite Hv. cbn [mbind run_bind]. rewrite W1. cbn [mbind run_bind].
  clear W1. pose proof (wr_length _ _ _ _ Wd).
  destruct (clear_fill b2 p 16 name) as (b3 & b4 & W3 & W4 & Wn); [lia..|].
  change (Z.to_nat IDME_MAX_NAME_LEN) with (Z.to_nat 16). rewrite W3. cbn [mbind run_bind].
  rewrite W4. cbn [mbind run_bind]. clear W3 W4. pose proof (wr_length _ _ _ _ Wn).
  unfold DESC_SIZE, DESC_EXPORTABLE, DESC_PERMISSION.
  write_ok Ws. cbn [mbind run_bind]. pose proof (wr_length _ _ _ _ Ws).
  write_ok We. cbn [mbind run_bind]. pose proof (wr_length _ _ _ _ We).
  write_ok Wp. pose proof (wr_length _ _ _ _ Wp).
  eexists. split; [done|]. split; [lia|].
  assert (Hfn : fill 16 name = name_field name).
  { unfold fill, name_field. rewrite take_ge by (unfold zlen, IDME_MAX_NAME_LEN in *; lia). done. }
  pose proof (zlen_fill size v Hs) as Hf. pose proof (name_field_length name Hname) as Hnf.
  rewrite Hfn in Wn.
  pose proof (slice_wr_same _ _ _ _ Wd) as Sd. pose proof (slice_wr_same _ _ _ _ Wn) as Sn.
  pose proof (slice_wr_same _ _ _ _ Ws) as Ss. pose proof (slice_wr_same _ _ _ _ We) as Se.
  pose proof (slice_wr_same _ _ _ _ Wp) as Sp.
  rewrite Hf in Sd. rewrite Hnf in Sn. rewrite zlen_le_encode in Ss, Se, Sp.
  split_and!.
  - unfold encode_desc, e_size; cbn [e_name e_exportable e_permission e_data]. rewrite Hf.
    rewrite (slice_split _ p 16 12), (slice_split _ (p + 16) 4 8), (slice_split _ (p + 16 + 4) 4 4)
      by lia.
    replace (p + 16 + 4 + 4) with (p + 24) by lia. replace (p + 16 + 4) with (p + 20) by lia.
    rewrite <- Sn, <- Ss, <- Se, <- Sp. repeat apply f_equal2; try done; untouched.
  - rewrite <- Sd. untouched.
  - intros a n Ha Hn Hd. untouched.
Qed.

(** ** The default table *)

Definition init_wf (v : idme_init_values) : Prop :=
  Forall (λ c, c ≠ 0) (desc_name (init_desc v)) ∧ zlen (desc_name (init_desc v)) < IDME_MAX_NAME_LEN
  ∧ is_u32 (desc_size (init_desc v)) ∧ is_u32 (desc_exportable (init_desc v))
  ∧ is_u32 (desc_permission (init_desc v)).

#[export] Instance init_wf_dec v : Decision (init_wf v).
Proof. apply _. Defined.

(** [nb] is the string a null pointer reads. *)
Definition default_data (nb : bytes) (v : idme_init_values) : bytes :=
  fill (desc_size (init_desc v)) (default nb (init_value v)).

Definition default_entry (nb : bytes) (v : idme_init_values) : entry :=
  let d := init_desc v in
  mkEntry (desc_name d) (desc_exportable d) (desc_permission d) (default_data nb v).

(** Every item ends within the table. *)
Fixpoint items_fit (off : Z) (sizes : list Z) : bool :=
  match sizes with
  | [] => true
  | size :: sizes => (off + sizeof_idme_desc + size <=? CONFIG_IDME_SIZE)
                     && items_fit (off + item_step size) sizes
  end.

Lemma default_entry_size nb v : init_wf v → e_size (default_entry nb v) = desc_size (init_desc v).
Proof. intros (_ & _ & [Hs _] & _). by apply zlen_fill. Qed.

Lemma default_entry_wf nb v : init_wf v → entry_wf (default_entry nb v).
Proof.
  intros Hv. pose proof (default_entry_size nb v Hv). destruct Hv as (? & ? & ? & ? & ?).
  unfold entry_wf. rewrite H. done.
Qed.

Lemma value_string_default nb value : value_string (Ret nb) value = Ret (default nb value).
Proof. by destruct value. Qed.

(** An item of the default table is written. *)
Lemma init_item_repr null nb v buf off :
  0 ≤ off → zlen buf = CONFIG_IDME_SIZE → init_wf v →
  off + sizeof_idme_desc + desc_size (init_desc v) ≤ CONFIG_IDME_SIZE →
  value_string null (init_value v) = Ret (default nb (init_value v)) →
  let d := init_desc v in
  ∃ b, idme_item_init null buf off CONFIG_IDME_SIZE (desc_name d) (desc_size d)
         (desc_exportable d) (desc_permission d) (init_value v) = Ret b
    ∧ zlen b = CONFIG_IDME_SIZE
    ∧ slice b off sizeof_idme_desc = encode_desc (default_entry nb v)
    ∧ slice b (off + sizeof_idme_desc) (desc_size d) = default_data nb v
    ∧ idme_item_next b off = Ret (off + item_step (desc_size d))
    ∧ ∀ a n, 0 ≤ a → 0 ≤ n → a + n ≤ off ∨ off + sizeof_idme_desc + desc_size d ≤ a →
        slice b a n = slice buf a n.
Proof.
  intros Hoff Hl Hv Hf Hnull. pose proof (default_entry_wf nb v Hv) as Hew.
  pose proof (default_entry_size nb v Hv) as Hes. pose proof Hv as (? & ? & [? ?] & ? & ?).
  destruct (item_init_repr null buf off (desc_name (init_desc v)) (desc_size (init_desc v))
    (desc_exportable (init_desc v)) (desc_permission (init_desc v)) (init_value v)
    (default nb (init_value v))) as (b & Hb & Hbl & Hd & Hdata & Hother); try done.
  exists b. split_and!; try done.
  rewrite <- Hes. apply next_item; try done. rewrite Hes, Hbl. done.
Qed.

Lemma init_items_repr null nb vs : ∀ buf off,
  0 ≤ off → zlen buf = CONFIG_IDME_SIZE → Forall init_wf vs →
  Forall (λ v, value_string null (init_value v) = Ret (default nb (init_value v))) vs →
  items_fit off ((desc_size ∘ init_desc) <$> vs) = true →
  ∃ buf', init_items null vs buf off = Ret buf' ∧ zlen buf' = CONFIG_IDME_SIZE
    ∧ items_at buf' off (default_entry nb <$> vs)
    ∧ ∀ a n, 0 ≤ a → 0 ≤ n → a + n ≤ off → slice buf' a n = slice buf a n.
Proof.
  induction vs as [|v vs IH]; intros buf off Hoff Hl Hwf Hnull Hfit; [by exists buf|].
  apply Forall_cons in Hwf as [Hv Hwf]. apply Forall_cons in Hnull as [Hnv Hnull].
  cbn in Hfit. apply andb_true_iff in Hfit as [Hf Hfit]. apply Z.leb_le in Hf.
  destruct (init_item_repr null nb v buf off) as (b & Hb & Hbl & Hd & Hdata & Hn & Hother); try done.
  pose proof (default_entry_size nb v Hv) as Hes. pose proof (proj1 (proj1 (proj2 (proj2 Hv)))).
  pose proof (item_step_bound (desc_size (init_desc v))). unfold compose in Hfit.
  destruct (IH b (off + item_step (desc_size (init_desc v)))) as (b' & Hi & Hl' & Hat & Hold);
    try done; [unfold sizeof_idme_desc in *; lia|].
  exists b'. unfold sizeof_idme_desc in *. split.
  { cbn [init_items]. rewrite Hb. cbn [mbind run_bind]. destruct vs; [done|]. by rewrite Hn. }
  split; [done|]. split; [|intros a n ???; rewrite Hold, Hother by lia; done].
  cbn [fmap list_fmap items_at]. rewrite Hes. unfold sizeof_idme_desc.
  split_and!; try done; [by rewrite Hold by lia..|lia].
Qed.

(** A null value in the table is read as a string. *)
Lemma init_items_null c vs v vs' : ∀ buf off,
  0 ≤ off → zlen buf = CONFIG_IDME_SIZE → Forall init_wf (vs ++ [v]) →
  Forall (λ v, init_value v ≠ None) vs → init_value v = None →
  items_fit off ((desc_size ∘ init_desc) <$> (vs ++ [v])) = true →
  init_items (Crash c) (vs ++ v :: vs') buf off = Crash c.
Proof.
  induction vs as [|u vs IH]; intros buf off Hoff Hl Hwf Hsome Hv Hfit.
  - apply Forall_cons in Hwf as [(_ & _ & [Hs _] & _) _]. cbn in Hfit.
    rewrite andb_true_r in Hfit. apply Z.leb_le in Hfit. unfold compose in Hfit.
    cbn [app init_items]. unfold idme_item_init. rewrite Hv.
    destruct (Z.gtb_spec (off + sizeof_idme_desc + desc_size (init_desc v)) CONFIG_IDME_SIZE); [lia|].
    rewrite wr_ok; [done|unfold sizeof_idme_desc; lia|]. rewrite zlen_replicate. lia.
  - apply Forall_cons in Hwf as [Hu Hwf]. apply Forall_cons in Hsome as [Hnu Hsome].
    cbn in Hfit. apply andb_true_iff in Hfit as [Hf Hfit]. apply Z.leb_le in Hf.
    destruct (init_item_repr (Crash c) [] u buf off) as (b & Hb & Hbl & _ & _ & Hn & _);
      try done; [by destruct (init_value u)|].
    pose proof (proj1 (proj1 (proj2 (proj2 Hu)))).
    pose proof (item_step_bound (desc_size (init_desc u))).
    cbn [app init_items]. rewrite Hb. cbn [mbind run_bind].
    destruct (vs ++ v :: vs') eqn:E; [by destruct vs|]. rewrite Hn. cbn [mbind run_bind].
    apply IH; try done. unfold sizeof_idme_desc in *. lia.
Qed.

(** The header that every initialisation writes. *)
Lemma init_header data :
  zlen data = CONFIG_IDME_SIZE →
  ∃ b1 b2 b3, wr data 0 (replicate (Z.to_nat CONFIG_IDME_SIZE) 0) = Ret b1
    ∧ wr b1 0 IDME_MAGIC_NUMBER = Ret b2 ∧ wr b2 IDME_VERSION_OFF IDME_VERSION_2P1 = Ret b3
    ∧ zlen b3 = CONFIG_IDME_SIZE ∧ slice b3 0 8 = IDME_MAGIC_NUMBER
    ∧ slice b3 IDME_VERSION_OFF 3 = IDME_VERSION_2P1.
Proof.
  intros Hl. set (zeros := replicate (Z.to_nat CONFIG_IDME_SIZE) 0).
  assert (Hz : zlen zeros = CONFIG_IDME_SIZE) 
    by (unfold zeros; rewrite zlen_replicate; apply Z2Nat.id; discriminate).
  assert (Hc : 16 ≤ CONFIG_IDME_SIZE) by done.
  generalize dependent zeros; intros zeros Hz. generalize dependent CONFIG_IDME_SIZE; intros N Hl Hz Hc.
  destruct (wr data 0 zeros) as [b1|] eqn:W1; [|rewrite wr_ok in W1 by lia; done].
  destruct (wr b1 0 IDME_MAGIC_NUMBER) as [b2|] eqn:W2.
  2: { rewrite wr_ok in W2; [done|done|]. rewrite (wr_length _ _ _ _ W1), Hl.
       change (zlen IDME_MAGIC_NUMBER) with 8. lia. }
  destruct (wr b2 IDME_VERSION_OFF IDME_VERSION_2P1) as [b3|] eqn:W3.
  2: { rewrite wr_ok in W3; [done|done|].
       rewrite (wr_length _ _ _ _ W2), (wr_length _ _ _ _ W1), Hl.
       change (zlen IDME_VERSION_2P1) with 3. unfold IDME_VERSION_OFF. lia. }
  exists b1, b2, b3. split_and!; try done.
  - by rewrite (wr_length _ _ _ _ W3), (wr_length _ _ _ _ W2), (wr_length _ _ _ _ W1).
  - rewrite (slice_wr_other _ _ _ _ _ _ W3) by (unfold IDME_VERSION_OFF; lia). apply (slice_wr_same _ _ _ _ W2).
  - apply (slice_wr_same _ _ _ _ W3).
Qed.

Lemma default_values_wf : Forall init_wf idme_default_values.
Proof. apply (bool_decide_unpack _). by vm_compute. Qed.

Lemma default_values_fit :
  items_fit IDME_ITEM_DATA_OFF ((desc_size ∘ init_desc) <$> idme_default_values) = true.
Proof. by vm_compute. Qed.

Lemma init_var_repr null nb defaults data :
  zlen data = CONFIG_IDME_SIZE → Forall init_wf defaults → is_u32 (zlen defaults) →
  Forall (λ v, value_string null (init_value v) = Ret (default nb (init_value v))) defaults →
  items_fit IDME_ITEM_DATA_OFF ((desc_size ∘ init_desc) <$> defaults) = true →
  ∃ buf, idme_init_var_v2p0 null defaults data = Ret buf
    ∧ idme_repr buf (default_entry nb <$> defaults)
    ∧ slice buf IDME_VERSION_OFF 3 = IDME_VERSION_2P1.
Proof.
  intros Hl Hwf Hu Hnull Hfit. unfold idme_init_var_v2p0.
  destruct (init_header data Hl) as (b1 & b2 & b3 & -> & W2 & W3 & Hl3 & Hm & Hver).
  cbn [mbind run_bind]. rewrite W2. cbn [mbind run_bind]. rewrite W3. cbn [mbind run_bind].
  destruct (init_items_repr null nb defaults b3 IDME_ITEM_DATA_OFF)
    as (b4 & -> & Hl4 & Hat & Hold); try done. cbn [mbind run_bind].
  destruct (wr b4 IDME_ITEMS_NUM_OFF _) as [b5|] eqn:W5.
  2: { rewrite wr_ok in W5; [done|done|]. rewrite zlen_le_encode, Hl4. done. }
  pose proof (slice_wr_same _ _ _ _ W5) as S5. rewrite zlen_le_encode in S5.
  exists b5. split; [done|]. unfold idme_repr, IDME_ITEMS_NUM_OFF, IDME_ITEM_DATA_OFF in *.
  rewrite (wr_length _ _ _ _ W5). unfold zlen at 2 3. rewrite length_fmap. fold (zlen defaults).
  split_and!; try done.
  - rewrite (slice_wr_other _ _ _ _ _ _ W5), Hold by lia. done.
  - apply Forall_fmap. eapply Forall_impl; [exact Hwf|]. intros v. apply default_entry_wf.
  - eapply items_at_other; [done|lia|rewrite zlen_le_encode; lia|done].
  - unfold IDME_VERSION_OFF in *. rewrite (slice_wr_other _ _ _ _ _ _ W5), Hold by lia. done.
Qed.

(** Generating the default table gives, whatever the buffer held and
    whatever string [nb] is at address 0, a table of version 2.1 with the items
    of the product's default table, each padded to its size. *)
Theorem idme_init_var_defaults nb data :
  zlen data = CONFIG_IDME_SIZE →
  ∃ buf, idme_init_var_v2p0 (Ret nb) idme_default_values data = Ret buf
    ∧ idme_repr buf (default_entry nb <$> idme_default_values)
    ∧ slice buf IDME_VERSION_OFF 3 = IDME_VERSION_2P1.
Proof.
  intros Hl. apply init_var_repr; [done|apply default_values_wf|done| |apply default_values_fit].
  apply Forall_forall. intros v _. apply value_string_default.
Qed.

Lemma idme_init_var_defaults_witness :
  ∃ buf, idme_init_var_v2p0 (Ret []) idme_default_values
           (replicate (Z.to_nat CONFIG_IDME_SIZE) 0) = Ret buf
    ∧ idme_repr buf (default_entry [] <$> idme_default_values)
    ∧ slice buf IDME_VERSION_OFF 3 = IDME_VERSION_2P1.
Proof.
  apply (idme_init_var_defaults [] (replicate (Z.to_nat CONFIG_IDME_SIZE) 0)).
  rewrite zlen_replicate. apply Z2Nat.id. discriminate.
Defined.

(** The default value of the item [keys] is a null pointer and its length is
    taken as a string's: where address 0 cannot be read, the table is never
    generated. *)
Theorem default_table_reads_null data :
  zlen data = CONFIG_IDME_SIZE →
  idme_init_var_v2p0 (Crash NullDeref) idme_default_values data = Crash NullDeref.
Proof.
  intros Hl. unfold idme_init_var_v2p0.
  destruct (init_header data Hl) as (b1 & b2 & b3 & -> & W2 & W3 & Hl3 & _ & _).
  cbn [mbind run_bind]. rewrite W2. cbn [mbind run_bind]. rewrite W3. cbn [mbind run_bind].
  rewrite <- (take_drop_middle idme_default_values 23 (item "keys" 81920 0 None) eq_refl).
  rewrite init_items_null; try done.
  - apply (bool_decide_unpack _). by vm_compute.
  - apply (bool_decide_unpack _). by vm_compute.
Qed.

Lemma default_table_reads_null_witness :
  idme_init_var_v2p0 (Crash NullDeref) idme_default_values
    (replicate (Z.to_nat CONFIG_IDME_SIZE) 0) = Crash NullDeref.
Proof.
  apply (default_table_reads_null (replicate (Z.to_nat CONFIG_IDME_SIZE) 0)).
  rewrite zlen_replicate. apply Z2Nat.id. discriminate.
Defined.

(** ** Bringing a table up to date *)

(** The item [e] of the old table in the size of the template. *)
Definition resized (nb : bytes) (v : idme_init_values) (e : entry) : entry :=
  mkEntry (e_name e) (e_exportable e) (e_permission e)
    (if e_size e <=? desc_size (init_desc v)
     then e_data e ++ drop (length (e_data e)) (default_data nb v) else default_data nb v).

Lemma resized_size nb v e : init_wf v → e_size (resized nb v e) = desc_size (init_desc v).
Proof.
  intros Hv. pose proof (default_entry_size nb v Hv) as Hs. unfold resized, e_size in *. simpl in *.
  destruct (Z.leb_spec (zlen (e_data e)) (desc_size (init_desc v))); [|done].
  unfold zlen in *. rewrite length_app, length_drop. lia.
Qed.

Lemma resized_wf nb v e : init_wf v → entry_wf e → entry_wf (resized nb v e).
Proof.
  intros Hv (? & ? & _ & ? & ?). unfold entry_wf. rewrite (resized_size nb v e Hv).
  destruct Hv as (_ & _ & ? & _). done.
Qed.

(** What the new table has for the template entry [v]. *)
Definition migrate (nb : bytes) (es : list entry) (v : idme_init_values) : entry :=
  match get_entry (desc_name (init_desc v)) es with
  | Some e => resized nb v e
  | None => default_entry nb v
  end.

(** The device has the item, in the template's size. *)
Definition settled (es : list entry) (v : idme_init_values) : bool :=
  match get_entry (desc_name (init_desc v)) es with
  | Some e => e_size e =? desc_size (init_desc v)
  | None => false
  end.

Lemma strncmp_is_app name s rest n :
  Forall (λ c, c ≠ 0) name → Forall (λ c, c ≠ 0) s → (length s < n)%nat → (length name < n)%nat →
  strncmp_is name (s ++ 0 :: rest) n = Ret (bool_decide (s = name)).
Proof.
  intros Hname Hs. revert name Hname n.
  induction Hs as [|c s Hc Hs IH]; intros name Hname [|n] Hn Hn'; try lia; simpl.
  - destruct Hname as [|l name Hl]; [done|]. by destruct l.
  - destruct Hname as [|l name Hl Hname].
    + by destruct c.
    + simpl in *. destruct (Z.eqb_spec c l) as [->|].
      * rewrite IH by (done || lia). f_equal. apply bool_decide_ext. naive_solver.
      * rewrite bool_decide_false; [done|]. naive_solver.
Qed.

Lemma find_item_n_spec buf name :
  Forall (λ c, c ≠ 0) name → zlen name < IDME_MAX_NAME_LEN → ∀ es off,
  0 ≤ off → Forall entry_wf es → items_at buf off es →
  find_item_n name buf off (length es) = Ret (entry_offset name off es).
Proof.
  intros Hname Hlen. induction es as [|e es IH]; intros off Hoff Hwf Hat; [done|].
  apply Forall_cons in Hwf as [He Hwf]. destruct Hat as (Hd & Hdata & Hb & Hat).
  cbn [length find_item_n entry_offset].
  destruct (desc_name_nul buf off e He Hd) as [rest ->]. pose proof He as (Hne & Hle & _).
  unfold zlen, IDME_MAX_NAME_LEN in *. rewrite strncmp_is_app by (done || lia).
  cbn [mbind run_bind]. case_bool_decide; [done|].
  rewrite (next_item buf off e) by done. cbn [mbind run_bind].
  apply IH; [pose proof (item_step_pos e); lia|done|done].
Qed.

Lemma items_num_repr buf es : idme_repr buf es → load32 buf IDME_ITEMS_NUM_OFF = Ret (zlen es).
Proof.
  intros (Hl & _ & Hn & Hu & _). unfold load32. rewrite rd_ok by (rewrite ?Hl; done).
  cbn [mbind run_bind]. rewrite Hn. unfold mret, run_ret. rewrite le_decode_encode.
  change (256 ^ Z.of_nat 4) with 0x100000000. by rewrite Z.mod_small by apply Hu.
Qed.

Lemma get_entry_name name es e : get_entry name es = Some e → e_name e = name.
Proof. induction es; simpl; [done|]. case_bool_decide; naive_solver. Qed.

Lemma migrate_size nb es v : init_wf v → e_size (migrate nb es v) = desc_size (init_desc v).
Proof.
  intros Hv. unfold migrate. destruct (get_entry _ es); [by apply resized_size|].
  by apply default_entry_size.
Qed.

(** Overwriting the front of a field. *)
Lemma slice_wr_front buf off src buf' size :
  wr buf off src = Ret buf' → zlen src ≤ size → off + size ≤ zlen buf →
  slice buf' off size = src ++ drop (length src) (slice buf off size).
Proof.
  intros W Hs Hb. pose proof W as (Ho & _ & _)%wr_Ret. pose proof (zlen_nonneg src).
  replace size with (zlen src + (size - zlen src)) at 1 by lia.
  rewrite slice_split, (slice_wr_same _ _ _ _ W), (slice_wr_other _ _ _ _ _ _ W) by lia.
  f_equal. unfold slice, zlen in *. rewrite skipn_firstn_comm, drop_drop. f_equal; [lia|]. f_equal. lia.
Qed.

Lemma settled_differs size size' :
  0 ≤ size < 0x80000000 → 0 ≤ size' < 0x80000000 →
  (0 <=? s32 (size - size')) = (size' <=? size) ∧ (s32 (size - size') =? 0) = (size' =? size).
Proof.
  intros H1 H2. assert (E : s32 (size - size') = size - size').
  { unfold s32, u32. destruct (decide (size' ≤ size)).
    - rewrite Z.mod_small by lia. by rewrite (proj2 (Z.ltb_lt _ _)) by lia.
    - rewrite <- (Z_mod_plus_full (size - size') 1), Z.mod_small by lia.
      rewrite (proj2 (Z.ltb_ge _ _)) by lia. lia. }
  rewrite E. split; [destruct (Z.leb_spec 0 (size - size')), (Z.leb_spec size' size); lia|].
  destruct (Z.eqb_spec (size - size') 0), (Z.eqb_spec size' size); lia.
Qed.

(** Copying an item that the old table has at [p]. *)
Lemma copy_item_repr nb old p e v new pnew :
  let size := desc_size (init_desc v) in
  entry_wf e → init_wf v → 0 ≤ p → slice old (p + sizeof_idme_desc) (e_size e) = e_data e →
  p + sizeof_idme_desc + e_size e ≤ zlen old → zlen old = CONFIG_IDME_SIZE →
  0 ≤ pnew → zlen new = CONFIG_IDME_SIZE → pnew + sizeof_idme_desc + size ≤ CONFIG_IDME_SIZE →
  ∃ new1 new', idme_item_init (Ret nb) new pnew CONFIG_IDME_SIZE (e_name e) size
                 (e_exportable e) (e_permission e) (init_value v) = Ret new1
    ∧ (if 0 <=? s32 (size - e_size e)
       then data ← rd old (p + sizeof_idme_desc) (e_size e); wr new1 (pnew + sizeof_idme_desc) data
       else mret new1) = Ret new'
    ∧ zlen new' = CONFIG_IDME_SIZE
    ∧ slice new' pnew sizeof_idme_desc = encode_desc (resized nb v e)
    ∧ slice new' (pnew + sizeof_idme_desc) size = e_data (resized nb v e)
    ∧ ∀ a n, 0 ≤ a → 0 ≤ n → a + n ≤ pnew → slice new' a n = slice new a n.
Proof.
  intros size He Hv Hp0 Hdata Hb Hol Hp Hl Hfit. pose proof (resized_size nb v e Hv) as Hrs.
  assert (Hc : CONFIG_IDME_SIZE < 0x80000000) by done.
  pose proof (e_size_nonneg e). pose proof Hv as (_ & _ & [Hs0 _] & _). fold size in Hs0, Hrs.
  pose proof He as (_ & Hle & _). unfold sizeof_idme_desc in *.
  destruct (item_init_repr (Ret nb) new pnew (e_name e) size (e_exportable e) (e_permission e)
    (init_value v) (default nb (init_value v))) as (b & Hi & Hbl & Hd1 & Hdata1 & Hother);
    try done; [apply value_string_default|].
  assert (Hdesc : encode_desc (mkEntry (e_name e) (e_exportable e) (e_permission e)
      (fill size (default nb (init_value v)))) = encode_desc (resized nb v e)).
  { unfold encode_desc. rewrite Hrs. unfold e_size at 1; simpl. by rewrite zlen_fill. }
  rewrite Hdesc in Hd1. exists b. unfold sizeof_idme_desc in *.
  destruct (settled_differs size (e_size e)) as [-> _]; [lia..|]. unfold resized at 2. simpl. fold size.
  destruct (Z.leb_spec (e_size e) size) as [Hsz|Hsz].
  - rewrite rd_ok by lia. cbn [mbind run_bind]. rewrite Hdata.
    destruct (wr b (pnew + 28) (e_data e)) as [b'|] eqn:W.
    2: { rewrite wr_ok in W; [done|lia|]. fold (e_size e). lia. }
    exists b'. fold (e_size e) in *. split_and!; try done.
    + by rewrite (wr_length _ _ _ _ W).
    + rewrite <- Hd1. eapply slice_wr_other; [done|lia..].
    + rewrite (slice_wr_front _ _ _ _ _ W), Hdata1; [done|fold (e_size e); lia|lia].
    + intros a n ???. rewrite (slice_wr_other _ _ _ _ _ _ W), Hother by lia. done.
  - exists b. split_and!; auto.
Qed.

(** One template entry: the migrated item is written and nothing before it
    changes. *)
Lemma update_entry_repr nb old es v new pnew added differs :
  idme_repr old es → init_wf v → 0 ≤ pnew → zlen new = CONFIG_IDME_SIZE →
  pnew + sizeof_idme_desc + desc_size (init_desc v) ≤ CONFIG_IDME_SIZE →
  let size := desc_size (init_desc v) in
  ∃ new', update_entry (Ret nb) old v new pnew added differs
          = Ret (new', pnew + item_step size,
                 added + (if get_entry (desc_name (init_desc v)) es then 0 else 1),
                 differs || match get_entry (desc_name (init_desc v)) es with
                            | Some e => negb (e_size e =? size) | None => false end)
    ∧ zlen new' = CONFIG_IDME_SIZE
    ∧ slice new' pnew sizeof_idme_desc = encode_desc (migrate nb es v)
    ∧ slice new' (pnew + sizeof_idme_desc) size = e_data (migrate nb es v)
    ∧ ∀ a n, 0 ≤ a → 0 ≤ n → a + n ≤ pnew → slice new' a n = slice new a n.
Proof.
  intros Hr Hv Hp Hl Hfit size. pose proof (migrate_size nb es v Hv) as Hms. unfold update_entry.
  rewrite (items_num_repr old es Hr). cbn [mbind run_bind]. unfold zlen at 1. rewrite Nat2Z.id.
  pose proof Hr as (Hol & _ & _ & _ & Hwf & Hat). pose proof Hv as (Hvn & Hvl & [Hs0 _] & _).
  rewrite find_item_n_spec with (es := es) by done. cbn [mbind run_bind].
  pose proof (entry_offset_get old (desc_name (init_desc v)) es IDME_ITEM_DATA_OFF ltac:(done)
    Hwf Hat) as He.
  destruct (entry_offset _ _ _) as [p|].
  2: { unfold migrate in *. rewrite He in *.
       destruct (init_item_repr (Ret nb) nb v new pnew) as (b & Hb & Hbl & Hd & Hdata & Hn & Hother);
         try done; [apply value_string_default|].
       rewrite Hb. cbn [mbind run_bind]. rewrite Hn. exists b. cbn [mbind run_bind].
       rewrite orb_false_r. split_and!; auto. }
  destruct He as (e & Hg & Hp0 & Hew & Hd & Hdata & Hb).
  rewrite (load_size old p e) by done. cbn [mbind run_bind].
  destruct (desc_name_nul old p e Hew Hd) as [rest ->]. rewrite c_str_app by apply Hew.
  cbn [mbind run_bind]. rewrite (load_exportable old p e), (load_permission old p e) by done.
  cbn [mbind run_bind].
  destruct (copy_item_repr nb old p e v new pnew)
    as (b & b' & -> & E & Hl' & Hd' & Hdata' & Hother); try done.
  cbn [mbind run_bind] in *. rewrite E. cbn [mbind run_bind]. unfold migrate in *. rewrite Hg in *.
  rewrite (next_item b' pnew (resized nb v e)); [|done|by apply resized_wf|done|rewrite Hms, Hl'; done].
  assert (Hc : CONFIG_IDME_SIZE < 0x80000000) by done. pose proof (e_size_nonneg e).
  unfold sizeof_idme_desc in *.
  destruct (settled_differs size (e_size e)) as [_ Hz]; [lia..|]. fold size. rewrite Hz, Hms.
  exists b'. split_and!; try done. cbn [mbind run_bind]. by rewrite Z.add_0_r.
Qed.

(** The template entries the old table lacks, and whether it has one in another size. *)
Definition missing (es : list entry) (vs : list idme_init_values) : Z :=
  foldr (fun v n => (if get_entry (desc_name (init_desc v)) es then 0 else 1) + n) 0 vs.
Definition differing (es : list entry) (vs : list idme_init_values) : bool :=
  existsb (fun v => match get_entry (desc_name (init_desc v)) es with
                    | Some e => negb (e_size e =? desc_size (init_desc v)) | None => false end) vs.

Lemma missing_nonneg es vs : 0 ≤ missing es vs.
Proof. induction vs; simpl; [done|]. destruct (get_entry _ _); lia. Qed.

Lemma settled_all es vs : missing es vs = 0 → differing es vs = false → forallb (settled es) vs = true.
Proof.
  unfold settled. induction vs as [|v vs IH]; simpl; [done|]. pose proof (missing_nonneg es vs).
  destruct (get_entry _ es) as [e|]; [|lia].
  rewrite orb_false_iff, negb_false_iff. intros ? [-> ?]. apply IH; [lia|done].
Qed.

Lemma migrate_wf nb es v : init_wf v → Forall entry_wf es → entry_wf (migrate nb es v).
Proof.
  intros Hv Hwf. unfold migrate. destruct (get_entry _ es) as [e|] eqn:Hg; [|by apply default_entry_wf].
  apply resized_wf; [done|]. induction Hwf; simpl in Hg; [done|]. case_bool_decide; naive_solver.
Qed.

Lemma update_entries_repr nb old es : idme_repr old es → ∀ vs new pnew added differs,
  0 ≤ pnew → zlen new = CONFIG_IDME_SIZE → Forall init_wf vs →
  items_fit pnew ((desc_size ∘ init_desc) <$> vs) = true →
  ∃ new', update_entries (Ret nb) old vs new pnew added differs
          = Ret (new', added + missing es vs, differs || differing es vs)
    ∧ zlen new' = CONFIG_IDME_SIZE ∧ items_at new' pnew (migrate nb es <$> vs)
    ∧ ∀ a n, 0 ≤ a → 0 ≤ n → a + n ≤ pnew → slice new' a n = slice new a n.
Proof.
  intros Hr. induction vs as [|v vs IH]; intros new pnew added differs Hp Hl Hwf Hfit.
  { exists new. cbn. rewrite Z.add_0_r, orb_false_r. done. }
  apply Forall_cons in Hwf as [Hv Hwf]. cbn in Hfit. unfold compose in Hfit.
  apply andb_true_iff in Hfit as [Hf Hfit]. apply Z.leb_le in Hf.
  destruct (update_entry_repr nb old es v new pnew added differs)
    as (b & E & Hbl & Hd & Hdata & Hother); try done.
  pose proof (proj1 (proj1 (proj2 (proj2 Hv)))) as Hs0.
  pose proof (item_step_bound _ Hs0) as Hstep. unfold sizeof_idme_desc in *.
  destruct (IH b (pnew + item_step (desc_size (init_desc v)))
    (added + (if get_entry (desc_name (init_desc v)) es then 0 else 1))
    (differs || match get_entry (desc_name (init_desc v)) es with
                | Some e => negb (e_size e =? desc_size (init_desc v)) | None => false end))
    as (b' & E' & Hl' & Hat & Hold); try done; [lia|].
  exists b'. cbn [update_entries]. rewrite E. cbn [mbind run_bind]. rewrite E'.
  cbn [missing foldr differing existsb]. fold (missing es vs) (differing es vs).
  split; [by rewrite Z.add_assoc, orb_assoc|]. split; [done|].
  split; [|intros a n ???; rewrite Hold, Hother by lia; done].
  cbn [fmap list_fmap items_at]. rewrite (migrate_size nb es v Hv). unfold sizeof_idme_desc.
  split_and!; [by rewrite Hold by lia..|lia|done].
Qed.

(** Copying the old header into a cleared table. *)
Lemma copy_header old :
  zlen old = CONFIG_IDME_SIZE →
  ∃ b1 b2, wr (replicate (Z.to_nat CONFIG_IDME_SIZE) 0) 0 (slice old 0 8) = Ret b1
    ∧ wr b1 IDME_VERSION_OFF (slice old IDME_VERSION_OFF 4) = Ret b2
    ∧ zlen b2 = CONFIG_IDME_SIZE ∧ slice b2 0 8 = slice old 0 8
    ∧ slice b2 IDME_VERSION_OFF 4 = slice old IDME_VERSION_OFF 4.
Proof.
  intros Hl. set (zeros := replicate (Z.to_nat CONFIG_IDME_SIZE) 0).
  assert (Hz : zlen zeros = CONFIG_IDME_SIZE)
    by (unfold zeros; rewrite zlen_replicate; apply Z2Nat.id; discriminate).
  assert (Hc : 16 ≤ CONFIG_IDME_SIZE) by done. unfold IDME_VERSION_OFF.
  generalize dependent zeros; intros zeros Hz. generalize dependent CONFIG_IDME_SIZE; intros N Hl Hz Hc.
  assert (L1 : zlen (slice old 0 8) = 8) by (apply zlen_slice; lia).
  assert (L2 : zlen (slice old 8 4) = 4) by (apply zlen_slice; lia).
  destruct (wr zeros 0 _) as [b1|] eqn:W1; [|rewrite wr_ok in W1 by lia; done].
  destruct (wr b1 8 (slice old 8 4)) as [b2|] eqn:W2.
  2: { rewrite wr_ok in W2; [done|lia|]. rewrite (wr_length _ _ _ _ W1). lia. }
  exists b1, b2. split_and!; try done.
  - by rewrite (wr_length _ _ _ _ W2), (wr_length _ _ _ _ W1).
  - rewrite (slice_wr_other _ _ _ _ _ _ W2) by lia. rewrite <- L1 at 1. apply (slice_wr_same _ _ _ _ W1).
  - rewrite <- L2 at 1. apply (slice_wr_same _ _ _ _ W2).
Qed.

Section Migration.
Context {D : Type} `{Mmc D} `{Heap (IdmeState D)} (nb : bytes) (defaults : list idme_init_values).
Context (Hdwf : Forall init_wf defaults) (Hdu : is_u32 (zlen defaults)).
Context (Hdfit : items_fit IDME_ITEM_DATA_OFF ((desc_size ∘ init_desc) <$> defaults) = true).

Lemma version_2p1 buf :
  slice buf IDME_VERSION_OFF 3 = IDME_VERSION_2P1 →
  strncmp_is IDME_DEFAULT_VERSION (drop (Z.to_nat IDME_VERSION_OFF) buf)
    (length IDME_DEFAULT_VERSION) = Ret true.
Proof.
  intros Hv. unfold slice in Hv.
  rewrite <- (take_drop (Z.to_nat 3) (drop (Z.to_nat IDME_VERSION_OFF) buf)), Hv. done.
Qed.

(** The entries in the new buffer, before the count is written. *)
Lemma update_buffers old es :
  idme_repr old es →
  ∃ b1 b2 new, wr (replicate (Z.to_nat CONFIG_IDME_SIZE) 0) 0 (slice old 0 8) = Ret b1
    ∧ wr b1 IDME_VERSION_OFF (slice old IDME_VERSION_OFF 4) = Ret b2
    ∧ update_entries (Ret nb) old defaults b2 IDME_ITEM_DATA_OFF 0 false
      = Ret (new, missing es defaults, differing es defaults)
    ∧ ∃ buf buf', wr new IDME_ITEMS_NUM_OFF (le_encode 4 (zlen defaults)) = Ret buf
        ∧ wr old 0 buf = Ret buf' ∧ idme_repr buf' (migrate nb es <$> defaults)
        ∧ slice buf' IDME_VERSION_OFF 4 = slice old IDME_VERSION_OFF 4.
Proof.
  intros Hr. pose proof Hr as (Hl & Hm & _ & _ & Hwf & _).
  destruct (copy_header old Hl) as (b1 & b2 & W1 & W2 & Hl2 & Hh & Hv).
  destruct (update_entries_repr nb old es Hr defaults b2 IDME_ITEM_DATA_OFF 0 false)
    as (new & E & Hln & Hat & Hold); try done.
  exists b1, b2, new. split_and!; try done.
  destruct (wr new IDME_ITEMS_NUM_OFF _) as [buf|] eqn:W3.
  2: { rewrite wr_ok in W3; [done|done|]. rewrite zlen_le_encode, Hln. done. }
  pose proof (wr_length _ _ _ _ W3) as Hlb.
  assert (Ho : wr old 0 buf = Ret buf).
  { rewrite <- (app_nil_r old), wr_app_0 by lia. by rewrite app_nil_r. }
  pose proof (slice_wr_same _ _ _ _ W3) as S3. rewrite zlen_le_encode in S3.
  exists buf, buf. unfold idme_repr, IDME_ITEMS_NUM_OFF, IDME_VERSION_OFF, IDME_ITEM_DATA_OFF in *.
  unfold zlen at 2 3. rewrite length_fmap. fold (zlen defaults). split_and!; try done.
  - lia.
  - rewrite (slice_wr_other _ _ _ _ _ _ W3), Hold, Hh by lia. done.
  - apply Forall_fmap. eapply Forall_impl; [exact Hdwf|]. intros v Hv'. by apply migrate_wf.
  - apply (items_at_other _ _ _ _ _ _ W3); [lia|rewrite zlen_le_encode; lia|done].
  - rewrite (slice_wr_other _ _ _ _ _ _ W3), Hold, Hv by lia. done.
Qed.

Lemma update_table_repr old es st st' :
  idme_repr old es → slice old IDME_VERSION_OFF 3 = IDME_VERSION_2P1 →
  heap_alloc CONFIG_IDME_SIZE st = (true, st') →
  (∃ new, idme_update_table_v2p0 (Ret nb) defaults (Some old) st = Ret ((0, Some new), st')
     ∧ idme_repr new (migrate nb es <$> defaults)
     ∧ slice new IDME_VERSION_OFF 4 = slice old IDME_VERSION_OFF 4)
  ∨ (idme_update_table_v2p0 (Ret nb) defaults (Some old) st = Ret ((-2, Some old), st')
     ∧ forallb (settled es) defaults = true).
Proof.
  intros Hr Hv Hh. pose proof Hr as (Hl & Hm & _).
  destruct (update_buffers old es Hr) as (b1 & b2 & new & W1 & W2 & E & buf & buf' & W3 & W4 & Hnew & Hver).
  assert (Run : idme_update_table_v2p0 (Ret nb) defaults (Some old) st =
    (if negb (missing es defaults =? 0)
        || negb (s32 (zlen es + missing es defaults - zlen defaults) =? 0)
        || differing es defaults
     then Ret ((0, Some buf'), st') else Ret ((-2, Some old), st'))).
  { unfold idme_update_table_v2p0, mbind, comp_bind.
    rewrite (lift_run _ _ _ (magic_present old Hm)). cbn [negb Z.eqb].
    rewrite (lift_run _ _ _ (version_2p1 old Hv)). cbn [negb].
    unfold malloc. rewrite Hh. cbn [negb].
    rewrite (lift_run _ _ (slice old 0 8)) by (apply rd_ok; rewrite ?Hl; done).
    rewrite (lift_run _ _ (slice old IDME_VERSION_OFF 4)) by (apply rd_ok; rewrite ?Hl; done).
    rewrite (lift_run _ _ _ (items_num_repr old es Hr)), (lift_run _ _ _ W1), (lift_run _ _ _ W2).
    rewrite (lift_run _ _ _ E). destruct (_ || _); [|done].
    by rewrite (lift_run _ _ _ W3), (lift_run _ _ _ W4). }
  rewrite Run. destruct (_ || _) eqn:Eo; [left; by exists buf'|right].
  apply orb_false_iff in Eo as [[Em _]%orb_false_iff Ef].
  split; [done|]. apply settled_all; [|done]. by apply negb_false_iff, Z.eqb_eq in Em.
Qed.

End Migration.

(** The item of a template entry in the new table. *)
Lemma get_entry_migrate nb es vs v :
  NoDup ((desc_name ∘ init_desc) <$> vs) → v ∈ vs →
  get_entry (desc_name (init_desc v)) (migrate nb es <$> vs) = Some (migrate nb es v).
Proof.
  assert (Hn : ∀ u, e_name (migrate nb es u) = desc_name (init_desc u)).
  { intros u. unfold migrate. destruct (get_entry _ es) eqn:Hg; [|done].
    by apply get_entry_name in Hg. }
  induction vs as [|u vs IH]; intros Hnd Hv; [by apply elem_of_nil in Hv|].
  apply NoDup_cons in Hnd as [Hu Hnd]. cbn [fmap list_fmap get_entry]. rewrite Hn.
  apply elem_of_cons in Hv as [->|Hv]; [by rewrite bool_decide_true|].
  rewrite bool_decide_false; [auto|]. intros Heq. apply Hu. unfold compose. rewrite Heq.
  by apply (list_elem_of_fmap_2 (desc_name ∘ init_desc)).
Qed.

Lemma settled_migrate nb es v :
  init_wf v → settled es v = true →
  ∃ e, get_entry (desc_name (init_desc v)) es = Some e ∧ e_data (migrate nb es v) = e_data e.
Proof.
  intros Hv. unfold settled, migrate. destruct (get_entry _ es) as [e|]; [|done].
  intros Hs%Z.eqb_eq. exists e. split; [done|]. unfold resized. simpl.
  rewrite (proj2 (Z.leb_le _ _)) by lia.
  pose proof (default_entry_size nb v Hv) as Hd. unfold e_size, zlen in *. simpl in Hd.
  rewrite drop_ge by lia. apply app_nil_r.
Qed.

Lemma default_values_distinct : NoDup ((desc_name ∘ init_desc) <$> idme_default_values).
Proof. apply (bool_decide_unpack _). by vm_compute. Qed.

(** C24: bringing a table of version 2.1 up to date loses nothing that fits:
    afterwards every item of the template reads as it did, extended by the tail
    of its default where the template's size is larger; only items that are new
    or became smaller read as their default. *)
Theorem idme_update_table_keeps_values {D} `{Mmc D} `{Heap (IdmeState D)} nb old es
    (st st' : IdmeState D) :
  idme_repr old es → slice old IDME_VERSION_OFF 3 = IDME_VERSION_2P1 →
  heap_alloc CONFIG_IDME_SIZE st = (true, st') →
  ∃ rc new, idme_update_table_v2p0 (Ret nb) idme_default_values (Some old) st
            = Ret ((rc, Some new), st')
    ∧ (rc = 0 ∨ rc = -2)
    ∧ ∀ v, v ∈ idme_default_values →
        let size := desc_size (init_desc v) in
        idme_get_var_v2p0 (desc_name (init_desc v)) size (Some new)
        = Ret (Some match get_entry (desc_name (init_desc v)) es with
                    | Some e => if e_size e <=? size
                                then e_data e ++ drop (length (e_data e)) (default_data nb v)
                                else default_data nb v
                    | None => default_data nb v
                    end).
Proof.
  intros Hr Hv Hh.
  assert (Hm : ∀ v, e_data (migrate nb es v)
    = match get_entry (desc_name (init_desc v)) es with
      | Some e => if e_size e <=? desc_size (init_desc v)
                  then e_data e ++ drop (length (e_data e)) (default_data nb v)
                  else default_data nb v
      | None => default_data nb v
      end) by (intros v; unfold migrate; by destruct (get_entry _ es)).
  assert (Hall : ∀ v, v ∈ idme_default_values → init_wf v)
    by (apply Forall_forall, default_values_wf).
  destruct (update_table_repr nb idme_default_values default_values_wf ltac:(done)
    default_values_fit old es st st' Hr Hv Hh) as [(new & E & Hnew & _)|(E & Hs)];
    [exists 0, new|exists (-2), old]; (split; [done|]); (split; [auto|]); intros v Hin; cbn zeta;
    pose proof (Hall v Hin) as Hvwf; pose proof (migrate_size nb es v Hvwf) as Hms;
    pose proof (proj1 (proj1 (proj2 (proj2 Hvwf)))) as Hs0; rewrite <- Hm.
  - rewrite (get_var_repr new _ _ _ (proj1 Hvwf) Hnew Hs0).
    rewrite (get_entry_migrate nb es _ v default_values_distinct Hin). cbn.
    do 2 f_equal. apply take_ge. unfold e_size, zlen in Hms. lia.
  - rewrite forallb_forall in Hs. specialize (Hs v (proj1 (list_elem_of_In _ _) Hin)).
    destruct (settled_migrate nb es v Hvwf Hs) as (e & Hg & ->).
    rewrite (get_var_repr old es _ _ (proj1 Hvwf) Hr Hs0), Hg. cbn. do 2 f_equal.
    unfold settled in Hs. rewrite Hg in Hs. apply take_ge.
    apply Z.eqb_eq in Hs. unfold e_size, zlen in Hs. lia.
Qed.

(** ** Examples: the operations on the default table *)

#[local] Notation demo_items := (default_entry [] <$> idme_default_values).

Lemma default_table :
  ∃ buf, idme_repr buf demo_items
    ∧ slice buf IDME_VERSION_OFF 3 = IDME_VERSION_2P1.
Proof.
  destruct (init_var_repr (Ret []) [] idme_default_values (replicate (Z.to_nat CONFIG_IDME_SIZE) 0))
    as (buf & _ & Hr & Hv).
  - rewrite zlen_replicate. apply Z2Nat.id. discriminate.
  - apply default_values_wf.
  - done.
  - apply Forall_forall. intros v _. apply value_string_default.
  - apply default_values_fit.
  - by exists buf.
Qed.

Lemma idme_get_var_refines_witness :
  ∃ buf, idme_repr buf demo_items
    ∧ idme_get_var_v2p0 (str "bootmode") 6 (Some buf) = Ret (Some (str "1" ++ [0; 0; 0])).
Proof.
  destruct default_table as (buf & Hr & _). exists buf. split; [done|].
  rewrite (idme_get_var_refines buf demo_items (str "bootmode") 6); [by vm_compute|by repeat constructor|done|lia].
Defined.

Lemma idme_update_var_refines_witness :
  ∃ buf buf', idme_repr buf demo_items
    ∧ idme_update_var_v2p0 (str "serial") (Some (str "G0B1")) 4 (Some buf) = Ret (Some buf')
    ∧ idme_repr buf' (set_entry (str "serial") (stored (str "G0B1") 4)
                        demo_items).
Proof.
  destruct default_table as (buf & Hr & _).
  pose proof (idme_update_var_refines buf demo_items (str "serial") (str "G0B1") 4) as Hu.
  destruct (get_entry (str "serial") demo_items) eqn:Hg; [|done].
  destruct Hu as (buf' & E & Hr' & _); [by repeat constructor|exact Hr|lia| |].
  - intros x _. change (zlen (str "G0B1")) with 4. lia.
  - exists buf, buf'. exact (conj Hr (conj E Hr')).
Defined.

Lemma idme_update_then_get_witness :
  ∃ buf buf', idme_update_var_v2p0 (str "serial") (Some (str "G0B1")) 4 (Some buf) = Ret (Some buf')
    ∧ idme_get_var_v2p0 (str "serial") 4 (Some buf') = Ret (Some (str "G0B1"))
    ∧ idme_get_var_v2p0 (str "region") 3 (Some buf') = idme_get_var_v2p0 (str "region") 3 (Some buf).
Proof.
  destruct default_table as (buf & Hr & _).
  destruct (get_entry (str "serial") demo_items) as [e|] eqn:Hg; [|done].
  destruct (update_var_repr buf demo_items (str "serial") (str "G0B1") 4 e) as (buf' & E & _);
    [by repeat constructor|done|lia|done|change (zlen (str "G0B1")) with 4; lia|].
  assert (Hv : ∀ x, get_entry (str "serial") demo_items = Some x →
    Z.min (e_size x) 4 ≤ zlen (str "G0B1")) by (intros; change (zlen (str "G0B1")) with 4; lia).
  exists buf, buf'. split; [done|]. split.
  - rewrite (idme_update_then_get buf demo_items (str "serial") (str "G0B1") 4 buf' (str "serial") 4);
      [by vm_compute|by repeat constructor|by repeat constructor|done|lia|lia|done|done].
  - rewrite (idme_update_then_get buf demo_items (str "serial") (str "G0B1") 4 buf' (str "region") 3);
      [done|by repeat constructor|by repeat constructor|done|lia|lia|done|done].
Defined.

#[local] Instance demo_mmc : Mmc unit := {|
  find_mmc_device _ := true;
  mmc_switch_part _ d := (0, d);
  mmc_capacity _ := CONFIG_IDME_SIZE;
  block_read _ _ d := (0, [], d);
  block_write _ _ _ d := (0, d);
|}.
#[local] Instance demo_heap : Heap (IdmeState unit) := fun _ st => (true, st).

Lemma idme_update_table_keeps_values_witness :
  ∃ old rc new, idme_update_table_v2p0 (Ret []) idme_default_values (Some old)
                  (mkIdme old true true tt) = Ret ((rc, Some new), mkIdme old true true tt)
    ∧ idme_get_var_v2p0 (str "region") 32 (Some new) = Ret (Some (fill 32 (str "US"))).
Proof.
  destruct default_table as (old & Hr & Hv).
  destruct (idme_update_table_keeps_values [] old demo_items (mkIdme old true true tt) (mkIdme old true true tt)
    Hr Hv eq_refl) as (rc & new & E & _ & Hk).
  exists old, rc, new. split; [done|].
  apply (Hk (item "region" 32 1 (Some (str "US")))). do 28 right. left.
Defined.
