(* ===== verification/IdmeBoot.v ===== *)
(** * What a boot does to the data store

    The boot counter of [cmd_idme.c], through the numbers it is written and read
    as, and the mode the device boots in. *)

From S2P Require Import Prelude Idme IdmeSpec.

(** ** Decimal numbers *)

Definition is_digit (c : Z) : Prop := 48 ≤ c ≤ 57.

Definition digits_value (ds : bytes) (i : Z) : Z := foldl (fun i c => i * 10 + c - 48) i ds.

Lemma digits_value_app ds es i : digits_value (ds ++ es) i = digits_value es (digits_value ds i).
Proof. apply foldl_app. Qed.

Lemma digits_value_le ds i : Forall is_digit ds → 0 ≤ i → i ≤ digits_value ds i.
Proof.
  intros Hd. revert i. induction Hd as [|c ds Hc Hd IH]; intros i Hi; [done|].
  unfold is_digit in Hc. simpl. etransitivity; [|apply IH]; lia.
Qed.

Lemma atoui_from_digits ds c rest i :
  Forall is_digit ds → ¬ is_digit c → 0 ≤ i → digits_value ds i < 0x80000000 →
  atoui_from (ds ++ c :: rest) i = Ret (digits_value ds i).
Proof.
  intros Hd Hc. revert i. induction Hd as [|d ds Hdd Hd IH]; intros i Hi Hv.
  - simpl. unfold is_digit in Hc. destruct (Z.leb_spec 48 c), (Z.leb_spec c 57); try done. lia.
  - unfold is_digit in Hdd. cbn [app atoui_from digits_value foldl] in *.
    rewrite (proj2 (Z.leb_le 48 d)), (proj2 (Z.leb_le d 57)) by lia. cbn [andb].
    fold (digits_value ds (i * 10 + d - 48)) in *.
    pose proof (digits_value_le ds (i * 10 + d - 48) Hd ltac:(lia)).
    rewrite s32_small by lia. apply IH; [lia|done].
Qed.

Lemma dec_digits_digits n x : 0 ≤ x → Forall is_digit (dec_digits n x).
Proof.
  revert x. induction n as [|n IH]; intros x Hx; [constructor|]. simpl.
  pose proof (Z.mod_pos_bound x 10 ltac:(lia)). apply Forall_app. split.
  - destruct (x <? 10); [constructor|]. apply IH. apply Z.div_pos; lia.
  - repeat constructor; unfold is_digit; lia.
Qed.

Lemma dec_digits_value n x : 0 ≤ x < 10 ^ Z.of_nat n → digits_value (dec_digits n x) 0 = x.
Proof.
  revert x. induction n as [|n IH]; intros x Hx; [simpl in Hx; simpl; lia|].
  simpl. rewrite digits_value_app. pose proof (Z.div_mod x 10 ltac:(lia)).
  destruct (Z.ltb_spec x 10).
  - rewrite Z.mod_small by lia. simpl. lia.
  - rewrite IH; [simpl; lia|]. rewrite Nat2Z.inj_succ, Z.pow_succ_r in Hx by lia.
    split; [apply Z.div_pos; lia|apply Z.div_lt_upper_bound; lia].
Qed.

Lemma dec_digits_mono n x y :
  0 ≤ x ≤ y → (length (dec_digits n x) ≤ length (dec_digits n y))%nat.
Proof.
  revert x y. induction n as [|n IH]; intros x y Hxy; [done|]. simpl. rewrite !length_app. simpl.
  destruct (Z.ltb_spec x 10), (Z.ltb_spec y 10); simpl; try lia.
  assert (0 ≤ x / 10 ≤ y / 10) as Hd%IH; [|lia].
  split; [apply Z.div_pos; lia|apply Z.div_le_mono; lia].
Qed.

Lemma dec_digits_length n k x : 0 ≤ x < 10 ^ Z.of_nat (S k) → (length (dec_digits n x) ≤ S k)%nat.
Proof.
  revert k x. induction n as [|n IH]; intros k x Hx; simpl; [lia|]. rewrite length_app. simpl.
  destruct (Z.ltb_spec x 10); simpl; [lia|].
  destruct k as [|k]; [simpl in Hx; lia|].
  assert (0 ≤ x / 10 < 10 ^ Z.of_nat (S k)) as Hd%IH; [|lia].
  rewrite (Nat2Z.inj_succ (S k)), Z.pow_succ_r in Hx by lia.
  split; [apply Z.div_pos; lia|apply Z.div_lt_upper_bound; lia].
Qed.

Lemma atoui_dec n rest : 0 ≤ n < 0x80000000 → atoui (dec_of_Z n ++ 0 :: rest) = Ret n.
Proof.
  intros Hn. assert (Hv : digits_value (dec_of_Z n) 0 = n) by (apply dec_digits_value; simpl; lia).
  unfold atoui. rewrite atoui_from_digits; [|apply dec_digits_digits; lia|by intros [? _]|done|lia].
  cbn [mbind run_bind]. rewrite Hv, u32_small by (split; lia). done.
Qed.

(** ** The boot counter *)

(** The counter [n] as its item holds it. *)
Definition counter_data (n : Z) : bytes := fill 8 (dec_of_Z n).

Lemma counter_digits n : 0 ≤ n ≤ 99999999 → (1 ≤ length (dec_of_Z n) ≤ 8)%nat.
Proof.
  intros Hn. split; [|by apply (dec_digits_length 20 7); simpl; lia].
  unfold dec_of_Z. cbn [dec_digits]. rewrite length_app. cbn [length]. lia.
Qed.

Lemma counter_data_eq n :
  0 ≤ n ≤ 99999999 → counter_data n = dec_of_Z n ++ replicate (8 - length (dec_of_Z n)) 0.
Proof.
  intros Hn%counter_digits. unfold counter_data, fill. by rewrite take_ge by lia.
Qed.

Lemma zlen_counter n : zlen (counter_data n) = 8.
Proof. by apply zlen_fill. Qed.

(** The counter read into the zeroed buffer of nine bytes. *)
Lemma read_counter n :
  0 ≤ n ≤ 99999999 →
  wr (replicate 9 0) 0 (counter_data n)
  = Ret (dec_of_Z n ++ replicate (9 - length (dec_of_Z n)) 0).
Proof.
  intros Hn. pose proof (counter_digits n Hn).
  change (replicate 9 0) with (replicate 8 0 ++ replicate 1 0).
  rewrite wr_app_0 by (by rewrite zlen_counter). rewrite counter_data_eq by done.
  rewrite <- app_assoc, <- replicate_add. do 3 f_equal. lia.
Qed.

(** The next number printed over it. *)
Lemma print_counter n :
  0 ≤ n < 99999999 →
  snprintf_d (dec_of_Z n ++ replicate (9 - length (dec_of_Z n)) 0) 9 (u32 (n + 1))
  = Ret (counter_data (n + 1) ++ [0]).
Proof.
  intros Hn. pose proof (counter_digits n ltac:(lia)). pose proof (counter_digits (n + 1) ltac:(lia)).
  pose proof (dec_digits_mono 20 n (n + 1) ltac:(lia)) as Hm.
  fold (dec_of_Z n) (dec_of_Z (n + 1)) in Hm.
  unfold snprintf_d, decimal. rewrite u32_small, s32_small by (unfold is_u32; lia).
  rewrite (proj2 (Z.ltb_ge (n + 1) 0)) by lia. rewrite take_ge by (simpl; lia).
  set (d := dec_of_Z n) in *. set (d' := dec_of_Z (n + 1)) in *.
  rewrite wr_ok; [|done|unfold zlen; rewrite !length_app, length_replicate; simpl; lia].
  f_equal. simpl. unfold zlen. rewrite counter_data_eq by lia. fold d'.
  rewrite <- !app_assoc. f_equal. rewrite length_app. cbn [length].
  rewrite drop_app_ge by lia. rewrite drop_replicate. rewrite <- replicate_cons_app.
  change ([0] ++ ?l) with (0 :: l). cbn [app]. f_equal. f_equal. lia.
Qed.

Section Boot.
Context {D : Type} `{Mmc D} `{Heap (IdmeState D)}.

(** Writing the table to the device changes the device only. *)
Lemma idme_platform_write_keeps st :
  ∃ rc d, idme_platform_write st
          = Ret (rc, mkIdme (gidme_buff st) (pidme_set st) (v2_functions st) d).
Proof.
  destruct st as [buf p v d]. unfold idme_platform_write, mbind, comp_bind, get_idme, pidme_data. simpl.
  destruct p; [|by eexists _, _]. destruct (negb (find_mmc_device d)); [by eexists _, _|].
  unfold on_mmc; simpl. destruct (mmc_switch_part _ d) as [rc d1]; simpl.
  destruct (negb (rc =? 0)); [by eexists _, _|]. simpl.
  destruct (block_write _ _ _ d1) as [nw d2]; simpl.
  destruct (mmc_switch_part 0 d2) as [rc' d3]; simpl.
  destruct (negb (rc' =? 0)); by eexists _, _.
Qed.

Lemma bootcount_name : Forall (λ c, c ≠ 0) (str "bootcount").
Proof. by repeat constructor. Qed.

(** Storing a value of the item's size. *)
Lemma stored_whole value tail len e :
  zlen value = e_size e → e_size e ≤ len → stored (value ++ tail) len e = value.
Proof.
  intros Hv Hl. pose proof (e_size_nonneg e). unfold stored. rewrite Z.min_l by lia.
  rewrite Z.sub_diag, app_nil_r, take_app_length'; [done|]. unfold zlen in Hv. lia.
Qed.

Lemma set_entry_const name f g es :
  (∀ e, get_entry name es = Some e → f e = g e) → set_entry name f es = set_entry name g es.
Proof.
  induction es as [|e es IH]; intros Hf; simpl in *; [done|]. case_bool_decide.
  - by rewrite Hf.
  - by rewrite IH.
Qed.

(** [idme_update_var_ex] on a loaded table: without an item of that name nothing
    happens; otherwise the item is set, also when the device does not take it. *)
Lemma update_var_ex_repr (st : IdmeState D) es name value len :
  Forall (λ c, c ≠ 0) name → idme_repr (gidme_buff st) es →
  pidme_set st = true → v2_functions st = true → 0 ≤ len →
  (∀ e, get_entry name es = Some e → Z.min (e_size e) len ≤ zlen value) →
  ∃ rc st', idme_update_var_ex (Some name) (Some value) len st = Ret (rc, st')
    ∧ pidme_set st' = true ∧ v2_functions st' = true ∧ (rc = 0 ∨ rc = -1)
    ∧ match get_entry name es with
      | None => rc = -1 ∧ st' = st
      | Some _ => idme_repr (gidme_buff st') (set_entry name (stored value len) es)
      end.
Proof.
  intros Hname Hr Hp Hv Hlen Hval.
  unfold idme_update_var_ex, idme_update_var, mbind, comp_bind, get_idme, pidme_data. rewrite Hv, Hp.
  destruct (get_entry name es) as [e|] eqn:Hg.
  - destruct (update_var_repr (gidme_buff st) es name value len e) as (buf & Hu & Hr' & _); auto.
    rewrite (lift_run _ _ _ Hu). unfold set_buff, mret, comp_ret. cbn [negb Z.eqb].
    destruct (idme_platform_write_keeps (mkIdme buf (pidme_set st) (v2_functions st) (mmc st)))
      as (rc & d & ->). cbv beta iota. eexists _, _. split; [done|].
    split_and!; [done..| |done]. destruct (negb (rc =? 0)); auto.
  - rewrite (lift_run _ _ _ (update_var_absent (gidme_buff st) es name (Some value) len Hname Hr Hg)).
    unfold mret, comp_ret. cbn. exists (-1), st. split_and!; auto.
Qed.

(** The table that is written when a boot is counted. *)
Lemma boot_info_writes (st : IdmeState D) es e n :
  pidme_set st = true → v2_functions st = true → idme_repr (gidme_buff st) es →
  get_entry (str "bootcount") es = Some e → e_data e = counter_data n → 0 ≤ n < 99999999 →
  ∃ buf, idme_repr buf (set_entry (str "bootcount") (fun _ => counter_data (n + 1)) es)
    ∧ slice buf 0 IDME_ITEM_DATA_OFF = slice (gidme_buff st) 0 IDME_ITEM_DATA_OFF
    ∧ ∀ rc st', idme_platform_write (mkIdme buf true true (mmc st)) = Ret (rc, st') →
        idme_boot_info st = Ret (tt, st').
Proof.
  intros Hp Hv Hr Hg Hd Hn. unfold idme_boot_info, mbind, comp_bind, get_idme. rewrite Hv. cbn [negb].
  unfold idme_get_var, mbind, comp_bind, get_idme, pidme_data. rewrite Hp.
  rewrite (lift_run _ _ _ (get_var_repr (gidme_buff st) es (str "bootcount") 9 bootcount_name Hr
    ltac:(lia))), Hg. cbn [mbind option_bind].
  rewrite Hd. rewrite take_ge by (pose proof (zlen_counter n); unfold zlen in *; lia).
  rewrite (lift_run _ _ _ (read_counter n ltac:(lia))).
  assert (Ha : atoui (dec_of_Z n ++ replicate (9 - length (dec_of_Z n)) 0) = Ret n).
  { pose proof (counter_digits n ltac:(lia)).
    replace (9 - length (dec_of_Z n))%nat with (S (8 - length (dec_of_Z n))) by lia.
    apply atoui_dec. lia. }
  rewrite (lift_run _ _ _ Ha), (proj2 (Z.eqb_neq n 99999999)) by lia.
  rewrite (lift_run _ _ _ (print_counter n ltac:(lia))).
  unfold idme_update_var_ex, idme_update_var, mbind, comp_bind, get_idme, pidme_data. rewrite Hv, Hp.
  assert (He : e_size e = 8) by (unfold e_size; rewrite Hd; apply zlen_counter).
  destruct (update_var_repr (gidme_buff st) es (str "bootcount") (counter_data (n + 1) ++ [0])
    IDME_MAX_IDME_ITEM_SIZE e bootcount_name Hr) as (buf & Hu & Hr' & Hs); [done|done| |].
  { rewrite He, zlen_app, zlen_counter. done. }
  exists buf. split; [|split; [done|]].
  - rewrite (set_entry_const _ _ (stored (counter_data (n + 1) ++ [0]) IDME_MAX_IDME_ITEM_SIZE)); [done|].
    intros x Hx. assert (x = e) as -> by congruence. symmetry. apply stored_whole; rewrite He; [apply zlen_counter|done].
  - intros rc st' Ew. rewrite (lift_run _ _ _ Hu). unfold set_buff, mret, comp_ret. cbn [negb Z.eqb].
    rewrite ?Hp, ?Hv, Ew. by destruct (negb (rc =? 0)).
Qed.

(** A boot counts: with the table loaded and a counter [n] of eight digits,
    the counter in the table is [n + 1] afterwards and every other item is as it
    was, whatever the device answers to the write; at 99999999 nothing changes. *)
Theorem idme_boot_info_counts (st : IdmeState D) es e n :
  pidme_set st = true → v2_functions st = true → idme_repr (gidme_buff st) es →
  get_entry (str "bootcount") es = Some e → e_data e = counter_data n → 0 ≤ n ≤ 99999999 →
  ∃ st', idme_boot_info st = Ret (tt, st')
    ∧ if n =? 99999999 then st' = st
      else idme_repr (gidme_buff st')
             (set_entry (str "bootcount") (fun _ => counter_data (n + 1)) es).
Proof.
  intros Hp Hv Hr Hg Hd Hn. destruct (Z.eqb_spec n 99999999) as [->|Hmax].
  - exists st. split; [|done]. unfold idme_boot_info, mbind, comp_bind, get_idme. rewrite Hv. cbn [negb].
    unfold idme_get_var, mbind, comp_bind, get_idme, pidme_data. rewrite Hp.
    rewrite (lift_run _ _ _ (get_var_repr (gidme_buff st) es (str "bootcount") 9 bootcount_name Hr
      ltac:(lia))), Hg. cbn [mbind option_bind]. rewrite Hd. reflexivity.
  - destruct (boot_info_writes st es e n Hp Hv Hr Hg Hd ltac:(lia)) as (buf & Hb & _ & Hw).
    destruct (idme_platform_write_keeps (mkIdme buf true true (mmc st))) as (rc & d & Ew).
    eexists. split; [exact (Hw _ _ Ew)|done].
Qed.

End Boot.

#[local] Instance demo_mmc : Mmc unit := {|
  find_mmc_device _ := true;
  mmc_switch_part _ d := (0, d);
  mmc_capacity _ := CONFIG_IDME_SIZE;
  block_read _ _ d := (0, [], d);
  block_write _ _ _ d := (0, d);
|}.
#[local] Instance demo_heap : Heap (IdmeState unit) := fun _ st => (true, st).

Lemma idme_boot_info_counts_witness :
  ∃ buf st', idme_boot_info (mkIdme buf true true tt) = Ret (tt, st')
    ∧ idme_repr (gidme_buff st') (set_entry (str "bootcount") (fun _ => counter_data 1)
                                    (default_entry [] <$> idme_default_values)).
Proof.
  destruct default_table as (buf & Hr & _). exists buf.
  destruct (idme_boot_info_counts (mkIdme buf true true tt) _
    (default_entry [] (item "bootcount" 8 1 (Some (str "0")))) 0 eq_refl eq_refl Hr)
    as (st' & E & Hr'); [by vm_compute|by vm_compute|lia|].
  exists st'. exact (conj E Hr').
Defined.
