(* ===== verification/IdmeCmd.v ===== *)
(** * The IDME commands and exports

    [do_idme] and [fastboot_idme] of [cmd_idme.c], the printing of the table and
    its export to the kernel as an ATAG and as device tree nodes
    ([cmd_idme_v2_0.c]), and the flag helpers of [idme.h] and
    [idme_utilities.c]. *)

From S2P Require Import Prelude Idme IdmeSpec IdmeBoot.

Definition IDME_MAX_PRINT_SIZE : Z := 40.
Definition IDME_MAX_DT_PRINT_SIZE : Z := 1024.

(** ** Strings *)

(** At most [n] characters of a string, reading no further. *)
Fixpoint strn (n : nat) (p : bytes) : run bytes :=
  match n, p with
  | O, _ => mret []
  | S _, [] => Crash OutOfBounds
  | S n, c :: p => if c =? 0 then mret [] else s ← strn n p; mret (c :: s)
  end.

(** The non-empty pieces between separators, with [cur] read so far. *)
Fixpoint tokens_from (sep : Z → bool) (s cur : bytes) : list bytes :=
  match s with
  | [] => match cur with [] => [] | _ => [cur] end
  | c :: s =>
      if sep c then match cur with [] => tokens_from sep s [] | _ => cur :: tokens_from sep s [] end
      else tokens_from sep s (cur ++ [c])
  end.
(** The tokens [strtok] gives for the delimiter " ". *)
Definition strtok_tokens (s : bytes) : list bytes := tokens_from (fun c => c =? 32) s [].

(** ** Printing the table *)

(** What a command sends: a failure, or information. *)
Inductive idme_message := FailMessage (s : bytes) | InfoMessage (s : bytes).

Definition permission_bit (permission mask c : Z) : Z :=
  if Z.land permission mask =? 0 then 45 else c.
Definition idme_permission_to_string (permission : Z) : bytes :=
  let bits p := [permission_bit p 4 114; permission_bit p 2 119; permission_bit p 1 120] in
  bits (Z.shiftr permission 6) ++ bits (Z.shiftr permission 3) ++ bits permission.

(** The items that are shown on the console only. *)
Definition hidden_items : list bytes := [str "manufacturing"; str "mac_sec"; str "unlock_code"].

(** The messages for the next [n] items; the console shows every item. *)
Fixpoint print_items (buf : bytes) (pitem : Z) (n : nat) : run (list idme_message) :=
  match n with
  | O => mret []
  | S n =>
      size ← load32 buf (pitem + DESC_SIZE);
      data ← rd buf (pitem + sizeof_idme_desc) (Z.min size IDME_MAX_PRINT_SIZE);
      name ← c_str (drop (Z.to_nat pitem) buf);
      next ← idme_item_next buf pitem;
      rest ← print_items buf next n;
      mret (if bool_decide (name ∈ hidden_items) then rest
            else InfoMessage (take (Z.to_nat IDME_MAX_PRINT_SIZE) (name ++ str ": "))
                   :: InfoMessage (cut data) :: rest)
  end.

Definition idme_print_var_v2p0 (data : option bytes) : run (Z * list idme_message) :=
  data_presence ← idme_check_magic_number data;
  match data with
  | Some buf =>
      if negb (data_presence =? 0) then mret (-1, [])
      else
        items_num ← load32 buf IDME_ITEMS_NUM_OFF;
        msgs ← print_items buf IDME_ITEM_DATA_OFF (Z.to_nat items_num);
        mret (0, msgs)
  | None => mret (-1, [])
  end.

(** ** The ATAG *)

(** The next [n] items; [dst] moves on by the size of every item, exported or
    not.  -1 when an item is beyond the limit. *)
Fixpoint atag_items (buf : bytes) (pitem : Z) (n : nat) (atag : bytes) (dst limit : Z)
    : run (Z * bytes) :=
  match n with
  | O => mret (0, atag)
  | S n =>
      size ← load32 buf (pitem + DESC_SIZE);
      let item_size := u32 (sizeof_idme_desc + size) in
      if dst + item_size >? limit then
        c_str (drop (Z.to_nat pitem) buf);; mret (-1, atag)
      else
        exportable ← load32 buf (pitem + DESC_EXPORTABLE);
        atag ← (if exportable =? 0 then mret atag
                else
                  it ← rd buf pitem item_size;
                  atag ← wr atag dst it;
                  items_num ← load32 atag IDME_ITEMS_NUM_OFF;
                  atag ← wr atag IDME_ITEMS_NUM_OFF (le_encode 4 (items_num + 1));
                  c_str (drop (Z.to_nat pitem) buf);;
                  c_str (drop (Z.to_nat (pitem + sizeof_idme_desc)) buf);;
                  mret atag);
        next ← idme_item_next buf pitem;
        atag_items buf next n atag (dst + item_size) limit
  end.

(** The result and the buffer; the number of items is read before the pointer is
    checked. *)
Definition idme_init_atag_v2p0 (atag_buffer : bytes) (data : option bytes) (size : Z)
    : run (Z * bytes) :=
  match data with
  | None => Crash NullDeref
  | Some buf =>
      count ← load32 buf IDME_ITEMS_NUM_OFF;
      data_presence ← idme_check_magic_number data;
      if negb (data_presence =? 0) then mret (-1, atag_buffer)
      else
        atag ← wr atag_buffer 0 (replicate (Z.to_nat size) 0);
        atag ← wr atag 0 IDME_MAGIC_NUMBER;
        atag ← wr atag IDME_VERSION_OFF IDME_VERSION_2P0;
        atag ← wr atag IDME_ITEMS_NUM_OFF (le_encode 4 0);
        atag_items buf IDME_ITEM_DATA_OFF (Z.to_nat count) atag IDME_ITEM_DATA_OFF size
  end.

(** ** The device tree *)

(** The operations of libfdt that the export uses; a negative number is an error. *)
Class Fdt (F : Type) := {
  fdt_path_offset : F → bytes → Z;
  fdt_add_subnode : F → Z → bytes → Z * F;
  fdt_setprop : F → Z → bytes → bytes → Z * F;
}.

Section DeviceTree.
Context {F : Type} `{Fdt F}.

(** One exported item below the node at [offset]. *)
Definition export_node (offset : Z) (name temp : bytes) (permission : Z) (fdt : F) : Z * F :=
  let '(ret, fdt) := fdt_add_subnode fdt offset name in
  if ret <? 0 then (ret, fdt) else
  let node_offset := fdt_path_offset fdt (take (16 + 6) (str "/idme/" ++ name)) in
  if node_offset <? 0 then (node_offset, fdt) else
  let '(ret, fdt) := fdt_setprop fdt node_offset (str "value") (temp ++ [0]) in
  if ret <? 0 then (ret, fdt) else
  fdt_setprop fdt node_offset (str "permission") (be_encode 4 permission).

Fixpoint dt_items (buf : bytes) (pitem : Z) (n : nat) (offset : Z) (fdt : F) : run (Z * F) :=
  match n with
  | O => mret (0, fdt)
  | S n =>
      exportable ← load32 buf (pitem + DESC_EXPORTABLE);
      next ← idme_item_next buf pitem;
      if exportable =? 0 then dt_items buf next n offset fdt
      else
        size ← load32 buf (pitem + DESC_SIZE);
        temp ← strn (Z.to_nat (Z.min size IDME_MAX_DT_PRINT_SIZE))
                 (drop (Z.to_nat (pitem + sizeof_idme_desc)) buf);
        name ← c_str (drop (Z.to_nat pitem) buf);
        permission ← load32 buf (pitem + DESC_PERMISSION);
        let '(ret, fdt) := export_node offset name temp permission fdt in
        if ret <? 0 then mret (ret, fdt) else dt_items buf next n offset fdt
  end.

(** The tree is searched for "/idme", and the nodes are made when the result has
    the bit of [FDT_ERR_NOTFOUND]; [ok] says whether the text buffer was
    allocated. *)
Definition idme_init_dev_tree_v2p1 (fdt : F) (data : option bytes) (ok : bool) : run (Z * F) :=
  match data with
  | None => Crash NullDeref
  | Some buf =>
      count ← load32 buf IDME_ITEMS_NUM_OFF;
      if negb ok then mret (-1, fdt) else
      let ret := fdt_path_offset fdt (str "/idme") in
      if Z.odd ret then
        let root := fdt_path_offset fdt (str "/") in
        if root <? 0 then mret (root, fdt) else
        let '(ret, fdt) := fdt_add_subnode fdt root (str "idme") in
        if ret <? 0 then mret (ret, fdt) else
        let offset := fdt_path_offset fdt (str "/idme") in
        if offset <? 0 then mret (offset, fdt) else
        dt_items buf IDME_ITEM_DATA_OFF (Z.to_nat count) offset fdt
      else mret (ret, fdt)
  end.
End DeviceTree.

(** ** Flags *)

Definition idme_flags_table : list bytes :=
  [str "FOS_FLAGS_NONE"; str "FOS_FLAGS_ADB_ON"; str "FOS_FLAGS_ADB_ROOT"; str "FOS_FLAGS_CONSOLE_ON";
   str "FOS_FLAGS_RAMDUMP_ON"; str "FOS_FLAGS_VERBOSITY_ON"; str "FOS_FLAGS_ADB_AUTH_DISABLE";
   str "FOS_FLAGS_FORCE_DM_VERITY"; str "FOS_FLAGS_DM_VERITY_OFF"; str "FOS_FLAGS_BOOT_DEXOPT"].

(** [snprintf] of [text] at [off] in a buffer with [room] bytes from there: the
    text is cut to leave space for its NUL. *)
Definition snprintf_at (buf : bytes) (off room : Z) (text : bytes) : run bytes :=
  if 0 <? room then wr buf off (take (Z.to_nat (room - 1)) text ++ [0]) else mret buf.

(** The buffer, how much of it is used, and the size of the whole text. *)
Definition append_text (st : bytes * Z * Z) (bufsize : Z) (text : bytes) : run (bytes * Z * Z) :=
  let '(buf, s, size_needed) := st in
  buf ← snprintf_at buf s (bufsize - s) text;
  let size_needed := size_needed + zlen text in
  mret (buf, Z.min size_needed bufsize, size_needed).

(** The loop over the known flags. *)
Fixpoint fos_known (fuel : nat) (flags pos bufsize : Z) (st : bytes * Z * Z)
    : run (Z * Z * (bytes * Z * Z)) :=
  match fuel with
  | O => Crash NoFuel
  | S fuel =>
      let pos := if flags =? 0 then pos - 1 else pos in
      st ← (if Z.odd flags || ((flags =? 0) && (pos =? 0)) then
              match idme_flags_table !! Z.to_nat pos with
              | Some name => append_text st bufsize (name ++ if flags <=? 1 then [] else str "|")
              | None => Crash OutOfBounds
              end
            else mret st);
      let pos := pos + 1 in
      let flags := Z.shiftr flags 1 in
      if negb (flags =? 0) && (pos <? zlen idme_flags_table) then fos_known fuel flags pos bufsize st
      else mret (flags, pos, st)
  end.

(** 0 and the buffer when the text fits, or the size to provide. *)
Definition fos_flags_to_str (flags : Z) (buf : option bytes) (bufsize : Z) : run (Z * bytes) :=
  let bufsize := match buf with Some _ => bufsize | None => 0 end in
  r ← fos_known (length idme_flags_table) flags 1 bufsize (default [] buf, 0, 0);
  let '(flags, pos, st) := r in
  st ← (if flags =? 0 then mret st
        else append_text st bufsize
               (str "!UNKNOWN FLAGS 0x" ++ hex_of_Z (u64 (Z.shiftl flags (pos - 1))) ++ str "!"));
  let '(buf, _, size_needed) := st in
  mret (if size_needed <=? bufsize then 0 else size_needed + 1, buf).

(** ** Commands *)

Section Commands.
Context {D : Type} `{Mmc D} `{Heap (IdmeState D)} (null_string : run bytes).
Context (defaults : list idme_init_values).
Notation W := (IdmeState D).

Definition idme_device_tree_initialize {F} `{Fdt F} (fdt : F) : comp W (Z * F) :=
  st ← get_idme;
  if negb (v2_functions st) then mret (0, fdt) else
  ok ← malloc (IDME_MAX_DT_PRINT_SIZE + 1);
  st ← get_idme;
  lift (idme_init_dev_tree_v2p1 fdt (pidme_data st) ok).

Definition idme_atag_initialize (atag_buffer : option bytes) (size : Z) : comp W (Z * option bytes) :=
  match atag_buffer with
  | None => mret (-1, None)
  | Some atag =>
      st ← get_idme;
      if negb (v2_functions st) then mret (-1, Some atag) else
      r ← lift (idme_init_atag_v2p0 atag (pidme_data st) size);
      mret (r.1, Some r.2)
  end.

(** The static buffer [board_id] afterwards, which is also printed as a string. *)
Definition idme_board_id (board_id : bytes) : comp W (option bytes) :=
  st ← get_idme;
  if negb (v2_functions st) then mret None else
  got ← idme_get_var (str "board_id") 16;
  match got with
  | None => mret None
  | Some got =>
      board_id ← lift (wr board_id 0 got);
      lift (c_str board_id);;
      mret (Some board_id)
  end.

Definition idme_is_flag_set (atoul : bytes → Z) (flagtype : bytes) (flags : Z) : comp W Z :=
  r ← idme_get_var_external flagtype IDME_MAX_NAME_LEN;
  let idme_flags := match r with
                    | (0, Some got) => atoul (str "0x" ++ cut got)
                    | _ => 0
                    end in
  mret (if Z.land idme_flags flags =? flags then 1 else 0).
Definition idme_is_fos_flag_set (atoul : bytes → Z) (flags : Z) : comp W Z :=
  idme_is_flag_set atoul (str "fos_flags") flags.

Definition idme_log_failure (msg : bytes) : comp W (Z * list idme_message) :=
  mret (-1, [FailMessage msg]).

(** "idme ? name" *)
Definition idme_query (name : bytes) : comp W (Z * list idme_message) :=
  let text := take 1023 (name ++ str ": ") in
  st ← get_idme;
  if negb (v2_functions st) then mret (-1, [FailMessage text]) else
  got ← idme_get_var name (1024 - zlen text);
  match got with
  | None => mret (-1, [FailMessage text])
  | Some got =>
      buf ← lift (wr (replicate 1024 0) 0 (text ++ got));
      s ← lift (c_str buf);
      mret (0, [InfoMessage s])
  end.

(** "idme version v": the start of a known version, written over the old one. *)
Definition idme_set_version (v : bytes) : comp W (Z * list idme_message) :=
  if negb (existsb (fun t => has_prefix t.1 v) idme_ver_table) then mret (-1, []) else
  st ← get_idme;
  match pidme_data st with
  | None => null_deref
  | Some buf =>
      buf ← lift (wr buf IDME_VERSION_OFF v);
      set_buff buf;;
      idme_platform_write;;
      mret (0, [])
  end.

Definition idme_set (name value : bytes) : comp W (Z * list idme_message) :=
  st ← get_idme;
  if negb (v2_functions st) then idme_log_failure (str "IDME: failure") else
  rc ← idme_update_var name (Some (value ++ [0])) (zlen value);
  if negb (rc =? 0) then idme_log_failure (str "IDME: Failure in update var") else
  rc ← idme_platform_write;
  if negb (rc =? 0) then idme_log_failure (str "IDME: Failure in idme write") else
  mret (0, []).

Definition idme_print : comp W (Z * list idme_message) :=
  st ← get_idme;
  if v2_functions st then lift (idme_print_var_v2p0 (pidme_data st)) else mret (-1, []).

(** The result and the messages; the arguments are printed before anything is
    checked, [argv] being as long as the caller's array. *)
Definition do_idme (argc : Z) (argv : list bytes) : comp W (Z * list idme_message) :=
  if argc <=? 0 then mret (-1, []) else
  if zlen argv <? argc then (fun _ => Crash OutOfBounds) else
  match take (Z.to_nat argc) argv with
  | [] | [_] => idme_print
  | _ :: a1 :: rest =>
      if has_prefix a1 (str "?") then
        match rest with
        | [name] => idme_query name
        | _ => idme_print
        end
      else
        match rest with
        | [] =>
            if has_prefix a1 (str "clean") then
              rc ← idme_clean;
              if negb (rc =? 0) then idme_log_failure (str "Error IDME: Failure in clean")
              else mret (0, [])
            else if has_prefix a1 (str "init") then
              rc ← idme_initialize null_string defaults;
              if negb (rc =? 0) then idme_log_failure (str "Error IDME: Failure in Init")
              else mret (0, [])
            else idme_log_failure (str "Error IDME: Unknown Command")
        | [a2] =>
            if has_prefix a2 (str "clean") then idme_set a1 (str "0")
            else if has_prefix a1 (str "version") then idme_set_version a2
            else idme_set a1 a2
        | _ => mret (0, [])
        end
  end.

(** The first token and the last of the others, cut to their buffers; a null
    pointer prints as "<NULL>". *)
Definition fastboot_idme (cmd : option bytes) : comp W (Z * list idme_message) :=
  let tokens := match cmd with Some s => strtok_tokens s | None => [] end in
  let ver := take 31 (default (str "<NULL>") (head tokens)) in
  let value := take 31 (default [] (last (tail tokens))) in
  do_idme (2 + zlen (tail tokens)) [str "idme"; ver; value].
End Commands.

(** ** What the commands keep *)

(** What no command changes in an item: everything but its data. *)
Definition item_shape (e : entry) : bytes * Z * Z * Z :=
  (e_name e, e_exportable e, e_permission e, e_size e).

Lemma set_entry_shape name f es :
  (∀ e, get_entry name es = Some e → zlen (f e) = e_size e) →
  item_shape <$> set_entry name f es = item_shape <$> es.
Proof.
  induction es as [|e es IH]; intros Hf; simpl in *; [done|]. case_bool_decide.
  - csimpl. unfold item_shape at 1 3, e_size at 1. simpl. by rewrite Hf.
  - csimpl. by rewrite IH.
Qed.

(** Overwriting the version leaves the items. *)
Lemma version_repr buf es v buf' :
  idme_repr buf es → zlen v ≤ 4 → wr buf IDME_VERSION_OFF v = Ret buf' → idme_repr buf' es.
Proof.
  intros (Hl & Hm & Hn & Hu & Hwf & Hat) Hv W. unfold idme_repr, IDME_ITEMS_NUM_OFF in *.
  rewrite (slice_wr_other _ _ _ _ 0 8 W), (slice_wr_other _ _ _ _ 12 4 W), (wr_length _ _ _ _ W)
    by (unfold IDME_VERSION_OFF; lia).
  split_and!; try done. eapply items_at_other; [exact W|done| |exact Hat].
  unfold IDME_VERSION_OFF, IDME_ITEM_DATA_OFF. lia.
Qed.

Section Keeps.
Context {D : Type} `{Mmc D} `{Heap (IdmeState D)} (null_string : run bytes).
Context (defaults : list idme_init_values).
Implicit Types st : IdmeState D.

(** A table is loaded, with the items of [es] up to their data. *)
Definition holds_items st (es : list entry) : Prop :=
  pidme_set st = true ∧ v2_functions st = true
  ∧ ∃ es', idme_repr (gidme_buff st) es' ∧ item_shape <$> es' = item_shape <$> es.
(** The table has been erased and is not loaded. *)
Definition erased st : Prop :=
  pidme_set st = false ∧ gidme_buff st = replicate (Z.to_nat CONFIG_IDME_SIZE) 0.

Lemma loaded_holds st es :
  pidme_set st = true → v2_functions st = true → idme_repr (gidme_buff st) es → holds_items st es.
Proof. intros. split; [done|]. split; [done|]. by exists es. Qed.

Ltac loaded := split; [done|]; split; [done|].

Lemma idme_set_keeps name value st es r st' :
  Forall (λ c, c ≠ 0) name → pidme_set st = true → v2_functions st = true →
  idme_repr (gidme_buff st) es → idme_set name value st = Ret (r, st') → holds_items st' es.
Proof.
  intros Hname Hp Hv Hr E. unfold idme_set, idme_update_var, mbind, comp_bind, get_idme, pidme_data in E.
  rewrite Hv in E. cbn [negb] in E. rewrite Hp in E.
  destruct (get_entry name es) as [e|] eqn:Hg.
  - assert (Hval : Z.min (e_size e) (zlen value) ≤ zlen (value ++ [0])).
    { rewrite zlen_app. change (zlen [0]) with 1. lia. }
    destruct (update_var_repr (gidme_buff st) es name (value ++ [0]) (zlen value) e Hname Hr
      (zlen_nonneg _) Hg Hval) as (buf & Hu & Hr' & _).
    rewrite (lift_run _ _ _ Hu) in E. unfold set_buff, mret, comp_ret in E. cbn [negb Z.eqb] in E.
    destruct (idme_platform_write_keeps (mkIdme buf (pidme_set st) (v2_functions st) (mmc st)))
      as (rc & d & Ew). rewrite Ew in E. cbn [gidme_buff pidme_set v2_functions] in E.
    assert (st' = mkIdme buf (pidme_set st) (v2_functions st) d) as ->
      by (destruct (negb (rc =? 0)); cbv [idme_log_failure mret comp_ret] in E; congruence).
    loaded. eexists. split; [exact Hr'|]. apply set_entry_shape.
    intros x Hx. assert (x = e) as -> by congruence. apply stored_length; [apply zlen_nonneg|exact Hval].
  - rewrite (lift_run _ _ _ (update_var_absent (gidme_buff st) es name _ _ Hname Hr Hg)) in E.
    unfold mret, comp_ret in E. cbn [negb Z.eqb] in E. cbv [idme_log_failure mret comp_ret] in E.
    simplify_eq. loaded. by exists es.
Qed.

Lemma idme_print_same st es r st' :
  holds_items st es → idme_print st = Ret (r, st') → holds_items st' es.
Proof.
  intros Hst E. unfold idme_print, mbind, comp_bind, get_idme in E.
  destruct (v2_functions st); [apply lift_Ret in E as (a & _ & E)|cbv [mret comp_ret] in E];
    by simplify_eq.
Qed.

Lemma idme_query_same name st es r st' :
  holds_items st es → idme_query name st = Ret (r, st') → holds_items st' es.
Proof.
  intros Hst E. unfold idme_query, idme_get_var in E.
  apply comp_bind_Ret in E as (x & st1 & Ex & E). unfold get_idme in Ex. simplify_eq.
  destruct (negb _); [by run_inv|].
  apply comp_bind_Ret in E as (got & st2 & Eg & E).
  apply comp_bind_Ret in Eg as (y & st3 & Ey & Eg). unfold get_idme in Ey. simplify_eq.
  apply lift_Ret in Eg as (got' & _ & Eg). simplify_eq. destruct got'; [|by run_inv].
  apply comp_bind_Ret in E as (buf & s2 & (? & _ & ?)%lift_Ret & E). simplify_eq.
  apply comp_bind_Ret in E as (t & s3 & (? & _ & ?)%lift_Ret & E). simplify_eq. by run_inv.
Qed.

Lemma idme_set_version_keeps v st es r st' :
  pidme_set st = true → v2_functions st = true →
  idme_repr (gidme_buff st) es → idme_set_version v st = Ret (r, st') → holds_items st' es.
Proof.
  intros Hp Hv Hr E. unfold idme_set_version in E.
  destruct (existsb _ _) eqn:Hx; cbn [negb] in E; [|by run_inv; loaded; exists es].
  assert (Hl : zlen v ≤ 4).
  { apply existsb_exists in Hx as (t & Ht & Hpre). apply bool_decide_eq_true in Hpre.
    apply (f_equal length) in Hpre. rewrite length_take in Hpre. unfold zlen.
    cbn in Ht. destruct Ht as [<-|[<-|[<-|[<-|[]]]]]; cbn in Hpre; lia. }
  unfold mbind, comp_bind, get_idme, pidme_data in E. rewrite Hp in E.
  destruct (wr (gidme_buff st) IDME_VERSION_OFF v) as [buf|] eqn:W; [|done].
  rewrite (lift_run _ _ _ eq_refl) in E. unfold set_buff in E.
  destruct (idme_platform_write_keeps (mkIdme buf (pidme_set st) (v2_functions st) (mmc st)))
    as (rc & d & Ew). rewrite Ew in E. cbn in E.
  cbv [mret comp_ret] in E. simplify_eq.
  loaded. exists es. split; [by eapply version_repr|done].
Qed.

Lemma idme_clean_keeps st es rc st' :
  pidme_set st = true → v2_functions st = true →
  idme_repr (gidme_buff st) es → idme_clean st = Ret (rc, st') → erased st'.
Proof.
  intros Hp Hv Hr E. unfold idme_clean, mbind, comp_bind, get_idme, pidme_data in E.
  rewrite Hp in E. rewrite (lift_run _ _ _ (magic_present _ (proj1 (proj2 Hr)))) in E.
  cbn [negb Z.eqb] in E.
  destruct (wr (gidme_buff st) 0 _) as [buf|] eqn:W; [|done].
  rewrite (lift_run _ _ _ eq_refl) in E. unfold set_buff, set_pidme in E.
  destruct (idme_platform_write_keeps (mkIdme buf (pidme_set st) (v2_functions st) (mmc st)))
    as (rc' & d & Ew). rewrite Ew in E. cbn in E.
  cbv [mret comp_ret] in E. simplify_eq. split; [done|]. cbn.
  apply wr_Ret in W as (_ & _ & ->). cbn [take app Z.to_nat].
  destruct Hr as (Hl & _). unfold zlen in *. rewrite length_replicate.
  rewrite drop_ge by lia. apply app_nil_r.
Qed.

(** C25: no command breaks the table: with a table loaded, whatever the arguments
    of [do_idme] are, afterwards a table is loaded that has the same items with
    the same sizes, export flags and permissions, or the table has been erased by
    "idme clean". *)
Theorem do_idme_keeps_table argc argv st es r st' :
  pidme_set st = true → v2_functions st = true → idme_repr (gidme_buff st) es →
  Forall (Forall (λ c, c ≠ 0)) argv →
  do_idme null_string defaults argc argv st = Ret (r, st') →
  holds_items st' es ∨ (has_prefix (nth 1 argv []) (str "clean") = true ∧ erased st').
Proof.
  intros Hp Hv Hr Hargv E. pose proof (loaded_holds st es Hp Hv Hr) as Hst. unfold do_idme in E.
  destruct (argc <=? 0) eqn:Ha; [by run_inv; left|]. apply Z.leb_gt in Ha.
  destruct (zlen argv <? argc) eqn:Hb; [done|]. apply Z.ltb_ge in Hb.
  destruct (take (Z.to_nat argc) argv) as [|a0 [|a1 rest]] eqn:Ht.
  1, 2: left; eapply idme_print_same; eauto.
  assert (Forall (Forall (λ c, c ≠ 0)) (a0 :: a1 :: rest)) as Hall
    by (rewrite <- Ht; by apply Forall_take).
  assert (nth 1 argv [] = a1) as Hn.
  { rewrite <- (take_drop (Z.to_nat argc) argv), Ht. done. }
  apply Forall_cons in Hall as [_ [Ha1 _]%Forall_cons].
  destruct (has_prefix a1 (str "?")).
  { destruct rest as [|n [|]]; left; [eapply idme_print_same|eapply idme_query_same|eapply idme_print_same]; eauto. }
  destruct rest as [|a2 [|]]; [|left|by run_inv; left].
  - destruct (has_prefix a1 (str "clean")) eqn:Hc.
    + right. rewrite Hn. split; [done|]. apply comp_bind_Ret in E as (rc & s1 & Ec & E).
      pose proof (idme_clean_keeps _ _ _ _ Hp Hv Hr Ec).
      destruct (negb (rc =? 0)); cbv [idme_log_failure mret comp_ret] in E; by simplify_eq.
    + left. destruct (has_prefix a1 (str "init")).
      * apply comp_bind_Ret in E as (rc & s1 & Ec & E).
        unfold idme_initialize, mbind, comp_bind, get_idme in Ec. rewrite Hp in Ec.
        cbv [mret comp_ret] in Ec. simplify_eq. by cbv in E; simplify_eq.
      * cbv [idme_log_failure mret comp_ret] in E. by simplify_eq.
  - destruct (has_prefix a2 (str "clean")); [by eapply idme_set_keeps|].
    destruct (has_prefix a1 (str "version")); [by eapply idme_set_version_keeps|].
    by eapply idme_set_keeps.
Qed.
End Keeps.

(** ** The device tree holds the exportable items *)

Lemma strn_cut n l : (n ≤ length l)%nat → strn n l = Ret (cut (take n l)).
Proof.
  revert n. induction l as [|c l IH]; intros [|n] Hn; simpl in *; try done; [lia|].
  destruct (c =? 0); [done|]. by rewrite IH by lia.
Qed.

Definition exportable (e : entry) : Prop := e_exportable e ≠ 0.
#[export] Instance exportable_dec e : Decision (exportable e).
Proof. unfold exportable. apply _. Defined.

(** The text of an item in the tree. *)
Definition dt_text (e : entry) : bytes := cut (take (Z.to_nat IDME_MAX_DT_PRINT_SIZE) (e_data e)).

(** What an item becomes in the tree. *)
Definition dt_node (e : entry) : gmap bytes bytes :=
  <[str "permission" := be_encode 4 (e_permission e)]> {[str "value" := dt_text e ++ [0]]}.

Lemma get_entry_None name es : get_entry name es = None ↔ name ∉ e_name <$> es.
Proof.
  induction es as [|e es IH]; simpl; [split; [intros _; apply not_elem_of_nil|done]|].
  rewrite not_elem_of_cons. case_bool_decide; naive_solver.
Qed.

(** With distinct names, inserting the items one after the other. *)
Lemma insert_items_lookup (es : list entry) (m : gmap bytes (gmap bytes bytes)) name :
  NoDup (e_name <$> es) →
  foldl (fun m e => if decide (exportable e) then <[e_name e := dt_node e]> m else m) m es !! name
  = match get_entry name es with
    | Some e => if decide (exportable e) then Some (dt_node e) else m !! name
    | None => m !! name
    end.
Proof.
  revert m. induction es as [|e es IH]; intros m Hnd; simpl; [done|].
  apply NoDup_cons in Hnd as [Hne Hnd]. rewrite IH by done.
  destruct (decide (e_name e = name)) as [<-|Hn].
  - rewrite bool_decide_true by done. rewrite (proj2 (get_entry_None _ _) Hne).
    destruct (decide (exportable e)); [apply lookup_insert_eq|done].
  - rewrite bool_decide_false by done.
    assert (∀ x, (if decide (exportable e) then <[e_name e := x]> m else m) !! name = m !! name) as E.
    { intros x. destruct (decide (exportable e)); [by apply lookup_insert_ne|done]. }
    destruct (get_entry name es); by rewrite E.
Qed.

(** What the export relies on: the nodes below "/idme" of a tree, how adding and
    setting change them, and that neither moves the nodes in use. *)
Class FdtLaws (F : Type) `{Fdt F} (idme_nodes : F → gmap bytes (gmap bytes bytes)) := {
  add_idme : ∀ fdt ret fdt', fdt_path_offset fdt (str "/idme") < 0 →
    fdt_add_subnode fdt (fdt_path_offset fdt (str "/")) (str "idme") = (ret, fdt') → 0 ≤ ret →
    idme_nodes fdt' = ∅;
  add_item : ∀ fdt name ret fdt', let offset := fdt_path_offset fdt (str "/idme") in
    0 ≤ offset → fdt_add_subnode fdt offset name = (ret, fdt') → 0 ≤ ret →
    idme_nodes fdt' = <[name := ∅]> (idme_nodes fdt) ∧ fdt_path_offset fdt' (str "/idme") = offset;
  set_item : ∀ fdt name p v ret fdt', let offset := fdt_path_offset fdt (str "/idme/" ++ name) in
    0 ≤ offset → fdt_setprop fdt offset p v = (ret, fdt') → 0 ≤ ret →
    idme_nodes fdt' = alter (insert p v) name (idme_nodes fdt)
    ∧ fdt_path_offset fdt' (str "/idme/" ++ name) = offset
    ∧ fdt_path_offset fdt' (str "/idme") = fdt_path_offset fdt (str "/idme");
}.

Section TreeExport.
Context {F : Type} `{HF : Fdt F} {idme_nodes : F → gmap bytes (gmap bytes bytes)}.
Context {Laws : FdtLaws F idme_nodes}.

Lemma export_node_spec offset e fdt ret fdt' :
  entry_wf e → fdt_path_offset fdt (str "/idme") = offset → 0 ≤ offset →
  export_node offset (e_name e) (dt_text e) (e_permission e) fdt = (ret, fdt') → 0 ≤ ret →
  idme_nodes fdt' = <[e_name e := dt_node e]> (idme_nodes fdt)
  ∧ fdt_path_offset fdt' (str "/idme") = offset.
Proof.
  intros (_ & Hn & _) Ho H0 E Hret. unfold export_node in E.
  destruct (fdt_add_subnode fdt offset (e_name e)) as [r1 f1] eqn:E1.
  destruct (Z.ltb_spec r1 0); [simplify_eq; lia|].
  rewrite take_ge in E.
  2: { rewrite length_app. unfold zlen, IDME_MAX_NAME_LEN in Hn. change (length (str "/idme/")) with 6%nat. lia. }
  destruct (Z.ltb_spec (fdt_path_offset f1 (str "/idme/" ++ e_name e)) 0); [simplify_eq; lia|].
  destruct (fdt_setprop f1 _ (str "value") _) as [r2 f2] eqn:E2.
  destruct (Z.ltb_spec r2 0); [simplify_eq; lia|].
  subst offset. destruct (add_item fdt (e_name e) r1 f1 H0 E1) as [N1 P1]; [done|].
  destruct (set_item f1 (e_name e) _ _ r2 f2 ltac:(done) E2) as (N2 & Q2 & P2); [done|].
  rewrite <- Q2 in E.
  destruct (set_item f2 (e_name e) _ _ ret fdt' ltac:(by rewrite Q2) E) as (N3 & Q3 & P3); [done|].
  rewrite N3, N2, N1, P3, P2, P1. split; [|done].
  apply map_eq. intros i. destruct (decide (i = e_name e)) as [->|Hi].
  - rewrite !lookup_alter_eq, !lookup_insert_eq. done.
  - rewrite !lookup_alter_ne, !lookup_insert_ne by done. done.
Qed.

Lemma dt_items_spec buf es : ∀ off fdt ret fdt',
  let offset := fdt_path_offset fdt (str "/idme") in
  0 ≤ off → Forall entry_wf es → items_at buf off es → 0 ≤ offset →
  dt_items buf off (length es) offset fdt = Ret (ret, fdt') → 0 ≤ ret →
  idme_nodes fdt'
  = foldl (fun m e => if decide (exportable e) then <[e_name e := dt_node e]> m else m)
      (idme_nodes fdt) es.
Proof.
  induction es as [|e es IH]; intros off fdt ret fdt' offset Hoff Hwf Hat Ho E Hret.
  { cbv [length dt_items mret run_ret] in E. by simplify_eq. }
  apply Forall_cons in Hwf as [He Hwf]. destruct Hat as (Hd & Hdata & Hb & Hat).
  cbn [length dt_items foldl] in *.
  rewrite (load_exportable buf off e), (next_item buf off e), (load_size buf off e),
    (load_permission buf off e) in E by done. cbn [mbind run_bind] in E.
  assert (0 ≤ off + item_step (e_size e)) by (pose proof (item_step_pos e); lia).
  destruct (Z.eqb_spec (e_exportable e) 0) as [Hx|Hx].
  { rewrite decide_False by (intros ?; done). by eapply IH. }
  rewrite decide_True by done.
  pose proof (e_size_nonneg e). pose proof (desc_fits buf off e Hb).
  assert (Et : strn (Z.to_nat (Z.min (e_size e) IDME_MAX_DT_PRINT_SIZE))
                 (drop (Z.to_nat (off + sizeof_idme_desc)) buf) = Ret (dt_text e)).
  { rewrite strn_cut by (rewrite length_drop; unfold zlen, sizeof_idme_desc in *; lia).
    f_equal. unfold dt_text. f_equal. rewrite <- Hdata. unfold slice. rewrite take_take.
    f_equal. lia. }
  rewrite Et in E. destruct (desc_name_nul buf off e) as [rest Hrest]; [done..|].
  rewrite Hrest, c_str_app in E by apply He. cbn [mbind run_bind] in E.
  destruct (export_node _ _ _ _ _) as [r1 f1] eqn:E1.
  destruct (Z.ltb_spec r1 0); [cbv [mret run_ret] in E; simplify_eq; lia|].
  destruct (export_node_spec offset e fdt r1 f1) as [N1 P1]; try done.
  rewrite <- N1. rewrite <- P1 in E. eapply (IH _ f1 ret fdt'); [exact H|done|exact Hat|by rewrite P1|exact E|done].
Qed.

(** The kernel sees exactly the exportable items: when the export succeeds on
    a tree without an "/idme" node, a name has a node below "/idme" if and only if
    it names an exportable item, and the node has the text of the item, cut at
    1024 characters, and its permission. *)
Theorem idme_device_tree_exports buf es fdt fdt' name :
  idme_repr buf es → NoDup (e_name <$> es) → fdt_path_offset fdt (str "/idme") < 0 →
  idme_init_dev_tree_v2p1 fdt (Some buf) true = Ret (0, fdt') →
  idme_nodes fdt' !! name
  = (e ← get_entry name es; if decide (exportable e) then Some (dt_node e) else None).
Proof.
  intros Hr Hnd Habs E. pose proof Hr as (Hl & _ & _ & _ & Hwf & Hat).
  unfold idme_init_dev_tree_v2p1 in E. rewrite (items_num_repr buf es Hr) in E.
  cbn [mbind run_bind negb] in E.
  destruct (Z.odd _); [|cbv [mret run_ret] in E; simplify_eq; lia].
  destruct (Z.ltb_spec (fdt_path_offset fdt (str "/")) 0); [cbv [mret run_ret] in E; simplify_eq; lia|].
  destruct (fdt_add_subnode fdt _ _) as [r1 f1] eqn:E1.
  destruct (Z.ltb_spec r1 0); [cbv [mret run_ret] in E; simplify_eq; lia|].
  destruct (Z.ltb_spec (fdt_path_offset f1 (str "/idme")) 0); [cbv [mret run_ret] in E; simplify_eq; lia|].
  unfold zlen in E. rewrite Nat2Z.id in E.
  rewrite (dt_items_spec buf es IDME_ITEM_DATA_OFF f1 0 fdt' ltac:(done) Hwf Hat ltac:(done) E ltac:(done)).
  rewrite insert_items_lookup by done. rewrite (add_idme fdt r1 f1) by done.
  rewrite lookup_empty. by destruct (get_entry name es).
Qed.
End TreeExport.

(** ** The text of the flags *)

Fixpoint known_flags (names : list bytes) (flags : Z) : list bytes :=
  match names with
  | [] => []
  | n :: names => (if Z.odd flags then [n] else []) ++ known_flags names (Z.shiftr flags 1)
  end.
Definition unknown_flags (flags : Z) : list bytes :=
  if flags =? 0 then []
  else [str "!UNKNOWN FLAGS 0x" ++ hex_of_Z (u64 (Z.shiftl flags 9)) ++ str "!"].
Fixpoint join_bar (l : list bytes) : bytes :=
  match l with
  | [] => []
  | [x] => x
  | x :: l => x ++ str "|" ++ join_bar l
  end.

(** [T] is in a buffer of [bufsize] bytes, with a NUL behind it. *)
Definition written (bufsize : Z) (T : bytes) (st : bytes * Z * Z) : Prop :=
  let '(b, s, n) := st in
  n = zlen T ∧ s = zlen T ∧ zlen b = bufsize ∧ take (length T) b = T
  ∧ (T ≠ [] → b !! length T = Some 0).

Lemma append_written bufsize T X st :
  written bufsize T st → zlen (T ++ X) < bufsize →
  ∃ st', append_text st bufsize X = Ret st' ∧ written bufsize (T ++ X) st'.
Proof.
  destruct st as [[b s] n]. intros (-> & -> & Hl & Ht & _) Hfit. rewrite zlen_app in Hfit.
  pose proof (zlen_nonneg T). pose proof (zlen_nonneg X).
  unfold append_text, snprintf_at. destruct (Z.ltb_spec 0 (bufsize - zlen T)); [|lia].
  rewrite take_ge by (unfold zlen in *; lia).
  rewrite wr_ok by (rewrite ?zlen_app; change (zlen [0]) with 1; lia).
  replace (Z.to_nat (zlen T)) with (length T) by (unfold zlen; lia). rewrite Ht. cbn [mbind run_bind].
  eexists. split; [done|]. rewrite Z.min_l by lia. unfold written.
  rewrite <- (app_assoc X), (app_assoc T X). split_and!; [by rewrite zlen_app..| | |].
  - unfold zlen in *. repeat rewrite ?length_app, ?length_drop. cbn [length]. lia.
  - by rewrite take_app_length.
  - intros _. by rewrite lookup_app_r, Nat.sub_diag.
Qed.

(** The names of the flags that are set, with a bar between two, and what is
    left as a number. *)
Definition fos_text (flags : Z) : bytes :=
  if flags =? 0 then str "FOS_FLAGS_NONE"
  else join_bar (known_flags (tail idme_flags_table) flags ++ unknown_flags (Z.shiftr flags 9)).

(** [P T st] says that [T] has been appended; texts with [fits] can be. *)
Section Appending.
Context (bufsize : Z) (P : bytes → bytes * Z * Z → Prop) (fits : bytes → Prop).
Context (fits_prefix : ∀ T X, fits (T ++ X) → fits T).
Context (appends : ∀ T X st, P T st → fits (T ++ X) →
  ∃ st', append_text st bufsize X = Ret st' ∧ P (T ++ X) st').

Lemma known_flags_zero names : known_flags names 0 = [].
Proof. induction names; [done|]. cbn [known_flags]. by rewrite Z.shiftr_0_l, IHnames. Qed.

Lemma shiftr_1_pos flags : 0 < flags → 0 ≤ Z.shiftr flags 1 ∧ (Z.shiftr flags 1 = 0 ↔ flags = 1).
Proof. intros. rewrite Z.shiftr_div_pow2 by lia. change (2 ^ 1) with 2. Z.to_euclidean_division_equations. lia. Qed.

(** What follows one flag is there exactly when other flags are set. *)
Lemma rest_nonempty names flags :
  0 < flags → known_flags names flags ++ unknown_flags (Z.shiftr flags (zlen names)) ≠ [].
Proof.
  revert flags. induction names as [|n names IH]; intros flags Hf.
  - change (zlen (@nil bytes)) with 0. rewrite Z.shiftr_0_r. unfold unknown_flags. simpl.
    by destruct (Z.eqb_spec flags 0); [lia|].
  - simpl. destruct (Z.odd flags) eqn:Ho; [done|]. simpl.
    assert (flags ≠ 1) by (intros ->; done).
    destruct (shiftr_1_pos flags Hf) as [Hs Hz].
    replace (zlen (n :: names)) with (1 + zlen names) by (unfold zlen; simpl; lia).
    pose proof (zlen_nonneg names). rewrite <- Z.shiftr_shiftr by lia. apply IH. lia.
Qed.

(** A flag in front of the later ones. *)
Lemma join_flag n names flags :
  0 < flags →
  let later := known_flags names (Z.shiftr flags 1)
               ++ unknown_flags (Z.shiftr (Z.shiftr flags 1) (zlen names)) in
  join_bar ([n] ++ later) = (n ++ if flags <=? 1 then [] else str "|") ++ join_bar later.
Proof.
  intros Hf later. destruct (shiftr_1_pos flags Hf) as [Hs Hz]. destruct (Z.leb_spec flags 1).
  - assert (flags = 1) as -> by lia. unfold later. change (Z.shiftr 1 1) with 0.
    rewrite known_flags_zero, Z.shiftr_0_l. simpl. by rewrite !app_nil_r.
  - pose proof (rest_nonempty names (Z.shiftr flags 1) ltac:(lia)) as Hn. fold later in Hn.
    simpl. destruct later; [done|]. by rewrite <- app_assoc.
Qed.

Lemma fos_known_spec names : ∀ pos flags T st,
  0 < flags → 1 ≤ pos → names ≠ [] → drop (Z.to_nat pos) idme_flags_table = names → P T st →
  let rest := known_flags names flags ++ unknown_flags (Z.shiftr flags (zlen names)) in
  fits (T ++ join_bar rest) →
  ∃ flags' pos' X st', fos_known (length names) flags pos bufsize st = Ret (flags', pos', st')
    ∧ P (T ++ X) st' ∧ (flags' ≠ 0 → pos' = 10)
    ∧ join_bar rest = X ++ join_bar (unknown_flags flags').
Proof.
  induction names as [|n names IH]; intros pos flags T st Hf Hpos Hne Hd HP rest Hfit; [done|].
  assert (Hlk : idme_flags_table !! Z.to_nat pos = Some n).
  { rewrite <- (Nat.add_0_r (Z.to_nat pos)), <- lookup_drop, Hd. done. }
  assert (Hlen : pos + zlen (n :: names) = 10).
  { apply (f_equal length) in Hd. rewrite length_drop in Hd. unfold zlen.
    change (length idme_flags_table) with 10%nat in Hd. simpl in *. lia. }
  destruct (shiftr_1_pos flags Hf) as [Hs Hz].
  assert (Hrest : rest = (if Z.odd flags then [n] else [])
    ++ known_flags names (Z.shiftr flags 1) ++ unknown_flags (Z.shiftr (Z.shiftr flags 1) (zlen names))).
  { unfold rest. simpl. rewrite <- app_assoc. f_equal. f_equal. f_equal.
    pose proof (zlen_nonneg names). rewrite Z.shiftr_shiftr by lia. f_equal. unfold zlen. simpl. lia. }
  set (later := known_flags names (Z.shiftr flags 1)
    ++ unknown_flags (Z.shiftr (Z.shiftr flags 1) (zlen names))) in *.
  cbn [length fos_known]. rewrite (proj2 (Z.eqb_neq flags 0)), Hlk by lia.
  rewrite andb_false_l, orb_false_r.
  (* the flag itself *)
  assert (Hhead : ∃ Y st1, (if Z.odd flags
      then append_text st bufsize (n ++ if flags <=? 1 then [] else str "|") else mret st) = Ret st1
    ∧ P (T ++ Y) st1 ∧ join_bar rest = Y ++ join_bar later).
  { rewrite Hrest. destruct (Z.odd flags) eqn:Ho; [|exists [], st; by rewrite app_nil_r].
    pose proof (join_flag n names flags Hf) as Hj. cbv zeta in Hj. fold later in Hj.
    rewrite Hrest, Hj, app_assoc in Hfit.
    destruct (appends T _ st HP (fits_prefix _ _ Hfit)) as (st1 & E1 & HP1). by eexists _, st1. }
  destruct Hhead as (Y & st1 & -> & HP1 & Hj). cbn [mbind run_bind].
  destruct (Z.eqb_spec (Z.shiftr flags 1) 0) as [H0|H0]; cbn [negb andb].
  { eexists _, _, Y, st1. split; [done|]. split; [done|]. split; [done|].
    rewrite Hj. unfold later. by rewrite H0, known_flags_zero, Z.shiftr_0_l. }
  change (zlen idme_flags_table) with 10. destruct names as [|n' names].
  { destruct (Z.ltb_spec (pos + 1) 10); [unfold zlen in Hlen; simpl in Hlen; lia|].
    eexists _, _, Y, st1. split; [done|]. split; [done|].
    split; [intros; unfold zlen in Hlen; simpl in Hlen; lia|].
    rewrite Hj. unfold later. simpl. by rewrite Z.shiftr_0_r. }
  destruct (Z.ltb_spec (pos + 1) 10); [|unfold zlen in Hlen; simpl in Hlen; lia].
  rewrite Hj, app_assoc in Hfit.
  destruct (IH (pos + 1) (Z.shiftr flags 1) (T ++ Y) st1) as (f' & p' & X & st' & E & HP' & Hp & HX);
    [lia|lia|done| |done|exact Hfit|].
  { replace (Z.to_nat (pos + 1)) with (S (Z.to_nat pos)) by lia.
    rewrite <- Nat.add_1_r, <- drop_drop, Hd. done. }
  exists f', p', (Y ++ X), st'. rewrite app_assoc. split_and!; try done.
  rewrite Hj. fold later in HX. by rewrite HX, app_assoc.
Qed.

Lemma fos_known_more_fuel fuel flags pos st r :
  fos_known fuel flags pos bufsize st = Ret r → fos_known (S fuel) flags pos bufsize st = Ret r.
Proof.
  revert flags pos st. induction fuel as [|fuel IH]; intros flags pos st E; [done|].
  set (f := S fuel) in *. cbn [fos_known]. unfold f in E. cbn [fos_known] in E.
  destruct (if Z.odd flags || _ then _ else _) as [st1|]; [|done]. cbn [mbind run_bind] in *.
  destruct (negb _ && _); [|done]. by apply IH.
Qed.

Lemma fos_flags_to_str_appends flags buf size :
  0 ≤ flags → bufsize = match buf with Some _ => size | None => 0 end →
  P [] (default [] buf, 0, 0) → fits (fos_text flags) →
  ∃ b n u, P (fos_text flags) (b, u, n)
    ∧ fos_flags_to_str flags buf size = Ret (if n <=? bufsize then 0 else n + 1, b).
Proof.
  intros Hf Hsize HP Hfit. unfold fos_flags_to_str. rewrite <- Hsize. unfold fos_text in *.
  destruct (Z.eqb_spec flags 0) as [->|Hf0].
  { destruct (appends [] (str "FOS_FLAGS_NONE" ++ []) _ HP) as ([[b u] n] & E & HP').
    { by rewrite app_nil_r, app_nil_l. }
    rewrite app_nil_r, app_nil_l in HP'. exists b, n, u. split; [done|].
    change (length idme_flags_table) with 10%nat. cbn [fos_known Z.eqb].
    change (Z.odd 0 || (true && (1 - 1 =? 0))) with true.
    change (idme_flags_table !! Z.to_nat (1 - 1)) with (Some (str "FOS_FLAGS_NONE")).
    cbv iota beta. change (0 <=? 1) with true. cbv iota. rewrite E. done. }
  destruct (fos_known_spec (tail idme_flags_table) 1 flags [] _ ltac:(lia) ltac:(lia) ltac:(done)
    eq_refl HP) as (f' & p' & X & [[b u] n] & E & HP' & Hp & HX); [exact Hfit|].
  change (zlen (tail idme_flags_table)) with 9 in HX. rewrite HX in *. clear HX.
  assert (Ek : fos_known (length idme_flags_table) flags 1 bufsize (default [] buf, 0, 0)
    = Ret (f', p', (b, u, n))) by (by apply fos_known_more_fuel).
  rewrite Ek. cbn [mbind run_bind]. rewrite app_nil_l in HP'. unfold unknown_flags in *.
  destruct (Z.eqb_spec f' 0) as [->|Hf'].
  { cbn [join_bar] in *. rewrite app_nil_r in *. by exists b, n, u. }
  rewrite (Hp Hf') in *. cbn [join_bar] in *. change (10 - 1) with 9.
  destruct (appends X _ _ HP' Hfit) as ([[b2 u2] n2] & E2 & HP2).
  exists b2, n2, u2. split; [done|]. rewrite E2. done.
Qed.
End Appending.

Lemma join_bar_nonempty l : l ≠ [] → Forall (λ x, x ≠ []) l → join_bar l ≠ [].
Proof.
  intros Hl Hall. destruct Hall as [|x [|y l] Hx _]; [done|done|].
  cbn [join_bar]. by destruct x.
Qed.

Lemma known_flags_all (Q : bytes → Prop) names flags :
  Forall Q names → Forall Q (known_flags names flags).
Proof.
  intros Hall. revert flags. induction Hall as [|n names Hn _ IH]; intros flags; [done|].
  simpl. apply Forall_app. split; [|apply IH]. destruct (Z.odd flags); [by constructor|done].
Qed.

Lemma fos_text_nonempty flags : 0 ≤ flags → fos_text flags ≠ [].
Proof.
  intros Hf. unfold fos_text. destruct (Z.eqb_spec flags 0); [done|].
  apply join_bar_nonempty.
  - apply (rest_nonempty (tail idme_flags_table)). lia.
  - apply Forall_app. split; [apply known_flags_all; by repeat constructor|].
    unfold unknown_flags. by destruct (_ =? 0); repeat constructor.
Qed.

(** The flags are printed with two calls: without a buffer
    [fos_flags_to_str] returns the length of the names of the set flags and one
    more, and with a buffer of that size it succeeds and fills it with these
    names and a NUL. *)
Theorem fos_flags_two_calls flags size buf :
  0 ≤ flags → zlen buf = zlen (fos_text flags) + 1 →
  fos_flags_to_str flags None size = Ret (zlen buf, [])
  ∧ fos_flags_to_str flags (Some buf) (zlen buf) = Ret (0, fos_text flags ++ [0]).
Proof.
  intros Hf Hb. pose proof (fos_text_nonempty flags Hf) as Hne.
  assert (0 < zlen (fos_text flags)).
  { unfold zlen. destruct (fos_text flags); [done|]. simpl. lia. }
  split.
  - destruct (fos_flags_to_str_appends 0 (fun T st => st = ([], 0, zlen T)) (fun _ => True))
      with (flags := flags) (buf := @None bytes) (size := size) as (b & n & u & Hst & ->); try done.
    { intros T X st -> _. eexists. split; [done|]. rewrite zlen_app, Z.min_r; [done|].
      pose proof (zlen_nonneg T). pose proof (zlen_nonneg X). lia. }
    simplify_eq. destruct (Z.leb_spec (zlen (fos_text flags)) 0); [lia|]. by rewrite Hb.
  - destruct (fos_flags_to_str_appends (zlen buf) (written (zlen buf)) (fun T => zlen T < zlen buf))
      with (flags := flags) (buf := Some buf) (size := zlen buf) as (b & n & u & Hst & ->); try done.
    { intros T X. rewrite zlen_app. pose proof (zlen_nonneg X). lia. }
    { intros T X st. apply append_written. }
    { lia. }
    destruct Hst as (-> & _ & Hl & Ht & H0). destruct (Z.leb_spec (zlen (fos_text flags)) (zlen buf)); [|lia].
    do 2 f_equal. rewrite <- (take_drop (length (fos_text flags)) b), Ht. f_equal.
    rewrite (drop_S b 0) by (by apply H0). f_equal. apply drop_ge. unfold zlen in *. lia.
Qed.

(** ** Examples *)

(** A tree that is only the nodes below "/idme", if there is one. *)
Definition demo_tree : Type := option (gmap bytes (gmap bytes bytes)).
Definition demo_offset (t : demo_tree) (path : bytes) : Z :=
  if bool_decide (path = str "/") then 0
  else if bool_decide (path = str "/idme") then (if t then 8 else -1)
  else match t ≫= lookup (drop 6 path) with
       | Some _ => 16 + Z.pos (encode (drop 6 path))
       | None => -1
       end.
#[local] Instance demo_fdt : Fdt demo_tree := {|
  fdt_path_offset := demo_offset;
  fdt_add_subnode t offset name :=
    match t with
    | None => if offset =? 0 then (8, Some ∅) else (-1, t)
    | Some m => if offset =? 8 then (16, Some (<[name := ∅]> m)) else (-2, t)
    end;
  fdt_setprop t offset p v :=
    match t, decode (Z.to_pos (offset - 16)) with
    | Some m, Some name => (0, Some (alter (insert p v) name m))
    | _, _ => (-1, t)
    end;
|}.

Lemma demo_offset_item t name :
  demo_offset t (str "/idme/" ++ name)
  = match t ≫= lookup name with Some _ => 16 + Z.pos (encode name) | None => -1 end.
Proof.
  unfold demo_offset. rewrite !bool_decide_false by (intros [=]). done.
Qed.

Lemma demo_offset_idme t : demo_offset t (str "/idme") = if t then 8 else -1.
Proof. done. Qed.

#[local] Instance demo_laws : FdtLaws demo_tree (default ∅).
Proof.
  split.
  - intros fdt ret fdt' Hn E Hret. change (demo_offset fdt (str "/idme") < 0) in Hn.
    rewrite demo_offset_idme in Hn. destruct fdt as [m|]; [lia|]. vm_compute in E. by simplify_eq.
  - intros fdt name ret fdt' offset Ho E Hret. subst offset.
    change (@fdt_path_offset demo_tree demo_fdt) with demo_offset in *.
    rewrite !demo_offset_idme in *. destruct fdt as [m|]; [|lia]. cbn in E. by simplify_eq.
  - intros fdt name p v ret fdt' offset Ho E Hret. subst offset.
    change (@fdt_path_offset demo_tree demo_fdt) with demo_offset in *.
    rewrite demo_offset_item in *. destruct fdt as [m|]; [|done]. cbn [mbind option_bind] in *.
    destruct (m !! name) as [ps|] eqn:Hm; [|done].
    cbn [fdt_setprop demo_fdt] in E.
    replace (Z.to_pos (16 + Z.pos (encode name) - 16)) with (encode name) in E by lia.
    rewrite decode_encode in E. simplify_eq. split_and!; [done| |done].
    rewrite demo_offset_item. cbn [mbind option_bind]. by rewrite lookup_alter_eq, Hm.
Qed.

#[local] Instance demo_mmc : Mmc unit := {|
  find_mmc_device _ := true;
  mmc_switch_part _ d := (0, d);
  mmc_capacity _ := CONFIG_IDME_SIZE;
  block_read _ _ d := (0, [], d);
  block_write _ _ _ d := (0, d);
|}.
#[local] Instance demo_heap : Heap (IdmeState unit) := fun _ st => (true, st).

Lemma do_idme_keeps_table_witness :
  ∃ buf r st', do_idme (Ret []) idme_default_values 3 [str "idme"; str "serial"; str "42"]
                 (mkIdme buf true true tt) = Ret (r, st')
    ∧ (holds_items st' (default_entry [] <$> idme_default_values)
       ∨ (has_prefix (str "serial") (str "clean") = true ∧ erased st')).
Proof.
  destruct default_table as (buf & Hr & _). exists buf.
  destruct (update_var_repr buf _ (str "serial") (str "42" ++ [0]) 2
    (default_entry [] (item "serial" 16 1 (Some (str "0")))) ltac:(by repeat constructor) Hr)
    as (buf' & Hu & _); [done|by vm_compute|by vm_compute|].
  assert (E : do_idme (Ret []) idme_default_values 3 [str "idme"; str "serial"; str "42"]
                (mkIdme buf true true tt) = Ret ((0, []), mkIdme buf' true true tt)).
  { change (idme_set (str "serial") (str "42") (mkIdme buf true true tt)
            = Ret ((0, []), mkIdme buf' true true tt)).
    unfold idme_set, idme_update_var, mbind, comp_bind, get_idme, pidme_data. cbn [v2_functions pidme_set gidme_buff negb].
    by rewrite (lift_run _ _ _ Hu). }
  exists (0, []), (mkIdme buf' true true tt). split; [exact E|].
  exact (do_idme_keeps_table (Ret []) idme_default_values 3
    [str "idme"; str "serial"; str "42"] (mkIdme buf true true tt) _ (0, []) _ eq_refl eq_refl Hr
    ltac:(by repeat constructor) E).
Defined.

(** A table of an exportable item and one that is not. *)
Definition demo_entries : list entry :=
  [mkEntry (str "serial") 1 0x124 (str "G0B1"); mkEntry (str "keys") 0 0x124 (str "SECRET!!");
   mkEntry (str "region") 1 0x124 (str "US"); mkEntry (str "cert") 0 0x124 (replicate 1100 65)].
Definition demo_items (es : list entry) : bytes :=
  concat ((fun e => encode_desc e ++ e_data e
             ++ replicate (Z.to_nat (item_step (e_size e) - sizeof_idme_desc - e_size e)) 0) <$> es).
Definition demo_table : bytes :=
  let t := IDME_MAGIC_NUMBER ++ IDME_VERSION_2P1 ++ [0] ++ le_encode 4 (zlen demo_entries)
           ++ demo_items demo_entries in
  t ++ replicate (Z.to_nat CONFIG_IDME_SIZE - length t) 0.

Lemma demo_entries_wf : Forall entry_wf demo_entries.
Proof.
  repeat (apply Forall_cons; split; [split_and!; try (by vm_compute)|]); [by repeat constructor..|done].
Qed.

Lemma demo_table_repr : idme_repr demo_table demo_entries.
Proof.
  split; [by vm_compute|]. split; [by vm_compute|]. split; [by vm_compute|]. split; [done|].
  split; [apply demo_entries_wf|]. cbn [items_at demo_entries].
  repeat (split; [by vm_compute|]). done.
Qed.

Lemma returns_zero {A} (m : run (Z * A)) :
  match m with Ret (0, _) => true | _ => false end = true → ∃ a, m = Ret (0, a).
Proof. destruct m as [[[] a]|]; try done. by exists a. Qed.

Lemma demo_export : ∃ t : demo_tree, idme_init_dev_tree_v2p1 None (Some demo_table) true = Ret (0, t).
Proof. apply returns_zero. by vm_compute. Qed.

Lemma idme_device_tree_exports_witness :
  ∃ t : demo_tree, idme_init_dev_tree_v2p1 None (Some demo_table) true = Ret (0, t)
    ∧ default ∅ t !! str "serial" = Some (dt_node (mkEntry (str "serial") 1 0x124 (str "G0B1")))
    ∧ default ∅ t !! str "keys" = None.
Proof.
  destruct demo_export as [t E]. exists t. split; [exact E|].
  assert (Hnd : NoDup (e_name <$> demo_entries)) by (apply (bool_decide_unpack _); by vm_compute).
  pose proof (λ name, idme_device_tree_exports demo_table demo_entries (None : demo_tree) t name
    demo_table_repr Hnd eq_refl E) as L.
  split; [exact (L (str "serial"))|exact (L (str "keys"))].
Defined.

Lemma fos_flags_two_calls_witness :
  fos_flags_to_str 0x203 None 0 = Ret (58, [])
  ∧ fos_flags_to_str 0x203 (Some (replicate 58 0)) 58
    = Ret (0, str "FOS_FLAGS_ADB_ON|FOS_FLAGS_ADB_ROOT|!UNKNOWN FLAGS 0x200!" ++ [0]).
Proof. apply (fos_flags_two_calls 0x203 0 (replicate 58 0)); by vm_compute. Defined.

(** With a buffer that is one byte too small [fos_flags_to_str] also reports
    success, and the last character is missing. *)
Example fos_flags_cut_short :
  fos_flags_to_str 1 (Some (replicate 16 0)) 16 = Ret (0, str "FOS_FLAGS_ADB_O" ++ [0]).
Proof. by vm_compute. Qed.

(** An exported table with an item that is not exportable cannot be read back:
    the space of that item is left empty, so a lookup in the ATAG does not find
    the exported item behind it, although the ATAG counts it. *)
Example atag_loses_items :
  idme_get_var_v2p0 (str "region") 2 (Some demo_table) = Ret (Some (str "US"))
  ∧ (r ← idme_init_atag_v2p0 (replicate 2048 1) (Some demo_table) 2048;
     n ← load32 r.2 IDME_ITEMS_NUM_OFF;
     got ← idme_get_var_v2p0 (str "region") 2 (Some r.2);
     mret (r.1, n, got)) = Ret (0, 2, None).
Proof. split; by vm_compute. Qed.

(** With three words behind "oem idme" the command reads past the end of its
    argument array. *)
Theorem fastboot_idme_reads_past_arguments {D} `{Mmc D} `{Heap (IdmeState D)} null_string defaults
    cmd (st : IdmeState D) :
  (3 ≤ length (strtok_tokens cmd))%nat →
  fastboot_idme null_string defaults (Some cmd) st = Crash OutOfBounds.
Proof.
  intros Hl. unfold fastboot_idme, do_idme. destruct (strtok_tokens cmd) as [|t ts]; [simpl in Hl; lia|].
  cbn [tail length] in *. pose proof (zlen_nonneg ts).
  destruct (Z.leb_spec (2 + zlen ts) 0); [lia|].
  rewrite (proj2 (Z.ltb_lt _ _)); [done|]. unfold zlen in *. cbn [length]. lia.
Qed.

Lemma fastboot_idme_reads_past_arguments_witness :
  fastboot_idme (Ret []) idme_default_values (Some (str " mac_addr 00 11")) (mkIdme [] true true tt)
  = Crash OutOfBounds.
Proof. apply fastboot_idme_reads_past_arguments. vm_compute. lia. Defined.

(** "idme ? name" on an item that fills the text buffer reads past its end:
    nothing terminates the text. *)
Theorem idme_query_unterminated {D} `{Mmc D} name (st : IdmeState D) es e :
  pidme_set st = true → v2_functions st = true → idme_repr (gidme_buff st) es →
  Forall (λ c, c ≠ 0) name → zlen name < 1000 → get_entry name es = Some e →
  Forall (λ c, c ≠ 0) (e_data e) → 1022 - zlen name ≤ e_size e →
  idme_query name st = Crash OutOfBounds.
Proof.
  intros Hp Hv Hr Hname Hlen Hg Hdata Hsize. pose proof (zlen_nonneg name).
  unfold idme_query, idme_get_var, mbind, comp_bind, get_idme, pidme_data. rewrite Hv. cbn [negb]. rewrite Hp.
  rewrite (take_ge (name ++ str ": ")) by (rewrite length_app; unfold zlen in *; cbn [length str]; simpl; lia).
  rewrite zlen_app. change (zlen (str ": ")) with 2.
  replace (1024 - (zlen name + 2)) with (1022 - zlen name) by lia.
  rewrite (lift_run _ _ _ (get_var_repr (gidme_buff st) es name (1022 - zlen name) Hname Hr
    ltac:(lia))), Hg. cbn [mbind option_bind].
  set (got := take (Z.to_nat (1022 - zlen name)) (e_data e)).
  assert (zlen got = 1022 - zlen name).
  { unfold e_size in Hsize. unfold got. unfold zlen in *. rewrite length_take. lia. }
  rewrite wr_ok by (rewrite ?zlen_app, ?zlen_replicate; change (zlen (str ": ")) with 2; lia).
  rewrite drop_ge by (rewrite length_replicate; rewrite ?zlen_app; change (zlen (str ": ")) with 2; lia).
  change (take (Z.to_nat 0) (replicate 1024 0)) with (@nil Z). rewrite app_nil_l, app_nil_r.
  rewrite (lift_run _ _ _ eq_refl).
  rewrite c_str_unterminated; [done|].
  apply Forall_app_2; [apply Forall_app_2; [done|by repeat constructor]|by apply Forall_take].
Qed.

Lemma idme_query_unterminated_witness :
  idme_query (str "cert") (mkIdme demo_table true true tt) = Crash OutOfBounds.
Proof.
  eapply (idme_query_unterminated (str "cert") (mkIdme demo_table true true tt) demo_entries);
    [done|done|apply demo_table_repr|by repeat constructor|done|reflexivity| |by vm_compute].
  by apply Forall_replicate.
Defined.

(** The board identifier of the default table fills its buffer, which is then
    printed without an end. *)
Example idme_board_id_unterminated :
  (buf ← idme_init_var_v2p0 (Ret []) [item "board_id" 16 1 (Some (str "ffffff0000000000"))]
           (replicate (Z.to_nat CONFIG_IDME_SIZE) 0);
   r ← idme_board_id (replicate 16 0) (mkIdme buf true true tt);
   mret (r.1)) = Crash OutOfBounds.
Proof. by vm_compute. Qed.
