(* ===== verification/Unlock.v ===== *)
(** * Unlocking a device

    [ufbl-features/features/unlock], [onetime_unlock], [fastboot_lockdown] and
    [usb_update_verifier], with the board's part in
    [board/amlogic/lagunaf/secure_boot.c] and [common/amzn_lockdown.c]: the
    signed codes that unlock a device, and what a locked one refuses. *)

From S2P Require Import Prelude Idme IdmeSpec SecureBoot.

Definition UNLOCK_CODE_LEN : Z := 32.
Definition SIGNED_UNLOCK_CODE_LEN : Z := 256.
Definition DEVICE_META_SIZE : Z := 32.
Definition MAX_PUBKEY_LEN : Z := 300.
Definition RSA_2048_SIG_LEN : Z := 256.
Definition ONETIME_UNLOCK_CODE_LEN : Z := 32.

(** [unlock_error_code] *)
Definition ERR_UNLOCK_SUCCESS : Z := 0.
Definition ERR_UNLOCK_BAD_ARGUMENT : Z := 1.
Definition ERR_UNLOCK_NO_MEMORY : Z := 2.
Definition ERR_UNLOCK_BAD_KEY : Z := 3.
Definition ERR_UNLOCK_RSA_VERIFY_FAIL : Z := 4.
Definition ERR_UNLOCK_GET_CODE_FAIL : Z := 6.

(** [temp_unlock_error_code] *)
Definition TEMP_UNLOCK_SUCCESS : Z := 0.
Definition ERR_TEMP_UNLOCK_GENERAL_FAIL : Z := 1.
Definition ERR_TEMP_UNLOCK_BAD_KEY : Z := 4.
Definition ERR_TEMP_UNLOCK_RSA_VERIFY_FAIL : Z := 5.
Definition ERR_TEMP_UNLOCK_HASH_FAIL : Z := 6.
Definition ERR_TEMP_UNLOCK_GET_CODE_FAIL : Z := 7.
Definition ERR_TEMP_UNLOCK_CERT_VERITY_FAIL : Z := 9.
Definition ERR_TEMP_UNLOCK_DEVICE_META_VERIFY_FAIL : Z := 10.

Definition lagunaf_unlock_pub_der : bytes :=
  [48; 130; 1; 34; 48; 13; 6; 9; 42; 134; 72; 134; 247; 13; 1; 1; 1; 5; 0; 3; 130; 1; 15; 0;
   48; 130; 1; 10; 2; 130; 1; 1; 0; 214; 227; 70; 116; 193; 187; 51; 232; 104; 107; 237; 179; 242; 119; 233;
   105; 50; 143; 183; 167; 114; 26; 20; 74; 239; 252; 48; 66; 183; 253; 73; 254; 158; 226; 115; 194; 99; 234; 248;
   253; 115; 119; 255; 202; 140; 106; 124; 236; 3; 156; 230; 214; 157; 214; 167; 214; 127; 51; 30; 37; 190; 129; 66;
   216; 255; 164; 221; 120; 42; 209; 111; 203; 15; 242; 28; 123; 170; 207; 196; 86; 151; 192; 107; 65; 195; 24; 79;
   167; 111; 86; 62; 214; 215; 114; 111; 198; 137; 224; 179; 24; 195; 102; 228; 246; 141; 196; 173; 133; 9; 163; 174;
   244; 118; 115; 234; 106; 52; 173; 170; 82; 65; 147; 14; 254; 141; 149; 186; 204; 242; 250; 171; 243; 204; 247; 151;
   50; 223; 130; 130; 23; 233; 227; 12; 38; 167; 238; 138; 35; 195; 29; 45; 22; 71; 151; 209; 69; 1; 146; 128;
   211; 45; 62; 153; 91; 235; 105; 118; 58; 254; 186; 128; 166; 150; 112; 105; 200; 17; 200; 102; 39; 236; 6; 68;
   20; 124; 236; 59; 207; 32; 197; 100; 26; 141; 16; 194; 82; 71; 82; 34; 251; 196; 251; 3; 77; 1; 137; 162;
   66; 27; 183; 62; 144; 157; 252; 35; 186; 164; 214; 51; 21; 105; 86; 60; 184; 205; 46; 12; 30; 213; 26; 200;
   168; 112; 11; 16; 39; 246; 172; 94; 180; 172; 107; 2; 157; 122; 71; 69; 64; 232; 66; 39; 51; 205; 217; 223;
   49; 2; 3; 1; 0; 1].

Definition onetime_unlock_key : bytes :=
  [48; 130; 1; 34; 48; 13; 6; 9; 42; 134; 72; 134; 247; 13; 1; 1; 1; 5; 0; 3; 130; 1; 15; 0;
   48; 130; 1; 10; 2; 130; 1; 1; 0; 243; 116; 89; 144; 212; 6; 76; 178; 189; 105; 142; 56; 30; 144; 85;
   79; 139; 149; 136; 107; 152; 152; 22; 203; 15; 217; 231; 99; 110; 207; 216; 66; 118; 184; 243; 86; 76; 12; 78;
   93; 25; 235; 126; 252; 27; 211; 81; 16; 112; 24; 163; 0; 182; 220; 2; 41; 141; 21; 234; 238; 212; 69; 232;
   245; 254; 118; 30; 200; 188; 236; 73; 79; 122; 11; 101; 27; 46; 75; 32; 248; 26; 190; 231; 127; 59; 157; 144;
   60; 63; 242; 49; 6; 72; 238; 199; 145; 169; 53; 8; 147; 242; 185; 245; 226; 144; 25; 25; 140; 145; 224; 171;
   241; 158; 130; 82; 228; 98; 226; 112; 179; 41; 153; 61; 30; 208; 22; 72; 124; 102; 40; 33; 60; 240; 242; 234;
   178; 240; 142; 16; 92; 17; 210; 246; 216; 215; 216; 41; 107; 219; 148; 90; 9; 240; 7; 237; 253; 71; 7; 163;
   36; 132; 160; 123; 67; 0; 236; 186; 158; 167; 32; 220; 182; 122; 190; 233; 17; 26; 26; 39; 210; 17; 242; 222;
   101; 15; 140; 54; 226; 90; 84; 107; 213; 9; 144; 111; 64; 180; 124; 216; 204; 200; 128; 57; 174; 69; 174; 162;
   148; 149; 150; 139; 84; 232; 228; 46; 234; 67; 245; 216; 186; 196; 176; 68; 154; 130; 252; 101; 189; 137; 15; 121;
   40; 146; 19; 95; 247; 67; 92; 182; 226; 142; 199; 166; 106; 52; 88; 66; 211; 140; 246; 182; 12; 175; 202; 36;
   111; 2; 3; 1; 0; 1; 0].

(** ** State and platform *)

(** The identity of the chip, its hash engine and timer, and the random numbers
    and base 64 of libtomcrypt; [None] is an error. *)
Class UnlockPlatform := {
  get_chip_id : option bytes;
  sha256_sum : bytes → bytes;
  get_timer : Z;
  fortuna : bytes → Z → option bytes;
  base64_encode : bytes → Z → option bytes;
  base64_decode : bytes → Z → option bytes;
}.

(** [onetime_unlock_cert_t]: meta data, key length, key and signature. *)
Definition CERT_PK_LEN : Z := DEVICE_META_SIZE.
Definition CERT_PUBKEY : Z := CERT_PK_LEN + 4.
Definition CERT_SIGNATURE : Z := CERT_PUBKEY + MAX_PUBKEY_LEN.
Definition sizeof_onetime_unlock_cert : Z := CERT_SIGNATURE + RSA_2048_SIG_LEN.

(** The static variables, and whether SHA-256 is registered with libtomcrypt. *)
Record UnlockState := mkUnlock {
  one_tu_cert : bytes;
  signed_one_tu_code : bytes;
  signed_code_available : bool;
  one_tu_code : option bytes;
  sha256_registered : bool;
  lockdown_commands : bool;
}.

Record Board (D : Type) := mkBoard {
  board_idme : IdmeState D;
  board_unlock : UnlockState;
}.
Arguments mkBoard {D} _ _.
Arguments board_idme {D} _.
Arguments board_unlock {D} _.

(** The state at power-on. *)
Definition unlock_reset : UnlockState :=
  mkUnlock (replicate (Z.to_nat sizeof_onetime_unlock_cert) 0)
    (replicate (Z.to_nat RSA_2048_SIG_LEN) 0) false None false false.

(** Eight hexadecimal digits, as [%08x] prints them. *)
Definition hex08 (x : Z) : bytes :=
  (fun i : nat => hex_digit (Z.land (Z.shiftr (u32 x) (4 * (7 - Z.of_nat i))) 15)) <$> seq 0 8.

Section Unlock.
Context {D : Type} `{Mmc D} `{Heap (Board D)} `{SecureChip} `{TomCrypt} `{UnlockPlatform}.

Definition with_idme {A} (m : comp (IdmeState D) A) : comp (Board D) A := fun w =>
  match m (board_idme w) with
  | Ret (a, st) => Ret (a, mkBoard st (board_unlock w))
  | Crash c => Crash c
  end.
Definition get_unlock : comp (Board D) UnlockState := fun w => Ret (board_unlock w, w).
Definition put_unlock (u : UnlockState) : comp (Board D) unit := fun w =>
  Ret (tt, mkBoard (board_idme w) u).

Definition set_registered (u : UnlockState) : UnlockState :=
  mkUnlock (one_tu_cert u) (signed_one_tu_code u) (signed_code_available u) (one_tu_code u) true
    (lockdown_commands u).
Definition register_sha256 : comp (Board D) unit := u ← get_unlock; put_unlock (set_registered u).

Definition sizeof_rsa_key : Z := 72.

(** ** The permanent unlock code *)

(** The signature [sig] over [data] under the encoded key; null pointers and
    empty ranges are the empty list. *)
Definition amzn_verify_code_internal (data sig key : bytes) : comp (Board D) Z :=
  match data, sig, key with
  | _ :: _, _ :: _, _ :: _ =>
      ok ← malloc sizeof_rsa_key;
      if negb ok then mret (- ERR_UNLOCK_NO_MEMORY) else
      match rsa_import key with
      | None => mret (- ERR_UNLOCK_BAD_KEY)
      | Some rsa_pk =>
          register_sha256;;
          let '(ret, status) := rsa_verify_hash sig (ltc_sha256 data) rsa_pk in
          mret (if (ret =? 0) && (status =? 1) then ERR_UNLOCK_SUCCESS
                else - ERR_UNLOCK_RSA_VERIFY_FAIL)
      end
  | _, _, _ => mret (- ERR_UNLOCK_BAD_ARGUMENT)
  end.

(** The code of this chip for a buffer of [len] bytes, and the length it then
    stores into [*len]. *)
Definition amzn_get_unlock_code (len : Z) : run (option (bytes * Z)) :=
  if len <? 16 + 1 then mret None
  else match get_chip_id with
       | None => mret None
       | Some buff =>
           let hash := sha256_sum buff in
           upper ← rd hash (4 * 6) 4;
           lower ← rd hash (4 * 7) 4;
           mret (Some (hex08 (be_decode upper) ++ hex08 (be_decode lower), 16))
       end.

Definition amzn_get_unlock_key : bytes := lagunaf_unlock_pub_der.

Definition amzn_verify_unlock (sig : bytes) : comp (Board D) Z :=
  match amzn_get_unlock_key with
  | [] => mret (- ERR_UNLOCK_BAD_KEY)
  | key =>
      code ← lift (amzn_get_unlock_code UNLOCK_CODE_LEN);
      match code with
      | None => mret (- ERR_UNLOCK_GET_CODE_FAIL)
      | Some (code, code_len) => amzn_verify_code_internal code sig key
      end
  end.

(** Without an override the limited code is the chip's code. *)
Definition amzn_get_limited_unlock_code (len ctr : Z) : run (option (bytes * Z)) :=
  amzn_get_unlock_code len.

(** The loop of [amzn_verify_limited_unlock]; [code_len] is the variable the
    code's length is stored into. *)
Fixpoint try_counters (fuel : nat) (sig key : bytes) (ctr ctr_max code_len ret : Z)
    : comp (Board D) Z :=
  if ctr <=? ctr_max then
    match fuel with
    | O => fun _ => Crash NoFuel
    | S fuel =>
        code ← lift (amzn_get_limited_unlock_code code_len ctr);
        match code with
        | None => mret (- ERR_UNLOCK_GET_CODE_FAIL)
        | Some (code, code_len) =>
            ret ← amzn_verify_code_internal code sig key;
            if ret =? 0 then mret ret
            else try_counters fuel sig key (u32 (ctr + 1)) ctr_max code_len ret
        end
    end
  else mret ret.

Definition amzn_verify_limited_unlock (fuel : nat) (sig : bytes) (ctr_min ctr_max : Z)
    : comp (Board D) Z :=
  match amzn_get_unlock_key with
  | [] => mret (- ERR_UNLOCK_BAD_KEY)
  | key => try_counters fuel sig key ctr_min ctr_max UNLOCK_CODE_LEN (- ERR_UNLOCK_SUCCESS)
  end.

Definition amzn_target_is_unlocked : comp (Board D) Z :=
  let signed_code := replicate (Z.to_nat SIGNED_UNLOCK_CODE_LEN) 0 in
  r ← with_idme (idme_get_var_external (str "unlock_code") SIGNED_UNLOCK_CODE_LEN);
  match r with
  | (0, Some got) =>
      signed_code ← lift (wr signed_code 0 got);
      bad ← amzn_verify_unlock signed_code;
      mret (if bad =? 0 then 1 else 0)
  | _ => mret 0
  end.

(** ** The one-time unlock code *)

(** Base 64 of a buffer, which must decode to exactly [size] bytes. *)
Definition decode_exactly (buf : bytes) (size : Z) : option bytes :=
  b ← base64_decode buf (zlen buf); if zlen b =? size then Some b else None.

Definition amzn_set_onetime_unlock_cert (buf : bytes) : comp (Board D) Z :=
  match decode_exactly buf sizeof_onetime_unlock_cert with
  | None => mret (-1)
  | Some cert =>
      u ← get_unlock;
      put_unlock (mkUnlock cert (signed_one_tu_code u) (signed_code_available u) (one_tu_code u)
                    (sha256_registered u) (lockdown_commands u));;
      mret 0
  end.

Definition amzn_set_onetime_unlock_code (buf : bytes) : comp (Board D) Z :=
  match decode_exactly buf RSA_2048_SIG_LEN with
  | None => mret (-1)
  | Some code =>
      u ← get_unlock;
      put_unlock (mkUnlock (one_tu_cert u) code true (one_tu_code u)
                    (sha256_registered u) (lockdown_commands u));;
      mret 0
  end.

(** The certificate's signature, then its key's hash, for the list of revoked
    keys.  There is no such list and no check of the meta data on this board.
    The index of the hash is looked up before the hash is registered. *)
Definition amzn_verify_onetime_unlock_cert (cert : bytes) : comp (Board D) Z :=
  u ← get_unlock;
  let sha256_idx := sha256_registered u in
  body ← lift (rd cert 0 (sizeof_onetime_unlock_cert - RSA_2048_SIG_LEN));
  signature ← lift (rd cert CERT_SIGNATURE RSA_2048_SIG_LEN);
  bad ← amzn_verify_code_internal body signature onetime_unlock_key;
  if negb (bad =? 0) then mret (- ERR_TEMP_UNLOCK_RSA_VERIFY_FAIL) else
  register_sha256;;
  if negb sha256_idx then mret (- ERR_TEMP_UNLOCK_HASH_FAIL) else
  pk_len ← lift (load32 cert CERT_PK_LEN);
  pubkey ← lift (rd cert CERT_PUBKEY pk_len);
  mret TEMP_UNLOCK_SUCCESS.

(** [RANDOM_BYTES_SIZE] *)
Definition RANDOM_BYTES_SIZE : Z := (ONETIME_UNLOCK_CODE_LEN + 3) / 4 * 3.

(** The random code of this boot, made on the first call. *)
Definition amzn_get_one_tu_code (len : Z) : comp (Board D) (option bytes) :=
  if len <? ONETIME_UNLOCK_CODE_LEN then mret None else
  u ← get_unlock;
  match one_tu_code u with
  | Some code => mret (Some (take (Z.to_nat ONETIME_UNLOCK_CODE_LEN) code))
  | None =>
      code ← lift (amzn_get_unlock_code UNLOCK_CODE_LEN);
      match code with
      | None => mret None
      | Some (unlock_code, _) =>
          match fortuna (unlock_code ++ hex08 get_timer) RANDOM_BYTES_SIZE with
          | None => mret None
          | Some random_bytes =>
              match base64_encode random_bytes (ONETIME_UNLOCK_CODE_LEN + 1) with
              | None => mret None
              | Some code =>
                  let code := code ++ replicate (Z.to_nat (ONETIME_UNLOCK_CODE_LEN + 1) - length code) 0 in
                  put_unlock (mkUnlock (one_tu_cert u) (signed_one_tu_code u)
                                (signed_code_available u) (Some code) (sha256_registered u)
                                (lockdown_commands u));;
                  mret (Some (take (Z.to_nat ONETIME_UNLOCK_CODE_LEN) code))
              end
          end
      end
  end.

Definition amzn_verify_onetime_unlock_code (sig : bytes) : comp (Board D) Z :=
  if negb (zlen sig =? RSA_2048_SIG_LEN) then mret (- ERR_TEMP_UNLOCK_GENERAL_FAIL) else
  u ← get_unlock;
  let cert := one_tu_cert u in
  ret ← amzn_verify_onetime_unlock_cert cert;
  if negb (ret =? 0) then mret (- ERR_TEMP_UNLOCK_CERT_VERITY_FAIL) else
  code ← amzn_get_one_tu_code (ONETIME_UNLOCK_CODE_LEN + 1);
  match code with
  | None => mret (- ERR_TEMP_UNLOCK_GET_CODE_FAIL)
  | Some code =>
      pk_len ← lift (load32 cert CERT_PK_LEN);
      pubkey ← lift (rd cert CERT_PUBKEY pk_len);
      bad ← amzn_verify_code_internal code sig pubkey;
      mret (if bad =? 0 then TEMP_UNLOCK_SUCCESS else - ERR_TEMP_UNLOCK_GENERAL_FAIL)
  end.

Definition amzn_target_is_onetime_unlocked : comp (Board D) Z :=
  u ← get_unlock;
  if negb (signed_code_available u) then mret 0 else
  bad ← amzn_verify_onetime_unlock_code (signed_one_tu_code u);
  mret (if bad =? 0 then 1 else 0).

(** ** Lockdown *)

Definition amzn_target_is_lockdown : comp (Board D) bool :=
  let ret := negb (bool_decide (amzn_target_device_type = AMZN_ENGINEERING_DEVICE)) in
  unlocked ← amzn_target_is_unlocked;
  let ret := if unlocked =? 0 then ret else false in
  onetime ← amzn_target_is_onetime_unlocked;
  mret (if onetime =? 0 then ret else false).

Definition amzn_block_commands : comp (Board D) unit :=
  u ← get_unlock;
  put_unlock (mkUnlock (one_tu_cert u) (signed_one_tu_code u) (signed_code_available u)
                (one_tu_code u) (sha256_registered u) true).

Definition whitelisted_commands : list bytes :=
  [str "fastboot"; str "reset"; str "onetimeunlock"; str "reboot"].

Definition amzn_is_command_blocked (cmd : bytes) : comp (Board D) bool :=
  u ← get_unlock;
  if negb (lockdown_commands u) then mret false else
  if bool_decide (amzn_target_device_type = AMZN_ENGINEERING_DEVICE) then mret false else
  unlocked ← amzn_target_is_unlocked;
  if negb (unlocked =? 0) then mret false else
  onetime ← amzn_target_is_onetime_unlocked;
  if negb (onetime =? 0) then mret false else
  mret (negb (existsb (fun w => bool_decide (w = cmd)) whitelisted_commands)).

Definition is_locked_production_device : comp (Board D) bool :=
  if negb (bool_decide (amzn_target_device_type = AMZN_PRODUCTION_DEVICE)) then mret false else
  unlocked ← amzn_target_is_unlocked;
  if negb (unlocked =? 0) then mret false else
  onetime ← amzn_target_is_onetime_unlocked;
  mret (onetime =? 0).

Definition fastboot_whitelist : list bytes :=
  [str "oem relock"; str "oem flags"; str "flash:unlock"; str "flash:otucert"; str "flash:otucode"].
Definition fastboot_blacklist : list bytes :=
  [str "verify"; str "dump"; str "boot"; str "env"; str "signature"; str "oem"; str "flash";
   str "erase"].

(** Whether a command in [buffer] starts with one of the entries, in order. *)
Fixpoint starts_with_one (buffer : bytes) (entries : list bytes) : run bool :=
  match entries with
  | [] => mret false
  | e :: entries =>
      same ← memcmp_eq buffer e;
      if same : bool then mret true else starts_with_one buffer entries
  end.

(** 1 when a locked device refuses the command. *)
Definition is_restricted_command_on_locked_hw (buffer : bytes) : comp (Board D) Z :=
  locked ← is_locked_production_device;
  if negb locked then mret 0 else
  white ← lift (starts_with_one buffer fastboot_whitelist);
  if white : bool then mret 0 else
  black ← lift (starts_with_one buffer fastboot_blacklist);
  mret (if black : bool then 1 else 0).

(** ** USB updates *)

(** The data hashed so far stands for [usb_hash_state]. *)
Definition init_usb_verifier_hash_state : bytes := [].
Definition usb_verifier_hash_process (usb_hash_state buffer : bytes) : bytes :=
  usb_hash_state ++ buffer.

Definition finalize_usb_verifier_hash_state (usb_hash_state : bytes) (signature key : option bytes)
    : comp (Board D) Z :=
  match signature, key with
  | Some signature, Some key =>
      ok ← malloc sizeof_rsa_key;
      if negb ok then mret (-1) else
      match rsa_import key with
      | None => mret (-1)
      | Some rsa_pk =>
          let '(ret, status) := rsa_verify_hash signature (ltc_sha256 usb_hash_state) rsa_pk in
          mret (if (ret =? 0) && (status =? 1) then 0 else -1)
      end
  | _, _ => mret (-1)
  end.

End Unlock.

(** ** What unlocks a device *)

Section Sound.
Context {D : Type} `{Mmc D} `{Heap (Board D)} `{SecureChip} `{TomCrypt} `{UnlockPlatform}.

(** [sig] is a signature over [data] under the encoded key. *)
Definition signed_under (key data sig : bytes) : Prop :=
  ∃ pk, rsa_import key = Some pk ∧ rsa_verify_hash sig (ltc_sha256 data) pk = (0, 1).

(** The code of this chip. *)
Definition chip_code (code : bytes) : Prop :=
  ∃ id, get_chip_id = Some id
    ∧ code = hex08 (be_decode (slice (sha256_sum id) 24 4))
             ++ hex08 (be_decode (slice (sha256_sum id) 28 4)).

Lemma verify_code_sound data sig key (w w' : Board D) :
  amzn_verify_code_internal data sig key w = Ret (0, w') → signed_under key data sig.
Proof.
  unfold amzn_verify_code_internal. intros E.
  destruct data as [|d data], sig as [|s sig], key as [|k key]; try (by run_inv).
  apply comp_bind_Ret in E as (ok & w1 & _ & E). destruct (negb ok); [by run_inv|].
  destruct (rsa_import (k :: key)) as [pk|] eqn:Hk; [|by run_inv].
  apply comp_bind_Ret in E as ([] & w2 & _ & E).
  destruct (rsa_verify_hash _ _ _) as [rc status] eqn:Hv.
  destruct ((rc =? 0) && (status =? 1)) eqn:Hb; [|by run_inv].
  apply andb_true_iff in Hb as [->%Z.eqb_eq ->%Z.eqb_eq]. by exists pk.
Qed.

Lemma get_unlock_code_inv len code n :
  amzn_get_unlock_code len = Ret (Some (code, n)) → chip_code code ∧ n = 16 ∧ 16 < len.
Proof.
  unfold amzn_get_unlock_code, chip_code. destruct (Z.ltb_spec len (16 + 1)); [done|].
  destruct get_chip_id as [id|]; [|done]. intros E. run_inv.
  repeat match goal with Hr : rd _ _ _ = Ret _ |- _ => apply rd_Ret in Hr as (_ & _ & _ & ->) end.
  injection E as <- <-. split; [by exists id|lia].
Qed.

Lemma verify_unlock_sound sig (w w' : Board D) :
  amzn_verify_unlock sig w = Ret (0, w') →
  ∃ code, chip_code code ∧ signed_under lagunaf_unlock_pub_der code sig.
Proof.
  unfold amzn_verify_unlock. intros E.
  destruct amzn_get_unlock_key as [|k key] eqn:Hk; [done|].
  apply comp_bind_Ret in E as (c & w1 & Hc & E). apply lift_Ret in Hc as (? & Hc & [= <- <-]).
  destruct c as [[code n]|]; [|by run_inv]. apply get_unlock_code_inv in Hc as [Hc _].
  apply verify_code_sound in E. rewrite <- Hk in E. by exists code.
Qed.

Lemma with_idme_Ret {A} (m : comp (IdmeState D) A) w a w' :
  with_idme m w = Ret (a, w') →
  ∃ st, m (board_idme w) = Ret (a, st) ∧ w' = mkBoard st (board_unlock w).
Proof. unfold with_idme. destruct (m (board_idme w)) as [[b st]|]; naive_solver. Qed.

(** The item [unlock_code] of the data store holds, in its first 256 bytes, a
    signature under the unlock key over the code of this very chip. *)
Definition has_unlock_code (es : list entry) : Prop :=
  ∃ e code, get_entry (str "unlock_code") es = Some e ∧ chip_code code
    ∧ signed_under lagunaf_unlock_pub_der code (fill SIGNED_UNLOCK_CODE_LEN (e_data e)).

Lemma is_unlocked_sound (w w' : Board D) es :
  idme_repr (gidme_buff (board_idme w)) es →
  amzn_target_is_unlocked w = Ret (1, w') → has_unlock_code es.
Proof.
  intros Hr E. unfold amzn_target_is_unlocked in E. unfold has_unlock_code.
  apply comp_bind_Ret in E as (r & w1 & Hg & E). apply with_idme_Ret in Hg as (st & Hg & ->).
  unfold idme_get_var_external, idme_get_var, mbind, comp_bind, get_idme, pidme_data in Hg.
  destruct (negb _); [simplify_eq; by run_inv|].
  destruct (pidme_set _); [|cbn in Hg; simplify_eq; by run_inv].
  rewrite (lift_run _ _ _ (get_var_repr (gidme_buff (board_idme w)) es (str "unlock_code")
    SIGNED_UNLOCK_CODE_LEN ltac:(by repeat constructor) Hr ltac:(done))) in Hg.
  destruct (get_entry (str "unlock_code") es) as [e|]; cbn [mbind option_bind] in Hg;
    unfold mret, comp_ret in Hg; simplify_eq.
  apply comp_bind_Ret in E as (signed & w2 & Hs & E). apply lift_Ret in Hs as (? & Hs & [= <- ->]).
  apply comp_bind_Ret in E as (bad & w3 & Hb & E). destruct (Z.eqb_spec bad 0) as [->|]; [|by run_inv].
  apply verify_unlock_sound in Hb as (code & Hc & Hsig). exists e, code. split_and!; try done.
  assert (signed = fill SIGNED_UNLOCK_CODE_LEN (e_data e)) as <-; [|done].
  apply wr_Ret in Hs as (_ & Hl & ->). unfold fill.
  rewrite drop_replicate. change (take (Z.to_nat 0) _) with (@nil Z). rewrite app_nil_l. f_equal.
  f_equal. unfold zlen. rewrite length_take. lia.
Qed.

(** The parts of a certificate. *)
Definition cert_body (cert : bytes) : bytes :=
  slice cert 0 (sizeof_onetime_unlock_cert - RSA_2048_SIG_LEN).
Definition cert_signature (cert : bytes) : bytes := slice cert CERT_SIGNATURE RSA_2048_SIG_LEN.
Definition cert_key (cert : bytes) : bytes :=
  slice cert CERT_PUBKEY (le_decode (slice cert CERT_PK_LEN 4)).

Lemma load32_Ret l off x : load32 l off = Ret x → x = le_decode (slice l off 4).
Proof. unfold load32. intros E. run_inv. apply rd_Ret in H4 as (_ & _ & _ & ->). by injection E. Qed.

Lemma verify_cert_sound cert (w w' : Board D) :
  amzn_verify_onetime_unlock_cert cert w = Ret (0, w') →
  signed_under onetime_unlock_key (cert_body cert) (cert_signature cert)
  ∧ sha256_registered (board_unlock w) = true.
Proof.
  unfold amzn_verify_onetime_unlock_cert. intros E.
  apply comp_bind_Ret in E as (u & w1 & [= -> ->] & E).
  apply comp_bind_Ret in E as (body & w2 & Hb & E). apply lift_Ret in Hb as (? & Hb & [= <- <-]).
  apply comp_bind_Ret in E as (sig & w3 & Hs & E). apply lift_Ret in Hs as (? & Hs & [= <- <-]).
  apply rd_Ret in Hb as (_ & _ & _ & ->). apply rd_Ret in Hs as (_ & _ & _ & ->).
  apply comp_bind_Ret in E as (bad & w4 & Hv & E).
  destruct (Z.eqb_spec bad 0) as [->|]; cbn [negb] in E; [|by run_inv].
  apply verify_code_sound in Hv. split; [done|].
  apply comp_bind_Ret in E as ([] & w5 & _ & E).
  destruct (sha256_registered _); [done|]. by run_inv.
Qed.
(** The allocator leaves the static variables alone. *)
Context (heap_frame : ∀ n (w : Board D), board_unlock (heap_alloc n w).2 = board_unlock w).

(** Checking a signature only ever registers the hash. *)
Definition only_registers (w w' : Board D) : Prop :=
  board_unlock w' = board_unlock w ∨ board_unlock w' = set_registered (board_unlock w).

Lemma verify_code_frame data sig key (w : Board D) r w' :
  amzn_verify_code_internal data sig key w = Ret (r, w') → only_registers w w'.
Proof.
  unfold amzn_verify_code_internal, only_registers. intros E.
  destruct data as [|d data], sig as [|s sig], key as [|k key]; try (run_inv; by left).
  apply comp_bind_Ret in E as (ok & w1 & Hm & E).
  apply malloc_Ret in Hm. assert (Hw : board_unlock w1 = board_unlock w)
    by (rewrite <- (heap_frame sizeof_rsa_key w), <- Hm; done).
  destruct (negb ok); [run_inv; by left|].
  destruct (rsa_import (k :: key)) as [pk|]; [|run_inv; by left].
  apply comp_bind_Ret in E as ([] & w2 & Hreg & E). injection Hreg as <-.
  destruct (rsa_verify_hash _ _ _). run_inv. right. simpl. by rewrite Hw.
Qed.

Lemma one_tu_code_inv len (w : Board D) code w' :
  amzn_get_one_tu_code len w = Ret (Some code, w') →
  ∃ full, one_tu_code (board_unlock w') = Some full ∧ code = take (Z.to_nat ONETIME_UNLOCK_CODE_LEN) full
    ∧ (one_tu_code (board_unlock w) = Some full ∨ one_tu_code (board_unlock w) = None).
Proof.
  unfold amzn_get_one_tu_code. intros E. destruct (len <? _); [by run_inv|].
  apply comp_bind_Ret in E as (u & w1 & [= <- <-] & E).
  destruct (one_tu_code (board_unlock w)) as [full|] eqn:Hf; [run_inv; exists full; auto|].
  apply comp_bind_Ret in E as (c & w2 & Hc & E). apply lift_Ret in Hc as (? & _ & [= <- ->]).
  destruct c as [[c n]|]; [|by run_inv]. destruct (fortuna _ _); [|by run_inv].
  destruct (base64_encode _ _) as [b|]; [|by run_inv].
  apply comp_bind_Ret in E as ([] & w3 & Hp & E). injection Hp as <-. run_inv.
  eexists. split; [done|]. auto.
Qed.

(** A certificate signed under the product's root key, and a signature, under
    the key in that certificate, over the random code [full] of this boot. *)
Definition onetime_signed (u : UnlockState) (full : bytes) : Prop :=
  signed_code_available u = true
  ∧ signed_under onetime_unlock_key (cert_body (one_tu_cert u)) (cert_signature (one_tu_cert u))
  ∧ signed_under (cert_key (one_tu_cert u)) (take (Z.to_nat ONETIME_UNLOCK_CODE_LEN) full)
      (signed_one_tu_code u).

Lemma is_onetime_unlocked_sound (w w' : Board D) :
  amzn_target_is_onetime_unlocked w = Ret (1, w') →
  ∃ full, one_tu_code (board_unlock w') = Some full ∧ onetime_signed (board_unlock w) full.
Proof.
  intros E. set (u := board_unlock w). unfold amzn_target_is_onetime_unlocked, amzn_verify_onetime_unlock_code in E.
  apply comp_bind_Ret in E as (? & w1 & [= <- <-] & E). fold u in E.
  destruct (signed_code_available u) eqn:Hav; cbn [negb] in E; [|by run_inv].
  apply comp_bind_Ret in E as (bad & w2 & Hv & E).
  destruct (Z.eqb_spec bad 0) as [->|]; [|by run_inv]. run_inv.
  destruct (negb (_ =? _)); [by run_inv|].
  apply comp_bind_Ret in Hv as (? & w3 & [= <- <-] & Hv). fold u in Hv.
  apply comp_bind_Ret in Hv as (ret & w4 & Hcert & Hv).
  destruct (Z.eqb_spec ret 0) as [->|]; cbn [negb] in Hv; [|by run_inv].
  apply verify_cert_sound in Hcert as [Hcert _].
  apply comp_bind_Ret in Hv as (code & w5 & Hcode & Hv). destruct code as [code|]; [|by run_inv].
  apply one_tu_code_inv in Hcode as (full & Hf & -> & _).
  apply comp_bind_Ret in Hv as (n & w6 & Hn & Hv). apply lift_Ret in Hn as (? & Hn & [= <- ->]).
  apply comp_bind_Ret in Hv as (pk & w7 & Hpk & Hv). apply lift_Ret in Hpk as (? & Hpk & [= <- ->]).
  apply load32_Ret in Hn as ->. apply rd_Ret in Hpk as (_ & _ & _ & ->).
  apply comp_bind_Ret in Hv as (bad & w8 & Hsig & Hv).
  destruct (Z.eqb_spec bad 0) as [->|]; [|by run_inv]. run_inv.
  exists full. split; [by destruct (verify_code_frame _ _ _ _ _ _ Hsig) as [-> | ->]|].
  apply verify_code_sound in Hsig. exact (conj Hav (conj Hcert Hsig)).
Qed.

(** Until SHA-256 has been registered by some other check, no one-time
    unlock succeeds, however valid the certificate and the code are. *)
Theorem onetime_unlock_needs_registered_hash (w w' : Board D) r :
  sha256_registered (board_unlock w) = false →
  amzn_target_is_onetime_unlocked w = Ret (r, w') → r = 0.
Proof.
  unfold amzn_target_is_onetime_unlocked, amzn_verify_onetime_unlock_code. intros Hreg E.
  apply comp_bind_Ret in E as (? & w1 & [= <- <-] & E).
  destruct (negb _); [by run_inv|]. apply comp_bind_Ret in E as (bad & w2 & Hv & E).
  destruct (Z.eqb_spec bad 0) as [->|]; [|by run_inv]. exfalso.
  destruct (negb (_ =? _)); [by run_inv|].
  apply comp_bind_Ret in Hv as (? & w3 & [= <- <-] & Hv).
  apply comp_bind_Ret in Hv as (ret & w4 & Hcert & Hv).
  destruct (Z.eqb_spec ret 0) as [->|]; cbn [negb] in Hv; [|by run_inv].
  apply verify_cert_sound in Hcert as [_ Hr]. congruence.
Qed.

(** The limited unlock accepts any signature when the range of counters is
    empty, and tries the first counter only: on the second one the buffer
    counts as too small and the check fails. *)
Theorem amzn_verify_limited_unlock_result sig ctr_min ctr_max (w : Board D) :
  0 ≤ ctr_min < U32_MAX →
  (ctr_max < ctr_min → amzn_verify_limited_unlock 0 sig ctr_min ctr_max w = Ret (0, w))
  ∧ (ctr_min ≤ ctr_max → ∀ code,
       amzn_get_unlock_code UNLOCK_CODE_LEN = Ret (Some (code, 16)) →
       amzn_verify_limited_unlock 2 sig ctr_min ctr_max w
       = (r ← amzn_verify_code_internal code sig lagunaf_unlock_pub_der;
          mret (if (r =? 0) || (ctr_max =? ctr_min) then r else - ERR_UNLOCK_GET_CODE_FAIL)) w).
Proof.
  intros Hmin. split.
  - intros Hlt. unfold amzn_verify_limited_unlock.
    destruct amzn_get_unlock_key as [|k key] eqn:Hk; [done|].
    unfold try_counters. by rewrite (proj2 (Z.leb_gt _ _)) by lia.
  - intros Hle code Hcode. unfold amzn_verify_limited_unlock.
    destruct amzn_get_unlock_key as [|k key] eqn:Hk; [done|].
    change lagunaf_unlock_pub_der with amzn_get_unlock_key. rewrite Hk.
    cbn [try_counters]. rewrite (proj2 (Z.leb_le _ _)) by lia.
    unfold amzn_get_limited_unlock_code, mbind, comp_bind. rewrite (lift_run _ _ _ Hcode).
    destruct (amzn_verify_code_internal code sig (k :: key) w) as [[r w1]|]; [|done].
    destruct (Z.eqb_spec r 0) as [->|Hr]; [done|]. cbn [orb].
    rewrite u32_small by (split; lia).
    destruct (Z.eqb_spec ctr_max ctr_min) as [->|Hne].
    + by rewrite (proj2 (Z.leb_gt _ _)) by lia.
    + by rewrite (proj2 (Z.leb_le _ _)) by lia.
Qed.

(** ** What a locked device allows *)

Lemma is_unlocked_frame (w w' : Board D) r :
  amzn_target_is_unlocked w = Ret (r, w') → only_registers w w' ∧ (r = 0 ∨ r = 1).
Proof.
  unfold amzn_target_is_unlocked, amzn_verify_unlock. intros E.
  apply comp_bind_Ret in E as ([rc got] & w1 & Hg & E). apply with_idme_Ret in Hg as (st & _ & ->).
  assert (Hw : ∀ w2, only_registers (mkBoard st (board_unlock w)) w2 → only_registers w w2) by done.
  destruct rc as [| |], got as [got|]; try (run_inv; split; [by left|auto]).
  apply comp_bind_Ret in E as (sc & w2 & Hs & E). apply lift_Ret in Hs as (? & _ & [= <- ->]).
  apply comp_bind_Ret in E as (bad & w3 & Hb & E). run_inv.
  split; [|destruct (bad =? 0); auto]. apply Hw.
  destruct amzn_get_unlock_key as [|k key]; [run_inv; by left|].
  apply comp_bind_Ret in Hb as (c & w4 & Hc & Hb). apply lift_Ret in Hc as (? & _ & [= <- ->]).
  destruct c as [[c n]|]; [by eapply verify_code_frame|run_inv; by left].
Qed.

Lemma is_onetime_unlocked_bool (w w' : Board D) r :
  amzn_target_is_onetime_unlocked w = Ret (r, w') → r = 0 ∨ r = 1.
Proof.
  unfold amzn_target_is_onetime_unlocked. intros E.
  apply comp_bind_Ret in E as (? & w1 & _ & E). destruct (negb _); [run_inv; auto|].
  apply comp_bind_Ret in E as (bad & w2 & _ & E). run_inv. destruct (bad =? 0); auto.
Qed.

Lemma onetime_signed_registers (w w' : Board D) full :
  only_registers w w' → onetime_signed (board_unlock w') full → onetime_signed (board_unlock w) full.
Proof. intros [-> | ->]; done. Qed.

(** The two checks in the order the lockdown functions make them. *)
Lemma both_locks_sound (w w1 w2 : Board D) a b es :
  idme_repr (gidme_buff (board_idme w)) es →
  amzn_target_is_unlocked w = Ret (a, w1) → a ≠ 0 ∨
    amzn_target_is_onetime_unlocked w1 = Ret (b, w2) ∧ b ≠ 0 →
  has_unlock_code es ∨ ∃ full, one_tu_code (board_unlock w2) = Some full
    ∧ onetime_signed (board_unlock w) full.
Proof.
  intros Hr Ha Hb. pose proof (is_unlocked_frame _ _ _ Ha) as [Hf Hab].
  destruct Hb as [Hne|[Hb Hne]].
  - left. destruct Hab as [->| ->]; [done|]. by eapply is_unlocked_sound.
  - right. pose proof (is_onetime_unlocked_bool _ _ _ Hb) as [->| ->]; [done|].
    apply is_onetime_unlocked_sound in Hb as (full & Hfull & Hsig). exists full. split; [done|].
    by eapply onetime_signed_registers.
Qed.

(** C10: once the console is locked down on a production device, a command that
    is let through is one of the four that are always allowed, or the device
    carries a signed unlock code of its own chip or of this boot. *)
Theorem locked_console_safe cmd (w w' : Board D) es :
  idme_repr (gidme_buff (board_idme w)) es →
  lockdown_commands (board_unlock w) = true →
  amzn_target_device_type = AMZN_PRODUCTION_DEVICE →
  amzn_is_command_blocked cmd w = Ret (false, w') →
  cmd ∈ whitelisted_commands ∨ has_unlock_code es
  ∨ ∃ full, one_tu_code (board_unlock w') = Some full ∧ onetime_signed (board_unlock w) full.
Proof.
  intros Hr Hl Ht E. unfold amzn_is_command_blocked in E.
  apply comp_bind_Ret in E as (? & w0 & [= <- <-] & E). rewrite Hl, Ht in E.
  rewrite (bool_decide_false (AMZN_PRODUCTION_DEVICE = AMZN_ENGINEERING_DEVICE)) in E by done.
  cbn [negb] in E.
  apply comp_bind_Ret in E as (a & w1 & Ha & E).
  destruct (Z.eqb_spec a 0) as [->|Hna]; cbn [negb] in E.
  2: { run_inv. right. eapply both_locks_sound with (b := 0); [exact Hr|exact Ha|by left]. }
  apply comp_bind_Ret in E as (b & w2 & Hb & E).
  destruct (Z.eqb_spec b 0) as [->|Hnb]; cbn [negb] in E.
  2: { run_inv. right. eapply both_locks_sound; [exact Hr|exact Ha|right; split; [exact Hb|exact Hnb]]. }
  left. apply comp_ret_eq, (f_equal fst) in E. cbn [fst] in E. symmetry in E.
  apply negb_false_iff, existsb_exists in E as (x & Hx & Heq).
  apply bool_decide_eq_true in Heq as ->. by apply list_elem_of_In.
Qed.
(** On a production device a fastboot command that starts with a restricted
    word, and with none of the exceptions, is let through only if the device
    carries a signed unlock code. *)
Theorem locked_fastboot_safe buffer (w w' : Board D) es :
  idme_repr (gidme_buff (board_idme w)) es →
  amzn_target_device_type = AMZN_PRODUCTION_DEVICE →
  starts_with_one buffer fastboot_whitelist = Ret false →
  starts_with_one buffer fastboot_blacklist = Ret true →
  is_restricted_command_on_locked_hw buffer w = Ret (0, w') →
  has_unlock_code es
  ∨ ∃ full, one_tu_code (board_unlock w') = Some full ∧ onetime_signed (board_unlock w) full.
Proof.
  intros Hr Ht Hwhite Hblack E.
  unfold is_restricted_command_on_locked_hw, is_locked_production_device in E.
  rewrite Hwhite, Hblack, Ht in E.
  rewrite (bool_decide_true (AMZN_PRODUCTION_DEVICE = AMZN_PRODUCTION_DEVICE)) in E by done.
  cbn [negb] in E.
  apply comp_bind_Ret in E as (locked & w2 & Hl & E).
  destruct locked; cbn [negb] in E; [by run_inv|]. apply comp_ret_eq in E. simplify_eq.
  apply comp_bind_Ret in Hl as (a & w1 & Ha & Hl).
  destruct (Z.eqb_spec a 0) as [->|Hna]; cbn [negb] in Hl.
  2: { run_inv. eapply both_locks_sound with (b := 0); [exact Hr|exact Ha|by left]. }
  apply comp_bind_Ret in Hl as (b & w3 & Hb & Hl).
  destruct (Z.eqb_spec b 0) as [->|Hnb]; [by run_inv|]. run_inv.
  eapply both_locks_sound; [exact Hr|exact Ha|right; split; [exact Hb|exact Hnb]].
Qed.
End Sound.

(** ** Examples *)

(** A signature scheme in which the first byte of a signature names the hash it
    is over. *)
#[local] Instance demo_tomcrypt : TomCrypt := {|
  rsa_key := unit;
  der_decode_sequence_flexi _ := None;
  der_length_sequence _ _ := None;
  der_encode_sequence_ex _ _ _ := None;
  rsa_import _ := Some tt;
  rsa_verify_hash signature hash _ := (0, if bool_decide (head signature = head hash) then 1 else 0);
  ltc_sha256 b := b;
  nodes_in_memory _ := [];
  mp_room := 8;
  mp_read_radix _ _ := None;
  mp_unsigned_bin_size _ := 0;
  mp_to_unsigned_bin _ := None;
|}.
#[local] Instance demo_chip : SecureChip := {|
  AO_SEC_SD_CFG10 := 0x2000010;
  sha256_csum_wd data := be_encode 32 (be_decode data);
|}.
#[local] Instance demo_platform : UnlockPlatform := {|
  get_chip_id := Some (replicate 16 1);
  sha256_sum b := b ++ b;
  get_timer := 7;
  fortuna _ n := Some (replicate (Z.to_nat n) 5);
  base64_encode b _ := Some (replicate 32 65);
  base64_decode b _ := Some b;
|}.
#[local] Instance demo_mmc : Mmc unit := {|
  find_mmc_device _ := true;
  mmc_switch_part _ d := (0, d);
  mmc_capacity _ := CONFIG_IDME_SIZE;
  block_read _ _ d := (0, [], d);
  block_write _ _ _ d := (0, d);
|}.
#[local] Instance demo_heap : Heap (Board unit) := fun _ w => (true, w).

Lemma demo_heap_frame n (w : Board unit) : board_unlock (heap_alloc n w).2 = board_unlock w.
Proof. done. Qed.

Lemma locked_console_safe_witness :
  ∃ buf, idme_repr buf (default_entry [] <$> idme_default_values)
    ∧ let w := mkBoard (mkIdme buf false false tt)
                 (mkUnlock [] [] false None false true) in
      amzn_is_command_blocked (str "reset") w = Ret (false, w)
      ∧ (str "reset" ∈ whitelisted_commands
         ∨ has_unlock_code (default_entry [] <$> idme_default_values)
         ∨ ∃ full, one_tu_code (board_unlock w) = Some full ∧ onetime_signed (board_unlock w) full).
Proof.
  destruct default_table as (buf & Hr & _). exists buf. split; [exact Hr|]. cbn zeta.
  split; [reflexivity|].
  apply (locked_console_safe demo_heap_frame (str "reset")
    (mkBoard (mkIdme buf false false tt) (mkUnlock [] [] false None false true))
    (mkBoard (mkIdme buf false false tt) (mkUnlock [] [] false None false true)) _ Hr);
    reflexivity.
Defined.

(** A device with a certificate and a signed one-time code. *)
Definition demo_onetime : UnlockState :=
  mkUnlock (replicate 32 0 ++ [1; 0; 0; 0] ++ replicate 556 0) (65 :: replicate 255 0) true None
    true true.

Lemma locked_fastboot_safe_witness :
  ∃ buf w', idme_repr buf (default_entry [] <$> idme_default_values)
    ∧ is_restricted_command_on_locked_hw (str "flash:boot" ++ replicate 54 0)
        (mkBoard (mkIdme buf false false tt) demo_onetime) = Ret (0, w')
    ∧ (has_unlock_code (default_entry [] <$> idme_default_values)
       ∨ ∃ full, one_tu_code (board_unlock w') = Some full ∧ onetime_signed demo_onetime full).
Proof.
  destruct default_table as (buf & Hr & _). exists buf.
  destruct (is_restricted_command_on_locked_hw (str "flash:boot" ++ replicate 54 0)
    (mkBoard (mkIdme buf false false tt) demo_onetime)) as [[r w']|] eqn:E; [|by vm_compute in E].
  assert (r = 0) as -> by (vm_compute in E; congruence).
  exists w'. split; [exact Hr|]. split; [reflexivity|].
  apply (locked_fastboot_safe demo_heap_frame (str "flash:boot" ++ replicate 54 0)
    (mkBoard (mkIdme buf false false tt) demo_onetime) w' _ Hr); [reflexivity..|exact E].
Defined.

Lemma onetime_unlock_needs_registered_hash_witness :
  let u := mkUnlock (replicate 592 0) (replicate 256 0) true None false false in
  ∃ r w', amzn_target_is_onetime_unlocked (mkBoard (mkIdme [] false false tt) u) = Ret (r, w')
    ∧ r = 0.
Proof.
  intros u. destruct (amzn_target_is_onetime_unlocked (mkBoard (mkIdme [] false false tt) u))
    as [[r w']|] eqn:E; [|by vm_compute in E].
  exists r, w'. split; [done|].
  by apply (onetime_unlock_needs_registered_hash (mkBoard (mkIdme [] false false tt) u) w' r).
Defined.

Lemma amzn_verify_limited_unlock_result_witness :
  let w := mkBoard (mkIdme [] false false tt) unlock_reset in
  amzn_verify_limited_unlock 0 [] 5 4 w = Ret (0, w)
  ∧ amzn_verify_limited_unlock 2 [1] 5 9 w
    = Ret (- ERR_UNLOCK_GET_CODE_FAIL, mkBoard (board_idme w) (set_registered (board_unlock w))).
Proof.
  intros w. split.
  - apply (amzn_verify_limited_unlock_result [] 5 4 w); lia.
  - destruct (amzn_get_unlock_code UNLOCK_CODE_LEN) as [[[code n]|]|] eqn:E; [|by vm_compute in E..].
    assert (n = 16) as -> by (vm_compute in E; congruence).
    rewrite (proj2 (amzn_verify_limited_unlock_result [1] 5 9 w ltac:(lia)) ltac:(lia) code E).
    vm_compute in E. injection E as <-. reflexivity.
Defined.
