(* ===== verification/Bootm.v ===== *)
(** * Booting an image

    [common/cmd_bootm.c], with the image formats of [common/image.c],
    [common/image-android.c] and [common/image-fit.c] that decide what is
    verified and what is booted: [do_bootm] up to [do_bootm_states]. *)

From S2P Require Import Prelude AvbOps BootCtl SlotSound SlotEdge CmdAvb Idme IdmeSpec SecureBoot Unlock.

(** ** Numbers on the command line *)

Definition isdigit (c : Z) : bool := (48 <=? c) && (c <=? 57).
Definition islower (c : Z) : bool := (97 <=? c) && (c <=? 122).
Definition isxdigit (c : Z) : bool :=
  isdigit c || ((65 <=? c) && (c <=? 70)) || ((97 <=? c) && (c <=? 102)).

Definition digit_value (c : Z) : Z :=
  if isdigit c then c - 48 else (if islower c then c - 32 else c) - 65 + 10.

(** The digits of a number in the given base, and the rest of the string, which
    is given without its NUL. *)
Fixpoint strtoul_from (cp : bytes) (base result : Z) : Z * bytes :=
  match cp with
  | c :: rest => if isxdigit c && (digit_value c <? base)
                 then strtoul_from rest base (u64 (result * base + digit_value c))
                 else (result, cp)
  | [] => (result, [])
  end.

(** [simple_strtoul(cp, &endp, 16)] *)
Definition simple_strtoul (cp : bytes) : Z * bytes :=
  match cp with
  | 48 :: 120 :: c :: rest => if isxdigit c then strtoul_from (c :: rest) 16 0
                              else strtoul_from (120 :: c :: rest) 16 0
  | 48 :: rest => strtoul_from rest 16 0
  | _ => strtoul_from cp 16 0
  end.

(** An address with a name after the separator, the address optional. *)
Definition fit_parse_spec (spec : bytes) (sepc addr_curr : Z) : option Z :=
  match list_find (fun c => c = sepc) spec with
  | Some (O, _) => Some addr_curr
  | Some (S _, _) => Some (simple_strtoul spec).1
  | None => None
  end.

Definition genimg_get_kernel_addr_fit (load_addr : Z) (img_addr : option bytes) : Z :=
  match img_addr with
  | None => load_addr
  | Some a =>
      match fit_parse_spec a 35 load_addr with
      | Some addr => addr
      | None => match fit_parse_spec a 58 load_addr with
                | Some addr => addr
                | None => (simple_strtoul a).1
                end
      end
  end.

(** ** Image formats *)

Inductive image_format :=
| IMAGE_FORMAT_INVALID
| IMAGE_FORMAT_LEGACY
| IMAGE_FORMAT_FIT
| IMAGE_FORMAT_ANDROID.

#[export] Instance image_format_eq_dec : EqDecision image_format.
Proof. solve_decision. Defined.

Definition IH_MAGIC : Z := 0x27051956.
Definition FDT_MAGIC : Z := 0xd00dfeed.
Definition FDT_SW_MAGIC : Z := u32 (Z.lnot FDT_MAGIC).
Definition FDT_FIRST_SUPPORTED_VERSION : Z := 0x10.
Definition FDT_LAST_SUPPORTED_VERSION : Z := 0x11.
Definition ANDR_BOOT_MAGIC : bytes := str "ANDROID!".

Definition load_be32 (img : bytes) (off : Z) : run Z := bs ← rd img off 4; mret (be_decode bs).

Definition image_check_magic (img : bytes) : run bool :=
  magic ← load_be32 img 0; mret (magic =? IH_MAGIC).

(** [fdt_check_header(fdt) == 0] *)
Definition fdt_check_header (fdt : bytes) : run bool :=
  magic ← load_be32 fdt 0;
  if magic =? FDT_MAGIC then
    version ← load_be32 fdt 20;
    if version <? FDT_FIRST_SUPPORTED_VERSION then mret false else
    last_comp_version ← load_be32 fdt 24;
    mret (negb (FDT_LAST_SUPPORTED_VERSION <? last_comp_version))
  else if magic =? FDT_SW_MAGIC then
    size_dt_struct ← load_be32 fdt 36;
    mret (negb (size_dt_struct =? 0))
  else mret false.

(** [android_image_check_header(hdr) == 0] *)
Definition android_image_check_header (hdr : bytes) : run bool := memcmp_eq hdr ANDR_BOOT_MAGIC.

Definition genimg_get_format (img : bytes) : run image_format :=
  legacy ← image_check_magic img;
  if legacy : bool then mret IMAGE_FORMAT_LEGACY else
  fit ← fdt_check_header img;
  if fit : bool then mret IMAGE_FORMAT_FIT else
  android ← android_image_check_header img;
  mret (if android : bool then IMAGE_FORMAT_ANDROID else IMAGE_FORMAT_INVALID).

(** ** Android images *)

Record andr_img_hdr := mkHdr {
  kernel_size : Z;
  ramdisk_size : Z;
  second_size : Z;
  page_size : Z;
}.

Definition read_hdr (img : bytes) : run andr_img_hdr :=
  kernel ← load32 img 8; ramdisk ← load32 img 16; second ← load32 img 24; page ← load32 img 36;
  mret (mkHdr kernel ramdisk second page).

(** [ALIGN] of [u32] operands. *)
Definition align32 (x a : Z) : Z :=
  Z.land (u32 (x + u32 (a - 1))) (u32 (Z.lnot (u32 (a - 1)))).

(** The end of the image, as an offset from its start. *)
Definition android_image_get_end (hdr : andr_img_hdr) : Z :=
  u64 (page_size hdr + align32 (kernel_size hdr) (page_size hdr)
       + align32 (ramdisk_size hdr) (page_size hdr) + align32 (second_size hdr) (page_size hdr)).

(** The kernel, and the ramdisk if there is one, as offset and length. *)
Definition android_image_get_kernel (hdr : andr_img_hdr) : Z * Z :=
  (page_size hdr, kernel_size hdr).
Definition android_image_get_ramdisk (hdr : andr_img_hdr) : option (Z * Z) :=
  if ramdisk_size hdr =? 0 then None
  else Some (page_size hdr + align32 (kernel_size hdr) (page_size hdr), ramdisk_size hdr).
(** The device tree in the second stage, for [CONFIG_ANDROID_IMG]. *)
Definition android_image_get_fdt (hdr : andr_img_hdr) : Z * Z :=
  (page_size hdr + align32 (kernel_size hdr) (page_size hdr)
   + align32 (ramdisk_size hdr) (page_size hdr), second_size hdr).

(** [ALIGN] rounds up to a multiple of a power of two. *)
Lemma align32_up x k :
  0 ≤ k < 32 → 0 ≤ x → x + 2 ^ k ≤ 2 ^ 32 →
  align32 x (2 ^ k) = (x + (2 ^ k - 1)) / 2 ^ k * 2 ^ k.
Proof.
  intros Hk Hx Hb. unfold align32.
  assert (Hp : 0 < 2 ^ k) by (apply Z.pow_pos_nonneg; lia).
  change (2 ^ 32) with 0x100000000 in Hb.
  rewrite !(u32_small (2 ^ k - 1)) by (unfold is_u32; lia).
  rewrite (u32_small (x + _)) by (unfold is_u32; lia).
  replace (Z.lnot (2 ^ k - 1)) with (Z.lnot (Z.ones k)) by (rewrite Z.ones_equiv; f_equal; lia).
  unfold u32. change 0x100000000 with (2 ^ 32) in *. rewrite <- (Z.land_ones (Z.lnot _) 32) by lia.
  rewrite (Z.land_comm (Z.lnot _)), Z.land_assoc, Z.land_ones, Z.mod_small by lia.
  rewrite <- Z.ldiff_land, Z.ldiff_ones_r, Z.shiftl_mul_pow2, Z.shiftr_div_pow2 by lia. done.
Qed.

Lemma align32_bounds x k :
  0 ≤ k < 32 → 0 ≤ x → x + 2 ^ k ≤ 2 ^ 32 →
  x ≤ align32 x (2 ^ k) < x + 2 ^ k ∧ align32 x (2 ^ k) mod 2 ^ k = 0.
Proof.
  intros Hk Hx Hb. rewrite align32_up by done.
  assert (Hp : 0 < 2 ^ k) by (apply Z.pow_pos_nonneg; lia).
  pose proof (Z.div_mod (x + (2 ^ k - 1)) (2 ^ k) ltac:(lia)).
  pose proof (Z.mod_pos_bound (x + (2 ^ k - 1)) (2 ^ k) Hp).
  split; [nia|]. by apply Z.mod_mul; lia.
Qed.

(** Where the parts of an image are. *)
Lemma image_layout hdr k :
  0 ≤ k < 32 → page_size hdr = 2 ^ k →
  Forall (fun size => 0 ≤ size ∧ size + 2 ^ k ≤ 2 ^ 32)
    [kernel_size hdr; ramdisk_size hdr; second_size hdr] →
  let '(kernel, kernel_len) := android_image_get_kernel hdr in
  let '(fdt, fdt_len) := android_image_get_fdt hdr in
  page_size hdr ≤ kernel ∧ kernel + kernel_len ≤ fdt
  ∧ fdt + fdt_len ≤ android_image_get_end hdr < fdt + fdt_len + page_size hdr
  ∧ fdt mod page_size hdr = 0 ∧ android_image_get_end hdr mod page_size hdr = 0
  ∧ match android_image_get_ramdisk hdr with
    | None => ramdisk_size hdr = 0
    | Some (ramdisk, ramdisk_len) =>
        kernel + kernel_len ≤ ramdisk ∧ ramdisk + ramdisk_len ≤ fdt
        ∧ ramdisk_len = ramdisk_size hdr ∧ ramdisk mod page_size hdr = 0
    end.
Proof.
  intros Hk Hp Hs. unfold android_image_get_end, android_image_get_ramdisk. simpl. rewrite Hp.
  rewrite !Forall_cons in Hs. destruct Hs as ([? ?] & [? ?] & [? ?] & _).
  destruct (align32_bounds (kernel_size hdr) k) as [? Hm1]; [done..|].
  destruct (align32_bounds (ramdisk_size hdr) k) as [? Hm2]; [done..|].
  destruct (align32_bounds (second_size hdr) k) as [? Hm3]; [done..|].
  assert (0 < 2 ^ k) by (apply Z.pow_pos_nonneg; lia).
  rewrite u64_small by (unfold is_u64; lia).
  assert (Hadd : ∀ a b, a mod 2 ^ k = 0 → b mod 2 ^ k = 0 → (a + b) mod 2 ^ k = 0).
  { intros a b Ha Hb. rewrite Z.add_mod, Ha, Hb by lia. by rewrite Z.mod_0_l by lia. }
  pose proof (Z.mod_same (2 ^ k) ltac:(lia)).
  repeat split; try lia; auto 10.
  destruct (Z.eqb_spec (ramdisk_size hdr) 0); [done|]. repeat split; try lia; auto.
Qed.

(** C35: the bytes whose hash is checked hold everything that is booted.  When
    the page size is a power of two, no size wraps when it is rounded up and the
    whole image is below 4 GiB, the size handed to the check is that of the image,
    and the kernel, the ramdisk and the device tree follow the header page in this
    order without overlap, each on a page boundary, all inside of that size. *)
Theorem android_image_covered hdr k :
  0 ≤ k < 32 → page_size hdr = 2 ^ k →
  Forall (fun size => 0 ≤ size ∧ size + 2 ^ k ≤ 2 ^ 32)
    [kernel_size hdr; ramdisk_size hdr; second_size hdr] →
  android_image_get_end hdr < 2 ^ 32 →
  let hashed := u32 (android_image_get_end hdr) in
  let '(kernel, kernel_len) := android_image_get_kernel hdr in
  let '(fdt, fdt_len) := android_image_get_fdt hdr in
  hashed = android_image_get_end hdr
  ∧ page_size hdr ≤ kernel ∧ kernel + kernel_len ≤ fdt
  ∧ fdt + fdt_len ≤ hashed < fdt + fdt_len + page_size hdr
  ∧ fdt mod page_size hdr = 0 ∧ hashed mod page_size hdr = 0
  ∧ match android_image_get_ramdisk hdr with
    | None => ramdisk_size hdr = 0
    | Some (ramdisk, ramdisk_len) =>
        kernel + kernel_len ≤ ramdisk ∧ ramdisk + ramdisk_len ≤ fdt
        ∧ ramdisk_len = ramdisk_size hdr ∧ ramdisk mod page_size hdr = 0
    end.
Proof.
  intros Hk Hp Hs Hlt. pose proof (image_layout hdr k Hk Hp Hs) as H. cbv zeta.
  assert (0 ≤ android_image_get_end hdr) by apply u64_range.
  rewrite (u32_small (android_image_get_end hdr)) by (unfold is_u32; lia).
  destruct (android_image_get_kernel hdr), (android_image_get_fdt hdr). split; [done|exact H].
Qed.

(** An image of 4 GiB or more is not hashed to its end: the size is cut to 32 bits. *)
Theorem large_image_partly_hashed hdr :
  2 ^ 32 ≤ android_image_get_end hdr → u32 (android_image_get_end hdr) ≤ android_image_get_end hdr - 2 ^ 32.
Proof.
  intros Hl. unfold u32. pose proof (Z.div_mod (android_image_get_end hdr) 0x100000000 ltac:(done)).
  pose proof (Z.div_le_lower_bound (android_image_get_end hdr) 0x100000000 1 ltac:(done) ltac:(lia)). lia.
Qed.

(** ** The command *)

Definition GXB_IMG_LOAD_ADDR : Z := 0x1080000.

(** The board's store and unlock state, and the boot environment. *)
Record Machine (D E : Type) := mkMachine {
  m_board : Board D;
  m_boot : BootState E;
}.
Arguments mkMachine {D E} _ _.
Arguments m_board {D E} _.
Arguments m_boot {D E} _.

(** How [do_bootm] ends: with a return code, with a refused slot, in
    [do_bootm_subcommand], or in [do_bootm_states] with the image at an address. *)
Inductive bootm_outcome :=
| Returned (rc : Z)
| Refused (result : AvbSlotVerifyResult)
| RunsSubcommand (argv0 : bytes)
| Boots (img_addr : Z).



(** The image that is booted is at the number the argument starts with. *)
Lemma booted_addr load_addr a :
  (∀ c, head a = Some c → c ≠ 35 ∧ c ≠ 58) →
  genimg_get_kernel_addr_fit load_addr (Some a) = (simple_strtoul a).1.
Proof.
  intros Hsep. unfold genimg_get_kernel_addr_fit.
  assert (Hp : ∀ c, c = 35 ∨ c = 58 →
    fit_parse_spec a c load_addr = None ∨ fit_parse_spec a c load_addr = Some (simple_strtoul a).1).
  { intros c Hc. unfold fit_parse_spec. destruct (list_find _ a) as [[[|n] x]|] eqn:Hf; auto.
    apply list_find_Some in Hf as (Hx & -> & _).
    destruct (Hsep c) as [? ?]; [by rewrite head_lookup|]. naive_solver. }
  destruct (Hp 35 ltac:(auto)) as [-> | ->]; [|done].
  by destruct (Hp 58 ltac:(auto)) as [-> | ->].
Qed.

Section Bootm.
Context {D E : Type} `{Mmc D} `{Heap (Board D)} `{SecureChip} `{TomCrypt} `{UnlockPlatform}.
Context `{StoreOps E} `{BoardStore E} `{Heap (BootState E)}.

(** What [avb_verify] takes, the content of memory from an address on, the
    default load address and the mode the bootloader is built for. *)
Context (fresh_buffer : Z → bytes) (builtin_key : bytes) (fuel : nat)
  (buffer_address : BootState E → Z) (uninit_count : Z).
Context (memory : Z → bytes) (load_addr : Z) (AVBMODE : bytes).

Notation W := (Machine D E).

Definition on_board {A} (m : comp (Board D) A) : comp W A := fun w =>
  match m (m_board w) with
  | Ret (a, b) => Ret (a, mkMachine b (m_boot w))
  | Crash c => Crash c
  end.
Definition on_boot {A} (m : comp (BootState E) A) : comp W A := fun w =>
  match m (m_boot w) with
  | Ret (a, b) => Ret (a, mkMachine (m_board w) b)
  | Crash c => Crash c
  end.
Definition setenv_c (name value : bytes) : comp (BootState E) unit := fun st =>
  Ret (tt, setenv st name value).

(** 0 when the image at [addr] is signed and authorized. *)
Definition image_verify (addr : Z) : comp (Board D) Z :=
  if addr =? 0 then mret (-1) else
  let img := memory addr in
  format ← lift (genimg_get_format img);
  if negb (bool_decide (format = IMAGE_FORMAT_ANDROID)) then mret (-1) else
  hdr ← lift (read_hdr img);
  let imgsize := android_image_get_end hdr in
  ret ← amzn_image_verify img (drop (Z.to_nat imgsize) img) (u32 imgsize) None;
  mret (if ret =? 1 then 0 else -1).

Definition do_GetAvbMode : comp (BootState E) Z :=
  setenv_c (str "avb2") (if bool_decide (AVBMODE = str "avb2") then str "1" else str "0");;
  mret 0.

(** [do_GetSystemMode] with the value of [CONFIG_SYSTEM_AS_ROOT]. *)
Definition do_GetSystemMode (system : bytes) : comp (BootState E) Z :=
  setenv_c (str "system_mode") (if bool_decide (system = str "systemroot") then str "1" else str "0");;
  mret 0.

(** The data must not be null. *)
Definition avb_slot_verify_data_free (data : option AvbSlotVerifyData) : comp (BootState E) unit :=
  match data with None => null_deref | Some _ => mret tt end.

Definition tolerated (r : AvbSlotVerifyResult) : bool :=
  match r with
  | AVB_SLOT_VERIFY_RESULT_OK | AVB_SLOT_VERIFY_RESULT_ERROR_VERIFICATION
  | AVB_SLOT_VERIFY_RESULT_ERROR_ROLLBACK_INDEX
  | AVB_SLOT_VERIFY_RESULT_ERROR_PUBLIC_KEY_REJECTED => true
  | _ => false
  end.

(** The part of [do_bootm] under [avb2]; [None] goes on to boot. *)
Definition verify_slot : comp (BootState E) (option bootm_outcome) :=
  r ← avb_verify fresh_buffer builtin_key fuel buffer_address uninit_count;
  let '(nRet, out_data) := r in
  is_device_unlocked;;
  unlocked ← is_device_unlocked;
  if negb (if unlocked : bool then tolerated nRet
           else bool_decide (nRet = AVB_SLOT_VERIFY_RESULT_OK))
  then avb_slot_verify_data_free out_data;; mret (Some (Refused nRet))
  else
    bootargs ← getenv (str "bootargs");
    let bootargs := default [] bootargs in
    unlocked ← is_device_unlocked;
    let bootstate := if unlocked : bool then str "androidboot.verifiedbootstate=orange"
                     else str "androidboot.verifiedbootstate=green" in
    match out_data with
    | None => mret None
    | Some data =>
        cmdline ← not_null (cmdline data);
        ok ← malloc (zlen bootargs + zlen cmdline + zlen bootstate + 1 + 1 + 1);
        if negb ok then mret (Some (Returned (-1)))
        else setenv_c (str "bootargs") (bootargs ++ [32] ++ cmdline ++ [32] ++ bootstate);;
             mret None
    end.

(** The checks on the image at [nLoadAddr] and on the slot, then the boot. *)
Definition boot_image (nLoadAddr : Z) (argv0 : option bytes) : comp W bootm_outcome :=
  unlocked ← on_board amzn_target_is_unlocked;
  onetime ← on_board amzn_target_is_onetime_unlocked;
  nRet ← (if Z.lor unlocked onetime =? 0 then on_board (image_verify nLoadAddr) else mret 0);
  if negb (nRet =? 0) then mret (Returned nRet) else
  avb_s ← on_boot (getenv (str "avb2"));
  avb_s ← match avb_s with
          | Some s => mret s
          | None => on_boot do_GetAvbMode;; s ← on_boot (getenv (str "avb2")); on_boot (not_null s)
          end;
  stopped ← (if bool_decide (avb_s = str "1") then on_boot verify_slot else mret None);
  mret match stopped with
       | Some outcome => outcome
       | None => Boots (genimg_get_kernel_addr_fit load_addr argv0)
       end.

(** [do_bootm] with its first argument, if there is one. *)
Definition do_bootm (argv0 : option bytes) : comp W bootm_outcome :=
  let '(addr, endp) := match argv0 with
                       | Some a => simple_strtoul a
                       | None => (GXB_IMG_LOAD_ADDR, [])
                       end in
  match argv0, endp with
  | Some a, c :: _ =>
      if negb (c =? 58) && negb (c =? 35) then mret (RunsSubcommand a)
      else boot_image (u32 addr) argv0
  | _, _ => boot_image (u32 addr) argv0
  end.

(** ** What is booted *)


Lemma on_boot_Ret {A} (m : comp (BootState E) A) (w w' : W) a :
  on_boot m w = Ret (a, w') → m (m_boot w) = Ret (a, m_boot w') ∧ m_board w' = m_board w.
Proof. unfold on_boot. destruct (m (m_boot w)) as [[b st]|]; naive_solver. Qed.



(** The address whose image is verified. *)
Definition verified_addr (argv0 : option bytes) : Z :=
  u32 match argv0 with Some a => (simple_strtoul a).1 | None => GXB_IMG_LOAD_ADDR end.



Lemma is_device_unlocked_reads (st st' : BootState E) b :
  is_device_unlocked st = Ret (b, st') → st' = st.
Proof.
  unfold is_device_unlocked, aml_read_is_device_unlocked. intros R.
  apply comp_bind_Ret in R as ([ret out] & st1 & Hr & R). apply comp_ret_eq in R. simplify_eq.
  apply comp_bind_Ret in Hr as (lock & st2 & [= <- <-] & Hr).
  destruct (_ !! _) as [l|]; [|by apply comp_ret_eq in Hr; simplify_eq].
  apply comp_bind_Ret in Hr as (info & st3 & Hl & Hr). apply lift_Ret in Hl as (? & _ & [= <- <-]).
  by apply comp_ret_eq in Hr; simplify_eq.
Qed.


(** The kernel is told which way its slot was accepted: when the slot check
    lets the boot go on with slot data, the boot arguments are the old ones, the
    command line of the slot, and the state "orange" on an unlocked device or
    "green" on a locked one; no other variable changes. *)
Theorem verified_state_in_bootargs st st' :
  (∀ n (st : BootState E), env (heap_alloc n st).2 = env st) →
  verify_slot st = Ret (None, st') →
  ∃ nRet out st1 unlocked,
    avb_verify fresh_buffer builtin_key fuel buffer_address uninit_count st = Ret ((nRet, out), st1)
    ∧ is_device_unlocked st1 = Ret (unlocked, st1)
    ∧ match out with
      | None => st' = st1
      | Some data => ∃ text, cmdline data = Some text ∧
          env st' = <[str "bootargs" := default [] (env st1 !! str "bootargs") ++ [32] ++ text ++ [32]
            ++ (if unlocked then str "androidboot.verifiedbootstate=orange"
                else str "androidboot.verifiedbootstate=green")]> (env st1)
      end.
Proof.
  intros Hframe R. unfold verify_slot in R. apply comp_bind_Ret in R as ([nRet out] & st1 & Hv & R).
  apply comp_bind_Ret in R as (u & st2 & Hu & R). apply is_device_unlocked_reads in Hu as ->.
  apply comp_bind_Ret in R as (unlocked & st3 & Hu & R).
  pose proof (is_device_unlocked_reads _ _ _ Hu) as ->.
  exists nRet, out, st1, unlocked. split; [done|]. split; [done|]. destruct (negb _).
  { apply comp_bind_Ret in R as ([] & st4 & _ & R). by run_inv. }
  apply comp_bind_Ret in R as (ba & st4 & [= <- <-] & R).
  apply comp_bind_Ret in R as (u' & st5 & Hu' & R). rewrite Hu in Hu'. injection Hu' as <- <-.
  destruct out as [data|]; [|by apply comp_ret_eq in R; simplify_eq].
  apply comp_bind_Ret in R as (cl & st6 & Hcl & R). destruct (cmdline data) as [text|]; [|done].
  apply comp_ret_eq in Hcl. simplify_eq. exists text. split; [done|].
  apply comp_bind_Ret in R as (ok & st7 & Hm & R). apply malloc_Ret in Hm.
  apply (f_equal snd) in Hm. cbn [snd] in Hm.
  destruct ok; cbn [negb] in R; [|by run_inv].
  apply comp_bind_Ret in R as ([] & st8 & [= <-] & R). apply comp_ret_eq in R. simplify_eq.
  cbn [env setenv]. by rewrite Hframe.
Qed.

Lemma verify_slot_error st o st' : verify_slot st = Ret (Some o, st') →
  match o with Returned rc => rc ≠ 0 | Refused r => r ≠ AVB_SLOT_VERIFY_RESULT_OK | _ => False end.
Proof.
  unfold verify_slot. intros R. apply comp_bind_Ret in R as ([nRet out] & st1 & _ & R).
  apply comp_bind_Ret in R as (u & st2 & _ & R).
  apply comp_bind_Ret in R as (unlocked & st3 & _ & R). destruct (negb _) eqn:Et.
  { apply comp_bind_Ret in R as ([] & st4 & _ & R). apply comp_ret_eq in R. simplify_eq.
    intros ->. by destruct unlocked. }
  apply comp_bind_Ret in R as (ba & st4 & _ & R). apply comp_bind_Ret in R as (u' & st5 & _ & R).
  destruct out as [data|]; [|by run_inv].
  apply comp_bind_Ret in R as (cl & st6 & _ & R). apply comp_bind_Ret in R as (ok & st7 & _ & R).
  destruct (negb ok); [by apply comp_ret_eq in R; simplify_eq|].
  apply comp_bind_Ret in R as ([] & st8 & _ & R). by run_inv.
Qed.


Lemma boot_image_boots addr argv0 (w w' : W) img :
  boot_image addr argv0 w = Ret (Boots img, w') → img = genimg_get_kernel_addr_fit load_addr argv0.
Proof.
  intros R. unfold boot_image in R.
  apply comp_bind_Ret in R as (a & w1 & _ & R). apply comp_bind_Ret in R as (b & w2 & _ & R).
  apply comp_bind_Ret in R as (nRet & w3 & _ & R). destruct (negb _); [by run_inv|].
  apply comp_bind_Ret in R as (s & w4 & _ & R). apply comp_bind_Ret in R as (s' & w5 & _ & R).
  apply comp_bind_Ret in R as (stopped & w6 & Hst & R). apply comp_ret_eq in R.
  destruct stopped as [o|]; [|by simplify_eq]. exfalso. simplify_eq.
  case_bool_decide; [|by run_inv]. apply on_boot_Ret in Hst as [Hst _]. by apply verify_slot_error in Hst.
Qed.




End Bootm.

(** C37: the address that is verified and the one that is booted are parsed apart,
    and nothing but the image at the verified address decides.  On any board,
    with the same image at the verified address and anything else in the rest of
    memory, [bootm] ends the same way, while the image it boots is the one at the
    load address when there is no argument, and at the whole number when the
    verified address is that number cut to 32 bits. *)
Theorem bootm_boots_unverified {D E} `{Mmc D} `{Heap (Board D)} `{SecureChip} `{TomCrypt} `{UnlockPlatform}
    `{StoreOps E} `{BoardStore E} `{Heap (BootState E)} fresh_buffer builtin_key fuel buffer_address uninit_count
    memory memory' load_addr AVBMODE argv0 (w : Machine D E) o w' :
  let bootm memory := do_bootm fresh_buffer builtin_key fuel buffer_address uninit_count memory load_addr AVBMODE in
  memory (verified_addr argv0) = memory' (verified_addr argv0) →
  bootm memory argv0 w = Ret (o, w') →
  bootm memory' argv0 w = Ret (o, w')
  ∧ ∀ img, o = Boots img →
      (argv0 = None → img = load_addr ∧ verified_addr argv0 = GXB_IMG_LOAD_ADDR)
      ∧ (∀ a, argv0 = Some a → (∀ c, head a = Some c → c ≠ 35 ∧ c ≠ 58) →
           img = (simple_strtoul a).1 ∧ verified_addr argv0 = img mod 2 ^ 32).
Proof.
  intros bootm Hmem R. unfold bootm in *. clear bootm. split.
  - rewrite <-R. symmetry. unfold do_bootm, boot_image, image_verify, verified_addr in *.
    destruct argv0 as [a|]; [destruct (simple_strtoul a) as [addr endp]|]; cbn [fst] in Hmem; rewrite Hmem;
      [|done]. by destruct endp.
  - intros img ->. assert (Himg : img = genimg_get_kernel_addr_fit load_addr argv0).
    { unfold do_bootm in R. destruct argv0 as [a|]; [|by apply boot_image_boots in R].
      destruct (simple_strtoul a) as [addr endp]. destruct endp as [|c endp]; [by apply boot_image_boots in R|].
      destruct (_ && _); [discriminate R|]. by apply boot_image_boots in R. }
    split; [intros ->; by rewrite Himg|]. intros a -> Hsep. rewrite booted_addr in Himg by done. by subst.
Qed.

(** ** Examples *)

(** An Android image of one page of 64 bytes, signed by the byte 1 after it, as
    the certificate of [SecureBoot.demo_tomcrypt] wants it: its hash, which is
    its last byte here, is 5. *)
Definition demo_image : bytes :=
  ANDR_BOOT_MAGIC ++ replicate 28 0 ++ [64; 0; 0; 0] ++ replicate 23 0 ++ [5] ++ [1].
Definition demo_memory (addr : Z) : bytes := if addr =? GXB_IMG_LOAD_ADDR then demo_image else replicate 64 0.

#[local] Instance demo_hash_chip : SecureChip := {|
  AO_SEC_SD_CFG10 := 0x2000010;
  sha256_csum_wd data := be_encode 32 (default 0 (last data));
|}.
#[local] Existing Instances SecureBoot.demo_tomcrypt Unlock.demo_platform Unlock.demo_mmc
  Unlock.demo_heap CmdAvb.demo_store CmdAvb.demo_board_store CmdAvb.demo_board_heap.

Notation demo_world := (list (bytes * bytes)).
Definition demo_machine (buf : bytes) : Machine unit demo_world :=
  mkMachine (mkBoard (mkIdme buf false false tt) unlock_reset)
    (mkBoot [] {[str "avb2" := str "0"]} 0 0 0).
Notation demo_bootm load_addr :=
  (do_bootm (fun _ => []) [] 8 (fun _ => 0x1000) 0 demo_memory load_addr (str "avb2")).


(** The memory of [demo_memory] with something else everywhere but at the address
    that is verified. *)
Definition other_memory (addr : Z) : bytes := if addr =? GXB_IMG_LOAD_ADDR then demo_image else [].

Lemma bootm_boots_unverified_witness : ∃ w', let w := demo_machine [] in
  demo_bootm 7 None w = Ret (Boots 7, w')
  ∧ do_bootm (fun _ => []) [] 8 (fun _ => 0x1000) 0 other_memory 7 (str "avb2") None w = Ret (Boots 7, w').
Proof.
  destruct (demo_bootm 7 None (demo_machine [])) as [[o w']|] eqn:E; [|by vm_compute in E].
  assert (o = Boots 7) as -> by (vm_compute in E; congruence). exists w'. split; [exact E|].
  by apply (bootm_boots_unverified (fun _ => []) [] 8 (fun _ => 0x1000) 0 demo_memory other_memory 7 (str "avb2")
    None (demo_machine []) (Boots 7) w' eq_refl).
Defined.

Lemma android_image_covered_witness :
  let hdr := mkHdr 5000 0 3000 2048 in
  android_image_get_kernel hdr = (2048, 5000) ∧ android_image_get_fdt hdr = (8192, 3000)
  ∧ 8192 + 3000 ≤ u32 (android_image_get_end hdr) < 8192 + 3000 + 2048.
Proof.
  intros hdr. split; [reflexivity|]. split; [reflexivity|].
  pose proof (android_image_covered hdr 11 ltac:(lia) eq_refl) as Hc. cbv beta iota zeta in Hc.
  destruct Hc as (_ & _ & _ & Hc & _); [|by vm_compute|exact Hc].
  repeat constructor; vm_compute; discriminate.
Defined.

(** An unlocked board with an unsigned image. *)
Definition orange_board : BootState demo_world :=
  mkBoot [(str "misc", replicate 32 0); (str "vbmeta", unsigned_image [] 0 0); (str "boot", str "kernel")]
    {[str "lock" := str "10000000"; str "upgrade_step" := str "0"; str "bootargs" := str "quiet"]}
    0 0 0.

Lemma orange_goes_on :
  ∃ st', verify_slot (fun _ => []) [] 8 (fun _ => 0x1000) 0 orange_board = Ret (None, st').
Proof.
  assert (Hgo : match verify_slot (fun _ => []) [] 8 (fun _ => 0x1000) 0 orange_board with
                | Ret (None, _) => true | _ => false end = true) by (vm_compute; reflexivity).
  destruct (verify_slot _ _ _ _ _ _) as [[[o|] st']|]; [discriminate Hgo| |discriminate Hgo].
  by exists st'.
Qed.

Lemma verified_state_in_bootargs_witness :
  ∃ st', verify_slot (fun _ => []) [] 8 (fun _ => 0x1000) 0 orange_board = Ret (None, st')
    ∧ ∃ nRet out st1 unlocked,
      avb_verify (fun _ => []) [] 8 (fun _ => 0x1000) 0 orange_board = Ret ((nRet, out), st1)
      ∧ is_device_unlocked st1 = Ret (unlocked, st1)
      ∧ match out with
        | None => st' = st1
        | Some data => ∃ text, cmdline data = Some text ∧
            env st' = <[str "bootargs" := default [] (env st1 !! str "bootargs") ++ [32] ++ text ++ [32]
              ++ (if unlocked then str "androidboot.verifiedbootstate=orange"
                  else str "androidboot.verifiedbootstate=green")]> (env st1)
        end.
Proof.
  destruct orange_goes_on as [st' E]. exists st'. split; [exact E|].
  assert (Hf : ∀ n (st : BootState demo_world), env (heap_alloc n st).2 = env st) by reflexivity.
  exact (verified_state_in_bootargs (fun _ => []) [] 8 (fun _ => 0x1000) 0 orange_board st' Hf E).
Defined.

(** The boot arguments of that board begin with its own ones and end with its
    state. *)
Definition bootargs_of (r : run (option bootm_outcome * BootState demo_world)) : option bytes :=
  match r with Ret (None, st) => env st !! str "bootargs" | _ => None end.

Example orange_bootargs :
  let args := bootargs_of (verify_slot (fun _ => []) [] 8 (fun _ => 0x1000) 0 orange_board) in
  take 31 <$> args = Some (str "quiet androidboot.vbmeta.device")
  ∧ (fun a => take 37 (rev a)) <$> args = Some (rev (str " androidboot.verifiedbootstate=orange")).
Proof. vm_compute. split; reflexivity. Qed.
