(* ===== verification/Fastboot.v ===== *)
(** * The fastboot gadget

    [drivers/usb/gadget/f_fastboot.c]: the commands a host sends over USB, the
    lock state they keep in the environment, and the gate of the fastboot
    lockdown in front of them.  Writing and erasing partitions, resets and the
    start of a kernel are events; the console is not modelled. *)

From S2P Require Import Prelude AvbOps BootCtl CmdAvb.
From S2P Require Import Idme IdmeSpec IdmeBoot IdmeCmd SecureBoot Unlock Bootm.

Definition RESPONSE_LEN : Z := 64 + 1.
Definition EP_BUFFER_SIZE : Z := 4096.
Definition LOCK_DATA_SIZE : Z := 16.
Definition sizeof_LockData : Z := 8.
Definition FASTBOOT_VERSION : bytes := str "0.4".
Definition IDME_BOOTMODE_MAX : Z := 10.
Definition CONFIG_FASTBOOT_MAX_DOWN_SIZE : Z := 0x8000000.
Definition FOS_FLAGS_ADB_ON : Z := 0x1.
Definition FOS_FLAGS_ADB_ROOT : Z := 0x2.
Definition DEV_FLAGS_ADB_USB_ON : Z := 0x1000.

(** ** Strings *)

(** [strsep(&cmd, c)]: what is behind the first [c]. *)
Definition strsep (cmd : bytes) (c : Z) : option bytes :=
  match list_find (fun x => x = c) cmd with
  | Some (i, _) => Some (drop (S i) cmd)
  | None => None
  end.

(** [strcmp_l1(s1, s2) == 0] *)
Definition strcmp_l1 (s1 s2 : bytes) : bool := has_prefix s2 s1.

Fixpoint strstr (s needle : bytes) : option bytes :=
  if has_prefix s needle then Some s
  else match s with [] => None | _ :: s => strstr s needle end.

Definition is_blank (c : Z) : bool := (c =? 32) || (c =? 9).
Fixpoint skip_blanks (s : bytes) : bytes :=
  match s with
  | c :: s' => if is_blank c then skip_blanks s' else s
  | [] => []
  end.

(** [%016llx] *)
Definition hex16 (x : Z) : bytes := hex08 (Z.shiftr x 32) ++ hex08 x.

(** ** Numbers and flags in commands *)

Inductive flags_cmd := FLAGS_CMD_NONE | FLAGS_CMD_HELP | FLAGS_CMD_PRINT | FLAGS_CMD_SET.
Inductive flags_type := FLAGS_TYPE_NONE | FLAGS_TYPE_FOS | FLAGS_TYPE_DEV | FLAGS_TYPE_USR | FLAGS_TYPE_ALL.
Inductive flags_modifier := FLAGS_MOD_NONE | FLAGS_MOD_SET | FLAGS_MOD_ADD | FLAGS_MOD_REMOVE.
#[export] Instance flags_cmd_eq_dec : EqDecision flags_cmd.
Proof. solve_decision. Defined.
#[export] Instance flags_type_eq_dec : EqDecision flags_type.
Proof. solve_decision. Defined.

Definition ishexprefix (s : bytes) : bool :=
  match s with 48 :: 120 :: _ | 48 :: 88 :: _ => true | _ => false end.
Definition issymprefix (s : bytes) : bool :=
  has_prefix s (str "FOS_FLAGS_") || has_prefix s (str "DEV_FLAGS_") || has_prefix s (str "USR_FLAGS_").

Definition hexval (c : Z) : Z :=
  if isdigit c then c - 48
  else if (97 <=? c) && (c <=? 102) then c - 97 + 10
  else if (65 <=? c) && (c <=? 70) then c - 65 + 10
  else 0.
Fixpoint atoull_hex (num : bytes) (value : Z) : Z :=
  match num with
  | c :: num => if isxdigit c then atoull_hex num (u64 (value * 16 + hexval c)) else value
  | [] => value
  end.
Fixpoint atoull_dec (num : bytes) (value : Z) : Z :=
  match num with
  | c :: num => if isdigit c then atoull_dec num (u64 (value * 10 + c - 48)) else value
  | [] => value
  end.
Definition atoull (num : bytes) : Z :=
  match num with
  | 48 :: 120 :: num => atoull_hex num 0
  | _ => atoull_dec num 0
  end.
Definition getnumval (s : bytes) : Z :=
  if ishexprefix s then atoull (48 :: 120 :: drop 2 s) else atoull s.
(** Symbolic names are not implemented. *)
Definition getsymval (s : bytes) : Z := 0.

Definition flag_value (s : bytes) : Z := if issymprefix s then getsymval s else getnumval s.
(** The values between bars and blanks, put together. *)
Definition flag_values (arg : bytes) : Z :=
  foldl (fun value s => Z.lor value (flag_value s)) 0
    (tokens_from (fun c => (c =? 124) || is_blank c) arg []).

(** The type in front of the value, and what follows it. *)
Fixpoint first_prefix (names : list (bytes * flags_type)) (arg : bytes) : flags_type * bytes :=
  match names with
  | [] => (FLAGS_TYPE_NONE, arg)
  | (n, t) :: names => if has_prefix arg n then (t, drop (length n) arg) else first_prefix names arg
  end.
Definition flags_type_of (arg : bytes) : flags_type * bytes :=
  first_prefix
    [(str "f:", FLAGS_TYPE_FOS); (str "fos:", FLAGS_TYPE_FOS); (str "fos_flags:", FLAGS_TYPE_FOS);
     (str "d:", FLAGS_TYPE_DEV); (str "dev:", FLAGS_TYPE_DEV); (str "dev_flags:", FLAGS_TYPE_DEV);
     (str "u:", FLAGS_TYPE_USR); (str "usr:", FLAGS_TYPE_USR); (str "usr_flags:", FLAGS_TYPE_USR)] arg.

Definition flags_modifier_of (arg : bytes) : flags_modifier * bytes :=
  match arg with
  | 43 :: arg => (FLAGS_MOD_ADD, arg)
  | 45 :: arg => (FLAGS_MOD_REMOVE, arg)
  | 61 :: arg => (FLAGS_MOD_SET, arg)
  | _ => (FLAGS_MOD_SET, arg)
  end.

Record flags_request := mkRequest {
  fr_cmd : flags_cmd;
  fr_type : flags_type;
  fr_modifier : flags_modifier;
  fr_value : Z;
}.

Definition flags_name (t : flags_type) : bytes :=
  match t with
  | FLAGS_TYPE_DEV => str "dev_flags"
  | FLAGS_TYPE_USR => str "usr_flags"
  | _ => str "fos_flags"
  end.

Definition new_flags (r : flags_request) (cur_flags : Z) : Z :=
  match fr_modifier r with
  | FLAGS_MOD_ADD => Z.lor cur_flags (fr_value r)
  | FLAGS_MOD_REMOVE => Z.land cur_flags (u64 (Z.lnot (fr_value r)))
  | _ => fr_value r
  end.

(** ** Platform and state *)

Inductive storage := Emmc | Nand | NoStorage.

(** The version string of the build, the memory that is free, the largest packet
    of the endpoint, the identity of the chip, the partitions, how the shell reports the return code of a
    command, and how many bytes the heap gives for a request. *)
Class FastbootPlatform := {
  u_boot_version : bytes;
  ddr_size_usable : Z;
  maxpacket : Z;
  get_usid_string : option bytes;
  has_system_slot : Z;
  mmc_boot_size : bytes → option Z;
  find_mmc_partition_size : bytes → option Z;
  main_storage : storage;
  run_command_result : Z → Z;
  malloc_usable : Z → Z;
}.

(** What leaves the device, what is written to the card, and what runs when the
    answer has been sent. *)
Inductive fb_event :=
| Response (s : bytes)
| ThenReset
| ThenRebootBootloader
| ThenRebootFastboot
| ThenBootImage
| ThenStoreboot
| ExpectsData (length : Z)
| FlashWrite (partition data : bytes)
| FlashErase (partition : bytes)
| EraseUserdata
| EnvSaved (variables : gmap bytes bytes).

(** The machine, the download buffer with the static variables of the file, and
    the events so far, the latest first. *)
Record Fastboot (D E : Type) := mkFastboot {
  fb_machine : Machine D E;
  fb_buffer : bytes;
  download_bytes : Z;
  download_size : Z;
  response_str : bytes;
  getvar_index : nat;
  fb_log : list fb_event;
}.
Arguments mkFastboot {D E} _ _ _ _ _ _ _.
Arguments fb_machine {D E} _.
Arguments fb_buffer {D E} _.
Arguments download_bytes {D E} _.
Arguments download_size {D E} _.
Arguments response_str {D E} _.
Arguments getvar_index {D E} _.
Arguments fb_log {D E} _.

Section Fastboot.
Context {D E : Type} `{Mmc D} `{Heap (IdmeState D)} `{Heap (Board D)} `{SecureChip} `{TomCrypt} `{UnlockPlatform}.
Context `{StoreOps E} `{Heap (BootState E)} `{FastbootPlatform}.

(** What [lock_d] of [cb_flashing] holds before it is written, the address
    images are loaded to, the mode the bootloader is built for, and what is read
    through a null pointer. *)
Context (fresh_lock_d : bytes) (load_addr : Z) (AVBMODE : bytes) (null_string : run bytes).

Notation W := (Fastboot D E).

Definition on_machine {A} (m : comp (Machine D E) A) : comp W A := fun w =>
  match m (fb_machine w) with
  | Ret (a, mc) => Ret (a, mkFastboot mc (fb_buffer w) (download_bytes w) (download_size w)
                             (response_str w) (getvar_index w) (fb_log w))
  | Crash c => Crash c
  end.
Definition board {A} (m : comp (Board D) A) : comp W A := on_machine (on_board m).
Definition boot {A} (m : comp (BootState E) A) : comp W A := on_machine (on_boot m).
Definition get_fb : comp W W := fun w => Ret (w, w).
Definition emit (e : fb_event) : comp W unit := fun w =>
  Ret (tt, mkFastboot (fb_machine w) (fb_buffer w) (download_bytes w) (download_size w)
             (response_str w) (getvar_index w) (e :: fb_log w)).
Definition set_response (s : bytes) : comp W unit := fun w =>
  Ret (tt, mkFastboot (fb_machine w) (fb_buffer w) (download_bytes w) (download_size w)
             s (getvar_index w) (fb_log w)).
Definition set_download (buffer : bytes) (n size : Z) : comp W unit := fun w =>
  Ret (tt, mkFastboot (fb_machine w) buffer n size (response_str w) (getvar_index w) (fb_log w)).
Definition set_index (i : nat) : comp W unit := fun w =>
  Ret (tt, mkFastboot (fb_machine w) (fb_buffer w) (download_bytes w) (download_size w)
             (response_str w) i (fb_log w)).
Definition boot_state : comp W (BootState E) := fun w => Ret (m_boot (fb_machine w), w).
Definition null {A} : comp W A := fun _ => Crash NullDeref.

(** ** Answers *)

Definition fastboot_tx_write_str (s : bytes) : comp W unit := emit (Response s).

Definition fastboot_fail (s : bytes) : comp W unit :=
  let r := str "FAIL" ++ take (Z.to_nat (RESPONSE_LEN - 4 - 1)) s in
  set_response r;; fastboot_tx_write_str r.
Definition fastboot_okay (s : bytes) : comp W unit :=
  let r := str "OKAY" ++ take (Z.to_nat (RESPONSE_LEN - 4 - 1)) s in
  set_response r;; fastboot_tx_write_str r.

(** ** Variables of the device *)

Definition run_get_valid_slot_fb : comp W Z := boot (fun st => Ret (do_GetValidSlot [str "get_valid_slot"] st)).

(** A variable of the IDME table as a string in a buffer of [size] zeros, or
    nothing. *)
Definition idme_string (name : bytes) (size : Z) : comp W (option bytes) :=
  r ← board (with_idme (idme_get_var_external name size));
  match r with
  | (0, Some got) => buf ← lift (wr (replicate (Z.to_nat size) 0) 0 got); mret (Some (cut buf))
  | _ => mret None
  end.

Definition board_ids : list (bytes * bytes) :=
  [(str "4EC00001000B0020", str "HVT"); (str "4EC00002000B0020", str "EVT");
   (str "4EC00003000B0020", str "DVT"); (str "4EC00014000B0020", str "PVT")].

Definition get_hw_reverision : comp W bytes :=
  r ← idme_string (str "board_id") 24;
  mret match r with
       | Some buf => match list_find (fun b => has_prefix buf b.1 = true) board_ids with
                     | Some (_, b) => b.2
                     | None => str "REF"
                     end
       | None => str "REF"
       end.

(** The locks that stop flashing are compiled out. *)
Definition check_lock : Z := 0.

(** What a variable does to the response: text behind it, another response, or
    nothing. *)
Inductive answer := Append (s : bytes) | Replace (s : bytes) | Unchanged.

Definition yes_if (b : bool) : answer := Append (if b then str "yes" else str "no").
Definition has_slot : comp W answer := st ← boot_state; mret (yes_if (has_boot_slot st =? 1)).
Definition static_slot : comp W answer :=
  st ← boot_state;
  mret (yes_if ((dynamic_partition st =? 0) && (has_boot_slot st =? 1))).
Definition not_null_fb (s : option bytes) : comp W bytes :=
  match s with Some s => mret s | None => null end.
Definition env_var (name : bytes) : comp W (option bytes) := boot (getenv name).

(** "slot-successful:x" and "slot-unbootable:x" through [get_slot_state]. *)
Definition slot_state (cmd what : bytes) (on_zero on_other : bytes) : comp W answer :=
  let cmd := strsep cmd 58 in
  st ← boot_state;
  if negb (has_boot_slot st =? 1) then mret (Replace (str "FAILVariable not implemented in non ab mode"))
  else
    cmd ← not_null_fb cmd;
    if bool_decide (cmd ∈ [str "a"; str "b"]) then
      rc ← boot (fun st => Ret (do_Get_slot_state [str "get_slot_state"; cmd; what] st));
      mret (Append (if run_command_result rc =? 0 then on_zero else on_other))
    else mret (Replace (str "FAILVariable error, only have a/b slot now")).

Definition retry_count (cmd : bytes) : comp W answer :=
  let cmd := strsep cmd 58 in
  st ← boot_state;
  if negb (has_boot_slot st =? 1) then mret (Replace (str "FAILVariable not implemented in non ab mode"))
  else
    cmd ← not_null_fb cmd;
    if bool_decide (cmd ∈ [str "a"; str "b"]) then
      n ← env_var (str "retry-count_" ++ cmd);
      mret (match n with Some n => Append n | None => Replace (str "FAILGet retry-count error") end)
    else mret (Replace (str "FAILVariable error, only have a/b slot now")).

Definition partition_size (cmd : bytes) : comp W answer :=
  match strsep cmd 58 with
  | None | Some [] => mret (Replace (str "FAILpartition name is NULL"))
  | Some cmd =>
      let cmd := if bool_decide (cmd = str "userdata") then str "data" else cmd in
      if has_prefix cmd (str "mbr") then mret (Replace (str "FAILVariable not implemented"))
      else if has_prefix cmd (str "bootloader-") then
        mret (Append match mmc_boot_size (default [] (strsep cmd 45)) with
                     | Some sz => hex16 sz
                     | None => str "FAILget partitize error"
                     end)
      else
        mret (Append match find_mmc_partition_size cmd with
                     | Some sz => hex16 (if bool_decide (cmd = str "data") then u64 (sz - 0x4000) else sz)
                     | None => str "FAILget fail"
                     end)
  end.

Definition slot_suffix (a b : bytes) : comp W answer :=
  s ← env_var (str "slot-suffixes");
  s ← not_null_fb s;
  mret (if bool_decide (s = str "0") then Append a
        else if bool_decide (s = str "1") then Append b else Unchanged).

Definition logical_partitions : list bytes := [str "system"; str "vendor"; str "odm"; str "product"].
Definition is_logical (cmd : bytes) : comp W answer :=
  let cmd := strsep cmd 58 in
  st ← boot_state;
  if dynamic_partition st =? 0 then mret (Append (str "no")) else
  cmd ← not_null_fb cmd;
  mret (yes_if (bool_decide (cmd ∈ logical_partitions))).

Definition super_partition_name : comp W answer :=
  st ← boot_state;
  if has_boot_slot st =? 0 then mret (Append (str "super"))
  else slot_suffix (str "super_a") (str "super_b").

Definition serialno : comp W answer :=
  r ← idme_string (str "serial") 24;
  mret (Append match r with
               | Some buf => buf
               | None => default (str "1234567890") get_usid_string
               end).

Definition unlock_code : comp W answer :=
  code ← lift (amzn_get_unlock_code UNLOCK_CODE_LEN);
  mret (Append match code with
               | Some (code, _) => take (Z.to_nat (UNLOCK_CODE_LEN - 1)) (cut code)
               | None => str "cannot get unlock code"
               end).

Definition unlock_status : comp W answer :=
  unlocked ← board amzn_target_is_unlocked;
  mret (Append (if unlocked =? 0 then str "0" else str "1")).

Definition otu_code : comp W answer :=
  code ← board (amzn_get_one_tu_code (ONETIME_UNLOCK_CODE_LEN + 1));
  mret (Append match code with
               | Some code => cut code
               | None => str "cannot get onetime unlock code"
               end).

Definition say (s : string) (_ : bytes) : comp W answer := mret (Append (str s)).

(** The variables in the order they are tried; a name is matched by its start. *)
Definition getvar_table : list (bytes * (bytes → comp W answer)) :=
  [(str "version-baseband", say "N/A");
   (str "version-bootloader", fun _ => mret (Append u_boot_version));
   (str "hw-revision", fun _ => rev ← get_hw_reverision; mret (Append rev));
   (str "version", fun _ => mret (Append FASTBOOT_VERSION));
   (str "bootloader-version", fun _ => mret (Append u_boot_version));
   (str "off-mode-charge", say "0");
   (str "variant", say "US");
   (str "battery-soc-ok", say "yes");
   (str "battery-voltage", say "4.2V");
   (str "is-userspace", say "no");
   (str "is-logical", is_logical);
   (str "super-partition-name", fun _ => super_partition_name);
   (str "downloadsize", fun _ => mret (Append (str "0x" ++ hex08 ddr_size_usable)));
   (str "max-download-size", fun _ => mret (Append (str "0x" ++ hex08 ddr_size_usable)));
   (str "serialno", fun _ => serialno);
   (str "product", say "lagunaf");
   (str "secure", fun _ => mret (yes_if secure_boot_enabled));
   (str "unlock_code", fun _ => unlock_code);
   (str "unlock_status", fun _ => unlock_status);
   (str "unlock_version", say "1");
   (str "otu_code", fun _ => otu_code);
   (str "slot-count", say "2");
   (str "slot-suffixes", fun _ => s ← env_var (str "slot-suffixes"); mret (Append (default (str "0") s)));
   (str "current-slot", fun _ => slot_suffix (str "a") (str "b"));
   (str "has-slot:bootloader", say "no");
   (str "has-slot:fip", say "yes");
   (str "has-slot:boot", fun _ => has_slot);
   (str "has-slot:system", fun _ =>
      st ← boot_state; mret (yes_if ((dynamic_partition st =? 0) && (has_system_slot =? 1))));
   (str "has-slot:vendor", fun _ => static_slot);
   (str "has-slot:vbmeta", fun _ => static_slot);
   (str "has-slot:product", fun _ => static_slot);
   (str "has-slot:super", fun _ =>
      st ← boot_state; mret (yes_if (negb (dynamic_partition st =? 0) && (has_boot_slot st =? 1))));
   (str "has-slot:metadata", fun _ => has_slot);
   (str "has-slot:dtbo", fun _ => has_slot);
   (str "has-slot:odm", fun _ => has_slot);
   (str "has-slot:tvconfig", fun _ => has_slot);
   (str "has-slot:oemconfig", fun _ => has_slot);
   (str "partition-size", partition_size);
   (str "partition-type:cache", fun _ =>
      st ← boot_state; mret (if has_boot_slot st =? 0 then Append (str "ext4") else Unchanged));
   (str "partition-type:data", say "ext4");
   (str "partition-type:userdata", say "ext4");
   (str "partition-type:system", say "ext4");
   (str "partition-type:vendor", say "ext4");
   (str "partition-type:odm", say "ext4");
   (str "partition-type:tee", say "ext4");
   (str "partition-type:param", say "ext4");
   (str "partition-type:product", say "ext4");
   (str "partition-type:metadata", say "ext4");
   (str "partition-type", say "raw");
   (str "erase-block-size", say "2000");
   (str "logical-block-size", say "2000");
   (str "unlocked", fun _ => mret (yes_if (check_lock =? 0)));
   (str "slot-successful", fun cmd => slot_state cmd (str "suc_stete") (str "no") (str "yes"));
   (str "slot-unbootable", fun cmd => slot_state cmd (str "boot_state") (str "yes") (str "no"));
   (str "slot-retry-count", retry_count)].

Fixpoint getvar_lookup (table : list (bytes * (bytes → comp W answer))) (cmd : bytes)
    : comp W answer :=
  match table with
  | [] => mret (Replace (str "FAILVariable not implemented"))
  | (name, var) :: table => if strcmp_l1 name cmd then var cmd else getvar_lookup table cmd
  end.

(** The names "getvar all" goes through, one per call. *)
Definition common_vars : list string :=
  ["version-baseband"; "version-bootloader"; "version"; "hw-revision"; "max-download-size";
   "serialno"; "product"; "off-mode-charge"; "variant"; "battery-soc-ok";
   "battery-voltage"; "partition-type:boot"; "partition-size:boot";
   "partition-type:system"; "partition-size:system"; "partition-type:vendor"; "partition-size:vendor";
   "partition-type:odm"; "partition-size:odm"; "partition-type:data"; "partition-size:data"]%string.
Definition lock_vars : list string :=
  ["erase-block-size"; "logical-block-size"; "secure"; "unlocked"]%string.
Definition getvar_list : list string := common_vars ++ lock_vars.
Definition slot_vars : list string :=
  ["slot-count"; "slot-suffixes"; "current-slot"; "has-slot:bootloader"; "has-slot:boot";
   "has-slot:system"; "has-slot:vendor"; "has-slot:odm"; "has-slot:vbmeta"; "has-slot:fip";
   "has-slot:metadata"; "has-slot:product"; "has-slot:dtbo"; "has-slot:tvconfig"; "has-slot:oemconfig";
   "slot-successful:a"; "slot-unbootable:a"; "slot-retry-count:a";
   "slot-successful:b"; "slot-unbootable:b"; "slot-retry-count:b"]%string.
Definition getvar_list_ab : list string :=
  common_vars ++ ["partition-type:cache"; "partition-size:cache"]%string ++ lock_vars ++ slot_vars.

(** "getvar:all" asks for the next name; the response is then "INFO" with the
    name, or "OKAY" for the last one. *)
Definition getvar_all : comp W (bytes * bytes) :=
  st ← boot_state;
  w ← get_fb;
  let names := if has_boot_slot st =? 1 then getvar_list_ab else getvar_list in
  match names !! getvar_index w with
  | None => fun _ => Crash OutOfBounds
  | Some name =>
      let last := bool_decide (length names ≤ S (getvar_index w))%nat in
      set_index (if last then O else S (getvar_index w));;
      mret (str name, (if last then str "OKAY" else str "INFO") ++ str name ++ str ":")
  end.

Definition cb_getvar (s : bytes) : comp W unit :=
  run_get_valid_slot_fb;;
  set_response (str "OKAY");;
  match strsep (take (Z.to_nat (RESPONSE_LEN - 1)) s) 58 with
  | None => fastboot_tx_write_str (str "FAILmissing var")
  | Some cmd =>
      r ← (if has_prefix cmd (str "all") then getvar_all else mret (cmd, str "OKAY"));
      let '(cmd, response) := r in
      set_response response;;
      a ← getvar_lookup getvar_table cmd;
      let response := match a with
                      | Append t => take (Z.to_nat RESPONSE_LEN) (response ++ t)
                      | Replace t => t
                      | Unchanged => response
                      end in
      set_response response;;
      fastboot_tx_write_str response
  end.

(** ** Reboot, download, boot *)

Definition cb_reboot (s : bytes) : comp W unit :=
  match strsep s 45 with
  | None => emit ThenReset
  | Some cmd =>
      if bool_decide (cmd = str "bootloader") then emit ThenRebootBootloader
      else if bool_decide (cmd = str "fastboot") then emit ThenRebootFastboot
      else mret tt
  end;;
  fastboot_tx_write_str (str "OKAY").

Definition rx_bytes_expected : comp W Z :=
  w ← get_fb;
  let rx_remain := s32 (download_size w - download_bytes w) in
  mret (if rx_remain <? 0 then 0
        else if rx_remain >? EP_BUFFER_SIZE then EP_BUFFER_SIZE else rx_remain).

(** The length of the next request. *)
Definition expect_data : comp W unit :=
  length ← rx_bytes_expected;
  emit (ExpectsData (if length <? maxpacket then maxpacket else length)).

(** A packet of a download that came without an error; the buffer is the memory
    behind it. *)
Definition rx_handler_dl_image (packet : bytes) : comp W unit :=
  w ← get_fb;
  let transfer_size := Z.min (zlen packet) (u32 (download_size w - download_bytes w)) in
  buffer ← lift (wr (fb_buffer w) (download_bytes w) (take (Z.to_nat transfer_size) packet));
  let n := u32 (download_bytes w + transfer_size) in
  if download_size w <=? n then
    set_download buffer n 0;;
    fastboot_tx_write_str (str "OKAY")
  else set_download buffer n (download_size w);; expect_data.

Definition cb_download (s : bytes) : comp W unit :=
  cmd ← not_null_fb (strsep s 58);
  let size := u32 (simple_strtoul cmd).1 in
  w ← get_fb;
  if size =? 0 then
    set_download (fb_buffer w) 0 0;; fastboot_tx_write_str (str "FAILdata invalid size")
  else if size >? ddr_size_usable then
    set_download (fb_buffer w) 0 0;; fastboot_tx_write_str (str "FAILdata too large")
  else
    set_download (fb_buffer w) 0 size;;
    expect_data;;
    fastboot_tx_write_str (str "DATA" ++ hex08 size).

(** The command line for [bootm] goes into 12 bytes. *)
Definition boot_addr_start : bytes := str "bootm 0x" ++ hex_of_Z load_addr.

(** The image [bootm] is run on: what was copied to the load address, or what
    is there already. *)
Definition do_bootm_on_complete : comp W (option (bytes * option bytes)) :=
  if 12 <? zlen boot_addr_start + 1 then (fun _ => Crash OutOfBounds) else
  w ← get_fb;
  let image := fb_buffer w in
  genFmt ← lift (genimg_get_format image);
  if negb (bool_decide (genFmt = IMAGE_FORMAT_ANDROID)) then mret None else
  hdr ← lift (read_hdr image);
  let mask := u32 (Z.lnot (u32 (page_size hdr - 1))) in
  let kernel := Z.land (u32 (kernel_size hdr + u32 (page_size hdr - 1) + page_size hdr)) mask in
  let ramdisk := Z.land (u32 (ramdisk_size hdr + u32 (page_size hdr - 1))) mask in
  let actualBootImgSz := u32 (kernel + ramdisk + second_size hdr) in
  if actualBootImgSz <? CONFIG_FASTBOOT_MAX_DOWN_SIZE then
    copied ← lift (rd image 0 actualBootImgSz);
    mret (Some (boot_addr_start, Some copied))
  else mret (Some (boot_addr_start, None)).

Definition cb_boot (s : bytes) : comp W unit :=
  emit ThenBootImage;; fastboot_tx_write_str (str "OKAY").
Definition cb_continue (s : bytes) : comp W unit :=
  emit ThenStoreboot;; fastboot_tx_write_str (str "OKAY").
Definition cb_devices (s : bytes) : comp W unit := fastboot_tx_write_str (str "AMLOGIC").

(** ** The lock state *)

(** [strncpy] of the variable over what [lock_d] held. *)
Definition lock_d_of (lock_s : bytes) : bytes :=
  let s := take 15 lock_s in s ++ drop (length s) fresh_lock_d.

Definition lock_digit (lock_d : bytes) (i : nat) : Z := u8 (nth i lock_d 0 - 48).
Definition read_lock (lock_d : bytes) : LockData :=
  mkLock (lock_digit lock_d 0) (lock_digit lock_d 1) (lock_digit lock_d 4) (lock_digit lock_d 5)
    (lock_digit lock_d 6).
(** [sprintf] into [lock_d]: the number of characters is not bounded. *)
Definition print_lock (info : LockData) : run bytes :=
  let s := dec_of_Z (lock_version_major info) ++ dec_of_Z (lock_version_minor info) ++ str "00"
           ++ dec_of_Z (lock_state info) ++ dec_of_Z (lock_critical_state info)
           ++ dec_of_Z (lock_bootloader info) ++ str "0" in
  if LOCK_DATA_SIZE <? zlen s + 1 then Crash OutOfBounds else mret s.

Definition set_lock_state (info : LockData) (x : Z) : LockData :=
  mkLock (lock_version_major info) (lock_version_minor info) x (lock_critical_state info)
    (lock_bootloader info).
Definition set_lock_critical (info : LockData) (x : Z) : LockData :=
  mkLock (lock_version_major info) (lock_version_minor info) (lock_state info) x
    (lock_bootloader info).
Definition set_lock_bootloader (info : LockData) (x : Z) : LockData :=
  mkLock (lock_version_major info) (lock_version_minor info) (lock_state info)
    (lock_critical_state info) x.

(** A change of the lock state erases the user data when verified boot is on. *)
Definition erase_on_change : comp W unit :=
  avb_s ← env_var (str "avb2");
  avb_s ← match avb_s with
          | Some s => mret (Some s)
          | None => boot (do_GetAvbMode AVBMODE);; env_var (str "avb2")
          end;
  avb_s ← not_null_fb avb_s;
  if bool_decide (avb_s = str "1") then emit EraseUserdata else mret tt.

(** The new lock data and the response. *)
Definition flashing_command (cmd : bytes) (info : LockData) : comp W (LockData * bytes) :=
  if strcmp_l1 (str "unlock_critical") cmd then mret (set_lock_critical info 0, str "OKAY")
  else if strcmp_l1 (str "lock_critical") cmd then mret (set_lock_critical info 1, str "OKAY")
  else if strcmp_l1 (str "get_unlock_ability") cmd then
    mret (info, str "OKAY" ++ dec_of_Z (lock_state info))
  else if strcmp_l1 (str "get_unlock_bootloader_nonce") cmd then
    mret (info, str "OKAY" ++ dec_of_Z (lock_critical_state info))
  else if strcmp_l1 (str "unlock_bootloader") cmd then
    mret (info, take (Z.to_nat RESPONSE_LEN) (str "OKAY" ++
            str "please run flashing unlock & flashing unlock_critical before write"))
  else if strcmp_l1 (str "lock_bootloader") cmd then mret (set_lock_bootloader info 1, str "OKAY")
  else if strcmp_l1 (str "unlock") cmd then
    (if lock_state info =? 1 then erase_on_change else mret tt);;
    mret (set_lock_state info 0, str "OKAY")
  else if strcmp_l1 (str "lock") cmd then
    (if lock_state info =? 0 then erase_on_change else mret tt);;
    mret (set_lock_state info 1, str "OKAY")
  else mret (info, str "FAILVariable not implemented").

(** [saveenv]: the environment goes to the card, see [EnvCmd]. *)
Definition run_saveenv : comp W unit := st ← boot_state; emit (EnvSaved (env st)).

(** [info] is allocated with 8 bytes and cleared with 16. *)
Definition cb_flashing (s : bytes) : comp W unit :=
  lock_s ← env_var (str "lock");
  lock_d ← match lock_s with
           | None => boot (setenv_c (str "lock") (str "10000000"));;
                     run_saveenv;;
                     mret (str "10000000" ++ 0 :: drop 9 fresh_lock_d)
           | Some lock_s => mret (lock_d_of lock_s)
           end;
  ok ← boot (malloc sizeof_LockData);
  if negb ok then fastboot_tx_write_str (str "FAILmalloc error") else
  if malloc_usable sizeof_LockData <? LOCK_DATA_SIZE then (fun _ => Crash OutOfBounds) else
  set_response (str "OKAY");;
  match strsep s 32 with
  | None => fastboot_tx_write_str (str "FAILmissing var")
  | Some cmd =>
      r ← flashing_command cmd (read_lock lock_d);
      let '(info, response) := r in
      set_response response;;
      lock_d ← lift (print_lock info);
      boot (setenv_c (str "lock") lock_d);;
      run_saveenv;;
      fastboot_tx_write_str response
  end.

(** ** Partitions *)

Definition rename_partition (cmd : bytes) : bytes :=
  let cmd := if bool_decide (cmd = str "userdata") then str "data" else cmd in
  if bool_decide (cmd = str "dts") then str "dtb" else cmd.

(** The bytes that were downloaded. *)
Definition downloaded : comp W bytes :=
  w ← get_fb; lift (rd (fb_buffer w) 0 (download_bytes w)).

Definition on_storage (emmc : comp W unit) : comp W unit :=
  match main_storage with
  | Emmc => emmc
  | Nand => fastboot_fail (str "not support nftl" ++ [10])
  | NoStorage => fastboot_fail (str "no vaild device" ++ [10])
  end.
Definition flash_partition (cmd : bytes) : comp W unit :=
  data ← downloaded; emit (FlashWrite cmd data).

(** ** Flags in the IDME table *)

(** [idme_update_var_ex(name, text, sizeof(text) - 1)] with 19 bytes of text. *)
Definition store_flags (name : bytes) (flags : Z) : comp W Z :=
  text ← lift (wr (replicate 19 0) 0 (hex_of_Z flags));
  board (with_idme (idme_update_var_ex (Some name) (Some text) 18)).

(** The flags of an item as [simple_strtoul] reads them from a buffer that held
    [flags_str]. *)
Definition load_flags (name flags_str : bytes) : comp W (option (Z * bytes)) :=
  r ← board (with_idme (idme_get_var_external name 16));
  match r with
  | (0, Some got) =>
      flags_str ← lift (wr flags_str 0 got);
      s ← lift (c_str flags_str);
      mret (Some ((simple_strtoul s).1, flags_str))
  | _ => mret None
  end.

(** One item of [idme_auto_set_after_unlock] and [idme_auto_clean_before_relock]:
    whether it went well, and the text buffer. *)
Definition change_flags (name flags_str : bytes) (f : Z → Z) : comp W (option bytes) :=
  r ← load_flags name flags_str;
  match r with
  | None => mret None
  | Some (flags, _) =>
      let flags := f flags in
      ret ← store_flags name flags;
      if negb (ret =? 0) then mret None
      else flags_str ← lift (wr (replicate 19 0) 0 (hex_of_Z flags)); mret (Some flags_str)
  end.

Definition change_both (fos dev : Z → Z) : comp W Z :=
  r ← change_flags (str "fos_flags") (replicate 19 0) fos;
  match r with
  | None => mret (-1)
  | Some flags_str =>
      r ← change_flags (str "dev_flags") flags_str dev;
      mret (match r with None => -1 | Some _ => 0 end)
  end.

Definition idme_auto_set_after_unlock : comp W Z :=
  change_both (fun flags => Z.lor flags (Z.lor FOS_FLAGS_ADB_ON FOS_FLAGS_ADB_ROOT))
    (fun flags => Z.lor flags DEV_FLAGS_ADB_USB_ON).
Definition idme_auto_clean_before_relock : comp W Z :=
  change_both
    (fun flags => Z.land flags (u64 (Z.lnot (Z.lor FOS_FLAGS_ADB_ON FOS_FLAGS_ADB_ROOT))))
    (fun flags => Z.land flags (u64 (Z.lnot DEV_FLAGS_ADB_USB_ON))).

(** ** Flashing and erasing *)

Definition cb_flash (s : bytes) : comp W unit :=
  match strsep s 58 with
  | None => fastboot_tx_write_str (str "FAILmissing partition name")
  | Some cmd =>
      if strcmp_l1 (str "unlock") cmd then
        sig ← downloaded;
        bad ← board (amzn_verify_unlock sig);
        if negb (bad =? 0) then fastboot_tx_write_str (str "FAILunlock code error") else
        w ← get_fb;
        bad ← board (with_idme (idme_update_var_ex (Some (str "unlock_code")) (Some (fb_buffer w))
                       SIGNED_UNLOCK_CODE_LEN));
        if negb (bad =? 0) then fastboot_tx_write_str (str "FAILunlock failed") else
        idme_auto_set_after_unlock;;
        fastboot_tx_write_str (str "OKAY")
      else if strcmp_l1 (str "otucert") cmd then
        cert ← downloaded;
        bad ← board (amzn_set_onetime_unlock_cert cert);
        fastboot_tx_write_str (if bad =? 0 then str "OKAY" else str "FAILset onetime unlock cert failed")
      else if strcmp_l1 (str "otucode") cmd then
        code ← downloaded;
        bad ← board (amzn_set_onetime_unlock_code code);
        fastboot_tx_write_str (if bad =? 0 then str "OKAY"
                               else str "FAILset signed onetime unlock code failed")
      else if negb (check_lock =? 0) then fastboot_tx_write_str (str "FAILlocked device")
      else
        st ← boot_state;
        if negb (dynamic_partition st =? 0) && bool_decide (cmd ∈ logical_partitions)
        then fastboot_tx_write_str (str "FAILlogic partition")
        else on_storage (flash_partition (rename_partition cmd))
  end.

Definition cb_flashall (s : bytes) : comp W unit :=
  if negb (check_lock =? 0) then fastboot_tx_write_str (str "FAILlocked device")
  else on_storage (flash_partition s).

Definition cb_erase (s : bytes) : comp W unit :=
  match strsep s 58 with
  | None => fastboot_tx_write_str (str "FAILmissing partition name")
  | Some cmd =>
      if negb (check_lock =? 0) then fastboot_tx_write_str (str "FAILlocked device")
      else on_storage (emit (FlashErase (rename_partition cmd)))
  end.

Definition cb_oem_relock (s : bytes) : comp W unit :=
  bad ← board (with_idme (idme_update_var_ex (Some (str "unlock_code"))
                 (Some (replicate (Z.to_nat SIGNED_UNLOCK_CODE_LEN) 0)) SIGNED_UNLOCK_CODE_LEN));
  if negb (bad =? 0) then fastboot_tx_write_str (str "FAILrelock failed")
  else idme_auto_clean_before_relock;; fastboot_tx_write_str (str "OKAY").

(** ** Other OEM commands *)

(** What follows the first blank behind [word]. *)
Definition oem_argument (s word : bytes) : comp W (option bytes) :=
  arg ← not_null_fb (strstr s word); mret (strstr arg (str " ")).

Definition send_message (m : idme_message) : comp W unit :=
  match m with
  | FailMessage s => fastboot_fail s
  | InfoMessage _ => mret tt
  end.
Fixpoint send_messages (ms : list idme_message) : comp W unit :=
  match ms with
  | [] => mret tt
  | m :: ms => send_message m;; send_messages ms
  end.

Definition cb_oem_idme (s : bytes) : comp W unit :=
  cmd ← oem_argument s (str "idme");
  r ← board (with_idme (fastboot_idme null_string idme_default_values cmd));
  let '(rc, ms) := r in
  send_messages ms;;
  fastboot_tx_write_str (if rc =? 0 then str "OKAYidme done" else str "FAILidme fail").

Definition cmd_oem_bootmode (s : bytes) : comp W unit :=
  arg ← oem_argument s (str "bootmode");
  match arg with
  | None => fastboot_fail (str "Must specify bootmode")
  | Some arg =>
      let arg := skip_blanks arg in
      let c := hd 0 arg in
      if u32 (c - 48) >? IDME_BOOTMODE_MAX then fastboot_fail (str "invalid bootmode given")
      else
        ret ← board (with_idme (idme_update_var_ex (Some (str "bootmode")) (Some (arg ++ [0])) 1));
        if negb (ret =? 0) then
          fastboot_fail (take 63 (str "Could not set bootmode, error=" ++ decimal ret))
        else fastboot_okay (str "bootmode set to " ++ [c])
  end.

(** ** The flags command *)

Definition locked_device : comp W bool := board is_locked_production_device.

(** "print" in front of [arg], and the type behind it. *)
Definition parse_print (t : flags_type) (arg : bytes) : comp W flags_request :=
  let arg := skip_blanks (drop 5 arg) in
  let t := match t with FLAGS_TYPE_NONE => FLAGS_TYPE_FOS | _ => t end in
  locked ← locked_device;
  let starts l u := match arg with c :: _ => (c =? l) || (c =? u) | [] => false end in
  let t := if locked || starts 117 85 then FLAGS_TYPE_USR
           else if starts 102 70 then FLAGS_TYPE_FOS
           else if starts 100 68 then FLAGS_TYPE_DEV else t in
  mret (mkRequest FLAGS_CMD_PRINT t FLAGS_MOD_NONE 0).

Definition parse_flags (arg : option bytes) : comp W flags_request :=
  let printing := mkRequest FLAGS_CMD_PRINT FLAGS_TYPE_NONE FLAGS_MOD_SET 0 in
  match arg with
  | None =>
      locked ← locked_device;
      mret (mkRequest FLAGS_CMD_PRINT (if locked : bool then FLAGS_TYPE_USR else FLAGS_TYPE_FOS)
              FLAGS_MOD_NONE 0)
  | Some arg =>
      let arg := skip_blanks arg in
      if bool_decide (arg = []) then mret printing else
      let '(t, arg) := flags_type_of arg in
      let arg := skip_blanks arg in
      if bool_decide (arg = []) then mret (mkRequest FLAGS_CMD_PRINT t FLAGS_MOD_SET 0) else
      let '(m, arg) := flags_modifier_of arg in
      let arg := skip_blanks arg in
      if bool_decide (arg = []) then mret (mkRequest FLAGS_CMD_PRINT t m 0) else
      if has_prefix arg (str "print") || has_prefix arg (str "PRINT") then parse_print t arg
      else if bool_decide (arg ∈ [str "help"; str "HELP"; str "?"]) then
        mret (mkRequest FLAGS_CMD_HELP FLAGS_TYPE_NONE FLAGS_MOD_NONE 0)
      else mret (mkRequest FLAGS_CMD_SET t m (flag_values arg))
  end.

Definition current_flags (target_flags : bytes) : comp W Z :=
  r ← board (with_idme (idme_get_var_external target_flags 16));
  mret (atoull (str "0x" ++ match r with (0, Some got) => cut got | _ => [] end)).

Definition print_flags (t : flags_type) (cur_flags : Z) : comp W unit :=
  (if bool_decide (t = FLAGS_TYPE_FOS) then
     r ← lift (fos_flags_to_str cur_flags None 0);
     let size_needed := r.1 in
     ok ← boot (malloc size_needed);
     lift (fos_flags_to_str cur_flags
             (if ok : bool then Some (replicate (Z.to_nat size_needed) 0) else None) size_needed);;
     mret tt
   else mret tt);;
  fastboot_okay (take 63 (flags_name t ++ str " is 0x" ++ hex_of_Z cur_flags ++ [10])).

Definition update_flags (r : flags_request) (t : flags_type) (cur_flags : Z) : comp W unit :=
  let target_flags := flags_name t in
  let flags := new_flags r cur_flags in
  ret ← store_flags target_flags flags;
  if negb (ret =? 0) then
    fastboot_fail (take 63 (str "could not set " ++ target_flags ++ str ", error=" ++ decimal ret))
  else fastboot_okay (take 63 (target_flags ++ str " set to " ++ hex_of_Z flags)).

Definition run_flags (r : flags_request) : comp W unit :=
  locked ← locked_device;
  if locked && bool_decide (fr_cmd r = FLAGS_CMD_SET) then
    fastboot_fail (str "oem flags command is restricted on locked hw")
  else
    let t := match fr_cmd r, fr_type r with
             | FLAGS_CMD_SET, FLAGS_TYPE_NONE => FLAGS_TYPE_FOS
             | _, t => t
             end in
    cur_flags ← current_flags (flags_name t);
    match fr_cmd r with
    | FLAGS_CMD_PRINT => print_flags t cur_flags
    | FLAGS_CMD_SET => update_flags r t cur_flags
    | FLAGS_CMD_HELP | FLAGS_CMD_NONE =>
        fastboot_okay (str "oem flags [<type> <modifier>] <value>");;
        fastboot_fail (str "Unhandled")
    end.

Definition cmd_oem_flags (s : bytes) : comp W unit :=
  arg ← oem_argument s (str "flags");
  r ← parse_flags arg;
  run_flags r.

(** ** Dispatch *)

Definition cmd_dispatch_info : list (bytes * (bytes → comp W unit)) :=
  [(str "reboot", cb_reboot); (str "getvar:", cb_getvar); (str "download:", cb_download);
   (str "boot", cb_boot); (str "continue", cb_continue); (str "flashing", cb_flashing);
   (str "flash", cb_flash); (str "update", cb_download); (str "flashall", cb_flashall);
   (str "erase", cb_erase); (str "devices", cb_devices); (str "reboot-bootloader", cb_reboot);
   (str "oem idme", cb_oem_idme); (str "oem bootmode", cmd_oem_bootmode);
   (str "oem flags", cmd_oem_flags); (str "oem relock", cb_oem_relock)].

(** The first entry whose name the buffer starts with. *)
Fixpoint find_handler (table : list (bytes * (bytes → comp W unit))) (cmdbuf : bytes)
    : option (bytes → comp W unit) :=
  match table with
  | [] => None
  | (name, cb) :: table => if strcmp_l1 name cmdbuf then Some cb else find_handler table cmdbuf
  end.

(** A packet in [cmdbuf], of which [actual] bytes are new and the others are left
    from before: the handler is looked up and the lockdown asked before the
    command is terminated. *)
Definition rx_handler_command (cmdbuf : bytes) (actual length : Z) : comp W unit :=
  match find_handler cmd_dispatch_info cmdbuf with
  | None => fastboot_tx_write_str (str "FAILunknown command")
  | Some func_cb =>
      restricted ← board (is_restricted_command_on_locked_hw cmdbuf);
      if negb (restricted =? 0) then fastboot_tx_write_str (str "FAILblocked command")
      else if actual <? length then func_cb (cut (take (Z.to_nat actual) cmdbuf))
      else fastboot_tx_write_str (str "FAILbuffer overflow")
  end.
End Fastboot.
