(* ===== verification/FastbootSpec.v ===== *)
(** * What the fastboot commands can do

    Frame properties of the handlers of [Fastboot], and what follows for a
    locked device. *)

From S2P Require Import Prelude AvbOps BootCtl CmdAvb.
From S2P Require Import Idme IdmeSpec IdmeBoot IdmeCmd SecureBoot Unlock Bootm Fastboot.

(** ** Checks leave the board as it was *)

Section BoardFrame.
Context {D : Type} `{Mmc D} `{Heap (Board D)} `{SecureChip} `{TomCrypt} `{UnlockPlatform}.
Context (heap_frame : ∀ n (b : Board D), (heap_alloc n b).2 = b).

(** The data store is the same, and so are the certificate and the signed code
    of a one-time unlock. *)
Definition kept (b b' : Board D) : Prop :=
  board_idme b' = board_idme b
  ∧ one_tu_cert (board_unlock b') = one_tu_cert (board_unlock b)
  ∧ signed_one_tu_code (board_unlock b') = signed_one_tu_code (board_unlock b)
  ∧ signed_code_available (board_unlock b') = signed_code_available (board_unlock b).

#[export] Instance kept_preorder : PreOrder kept.
Proof. split; [by intros b|]. unfold kept. intros b1 b2 b3. intuition congruence. Qed.

Lemma kept_malloc n : preserves kept (malloc n).
Proof. apply preserves_keeps; [apply _|]. by apply keeps_malloc. Qed.
Lemma kept_get_unlock : preserves kept get_unlock.
Proof. by intros b u b' [= _ <-]. Qed.
Lemma kept_register : preserves kept register_sha256.
Proof. by intros b u b' [= _ <-]. Qed.

Lemma kept_get_var name len : preserves kept (with_idme (idme_get_var_external name len)).
Proof.
  intros b r b' (st & E & ->)%with_idme_Ret. assert (st = board_idme b) as ->; [|done].
  unfold idme_get_var_external, idme_get_var in E.
  apply comp_bind_Ret in E as (x & st1 & [= <- <-] & E). destruct (negb _); [by run_inv|].
  apply comp_bind_Ret in E as (y & st2 & Ey & E). apply comp_bind_Ret in Ey as (z & st3 & [= <- <-] & Ey).
  apply lift_Ret in Ey as (? & _ & [= <- ->]). by run_inv.
Qed.
#[local] Hint Resolve kept_malloc kept_get_unlock kept_register kept_get_var : preserves.

Lemma kept_verify_code data sig key : preserves kept (amzn_verify_code_internal data sig key).
Proof. unfold amzn_verify_code_internal. preserve. Qed.
#[local] Hint Resolve kept_verify_code : preserves.
Lemma kept_verify_unlock sig : preserves kept (amzn_verify_unlock sig).
Proof. unfold amzn_verify_unlock. preserve. Qed.
#[local] Hint Resolve kept_verify_unlock : preserves.
Lemma kept_is_unlocked : preserves kept amzn_target_is_unlocked.
Proof. unfold amzn_target_is_unlocked. preserve. Qed.

Lemma kept_one_tu_code len : preserves kept (amzn_get_one_tu_code len).
Proof.
  intros b r b' E. unfold amzn_get_one_tu_code in E. destruct (len <? _); [by run_inv|].
  apply comp_bind_Ret in E as (u & b1 & [= <- <-] & E).
  destruct (one_tu_code _); [by run_inv|].
  apply comp_bind_Ret in E as (c & b2 & (? & _ & [= <- ->])%lift_Ret & E).
  destruct c as [[c n]|]; [|by run_inv]. destruct (fortuna _ _); [|by run_inv].
  destruct (base64_encode _ _); [|by run_inv].
  apply comp_bind_Ret in E as ([] & b3 & [= <-] & E). by run_inv.
Qed.
#[local] Hint Resolve kept_is_unlocked kept_one_tu_code : preserves.

Lemma kept_verify_cert cert : preserves kept (amzn_verify_onetime_unlock_cert cert).
Proof. unfold amzn_verify_onetime_unlock_cert. preserve. Qed.
#[local] Hint Resolve kept_verify_cert : preserves.
Lemma kept_verify_onetime sig : preserves kept (amzn_verify_onetime_unlock_code sig).
Proof. unfold amzn_verify_onetime_unlock_code. preserve. Qed.
#[local] Hint Resolve kept_verify_onetime : preserves.
Lemma kept_is_onetime_unlocked : preserves kept amzn_target_is_onetime_unlocked.
Proof. unfold amzn_target_is_onetime_unlocked. preserve. Qed.
#[local] Hint Resolve kept_is_onetime_unlocked : preserves.
Lemma kept_is_locked : preserves kept is_locked_production_device.
Proof. unfold is_locked_production_device. preserve. Qed.
#[local] Hint Resolve kept_is_locked : preserves.
Lemma kept_is_restricted buffer : preserves kept (is_restricted_command_on_locked_hw buffer).
Proof. unfold is_restricted_command_on_locked_hw. preserve. Qed.

(** The device carries no unlock code, neither a permanent one nor one of this
    boot. *)
Definition sealed_board (b : Board D) : Prop :=
  ∃ es, idme_repr (gidme_buff (board_idme b)) es ∧ ¬ has_unlock_code es
    ∧ ∀ full, ¬ onetime_signed (board_unlock b) full.

Lemma sealed_kept b b' : kept b b' → sealed_board b → sealed_board b'.
Proof.
  intros (Ei & E1 & E2 & E3) (es & Hr & Hn & Ho). exists es. rewrite Ei. split; [done|]. split; [done|].
  unfold onetime_signed. rewrite E1, E2, E3. exact Ho.
Qed.

Lemma sealed_is_locked b r b' :
  amzn_target_device_type = AMZN_PRODUCTION_DEVICE → sealed_board b →
  is_locked_production_device b = Ret (r, b') → r = true.
Proof.
  intros Ht (es & Hr & Hn & Ho) E. unfold is_locked_production_device in E. rewrite Ht in E.
  rewrite (bool_decide_true (AMZN_PRODUCTION_DEVICE = AMZN_PRODUCTION_DEVICE)) in E by done.
  cbn [negb] in E. apply comp_bind_Ret in E as (a & b1 & Ha & E).
  assert (Hf : ∀ n (b : Board D), board_unlock (heap_alloc n b).2 = board_unlock b)
    by (intros; by rewrite heap_frame).
  destruct (Z.eqb_spec a 0) as [->|Hna]; cbn [negb] in E.
  2: { destruct (both_locks_sound Hf b b1 b1 a 0 es Hr Ha) as [?|(full & _ & ?)]; [by left|done|].
       exfalso. by eapply Ho. }
  apply comp_bind_Ret in E as (o & b2 & Hb & E). run_inv.
  destruct (Z.eqb_spec o 0) as [|Hno]; [done|].
  destruct (both_locks_sound Hf b b1 _ 0 o es Hr Ha (or_intror (conj Hb Hno))) as [?|(full & _ & ?)];
    [done|]. exfalso. by eapply Ho.
Qed.

Lemma starts_with_one_true buffer entries :
  starts_with_one buffer entries = Ret true → ∃ e, e ∈ entries ∧ has_prefix buffer e = true.
Proof.
  induction entries as [|e entries IH]; intros E; [done|]. cbn [starts_with_one] in E.
  apply run_bind_Ret in E as (same & Es & E). apply memcmp_eq_prefix in Es as ->.
  destruct (has_prefix buffer e) eqn:Hp; [exists e; split; [left|done]|].
  destruct (IH E) as (x & Hx & Hpx). exists x. split; [by right|done].
Qed.
Lemma starts_with_one_false buffer entries :
  starts_with_one buffer entries = Ret false → ∀ e, e ∈ entries → has_prefix buffer e = false.
Proof.
  induction entries as [|e entries IH]; intros E x Hx; [by apply not_elem_of_nil in Hx|].
  cbn [starts_with_one] in E. apply run_bind_Ret in E as (same & Es & E).
  apply memcmp_eq_prefix in Es as ->. destruct (has_prefix buffer e) eqn:Hp; [done|].
  apply elem_of_cons in Hx as [->|Hx]; [done|]. by apply IH.
Qed.

(** What the lockdown lets through on a device without an unlock code. *)
Lemma gate_sealed buffer b b' :
  amzn_target_device_type = AMZN_PRODUCTION_DEVICE → sealed_board b →
  is_restricted_command_on_locked_hw buffer b = Ret (0, b') →
  (∃ e, e ∈ fastboot_whitelist ∧ has_prefix buffer e = true)
  ∨ ∀ e, e ∈ fastboot_blacklist → has_prefix buffer e = false.
Proof.
  intros Ht Hs E. unfold is_restricted_command_on_locked_hw in E.
  apply comp_bind_Ret in E as (locked & b1 & El & E).
  apply (sealed_is_locked _ _ _ Ht Hs) in El as ->. cbn [negb] in E.
  apply comp_bind_Ret in E as (white & b2 & (? & Ew & [= <- ->])%lift_Ret & E).
  destruct white; [left; by apply starts_with_one_true|].
  apply comp_bind_Ret in E as (black & b3 & (? & Eb & [= <- ->])%lift_Ret & E).
  destruct black; [by run_inv|]. right. by apply starts_with_one_false.
Qed.
End BoardFrame.

(** ** Handlers that only answer *)

Section HandlerFrame.
Context {D E : Type} `{Mmc D} `{Heap (IdmeState D)} `{Heap (Board D)} `{SecureChip} `{TomCrypt} `{UnlockPlatform}.
Context `{StoreOps E} `{Heap (BootState E)} `{FastbootPlatform}.
Context (fresh_lock_d : bytes) (AVBMODE : bytes) (null_string : run bytes).
Context (board_heap : ∀ n (b : Board D), (heap_alloc n b).2 = b).
Context (boot_heap : ∀ n (st : BootState E), (heap_alloc n st).2 = st).
Notation W := (Fastboot D E).

Definition lock_env (w : W) : option bytes := env (m_boot (fb_machine w)) !! str "lock".
Definition fb_board (w : W) : Board D := m_board (fb_machine w).

(** Answers, resets, the normal boot and the start of a download. *)
Definition harmless (e : fb_event) : Prop :=
  match e with
  | ThenBootImage | FlashWrite _ _ | FlashErase _ | EraseUserdata | EnvSaved _ => False
  | _ => True
  end.

(** The lock state stays, and what happens is harmless. *)
Definition logged (P : fb_event → Prop) (w w' : W) : Prop :=
  lock_env w' = lock_env w ∧ ∃ l, fb_log w' = l ++ fb_log w ∧ Forall P l.

Definition quiet (w w' : W) : Prop := kept (fb_board w) (fb_board w') ∧ logged harmless w w'.

#[export] Instance logged_preorder P : PreOrder (logged P).
Proof.
  split; [by intros w; split; [|exists []]|]. intros w1 w2 w3 [E1 (l1 & L1 & F1)] [E2 (l2 & L2 & F2)].
  split; [congruence|]. exists (l2 ++ l1). rewrite L2, L1, app_assoc. split; [done|by apply Forall_app].
Qed.
#[export] Instance quiet_preorder : PreOrder quiet.
Proof.
  split; [by intros w; split|]. intros w1 w2 w3 [K1 L1] [K2 L2]. split; by etrans.
Qed.

(** The state of [boot] may change, but not "lock". *)
Definition same_lock (st st' : BootState E) : Prop := env st' !! str "lock" = env st !! str "lock".
#[export] Instance same_lock_preorder : PreOrder same_lock.
Proof. unfold same_lock. split; [done|]. intros ??? -> ->. done. Qed.

Lemma quiet_board {A} (m : comp (Board D) A) : preserves kept m → preserves quiet (board (E := E) m).
Proof.
  intros Hm [[b st] buf n sz r i l] a w'. unfold board, on_machine, on_board. cbn.
  destruct (m b) as [[x b']|] eqn:Em; [|done]. cbn. intros [= <- <-].
  split; [by eapply Hm|]. by split; [|exists []].
Qed.
Lemma quiet_boot {A} (m : comp (BootState E) A) : preserves same_lock m → preserves quiet (boot (D := D) m).
Proof.
  intros Hm [[b st] buf n sz r i l] a w'. unfold boot, on_machine, on_boot. cbn.
  destruct (m st) as [[x st']|] eqn:Em; [|done]. cbn. intros [= <- <-].
  split; [done|]. split; [by eapply Hm|by exists []].
Qed.

Lemma quiet_emit e : harmless e → preserves quiet (emit (D := D) (E := E) e).
Proof. intros He w a w' [= _ <-]. split; [done|]. split; [done|]. exists [e]. by repeat constructor. Qed.
Lemma quiet_set_response s : preserves quiet (set_response (D := D) (E := E) s).
Proof. intros w a w' [= _ <-]. split; [done|]. by split; [|exists []]. Qed.
Lemma quiet_set_download b n s : preserves quiet (set_download (D := D) (E := E) b n s).
Proof. intros w a w' [= _ <-]. split; [done|]. by split; [|exists []]. Qed.
Lemma quiet_set_index i : preserves quiet (set_index (D := D) (E := E) i).
Proof. intros w a w' [= _ <-]. split; [done|]. by split; [|exists []]. Qed.
Lemma quiet_get_fb : preserves quiet (get_fb (D := D) (E := E)).
Proof. by intros w a w' [= _ <-]. Qed.
Lemma quiet_boot_state : preserves quiet (boot_state (D := D) (E := E)).
Proof. by intros w a w' [= _ <-]. Qed.
Lemma quiet_null {A} : preserves quiet (null (D := D) (E := E) (A := A)).
Proof. by intros w a w'. Qed.
Lemma quiet_not_null s : preserves quiet (not_null_fb (D := D) (E := E) s).
Proof. unfold not_null_fb. destruct s; [apply preserves_ret, _|apply quiet_null]. Qed.
Lemma quiet_env_var name : preserves quiet (env_var (D := D) (E := E) name).
Proof. apply quiet_boot. by intros st a st' [= _ <-]. Qed.
Lemma quiet_malloc n : preserves quiet (boot (D := D) (E := E) (malloc n)).
Proof. apply quiet_boot, preserves_keeps; [apply _|]. by apply keeps_malloc. Qed.
#[local] Hint Resolve quiet_set_response quiet_set_download quiet_set_index quiet_get_fb quiet_boot_state
  quiet_null quiet_not_null quiet_env_var quiet_malloc : preserves.
#[local] Hint Resolve kept_get_var kept_verify_unlock kept_is_unlocked kept_one_tu_code
  kept_is_locked kept_is_restricted : preserves.
#[local] Hint Extern 2 (preserves quiet (board _)) => apply quiet_board : preserves.
#[local] Hint Extern 2 (preserves quiet (emit _)) => apply quiet_emit; exact I : preserves.

Lemma quiet_tx s : preserves quiet (fastboot_tx_write_str (D := D) (E := E) s).
Proof. unfold fastboot_tx_write_str. preserve. Qed.
#[local] Hint Resolve quiet_tx : preserves.
Lemma quiet_fail s : preserves quiet (fastboot_fail (D := D) (E := E) s).
Proof. unfold fastboot_fail. preserve. Qed.
Lemma quiet_okay s : preserves quiet (fastboot_okay (D := D) (E := E) s).
Proof. unfold fastboot_okay. preserve. Qed.
#[local] Hint Resolve quiet_fail quiet_okay : preserves.

Lemma quiet_valid_slot : preserves quiet (run_get_valid_slot_fb (D := D)).
Proof.
  apply quiet_boot. intros st a st' Es.
  assert (do_GetValidSlot [str "get_valid_slot"] st = (a, st')) as Hd by congruence.
  pose proof (get_valid_slot_other [str "get_valid_slot"] st (str "lock")) as L.
  rewrite Hd in L. apply L. apply (bool_decide_unpack _). by vm_compute.
Qed.
Lemma quiet_slot_state argv :
  preserves quiet (boot (D := D) (fun st => Ret (do_Get_slot_state argv st))).
Proof.
  apply quiet_boot. intros st a st' E1. assert (do_Get_slot_state argv st = (a, st')) as Es by congruence.
  unfold same_lock. f_equal. unfold do_Get_slot_state in Es. destruct argv as [|? [|? [|? []]]]; try (by injection Es as _ <-).
  destruct (_ =? 0); [by injection Es as _ <-|]. pose proof (load_or_reset_env st) as L.
  destruct (load_or_reset st) as [[info buf] st1]. cbn in L.
  repeat case_bool_decide; injection Es as _ <-; done.
Qed.
#[local] Hint Resolve quiet_valid_slot quiet_slot_state : preserves.

Lemma quiet_idme_string name size : preserves quiet (idme_string (E := E) name size).
Proof. unfold idme_string. preserve. Qed.
#[local] Hint Resolve quiet_idme_string : preserves.
Lemma quiet_hw : preserves quiet (get_hw_reverision (D := D) (E := E)).
Proof. unfold get_hw_reverision. preserve. Qed.
#[local] Hint Resolve quiet_hw : preserves.

Lemma quiet_suffix a b : preserves quiet (slot_suffix (D := D) (E := E) a b).
Proof. unfold slot_suffix. preserve. Qed.
#[local] Hint Resolve quiet_suffix : preserves.

(** Every variable of [getvar]. *)
Lemma quiet_getvar_table : Forall (fun v => ∀ cmd, preserves quiet (v.2 cmd)) (getvar_table (D := D) (E := E)).
Proof.
  unfold getvar_table.
  repeat (apply Forall_cons; split; [intros cmd; cbn [snd];
    unfold say, is_logical, super_partition_name, serialno, unlock_code, unlock_status, otu_code, has_slot,
      static_slot, partition_size, slot_state, retry_count; preserve|]).
  apply Forall_nil. Unshelve. exact I.
Qed.

Lemma quiet_getvar_lookup table cmd :
  Forall (fun v => ∀ cmd, preserves quiet (v.2 cmd)) table →
  preserves quiet (getvar_lookup (D := D) (E := E) table cmd).
Proof.
  induction 1 as [|[name var] table Hv _ IH]; cbn [getvar_lookup]; [preserve|].
  destruct (strcmp_l1 name cmd); [apply Hv|apply IH].
Qed.

Lemma quiet_getvar s : preserves quiet (cb_getvar (D := D) (E := E) s).
Proof.
  pose proof (λ cmd, quiet_getvar_lookup getvar_table cmd quiet_getvar_table) as Hl.
  unfold cb_getvar, getvar_all. preserve.
Qed.

Lemma quiet_reboot s : preserves quiet (cb_reboot (D := D) (E := E) s).
Proof. unfold cb_reboot. preserve. Qed.
Lemma quiet_download s : preserves quiet (cb_download (D := D) (E := E) s).
Proof. unfold cb_download, expect_data, rx_bytes_expected. preserve. Qed.
Lemma quiet_continue s : preserves quiet (cb_continue (D := D) (E := E) s).
Proof. unfold cb_continue. preserve. Qed.
Lemma quiet_devices s : preserves quiet (cb_devices (D := D) (E := E) s).
Proof. unfold cb_devices. preserve. Qed.

(** ** A locked device *)

Lemma board_Ret {A} (m : comp (Board D) A) (w : W) a w' :
  board m w = Ret (a, w') → m (fb_board w) = Ret (a, fb_board w') ∧ lock_env w' = lock_env w
    ∧ fb_log w' = fb_log w ∧ fb_buffer w' = fb_buffer w ∧ download_bytes w' = download_bytes w.
Proof.
  unfold board, on_machine, on_board, fb_board. destruct (m _) as [[x b]|]; [|done]. by intros [= <- <-].
Qed.

Lemma quiet_current name : preserves quiet (current_flags (D := D) (E := E) name).
Proof. unfold current_flags. preserve. Qed.
Lemma quiet_locked_device : preserves quiet (locked_device (D := D) (E := E)).
Proof. unfold locked_device. preserve. Qed.
#[local] Hint Resolve quiet_current quiet_locked_device : preserves.
Lemma quiet_parse_flags arg : preserves quiet (parse_flags (D := D) (E := E) arg).
Proof. unfold parse_flags, parse_print. preserve. Qed.
Lemma quiet_print_flags t x : preserves quiet (print_flags (D := D) (E := E) t x).
Proof. unfold print_flags. preserve. Qed.
Lemma quiet_oem_argument s word : preserves quiet (oem_argument (D := D) (E := E) s word).
Proof. unfold oem_argument. preserve. Qed.
#[local] Hint Resolve quiet_parse_flags quiet_print_flags quiet_oem_argument : preserves.

(** The flags command only answers on a locked device. *)
Lemma flags_locked s (w w' : W) :
  amzn_target_device_type = AMZN_PRODUCTION_DEVICE → sealed_board (fb_board w) →
  cmd_oem_flags s w = Ret (tt, w') → quiet w w'.
Proof.
  intros Ht Hs Ec. unfold cmd_oem_flags in Ec.
  apply comp_bind_Ret in Ec as (arg & w1 & E1 & Ec). apply quiet_oem_argument in E1.
  apply comp_bind_Ret in Ec as (r & w2 & E2 & Ec). apply quiet_parse_flags in E2.
  etrans; [exact E1|]. etrans; [exact E2|]. unfold run_flags in Ec.
  apply comp_bind_Ret in Ec as (locked & w3 & E3 & Ec).
  assert (sealed_board (fb_board w2)) as Hs2.
  { eapply sealed_kept; [apply E2|]. eapply sealed_kept; [apply E1|done]. }
  pose proof E3 as (El & _)%board_Ret. eapply sealed_is_locked in El as ->; [|done..].
  apply quiet_locked_device in E3. etrans; [exact E3|]. clear - Ec board_heap boot_heap.
  assert (preserves quiet (current_flags (D := D) (E := E) (flags_name (fr_type r));;
    fastboot_okay (str "oem flags [<type> <modifier>] <value>");; fastboot_fail (str "Unhandled"))) as Hhelp by preserve.
  destruct (fr_cmd r) eqn:Hc; cbn [andb] in Ec.
  - rewrite bool_decide_false in Ec by done. by eapply Hhelp.
  - rewrite bool_decide_false in Ec by done. by eapply Hhelp.
  - rewrite bool_decide_false in Ec by done. revert Ec. generalize dependent w'.
    enough (Hq : preserves quiet (c ← current_flags (D := D) (E := E) (flags_name (fr_type r));
      print_flags (fr_type r) c)) by (intros; by eapply Hq).
    preserve.
  - rewrite bool_decide_true in Ec by done. by eapply quiet_fail.
Qed.

(** *** Flashing an unlock code *)

(** The names behind "flash:" that a locked device accepts. *)
Definition unlock_names : list bytes := [str "unlock"; str "otucert"; str "otucode"].

(** A partition is written whose name is the start of such a name. *)
Definition cut_short (e : fb_event) : Prop :=
  ∃ name n data, name ∈ unlock_names ∧ (n < length name)%nat ∧ e = FlashWrite (take n name) data.
Definition allowed (e : fb_event) : Prop := harmless e ∨ cut_short e.

Lemma quiet_logged w w' : quiet w w' → logged allowed w w'.
Proof.
  intros [_ [El (l & Hl & Hf)]]. split; [done|]. exists l. split; [done|].
  eapply Forall_impl; [exact Hf|]. intros e He. by left.
Qed.
Lemma logged_quiet {A} (m : comp W A) : preserves quiet m → preserves (logged allowed) m.
Proof. intros Hm w a w' Em. by eapply quiet_logged, Hm. Qed.
Lemma logged_board {A} (m : comp (Board D) A) : preserves (logged allowed) (board (E := E) m).
Proof. intros w a w' (_ & El & Hl & _)%board_Ret. split; [done|]. by exists []. Qed.
#[local] Hint Resolve logged_board : preserves.
#[local] Hint Extern 3 (preserves (logged allowed) _) => apply logged_quiet; solve [eauto 3 with preserves] : preserves.

Lemma logged_change_both f g : preserves (logged allowed) (change_both (D := D) (E := E) f g).
Proof. unfold change_both, change_flags, load_flags, store_flags. preserve. Qed.
#[local] Hint Resolve logged_change_both : preserves.

Lemma logged_relock s : preserves (logged allowed) (cb_oem_relock (D := D) (E := E) s).
Proof. unfold cb_oem_relock, idme_auto_clean_before_relock. preserve. Qed.

Lemma strsep_flash x : strsep (str "flash:" ++ x) 58 = Some x.
Proof. done. Qed.

(** The partition named in a truncated command. *)
Lemma flash_name (cmdbuf : bytes) (actual : Z) name cmd :
  name ∈ unlock_names → has_prefix cmdbuf (str "flash:" ++ name) = true →
  strsep (cut (take (Z.to_nat actual) cmdbuf)) 58 = Some cmd →
  has_prefix cmd name = true ∨ ∃ n, (n < length name)%nat ∧ cmd = take n name.
Proof.
  intros Hname Hp Hs. destruct (cut_take (take (Z.to_nat actual) cmdbuf)) as [n0 Hc].
  rewrite take_take in Hc. set (k := Nat.min n0 (Z.to_nat actual)) in Hc. rewrite Hc in Hs. clear Hc.
  apply bool_decide_eq_true in Hp. set (pre := str "flash:" ++ name) in Hp.
  rewrite <- (take_drop (length pre) cmdbuf), Hp in Hs. set (rest := drop (length pre) cmdbuf) in Hs.
  unfold pre in Hs. rewrite <- app_assoc in Hs. destruct (decide (k ≤ 5)%nat) as [Hk|Hk].
  { exfalso. do 6 (destruct k as [|k]; [by vm_compute in Hs|]). lia. }
  replace k with (6 + (k - 6))%nat in Hs by lia.
  change (take (6 + (k - 6)) (str "flash:" ++ name ++ rest))
    with (str "flash:" ++ take (k - 6) (name ++ rest)) in Hs.
  rewrite strsep_flash in Hs. injection Hs as <-.
  destruct (decide (length name ≤ k - 6)%nat) as [Hl|Hl].
  - left. apply bool_decide_eq_true. rewrite take_take, Nat.min_l by lia. by rewrite take_app_length.
  - right. exists (k - 6)%nat. split; [lia|]. rewrite take_app_le by lia. done.
Qed.

Lemma logged_emit e : allowed e → preserves (logged allowed) (emit (D := D) (E := E) e).
Proof.
  intros He w a w' [= _ <-]. split; [done|]. exists [e]. split; [done|]. by apply Forall_singleton.
Qed.

Lemma rename_unlock name n : name ∈ unlock_names → rename_partition (take n name) = take n name.
Proof.
  intros Hn. unfold rename_partition.
  assert (∀ x : bytes, take 2 x ∈ [str "us"; str "dt"] → take n name ≠ x) as Hne.
  { intros x Hx <-.
    apply elem_of_cons in Hn as [->|[->|[->|Hn%not_elem_of_nil]%elem_of_cons]%elem_of_cons]; [..|done].
    all: apply elem_of_cons in Hx as [Hx|[Hx|Hx%not_elem_of_nil]%elem_of_cons]; [..|done].
    all: by destruct n as [|[|]]. }
  rewrite (bool_decide_false (take n name = str "userdata")) by (apply Hne; left).
  rewrite bool_decide_false; [done|]. apply Hne. right. left.
Qed.

Lemma logged_flash cmdbuf actual name :
  name ∈ unlock_names → has_prefix cmdbuf (str "flash:" ++ name) = true →
  preserves (logged allowed) (cb_flash (D := D) (E := E) (cut (take (Z.to_nat actual) cmdbuf))).
Proof.
  intros Hname Hp. pose proof (flash_name cmdbuf actual name) as Hcmd.
  unfold cb_flash. destruct (strsep _ 58) as [cmd|]; [|preserve].
  specialize (Hcmd cmd Hname Hp eq_refl).
  unfold idme_auto_set_after_unlock, downloaded.
  destruct (strcmp_l1 (str "unlock") cmd) eqn:H1'; [preserve|].
  destruct (strcmp_l1 (str "otucert") cmd) eqn:H2'; [preserve|].
  destruct (strcmp_l1 (str "otucode") cmd) eqn:H3'; [preserve|].
  destruct Hcmd as [Hpre|(n & Hn & ->)].
  { exfalso. unfold strcmp_l1, unlock_names in *.
    apply elem_of_cons in Hname as [->|[->|[->|Hname%not_elem_of_nil]%elem_of_cons]%elem_of_cons]; congruence. }
  rewrite rename_unlock by done. unfold on_storage, flash_partition, downloaded.
  preserve. apply logged_emit. right. by eexists name, n, _.
Qed.

(** The data store stays. *)
Definition same_idme (w w' : W) : Prop := board_idme (fb_board w') = board_idme (fb_board w).
#[export] Instance same_idme_preorder : PreOrder same_idme.
Proof. unfold same_idme. split; [done|]. intros ??? -> ->. done. Qed.
Lemma idme_quiet {A} (m : comp W A) : preserves quiet m → preserves same_idme m.
Proof. intros Hm w a w' Em. apply (Hm _ _ _ Em). Qed.
Lemma idme_emit e : preserves same_idme (emit (D := D) (E := E) e).
Proof. by intros w a w' [= _ <-]. Qed.
Lemma idme_set_cert buf : preserves same_idme (board (E := E) (amzn_set_onetime_unlock_cert (D := D) buf)).
Proof.
  intros w a w' [Eb _]%board_Ret. revert Eb. unfold same_idme, amzn_set_onetime_unlock_cert.
  generalize (fb_board w) (fb_board w'). intros b b'.
  by destruct (decode_exactly _ _); intros [= _ <-].
Qed.
Lemma idme_set_code buf : preserves same_idme (board (E := E) (amzn_set_onetime_unlock_code (D := D) buf)).
Proof.
  intros w a w' [Eb _]%board_Ret. revert Eb. unfold same_idme, amzn_set_onetime_unlock_code.
  generalize (fb_board w) (fb_board w'). intros b b'.
  by destruct (decode_exactly _ _); intros [= _ <-].
Qed.
#[local] Hint Resolve idme_emit idme_set_cert idme_set_code : preserves.
#[local] Hint Extern 3 (preserves same_idme _) => apply idme_quiet; solve [eauto 3 with preserves] : preserves.

(** What was downloaded is a signature of this chip's unlock code. *)
Definition downloaded_unlock (w : W) : Prop :=
  ∃ sig code, rd (fb_buffer w) 0 (download_bytes w) = Ret sig
    ∧ chip_code code ∧ signed_under lagunaf_unlock_pub_der code sig.

Lemma flash_idme s (w w' : W) :
  cb_flash s w = Ret (tt, w') → same_idme w w' ∨ downloaded_unlock w.
Proof.
  intros Ef. unfold cb_flash in Ef. destruct (strsep s 58) as [cmd|].
  2: { left. by apply (idme_quiet _ (quiet_tx _)) in Ef. }
  destruct (strcmp_l1 (str "unlock") cmd).
  - apply comp_bind_Ret in Ef as (sig & w1 & Es & Ef).
    apply comp_bind_Ret in Es as (? & ? & [= <- <-] & Es). apply lift_Ret in Es as (? & Es & [= <- ->]).
    apply comp_bind_Ret in Ef as (bad & w2 & Eb & Ef).
    destruct (Z.eqb_spec bad 0) as [->|Hne]; cbn [negb] in Ef.
    + right. apply board_Ret in Eb as [Eb _]. apply verify_unlock_sound in Eb as (code & ? & ?).
      by exists sig, code.
    + left. etrans; [eapply (idme_quiet _ (quiet_board _ (kept_verify_unlock board_heap sig))); exact Eb|].
      by apply (idme_quiet _ (quiet_tx _)) in Ef.
  - left. revert Ef. match goal with |- ?m w = _ → _ =>
      let Hm := fresh in enough (Hm : preserves same_idme m) by (intros Em; exact (Hm _ _ _ Em)) end.
    unfold on_storage, flash_partition, downloaded. preserve.
Qed.

(** *** Commands and the lockdown's lists *)

(** One of the two names is the start of the other. *)
Definition comparable (p q : bytes) : bool := has_prefix p q || has_prefix q p.

Lemma has_prefix_trans s p q : has_prefix s p = true → has_prefix p q = true → has_prefix s q = true.
Proof.
  intros Hs%bool_decide_eq_true Hp%bool_decide_eq_true. apply bool_decide_eq_true.
  assert (length q ≤ length p)%nat by (rewrite <- Hp, length_take; lia).
  rewrite <- Hp at 2. rewrite <- Hs, take_take. by rewrite Nat.min_l.
Qed.

Lemma prefixes_comparable s p q : has_prefix s p = true → has_prefix s q = true → comparable p q = true.
Proof.
  intros Hp%bool_decide_eq_true Hq%bool_decide_eq_true. apply orb_true_iff.
  destruct (Nat.le_ge_cases (length p) (length q)); [right|left]; apply bool_decide_eq_true.
  - rewrite <- Hq, take_take, Nat.min_l by done. done.
  - rewrite <- Hp, take_take, Nat.min_l by done. done.
Qed.

(** What the lockdown lets through on a device without an unlock code, for a
    command whose name the blacklist covers. *)
Lemma gate_name name cmdbuf (w w' : W) :
  amzn_target_device_type = AMZN_PRODUCTION_DEVICE → sealed_board (fb_board w) →
  board (is_restricted_command_on_locked_hw cmdbuf) w = Ret (0, w') →
  has_prefix cmdbuf name = true → existsb (has_prefix name) fastboot_blacklist = true →
  ∃ e, e ∈ List.filter (comparable name) fastboot_whitelist ∧ has_prefix cmdbuf e = true.
Proof.
  intros Ht Hs [Eg _]%board_Ret Hp Hb.
  destruct (gate_sealed board_heap _ _ _ Ht Hs Eg) as [(e & He & Hpe)|Hno].
  - exists e. split; [|done]. apply list_elem_of_In, filter_In. split; [by apply list_elem_of_In|].
    by eapply prefixes_comparable.
  - apply existsb_exists in Hb as (e & He & Hpe). exfalso.
    rewrite <- list_elem_of_In in He. specialize (Hno e He).
    by rewrite (has_prefix_trans _ _ _ Hp Hpe) in Hno.
Qed.

(** What one command may do to a locked device. *)
Definition locked_outcome (cmdbuf : bytes) (w w' : W) : Prop :=
  logged allowed w w'
  ∧ (same_idme w w' ∨ downloaded_unlock w ∨ has_prefix cmdbuf (str "oem relock") = true).

Lemma outcome_quiet cmdbuf (w w' : W) : quiet w w' → locked_outcome cmdbuf w w'.
Proof. intros Hq. split; [by apply quiet_logged|left; apply Hq]. Qed.

Lemma outcome_after cmdbuf (w w1 w' : W) :
  quiet w w1 → fb_buffer w1 = fb_buffer w → download_bytes w1 = download_bytes w →
  locked_outcome cmdbuf w1 w' → locked_outcome cmdbuf w w'.
Proof.
  intros Hq Eb En [Hl Ho]. split; [etrans; [by apply quiet_logged|done]|].
  destruct Ho as [Hs|[Hd|Hr]]; [left; etrans; [apply Hq|done]|right; left|by do 2 right].
  unfold downloaded_unlock in *. by rewrite <- Eb, <- En.
Qed.

Notation dispatch := (cmd_dispatch_info (D := D) (E := E) fresh_lock_d AVBMODE null_string).

(** The handlers behind names that the lockdown does not cover. *)
Lemma open_handler name cb :
  (name, cb) ∈ dispatch → existsb (has_prefix name) fastboot_blacklist = false →
  ∀ s, preserves quiet (cb s).
Proof.
  intros Hin Hb s. unfold cmd_dispatch_info in Hin.
  repeat (apply elem_of_cons in Hin as [[= -> ->]|Hin]; [try (by vm_compute in Hb)|]).
  all: try (by apply not_elem_of_nil in Hin).
  all: first [apply quiet_reboot|apply quiet_getvar|apply quiet_download|apply quiet_continue|apply quiet_devices].
Qed.

(** The handlers behind names that it covers. *)
Lemma covered_handler name cb cmdbuf actual (w w' : W) :
  amzn_target_device_type = AMZN_PRODUCTION_DEVICE → sealed_board (fb_board w) →
  (name, cb) ∈ dispatch → existsb (has_prefix name) fastboot_blacklist = true →
  (∃ e, e ∈ List.filter (comparable name) fastboot_whitelist ∧ has_prefix cmdbuf e = true) →
  cb (cut (take (Z.to_nat actual) cmdbuf)) w = Ret (tt, w') → locked_outcome cmdbuf w w'.
Proof.
  intros Ht Hs Hin Hb (e & He & Hpe) Ec. unfold cmd_dispatch_info in Hin.
  repeat (apply elem_of_cons in Hin as [[= -> ->]|Hin];
    [first [by vm_compute in Hb|by vm_compute in He; apply not_elem_of_nil in He|idtac]|]).
  all: try (by apply not_elem_of_nil in Hin).
  - split; [|destruct (flash_idme _ _ _ Ec); auto].
    assert (∃ n, n ∈ unlock_names ∧ e = str "flash:" ++ n) as (n & Hn & ->).
    { change (e ∈ map (app (str "flash:")) unlock_names) in He.
      by apply list_elem_of_fmap in He as (n & -> & Hn); exists n. }
    by eapply logged_flash.
  - by eapply outcome_quiet, flags_locked.
  - split; [by eapply logged_relock|]. right. right.
    change (e ∈ [str "oem relock"]) in He. by apply list_elem_of_singleton in He as ->.
Qed.

Lemma find_handler_Some table cmdbuf cb :
  find_handler (D := D) (E := E) table cmdbuf = Some cb →
  ∃ pre name post, table = pre ++ (name, cb) :: post ∧ has_prefix cmdbuf name = true
    ∧ Forall (fun e => has_prefix cmdbuf e.1 = false) pre.
Proof.
  induction table as [|[name cb'] table IH]; [done|]. cbn [find_handler]. unfold strcmp_l1.
  destruct (has_prefix cmdbuf name) eqn:Hp.
  - intros [= ->]. by exists [], name, table.
  - intros (pre & n & post & -> & ? & ?)%IH. exists ((name, cb') :: pre), n, post.
    split; [done|]. split; [done|]. by constructor.
Qed.

(** Whatever packet reaches a production device without an unlock code, "lock"
    stays, nothing is written or erased or booted but through a name cut short,
    and the data store changes only by a signed unlock code or by "oem relock". *)
Lemma locked_command cmdbuf actual len (w w' : W) :
  amzn_target_device_type = AMZN_PRODUCTION_DEVICE → sealed_board (fb_board w) →
  rx_handler_command fresh_lock_d AVBMODE null_string cmdbuf actual len w = Ret (tt, w') →
  locked_outcome cmdbuf w w'.
Proof.
  intros Ht Hs Er. unfold rx_handler_command in Er.
  destruct (find_handler _ _) as [cb|] eqn:Hf; [|by eapply outcome_quiet, quiet_tx].
  apply comp_bind_Ret in Er as (r & w1 & Eg & Er).
  destruct (board_Ret _ _ _ _ Eg) as (_ & _ & _ & Eb & En).
  pose proof (quiet_board _ (kept_is_restricted board_heap cmdbuf) _ _ _ Eg) as Hq.
  eapply outcome_after; [exact Hq|exact Eb|exact En|].
  destruct (Z.eqb_spec r 0) as [->|Hr]; cbn [negb] in Er; [|by eapply outcome_quiet, quiet_tx].
  destruct (actual <? len); [|by eapply outcome_quiet, quiet_tx].
  pose proof (fun name => gate_name name cmdbuf w w1 Ht Hs Eg) as Hg.
  apply (sealed_kept _ _ (proj1 Hq)) in Hs. clear Hq Eb En Eg.
  apply find_handler_Some in Hf as (pre & name & post & Hd & Hp & Hno).
  assert ((name, cb) ∈ dispatch) as Hin by (rewrite Hd; apply elem_of_app; right; left).
  destruct (existsb (has_prefix name) fastboot_blacklist) eqn:Hbl.
  2: { by eapply outcome_quiet, open_handler. }
  by eapply covered_handler; [..|exact (Hg name Hp Hbl)|].
Qed.

(** C7: whatever packet a production device without an unlock code receives,
    and whatever is left in its command buffer, the variable "lock" stays as it
    is, no downloaded image is booted, nothing is erased, the environment is
    not saved and fastboot writes no partition but one whose name is a cut
    "unlock", "otucert" or "otucode", and the data store changes only when the
    download is this chip's unlock code under the board's key, or on "oem
    relock".  What is left are resets, the normal boot that "continue" starts,
    and the metadata of the slots, which "getvar" writes through
    [get_valid_slot]. *)
Theorem locked_fastboot_commands cmdbuf actual len (w w' : W) :
  amzn_target_device_type = AMZN_PRODUCTION_DEVICE → sealed_board (fb_board w) →
  rx_handler_command fresh_lock_d AVBMODE null_string cmdbuf actual len w = Ret (tt, w') →
  lock_env w' = lock_env w
  ∧ (∃ l, fb_log w' = l ++ fb_log w ∧ Forall (fun e => harmless e ∨ cut_short e) l)
  ∧ (board_idme (fb_board w') = board_idme (fb_board w) ∨ downloaded_unlock w
     ∨ has_prefix cmdbuf (str "oem relock") = true).
Proof. intros Ht Hs Er. by destruct (locked_command cmdbuf actual len w w' Ht Hs Er) as [[? ?] ?]. Qed.
End HandlerFrame.

(** ** Examples *)

#[local] Existing Instances Unlock.demo_tomcrypt Unlock.demo_chip Unlock.demo_platform Unlock.demo_mmc
  Unlock.demo_heap IdmeCmd.demo_heap CmdAvb.demo_store CmdAvb.demo_board_heap.
#[local] Instance demo_fastboot : FastbootPlatform := {|
  u_boot_version := str "U-Boot 2015.01";
  ddr_size_usable := 0x40000000;
  maxpacket := 512;
  get_usid_string := None;
  has_system_slot := 0;
  mmc_boot_size := fun _ => None;
  find_mmc_partition_size := fun _ => None;
  main_storage := Emmc;
  run_command_result := fun _ => 0;
  malloc_usable := fun n => Z.max 24 n;
|}.

Definition demo_device (buf : bytes) : Fastboot unit demo_world :=
  mkFastboot (demo_machine buf) (str "payload") 7 7 [] 0 [].
Notation demo_rx := (rx_handler_command (D := unit) (E := demo_world) [] [] (Ret [])).

Lemma demo_sealed buf : idme_repr buf (default_entry [] <$> idme_default_values) →
  sealed_board (fb_board (demo_device buf)).
Proof.
  intros Hr. eexists. split; [exact Hr|]. split; [|by intros full [? _]].
  intros (e & code & He & (id & [= <-] & ->) & (pk & _ & Hv)).
  assert (Some e = get_entry (str "unlock_code") (default_entry [] <$> idme_default_values)) as [= ->] by done.
  by vm_compute in Hv.
Qed.

Definition cut_packet : bytes := str "flash:unlock" ++ replicate 52 0.
Lemma demo_cut_packet buf : ∃ w', demo_rx cut_packet 9 64 (demo_device buf) = Ret (tt, w')
  ∧ fb_log w' = [FlashWrite (str "unl") (str "payload")].
Proof. eexists. split; by vm_compute. Qed.

Lemma locked_fastboot_commands_witness :
  ∃ buf w', demo_rx cut_packet 9 64 (demo_device buf) = Ret (tt, w')
    ∧ lock_env w' = None
    ∧ (∃ l, fb_log w' = l ++ [] ∧ Forall (fun e => harmless e ∨ cut_short e) l)
    ∧ (board_idme (fb_board w') = mkIdme buf false false tt ∨ downloaded_unlock (demo_device buf)
       ∨ has_prefix cut_packet (str "oem relock") = true).
Proof.
  destruct default_table as (buf & Hr & _). destruct (demo_cut_packet buf) as (w' & Ew & _).
  exists buf, w'. split; [exact Ew|].
  exact (locked_fastboot_commands [] [] (Ret []) (fun _ _ => eq_refl) (fun _ _ => eq_refl)
    cut_packet 9 64 (demo_device buf) w' eq_refl (demo_sealed buf Hr) Ew).
Defined.

(** The lockdown looks at the command before it is cut to the length that was
    received: a packet "flash:unl" into a buffer in which "ock" follows writes
    the partition "unl" of a locked device. *)
Example cut_command_writes : ∃ buf, sealed_board (fb_board (demo_device buf))
  ∧ ∃ w', demo_rx cut_packet 9 64 (demo_device buf) = Ret (tt, w')
    ∧ fb_log w' = [FlashWrite (str "unl") (str "payload")].
Proof.
  destruct default_table as (buf & Hr & _). exists buf. split; [by apply demo_sealed|].
  apply demo_cut_packet.
Qed.
