(* ===== verification/FastbootLock.v ===== *)
(** * Locking and unlocking over fastboot

    What "flash:unlock", "oem relock" and "flashing lock" leave in the data store
    and in the environment, read back by the checks of the boot. *)

From S2P Require Import Prelude AvbOps BootCtl CmdAvb.
From S2P Require Import Idme IdmeSpec IdmeBoot IdmeCmd SecureBoot Unlock Bootm Fastboot FastbootSpec.

(** ** Hexadecimal numbers *)

Lemma hex_digit_ok d : 0 ≤ d < 16 →
  isxdigit (hex_digit d) = true ∧ digit_value (hex_digit d) = d ∧ hex_digit d ≠ 0 ∧ hex_digit d ≠ 120.
Proof.
  intros Hd. assert (Hall : Forall (fun d => isxdigit (hex_digit d) = true ∧ digit_value (hex_digit d) = d
    ∧ hex_digit d ≠ 0 ∧ hex_digit d ≠ 120) (seqZ 0 16)) by by repeat constructor.
  rewrite Forall_forall in Hall. apply Hall, elem_of_seqZ. lia.
Qed.

Lemma hex_digits_strtoul n x rest : 0 ≤ x < 16 ^ Z.of_nat n → x < 2 ^ 64 →
  strtoul_from (hex_digits n x ++ rest) 16 0 = strtoul_from rest 16 x.
Proof.
  revert x rest. induction n as [|n IH]; intros x rest Hx Hx64.
  { change (16 ^ Z.of_nat 0) with 1 in Hx. by replace x with 0 by lia. }
  rewrite Nat2Z.inj_succ, Z.pow_succ_r in Hx by lia.
  pose proof (Z.mod_pos_bound x 16 ltac:(lia)) as Hm. pose proof (Z.div_mod x 16 ltac:(lia)) as Hdm.
  destruct (hex_digit_ok (x mod 16) Hm) as (Hd & Hv & _).
  assert (Hstep : ∀ q, q * 16 + x mod 16 = x → 
    strtoul_from (hex_digit (x mod 16) :: rest) 16 q = strtoul_from rest 16 x).
  { intros q Hq. cbn [strtoul_from]. rewrite Hd, Hv. rewrite (proj2 (Z.ltb_lt (x mod 16) 16)) by lia.
    cbn [andb]. rewrite Hq, u64_small by (unfold is_u64; lia). done. }
  cbn [hex_digits]. destruct (Z.ltb_spec x 16) as [Hs|Hs].
  - rewrite app_nil_l. apply Hstep. rewrite Z.mod_small by lia. done.
  - rewrite <- app_assoc. cbn [app]. rewrite IH; [apply Hstep; lia| |].
    + split; [apply Z.div_pos; lia|apply Z.div_lt_upper_bound; lia].
    + apply Z.div_lt_upper_bound; lia.
Qed.

Lemma hex_digits_ok n x : 0 ≤ x → Forall (fun c => c ≠ 0 ∧ c ≠ 120) (hex_digits n x).
Proof.
  revert x. induction n as [|n IH]; intros x Hx; [constructor|]. cbn [hex_digits].
  apply Forall_app. split; [destruct (x <? 16); [constructor|apply IH, Z.div_pos; lia]|].
  repeat constructor; by apply hex_digit_ok, Z.mod_pos_bound.
Qed.

Lemma hex_digits_length n k x : 0 ≤ x < 16 ^ Z.of_nat (S k) → (length (hex_digits n x) ≤ S k)%nat.
Proof.
  revert k x. induction n as [|n IH]; intros k x Hx; cbn [hex_digits]; [simpl; lia|].
  rewrite length_app. cbn [length]. destruct (Z.ltb_spec x 16); [simpl; lia|].
  destruct k as [|k]; [change (16 ^ Z.of_nat 1) with 16 in Hx; lia|].
  assert (0 ≤ x / 16 < 16 ^ Z.of_nat (S k)) as Hd%IH; [|lia].
  rewrite (Nat2Z.inj_succ (S k)), Z.pow_succ_r in Hx by lia.
  split; [apply Z.div_pos; lia|apply Z.div_lt_upper_bound; lia].
Qed.

Lemma hex_digits_long n k x : 16 ^ Z.of_nat k ≤ x → (k < n)%nat → (S k ≤ length (hex_digits n x))%nat.
Proof.
  revert k x. induction n as [|n IH]; intros k x Hx Hk; [lia|]. cbn [hex_digits]. rewrite length_app. cbn [length].
  destruct k as [|k]; [lia|]. rewrite Nat2Z.inj_succ, Z.pow_succ_r in Hx by lia.
  pose proof (Z.pow_pos_nonneg 16 (Z.of_nat k) ltac:(lia) ltac:(lia)).
  rewrite (proj2 (Z.ltb_ge x 16)) by lia.
  assert (S k ≤ length (hex_digits n (x / 16)))%nat; [|lia].
  apply IH; [apply Z.div_le_lower_bound; lia|lia].
Qed.

(** A number as [%llx] prints it is read back by [simple_strtoul]. *)
Lemma simple_strtoul_hex x : 0 ≤ x < 2 ^ 64 → simple_strtoul (hex_of_Z x) = (x, []).
Proof.
  intros Hx. pose proof (hex_digits_ok 16 x ltac:(lia)) as Hok.
  pose proof (hex_digits_strtoul 16 x [] ltac:(done) ltac:(lia)) as Hv. rewrite app_nil_r in Hv.
  cbn [strtoul_from] in Hv. fold (hex_of_Z x) in Hok, Hv.
  unfold simple_strtoul. destruct (hex_of_Z x) as [|c s]; [done|].
  assert (Hs : ∀ y, y = 120 → head s ≠ Some y).
  { intros y -> Hy. destruct s as [|? s]; [done|]. injection Hy as ->.
    apply Forall_cons in Hok as [_ [[_ ?] _]%Forall_cons]. done. }
  destruct (decide (c = 48)) as [->|Hc].
  - assert (strtoul_from s 16 0 = (x, [])) as Hs0 by exact Hv.
    destruct s as [|y s]; [done|]. destruct (decide (y = 120)) as [->|Hy]; [by edestruct Hs|].
    repeat case_match; simplify_eq; done.
  - repeat case_match; simplify_eq; done.
Qed.

(** ** Flags of eight digits *)

(** A number as an item of eight bytes holds it, and as the text buffer does. *)
Definition flags_data (x : Z) : bytes := fill 8 (hex_of_Z x).
Definition is_flags (x : Z) : Prop := 0 ≤ x < 2 ^ 32.

Lemma flags_digits x : is_flags x → (length (hex_of_Z x) ≤ 8)%nat.
Proof. intros Hx. apply (hex_digits_length 16 7). exact Hx. Qed.

Lemma zlen_flags x : zlen (flags_data x) = 8.
Proof. by apply zlen_fill. Qed.

(** The digits are followed by zeros. *)
Lemma flags_data_eq x : is_flags x →
  flags_data x = hex_of_Z x ++ replicate (8 - length (hex_of_Z x)) 0.
Proof. intros Hx%flags_digits. unfold flags_data, fill. by rewrite take_ge by (simpl; lia). Qed.

Lemma flags_text x : is_flags x → wr (replicate 19 0) 0 (hex_of_Z x) = Ret (flags_data x ++ replicate 11 0).
Proof.
  intros Hx. pose proof (flags_digits x Hx). rewrite flags_data_eq, <- app_assoc, <- replicate_add by done.
  replace 19%nat with (length (hex_of_Z x) + (19 - length (hex_of_Z x)))%nat by lia.
  rewrite replicate_add, wr_app_0 by (unfold zlen; by rewrite length_replicate).
  do 3 f_equal. lia.
Qed.

Lemma flags_text_read x : is_flags x → c_str (flags_data x ++ replicate 11 0) = Ret (hex_of_Z x).
Proof.
  intros Hx. pose proof (flags_digits x Hx). rewrite flags_data_eq, <- app_assoc, <- replicate_add by done.
  replace (8 - length (hex_of_Z x) + 11)%nat with (S (18 - length (hex_of_Z x))) by lia.
  apply c_str_app. eapply Forall_impl; [apply hex_digits_ok; apply Hx|]. by intros c [? _].
Qed.

(** A text buffer whose last bytes are zeros takes any item of eight bytes. *)
Lemma flags_over text x : zlen text = 8 →
  wr (text ++ replicate 11 0) 0 (flags_data x) = Ret (flags_data x ++ replicate 11 0).
Proof. intros Ht. by rewrite wr_app_0 by by rewrite zlen_flags. Qed.

Lemma is_flags_log2 x : is_flags x ↔ 0 ≤ x ∧ Z.log2 x < 32.
Proof.
  unfold is_flags. destruct (Z.eq_dec x 0) as [->|]; [split; intros _; by split|].
  split; intros [Hx Hl]; (split; [done|]); apply Z.log2_lt_pow2; try done; lia.
Qed.
Lemma lor_flags x m : is_flags x → is_flags m → is_flags (Z.lor x m).
Proof.
  rewrite !is_flags_log2. intros [Hx Lx] [Hm Lm]. rewrite Z.lor_nonneg, Z.log2_lor by done. lia.
Qed.
Lemma land_flags x m : is_flags x → 0 ≤ m → is_flags (Z.land x m).
Proof.
  rewrite !is_flags_log2. intros [Hx Lx] Hm. rewrite Z.land_nonneg. split; [auto|].
  pose proof (Z.log2_land x m Hx Hm). lia.
Qed.

(** Clearing bits of a number that has 64 of them. *)
Lemma clear_bits x m : is_flags x → Z.land x (u64 (Z.lnot m)) = Z.ldiff x m.
Proof.
  intros Hx. unfold u64. change 0x10000000000000000 with (2 ^ 64).
  rewrite <- Z.land_ones, Z.land_assoc by lia. rewrite (Z.land_comm _ (Z.ones 64)).
  rewrite Z.land_assoc, (Z.land_comm (Z.ones 64)), Z.land_ones by lia.
  rewrite Z.mod_small by (unfold is_flags in Hx; lia). symmetry. apply Z.ldiff_land.
Qed.

(** ** Items of a loaded table *)

Section Lock.
Context {D E : Type} `{Mmc D} `{Heap (IdmeState D)} `{Heap (Board D)} `{SecureChip} `{TomCrypt} `{UnlockPlatform}.
Context `{StoreOps E} `{Heap (BootState E)} `{FastbootPlatform}.
Notation W := (Fastboot D E).

(** The device takes what is written. *)
Context (writes : ∀ st : IdmeState D, pidme_set st = true → ∃ d, idme_platform_write st
  = Ret (0, mkIdme (gidme_buff st) (pidme_set st) (v2_functions st) d)).

Definition has_table (st : IdmeState D) (es : list entry) : Prop :=
  pidme_set st = true ∧ v2_functions st = true ∧ idme_repr (gidme_buff st) es.

Lemma get_table name len st es :
  Forall (λ c, c ≠ 0) name → 0 ≤ len → has_table st es →
  idme_get_var_external name len st
  = Ret (match get_entry name es with
         | Some e => (0, Some (take (Z.to_nat len) (e_data e)))
         | None => (-1, None)
         end, st).
Proof.
  intros Hname Hlen (Hp & Hv & Hr).
  unfold idme_get_var_external, idme_get_var, mbind, comp_bind, get_idme, pidme_data. rewrite Hv. cbn [negb]. rewrite Hp.
  rewrite (lift_run _ _ _ (get_var_repr (gidme_buff st) es name len Hname Hr Hlen)).
  by destruct (get_entry name es).
Qed.

Lemma set_table name value len data st es e :
  Forall (λ c, c ≠ 0) name → 0 ≤ len → has_table st es → get_entry name es = Some e →
  Z.min (e_size e) len ≤ zlen value → stored value len e = data →
  ∃ st', idme_update_var_ex (Some name) (Some value) len st = Ret (0, st')
    ∧ has_table st' (set_entry name (fun _ => data) es).
Proof.
  intros Hname Hlen (Hp & Hv & Hr) Hg Hval Hst.
  unfold idme_update_var_ex, idme_update_var, mbind, comp_bind, get_idme, pidme_data. rewrite Hv, Hp.
  destruct (update_var_repr (gidme_buff st) es name value len e) as (buf & Hu & Hr' & _); auto.
  rewrite (lift_run _ _ _ Hu). unfold set_buff, mret, comp_ret. cbn [negb Z.eqb].
  destruct (writes (mkIdme buf (pidme_set st) (v2_functions st) (mmc st)) Hp) as (d & ->).
  cbv beta iota. eexists. split; [done|]. split; [done|]. split; [done|]. cbn [gidme_buff].
  rewrite (set_entry_const _ _ (stored value len)); [done|]. intros x Hx. congruence.
Qed.

(** The device with another data store. *)
Definition put_idme (w : W) (st : IdmeState D) : W :=
  mkFastboot (mkMachine (mkBoard st (board_unlock (m_board (fb_machine w)))) (m_boot (fb_machine w)))
    (fb_buffer w) (download_bytes w) (download_size w) (response_str w) (getvar_index w) (fb_log w).
Definition fb_idme (w : W) : IdmeState D := board_idme (m_board (fb_machine w)).

Lemma put_idme_same w : put_idme w (fb_idme w) = w.
Proof. by destruct w as [[[] ]]. Qed.
Lemma idme_run {A} (m : comp (IdmeState D) A) w a st :
  m (fb_idme w) = Ret (a, st) → board (with_idme m) w = Ret (a, put_idme w st).
Proof.
  intros Em. unfold board, on_machine, on_board, with_idme. unfold fb_idme in Em. by rewrite Em.
Qed.

Definition has_flags (es : list entry) (name : bytes) (x : Z) : Prop :=
  is_flags x ∧ ∃ e, get_entry name es = Some e ∧ e_data e = flags_data x.

Lemma change_flags_run name text f x es w :
  Forall (λ c, c ≠ 0) name → zlen text = 8 → has_table (fb_idme w) es → has_flags es name x →
  is_flags (f x) →
  ∃ st, change_flags name (text ++ replicate 11 0) f w
        = Ret (Some (flags_data (f x) ++ replicate 11 0), put_idme w st)
    ∧ has_table st (set_entry name (fun _ => flags_data (f x)) es).
Proof.
  intros Hname Htext Ht (Hx & e & He & Hd) Hf. unfold change_flags, load_flags.
  erewrite comp_bind_run; [|rewrite (comp_bind_run _ _ _ _ _ (idme_run _ _ _ _ (get_table name 16 _ _ Hname ltac:(lia) Ht))), He, Hd,
    put_idme_same; cbv iota; rewrite take_ge by (pose proof (zlen_flags x); unfold zlen in *; lia);
    rewrite (comp_bind_run _ _ _ _ _ (lift_run _ _ _ (flags_over text x Htext)));
    rewrite (comp_bind_run _ _ _ _ _ (lift_run _ _ _ (flags_text_read x Hx)));
    rewrite simple_strtoul_hex by (unfold is_flags in Hx; lia); reflexivity].
  cbv beta iota zeta.
  assert (Hsz : e_size e = 8) by (unfold e_size; rewrite Hd; apply zlen_flags).
  destruct (set_table name (flags_data (f x) ++ replicate 11 0) 18 (flags_data (f x)) _ es e Hname
    ltac:(lia) Ht He) as (st & Eu & Ht').
  { rewrite Hsz, zlen_app, zlen_flags. done. }
  { apply stored_whole; rewrite Hsz; [apply zlen_flags|lia]. }
  exists st. split; [|done]. unfold store_flags.
  erewrite comp_bind_run; [|rewrite (comp_bind_run _ _ _ _ _ (lift_run _ _ _ (flags_text _ Hf)));
    apply idme_run, Eu].
  cbn [negb Z.eqb]. by rewrite (comp_bind_run _ _ _ _ _ (lift_run _ _ _ (flags_text _ Hf))).
Qed.

Definition set_flags (name : bytes) (x : Z) : list entry → list entry :=
  set_entry name (fun _ => flags_data x).

Lemma get_set_flags name other x y es :
  has_flags es name x → other ≠ name → get_entry other (set_flags name y es) = get_entry other es.
Proof.
  intros (_ & e & He & Hd) Hne. unfold set_flags. rewrite get_set_entry, bool_decide_false; [done..|].
  intros e' He'. assert (e' = e) as -> by congruence. by rewrite zlen_flags, <- (zlen_flags x), <- Hd.
Qed.

Lemma flags_set_flags name other x x' y es :
  has_flags es name x → other ≠ name → has_flags es other y → has_flags (set_flags name x' es) other y.
Proof.
  intros Hx Hne (? & e & He & Hd). split; [done|]. exists e. by rewrite (get_set_flags _ _ x).
Qed.

Lemma change_both_run fos dev x y es w :
  has_table (fb_idme w) es → has_flags es (str "fos_flags") x → has_flags es (str "dev_flags") y →
  is_flags (fos x) → is_flags (dev y) →
  ∃ st, change_both fos dev w = Ret (0, put_idme w st)
    ∧ has_table st (set_flags (str "dev_flags") (dev y) (set_flags (str "fos_flags") (fos x) es)).
Proof.
  intros Ht Hx Hy Hfx Hfy. unfold change_both. change (replicate 19 0) with (replicate 8 0 ++ replicate 11 0).
  destruct (change_flags_run (str "fos_flags") (replicate 8 0) fos x es w) as (st1 & E1 & Ht1);
    [by repeat constructor|done..|].
  rewrite (comp_bind_run _ _ _ _ _ E1). cbv iota.
  destruct (change_flags_run (str "dev_flags") (flags_data (fos x)) dev y
    (set_flags (str "fos_flags") (fos x) es) (put_idme w st1)) as (st2 & E2 & Ht2);
    [by repeat constructor|apply zlen_flags|done|by eapply flags_set_flags|done|].
  rewrite (comp_bind_run _ _ _ _ _ E2). by exists st2.
Qed.

(** ** The unlock code *)

(** Memory is there, and a hash has 32 bytes. *)
Context (heap_ok : ∀ n (b : Board D), heap_alloc n b = (true, b)).
Context (hash_size : ∀ id, zlen (sha256_sum id) = 32).

Lemma malloc_ok n (b : Board D) : malloc n b = Ret (true, b).
Proof. unfold malloc. by rewrite heap_ok. Qed.

Lemma chip_code_read code : chip_code code → amzn_get_unlock_code UNLOCK_CODE_LEN = Ret (Some (code, 16)).
Proof.
  intros (id & Hid & ->). unfold amzn_get_unlock_code. change (UNLOCK_CODE_LEN <? 16 + 1) with false. cbv iota.
  rewrite Hid. rewrite !rd_ok by (rewrite ?hash_size; lia). done.
Qed.

(** A signature of the chip's code is accepted. *)
Lemma verify_unlock_complete code c sig (b : Board D) :
  chip_code code → signed_under lagunaf_unlock_pub_der code (c :: sig) →
  ∃ u, amzn_verify_unlock (c :: sig) b = Ret (0, mkBoard (board_idme b) u).
Proof.
  intros Hc (pk & Hpk & Hv). unfold amzn_verify_unlock.
  assert (∃ k key, amzn_get_unlock_key = k :: key) as (k & key & Hk) by by eexists _, _.
  unfold amzn_get_unlock_key in Hk. unfold amzn_get_unlock_key. rewrite Hk in *.
  rewrite (comp_bind_run _ _ _ _ _ (lift_run _ _ _ (chip_code_read code Hc))). cbv iota beta.
  assert (∃ x xs, code = x :: xs) as (x & xs & ->).
  { destruct Hc as (id & _ & ->). by eexists _, _. }
  unfold amzn_verify_code_internal. rewrite (comp_bind_run _ _ _ _ _ (malloc_ok _ _)). cbn [negb].
  rewrite Hpk. exists (set_registered (board_unlock b)). unfold register_sha256, mbind, comp_bind, get_unlock, put_unlock.
  by rewrite Hv.
Qed.

Lemma is_unlocked_run es e r (b b' : Board D) :
  has_table (board_idme b) es → get_entry (str "unlock_code") es = Some e →
  amzn_verify_unlock (fill SIGNED_UNLOCK_CODE_LEN (e_data e)) b = Ret (r, b') →
  amzn_target_is_unlocked b = Ret (if r =? 0 then 1 else 0, b').
Proof.
  intros Ht He Hv. unfold amzn_target_is_unlocked.
  assert (with_idme (idme_get_var_external (str "unlock_code") SIGNED_UNLOCK_CODE_LEN) b
    = Ret ((0, Some (take 256 (e_data e))), b)) as Eg.
  { unfold with_idme. rewrite (get_table (str "unlock_code") SIGNED_UNLOCK_CODE_LEN _ es), He; [|by repeat constructor|done|done].
    by destruct b. }
  rewrite (comp_bind_run _ _ _ _ _ Eg). cbv iota.
  assert (wr (replicate (Z.to_nat SIGNED_UNLOCK_CODE_LEN) 0) 0 (take 256 (e_data e))
    = Ret (fill SIGNED_UNLOCK_CODE_LEN (e_data e))) as Ew.
  { rewrite wr_ok; [|done|unfold zlen; rewrite length_take, length_replicate; unfold SIGNED_UNLOCK_CODE_LEN; lia].
    unfold fill. f_equal. change (take (Z.to_nat 0) ?l) with (@nil Z). cbn [app]. f_equal.
    rewrite drop_replicate. f_equal. unfold zlen. rewrite length_take. unfold SIGNED_UNLOCK_CODE_LEN. lia. }
  rewrite (comp_bind_run _ _ _ _ _ (lift_run _ _ _ Ew)). by rewrite (comp_bind_run _ _ _ _ _ Hv).
Qed.

Definition put_board (w : W) (b : Board D) : W :=
  mkFastboot (mkMachine b (m_boot (fb_machine w)))
    (fb_buffer w) (download_bytes w) (download_size w) (response_str w) (getvar_index w) (fb_log w).
Lemma board_run {A} (m : comp (Board D) A) w a b :
  m (m_board (fb_machine w)) = Ret (a, b) → board m w = Ret (a, put_board w b).
Proof. intros Em. unfold board, on_machine, on_board. by rewrite Em. Qed.

(** What is left after the flags of the table have been changed. *)
Lemma set_unlock_code value data es e w :
  has_table (fb_idme w) es → get_entry (str "unlock_code") es = Some e → e_size e = 1024 →
  SIGNED_UNLOCK_CODE_LEN ≤ zlen value → data = take 256 value ++ replicate 768 0 →
  ∃ st, board (with_idme (idme_update_var_ex (Some (str "unlock_code")) (Some value) SIGNED_UNLOCK_CODE_LEN)) w
        = Ret (0, put_idme w st)
    ∧ has_table st (set_entry (str "unlock_code") (fun _ => data) es).
Proof.
  intros Ht He Hsz Hval Hdata.
  destruct (set_table (str "unlock_code") value SIGNED_UNLOCK_CODE_LEN data (fb_idme w) es e) as (st & Eu & Ht');
    [by repeat constructor|done|exact Ht|done|rewrite Hsz; exact Hval| |].
  { unfold stored. by rewrite Hsz. }
  exists st. split; [by apply idme_run|done].
Qed.

(** Setting the unlock code leaves the other items. *)
Lemma get_set_code other data es e :
  get_entry (str "unlock_code") es = Some e → zlen data = e_size e →
  get_entry other (set_entry (str "unlock_code") (fun _ => data) es)
  = if bool_decide (other = str "unlock_code")
    then Some (mkEntry (e_name e) (e_exportable e) (e_permission e) data) else get_entry other es.
Proof.
  intros He Hz. rewrite get_set_entry by (intros e' He'; congruence). by rewrite He.
Qed.
Lemma flags_set_code name x data es e :
  get_entry (str "unlock_code") es = Some e → zlen data = e_size e → name ≠ str "unlock_code" →
  has_flags es name x → has_flags (set_entry (str "unlock_code") (fun _ => data) es) name x.
Proof.
  intros He Hz Hne (Hx & e' & He' & Hd). split; [done|]. exists e'. split; [|done].
  by rewrite (get_set_code _ _ _ e), bool_decide_false.
Qed.

(** The table after both, in terms of the table before. *)
Definition unlock_table (code : bytes) (fos dev : Z) (es : list entry) : list entry :=
  set_flags (str "dev_flags") dev
    (set_flags (str "fos_flags") fos
       (set_entry (str "unlock_code") (fun _ => take 256 code ++ replicate 768 0) es)).

Lemma unlock_table_code code x y fos dev es e :
  get_entry (str "unlock_code") es = Some e → e_size e = 1024 → SIGNED_UNLOCK_CODE_LEN ≤ zlen code →
  has_flags es (str "fos_flags") x → has_flags es (str "dev_flags") y → is_flags fos →
  ∃ e', get_entry (str "unlock_code") (unlock_table code fos dev es) = Some e'
    ∧ fill SIGNED_UNLOCK_CODE_LEN (e_data e') = take 256 code.
Proof.
  intros He Hsz Hc Hx Hy Hf. assert (Hz : zlen (take 256 code ++ replicate 768 0) = e_size e).
  { rewrite Hsz. unfold zlen, SIGNED_UNLOCK_CODE_LEN in *. rewrite length_app, length_take, length_replicate. lia. }
  unfold unlock_table. eexists. split.
  - rewrite (get_set_flags _ _ y), (get_set_flags _ _ x), (get_set_code _ _ _ e), bool_decide_true;
      [done|done|done|done| |done| |done].
    + by eapply flags_set_code.
    + eapply flags_set_flags; [by eapply flags_set_code|done|by eapply flags_set_code].
  - cbn [e_data]. unfold fill. assert (length (take 256 code) = 256%nat) as Hl.
    { unfold zlen, SIGNED_UNLOCK_CODE_LEN in Hc. rewrite length_take. lia. }
    rewrite (take_app_length' (take 256 code)) by (rewrite Hl; done). rewrite length_app, Hl, length_replicate. apply app_nil_r.
Qed.

(** A table with the items that unlocking touches. *)
Definition unlockable (es : list entry) (fos dev : Z) : Prop :=
  has_flags es (str "fos_flags") fos ∧ has_flags es (str "dev_flags") dev
  ∧ ∃ e, get_entry (str "unlock_code") es = Some e ∧ e_size e = 1024.

(** The code is stored and both flags are changed. *)
Lemma set_code_and_flags value f g x y es w :
  has_table (fb_idme w) es → unlockable es x y → SIGNED_UNLOCK_CODE_LEN ≤ zlen value →
  is_flags (f x) → is_flags (g y) →
  ∃ st1 st, board (with_idme (idme_update_var_ex (Some (str "unlock_code")) (Some value) SIGNED_UNLOCK_CODE_LEN)) w
        = Ret (0, put_idme w st1)
    ∧ change_both f g (put_idme w st1) = Ret (0, put_idme w st)
    ∧ has_table st (unlock_table value (f x) (g y) es)
    ∧ ∃ e, get_entry (str "unlock_code") (unlock_table value (f x) (g y) es) = Some e
      ∧ fill SIGNED_UNLOCK_CODE_LEN (e_data e) = take 256 value.
Proof.
  intros Ht (Hx & Hy & e & He & Hsz) Hval Hf Hg.
  destruct (set_unlock_code value _ es e w Ht He Hsz Hval eq_refl) as (st1 & E1 & Ht1).
  assert (Hz : zlen (take 256 value ++ replicate 768 0) = e_size e).
  { rewrite Hsz. unfold zlen, SIGNED_UNLOCK_CODE_LEN in *. rewrite length_app, length_take, length_replicate. lia. }
  destruct (change_both_run f g x y _ (put_idme w st1) Ht1) as (st & E2 & Ht2);
    [by eapply flags_set_code..|done|done|].
  exists st1, st. split; [done|]. split; [done|]. split; [done|]. by eapply unlock_table_code.
Qed.

(** An answer. *)
Definition answered (w : W) (s : bytes) : W :=
  mkFastboot (fb_machine w) (fb_buffer w) (download_bytes w) (download_size w) (response_str w)
    (getvar_index w) (Response s :: fb_log w).

Lemma flash_unlock_run sig b st1 st w :
  downloaded w = Ret (sig, w) → amzn_verify_unlock sig (m_board (fb_machine w)) = Ret (0, b) →
  board (with_idme (idme_update_var_ex (Some (str "unlock_code")) (Some (fb_buffer w))
    SIGNED_UNLOCK_CODE_LEN)) (put_board w b) = Ret (0, put_idme (put_board w b) st1) →
  idme_auto_set_after_unlock (put_idme (put_board w b) st1) = Ret (0, put_idme (put_board w b) st) →
  cb_flash (str "flash:unlock") w = Ret (tt, answered (put_idme (put_board w b) st) (str "OKAY")).
Proof.
  intros Ed Ev E1 E2. unfold cb_flash. change (strsep (str "flash:unlock") 58) with (Some (str "unlock")).
  cbv iota. change (strcmp_l1 (str "unlock") (str "unlock")) with true. cbv iota.
  rewrite (comp_bind_run _ _ _ _ _ Ed), (comp_bind_run _ _ _ _ _ (board_run _ _ _ _ Ev)). cbn [negb Z.eqb].
  rewrite (comp_bind_run get_fb _ (put_board w b) (put_board w b) (put_board w b) eq_refl).
  rewrite (comp_bind_run _ _ _ _ _ E1). cbn [negb Z.eqb]. by rewrite (comp_bind_run _ _ _ _ _ E2).
Qed.

(** C22: unlocking works. On a device with a loaded table and a download of 256
    bytes that is a signature of the chip's code under the board's key,
    "flash:unlock" answers OKAY, stores the signature and sets the flags for adb
    and nothing else in the table, and the device counts as unlocked from then
    on. *)
Theorem flash_unlock_unlocks es x y c sig rest code w :
  has_table (fb_idme w) es → unlockable es x y →
  fb_buffer w = (c :: sig) ++ rest → download_bytes w = SIGNED_UNLOCK_CODE_LEN →
  zlen (c :: sig) = SIGNED_UNLOCK_CODE_LEN →
  chip_code code → signed_under lagunaf_unlock_pub_der code (c :: sig) →
  ∃ w' b, cb_flash (str "flash:unlock") w = Ret (tt, w')
    ∧ fb_log w' = Response (str "OKAY") :: fb_log w
    ∧ has_table (fb_idme w')
        (unlock_table (c :: sig) (Z.lor x (Z.lor FOS_FLAGS_ADB_ON FOS_FLAGS_ADB_ROOT))
           (Z.lor y DEV_FLAGS_ADB_USB_ON) es)
    ∧ amzn_target_is_unlocked (m_board (fb_machine w')) = Ret (1, b).
Proof.
  intros Ht Hu Hb Hn Hl Hc Hs.
  assert (Hx : is_flags x) by apply Hu. assert (Hy : is_flags y) by apply Hu.
  destruct (verify_unlock_complete code c sig (m_board (fb_machine w)) Hc Hs) as (u & Ev).
  set (w1 := put_board w (mkBoard (board_idme (m_board (fb_machine w))) u)).
  assert (Hval : SIGNED_UNLOCK_CODE_LEN ≤ zlen (fb_buffer w)) by (rewrite Hb, zlen_app, Hl; unfold zlen; lia).
  destruct (set_code_and_flags (fb_buffer w) (fun f => Z.lor f (Z.lor FOS_FLAGS_ADB_ON FOS_FLAGS_ADB_ROOT))
    (fun f => Z.lor f DEV_FLAGS_ADB_USB_ON) x y es w1 Ht Hu Hval) as (st1 & st & E1 & E2 & Ht' & e & He & Hf);
    [by apply lor_flags; [|split; vm_compute]..|].
  assert (Htake : take 256 (fb_buffer w) = c :: sig).
  { rewrite Hb. apply take_app_length'. unfold zlen, SIGNED_UNLOCK_CODE_LEN in Hl. lia. }
  destruct (verify_unlock_complete code c sig (mkBoard st u) Hc Hs) as (u' & Ev').
  rewrite <- Htake, <- Hf in Ev'. pose proof (is_unlocked_run _ e 0 (mkBoard st u) _ Ht' He Ev') as Hun.
  assert (downloaded w = Ret (c :: sig, w)) as Ed.
  { unfold downloaded, mbind, comp_bind, get_fb. rewrite Hn, Hb. apply lift_run. rewrite rd_ok; [|done|done|].
    - unfold slice. change (Z.to_nat 0) with 0%nat. rewrite drop_0. f_equal. rewrite <- Hl. unfold zlen.
      rewrite Nat2Z.id. apply take_app_length.
    - rewrite zlen_app, Hl. unfold zlen. lia. }
  eexists _, _. split; [exact (flash_unlock_run _ _ _ _ _ Ed Ev E1 E2)|].
  split; [done|]. split; [|exact Hun].
  unfold unlock_table in *. rewrite Htake in Ht'.
  by rewrite (take_ge (c :: sig)) by (unfold zlen, SIGNED_UNLOCK_CODE_LEN in Hl; lia).
Qed.

(** C23: "oem relock" locks again. On a device with a loaded table it answers
    OKAY, clears the stored code and the flags for adb and nothing else in the
    table, and, as 256 zeros are no signature, the device does not count as
    unlocked by a stored code any more. *)
Theorem relock_locks es x y s w :
  has_table (fb_idme w) es → unlockable es x y →
  (∀ code, chip_code code → ¬ signed_under lagunaf_unlock_pub_der code (replicate 256 0)) →
  ∃ w', cb_oem_relock s w = Ret (tt, w')
    ∧ fb_log w' = Response (str "OKAY") :: fb_log w
    ∧ has_table (fb_idme w') (unlock_table (replicate 256 0) (Z.ldiff x 3) (Z.ldiff y 0x1000) es)
    ∧ ∀ r b, amzn_target_is_unlocked (m_board (fb_machine w')) = Ret (r, b) → r = 0.
Proof.
  intros Ht Hu Hno.
  assert (Hx : is_flags x) by apply Hu. assert (Hy : is_flags y) by apply Hu.
  set (zeros := replicate (Z.to_nat SIGNED_UNLOCK_CODE_LEN) 0).
  destruct (set_code_and_flags zeros
    (fun flags => Z.land flags (u64 (Z.lnot (Z.lor FOS_FLAGS_ADB_ON FOS_FLAGS_ADB_ROOT))))
    (fun flags => Z.land flags (u64 (Z.lnot DEV_FLAGS_ADB_USB_ON))) x y es w Ht Hu ltac:(done))
    as (st1 & st & E1 & E2 & Ht' & e & He & Hf); [by apply land_flags; [|vm_compute]..|].
  exists (answered (put_idme w st) (str "OKAY")). split_and!.
  - unfold cb_oem_relock. rewrite (comp_bind_run _ _ _ _ _ E1). cbn [negb Z.eqb].
    unfold idme_auto_clean_before_relock. by rewrite (comp_bind_run _ _ _ _ _ E2).
  - done.
  - rewrite !clear_bits in Ht' by done. exact Ht'.
  - intros r b Er. destruct (is_unlocked_frame ltac:(intros; by rewrite heap_ok) _ _ _ Er) as [_ [->| ->]]; [done|].
    exfalso.
    apply (is_unlocked_sound (mkBoard st (board_unlock (m_board (fb_machine w)))) _ _ (proj2 (proj2 Ht'))) in Er as (e' & code & He' & Hc & Hs).
    assert (e' = e) as -> by congruence. rewrite Hf in Hs. by eapply Hno.
Qed.
End Lock.

(** ** The variable "lock" *)

Section LockVariable.
Context {D E : Type} `{Mmc D} `{Heap (IdmeState D)} `{Heap (Board D)} `{SecureChip} `{TomCrypt} `{UnlockPlatform}.
Context `{StoreOps E} `{Heap (BootState E)} `{FastbootPlatform}.
Context (fresh_lock_d : bytes) (AVBMODE : bytes).
Notation W := (Fastboot D E).

(** Lock data of one digit each, and its text. *)
Definition lock_wf (i : LockData) : Prop :=
  Forall (fun x => 0 ≤ x < 10) [lock_version_major i; lock_version_minor i; lock_state i;
                                lock_critical_state i; lock_bootloader i].
Definition lock_text (i : LockData) : bytes :=
  [48 + lock_version_major i; 48 + lock_version_minor i; 48; 48; 48 + lock_state i;
   48 + lock_critical_state i; 48 + lock_bootloader i; 48].

Lemma dec_digit x : 0 ≤ x < 10 → dec_of_Z x = [48 + x].
Proof.
  intros Hx. unfold dec_of_Z. cbn [dec_digits]. rewrite (proj2 (Z.ltb_lt x 10)) by lia.
  by rewrite Z.mod_small by lia.
Qed.
Lemma digit_of_text x : 0 ≤ x < 10 → u8 (48 + x - 48) = x.
Proof. intros Hx. unfold u8. rewrite Z.mod_small by lia. lia. Qed.

Lemma lock_wf_inv i : lock_wf i →
  (0 ≤ lock_version_major i < 10) ∧ (0 ≤ lock_version_minor i < 10) ∧ (0 ≤ lock_state i < 10)
  ∧ (0 ≤ lock_critical_state i < 10) ∧ (0 ≤ lock_bootloader i < 10).
Proof. unfold lock_wf. rewrite !Forall_cons. tauto. Qed.

Lemma print_lock_text i : lock_wf i → print_lock i = Ret (lock_text i).
Proof.
  intros (?&?&?&?&?)%lock_wf_inv. unfold print_lock. by rewrite !dec_digit by done.
Qed.
Lemma read_lock_text i : lock_wf i → read_lock (lock_d_of fresh_lock_d (lock_text i)) = i.
Proof.
  intros (?&?&?&?&?)%lock_wf_inv. destruct i. unfold read_lock, lock_digit. cbn in *.
  by rewrite !digit_of_text by done.
Qed.
(** The check of verified boot reads the same. *)
Lemma lock_data_text i : lock_wf i → lock_data (lock_text i) = Ret i.
Proof.
  intros (?&?&?&?&?)%lock_wf_inv. destruct i. unfold lock_data. rewrite !rd_ok by (unfold zlen; simpl; lia).
  unfold slice, lock_text. cbn -[Z.add Z.sub Z.to_nat] in *.
  change (Z.to_nat 0) with 0%nat. change (Z.to_nat 1) with 1%nat. change (Z.to_nat 4) with 4%nat.
  change (Z.to_nat 5) with 5%nat. change (Z.to_nat 6) with 6%nat. cbn -[Z.add Z.sub]. by rewrite !digit_of_text by done.
Qed.

Context (heap_ok : ∀ n (st : BootState E), heap_alloc n st = (true, st)).
Context (room : LOCK_DATA_SIZE ≤ malloc_usable sizeof_LockData).

(** The device with another environment, answer and log. *)
Definition flashed (w : W) (lock : bytes) (log : list fb_event) : W :=
  mkFastboot (mkMachine (m_board (fb_machine w)) (setenv (m_boot (fb_machine w)) (str "lock") lock))
    (fb_buffer w) (download_bytes w) (download_size w) (str "OKAY") (getvar_index w) log.

Lemma boot_run {A} (m : comp (BootState E) A) (w : W) a st :
  m (m_boot (fb_machine w)) = Ret (a, st) →
  boot m w = Ret (a, mkFastboot (mkMachine (m_board (fb_machine w)) st) (fb_buffer w) (download_bytes w)
                       (download_size w) (response_str w) (getvar_index w) (fb_log w)).
Proof. intros Em. unfold boot, on_machine, on_boot. by rewrite Em. Qed.

Definition env_of (w : W) (name : bytes) : option bytes := env (m_boot (fb_machine w)) !! name.

Lemma env_var_run name (w : W) : env_var name w = Ret (env_of w name, w).
Proof. unfold env_var. erewrite boot_run by reflexivity. by destruct w as [[]]. Qed.

Lemma erase_run mode (w : W) : env_of w (str "avb2") = Some mode →
  erase_on_change AVBMODE w
  = Ret (tt, if bool_decide (mode = str "1")
             then mkFastboot (fb_machine w) (fb_buffer w) (download_bytes w) (download_size w)
                    (response_str w) (getvar_index w) (EraseUserdata :: fb_log w)
             else w).
Proof.
  intros Hm. unfold erase_on_change. rewrite (comp_bind_run _ _ _ _ _ (env_var_run _ _)), Hm. cbv iota.
  rewrite (comp_bind_run (mret (Some mode)) _ w (Some mode) w eq_refl). cbn [not_null_fb].
  rewrite (comp_bind_run (mret mode) _ w mode w eq_refl). by case_bool_decide.
Qed.

(** What "flashing lock" and "flashing unlock" do to the lock data. *)
Definition lock_word (lock : bool) : bytes := if lock then str "lock" else str "unlock".
Definition lock_bit (lock : bool) : Z := if lock then 1 else 0.

Lemma flashing_command_lock lock info mode (w : W) : env_of w (str "avb2") = Some mode →
  flashing_command AVBMODE (lock_word lock) info w
  = Ret ((set_lock_state info (lock_bit lock), str "OKAY"),
         if bool_decide (lock_state info = 1 - lock_bit lock ∧ mode = str "1")
         then mkFastboot (fb_machine w) (fb_buffer w) (download_bytes w) (download_size w)
                (response_str w) (getvar_index w) (EraseUserdata :: fb_log w)
         else w).
Proof.
  intros Hm. transitivity (((if lock_state info =? 1 - lock_bit lock then erase_on_change AVBMODE else mret tt);;
    mret (set_lock_state info (lock_bit lock), str "OKAY")) w); [by destruct lock|].
  destruct (Z.eqb_spec (lock_state info) (1 - lock_bit lock)).
  - rewrite (comp_bind_run _ _ _ _ _ (erase_run mode w Hm)). case_bool_decide.
    + by rewrite bool_decide_true.
    + rewrite bool_decide_false; [done|]. by intros [_ ?].
  - rewrite bool_decide_false; [done|]. by intros [? _].
Qed.

Lemma set_lock_wf info lock : lock_wf info → lock_wf (set_lock_state info (lock_bit lock)).
Proof.
  unfold lock_wf. cbn. rewrite !Forall_cons. intros (?&?&?&?&?&?). split_and!; try done; destruct lock; simpl; lia.
Qed.

Lemma unlocked_of_text (st : BootState E) info :
  lock_wf info → env st !! str "lock" = Some (lock_text info) →
  is_device_unlocked st = Ret (negb (lock_state info =? 1), st).
Proof.
  intros Hwf Hl. unfold is_device_unlocked, aml_read_is_device_unlocked, mbind, comp_bind, getenv.
  rewrite Hl. by rewrite (lift_run _ _ _ (lock_data_text info Hwf)).
Qed.

(** "flashing lock" and "flashing unlock" set the lock state that verified
    boot reads, leave the other digits, erase the user data exactly when the
    state changes and verified boot is on, and save the environment. *)
Theorem flashing_sets_lock lock info mode (w : W) :
  lock_wf info → env_of w (str "lock") = Some (lock_text info) → env_of w (str "avb2") = Some mode →
  ∃ w', cb_flashing fresh_lock_d AVBMODE (str "flashing " ++ lock_word lock) w = Ret (tt, w')
    ∧ env_of w' (str "lock") = Some (lock_text (set_lock_state info (lock_bit lock)))
    ∧ fb_log w' = Response (str "OKAY") :: EnvSaved (env (m_boot (fb_machine w')))
        :: (if bool_decide (lock_state info = 1 - lock_bit lock ∧ mode = str "1") then [EraseUserdata] else [])
        ++ fb_log w
    ∧ is_device_unlocked (m_boot (fb_machine w')) = Ret (negb lock, m_boot (fb_machine w')).
Proof.
  intros Hwf Hl Hm. set (erased := bool_decide (lock_state info = 1 - lock_bit lock ∧ mode = str "1")).
  set (info' := set_lock_state info (lock_bit lock)).
  pose proof (set_lock_wf info lock Hwf) as Hwf'. fold info' in Hwf'.
  assert (Hst : env (setenv (m_boot (fb_machine w)) (str "lock") (lock_text info')) !! str "lock"
    = Some (lock_text info')) by (cbn; apply lookup_insert_eq).
  exists (flashed w (lock_text info') (Response (str "OKAY")
    :: EnvSaved (env (setenv (m_boot (fb_machine w)) (str "lock") (lock_text info'))) :: (if erased then [EraseUserdata] else []) ++ fb_log w)).
  split_and!; [|exact Hst|done|].
  2: { etrans; [exact (unlocked_of_text _ info' Hwf' Hst)|]. by destruct lock. }
  unfold cb_flashing. rewrite (comp_bind_run _ _ _ _ _ (env_var_run _ _)), Hl. cbv iota.
  rewrite (comp_bind_run (mret (lock_d_of fresh_lock_d (lock_text info))) _ w _ w eq_refl).
  assert (boot (malloc sizeof_LockData) w = Ret (true, w)) as Em.
  { erewrite boot_run by (unfold malloc; by rewrite heap_ok). by destruct w as [[]]. }
  rewrite (comp_bind_run _ _ _ _ _ Em). cbn [negb]. rewrite (proj2 (Z.ltb_ge _ _)) by exact room. 
  rewrite (comp_bind_run (set_response (str "OKAY")) _ w tt _ eq_refl).
  assert (strsep (str "flashing " ++ lock_word lock) 32 = Some (lock_word lock)) as -> by by destruct lock.
  erewrite comp_bind_run by (apply (flashing_command_lock lock _ mode); exact Hm). rewrite read_lock_text by done.
  fold info' erased. cbv iota beta. rewrite (comp_bind_run (set_response (str "OKAY")) _ _ tt _ eq_refl).
  rewrite (comp_bind_run _ _ _ _ _ (lift_run _ _ _ (print_lock_text _ Hwf'))).
  erewrite comp_bind_run by (apply boot_run; reflexivity).
  rewrite (comp_bind_run run_saveenv _ _ tt _ eq_refl). unfold flashed. by destruct erased.
Qed.
End LockVariable.

(** The command line for a downloaded image is written past its 12 bytes for
    every load address from 0x1000 on. *)
Theorem fastboot_boot_overflows {D E : Type} (load_addr : Z) (w : Fastboot D E) :
  0x1000 ≤ load_addr → do_bootm_on_complete load_addr w = Crash OutOfBounds.
Proof.
  intros Ha. unfold do_bootm_on_complete, boot_addr_start, hex_of_Z.
  pose proof (hex_digits_long 16 3 load_addr Ha ltac:(lia)).
  rewrite (proj2 (Z.ltb_lt _ _)); [done|]. rewrite zlen_app. change (zlen (str "bootm 0x")) with 8. unfold zlen. lia.
Qed.

Lemma fastboot_boot_overflows_witness :
  do_bootm_on_complete 0x1080000 (mkFastboot (mkMachine (mkBoard (mkIdme [] true true tt) unlock_reset)
    (mkBoot tt ∅ 0 0 0)) [] 0 0 [] 0 []) = Crash OutOfBounds.
Proof. apply fastboot_boot_overflows. lia. Defined.

(** ** Examples *)

#[local] Instance demo_unlock_platform : UnlockPlatform := {|
  get_chip_id := Some (replicate 16 1);
  sha256_sum _ := replicate 32 1;
  get_timer := 7;
  fortuna _ n := Some (replicate (Z.to_nat n) 5);
  base64_encode b _ := Some (replicate 32 65);
  base64_decode b _ := Some b;
|}.
#[local] Existing Instances Unlock.demo_tomcrypt Unlock.demo_mmc Unlock.demo_heap IdmeCmd.demo_heap
  CmdAvb.demo_store CmdAvb.demo_board_heap FastbootSpec.demo_fastboot.

Lemma demo_writes (st : IdmeState unit) : pidme_set st = true → ∃ d, idme_platform_write st
  = Ret (0, mkIdme (gidme_buff st) (pidme_set st) (v2_functions st) d).
Proof. destruct st as [buf [] v []]; [intros _|done]. by exists tt. Qed.

Lemma demo_hash_size id : zlen (sha256_sum id) = 32.
Proof. done. Qed.

Lemma demo_room : LOCK_DATA_SIZE ≤ malloc_usable sizeof_LockData.
Proof. done. Qed.

Definition demo_defaults : list entry := default_entry [] <$> idme_default_values.
Lemma demo_unlockable : unlockable demo_defaults 0x40 0.
Proof.
  split; [split; [split; by vm_compute|eexists; split; by vm_compute]|].
  split; [split; [split; by vm_compute|eexists; split; by vm_compute]|].
  eexists. split; by vm_compute.
Qed.

Definition demo_lock_device (buf : bytes) : Fastboot unit demo_world :=
  mkFastboot (mkMachine (mkBoard (mkIdme buf true true tt) unlock_reset)
    (mkBoot [] {[str "avb2" := str "1"; str "lock" := str "10001010"]} 0 0 0))
    (48 :: replicate 300 7) 256 256 [] 0 [].

Definition demo_sig : bytes := 48 :: replicate 255 7.
Definition demo_code : bytes := hex08 0x01010101 ++ hex08 0x01010101.

Lemma flash_unlock_unlocks_witness : ∃ buf w' b,
  idme_repr buf demo_defaults
  ∧ cb_flash (str "flash:unlock") (demo_lock_device buf) = Ret (tt, w')
  ∧ fb_log w' = [Response (str "OKAY")]
  ∧ has_table (fb_idme w') (unlock_table demo_sig 0x43 0x1000 demo_defaults)
  ∧ amzn_target_is_unlocked (m_board (fb_machine w')) = Ret (1, b).
Proof.
  destruct default_table as (buf & Hr & _). exists buf.
  destruct (flash_unlock_unlocks (E := demo_world) demo_writes (fun _ _ => eq_refl) demo_hash_size
    demo_defaults 0x40 0 48 (replicate 255 7) (replicate 45 7) demo_code (demo_lock_device buf)
    (conj eq_refl (conj eq_refl Hr)) demo_unlockable eq_refl eq_refl eq_refl)
    as (w' & b & Hrun); [by eexists|by exists tt|].
  exists w', b. exact (conj Hr Hrun).
Defined.

Lemma relock_locks_witness : ∃ buf w',
  idme_repr buf demo_defaults
  ∧ cb_oem_relock (str "oem relock") (demo_lock_device buf) = Ret (tt, w')
  ∧ fb_log w' = [Response (str "OKAY")]
  ∧ has_table (fb_idme w') (unlock_table (replicate 256 0) 0x40 0 demo_defaults)
  ∧ ∀ r b, amzn_target_is_unlocked (m_board (fb_machine w')) = Ret (r, b) → r = 0.
Proof.
  destruct default_table as (buf & Hr & _). exists buf.
  destruct (relock_locks (E := demo_world) demo_writes (fun _ _ => eq_refl)
    demo_defaults 0x40 0 (str "oem relock") (demo_lock_device buf)
    (conj eq_refl (conj eq_refl Hr)) demo_unlockable) as (w' & Hrun).
  { intros code (id & [= <-] & ->) (pk & _ & Hv). by vm_compute in Hv. }
  exists w'. exact (conj Hr Hrun).
Defined.

Lemma flashing_sets_lock_witness : ∃ w',
  cb_flashing [] [] (str "flashing unlock") (demo_lock_device []) = Ret (tt, w')
  ∧ env_of w' (str "lock") = Some (str "10000010")
  ∧ fb_log w' = [Response (str "OKAY"); EnvSaved (env (m_boot (fb_machine w'))); EraseUserdata]
  ∧ is_device_unlocked (m_boot (fb_machine w')) = Ret (true, m_boot (fb_machine w')).
Proof.
  destruct (flashing_sets_lock (D := unit) (E := demo_world) [] [] (fun _ _ => eq_refl) demo_room false
    (mkLock 1 0 1 0 1) (str "1") (demo_lock_device [])) as (w' & Hrun); [by repeat constructor|done|done|].
  exists w'. exact Hrun.
Defined.

(** The lock data is printed without a bound: with a variable "lock" of seven
    blanks, "flashing lock" writes 18 characters into 16 bytes. *)
Example flashing_overflows :
  let st := mkBoot [] {[str "avb2" := str "1"; str "lock" := replicate 7 32]} 0 0 0 in
  cb_flashing [] [] (str "flashing lock")
    (mkFastboot (mkMachine (mkBoard (mkIdme [] true true tt) unlock_reset) st) [] 0 0 [] 0 [])
  = Crash OutOfBounds.
Proof. by vm_compute. Qed.
