(* ===== verification/FastbootData.v ===== *)
(** * Downloads

    What "download:" and the packets behind it leave in the download buffer. *)

From S2P Require Import Prelude AvbOps BootCtl CmdAvb.
From S2P Require Import Idme IdmeBoot IdmeCmd SecureBoot Unlock Bootm Fastboot FastbootSpec FastbootLock.

Section Download.
Context {D E : Type} `{FastbootPlatform}.
Notation W := (Fastboot D E).

(** The packets of a download, in order. *)
Fixpoint receive (packets : list bytes) : comp W unit :=
  match packets with
  | [] => mret tt
  | p :: packets => rx_handler_dl_image p;; receive packets
  end.

Definition response_of (e : fb_event) : option bytes :=
  match e with Response s => Some s | _ => None end.
Definition responses (w : W) : list bytes := omap response_of (fb_log w).

(** A download of [n] bytes of which [got] have come, into memory that ends in
    [rest], from a state that is not to change otherwise. *)
Definition downloading (n : Z) (got rest : bytes) (w0 w : W) : Prop :=
  fb_machine w = fb_machine w0 ∧ fb_buffer w = got ++ rest ∧ download_bytes w = zlen got
  ∧ download_size w = n ∧ responses w = responses w0.

Lemma expect_data_run (w : W) : ∃ w', expect_data w = Ret (tt, w') ∧ fb_machine w' = fb_machine w
  ∧ fb_buffer w' = fb_buffer w ∧ download_bytes w' = download_bytes w ∧ download_size w' = download_size w
  ∧ responses w' = responses w.
Proof. by eexists. Qed.

(** A packet that does not end the download. *)
Lemma packet_run n got p rest w0 w :
  n < 2 ^ 32 → zlen got + zlen p < n → n ≤ zlen (got ++ rest) → downloading n got rest w0 w →
  ∃ w', rx_handler_dl_image p w = Ret (tt, w')
    ∧ downloading n (got ++ p) (drop (length p) rest) w0 w'.
Proof.
  intros Hn Hp Hr (Hm & Hb & Hd & Hs & Hl). rewrite zlen_app in Hr.
  pose proof (zlen_nonneg got). pose proof (zlen_nonneg p).
  unfold rx_handler_dl_image, mbind, comp_bind, get_fb. rewrite Hb, Hd, Hs.
  rewrite (u32_small (n - zlen got)), Z.min_l by (unfold is_u32; lia).
  rewrite (u32_small (zlen got + zlen p)) by (unfold is_u32; lia).
  assert (take (Z.to_nat (zlen p)) p = p) as -> by (apply firstn_all2; unfold zlen; lia).
  pose proof (wr_app got (take (length p) rest) (drop (length p) rest) p
    ltac:(unfold zlen in *; rewrite length_take; lia)) as Ew. rewrite take_drop in Ew. rewrite (lift_run _ _ _ Ew).
  rewrite (proj2 (Z.leb_gt n (zlen got + zlen p))) by lia. cbn [set_download].
  match goal with |- context [expect_data ?w] => destruct (expect_data_run w) as (w' & -> & F & B & L & S & R) end.
  exists w'. split; [done|]. split_and!.
  - by rewrite F.
  - rewrite B. cbn [fb_buffer]. by rewrite app_assoc.
  - rewrite L. cbn [download_bytes]. by rewrite zlen_app.
  - rewrite S. done.
  - by rewrite R.
Qed.

Lemma packets_run n qs got rest w0 w :
  n < 2 ^ 32 → zlen got + zlen (concat qs) < n → n ≤ zlen (got ++ rest) → downloading n got rest w0 w →
  ∃ w', receive qs w = Ret (tt, w')
    ∧ downloading n (got ++ concat qs) (drop (length (concat qs)) rest) w0 w'.
Proof.
  intros Hn. revert got rest w. induction qs as [|q qs IH]; intros got rest w Hq Hr Hd; cbn [concat receive] in *.
  { exists w. by rewrite app_nil_r, drop_0. }
  rewrite zlen_app in Hq. pose proof (zlen_nonneg (concat qs)).
  destruct (packet_run n got q rest w0 w) as (w1 & E1 & D1); [lia|lia|done..|].
  destruct (IH (got ++ q) (drop (length q) rest) w1) as (w2 & E2 & D2).
  - rewrite zlen_app. lia.
  - rewrite !zlen_app in *. unfold zlen in *. rewrite length_drop. lia.
  - done.
  - exists w2. rewrite (comp_bind_run _ _ _ _ _ E1). split; [done|].
    rewrite length_app, <- drop_drop, app_assoc. done.
Qed.

(** The packet that ends it; what it has more than is left is dropped. *)
Lemma last_packet n got p rest w0 w :
  n < 2 ^ 32 → zlen got < n ≤ zlen got + zlen p → n ≤ zlen (got ++ rest) → downloading n got rest w0 w →
  ∃ w', rx_handler_dl_image p w = Ret (tt, w') ∧ fb_machine w' = fb_machine w0
    ∧ fb_buffer w' = take (Z.to_nat n) (got ++ p) ++ drop (Z.to_nat n) (got ++ rest)
    ∧ download_bytes w' = n ∧ download_size w' = 0 ∧ responses w' = str "OKAY" :: responses w0.
Proof.
  intros Hn Hp Hr (Hm & Hb & Hd & Hs & Hl). rewrite zlen_app in Hr. pose proof (zlen_nonneg got).
  unfold rx_handler_dl_image, mbind, comp_bind, get_fb. rewrite Hb, Hd, Hs.
  rewrite (u32_small (n - zlen got)), Z.min_r by (unfold is_u32; lia).
  rewrite (u32_small (zlen got + (n - zlen got))) by (unfold is_u32; lia).
  set (k := Z.to_nat (n - zlen got)).
  pose proof (wr_app got (take k rest) (drop k rest) (take k p)
    ltac:(unfold zlen in *; rewrite !length_take; lia)) as Ew. rewrite take_drop in Ew. rewrite (lift_run _ _ _ Ew).
  rewrite (proj2 (Z.leb_le n _)) by lia.
  eexists. split; [reflexivity|]. cbn [fb_machine fb_buffer download_bytes download_size]. split_and!; [done| |lia|done|].
  - replace (Z.to_nat n) with (length got + k)%nat by (unfold zlen in *; lia).
    by rewrite take_app_add, drop_app_add, <- app_assoc.
  - unfold responses in *. cbn [fb_log omap list_omap response_of]. by rewrite Hl.
Qed.

Lemma download_start n (w : W) :
  0 < n → n ≤ ddr_size_usable → n < 2 ^ 32 →
  ∃ w', cb_download (str "download:" ++ hex_of_Z n) w = Ret (tt, w')
    ∧ downloading n [] (fb_buffer w) w' w' ∧ fb_machine w' = fb_machine w
    ∧ responses w' = (str "DATA" ++ hex08 n) :: responses w.
Proof.
  intros H0 Hu H32. unfold cb_download. change (strsep (str "download:" ++ hex_of_Z n) 58) with (Some (hex_of_Z n)).
  cbn [not_null_fb]. unfold mbind, comp_bind, mret, comp_ret, get_fb.
  rewrite simple_strtoul_hex by lia. cbn [fst]. rewrite (u32_small n) by (unfold is_u32; lia).
  rewrite (proj2 (Z.eqb_neq n 0)) by lia. rewrite Z.gtb_ltb, (proj2 (Z.ltb_ge _ _) Hu). cbn [set_download].
  match goal with |- context [expect_data ?w] => destruct (expect_data_run w) as (w' & -> & F & B & L & S & R) end.
  eexists. split; [reflexivity|]. cbn [fb_machine]. split_and!; [split_and!|by rewrite F|].
  - done.
  - by rewrite app_nil_l.
  - by cbn [download_bytes]; rewrite L.
  - by cbn [download_size]; rewrite S.
  - done.
  - unfold responses in *. cbn [fb_log omap list_omap response_of]. by rewrite R.
Qed.

Lemma download_run n qs p w :
  0 < n → n ≤ ddr_size_usable → n < 2 ^ 32 → n ≤ zlen (fb_buffer w) →
  zlen (concat qs) < n ≤ zlen (concat qs) + zlen p →
  let data := take (Z.to_nat n) (concat qs ++ p) in
  ∃ w', (cb_download (str "download:" ++ hex_of_Z n);; receive qs;; rx_handler_dl_image p) w = Ret (tt, w')
    ∧ downloaded w' = Ret (data, w') ∧ fb_buffer w' = data ++ drop (Z.to_nat n) (fb_buffer w)
    ∧ fb_machine w' = fb_machine w
    ∧ responses w' = str "OKAY" :: (str "DATA" ++ hex08 n) :: responses w.
Proof.
  intros H0 Hu H32 Hb Hp data.
  destruct (download_start n w H0 Hu H32) as (w1 & E1 & D1 & M1 & R1).
  destruct (packets_run n qs [] (fb_buffer w) w1 w1) as (w2 & E2 & D2); [done|rewrite zlen_nil; lia|done..|].
  rewrite app_nil_l in D2.
  destruct (last_packet n (concat qs) p (drop (length (concat qs)) (fb_buffer w)) w1 w2)
    as (w3 & E3 & M3 & B3 & L3 & S3 & R3); [lia|lia| |done|].
  { rewrite zlen_app. unfold zlen in *. rewrite length_drop. lia. }
  exists w3. rewrite (comp_bind_run _ _ _ _ _ E1), (comp_bind_run _ _ _ _ _ E2).
  assert (fb_buffer w3 = data ++ drop (Z.to_nat n) (fb_buffer w)) as B.
  { rewrite B3. unfold data. f_equal. rewrite skipn_app, skipn_all2 by (unfold zlen in *; lia).
    rewrite app_nil_l, skipn_skipn. f_equal. unfold zlen in *. lia. }
  split_and!; [done| |done|by rewrite M3|by rewrite R3, R1].
  unfold downloaded, mbind, comp_bind, get_fb. rewrite B, L3.
  assert (zlen data = n) as Hl by (unfold data, zlen in *; rewrite length_take, length_app; lia).
  set (rest := drop (Z.to_nat n) (fb_buffer w)). pose proof (zlen_nonneg rest).
  rewrite (lift_run _ _ _ (rd_ok (data ++ rest) 0 n ltac:(lia) ltac:(lia) ltac:(rewrite zlen_app, Hl; lia))).
  f_equal. f_equal. unfold slice. rewrite drop_0. rewrite take_app_le by (unfold zlen in *; lia). apply firstn_all2. unfold zlen in *. lia.
Qed.
(** A download of [n] bytes that comes in any packets ends with the packet
    that completes it, is answered with DATA and OKAY, and leaves its bytes at the
    start of the buffer, where the next command finds them; what the last packet
    has too much is dropped, and no byte of the memory behind is written. *)
Theorem download_stores n qs p w :
  0 < n → n ≤ ddr_size_usable → n < 2 ^ 32 → n ≤ zlen (fb_buffer w) →
  zlen (concat qs) < n ≤ zlen (concat qs) + zlen p →
  let data := take (Z.to_nat n) (concat qs ++ p) in
  ∃ w', (cb_download (str "download:" ++ hex_of_Z n);; receive qs;; rx_handler_dl_image p) w = Ret (tt, w')
    ∧ downloaded w' = Ret (data, w') ∧ fb_buffer w' = data ++ drop (Z.to_nat n) (fb_buffer w)
    ∧ fb_machine w' = fb_machine w
    ∧ responses w' = str "OKAY" :: (str "DATA" ++ hex08 n) :: responses w.
Proof. apply download_run. Qed.
End Download.

#[local] Existing Instance FastbootSpec.demo_fastboot.
Lemma download_stores_witness :
  let w := mkFastboot (demo_machine []) (replicate 6 0) 0 0 [] 0 [] : Fastboot unit demo_world in
  ∃ w', (cb_download (str "download:" ++ hex_of_Z 5);; receive [[1; 2]; [3]];; rx_handler_dl_image [4; 5; 6]) w
        = Ret (tt, w')
    ∧ downloaded w' = Ret ([1; 2; 3; 4; 5], w') ∧ fb_buffer w' = [1; 2; 3; 4; 5; 0]
    ∧ fb_machine w' = fb_machine w ∧ responses w' = [str "OKAY"; str "DATA00000005"].
Proof.
  intros w. exact (download_stores (H := FastbootSpec.demo_fastboot) 5 [[1; 2]; [3]] [4; 5; 6] w ltac:(lia) ltac:(by vm_compute) ltac:(lia)
    ltac:(by vm_compute) ltac:(split; by vm_compute)).
Defined.
