(* ===== verification/MmcBlock.v ===== *)
(** * Blocks of the eMMC

    [drivers/mmc/mmc_write.c] and the reading half of [drivers/mmc/mmc.c]:
    reading, writing and erasing blocks by commands to the card, and the guard
    of the key area.  The board is built without [MMC_CMD23], [MMC_HS400_MODE]
    and SPI hosts, and with [CONFIG_STORE_COMPATIBLE]. *)

From S2P Require Import Prelude.

(** ** Commands *)

Definition MMC_CMD_STOP_TRANSMISSION : Z := 12.
Definition MMC_CMD_SEND_STATUS : Z := 13.
Definition MMC_CMD_SET_BLOCKLEN : Z := 16.
Definition MMC_CMD_READ_SINGLE_BLOCK : Z := 17.
Definition MMC_CMD_READ_MULTIPLE_BLOCK : Z := 18.
Definition MMC_CMD_WRITE_SINGLE_BLOCK : Z := 24.
Definition MMC_CMD_WRITE_MULTIPLE_BLOCK : Z := 25.
Definition MMC_CMD_ERASE_GROUP_START : Z := 35.
Definition MMC_CMD_ERASE_GROUP_END : Z := 36.
Definition MMC_CMD_ERASE : Z := 38.
Definition SD_CMD_ERASE_WR_BLK_START : Z := 32.
Definition SD_CMD_ERASE_WR_BLK_END : Z := 33.
Definition SECURE_ERASE : Z := 0x80000000.

Definition MMC_STATUS_MASK : Z := u32 (Z.lnot 0x0206BF7F).
Definition MMC_STATUS_SWITCH_ERROR : Z := 0x80.
Definition MMC_STATUS_RDY_FOR_DATA : Z := 0x100.
Definition MMC_STATUS_CURR_STATE : Z := 0x1E00.
Definition MMC_STATE_PRG : Z := 0xE00.

Definition COMM_ERR : Z := -18.
Definition TIMEOUT : Z := -19.
Definition SWITCH_ERR : Z := -21.

Definition MMC_BLOCK_SIZE : Z := 512.
Definition DISPROTECT_KEY : Z := 1.

Record mmc_cmd := mkCmd {
  cmdidx : Z;
  cmdarg : Z;
}.

(** The buffer a command comes with. *)
Inductive mmc_data :=
| NoData
| WriteData (src : bytes)
| ReadData (len : Z).

(** What the host controller returns: an error, the first response word and the
    data read. *)
Record mmc_reply := mkReply {
  err : Z;
  response : Z;
  dest : bytes;
}.

Class MmcHost (V : Type) := send_cmd : mmc_cmd → mmc_data → V → mmc_reply * V.

(** What the driver knows about the card. *)
Record mmc := mkMmc {
  dev : Z;
  high_capacity : bool;
  is_sd : bool;
  ddr_mode : bool;
  aml_is_emmc_tsd : bool;
  rca : Z;
  read_bl_len : Z;
  write_bl_len : Z;
  erase_grp_size : Z;
  b_max : Z;
  lba : Z;
  capacity : Z;
}.

Section Mmc.
Context {V : Type} `{MmcHost V} `{Heap V}.

(** The registered cards, the place and size in bytes of the key area, and the
    flags that lift its protection. *)
Context (mmc_devices : list mmc) (key_area : option (Z * Z)) (info_disprotect : Z).

Definition find_mmc_device (dev_num : Z) : option mmc :=
  List.find (fun m => dev m =? dev_num) mmc_devices.

Definition emmckey_is_access_range_legal (m : mmc) (start blkcnt : Z) : run bool :=
  if aml_is_emmc_tsd m then
    match key_area with
    | None => Crash NullDeref
    | Some (key_glb_offset, size) =>
        let key_start_blk := key_glb_offset / MMC_BLOCK_SIZE in
        let key_end_blk := u64 (u64 (key_glb_offset + size) / MMC_BLOCK_SIZE - 1) in
        if Z.land info_disprotect DISPROTECT_KEY =? 0 then
          mret (negb ((key_start_blk <=? u64 (start + blkcnt - 1)) && (start <=? key_end_blk)
                      && negb (blkcnt =? start)))
        else mret true
    end
  else mret true.

Definition mmc_send_cmd (cmd : mmc_cmd) (data : mmc_data) : comp V mmc_reply := fun v =>
  Ret (send_cmd cmd data v).

(** The loop of [mmc_send_status]; [timeout] counts the passes that are left. *)
Fixpoint send_status_from (cmd : mmc_cmd) (timeout : nat) (retries : Z) : comp V Z :=
  r ← mmc_send_cmd cmd NoData;
  if err r =? 0 then
    if negb (Z.land (response r) MMC_STATUS_RDY_FOR_DATA =? 0)
       && negb (Z.land (response r) MMC_STATUS_CURR_STATE =? MMC_STATE_PRG) then
      match timeout with
      | O => mret TIMEOUT
      | _ => mret (if Z.land (response r) MMC_STATUS_SWITCH_ERROR =? 0 then 0 else SWITCH_ERR)
      end
    else if negb (Z.land (response r) MMC_STATUS_MASK =? 0) then mret COMM_ERR
    else match timeout with
         | O => mret TIMEOUT
         | S timeout => send_status_from cmd timeout retries
         end
  else if retries - 1 <? 0 then mret (err r)
  else match timeout with
       | O => mret TIMEOUT
       | S timeout => send_status_from cmd timeout (retries - 1)
       end.
Definition mmc_send_status (m : mmc) (timeout : nat) : comp V Z :=
  send_status_from (mkCmd MMC_CMD_SEND_STATUS (u32 (Z.shiftl (rca m) 16))) timeout 5.

Definition mmc_set_blocklen (m : mmc) (len : Z) : comp V Z :=
  if ddr_mode m then mret 0
  else r ← mmc_send_cmd (mkCmd MMC_CMD_SET_BLOCKLEN (u32 len)) NoData; mret (err r).

(** Blocks are addressed by number on a card of high capacity, by byte on others. *)
Definition block_arg (m : mmc) (start len : Z) : Z :=
  u32 (if high_capacity m then start else u64 (start * len)).

(** ** Reading *)

Fixpoint read_attempts (retries : nat) (m : mmc) (start blkcnt : Z) : comp V (Z * bytes) :=
  let idx := if 1 <? blkcnt then MMC_CMD_READ_MULTIPLE_BLOCK else MMC_CMD_READ_SINGLE_BLOCK in
  r ← mmc_send_cmd (mkCmd idx (block_arg m start (read_bl_len m)))
        (ReadData (u32 blkcnt * read_bl_len m));
  stop ← (if 1 <? blkcnt
          then s ← mmc_send_cmd (mkCmd MMC_CMD_STOP_TRANSMISSION 0) NoData; mret (err s)
          else mret 0);
  if (err r =? 0) && (stop =? 0) then mret (blkcnt, dest r)
  else match retries with
       | O => mret (0, [])
       | S retries => read_attempts retries m start blkcnt
       end.
Definition mmc_read_blocks (m : mmc) (start blkcnt : Z) : comp V (Z * bytes) :=
  read_attempts 5 m start blkcnt.

(** The do-while loop of [mmc_bread]: what has been read so far grows. *)
Fixpoint bread_from (fuel : nat) (m : mmc) (start blocks_todo : Z) (dst : bytes) : comp V (option bytes) :=
  match fuel with
  | O => fun _ => Crash NoFuel
  | S fuel =>
      let cur := if b_max m <? blocks_todo then b_max m else blocks_todo in
      r ← mmc_read_blocks m start cur;
      if negb (r.1 =? cur) then mret None else
      let blocks_todo := u64 (blocks_todo - cur) in
      if 0 <? blocks_todo then bread_from fuel m (u64 (start + cur)) blocks_todo (dst ++ r.2)
      else mret (Some (dst ++ r.2))
  end.

(** The passes of the loops over blocks. *)
Definition passes (m : mmc) (blkcnt : Z) : nat := S (Z.to_nat (blkcnt / b_max m)).

Definition mmc_bread (dev_num start blkcnt : Z) : comp V (Z * bytes) :=
  if blkcnt =? 0 then mret (0, []) else
  match find_mmc_device dev_num with
  | None => mret (0, [])
  | Some m =>
      if lba m <? u64 (start + blkcnt) then mret (0, []) else
      legal ← lift (emmckey_is_access_range_legal m start blkcnt);
      if negb legal then mret (0, []) else
      e ← mmc_set_blocklen m (read_bl_len m);
      if negb (e =? 0) then mret (0, []) else
      r ← bread_from (passes m blkcnt) m start blkcnt [];
      mret (match r with Some dst => (blkcnt, dst) | None => (0, []) end)
  end.

(** ** Writing *)

Definition mmc_write_blocks (m : mmc) (start blkcnt : Z) (src : bytes) : comp V Z :=
  if lba m <? u64 (start + blkcnt) then mret 0 else
  if blkcnt =? 0 then mret 0 else
  let idx := if blkcnt =? 1 then MMC_CMD_WRITE_SINGLE_BLOCK else MMC_CMD_WRITE_MULTIPLE_BLOCK in
  data ← lift (rd src 0 (u32 blkcnt * write_bl_len m));
  r ← mmc_send_cmd (mkCmd idx (block_arg m start (write_bl_len m))) (WriteData data);
  stop ← (if 1 <? blkcnt
          then s ← mmc_send_cmd (mkCmd MMC_CMD_STOP_TRANSMISSION 0) NoData; mret (err s)
          else mret 0);
  if negb (stop =? 0) then mret 0 else
  if negb (err r =? 0) then mret 0 else
  e ← mmc_send_status m 1000;
  mret (if negb (e =? 0) then 0 else blkcnt).

Fixpoint bwrite_from (fuel : nat) (m : mmc) (start blocks_todo : Z) (src : bytes) : comp V bool :=
  match fuel with
  | O => fun _ => Crash NoFuel
  | S fuel =>
      let cur := if b_max m <? blocks_todo then b_max m else blocks_todo in
      n ← mmc_write_blocks m start cur src;
      if negb (n =? cur) then mret false else
      let blocks_todo := u64 (blocks_todo - cur) in
      if 0 <? blocks_todo
      then bwrite_from fuel m (u64 (start + cur)) blocks_todo (drop (Z.to_nat (cur * write_bl_len m)) src)
      else mret true
  end.

(** The number of blocks written, all or none. *)
Definition mmc_bwrite (dev_num start blkcnt : Z) (src : bytes) : comp V Z :=
  match find_mmc_device dev_num with
  | None => mret 0
  | Some m =>
      legal ← lift (emmckey_is_access_range_legal m start blkcnt);
      if negb legal then mret 0 else
      e ← mmc_set_blocklen m (write_bl_len m);
      if negb (e =? 0) then mret 0 else
      ok ← bwrite_from (passes m blkcnt) m start blkcnt src;
      mret (if ok : bool then blkcnt else 0)
  end.

(** ** Erasing *)

Definition mmc_erase_t (m : mmc) (start blkcnt : Z) : comp V Z :=
  let last := block_arg m (u64 (start + blkcnt - 1)) (write_bl_len m) in
  let start := block_arg m start (write_bl_len m) in
  let '(start_cmd, end_cmd) :=
    if is_sd m then (SD_CMD_ERASE_WR_BLK_START, SD_CMD_ERASE_WR_BLK_END)
    else (MMC_CMD_ERASE_GROUP_START, MMC_CMD_ERASE_GROUP_END) in
  r ← mmc_send_cmd (mkCmd start_cmd start) NoData;
  if negb (err r =? 0) then mret (err r) else
  r ← mmc_send_cmd (mkCmd end_cmd last) NoData;
  if negb (err r =? 0) then mret (err r) else
  r ← mmc_send_cmd (mkCmd MMC_CMD_ERASE SECURE_ERASE) NoData;
  mret (err r).

Definition mmc_berase_becalled (dev_num start blkcnt : Z) : comp V Z :=
  match find_mmc_device dev_num with
  | None => mret (u64 (-1))
  | Some m =>
      e ← mmc_erase_t m start blkcnt;
      if negb (s32 e =? 0) then mret 1 else
      e ← mmc_send_status m 1000;
      mret (if negb (e =? 0) then 1 else 0)
  end.

(** The size of the buffer has 32 bits. *)
Definition mmc_zero_out (dev_num blk_addr num_blks : Z) : comp V Z :=
  let erase_size := u32 (512 * num_blks) in
  out ← malloc erase_size;
  if negb out then mret 1 else
  n ← mmc_bwrite dev_num blk_addr num_blks (replicate (Z.to_nat erase_size) 0);
  mret (if negb (n =? num_blks) then 1 else 0).

(** Whole groups, from an aligned [start] on, and what is left by writing zeros. *)
Definition erase_aligned (dev_num erase_unit_sz start blkcnt : Z) : comp V Z :=
  let unaligned_blks := u32 (blkcnt mod erase_unit_sz) in
  let blks_to_erase := u64 (blkcnt - unaligned_blks) in
  bad ← mmc_berase_becalled dev_num start blks_to_erase;
  if negb (bad =? 0) then mret 1 else
  let start := u64 (start + blks_to_erase) in
  if negb (unaligned_blks =? 0) then
    bad ← mmc_zero_out dev_num (u32 start) unaligned_blks;
    mret (if negb (bad =? 0) then 1 else 0)
  else mret 0.

(** Whether a range lies in at most two groups. *)
Definition few_groups (erase_unit_sz start blkcnt : Z) : bool :=
  let head_unit := u32 (start / erase_unit_sz) in
  let tail_unit := u32 (u64 (start + blkcnt - 1) / erase_unit_sz) in
  u32 (tail_unit - head_unit) <=? 1.

Definition erase_range (dev_num erase_unit_sz start blkcnt : Z) : comp V Z :=
  if few_groups erase_unit_sz start blkcnt then mmc_zero_out dev_num (u32 start) (u32 blkcnt) else
  let unaligned_blks := u32 (erase_unit_sz - start mod erase_unit_sz) in
  if unaligned_blks <? erase_unit_sz then
    bad ← mmc_zero_out dev_num (u32 start) unaligned_blks;
    if negb (bad =? 0) then mret 1 else
    let start := u64 (start + unaligned_blks) in
    let blkcnt := u64 (blkcnt - unaligned_blks) in
    if few_groups erase_unit_sz start blkcnt then mmc_zero_out dev_num (u32 start) (u32 blkcnt)
    else erase_aligned dev_num erase_unit_sz start blkcnt
  else erase_aligned dev_num erase_unit_sz start blkcnt.

(** A count of zero stands for the whole card. *)
Definition mmc_berase (dev_num start blkcnt : Z) : comp V Z :=
  match find_mmc_device dev_num with
  | None => mret 0
  | Some m =>
      legal ← lift (emmckey_is_access_range_legal m start blkcnt);
      if negb legal then mret blkcnt else
      if erase_grp_size m =? 0 then (fun _ => Crash Aborted) else
      if blkcnt =? 0 then
        let blkcnt := u64 (capacity m / 512 - (capacity m / 512) mod erase_grp_size m) in
        bad ← mmc_berase_becalled dev_num start blkcnt;
        if negb (bad =? 0) then mret 1
        else erase_range dev_num (erase_grp_size m) start blkcnt
      else erase_range dev_num (erase_grp_size m) start blkcnt
  end.
End Mmc.

(** ** The reserved area *)

Section Reserved.
Context {V : Type} `{MmcHost V} `{Heap V}.
Context (mmc_devices : list mmc) (key_area : option (Z * Z)).

Definition EMMC_DTB_DEV : Z := 1.

(** An area is its offset on the card and its size.  Reading returns the
    buffer as well. *)
Definition mmc_reserved_read (info_disprotect : Z) (area : option (Z * Z)) (size : Z) : comp V (Z * bytes) :=
  match area with
  | None => null_deref
  | Some (start, _) =>
      let start_blk := start / MMC_BLOCK_SIZE in
      let blkcnt := size / MMC_BLOCK_SIZE in
      r ← mmc_bread mmc_devices key_area info_disprotect EMMC_DTB_DEV start_blk blkcnt;
      mret (if negb (r.1 =? blkcnt) then (1, r.2) else (0, r.2))
  end.

(** Two copies, one behind the other. *)
Definition mmc_reserved_write (info_disprotect : Z) (area : option (Z * Z)) (buf : bytes) (size : Z)
    : comp V Z :=
  match area with
  | None => null_deref
  | Some (start, vsize) =>
      let start_blk := start / MMC_BLOCK_SIZE in
      let blkcnt := size / MMC_BLOCK_SIZE in
      ret ← mmc_bwrite mmc_devices key_area info_disprotect EMMC_DTB_DEV start_blk blkcnt buf;
      if negb (ret =? blkcnt) then mret 1 else
      let start_blk := u64 (start_blk + vsize / MMC_BLOCK_SIZE) in
      ret ← mmc_bwrite mmc_devices key_area info_disprotect EMMC_DTB_DEV start_blk blkcnt buf;
      mret (if negb (ret =? blkcnt) then 1 else 0)
  end.

Definition mmc_reserved_erase (info_disprotect : Z) (area : option (Z * Z)) (number : Z) : comp V Z :=
  match area with
  | None => null_deref
  | Some (start, vsize) =>
      let start_blk := start / MMC_BLOCK_SIZE in
      let blkcnt := u64 (vsize / MMC_BLOCK_SIZE * number) in
      ret ← mmc_berase mmc_devices key_area info_disprotect EMMC_DTB_DEV start_blk blkcnt;
      mret (if negb (ret =? 0) then 1 else 0)
  end.

(** The key area with its protection lifted; the flags are returned as well. *)
Definition lifted (info_disprotect : Z) : Z := Z.lor info_disprotect DISPROTECT_KEY.
Definition lowered (info_disprotect : Z) : Z := Z.ldiff info_disprotect DISPROTECT_KEY.

Definition mmc_key_read (info_disprotect size : Z) : comp V (Z * bytes * Z * Z) :=
  r ← mmc_reserved_read (lifted info_disprotect) key_area size;
  let actual_lenth := 0x40000 in
  mret (r, actual_lenth, lowered (lifted info_disprotect)).
Definition mmc_key_write (info_disprotect : Z) (buf : bytes) (size : Z) : comp V (Z * Z) :=
  r ← mmc_reserved_write (lifted info_disprotect) key_area buf size;
  mret (r, lowered (lifted info_disprotect)).
Definition mmc_key_erase (info_disprotect : Z) : comp V (Z * Z) :=
  r ← mmc_reserved_erase (lifted info_disprotect) key_area 2;
  mret (r, lowered (lifted info_disprotect)).
End Reserved.

(** ** Cards *)

(** A disk with [s] at [off]. *)
Definition over (d : Z → Z) (off : Z) (s : bytes) : Z → Z := fun a =>
  if (off <=? a) && (a <? off + zlen s) then s !!! Z.to_nat (a - off) else d a.

Lemma over_in d off s a : off ≤ a < off + zlen s → over d off s a = s !!! Z.to_nat (a - off).
Proof. intros Ha. unfold over. by rewrite (proj2 (Z.leb_le _ _)), (proj2 (Z.ltb_lt _ _)) by lia. Qed.
Lemma over_out d off s a : ¬ (off ≤ a < off + zlen s) → over d off s a = d a.
Proof.
  intros Ha. unfold over. destruct (Z.leb_spec off a), (Z.ltb_spec a (off + zlen s)); try done. lia.
Qed.
Lemma over_app d off s t a : over d off (s ++ t) a = over (over d off s) (off + zlen s) t a.
Proof.
  pose proof (zlen_nonneg s). pose proof (zlen_nonneg t).
  destruct (decide (off ≤ a < off + zlen s)) as [Hs|Hs].
  { rewrite over_in by (rewrite zlen_app; lia). rewrite over_out by lia. rewrite over_in by lia.
    apply lookup_total_app_l. unfold zlen in *. lia. }
  destruct (decide (off + zlen s ≤ a < off + zlen s + zlen t)) as [Ht|Ht].
  - rewrite over_in by (rewrite zlen_app; lia). rewrite over_in by lia.
    rewrite lookup_total_app_r by (unfold zlen in *; lia). f_equal. unfold zlen in *. lia.
  - rewrite over_out by (rewrite zlen_app; lia). rewrite over_out by lia. by rewrite over_out by lia.
Qed.
Lemma over_ext d d' off s a : (∀ a, d a = d' a) → over d off s a = over d' off s a.
Proof. intros Hd. unfold over. by destruct (_ && _). Qed.

(** What is known of a card: a command changes only the blocks it is about, and
    does what it says when it succeeds.  An erase clears whole groups. *)
Class CardLaws (V : Type) `{MmcHost V} (unit : Z) := {
  disk : V → Z → Z;
  group_start : V → Z;
  group_end : V → Z;
  erased_byte : Z;
  card_write idx arg d v : idx = MMC_CMD_WRITE_SINGLE_BLOCK ∨ idx = MMC_CMD_WRITE_MULTIPLE_BLOCK →
    let '(r, v') := send_cmd (mkCmd idx arg) (WriteData d) v in
    (∀ a, ¬ (arg * 512 ≤ a < arg * 512 + zlen d) → disk v' a = disk v a)
    ∧ (err r = 0 → ∀ a, disk v' a = over (disk v) (arg * 512) d a);
  card_read idx arg n v : idx = MMC_CMD_READ_SINGLE_BLOCK ∨ idx = MMC_CMD_READ_MULTIPLE_BLOCK →
    let '(r, v') := send_cmd (mkCmd idx arg) (ReadData n) v in
    (∀ a, disk v' a = disk v a)
    ∧ (err r = 0 → dest r = (fun i => disk v (arg * 512 + Z.of_nat i)) <$> seq 0 (Z.to_nat n));
  card_start s v :
    let '(r, v') := send_cmd (mkCmd MMC_CMD_ERASE_GROUP_START s) NoData v in
    (∀ a, disk v' a = disk v a) ∧ (err r = 0 → group_start v' = s);
  card_end e v :
    let '(r, v') := send_cmd (mkCmd MMC_CMD_ERASE_GROUP_END e) NoData v in
    (∀ a, disk v' a = disk v a) ∧ group_start v' = group_start v ∧ (err r = 0 → group_end v' = e);
  card_erase arg v :
    let '(r, v') := send_cmd (mkCmd MMC_CMD_ERASE arg) NoData v in
    let first := group_start v / unit * unit in
    let next := (group_end v / unit + 1) * unit in
    (∀ a, ¬ (first * 512 ≤ a < next * 512) → disk v' a = disk v a)
    ∧ (err r = 0 → ∀ a, first * 512 ≤ a < next * 512 → disk v' a = erased_byte);
  card_other idx arg v :
    idx = MMC_CMD_STOP_TRANSMISSION ∨ idx = MMC_CMD_SEND_STATUS ∨ idx = MMC_CMD_SET_BLOCKLEN →
    let '(r, v') := send_cmd (mkCmd idx arg) NoData v in ∀ a, disk v' a = disk v a;
}.

(** ** Reading and writing *)

Section Blocks.
Context {V : Type} `{MmcHost V} `{Heap V} (m : mmc) `{!CardLaws V (erase_grp_size m)}.
Context (key_area : option (Z * Z)) (info_disprotect : Z).
Context (heap_disk : ∀ n v a, disk (heap_alloc n v).2 a = disk v a).

(** An eMMC with blocks of 512 bytes. *)
Record emmc : Prop := {
  emmc_high : high_capacity m = true;
  emmc_mmc : is_sd m = false;
  emmc_read_len : read_bl_len m = 512;
  emmc_write_len : write_bl_len m = 512;
  emmc_b_max : 0 < b_max m < 2 ^ 32;
  emmc_lba : 0 ≤ lba m ≤ 2 ^ 32;
  emmc_unit : 0 < erase_grp_size m < 2 ^ 32;
}.
Context (card : emmc).
Context (devs : list mmc) (dev_num : Z) (found : find_mmc_device devs dev_num = Some m).

(** The disk is the same. *)
Definition same_disk (v v' : V) : Prop := ∀ a, disk v' a = disk v a.
#[export] Instance same_disk_preorder : PreOrder same_disk.
Proof. split; [by intros v a|]. intros v1 v2 v3 H1 H2 a. by rewrite H2, H1. Qed.

(** The disk is the same outside of some bytes. *)
Definition outside (lo hi : Z) (v v' : V) : Prop := ∀ a, ¬ (lo ≤ a < hi) → disk v' a = disk v a.
#[export] Instance outside_preorder lo hi : PreOrder (outside lo hi).
Proof. split; [by intros v a|]. intros v1 v2 v3 H1 H2 a Ha. by rewrite H2, H1. Qed.
Lemma outside_wider lo hi lo' hi' v v' : lo' ≤ lo → hi ≤ hi' → outside lo hi v v' → outside lo' hi' v v'.
Proof. intros Hlo Hhi Ho a Ha. apply Ho. lia. Qed.
Lemma same_outside lo hi v v' : same_disk v v' → outside lo hi v v'.
Proof. intros Hs a _. apply Hs. Qed.

Lemma send_same idx arg :
  idx = MMC_CMD_STOP_TRANSMISSION ∨ idx = MMC_CMD_SEND_STATUS ∨ idx = MMC_CMD_SET_BLOCKLEN →
  preserves same_disk (mmc_send_cmd (mkCmd idx arg) NoData).
Proof.
  intros Hi v r v' [= E]. pose proof (card_other idx arg v Hi) as Hc. by rewrite E in Hc.
Qed.
Lemma status_same : preserves same_disk (mmc_send_status m 1000).
Proof.
  unfold mmc_send_status. generalize 1000%nat, 5. intros n. induction n as [|n IH]; intros k;
    cbn [send_status_from]; preserve; try (apply send_same; tauto); apply IH.
Qed.
Lemma stop_same blkcnt : preserves same_disk
  (if 1 <? blkcnt then s ← mmc_send_cmd (mkCmd MMC_CMD_STOP_TRANSMISSION 0) NoData; mret (err s)
   else mret 0).
Proof. preserve. apply send_same. tauto. Qed.
Lemma blocklen_same len : preserves same_disk (mmc_set_blocklen m len).
Proof. unfold mmc_set_blocklen. preserve. apply send_same. tauto. Qed.
#[local] Hint Resolve status_same stop_same blocklen_same : preserves.
Lemma status_eq : mmc_send_status m 1000
  = send_status_from (mkCmd MMC_CMD_SEND_STATUS (u32 (Z.shiftl (rca m) 16))) 1000 5.
Proof. done. Qed.
#[local] Opaque mmc_send_status.

Lemma block_arg_small start : 0 ≤ start < 2 ^ 32 → block_arg m start 512 = start.
Proof. intros Hs. unfold block_arg. rewrite (emmc_high card). apply u32_small. split; lia. Qed.

(** A write of some blocks touches only those, and has stored them when it says
    so. *)
Lemma write_blocks_sound start n src v k v' :
  0 ≤ start → 0 < n < 2 ^ 32 → start + n < 2 ^ 64 →
  mmc_write_blocks m start n src v = Ret (k, v') →
  outside (start * 512) ((start + n) * 512) v v'
  ∧ (k ≠ 0 → k = n ∧ n * 512 ≤ zlen src ∧ start + n ≤ lba m
      ∧ ∀ a, disk v' a = over (disk v) (start * 512) (slice src 0 (n * 512)) a).
Proof.
  intros Hs Hn Hw E. unfold mmc_write_blocks in E. rewrite u64_small in E by (split; lia).
  destruct (Z.ltb_spec (lba m) (start + n)) as [|Hl]; [run_inv; simplify_eq; split; [done|lia]|].
  destruct (Z.eqb_spec n 0); [lia|]. pose proof (emmc_lba card).
  rewrite (emmc_write_len card), u32_small, block_arg_small in E by (try split; lia).
  apply comp_bind_Ret in E as (d & v1 & (? & Hd & [= <- ->])%lift_Ret & E).
  apply rd_Ret in Hd as (_ & _ & Hsrc & ->). set (data := slice src 0 (n * 512)) in *.
  assert (Hdata : zlen data = n * 512).
  { unfold data, slice, zlen in *. rewrite length_take, length_drop. lia. }
  set (idx := if n =? 1 then _ else _) in E.
  apply comp_bind_Ret in E as (r & v2 & [= Er] & E).
  assert (Hidx : idx = MMC_CMD_WRITE_SINGLE_BLOCK ∨ idx = MMC_CMD_WRITE_MULTIPLE_BLOCK)
    by (unfold idx; destruct (n =? 1); auto).
  pose proof (card_write idx start data v Hidx) as Hc. rewrite Er in Hc. destruct Hc as [Hout Hin].
  apply comp_bind_Ret in E as (stop & v3 & Es & E). apply stop_same in Es.
  assert (Ho : outside (start * 512) ((start + n) * 512) v v2).
  { intros a Ha. apply Hout. lia. }
  destruct (Z.eqb_spec stop 0) as [->|]; cbn [negb] in E;
    [|run_inv; simplify_eq; split; [etrans; [done|by apply same_outside]|done]].
  destruct (Z.eqb_spec (err r) 0) as [He|]; cbn [negb] in E;
    [|run_inv; simplify_eq; split; [etrans; [done|by apply same_outside]|done]].
  apply comp_bind_Ret in E as (e & v4 & Et & E). apply status_same in Et. run_inv. simplify_eq.
  assert (Hsame : same_disk v2 v4) by by etrans.
  split; [etrans; [done|by apply same_outside]|]. destruct (e =? 0); cbn [negb]; [|done].
  intros _. split_and!; [done..|]. intros a. by rewrite Hsame, Hin.
Qed.

(** The first blocks of a longer write. *)
Definition first_blocks (todo : Z) : Z := if b_max m <? todo then b_max m else todo.
Lemma first_blocks_bounds todo : 0 < todo →
  0 < first_blocks todo ≤ todo ∧ first_blocks todo < 2 ^ 32 ∧ first_blocks todo ≤ b_max m.
Proof. intros Ht. pose proof (emmc_b_max card). unfold first_blocks. destruct (Z.ltb_spec (b_max m) todo); lia. Qed.

Lemma slice_split_drop (src : bytes) a b : 0 ≤ a → 0 ≤ b →
  slice src 0 (a + b) = slice src 0 a ++ slice (drop (Z.to_nat a) src) 0 b.
Proof.
  intros Ha Hb. unfold slice. rewrite !drop_0, Z2Nat.inj_add by done.
  rewrite <- (take_drop (Z.to_nat a) (take (Z.to_nat a + Z.to_nat b) src)) at 1.
  rewrite take_take, Nat.min_l by lia. by rewrite skipn_firstn_comm, Nat.add_comm, Nat.add_sub.
Qed.

Lemma bwrite_from_sound fuel start todo src v ok v' :
  0 ≤ start → 0 < todo → start + todo < 2 ^ 64 →
  bwrite_from fuel m start todo src v = Ret (ok, v') →
  outside (start * 512) ((start + todo) * 512) v v'
  ∧ (ok = true → todo * 512 ≤ zlen src ∧ start + todo ≤ lba m
      ∧ ∀ a, disk v' a = over (disk v) (start * 512) (slice src 0 (todo * 512)) a).
Proof.
  revert start todo src v. induction fuel as [|fuel IH]; intros start todo src v Hs Ht Hw E; [done|].
  cbn [bwrite_from] in E. fold (first_blocks todo) in E.
  destruct (first_blocks_bounds todo Ht) as (Hc1 & Hc2 & Hc3). set (cur := first_blocks todo) in *.
  apply comp_bind_Ret in E as (n & v1 & E1 & E).
  apply write_blocks_sound in E1 as [Hout Hin]; [|lia..].
  destruct (Z.eqb_spec n cur) as [->|]; cbn [negb] in E;
    [|run_inv; simplify_eq; split; [eapply outside_wider; [..|done]; lia|done]].
  destruct (Hin ltac:(lia)) as (_ & Hsrc & Hlba & Hdisk). rewrite u64_small in E by (split; lia).
  destruct (Z.ltb_spec 0 (todo - cur)) as [Hmore|Hend].
  - rewrite u64_small in E by (split; lia). rewrite (emmc_write_len card) in E.
    apply IH in E as [Hout' Hin']; [|lia..]. split.
    + etrans; (eapply outside_wider; [..|done]; lia).
    + intros Hok. destruct (Hin' Hok) as (Hsrc' & Hlba' & Hdisk').
      unfold zlen in Hsrc, Hsrc'. rewrite length_drop in Hsrc'. unfold zlen.
      split; [lia|]. split; [lia|]. intros a. rewrite Hdisk', (over_ext _ _ _ _ _ Hdisk).
      replace (todo * 512) with (cur * 512 + (todo - cur) * 512) by lia. rewrite slice_split_drop by lia.
      rewrite over_app. f_equal. rewrite (zlen_slice src 0) by (unfold zlen; lia). lia.
  - run_inv. simplify_eq. replace cur with todo in * by lia. by split.
Qed.

Notation bwrite := (mmc_bwrite devs key_area info_disprotect).
Notation bread := (mmc_bread devs key_area info_disprotect).
Notation legal := (emmckey_is_access_range_legal key_area info_disprotect m).

Lemma bwrite_sound start n src v k v' :
  0 ≤ start → 0 < n → start + n < 2 ^ 64 → bwrite dev_num start n src v = Ret (k, v') →
  outside (start * 512) ((start + n) * 512) v v'
  ∧ (k ≠ 0 → k = n ∧ legal start n = Ret true ∧ n * 512 ≤ zlen src ∧ start + n ≤ lba m
      ∧ ∀ a, disk v' a = over (disk v) (start * 512) (slice src 0 (n * 512)) a)
  ∧ (legal start n = Ret false → k = 0 ∧ v' = v).
Proof.
  intros Hs Hn Hw E. unfold mmc_bwrite in E. rewrite found in E.
  apply comp_bind_Ret in E as (l & v1 & (? & Hl & [= <- ->])%lift_Ret & E). rewrite Hl.
  destruct l; cbn [negb] in E; [|run_inv; by simplify_eq].
  apply comp_bind_Ret in E as (e & v2 & Eb & E). apply blocklen_same in Eb.
  destruct (Z.eqb_spec e 0); cbn [negb] in E;
    [|run_inv; simplify_eq; split_and!; [by apply same_outside|done|done]].
  apply comp_bind_Ret in E as (ok & v3 & Ew & E). run_inv. simplify_eq.
  apply bwrite_from_sound in Ew as [Hout Hin]; [|done..].
  split; [etrans; [by apply same_outside|done]|]. split; [|done].
  destruct ok; [|done]. intros _. destruct (Hin eq_refl) as (? & ? & Hd). split_and!; [done..|].
  intros a. rewrite Hd. by apply over_ext.
Qed.

(** Writing no blocks. *)
Lemma bwrite_zero start src v k v' :
  0 ≤ start < 2 ^ 64 → bwrite dev_num start 0 src v = Ret (k, v') → k = 0 ∧ same_disk v v'.
Proof.
  intros Hs E. unfold mmc_bwrite in E. rewrite found in E.
  apply comp_bind_Ret in E as (l & v1 & (? & Hl & [= <- ->])%lift_Ret & E).
  destruct l; cbn [negb] in E; [|run_inv; by simplify_eq].
  apply comp_bind_Ret in E as (e & v2 & Eb & E). apply blocklen_same in Eb.
  destruct (Z.eqb_spec e 0); cbn [negb] in E; [|run_inv; by simplify_eq].
  apply comp_bind_Ret in E as (ok & v3 & Ew & E). run_inv. simplify_eq. split; [by destruct ok|].
  etrans; [exact Eb|]. pose proof (emmc_b_max card). unfold passes in Ew. cbn [bwrite_from] in Ew.
  rewrite (proj2 (Z.ltb_ge (b_max m) 0)) in Ew by lia.
  assert (mmc_write_blocks m start 0 src v2 = Ret (0, v2)) as E0 by (unfold mmc_write_blocks; by destruct (lba m <? u64 (start + 0))).
  rewrite (comp_bind_run _ _ _ _ _ E0) in Ew. cbn [negb Z.eqb] in Ew. change (0 <? u64 (0 - 0)) with false in Ew. cbv iota in Ew. run_inv. by simplify_eq.
Qed.

(** *** A card that answers *)

Definition ready (r : mmc_reply) : Prop :=
  err r = 0 ∧ Z.land (response r) MMC_STATUS_RDY_FOR_DATA ≠ 0
  ∧ Z.land (response r) MMC_STATUS_CURR_STATE ≠ MMC_STATE_PRG
  ∧ Z.land (response r) MMC_STATUS_SWITCH_ERROR = 0.
Context (healthy : ∀ c d v, ready (send_cmd c d v).1).

Lemma send_ready c d v : ∃ r v', mmc_send_cmd c d v = Ret (r, v') ∧ ready r.
Proof. pose proof (healthy c d v) as Hr. unfold mmc_send_cmd. destruct (send_cmd c d v) as [r v']. by exists r, v'. Qed.

Lemma status_from_ready cmd n k v : ∃ v', send_status_from cmd (S n) k v = Ret (0, v').
Proof.
  destruct (send_ready cmd NoData v) as (r & v' & E & He & H1 & H2 & H3). exists v'.
  cbn [send_status_from]. rewrite (comp_bind_run _ _ _ _ _ E), He.
  apply Z.eqb_neq in H1, H2. by rewrite H1, H2, H3.
Qed.
Lemma status_ready v : ∃ v', mmc_send_status m 1000 v = Ret (0, v').
Proof. rewrite status_eq. apply status_from_ready. Qed.
Lemma stop_ready blkcnt v : ∃ v',
  (if 1 <? blkcnt then s ← mmc_send_cmd (mkCmd MMC_CMD_STOP_TRANSMISSION 0) NoData; mret (err s)
   else mret 0) v = Ret (0, v').
Proof.
  destruct (1 <? blkcnt); [|by exists v].
  destruct (send_ready (mkCmd MMC_CMD_STOP_TRANSMISSION 0) NoData v) as (r & v' & E & He & _).
  exists v'. rewrite (comp_bind_run _ _ _ _ _ E). by rewrite He.
Qed.
Lemma blocklen_ready len v : ∃ v', mmc_set_blocklen m len v = Ret (0, v').
Proof.
  unfold mmc_set_blocklen. destruct (ddr_mode m); [by exists v|].
  destruct (send_ready (mkCmd MMC_CMD_SET_BLOCKLEN (u32 len)) NoData v) as (r & v' & E & He & _).
  exists v'. rewrite (comp_bind_run _ _ _ _ _ E). by rewrite He.
Qed.

Lemma write_blocks_ready start n src v :
  0 ≤ start → 0 < n < 2 ^ 32 → start + n ≤ lba m → n * 512 ≤ zlen src →
  ∃ v', mmc_write_blocks m start n src v = Ret (n, v').
Proof.
  intros Hs Hn Hl Hsrc. pose proof (emmc_lba card). unfold mmc_write_blocks.
  rewrite u64_small by (split; lia). rewrite (proj2 (Z.ltb_ge _ _)) by lia.
  rewrite (proj2 (Z.eqb_neq n 0)) by lia. rewrite (emmc_write_len card), u32_small by (split; lia).
  rewrite (comp_bind_run _ _ _ _ _ (lift_run _ _ _ (rd_ok src 0 (n * 512) ltac:(lia) ltac:(lia) ltac:(lia)))).
  edestruct send_ready as (r & v1 & E1 & He & _). rewrite (comp_bind_run _ _ _ _ _ E1).
  destruct (stop_ready n v1) as (v2 & E2). rewrite (comp_bind_run _ _ _ _ _ E2). cbn [negb Z.eqb].
  rewrite He. cbn [negb Z.eqb]. destruct (status_ready v2) as (v3 & E3). exists v3.
  by rewrite (comp_bind_run _ _ _ _ _ E3).
Qed.

Lemma bwrite_from_ready fuel start todo src v :
  0 ≤ start → 0 < todo → start + todo ≤ lba m → todo * 512 ≤ zlen src → todo ≤ b_max m * Z.of_nat fuel →
  ∃ v', bwrite_from fuel m start todo src v = Ret (true, v').
Proof.
  pose proof (emmc_lba card) as Hlba.
  revert start todo src v. induction fuel as [|fuel IH]; intros start todo src v Hs Ht Hl Hsrc Hf; [lia|].
  cbn [bwrite_from]. fold (first_blocks todo). pose proof (first_blocks_bounds todo Ht) as (Hc1 & Hc2 & Hc3).
  destruct (write_blocks_ready start (first_blocks todo) src v) as (v1 & E1); [lia..|].
  rewrite (comp_bind_run _ _ _ _ _ E1), Z.eqb_refl. cbn [negb]. rewrite u64_small by (split; lia).
  destruct (Z.ltb_spec 0 (todo - first_blocks todo)) as [Hm|]; [|by exists v1].
  rewrite u64_small by (split; lia). rewrite (emmc_write_len card).
  assert (first_blocks todo = b_max m) as Hb by (unfold first_blocks in *; destruct (b_max m <? todo); lia).
  apply IH; rewrite ?zlen_drop by lia; lia.
Qed.

Lemma passes_enough n : 0 < n → n ≤ b_max m * Z.of_nat (passes m n).
Proof.
  intros Hn. pose proof (emmc_b_max card) as Hb. unfold passes.
  pose proof (Z.div_mod n (b_max m) ltac:(lia)). pose proof (Z.mod_pos_bound n (b_max m) ltac:(lia)).
  pose proof (Z.div_pos n (b_max m) ltac:(lia) ltac:(lia)). nia.
Qed.

(** Writing to a card that answers. *)
Lemma bwrite_ready start n src v :
  0 ≤ start → 0 < n → start + n ≤ lba m → n * 512 ≤ zlen src → legal start n = Ret true →
  ∃ v', bwrite dev_num start n src v = Ret (n, v')
    ∧ ∀ a, disk v' a = over (disk v) (start * 512) (slice src 0 (n * 512)) a.
Proof.
  intros Hs Hn Hl Hsrc Hk. pose proof (emmc_lba card).
  assert (∃ v', bwrite dev_num start n src v = Ret (n, v')) as (v' & E).
  { unfold mmc_bwrite. rewrite found. rewrite (comp_bind_run _ _ _ _ _ (lift_run _ _ _ Hk)). cbn [negb].
    destruct (blocklen_ready (write_bl_len m) v) as (v1 & E1). rewrite (comp_bind_run _ _ _ _ _ E1). cbn [negb Z.eqb].
    destruct (bwrite_from_ready (passes m n) start n src v1) as (v2 & E2); [lia..|by apply passes_enough|].
    exists v2. by rewrite (comp_bind_run _ _ _ _ _ E2). }
  exists v'. split; [done|]. apply bwrite_sound in E as (_ & Hin & _); [|lia..]. apply Hin. lia.
Qed.

(** *** Reading *)

(** The bytes from [lo] on. *)
Definition image (v : V) (lo n : Z) : bytes :=
  (fun i => disk v (lo + Z.of_nat i)) <$> seq 0 (Z.to_nat n).

Lemma image_app v lo a b : 0 ≤ a → 0 ≤ b → image v lo (a + b) = image v lo a ++ image v (lo + a) b.
Proof.
  intros Ha Hb. unfold image. rewrite Z2Nat.inj_add, seq_app, fmap_app by done. f_equal.
  apply list_eq. intros i. rewrite !list_lookup_fmap. destruct (decide (i < Z.to_nat b)%nat) as [Hi|Hi].
  - rewrite !lookup_seq_lt by done. cbn. do 2 f_equal. lia.
  - by rewrite !lookup_seq_ge by lia.
Qed.
Lemma image_same v v' lo n : same_disk v v' → image v' lo n = image v lo n.
Proof. intros Hs. unfold image. apply list_fmap_ext. intros i x _. apply Hs. Qed.
Lemma image_over v lo s d : (∀ a, disk v a = over d lo s a) → image v lo (zlen s) = s.
Proof.
  intros Hd. unfold image, zlen. rewrite Nat2Z.id. apply list_eq. intros i. rewrite list_lookup_fmap.
  destruct (decide (i < length s)%nat) as [Hi|Hi].
  - rewrite lookup_seq_lt by done. cbn. rewrite Hd, over_in by (unfold zlen; lia).
    replace (Z.to_nat _) with i by lia. symmetry. by apply list_lookup_lookup_total_lt.
  - rewrite lookup_seq_ge, lookup_ge_None_2 by lia. done.
Qed.

Lemma read_blocks_ready start n v :
  0 ≤ start → 0 < n < 2 ^ 32 → start + n ≤ lba m →
  ∃ v', mmc_read_blocks m start n v = Ret ((n, image v (start * 512) (n * 512)), v') ∧ same_disk v v'.
Proof.
  intros Hs Hn Hl. pose proof (emmc_lba card). unfold mmc_read_blocks. cbn [read_attempts].
  rewrite (emmc_read_len card), u32_small, block_arg_small by (try split; lia).
  set (idx := if 1 <? n then MMC_CMD_READ_MULTIPLE_BLOCK else _).
  assert (Hidx : idx = MMC_CMD_READ_SINGLE_BLOCK ∨ idx = MMC_CMD_READ_MULTIPLE_BLOCK)
    by (unfold idx; destruct (1 <? n); auto).
  destruct (send_ready (mkCmd idx start) (ReadData (n * 512)) v) as (r & v1 & E1 & He & _).
  pose proof (card_read idx start (n * 512) v Hidx) as Hc. injection E1 as E1. rewrite E1 in Hc.
  destruct Hc as [Hsame Hdest]. rewrite (comp_bind_run _ _ _ r v1 (f_equal Ret E1)).
  destruct (stop_ready n v1) as (v2 & E2). rewrite (comp_bind_run _ _ _ _ _ E2), He. cbn [Z.eqb andb].
  exists v2. rewrite (Hdest He). split; [done|]. etrans; [exact Hsame|]. by apply stop_same in E2.
Qed.

Lemma bread_from_ready fuel start todo dst v :
  0 ≤ start → 0 < todo → start + todo ≤ lba m → todo ≤ b_max m * Z.of_nat fuel →
  ∃ v', bread_from fuel m start todo dst v = Ret (Some (dst ++ image v (start * 512) (todo * 512)), v')
    ∧ same_disk v v'.
Proof.
  pose proof (emmc_lba card) as Hlba.
  revert start todo dst v. induction fuel as [|fuel IH]; intros start todo dst v Hs Ht Hl Hf; [lia|].
  cbn [bread_from]. fold (first_blocks todo). pose proof (first_blocks_bounds todo Ht) as (Hc1 & Hc2 & Hc3).
  destruct (read_blocks_ready start (first_blocks todo) v) as (v1 & E1 & S1); [lia..|].
  rewrite (comp_bind_run _ _ _ _ _ E1). cbn [fst snd]. rewrite Z.eqb_refl. cbn [negb]. rewrite u64_small by (split; lia).
  destruct (Z.ltb_spec 0 (todo - first_blocks todo)) as [Hm|]; [|exists v1].
  - rewrite u64_small by (split; lia).
    assert (first_blocks todo = b_max m) as Hb by (unfold first_blocks in *; destruct (b_max m <? todo); lia).
    edestruct (IH (start + first_blocks todo) (todo - first_blocks todo)) as (v2 & E2 & S2); [lia..|].
    exists v2. rewrite E2. split; [|by etrans]. do 2 f_equal. rewrite <- app_assoc. do 3 f_equal.
    replace (todo * 512) with (first_blocks todo * 512 + (todo - first_blocks todo) * 512) by lia.
    rewrite image_app by lia. rewrite (image_same _ _ _ _ S1). do 2 f_equal. lia.
  - replace (first_blocks todo) with todo by lia. done.
Qed.

Lemma bread_ready start n v :
  0 ≤ start → 0 < n → start + n ≤ lba m → legal start n = Ret true →
  ∃ v', bread dev_num start n v = Ret ((n, image v (start * 512) (n * 512)), v') ∧ same_disk v v'.
Proof.
  intros Hs Hn Hl Hk. pose proof (emmc_lba card). unfold mmc_bread. rewrite found.
  rewrite (proj2 (Z.eqb_neq n 0)), u64_small by (try split; lia). rewrite (proj2 (Z.ltb_ge _ _)) by lia.
  rewrite (comp_bind_run _ _ _ _ _ (lift_run _ _ _ Hk)). cbn [negb].
  destruct (blocklen_ready (read_bl_len m) v) as (v1 & E1). rewrite (comp_bind_run _ _ _ _ _ E1). cbn [negb Z.eqb].
  destruct (bread_from_ready (passes m n) start n [] v1) as (v2 & E2 & S2); [lia..|by apply passes_enough|].
  exists v2. rewrite (comp_bind_run _ _ _ _ _ E2). apply blocklen_same in E1.
  split; [|by etrans]. by rewrite (image_same v v1).
Qed.

(** C21: what is written to the card is read back, whatever number of commands it
    takes, and no other byte of the card changes. *)
Theorem mmc_write_read start n src v :
  0 ≤ start → 0 < n → start + n ≤ lba m → zlen src = n * 512 → legal start n = Ret true →
  ∃ v1 v2, mmc_bwrite devs key_area info_disprotect dev_num start n src v = Ret (n, v1)
    ∧ mmc_bread devs key_area info_disprotect dev_num start n v1 = Ret ((n, src), v2)
    ∧ (∀ a, ¬ (start * 512 ≤ a < (start + n) * 512) → disk v1 a = disk v a)
    ∧ ∀ a, disk v2 a = disk v1 a.
Proof.
  intros Hs Hn Hl Hz Hk. destruct (bwrite_ready start n src v) as (v1 & E1 & Hd); [done..|lia|done|].
  assert (slice src 0 (n * 512) = src) as Hsl by (rewrite <- Hz; apply slice_all). rewrite Hsl in Hd.
  destruct (bread_ready start n v1) as (v2 & E2 & S2); [done..|].
  exists v1, v2. split; [done|]. split; [|split; [|done]].
  - rewrite E2, <- Hz. by rewrite (image_over _ _ _ _ Hd).
  - intros a Ha. rewrite Hd, over_out; [done|]. lia.
Qed.

(** ** Erasing *)

Context (heap_ok : ∀ n (v : V), (heap_alloc n v).1 = true).
Notation berase := (mmc_berase devs key_area info_disprotect).
Notation unit := (erase_grp_size m).

(** The bytes of a range are zero or erased, and no others change. *)
Definition cleared (lo hi : Z) (v v' : V) : Prop :=
  ∀ a, if decide (lo ≤ a < hi) then disk v' a = 0 ∨ disk v' a = erased_byte else disk v' a = disk v a.

Lemma cleared_app lo mid hi v1 v2 v3 :
  lo ≤ mid ≤ hi → cleared lo mid v1 v2 → cleared mid hi v2 v3 → cleared lo hi v1 v3.
Proof.
  intros Hm C1 C2 a. specialize (C1 a). specialize (C2 a). revert C1 C2.
  destruct (decide (lo ≤ a < mid)), (decide (mid ≤ a < hi)), (decide (lo ≤ a < hi)); try lia;
    intros C1 C2; rewrite ?C2; try done.
Qed.
Lemma cleared_same lo hi v1 v2 v3 : cleared lo hi v1 v2 → same_disk v2 v3 → cleared lo hi v1 v3.
Proof. intros Hc Hs a. rewrite Hs. apply Hc. Qed.

(** The range is kept clear of the key area. *)
Definition free (start n : Z) : Prop :=
  ∀ s k, start ≤ s → 0 < k → s + k ≤ start + n → legal s k = Ret true.

Lemma zero_out_ready start n v :
  0 ≤ start → 0 < n → n * 512 < 2 ^ 32 → start + n ≤ lba m → legal start n = Ret true →
  ∃ v', mmc_zero_out devs key_area info_disprotect dev_num start n v = Ret (0, v')
    ∧ cleared (start * 512) ((start + n) * 512) v v'.
Proof.
  intros Hs Hn Hz Hl Hk. unfold mmc_zero_out. rewrite u32_small by (split; lia).
  pose proof (heap_ok (512 * n) v) as Ho. pose proof (heap_disk (512 * n) v) as Hd.
  destruct (heap_alloc (512 * n) v) as [o v1] eqn:Ea. cbn [fst snd] in *. subst o.
  assert (malloc (512 * n) v = Ret (true, v1)) as Em by (unfold malloc; by rewrite Ea).
  rewrite (comp_bind_run _ _ _ _ _ Em). cbn [negb].
  set (zeros := replicate (Z.to_nat (512 * n)) 0).
  assert (Hzl : zlen zeros = n * 512) by (unfold zeros, zlen; rewrite length_replicate; lia).
  destruct (bwrite_ready start n zeros v1) as (v2 & E2 & Hd2); [done..|lia|done|].
  exists v2. rewrite (comp_bind_run _ _ _ _ _ E2), Z.eqb_refl. split; [done|].
  intros a. rewrite Hd2, <- Hzl, slice_all. destruct (decide _) as [Ha|Ha].
  - left. rewrite over_in by lia. unfold zeros. apply lookup_total_replicate_2. lia.
  - rewrite over_out by lia. apply Hd.
Qed.

(** Whole groups. *)
Lemma becalled_ready start n v :
  0 ≤ start → 0 < n → start + n ≤ 2 ^ 32 → start mod unit = 0 → n mod unit = 0 →
  ∃ v', mmc_berase_becalled devs dev_num start n v = Ret (0, v')
    ∧ cleared (start * 512) ((start + n) * 512) v v'.
Proof.
  intros Hs Hn Hl Hms Hmn. pose proof (emmc_unit card) as Hu.
  unfold mmc_berase_becalled. rewrite found. unfold mmc_erase_t.
  rewrite (emmc_write_len card), (emmc_mmc card), u64_small, !block_arg_small by (try split; lia).
  set (last := start + n - 1).
  destruct (send_ready (mkCmd MMC_CMD_ERASE_GROUP_START start) NoData v) as (r1 & v1 & E1 & He1 & _).
  destruct (send_ready (mkCmd MMC_CMD_ERASE_GROUP_END last) NoData v1) as (r2 & v2 & E2 & He2 & _).
  destruct (send_ready (mkCmd MMC_CMD_ERASE SECURE_ERASE) NoData v2) as (r3 & v3 & E3 & He3 & _).
  destruct (status_ready v3) as (v4 & E4). exists v4. split.
  { erewrite comp_bind_run; [|rewrite (comp_bind_run _ _ _ _ _ E1), He1; cbn [negb Z.eqb];
      rewrite (comp_bind_run _ _ _ _ _ E2), He2; cbn [negb Z.eqb];
      rewrite (comp_bind_run _ _ _ _ _ E3), He3; reflexivity].
    change (s32 0) with 0. cbn [negb Z.eqb]. by rewrite (comp_bind_run _ _ _ _ _ E4). }
  apply status_same in E4. injection E1 as E1. injection E2 as E2. injection E3 as E3.
  pose proof (card_start start v) as C1. rewrite E1 in C1. destruct C1 as [S1 G1].
  pose proof (card_end last v1) as C2. rewrite E2 in C2. destruct C2 as (S2 & G1' & G2).
  pose proof (card_erase SECURE_ERASE v2) as C3. rewrite E3 in C3.
  rewrite G1', (G1 He1), (G2 He2) in C3. destruct C3 as [Hout Hin].
  assert (start / unit * unit = start) as Hfirst by (pose proof (Z.div_mod start unit ltac:(lia)); lia).
  assert ((last / unit + 1) * unit = start + n) as Hnext.
  { pose proof (Z.div_mod n unit ltac:(lia)). assert (last / unit = start / unit + n / unit - 1) as ->; [|lia].
    symmetry. apply (Z.div_unique last unit _ (unit - 1)); [lia|]. unfold last. nia. }
  rewrite Hfirst, Hnext in Hout, Hin.
  eapply cleared_same; [|exact E4]. intros a. destruct (decide _) as [Ha|Ha].
  - right. by apply Hin.
  - rewrite Hout by done. by rewrite S2, S1.
Qed.

Lemma few_groups_spec start n : 0 ≤ start → 0 < n → start + n ≤ 2 ^ 32 →
  few_groups unit start n = bool_decide ((start + n - 1) / unit - start / unit ≤ 1).
Proof.
  intros Hs Hn Hl. pose proof (emmc_unit card) as Hu. unfold few_groups.
  assert (0 ≤ start / unit ≤ (start + n - 1) / unit) as [H1 H2]
    by (split; [apply Z.div_pos; lia|apply Z.div_le_mono; lia]).
  assert ((start + n - 1) / unit ≤ start + n - 1) by (apply Z.div_le_upper_bound; nia).
  rewrite (u64_small (start + n - 1)) by (split; lia).
  rewrite (u32_small (start / unit)), (u32_small ((start + n - 1) / unit)), u32_small by (split; lia).
  case_bool_decide; [by apply Z.leb_le|by apply Z.leb_gt; lia].
Qed.

Lemma few_groups_true start n : 0 ≤ start → 0 < n → start + n ≤ 2 ^ 32 →
  few_groups unit start n = true → n ≤ 2 * unit.
Proof.
  intros Hs Hn Hl Hf. rewrite few_groups_spec in Hf by done. apply bool_decide_eq_true in Hf.
  pose proof (emmc_unit card) as Hu.
  pose proof (Z.mod_pos_bound start unit ltac:(lia)). pose proof (Z.div_mod start unit ltac:(lia)).
  pose proof (Z.mod_pos_bound (start + n - 1) unit ltac:(lia)).
  pose proof (Z.div_mod (start + n - 1) unit ltac:(lia)). nia.
Qed.
Lemma few_groups_false start n : 0 ≤ start → 0 < n → start + n ≤ 2 ^ 32 →
  few_groups unit start n = false → unit < n.
Proof.
  intros Hs Hn Hl Hf. rewrite few_groups_spec in Hf by done. apply bool_decide_eq_false in Hf.
  pose proof (emmc_unit card) as Hu.
  pose proof (Z.mod_pos_bound start unit ltac:(lia)). pose proof (Z.div_mod start unit ltac:(lia)).
  pose proof (Z.mod_pos_bound (start + n - 1) unit ltac:(lia)).
  pose proof (Z.div_mod (start + n - 1) unit ltac:(lia)). nia.
Qed.

Context (small_groups : unit < 2 ^ 22).

Lemma erase_aligned_ready start n v :
  0 ≤ start → unit < n → start + n ≤ lba m → start mod unit = 0 → free start n →
  ∃ v', erase_aligned devs key_area info_disprotect dev_num unit start n v = Ret (0, v')
    ∧ cleared (start * 512) ((start + n) * 512) v v'.
Proof.
  intros Hs Hn Hl Ha Hk. pose proof (emmc_unit card) as Hu. pose proof (emmc_lba card) as Hlba.
  pose proof (Z.mod_pos_bound n unit ltac:(lia)) as Hm. pose proof (Z.div_mod n unit ltac:(lia)) as Hdm.
  unfold erase_aligned. rewrite (u32_small (n mod unit)), (u64_small (n - n mod unit)) by (split; lia).
  destruct (becalled_ready start (n - n mod unit) v) as (v1 & E1 & C1); [lia..|done| |].
  { replace (n - n mod unit) with (n / unit * unit) by lia. apply Z.mod_mul. lia. }
  rewrite (comp_bind_run _ _ _ _ _ E1). cbn [negb Z.eqb].
  destruct (Z.eqb_spec (n mod unit) 0) as [Hr|Hr]; cbn [negb].
  { exists v1. rewrite Hr, Z.sub_0_r in C1. done. }
  rewrite (u64_small (start + (n - n mod unit))), (u32_small (start + (n - n mod unit))) by (split; lia).
  destruct (zero_out_ready (start + (n - n mod unit)) (n mod unit) v1) as (v2 & E2 & C2); [lia..|apply Hk; lia|].
  exists v2. rewrite (comp_bind_run _ _ _ _ _ E2). split; [done|].
  replace (start + (n - n mod unit) + n mod unit) with (start + n) in C2 by lia.
  eapply cleared_app; [|exact C1|exact C2]. lia.
Qed.

Lemma erase_few_ready start n v :
  0 ≤ start → 0 < n → start + n ≤ lba m → few_groups unit start n = true → free start n →
  ∃ v', mmc_zero_out devs key_area info_disprotect dev_num (u32 start) (u32 n) v = Ret (0, v')
    ∧ cleared (start * 512) ((start + n) * 512) v v'.
Proof.
  intros Hs Hn Hl Hf Hk. pose proof (emmc_lba card). apply few_groups_true in Hf; [|lia..].
  rewrite !u32_small by (split; lia). apply zero_out_ready; [lia..|]. apply Hk; lia.
Qed.

Lemma erase_range_ready start n v :
  0 ≤ start → 0 < n → start + n ≤ lba m → free start n →
  ∃ v', erase_range devs key_area info_disprotect dev_num unit start n v = Ret (0, v')
    ∧ cleared (start * 512) ((start + n) * 512) v v'.
Proof.
  intros Hs Hn Hl Hk. pose proof (emmc_unit card) as Hu. pose proof (emmc_lba card) as Hlba.
  unfold erase_range. destruct (few_groups unit start n) eqn:Hf; [by apply erase_few_ready|].
  apply few_groups_false in Hf; [|lia..]. pose proof (Z.mod_pos_bound start unit ltac:(lia)) as Hm.
  rewrite (u32_small (unit - start mod unit)) by (split; lia). set (h := unit - start mod unit).
  destruct (Z.ltb_spec h unit) as [Hh|Hh].
  2: { apply erase_aligned_ready; try done. lia. }
  rewrite (u32_small start), (u64_small (start + h)), (u64_small (n - h)) by (split; lia).
  destruct (zero_out_ready start h v) as (v1 & E1 & C1); [lia..|apply Hk; lia|].
  rewrite (comp_bind_run _ _ _ _ _ E1). cbn [negb Z.eqb].
  assert (Hk' : free (start + h) (n - h)) by (intros s k ???; apply Hk; lia).
  assert (∃ v2, (if few_groups unit (start + h) (n - h)
    then mmc_zero_out devs key_area info_disprotect dev_num (u32 (start + h)) (u32 (n - h))
    else erase_aligned devs key_area info_disprotect dev_num unit (start + h) (n - h)) v1 = Ret (0, v2)
    ∧ cleared ((start + h) * 512) ((start + h + (n - h)) * 512) v1 v2) as (v2 & E2 & C2).
  { destruct (few_groups unit (start + h) (n - h)) eqn:Hf'; [apply erase_few_ready; lia || done|].
    apply few_groups_false in Hf'; [|lia..]. apply erase_aligned_ready; try done; [lia..|].
    unfold h. replace (start + (unit - start mod unit)) with ((start / unit + 1) * unit); [apply Z.mod_mul; lia|].
    pose proof (Z.div_mod start unit ltac:(lia)). lia. }
  exists v2. split; [exact E2|]. replace (start + h + (n - h)) with (start + n) in C2 by lia.
  eapply cleared_app; [|exact C1|exact C2]. lia.
Qed.

Lemma berase_ready start n v :
  0 ≤ start → 0 < n → start + n ≤ lba m → free start n →
  ∃ v', berase dev_num start n v = Ret (0, v') ∧ cleared (start * 512) ((start + n) * 512) v v'.
Proof.
  intros Hs Hn Hl Hk. pose proof (emmc_unit card). unfold mmc_berase. rewrite found.
  assert (legal start n = Ret true) as Hk0 by (apply Hk; lia).
  unfold mbind, comp_bind. rewrite (lift_run _ _ _ Hk0). cbn [negb].
  rewrite (proj2 (Z.eqb_neq unit 0)), (proj2 (Z.eqb_neq n 0)) by lia. by apply erase_range_ready.
Qed.

(** Erasing a range of blocks clears exactly these, with whole groups erased
    and the ends overwritten, although the card erases by groups only. *)
Theorem mmc_berase_clears start n v :
  0 ≤ start → 0 < n → start + n ≤ lba m → free start n →
  ∃ v', berase dev_num start n v = Ret (0, v') ∧ cleared (start * 512) ((start + n) * 512) v v'.
Proof. apply berase_ready. Qed.

(** ** The key area *)

(** The area, in whole blocks, protected. *)
Context (off size : Z) (key_at : key_area = Some (off, size)) (is_emmc : aml_is_emmc_tsd m = true).
Context (key_blocks : 0 ≤ off ∧ 0 < size ∧ off + size < 2 ^ 64 ∧ off mod 512 = 0 ∧ size mod 512 = 0).

(** The first block of the area, and the first behind it. *)
Definition key_first : Z := off / 512.
Definition key_next : Z := (off + size) / 512.

Lemma key_bounds : key_first * 512 = off ∧ key_next * 512 = off + size ∧ key_first < key_next < 2 ^ 64.
Proof.
  destruct key_blocks as (Ho & Hs & Hw & Hm1 & Hm2). unfold key_first, key_next.
  pose proof (Z.div_mod off 512 ltac:(lia)). pose proof (Z.div_mod size 512 ltac:(lia)).
  assert ((off + size) / 512 = off / 512 + size / 512) as -> by
    (symmetry; apply (Z.div_unique _ _ _ 0); lia).
  lia.
Qed.

(** The guard refuses what overlaps the area, unless the number of blocks is the
    number of the first. *)
Lemma legal_protected start n :
  Z.land info_disprotect DISPROTECT_KEY = 0 → 0 ≤ start → 0 < n → start + n < 2 ^ 64 →
  legal start n = Ret (negb (bool_decide (key_first < start + n ∧ start < key_next ∧ n ≠ start))).
Proof.
  intros Hp Hs Hn Hw. destruct key_blocks as (Ho & Hz & Hoz & _). destruct key_bounds as (_ & _ & Hb1 & Hb2).
  unfold emmckey_is_access_range_legal. rewrite is_emmc, key_at, Hp. cbn [Z.eqb].
  unfold MMC_BLOCK_SIZE. fold key_first. rewrite (u64_small (off + size)) by (split; lia). fold key_next.
  assert (0 ≤ key_first) by (apply Z.div_pos; lia).
  rewrite (u64_small (key_next - 1)), (u64_small (start + n - 1)) by (split; lia).
  destruct (Z.leb_spec key_first (start + n - 1)), (Z.leb_spec start (key_next - 1)), (Z.eqb_spec n start);
    cbn [andb negb]; case_bool_decide; try done; lia.
Qed.

Lemma free_disjoint start n :
  Z.land info_disprotect DISPROTECT_KEY = 0 → 0 ≤ start → start + n < 2 ^ 64 →
  start + n ≤ key_first ∨ key_next ≤ start → free start n.
Proof.
  intros Hp Hs Hw Hd s k Hk Hk0 Hk1. rewrite legal_protected by (done || lia).
  rewrite bool_decide_false; [done|]. lia.
Qed.

(** C32: while the key area is protected no write of one or more blocks changes
    it, whatever the card answers, and reads, writes and erases of one or more
    blocks that overlap it are refused without a command, all except when the
    number of blocks is the number of the first block.  An erase of no blocks,
    which stands for the whole card, is not covered. *)
Theorem key_area_protected start n src v k v' :
  Z.land info_disprotect DISPROTECT_KEY = 0 → 0 ≤ start → 0 < n → start + n < 2 ^ 64 → n ≠ start →
  bwrite dev_num start n src v = Ret (k, v') →
  (∀ a, off ≤ a < off + size → disk v' a = disk v a)
  ∧ (key_first < start + n → start < key_next →
     k = 0 ∧ v' = v ∧ bread dev_num start n v = Ret ((0, []), v) ∧ berase dev_num start n v = Ret (n, v)).
Proof.
  intros Hp Hs Hn Hw Hne E. pose proof (legal_protected start n Hp Hs Hn Hw) as Hl.
  destruct key_bounds as (Hk1 & Hk2 & _).
  apply bwrite_sound in E as (Hout & _ & Href); [|done..].
  case_bool_decide as Hov; cbn [negb] in Hl.
  - destruct (Href Hl) as [-> ->]. split; [done|]. intros _ _. split_and!; [done..| |].
    + unfold mmc_bread. rewrite found, (proj2 (Z.eqb_neq n 0)) by lia.
      destruct (lba m <? _); [done|]. by rewrite (comp_bind_run _ _ _ _ _ (lift_run _ _ _ Hl)).
    + unfold mmc_berase. rewrite found. unfold mbind, comp_bind. by rewrite (lift_run _ _ _ Hl).
  - split; [|intros; by destruct Hov]. intros a Ha. apply Hout. lia.
Qed.
End Blocks.

(** ** Keys *)

Section Keys.
Context {V : Type} `{MmcHost V} `{Heap V} (m : mmc) `{!CardLaws V (erase_grp_size m)}.
Context (card : emmc m) (devs : list mmc) (found : find_mmc_device devs EMMC_DTB_DEV = Some m).
Context (healthy : ∀ c d (v : V), ready (send_cmd c d v).1).
Context (off size : Z) (is_emmc : aml_is_emmc_tsd m = true).

Lemma lifted_legal info start n :
  emmckey_is_access_range_legal (Some (off, size)) (lifted info) m start n = Ret true.
Proof.
  unfold emmckey_is_access_range_legal. rewrite is_emmc. unfold lifted.
  rewrite (proj2 (Z.eqb_neq _ _)); [done|]. intros E. apply (f_equal (fun z => Z.testbit z 0)) in E.
  rewrite Z.land_spec, Z.lor_spec in E. change (Z.testbit DISPROTECT_KEY 0) with true in E.
  by rewrite orb_true_r in E.
Qed.

Lemma lowered_protects info : Z.land (lowered info) DISPROTECT_KEY = 0.
Proof.
  unfold lowered. apply Z.bits_inj'. intros i Hi. rewrite Z.land_spec, Z.ldiff_spec, Z.bits_0.
  by destruct (Z.testbit DISPROTECT_KEY i), (Z.testbit info i).
Qed.

(** Keys of at most the size of the area are read back as they were written,
    and the area is protected afterwards, whether it was before or not. *)
Theorem key_write_read info buf n v :
  0 ≤ off → off mod 512 = 0 → 0 < n → n * 512 ≤ size → off + 2 * size ≤ lba m * 512 →
  zlen buf = n * 512 →
  ∃ v1 v2, mmc_key_write devs (Some (off, size)) info buf (n * 512) v = Ret ((0, lowered (lifted info)), v1)
    ∧ mmc_key_read devs (Some (off, size)) info (n * 512) v1 = Ret ((0, buf, 0x40000, lowered (lifted info)), v2)
    ∧ Z.land (lowered (lifted info)) DISPROTECT_KEY = 0.
Proof.
  intros Ho Hm Hn Hsz Hl Hb. pose proof (emmc_lba m card) as Hlba.
  pose proof (Z.div_mod off 512 ltac:(lia)) as Hd. pose proof (Z.div_pos off 512 ltac:(lia) ltac:(lia)).
  pose proof (Z.div_mod size 512 ltac:(lia)) as Hds. pose proof (Z.mod_pos_bound size 512 ltac:(lia)).
  set (first := off / 512) in *. set (step := size / 512) in *.
  assert (Hnb : n * 512 / MMC_BLOCK_SIZE = n) by (apply Z.div_mul; done).
  destruct (bwrite_ready m (Some (off, size)) (lifted info) card devs EMMC_DTB_DEV found healthy first n buf v)
    as (v1 & E1 & D1); [lia..|apply lifted_legal|].
  destruct (bwrite_ready m (Some (off, size)) (lifted info) card devs EMMC_DTB_DEV found healthy (first + step) n buf v1)
    as (v2 & E2 & D2); [lia..|apply lifted_legal|].
  destruct (bread_ready m (Some (off, size)) (lifted info) card devs EMMC_DTB_DEV found healthy first n v2)
    as (v3 & E3 & _); [lia..|apply lifted_legal|].
  rewrite <- Hb, slice_all in D1, D2.
  assert (image m v2 (first * 512) (n * 512) = buf) as Hi.
  { rewrite <- Hb. unfold image. apply list_eq. intros i. rewrite list_lookup_fmap.
    destruct (decide (i < length buf)%nat) as [Hi|Hi].
    - rewrite lookup_seq_lt by (unfold zlen; lia). cbn. unfold zlen in *. rewrite D2, over_out by (unfold zlen; lia).
      rewrite D1, over_in by (unfold zlen; lia). replace (Z.to_nat _) with i by lia.
      symmetry. by apply list_lookup_lookup_total_lt.
    - rewrite lookup_seq_ge, lookup_ge_None_2 by (unfold zlen in *; lia). done. }
  exists v2, v3. split_and!.
  - unfold mmc_key_write, mmc_reserved_write. rewrite Hnb. unfold MMC_BLOCK_SIZE. fold first step.
    rewrite (u64_small (first + step)) by (split; lia).
    erewrite comp_bind_run; [|rewrite (comp_bind_run _ _ _ _ _ E1), Z.eqb_refl; cbn [negb];
      rewrite (comp_bind_run _ _ _ _ _ E2), Z.eqb_refl; reflexivity]. done.
  - unfold mmc_key_read, mmc_reserved_read. rewrite Hnb. unfold MMC_BLOCK_SIZE. fold first. rewrite Hi in E3.
    erewrite comp_bind_run; [|rewrite (comp_bind_run _ _ _ _ _ E3); cbn [fst snd]; rewrite Z.eqb_refl; reflexivity].
    done.
  - apply lowered_protects.
Qed.

Context (heap_disk : ∀ n v a, disk (heap_alloc n v).2 a = disk v a).
Context (heap_ok : ∀ n (v : V), (heap_alloc n v).1 = true) (small_groups : erase_grp_size m < 2 ^ 22).

(** Erasing the keys clears both copies of them and no other byte of the
    card, and the area is protected afterwards. *)
Theorem key_erase_clears info v :
  0 ≤ off → off mod 512 = 0 → 0 < size → size mod 512 = 0 → off + 2 * size ≤ lba m * 512 →
  ∃ v', mmc_key_erase devs (Some (off, size)) info v = Ret ((0, lowered (lifted info)), v')
    ∧ cleared m off (off + 2 * size) v v' ∧ Z.land (lowered (lifted info)) DISPROTECT_KEY = 0.
Proof.
  intros Ho Hm Hs Hms Hl. pose proof (emmc_lba m card) as Hlba.
  pose proof (Z.div_mod off 512 ltac:(lia)) as Hd. pose proof (Z.div_pos off 512 ltac:(lia) ltac:(lia)).
  pose proof (Z.div_mod size 512 ltac:(lia)) as Hds.
  destruct (berase_ready m (Some (off, size)) (lifted info) heap_disk card devs EMMC_DTB_DEV found healthy
    heap_ok small_groups (off / 512) (size / 512 * 2) v) as (v' & E & C); [lia..|intros s n _ _ _; apply lifted_legal|].
  exists v'. split; [|split; [|apply lowered_protects]].
  - unfold mmc_key_erase, mmc_reserved_erase, MMC_BLOCK_SIZE.
    rewrite (u64_small (size / 512 * 2)) by (split; lia).
    erewrite comp_bind_run; [|rewrite (comp_bind_run _ _ _ _ _ E); reflexivity]. done.
  - replace off with (off / 512 * 512) by lia.
    by replace (off / 512 * 512 + 2 * size) with ((off / 512 + size / 512 * 2) * 512) by lia.
Qed.
End Keys.

(** ** Examples *)

(** A card that keeps what it is told. *)
Record demo_card := mkDemo {
  dc_disk : Z → Z;
  dc_start : Z;
  dc_end : Z;
  dc_log : list mmc_cmd;
}.
Definition demo_unit : Z := 1024.

Definition demo_send (c : mmc_cmd) (d : mmc_data) (v : demo_card) : mmc_reply * demo_card :=
  let ok (dest : bytes) := mkReply 0 0x900 dest in
  let log := c :: dc_log v in
  match d with
  | WriteData s => (ok [], mkDemo (over (dc_disk v) (cmdarg c * 512) s) (dc_start v) (dc_end v) log)
  | ReadData n => (ok ((fun i => dc_disk v (cmdarg c * 512 + Z.of_nat i)) <$> seq 0 (Z.to_nat n)),
                   mkDemo (dc_disk v) (dc_start v) (dc_end v) log)
  | NoData =>
      if cmdidx c =? MMC_CMD_ERASE_GROUP_START then
        (ok [], mkDemo (dc_disk v) (cmdarg c) (dc_end v) log)
      else if cmdidx c =? MMC_CMD_ERASE_GROUP_END then
        (ok [], mkDemo (dc_disk v) (dc_start v) (cmdarg c) log)
      else if cmdidx c =? MMC_CMD_ERASE then
        (ok [], mkDemo (fun a => if (dc_start v / demo_unit * demo_unit * 512 <=? a)
                                    && (a <? (dc_end v / demo_unit + 1) * demo_unit * 512)
                                 then 255 else dc_disk v a) (dc_start v) (dc_end v) log)
      else (ok [], mkDemo (dc_disk v) (dc_start v) (dc_end v) log)
  end.
#[local] Instance demo_host : MmcHost demo_card := demo_send.
#[local] Instance demo_heap : Heap demo_card := fun _ v => (true, v).

#[local] Instance demo_laws : CardLaws demo_card demo_unit.
Proof.
  refine {| disk := dc_disk; group_start := dc_start; group_end := dc_end; erased_byte := 255 |}.
  - intros idx arg d v _. cbn. split; [|done]. intros a Ha. by apply over_out.
  - intros idx arg n v _. done.
  - intros s v. done.
  - intros e v. done.
  - intros arg v. cbn. split.
    + intros a Ha. destruct (Z.leb_spec (dc_start v / demo_unit * demo_unit * 512) a),
        (Z.ltb_spec a ((dc_end v / demo_unit + 1) * demo_unit * 512)); try done. lia.
    + intros _ a Ha. by rewrite (proj2 (Z.leb_le _ _)), (proj2 (Z.ltb_lt _ _)) by lia.
  - intros idx arg v Hi. destruct Hi as [->|[->| ->]]; done.
Defined.

(** An eMMC of 4 GiB and a key area as the board has it. *)
Definition demo_emmc : mmc := mkMmc 1 true false false true 1 512 512 demo_unit 256 0x800000 0x100000000.
Definition demo_keys : option (Z * Z) := Some (0x2404000, 0x40000).
Definition demo_blank : demo_card := mkDemo (fun _ => 0) 0 0 [].

Lemma demo_is_emmc : emmc demo_emmc.
Proof. constructor; vm_compute; try done; split; done. Qed.
Lemma demo_heap_disk n (v : demo_card) a : disk (heap_alloc n v).2 a = disk v a.
Proof. done. Qed.
Lemma demo_healthy c d (v : demo_card) : ready (send_cmd c d v).1.
Proof.
  unfold send_cmd, demo_host, demo_send. destruct d; [|done..]. by repeat case_match.
Qed.

Lemma mmc_write_read_witness :
  let src := replicate 1024 7 in
  ∃ v1 v2, mmc_bwrite [demo_emmc] demo_keys 0 1 100 2 src demo_blank = Ret (2, v1)
    ∧ mmc_bread [demo_emmc] demo_keys 0 1 100 2 v1 = Ret ((2, src), v2)
    ∧ (∀ a, ¬ (100 * 512 ≤ a < (100 + 2) * 512) → disk v1 a = disk demo_blank a)
    ∧ ∀ a, disk v2 a = disk v1 a.
Proof.
  exact (mmc_write_read demo_emmc demo_keys 0 demo_is_emmc [demo_emmc] 1 eq_refl demo_healthy 100 2 (replicate 1024 7) demo_blank
    ltac:(lia) ltac:(lia) ltac:(by vm_compute) eq_refl eq_refl).
Defined.

Lemma mmc_berase_clears_witness :
  ∃ v', mmc_berase [demo_emmc] demo_keys 0 1 1000 3000 demo_blank = Ret (0, v')
    ∧ cleared demo_emmc (1000 * 512) ((1000 + 3000) * 512) demo_blank v'.
Proof.
  apply (mmc_berase_clears demo_emmc demo_keys 0 demo_heap_disk demo_is_emmc [demo_emmc] 1 eq_refl demo_healthy
    (fun _ (_ : demo_card) => eq_refl)); [by vm_compute|lia|lia|by vm_compute|].
  apply (free_disjoint demo_emmc demo_keys 0 0x2404000 0x40000 eq_refl eq_refl); [by repeat split|done|lia|done|].
  left. by vm_compute.
Defined.

Lemma key_area_protected_witness :
  let v := demo_blank in
  mmc_bwrite [demo_emmc] demo_keys 0 1 73000 1000 [] v = Ret (0, v)
  ∧ mmc_berase [demo_emmc] demo_keys 0 1 73000 1000 v = Ret (1000, v).
Proof.
  intros v.
  assert (E : mmc_bwrite [demo_emmc] demo_keys 0 1 73000 1000 [] v = Ret (0, v)) by reflexivity.
  split; [exact E|].
  apply (key_area_protected demo_emmc demo_keys 0 demo_is_emmc [demo_emmc] 1 eq_refl 0x2404000 0x40000 eq_refl eq_refl
    ltac:(by repeat split) 73000 1000 [] v 0 v eq_refl ltac:(lia) ltac:(lia) ltac:(lia) ltac:(lia) E);
    by vm_compute.
Defined.

Lemma key_write_read_witness :
  let buf := replicate 1024 9 in
  ∃ v1 v2, mmc_key_write [demo_emmc] demo_keys 1 buf 1024 demo_blank = Ret ((0, 0), v1)
    ∧ mmc_key_read [demo_emmc] demo_keys 1 1024 v1 = Ret ((0, buf, 0x40000, 0), v2)
    ∧ Z.land 0 DISPROTECT_KEY = 0.
Proof.
  exact (key_write_read demo_emmc demo_is_emmc [demo_emmc] eq_refl demo_healthy 0x2404000 0x40000 eq_refl 1 (replicate 1024 9) 2
    demo_blank ltac:(lia) eq_refl ltac:(lia) ltac:(by vm_compute) ltac:(by vm_compute) eq_refl).
Defined.

Lemma key_erase_clears_witness :
  ∃ v', mmc_key_erase [demo_emmc] demo_keys 0 demo_blank = Ret ((0, 0), v')
    ∧ cleared demo_emmc 0x2404000 (0x2404000 + 2 * 0x40000) demo_blank v' ∧ Z.land 0 DISPROTECT_KEY = 0.
Proof.
  exact (key_erase_clears demo_emmc demo_is_emmc [demo_emmc] eq_refl demo_healthy 0x2404000 0x40000 eq_refl
    demo_heap_disk (fun _ (_ : demo_card) => eq_refl) ltac:(by vm_compute) 0 demo_blank ltac:(lia) eq_refl ltac:(lia)
    eq_refl ltac:(by vm_compute)).
Defined.

(** What a program on the blank card returns, and the byte at an address. *)
Definition demo_outcome {A} (prog : comp demo_card A) : option A :=
  match prog demo_blank with Ret (a, _) => Some a | Crash _ => None end.
Definition byte_at (a : Z) : comp demo_card Z := fun v => Ret (disk v a, v).

(** The guard of the key area has holes: it lets an access through whose
    number of blocks is the number of its first block, it does not cover the
    second copy that [mmc_key_write] makes, and it takes an erase of the whole
    card, which is asked for with a count of zero, for one of no blocks. *)
Example key_guard_holes :
  emmckey_is_access_range_legal demo_keys 0 demo_emmc 74000 74000 = Ret true
  ∧ key_first 0x2404000 ≤ 74000 < key_next 0x2404000 0x40000
  ∧ demo_outcome (
      r ← mmc_key_write [demo_emmc] demo_keys 0 (replicate 512 9) 512;
      before ← byte_at (74272 * 512);
      n ← mmc_bwrite [demo_emmc] demo_keys 0 1 74272 1 (replicate 512 5);
      after ← byte_at (74272 * 512);
      mret (r, before, n, after)) = Some ((0, 0), 9, 1, 5)
  ∧ demo_outcome (
      before ← byte_at 0x2404000;
      e ← mmc_berase [demo_emmc] demo_keys 0 1 1024 0;
      after ← byte_at 0x2404000;
      mret (before, e, after)) = Some (0, 0, 255).
Proof. split; [by vm_compute|]. split; [by vm_compute|]. split; by vm_compute. Qed.
