(* ===== verification/MmcArea.v ===== *)
(** * The areas of an eMMC

    An eMMC has a user area and boot areas, and the driver selects the one that
    commands go to: [mmc_switch], [mmc_set_capacity] and [mmc_switch_part] of
    [drivers/mmc/mmc.c].  The data store of [Idme] lives at the end of the second
    boot area; here its driver interface is the driver of [MmcBlock], and reading
    and writing it leaves every other byte of the card alone. *)

From S2P Require Import Prelude Idme MmcBlock.

Definition MMC_CMD_SWITCH : Z := 6.
Definition MMC_SWITCH_MODE_WRITE_BYTE : Z := 3.
Definition EXT_CSD_PART_CONF : Z := 179.
Definition PART_ACCESS_MASK : Z := 7.
Definition ENODEV : Z := 19.
Definition CFG_FASTBOOT_MMC_NO : Z := 1.

(** The fields of [struct mmc] about the areas. *)
Record device := mkDevice {
  d_mmc : mmc;
  part_config : Z;
  capacity_user : Z;
  capacity_boot : Z;
  capacity_rpmb : Z;
  capacity_gp : list Z;
}.

(** The registered cards with their fields, and the host controller. *)
Record driver (V : Type) := mkDriver {
  devices : list device;
  host : V;
}.
Arguments mkDriver {V} _ _.
Arguments devices {V} _.
Arguments host {V} _.

Definition find_device (ds : list device) (dev_num : Z) : option device :=
  List.find (fun d => dev (d_mmc d) =? dev_num) ds.
Fixpoint put_device (dev_num : Z) (x : device) (ds : list device) : list device :=
  match ds with
  | [] => []
  | d :: ds => if dev (d_mmc d) =? dev_num then x :: ds else d :: put_device dev_num x ds
  end.

Definition set_capacity (m : mmc) (c : Z) : mmc :=
  mkMmc (dev m) (high_capacity m) (is_sd m) (ddr_mode m) (aml_is_emmc_tsd m) (rca m) (read_bl_len m)
    (write_bl_len m) (erase_grp_size m) (b_max m) (c / read_bl_len m) c.

(** The error is [None]. *)
Definition mmc_set_capacity (d : device) (part_num : Z) : option device :=
  c ← (if part_num =? 0 then Some (capacity_user d)
       else if (part_num =? 1) || (part_num =? 2) then Some (capacity_boot d)
       else if part_num =? 3 then Some (capacity_rpmb d)
       else if (4 <=? part_num) && (part_num <=? 7) then capacity_gp d !! Z.to_nat (part_num - 4)
       else None);
  Some (mkDevice (set_capacity (d_mmc d) c) (part_config d) (capacity_user d) (capacity_boot d)
          (capacity_rpmb d) (capacity_gp d)).

Definition switch_arg (index value : Z) : Z :=
  Z.lor (Z.lor (Z.shiftl MMC_SWITCH_MODE_WRITE_BYTE 24) (Z.shiftl index 16)) (Z.shiftl value 8).

Section Driver.
Context {V : Type} `{MmcHost V} `{Heap V}.
Context (key_area : option (Z * Z)) (info_disprotect : Z).

(** The set [set] of the command is not used. *)
Definition mmc_switch (m : mmc) (index value : Z) : comp V Z :=
  r ← mmc_send_cmd (mkCmd MMC_CMD_SWITCH (switch_arg index value)) NoData;
  if err r =? 0 then mmc_send_status m 1000 else mret (err r).

Definition on_host {A} (f : comp V A) : comp (driver V) A := fun d =>
  match f (host d) with
  | Ret (a, v) => Ret (a, mkDriver (devices d) v)
  | Crash c => Crash c
  end.
Definition get_devices : comp (driver V) (list device) := fun d => Ret (devices d, d).
Definition set_devices (ds : list device) : comp (driver V) unit := fun d => Ret (tt, mkDriver ds (host d)).

Definition mmc_switch_part (dev_num part_num : Z) : comp (driver V) Z :=
  ds ← get_devices;
  match find_device ds dev_num with
  | None => mret (-1)
  | Some d =>
      ret ← on_host (mmc_switch (d_mmc d) EXT_CSD_PART_CONF
                       (u8 (Z.lor (Z.ldiff (part_config d) PART_ACCESS_MASK) (Z.land part_num PART_ACCESS_MASK))));
      if (ret =? 0) || ((ret =? - ENODEV) && (part_num =? 0)) then
        match mmc_set_capacity d part_num with
        | None => mret (-1)
        | Some d => set_devices (put_device dev_num d ds);; mret 0
        end
      else mret ret
  end.

(** What [Idme] asks of the driver.  Its interface has no place for a crash of
    the driver; on a working card there is none, see [switch_ready] and the
    lemmas on transfers in [MmcBlock]. *)
Definition answer {A} (dflt : A) (f : comp (driver V) A) (d : driver V) : A * driver V :=
  match f d with Ret r => r | Crash _ => (dflt, d) end.
Definition device_list (d : driver V) : list mmc := d_mmc <$> devices d.
#[export] Instance driver_mmc : Mmc (driver V) := {|
  Idme.find_mmc_device d := bool_decide (is_Some (find_device (devices d) CFG_FASTBOOT_MMC_NO));
  Idme.mmc_switch_part part_num := answer (-1) (mmc_switch_part CFG_FASTBOOT_MMC_NO part_num);
  Idme.mmc_capacity d :=
    match find_device (devices d) CFG_FASTBOOT_MMC_NO with Some x => capacity (d_mmc x) | None => 0 end;
  Idme.block_read start blkcnt d :=
    answer (0, []) (on_host (mmc_bread (device_list d) key_area info_disprotect CFG_FASTBOOT_MMC_NO start blkcnt)) d;
  Idme.block_write start blkcnt src d :=
    answer 0 (on_host (mmc_bwrite (device_list d) key_area info_disprotect CFG_FASTBOOT_MMC_NO start blkcnt src)) d;
|}.

#[export] Instance idme_heap : Heap (IdmeState (driver V)) := fun n st =>
  let '(ok, v) := heap_alloc n (host (Idme.mmc st)) in
  (ok, mkIdme (gidme_buff st) (pidme_set st) (v2_functions st) (mkDriver (devices (Idme.mmc st)) v)).

(** Code that only uses the card, run next to the data store. *)
Definition on_card {A} (f : comp V A) : comp (IdmeState (driver V)) A := fun st =>
  match f (host (Idme.mmc st)) with
  | Ret (a, v) =>
      Ret (a, mkIdme (gidme_buff st) (pidme_set st) (v2_functions st) (mkDriver (devices (Idme.mmc st)) v))
  | Crash c => Crash c
  end.
End Driver.

(** ** Cards with areas *)

(** A command goes to the selected area, and only [MMC_CMD_SWITCH] selects
    another. *)
Class AreaLaws (V : Type) (unit : Z) `{MmcHost V} `{!CardLaws V unit} := {
  selected : V → Z;
  area : V → Z → Z → Z;
  area_disk v a : disk v a = area v (selected v) a;
  area_other c d v : cmdidx c ≠ MMC_CMD_SWITCH →
    let v' := (send_cmd c d v).2 in
    selected v' = selected v ∧ ∀ k a, k ≠ selected v → area v' k a = area v k a;
  area_switch value v : 0 ≤ value < 256 →
    let '(r, v') := send_cmd (mkCmd MMC_CMD_SWITCH (switch_arg EXT_CSD_PART_CONF value)) NoData v in
    (∀ k a, area v' k a = area v k a) ∧ (err r = 0 → selected v' = Z.land value PART_ACCESS_MASK);
}.

Section Areas.
Context {V : Type} `{MmcHost V} `{Heap V} (m : mmc) `{!CardLaws V (erase_grp_size m)}.
Context `{!AreaLaws V (erase_grp_size m)}.

(** The other areas are as they were; all of them are. *)
Definition keeps_areas (v v' : V) : Prop :=
  selected v' = selected v ∧ ∀ k a, k ≠ selected v → area v' k a = area v k a.
#[export] Instance keeps_areas_preorder : PreOrder keeps_areas.
Proof.
  split; [done|]. intros v1 v2 v3 [S1 A1] [S2 A2]. split; [congruence|].
  intros k a Hk. by rewrite A2, A1 by congruence.
Qed.
Definition same_areas (v v' : V) : Prop := selected v' = selected v ∧ ∀ k a, area v' k a = area v k a.
#[export] Instance same_areas_preorder : PreOrder same_areas.
Proof.
  split; [done|]. intros v1 v2 v3 [S1 A1] [S2 A2]. split; [congruence|]. intros k a. by rewrite A2, A1.
Qed.
Lemma same_areas_of v v' : keeps_areas v v' → same_disk m v v' → same_areas v v'.
Proof.
  intros [Hs Ha] Hd. split; [done|]. intros k a. destruct (decide (k = selected v)) as [->|Hk]; [|by apply Ha].
  specialize (Hd a). by rewrite !area_disk, Hs in Hd.
Qed.
Lemma same_areas_disk v v' : same_areas v v' → same_disk m v v'.
Proof. intros [Hs Ha] a. by rewrite !area_disk, Hs, Ha. Qed.

Lemma send_areas c d : cmdidx c ≠ MMC_CMD_SWITCH → preserves keeps_areas (mmc_send_cmd c d).
Proof. intros Hc v r v' [= E]. pose proof (area_other c d v Hc) as Ha. by rewrite E in Ha. Qed.
#[local] Hint Extern 2 (preserves keeps_areas (mmc_send_cmd _ _)) => apply send_areas; done : preserves.

Lemma status_areas n : preserves keeps_areas (mmc_send_status m n).
Proof.
  unfold mmc_send_status. generalize 5. induction n as [|n IH]; intros k; cbn [send_status_from]; preserve; apply IH.
Qed.
Lemma blocklen_areas len : preserves keeps_areas (mmc_set_blocklen m len).
Proof. unfold mmc_set_blocklen. preserve. Qed.
#[local] Hint Resolve status_areas blocklen_areas : preserves.
Lemma read_blocks_areas start n : preserves keeps_areas (mmc_read_blocks m start n).
Proof.
  unfold mmc_read_blocks. generalize 5%nat. intros k. induction k as [|k IH]; cbn [read_attempts];
    (apply preserves_bind; [apply _|apply send_areas; by destruct (1 <? n)|intros r]);
    (apply preserves_bind; [apply _|preserve|intros s]); preserve; apply IH.
Qed.
Lemma write_blocks_areas start n src : preserves keeps_areas (mmc_write_blocks m start n src).
Proof.
  unfold mmc_write_blocks. destruct (lba m <? _); [preserve|]. destruct (n =? 0); [preserve|].
  apply preserves_bind; [apply _|preserve|intros d].
  apply preserves_bind; [apply _|apply send_areas; by destruct (n =? 1)|intros r]. preserve.
Qed.
#[local] Hint Resolve read_blocks_areas write_blocks_areas : preserves.
#[local] Opaque mmc_send_status mmc_read_blocks.
Lemma bread_from_areas fuel start todo dst : preserves keeps_areas (bread_from fuel m start todo dst).
Proof.
  revert start todo dst. induction fuel as [|fuel IH]; intros start todo dst; cbn [bread_from]; preserve; apply IH.
Qed.
Lemma bwrite_from_areas fuel start todo src : preserves keeps_areas (bwrite_from fuel m start todo src).
Proof.
  revert start todo src. induction fuel as [|fuel IH]; intros start todo src; cbn [bwrite_from]; preserve; apply IH.
Qed.
Lemma bread_areas devs key_area info n start cnt : find_mmc_device devs n = Some m →
  preserves keeps_areas (mmc_bread devs key_area info n start cnt).
Proof.
  intros Hf. unfold mmc_bread. rewrite Hf. preserve. apply bread_from_areas.
Qed.
Lemma bwrite_areas devs key_area info n start cnt src : find_mmc_device devs n = Some m →
  preserves keeps_areas (mmc_bwrite devs key_area info n start cnt src).
Proof.
  intros Hf. unfold mmc_bwrite. rewrite Hf. preserve. apply bwrite_from_areas.
Qed.

Context (healthy : ∀ c d (v : V), ready (send_cmd c d v).1).

(** The value that selects an area. *)
Lemma access_bits c p : 0 ≤ p < 8 →
  Z.land (u8 (Z.lor (Z.ldiff c PART_ACCESS_MASK) (Z.land p PART_ACCESS_MASK))) PART_ACCESS_MASK = p.
Proof.
  intros Hp. unfold u8, PART_ACCESS_MASK. change 0x100 with (2 ^ 8). rewrite <- Z.land_ones by lia.
  rewrite <- Z.land_assoc. change (Z.land (Z.ones 8) 7) with 7. rewrite Z.land_lor_distr_l.
  rewrite Z.land_ldiff, Z.lor_0_l, <- Z.land_assoc. change (Z.land 7 7) with (Z.ones 3).
  rewrite Z.land_ones by lia. by apply Z.mod_small.
Qed.

Lemma switch_ready c p v : 0 ≤ p < 8 →
  ∃ v', mmc_switch m EXT_CSD_PART_CONF (u8 (Z.lor (Z.ldiff c PART_ACCESS_MASK) (Z.land p PART_ACCESS_MASK))) v
        = Ret (0, v')
    ∧ selected v' = p ∧ ∀ k a, area v' k a = area v k a.
Proof.
  intros Hp. set (x := u8 _). assert (Hx : 0 ≤ x < 256) by apply u8_range.
  pose proof (area_switch x v Hx) as Ha. unfold mmc_switch, mbind, comp_bind.
  destruct (send_ready healthy (mkCmd MMC_CMD_SWITCH (switch_arg EXT_CSD_PART_CONF x)) NoData v) as (r & v1 & E1 & He & _).
  rewrite E1. injection E1 as E1. rewrite E1 in Ha. destruct Ha as [Ha Hs]. rewrite He. cbn [Z.eqb].
  destruct (status_ready m healthy v1) as (v2 & E2). exists v2. split; [done|].
  assert (same_areas v1 v2) as [S2 A2].
  { apply same_areas_of; [by eapply status_areas|by eapply status_same]. }
  split; [rewrite S2, (Hs He); by apply access_bits|]. intros k a. by rewrite A2, Ha.
Qed.
End Areas.

Lemma find_device_mmc ds n : find_mmc_device (d_mmc <$> ds) n = d_mmc <$> find_device ds n.
Proof.
  unfold find_mmc_device, find_device. induction ds as [|d ds IH]; [done|]. cbn [fmap list_fmap List.find].
  by destruct (dev (d_mmc d) =? n).
Qed.
Lemma find_device_dev ds n x : find_device ds n = Some x → dev (d_mmc x) = n.
Proof. intros Hf. apply List.find_some in Hf as [_ Hf]. by apply Z.eqb_eq. Qed.
Lemma find_put ds n x x' : find_device ds n = Some x → dev (d_mmc x') = n →
  find_device (put_device n x' ds) n = Some x'.
Proof.
  intros Hf Hx. unfold find_device in *. induction ds as [|d ds IH]; [done|]. cbn [List.find put_device] in *.
  destruct (dev (d_mmc d) =? n) eqn:E; cbn [List.find]; [by rewrite Hx, Z.eqb_refl|]. rewrite E. auto.
Qed.
Lemma put_back ds n x x' : find_device ds n = Some x → dev (d_mmc x') = n →
  put_device n x (put_device n x' ds) = ds.
Proof.
  intros Hf Hx. unfold find_device in *. induction ds as [|d ds IH]; [done|]. cbn [List.find put_device] in *.
  destruct (dev (d_mmc d) =? n) eqn:E; cbn [put_device].
  - injection Hf as ->. by rewrite Hx, Z.eqb_refl.
  - rewrite E. f_equal. auto.
Qed.

Lemma device_eta d :
  mkDevice (d_mmc d) (part_config d) (capacity_user d) (capacity_boot d) (capacity_rpmb d) (capacity_gp d) = d.
Proof. by destruct d. Qed.

(** ** The data store on its card *)

Section Store.
Context {V : Type} `{MmcHost V} `{Heap V} (x : device).
Notation m := (d_mmc x).
Context `{!CardLaws V (erase_grp_size m)} `{!AreaLaws V (erase_grp_size m)}.
Context (key_area : option (Z * Z)) (info_disprotect : Z).
Context (card : emmc m) (ds : list device) (found : find_device ds CFG_FASTBOOT_MMC_NO = Some x).
Context (healthy : ∀ c d (v : V), ready (send_cmd c d v).1).

(** The user area is the one in use, and the data store fits its boot area. *)
Definition boot_mmc : mmc := set_capacity m (capacity_boot x).
Definition store_at : Z := capacity_boot x - CONFIG_IDME_SIZE.
Record areas_ok : Prop := {
  ao_user : m = set_capacity m (capacity_user x);
  ao_boot : CONFIG_IDME_SIZE ≤ capacity_boot x < 2 ^ 40;
  ao_blocks : capacity_boot x mod 512 = 0;
  ao_legal : emmckey_is_access_range_legal key_area info_disprotect boot_mmc (store_at / 512)
               IDME_NUM_OF_EMMC_BLOCKS = Ret true;
}.
Context (areas : areas_ok).

(** The data store as it is on the card. *)
Definition store_image (v : V) : bytes :=
  (fun i => area v CONFIG_IDME_PARTITION_NUM (store_at + Z.of_nat i)) <$> seq 0 (Z.to_nat CONFIG_IDME_SIZE).

Definition with_mmc (c : Z) : device :=
  mkDevice (set_capacity m c) (part_config x) (capacity_user x) (capacity_boot x) (capacity_rpmb x) (capacity_gp x).
Notation boot_devices := (put_device CFG_FASTBOOT_MMC_NO (with_mmc (capacity_boot x)) ds).

Lemma boot_emmc : emmc boot_mmc.
Proof.
  destruct card, areas as [_ Hb _ _]. split; try done. cbn. rewrite emmc_read_len.
  change CONFIG_IDME_SIZE with 102400 in Hb. split; [apply Z.div_pos; lia|]. apply Z.div_le_upper_bound; lia.
Qed.

Lemma found_dev : dev m = CFG_FASTBOOT_MMC_NO.
Proof. by eapply find_device_dev. Qed.

(** Selecting the boot area, and the user area again. *)
Lemma select_boot v : ∃ v',
  Idme.mmc_switch_part (Mmc := driver_mmc key_area info_disprotect) CONFIG_IDME_PARTITION_NUM (mkDriver ds v)
    = (0, mkDriver boot_devices v')
  ∧ selected v' = CONFIG_IDME_PARTITION_NUM ∧ ∀ k a, area v' k a = area v k a.
Proof.
  destruct (switch_ready m healthy (part_config x) CONFIG_IDME_PARTITION_NUM v) as (v' & E & Hs & Ha); [done|].
  exists v'. split; [|done]. cbn [Idme.mmc_switch_part driver_mmc]. unfold answer, mmc_switch_part, mbind, comp_bind, get_devices.
  cbn [devices]. rewrite found. unfold on_host. cbn [host]. by rewrite E.
Qed.
Lemma select_user v : ∃ v',
  Idme.mmc_switch_part (Mmc := driver_mmc key_area info_disprotect) 0 (mkDriver boot_devices v) = (0, mkDriver ds v')
  ∧ selected v' = 0 ∧ ∀ k a, area v' k a = area v k a.
Proof.
  destruct (switch_ready (with_mmc (capacity_boot x)).(d_mmc) healthy (part_config x) 0 v) as (v' & E & Hs & Ha); [done|].
  exists v'. split; [|done]. cbn [Idme.mmc_switch_part driver_mmc]. unfold answer, mmc_switch_part, mbind, comp_bind, get_devices.
  cbn [devices]. rewrite (find_put ds _ x) by (first [done|apply found_dev]). unfold on_host. cbn [host part_config with_mmc].
  rewrite E. cbn [Z.eqb orb]. unfold mmc_set_capacity. cbn [Z.eqb mbind option_bind].
  cbn [capacity_user capacity_boot capacity_rpmb capacity_gp part_config d_mmc with_mmc].
  change (set_capacity (set_capacity m (capacity_boot x)) (capacity_user x)) with (set_capacity m (capacity_user x)).
  rewrite <- (ao_user areas), device_eta. unfold set_devices. cbn [host].
  by rewrite (put_back ds _ x) by (first [done|apply found_dev]).
Qed.

Lemma boot_found v : find_mmc_device (device_list (mkDriver (V := V) boot_devices v)) CFG_FASTBOOT_MMC_NO = Some boot_mmc.
Proof.
  unfold device_list. cbn [devices]. rewrite find_device_mmc, (find_put ds _ x) by (first [done|apply found_dev]). done.
Qed.
Lemma store_blocks : 0 ≤ store_at ∧ store_at = store_at / 512 * 512
  ∧ store_at / 512 + IDME_NUM_OF_EMMC_BLOCKS ≤ lba boot_mmc
  ∧ ∀ b p f v, Idme.idme_block (D := driver V) (H := driver_mmc key_area info_disprotect)
      (mkIdme b p f (mkDriver boot_devices v)) = store_at / 512.
Proof.
  destruct areas as [_ Hb Hm _]. change CONFIG_IDME_SIZE with 102400 in Hb.
  unfold store_at, boot_mmc, IDME_NUM_OF_EMMC_BLOCKS. cbn [lba set_capacity]. rewrite (emmc_read_len _ card).
  change CONFIG_IDME_SIZE with 102400. split_and!; [lia|Z.div_mod_to_equations; lia|Z.div_mod_to_equations; lia|].
  intros b p f v. unfold idme_block. cbn [Idme.mmc Idme.mmc_capacity driver_mmc devices].
  rewrite (find_put ds _ x) by (first [done|apply found_dev]). cbn [capacity d_mmc with_mmc set_capacity].
  unfold IDME_NUM_OF_EMMC_BLOCKS, CONFIG_MMC_BLOCK_SIZE. rewrite u64_small by (split; lia). done.
Qed.

Lemma image_area v v' : (∀ k a, area v' k a = area v k a) → selected v' = CONFIG_IDME_PARTITION_NUM →
  image boot_mmc v' (store_at / 512 * 512) (IDME_NUM_OF_EMMC_BLOCKS * 512) = store_image v.
Proof.
  intros Ha Hs. destruct store_blocks as (_ & <- & _). unfold image, store_image. apply list_fmap_ext.
  intros i y _. etrans; [exact (area_disk (unit := erase_grp_size m) v' _)|]. by rewrite Hs, Ha.
Qed.
Lemma store_image_length v : zlen (store_image v) = CONFIG_IDME_SIZE.
Proof. unfold zlen, store_image. rewrite length_fmap, length_seq. apply Z2Nat.id. discriminate. Qed.
Lemma wr_whole (buf data : bytes) : zlen data = zlen buf → wr buf 0 data = Ret data.
Proof. intros Hl. rewrite <- (app_nil_r buf), wr_app_0 by lia. by rewrite app_nil_r. Qed.

Notation drv := (driver_mmc key_area info_disprotect).
Lemma driver_found (v : V) : Idme.find_mmc_device (Mmc := drv) (mkDriver ds v) = true.
Proof. cbn [Idme.find_mmc_device driver_mmc devices]. rewrite found. by apply bool_decide_true. Qed.
Lemma driver_read b n (d : driver V) r v :
  mmc_bread (device_list d) key_area info_disprotect CFG_FASTBOOT_MMC_NO b n (host d) = Ret (r, v) →
  Idme.block_read (Mmc := drv) b n d = (r, mkDriver (devices d) v).
Proof. intros E. cbn [Idme.block_read driver_mmc]. unfold answer, on_host. by rewrite E. Qed.
Lemma driver_write b n src (d : driver V) r v :
  mmc_bwrite (device_list d) key_area info_disprotect CFG_FASTBOOT_MMC_NO b n src (host d) = Ret (r, v) →
  Idme.block_write (Mmc := drv) b n src d = (r, mkDriver (devices d) v).
Proof. intros E. cbn [Idme.block_write driver_mmc]. unfold answer, on_host. by rewrite E. Qed.

(** Reading the data store changes nothing on the card. *)
Lemma platform_read_ready buf p f v : selected v = 0 → zlen buf = CONFIG_IDME_SIZE →
  ∃ v', idme_platform_read (H := driver_mmc key_area info_disprotect) (mkIdme buf p f (mkDriver ds v))
    = Ret (0, mkIdme (store_image v) p f (mkDriver ds v')) ∧ same_areas m v v'.
Proof.
  intros Hv Hb. destruct store_blocks as (Hz & Hat & Hl & Hblk).
  destruct (select_boot v) as (v1 & E1 & S1 & A1).
  destruct (bread_ready boot_mmc key_area info_disprotect boot_emmc _ CFG_FASTBOOT_MMC_NO (boot_found v1) healthy
    (store_at / 512) IDME_NUM_OF_EMMC_BLOCKS v1) as (v2 & E2 & D2); [lia|done|done|apply areas|].
  rewrite (image_area v v1) in E2 by done.
  assert (same_areas m v1 v2) as [S2 A2].
  { apply same_areas_of; [|exact D2]. by eapply (bread_areas boot_mmc), E2; apply boot_found. }
  destruct (select_user v2) as (v3 & E3 & S3 & A3).
  exists v3. split; [|split; [congruence|]; intros k a; by rewrite A3, A2, A1].
  unfold idme_platform_read, mbind, comp_bind, get_idme, on_mmc. cbn [Idme.mmc gidme_buff pidme_set v2_functions].
  rewrite driver_found. cbn [negb Idme.mmc gidme_buff pidme_set v2_functions].
  rewrite E1. cbn [Z.eqb negb Idme.mmc gidme_buff pidme_set v2_functions]. rewrite Hblk.
  rewrite (driver_read _ _ (mkDriver boot_devices v1) _ _ E2). cbn beta iota. cbn [devices].
  cbn [Idme.mmc gidme_buff pidme_set v2_functions].
  rewrite (lift_run _ _ _ (wr_whole buf (store_image v) (eq_trans (store_image_length v) (eq_sym Hb)))).
  unfold set_buff. cbn [Idme.mmc gidme_buff pidme_set v2_functions]. by rewrite E3.
Qed.

(** Writing it changes nothing else. *)
Definition only_store (v v' : V) : Prop := selected v' = selected v ∧
  ∀ k a, ¬ (k = CONFIG_IDME_PARTITION_NUM ∧ store_at ≤ a < store_at + CONFIG_IDME_SIZE) → area v' k a = area v k a.
#[export] Instance only_store_preorder : PreOrder only_store.
Proof.
  split; [done|]. intros v1 v2 v3 [S1 A1] [S2 A2]. split; [congruence|]. intros k a Hk. by rewrite A2, A1.
Qed.
Lemma only_store_disk v v' : selected v = 0 → only_store v v' → same_disk m v v'.
Proof.
  intros Hv [Hs Ha] a. rewrite !area_disk, Hs, Hv. apply Ha. by intros [? _].
Qed.

Lemma platform_write_ready buf f v : selected v = 0 → zlen buf = CONFIG_IDME_SIZE →
  ∃ v', idme_platform_write (H := driver_mmc key_area info_disprotect) (mkIdme buf true f (mkDriver ds v))
    = Ret (0, mkIdme buf true f (mkDriver ds v')) ∧ store_image v' = buf ∧ only_store v v'.
Proof.
  intros Hv Hb. destruct store_blocks as (Hz & Hat & Hl & Hblk).
  destruct (select_boot v) as (v1 & E1 & S1 & A1).
  destruct (bwrite_ready boot_mmc key_area info_disprotect boot_emmc _ CFG_FASTBOOT_MMC_NO (boot_found v1) healthy
    (store_at / 512) IDME_NUM_OF_EMMC_BLOCKS buf v1) as (v2 & E2 & D2); [lia|done|done|by rewrite Hb|apply areas|].
  change (IDME_NUM_OF_EMMC_BLOCKS * 512) with CONFIG_IDME_SIZE in D2. rewrite <- Hat, <- Hb, slice_all in D2.
  assert (keeps_areas m v1 v2) as [S2 A2] by (eapply (bwrite_areas boot_mmc), E2; apply boot_found).
  destruct (select_user v2) as (v3 & E3 & S3 & A3).
  assert (∀ a, area v3 CONFIG_IDME_PARTITION_NUM a = over (area v CONFIG_IDME_PARTITION_NUM) store_at buf a) as Ha.
  { intros a. specialize (D2 a). rewrite A3. etrans; [|etrans; [exact D2|]].
    - symmetry. etrans; [exact (area_disk (unit := erase_grp_size m) v2 a)|]. by rewrite S2, S1.
    - apply over_ext. intros b. etrans; [exact (area_disk (unit := erase_grp_size m) v1 b)|]. by rewrite S1, A1. }
  exists v3. split_and!.
  - unfold idme_platform_write, mbind, comp_bind, get_idme, pidme_data, on_mmc. cbn [Idme.mmc gidme_buff pidme_set v2_functions].
    rewrite driver_found. cbn [negb Idme.mmc gidme_buff pidme_set v2_functions].
    rewrite E1. cbn [Z.eqb negb Idme.mmc gidme_buff pidme_set v2_functions]. rewrite Hblk.
    rewrite (driver_write _ _ _ (mkDriver boot_devices v1) _ _ E2). cbn beta iota. cbn [devices].
    cbn [Idme.mmc gidme_buff pidme_set v2_functions]. by rewrite E3.
  - unfold store_image. rewrite <- Hb. unfold zlen. rewrite Nat2Z.id. apply list_eq. intros i. rewrite list_lookup_fmap.
    destruct (decide (i < length buf)%nat) as [Hi|Hi].
    + rewrite lookup_seq_lt by done. cbn. rewrite Ha, over_in by (unfold zlen; lia).
      replace (Z.to_nat _) with i by lia. symmetry. by apply list_lookup_lookup_total_lt.
    + by rewrite lookup_seq_ge, lookup_ge_None_2 by lia.
  - split; [congruence|]. intros k a Hk. destruct (decide (k = CONFIG_IDME_PARTITION_NUM)) as [->|Hne].
    + rewrite Ha, over_out; [done|]. rewrite Hb. tauto.
    + by rewrite A3, A2, A1 by congruence.
Qed.
End Store.
