(* ===== verification/Sparse.v ===== *)
(** * Writing images to partitions

    [common/aboot.c], which expands a sparse image onto a partition, and
    [common/fb_mmc.c], the eMMC behind "flash" and "erase" of fastboot.  The
    board is built with [CONFIG_EFI_PARTITION], [CONFIG_AML_PARTITION] and
    [DTB_BIND_KERNEL]. *)

From S2P Require Import Prelude MmcBlock.

(** ** Data *)

Definition SPARSE_HEADER_MAGIC : Z := 0xed26ff3a.
Definition CHUNK_TYPE_RAW : Z := 0xCAC1.
Definition CHUNK_TYPE_FILL : Z := 0xCAC2.
Definition CHUNK_TYPE_DONT_CARE : Z := 0xCAC3.
Definition CHUNK_TYPE_CRC32 : Z := 0xCAC4.
Definition sizeof_sparse_header : Z := 28.
Definition sizeof_chunk_header : Z := 12.
Definition CONFIG_FASTBOOT_FLASH_FILLBUF_SIZE : Z := 1024 * 512.
Definition ARCH_DMA_MINALIGN : Z := 64.
Definition ROUNDUP (x y : Z) : Z := Z.land (u64 (x + (y - 1))) (u64 (Z.lnot (y - 1))).

Record sparse_header := mkSparse {
  magic : Z;
  major_version : Z;
  file_hdr_sz : Z;
  chunk_hdr_sz : Z;
  blk_sz : Z;
  total_blks : Z;
  total_chunks : Z;
}.
Definition sparse_header_of (b : bytes) : sparse_header :=
  mkSparse (le_decode (slice b 0 4)) (le_decode (slice b 4 2)) (le_decode (slice b 8 2))
    (le_decode (slice b 10 2)) (le_decode (slice b 12 4)) (le_decode (slice b 16 4))
    (le_decode (slice b 20 4)).
Definition read_sparse_header (data : bytes) : run sparse_header :=
  b ← rd data 0 sizeof_sparse_header; mret (sparse_header_of b).

Record chunk_header := mkChunk {
  chunk_type : Z;
  chunk_sz : Z;
  total_sz : Z;
}.
Definition chunk_header_of (b : bytes) : chunk_header :=
  mkChunk (le_decode (slice b 0 2)) (le_decode (slice b 4 4)) (le_decode (slice b 8 4)).
Definition read_chunk_header (data : bytes) : run chunk_header :=
  b ← rd data 0 sizeof_chunk_header; mret (chunk_header_of b).

Definition is_sparse_image (buf : bytes) : run bool :=
  h ← read_sparse_header buf;
  mret ((magic h =? SPARSE_HEADER_MAGIC) && (major_version h =? 1)).

(** [disk_partition_t], and the part of [sparse_storage] that comes from it. *)
Record disk_partition := mkPart {
  p_start : Z;
  p_size : Z;
  p_blksz : Z;
}.

(** The answer to the host. *)
Inductive reply :=
| FailReply (reason : bytes)
| OkayReply.
#[export] Instance reply_eq_dec : EqDecision reply.
Proof. solve_decision. Defined.

(** A block device: blocks from memory, and blocks erased. *)
Class BlockDev (V : Type) := {
  block_write : Z → Z → bytes → comp V Z;
  block_erase : Z → Z → comp V Z;
}.

(** The device, and the answers so far, the latest first. *)
Record Flash (V : Type) := mkFlash {
  fl_dev : V;
  fl_replies : list reply;
}.
Arguments mkFlash {V} _ _.
Arguments fl_dev {V} _.
Arguments fl_replies {V} _.

Section Sparse.
Context {V : Type} `{BlockDev V} `{Heap V}.
Notation W := (Flash V).

Definition on_dev {A} (c : comp V A) : comp W A := fun w =>
  match c (fl_dev w) with
  | Ret (a, v) => Ret (a, mkFlash v (fl_replies w))
  | Crash e => Crash e
  end.
Definition fastboot_reply (r : reply) : comp W unit := fun w =>
  Ret (tt, mkFlash (fl_dev w) (r :: fl_replies w)).
(** [fastboot_fail] before [return -1]. *)
Definition fail {A} (reason : bytes) : comp W (option A) := fastboot_reply (FailReply reason);; mret None.

(** ** Sparse images *)

(** The loop that writes a filled buffer of [num] blocks until [blkcnt] blocks
    are written: [i] and [j] are [int]. *)
Fixpoint fill_from (fuel : nat) (buf : bytes) (num blkcnt blk i : Z) : comp W (option Z) :=
  if u64 i <? blkcnt then
    match fuel with
    | O => fun _ => Crash NoFuel
    | S fuel =>
        let j := s32 (u64 (blkcnt - u64 i)) in
        let j := if num <? j then num else j in
        blks ← on_dev (block_write blk (u64 j) buf);
        if blks <? u64 j then fail (str "flash write failure")
        else fill_from fuel buf num blkcnt (u64 (blk + blks)) (s32 (i + j))
    end
  else mret (Some blk).

Definition fill_passes (num blkcnt : Z) : nat := S (Z.to_nat (blkcnt / num)).

Section Image.
Context (info : disk_partition) (h : sparse_header).
Notation blksz := (p_blksz info).

Definition fill_buf_num_blks : Z := s32 (CONFIG_FASTBOOT_FLASH_FILLBUF_SIZE / blksz).
Definition exceeds (blk blkcnt : Z) : bool := u64 (p_start info + p_size info) <? u64 (blk + blkcnt).

(** A chunk leaves the rest of the image, the next block and the blocks counted. *)
Definition raw_chunk (ch : chunk_header) (data : bytes) (blk total : Z) : comp W (option (bytes * Z * Z)) :=
  let chunk_data_sz := u64 (blk_sz h * chunk_sz ch) in
  let blkcnt := chunk_data_sz / blksz in
  if negb (total_sz ch =? u64 (chunk_hdr_sz h + chunk_data_sz))
  then fail (str "Bogus chunk size for chunk type Raw") else
  if exceeds blk blkcnt then fail (str "Request would exceed partition size!") else
  blks ← on_dev (block_write blk blkcnt data);
  if blks <? blkcnt then fail (str "flash write failure") else
  mret (Some (drop (Z.to_nat chunk_data_sz) data, u64 (blk + blks), u32 (total + chunk_sz ch))).

Definition fill_chunk (ch : chunk_header) (data : bytes) (blk total : Z) : comp W (option (bytes * Z * Z)) :=
  let chunk_data_sz := u64 (blk_sz h * chunk_sz ch) in
  let blkcnt := chunk_data_sz / blksz in
  let buf_size := u64 (blksz * fill_buf_num_blks) in
  if negb (total_sz ch =? chunk_hdr_sz h + 4)
  then fail (str "Bogus chunk size for chunk type FILL") else
  ok ← on_dev (malloc (ROUNDUP buf_size ARCH_DMA_MINALIGN));
  if negb ok then fail (str "Malloc failed for: CHUNK_TYPE_FILL") else
  fill_val ← lift (rd data 0 4);
  let fill_buf := concat (replicate (Z.to_nat (buf_size / 4)) fill_val) in
  if exceeds blk blkcnt then fail (str "Request would exceed partition size!") else
  r ← fill_from (fill_passes fill_buf_num_blks blkcnt) fill_buf fill_buf_num_blks blkcnt blk 0;
  match r return comp W (option (bytes * Z * Z)) with
  | None => mret None
  | Some blk =>
      if blk_sz h =? 0 then (fun _ => Crash Aborted)
      else mret (Some (drop 4 data, blk, u32 (total + u32 (chunk_data_sz / blk_sz h))))
  end.

Definition dont_care_chunk (ch : chunk_header) (data : bytes) (blk total : Z)
    : comp W (option (bytes * Z * Z)) :=
  let blkcnt := u64 (blk_sz h * chunk_sz ch) / blksz in
  mret (Some (data, u64 (blk + blkcnt), u32 (total + chunk_sz ch))).

Definition crc32_chunk (ch : chunk_header) (data : bytes) (blk total : Z) : comp W (option (bytes * Z * Z)) :=
  if negb (total_sz ch =? chunk_hdr_sz h)
  then fail (str "Bogus chunk size for chunk type Dont Care")
  else mret (Some (drop (Z.to_nat (u64 (blk_sz h * chunk_sz ch))) data, blk, u32 (total + chunk_sz ch))).

Definition one_chunk (data : bytes) (blk total : Z) : comp W (option (bytes * Z * Z)) :=
  ch ← lift (read_chunk_header data);
  let data := drop (Z.to_nat sizeof_chunk_header) data in
  let data := if sizeof_chunk_header <? chunk_hdr_sz h
              then drop (Z.to_nat (chunk_hdr_sz h - sizeof_chunk_header)) data else data in
  if chunk_type ch =? CHUNK_TYPE_RAW then raw_chunk ch data blk total
  else if chunk_type ch =? CHUNK_TYPE_FILL then fill_chunk ch data blk total
  else if chunk_type ch =? CHUNK_TYPE_DONT_CARE then dont_care_chunk ch data blk total
  else if chunk_type ch =? CHUNK_TYPE_CRC32 then crc32_chunk ch data blk total
  else fail (str "Unknown chunk type").

Fixpoint chunks_from (n : nat) (data : bytes) (blk total : Z) : comp W (option Z) :=
  match n with
  | O => mret (Some total)
  | S n =>
      r ← one_chunk data blk total;
      match r with
      | None => mret None
      | Some (data, blk, total) => chunks_from n data blk total
      end
  end.
End Image.

(** The size of the download is not looked at. *)
Definition write_sparse_image (info : disk_partition) (data : bytes) : comp W Z :=
  h ← lift (read_sparse_header data);
  let data := drop (Z.to_nat (file_hdr_sz h)) data in
  let data := if sizeof_sparse_header <? file_hdr_sz h
              then drop (Z.to_nat (file_hdr_sz h - sizeof_sparse_header)) data else data in
  if negb (blk_sz h =? Z.land (blk_sz h) (u64 (Z.lnot (u64 (p_blksz info - 1)))))
  then fastboot_reply (FailReply (str "sparse image block size issue"));; mret (-1) else
  r ← chunks_from info h (Z.to_nat (total_chunks h)) data (p_start info) 0;
  match r with
  | None => mret (-1)
  | Some total_blocks =>
      if negb (total_blocks =? total_blks h)
      then fastboot_reply (FailReply (str "sparse image write failure"));; mret (-1)
      else fastboot_reply OkayReply;; mret 0
  end.

(** ** Raw images *)

Definition write_raw_image (info : disk_partition) (buffer : bytes) (download_bytes : Z) : comp W unit :=
  let blkcnt := Z.land (u64 (download_bytes + u64 (p_blksz info - 1))) (u64 (Z.lnot (u64 (p_blksz info - 1)))) in
  let blkcnt := blkcnt / p_blksz info in
  if p_size info <? blkcnt then fastboot_reply (FailReply (str "too large for partition")) else
  blks ← on_dev (block_write (p_start info) blkcnt buffer);
  if negb (blks =? blkcnt) then fastboot_reply (FailReply (str "failed writing to device"))
  else fastboot_reply OkayReply.
End Sparse.

(** ** Partitions *)

Inductive part_type := PART_TYPE_EFI | PART_TYPE_AML | PART_TYPE_DOS | PART_TYPE_OTHER.
#[export] Instance part_type_eq_dec : EqDecision part_type.
Proof. solve_decision. Defined.

Definition CONFIG_FASTBOOT_GPT_NAME : bytes := str "gpt".
Definition CONFIG_FASTBOOT_MBR_NAME : bytes := str "mbr".
Definition AML_BL_USER : Z := 1.
Definition AML_BL_BOOT0 : Z := 2.
Definition AML_BL_BOOT1 : Z := 4.

(** The partition tables and the bootloader areas of the device; [None] and
    results other than 0 are errors. *)
Class Partitions (V : Type) := {
  known_device : bool;
  device_part_type : part_type;
  get_partition_info_efi_by_name : bytes → option disk_partition;
  get_partition_info_aml_by_name : bytes → option disk_partition;
  getenv_alias : bytes → option bytes;
  is_valid_gpt_buf : bytes → Z;
  write_mbr_and_gpt_partitions : bytes → comp V Z;
  emmc_update_mbr : bytes → comp V Z;
  amlmmc_write_bootloader : Z → Z → bytes → comp V Z;
  amlmmc_erase_bootloader : Z → comp V Z;
  found_erase_grp_size : option Z;
}.

Section FbMmc.
Context {V : Type} `{BlockDev V} `{Heap V} `{Partitions V}.
(** What [info] holds before it is filled in. *)
Context (stale : disk_partition).
Notation W := (Flash V).
Notation fails s := (fastboot_reply (FailReply (str s))).

Definition part_get_info_efi_by_name_or_alias (name : bytes) : option disk_partition :=
  match get_partition_info_efi_by_name name with
  | Some info => Some info
  | None =>
      match getenv_alias (str "fastboot_partition_alias_" ++ take 32 name) with
      | Some aliased_part_name => get_partition_info_efi_by_name aliased_part_name
      | None => None
      end
  end.

(** The string from the first [c] on. *)
Fixpoint strchr (s : bytes) (c : Z) : option bytes :=
  match s with
  | [] => None
  | x :: r => if x =? c then Some s else strchr r c
  end.

(** Which copies of the bootloader a name stands for. *)
Definition bootloader_map (cmd : bytes) : Z :=
  match strchr cmd 45 with
  | None => AML_BL_USER
  | Some hwpart => if bool_decide (hwpart = str "-boot0") then AML_BL_BOOT0
                   else if bool_decide (hwpart = str "-boot1") then AML_BL_BOOT1 else 0
  end.
Definition fb_mmc_bootloader_ops (cmd : bytes) (buffer : option bytes) (n : Z) : comp W unit :=
  let map := bootloader_map cmd in
  if negb (map =? 0) then
    ret ← on_dev (match buffer with
                  | Some buffer => amlmmc_write_bootloader map n buffer
                  | None => amlmmc_erase_bootloader map
                  end);
    if negb (ret =? 0) then fails "failed bootloader operating to device" else fastboot_reply OkayReply
  else fails "failed opearting from device".

(** The image once the partition is known. *)
Definition write_image (cmd : bytes) (info : disk_partition) (buffer : bytes) (download_bytes : Z)
    : comp W unit :=
  if bool_decide (cmd = str "dtb") then fails "dtb is bind in kernel, return"
  else if has_prefix cmd (str "bootloader") then fb_mmc_bootloader_ops cmd (Some buffer) download_bytes
  else sparse ← lift (is_sparse_image buffer);
       if sparse : bool then write_sparse_image info buffer;; mret tt
       else write_raw_image info buffer download_bytes.

Definition is_aml_or_dos : bool :=
  bool_decide (device_part_type = PART_TYPE_AML) || bool_decide (device_part_type = PART_TYPE_DOS).

(** The second half: the partition table of the board and of DOS. *)
Definition flash_aml (cmd : bytes) (info : disk_partition) (buffer : bytes) (download_bytes : Z)
    : comp W unit :=
  if is_aml_or_dos || bool_decide (cmd = CONFIG_FASTBOOT_MBR_NAME) then
    if bool_decide (cmd = CONFIG_FASTBOOT_MBR_NAME) then
      ret ← on_dev (emmc_update_mbr buffer);
      if negb (ret =? 0) then fails "fastboot update mbr fail" else fastboot_reply OkayReply
    else match get_partition_info_aml_by_name cmd with
         | None => fails "cannot find partition"
         | Some info => write_image cmd info buffer download_bytes
         end
  else write_image cmd info buffer download_bytes.

Definition fb_mmc_flash_write (cmd buffer : bytes) (download_bytes : Z) : comp W unit :=
  if negb known_device then fails "invalid mmc device" else
  if bool_decide (device_part_type = PART_TYPE_EFI) then
    if bool_decide (cmd = CONFIG_FASTBOOT_GPT_NAME) then
      if negb (is_valid_gpt_buf buffer =? 0) then fails "invalid GPT partition" else
      ret ← on_dev (write_mbr_and_gpt_partitions buffer);
      if negb (ret =? 0) then fails "writing GPT partitions failed" else fastboot_reply OkayReply
    else match get_partition_info_efi_by_name cmd with
         | None => fails "cannot find partition"
         | Some info => flash_aml cmd info buffer download_bytes
         end
  else flash_aml cmd stale buffer download_bytes.

(** The whole groups inside a partition, of sizes that are powers of two. *)
Definition erase_first (info : disk_partition) (grp_size : Z) : Z :=
  Z.land (u64 (u64 (p_start info + grp_size) - 1)) (u64 (Z.lnot (u64 (grp_size - 1)))).
Definition erase_count (info : disk_partition) (grp_size : Z) : Z :=
  if grp_size <=? p_size info
  then Z.land (u64 (p_size info - u64 (erase_first info grp_size - p_start info)))
         (u64 (Z.lnot (u64 (grp_size - 1))))
  else 0.

(** The partition, or [None] when a lookup failed. *)
Definition erase_info (cmd : bytes) : option disk_partition :=
  match device_part_type with
  | PART_TYPE_EFI => part_get_info_efi_by_name_or_alias cmd
  | PART_TYPE_AML | PART_TYPE_DOS => get_partition_info_aml_by_name cmd
  | PART_TYPE_OTHER => Some stale
  end.

Definition fb_mmc_erase_write (cmd : bytes) : comp W unit :=
  match found_erase_grp_size with
  | None => fails "invalid mmc device"
  | Some grp_size =>
      if negb known_device then fails "invalid mmc device" else
      match erase_info cmd with
      | None => fails "cannot find partition"
      | Some info =>
          if has_prefix cmd (str "bootloader") then fb_mmc_bootloader_ops cmd None 0
          else blks ← on_dev (block_erase (erase_first info grp_size) (erase_count info grp_size));
               if negb (blks =? 0) then fails "failed erasing from device"
               else fastboot_reply OkayReply
      end
  end.
End FbMmc.
