(* ===== verification/SparseSpec.v ===== *)
(** * What writing an image does to the device

    Images stay inside their partition, a sparse image is expanded onto it, and
    an erase takes the whole groups of it. *)

From S2P Require Import Prelude MmcBlock Sparse.

(** What is known of a block device with blocks of 512 bytes: a write touches
    only its blocks, has stored them when it returns their number, and is done
    where the device is writable. *)
Class DiskLaws (V : Type) `{BlockDev V} := {
  on_disk : V → Z → Z;
  writable : Z → Z → Prop;
  block_write_frame start n src v k v' :
    0 ≤ start → 0 ≤ n → start + n < 2 ^ 64 → block_write start n src v = Ret (k, v') →
    k ≤ n ∧ ∀ a, ¬ (start * 512 ≤ a < (start + n) * 512) → on_disk v' a = on_disk v a;
  block_write_ok start n src v :
    writable start n → 0 ≤ start → 0 < n → start + n < 2 ^ 64 → n * 512 ≤ zlen src →
    ∃ v', block_write start n src v = Ret (n, v')
      ∧ ∀ a, on_disk v' a = over (on_disk v) (start * 512) (slice src 0 (n * 512)) a;
}.

(** Clearing the low bits rounds down. *)
Lemma align_down k x : 0 ≤ k < 64 → 0 ≤ x < 2 ^ 64 →
  Z.land x (u64 (Z.lnot (u64 (2 ^ k - 1)))) = x / 2 ^ k * 2 ^ k.
Proof.
  intros Hk Hx. pose proof (Z.pow_pos_nonneg 2 k ltac:(lia) ltac:(lia)).
  pose proof (Z.pow_lt_mono_r 2 k 64 ltac:(lia) ltac:(lia) ltac:(lia)).
  rewrite (u64_small (2 ^ k - 1)) by (split; lia).
  replace (2 ^ k - 1) with (Z.ones k) by (rewrite Z.ones_equiv; lia).
  unfold u64. change 0x10000000000000000 with (2 ^ 64). rewrite <- Z.land_ones by lia.
  rewrite (Z.land_comm (Z.lnot _)), Z.land_assoc, Z.land_ones, Z.mod_small, <- Z.ldiff_land by lia.
  rewrite Z.ldiff_ones_r, Z.shiftl_mul_pow2, Z.shiftr_div_pow2 by lia. done.
Qed.

Section Sparse.
Context {V : Type} `{BlockDev V} `{Heap V} `{!DiskLaws V}.
Context (heap_disk : ∀ n v a, on_disk (heap_alloc n v).2 a = on_disk v a).
Notation W := (Flash V).

Definition disk_of (w : W) : Z → Z := on_disk (fl_dev w).

(** ** Inside the partition *)

(** Nothing but some bytes changes. *)
Definition within (lo hi : Z) (w w' : W) : Prop := ∀ a, ¬ (lo ≤ a < hi) → disk_of w' a = disk_of w a.
#[export] Instance within_preorder lo hi : PreOrder (within lo hi).
Proof. split; [by intros w a|]. intros w1 w2 w3 W1 W2 a Ha. by rewrite W2, W1. Qed.
Lemma within_wider lo hi lo' hi' w w' : lo' ≤ lo → hi ≤ hi' → within lo hi w w' → within lo' hi' w w'.
Proof. intros Hlo Hhi Hw a Ha. apply Hw. lia. Qed.

Lemma within_reply lo hi r : preserves (within lo hi) (fastboot_reply (V := V) r).
Proof. by intros w a w' [= _ <-] x _. Qed.
Lemma within_fail {A} lo hi s : preserves (within lo hi) (fail (V := V) (A := A) s).
Proof. unfold fail. apply preserves_bind; [apply _|apply within_reply|intros; apply preserves_ret, _]. Qed.
Lemma within_malloc lo hi n : preserves (within lo hi) (on_dev (V := V) (malloc n)).
Proof.
  intros w a w'. unfold on_dev, malloc. pose proof (heap_disk n (fl_dev w)) as Hd.
  destruct (heap_alloc n (fl_dev w)) as [o v]. intros [= _ <-] x _. apply Hd.
Qed.

Lemma on_dev_Ret {A} (c : comp V A) (w : W) a w' :
  on_dev c w = Ret (a, w') → c (fl_dev w) = Ret (a, fl_dev w') ∧ fl_replies w' = fl_replies w.
Proof. unfold on_dev. destruct (c _) as [[x v]|]; [|done]. by intros [= <- <-]. Qed.

(** Filling [blkcnt] blocks from [b0] on. *)
Lemma fill_within fuel buf num blkcnt b0 i (w : W) r w' :
  0 ≤ b0 → 0 ≤ i ≤ blkcnt → blkcnt < 2 ^ 31 → b0 + blkcnt < 2 ^ 64 → 0 < num →
  fill_from fuel buf num blkcnt (b0 + i) i w = Ret (r, w') →
  within (b0 * 512) ((b0 + blkcnt) * 512) w w' ∧ (∀ blk, r = Some blk → blk = b0 + blkcnt).
Proof.
  intros Hb. revert i w. induction fuel as [|fuel IH]; intros i w Hi Hc Hw Hn E; cbn [fill_from] in E;
    rewrite (u64_small i) in E by (split; lia).
  - destruct (Z.ltb_spec i blkcnt); [done|]. run_inv. simplify_eq. split; [done|]. intros blk [= <-]. lia.
  - destruct (Z.ltb_spec i blkcnt) as [Hlt|].
    2: { run_inv. simplify_eq. split; [done|]. intros blk [= <-]. lia. }
    rewrite (u64_small (blkcnt - i)), (s32_small (blkcnt - i)) in E by (split; lia).
    set (j := if num <? blkcnt - i then num else blkcnt - i) in E.
    assert (Hj : 0 < j ≤ blkcnt - i) by (unfold j; destruct (Z.ltb_spec num (blkcnt - i)); lia).
    rewrite (u64_small j) in E by (split; lia).
    apply comp_bind_Ret in E as (blks & w1 & Ew & E). pose proof (on_dev_Ret _ _ _ _ Ew) as [Ed _].
    apply block_write_frame in Ed as [Hle Hframe]; [|lia..].
    assert (W1 : within (b0 * 512) ((b0 + blkcnt) * 512) w w1) by (intros a Ha; apply Hframe; lia).
    destruct (Z.ltb_spec blks j).
    { split; [etrans; [done|by eapply within_fail]|]. intros blk ->.
      unfold fail in E. apply comp_bind_Ret in E as (? & ? & _ & E). by run_inv. }
    rewrite (u64_small (b0 + i + blks)), (s32_small (i + j)) in E by (split; lia).
    replace (b0 + i + blks) with (b0 + (i + j)) in E by lia.
    apply IH in E as [W2 Hr]; [|lia..]. split; [by etrans|done].
Qed.

Section Partition.
Context (info : disk_partition) (h : sparse_header).
Context (blocks : p_blksz info = 512) (start_ok : 0 ≤ p_start info) (size_ok : 0 ≤ p_size info < 2 ^ 31)
  (end_ok : p_start info + p_size info < 2 ^ 64) (blk_sz_ok : 0 ≤ blk_sz h < 2 ^ 32).
Notation inside := (within (p_start info * 512) ((p_start info + p_size info) * 512)).

(** The most blocks a chunk can stand for. *)
Definition chunk_step : Z := blk_sz h * (2 ^ 32 - 1) / 512.
Definition chunk_cnt (ch : chunk_header) : Z := u64 (blk_sz h * chunk_sz ch) / p_blksz info.

Lemma chunk_cnt_bounds ch : 0 ≤ chunk_sz ch < 2 ^ 32 → 0 ≤ chunk_cnt ch ≤ chunk_step.
Proof.
  intros Hc. unfold chunk_cnt, chunk_step. rewrite blocks, u64_small by (split; nia).
  split; [apply Z.div_pos; nia|]. apply Z.div_le_mono; nia.
Qed.

(** A chunk that fits is inside the partition. *)
Lemma not_exceeds blk n : 0 ≤ blk → 0 ≤ n → blk + n < 2 ^ 64 → exceeds info blk n = false →
  blk + n ≤ p_start info + p_size info.
Proof.
  intros Hb Hn Hw. unfold exceeds. rewrite !u64_small by (split; lia). by intros ?%Z.ltb_ge.
Qed.

(** What a chunk may do, from block [blk] on. *)
Definition chunk_ok (blk : Z) (w : W) (r : option (bytes * Z * Z)) (w' : W) : Prop :=
  inside w w' ∧ ∀ data blk' total, r = Some (data, blk', total) → bytes_ok data ∧ blk ≤ blk' ≤ blk + chunk_step.

Lemma chunk_fail blk s w r w' : fail s w = Ret (r, w') → chunk_ok blk w r w'.
Proof.
  intros E. split; [by eapply within_fail|]. intros d b t ->. unfold fail in E.
  apply comp_bind_Ret in E as (? & ? & _ & E). by run_inv.
Qed.

Lemma raw_within ch data blk total w r w' :
  bytes_ok data → p_start info ≤ blk → blk + chunk_step < 2 ^ 64 → 0 ≤ chunk_sz ch < 2 ^ 32 →
  raw_chunk info h ch data blk total w = Ret (r, w') → chunk_ok blk w r w'.
Proof.
  intros Hd Hb Hs Hc E. pose proof (chunk_cnt_bounds ch Hc) as Hn. unfold raw_chunk in E. fold (chunk_cnt ch) in E.
  destruct (negb _); [by eapply chunk_fail|].
  destruct (exceeds info blk (chunk_cnt ch)) eqn:He; [by eapply chunk_fail|]. apply not_exceeds in He; [|lia..].
  apply comp_bind_Ret in E as (blks & w1 & Ew & E). apply on_dev_Ret in Ew as [Ed _].
  apply block_write_frame in Ed as [Hle Hframe]; [|lia..].
  assert (W1 : inside w w1) by (intros a Ha; apply Hframe; lia).
  destruct (Z.ltb_spec blks (chunk_cnt ch)).
  - apply (chunk_fail blk) in E as [W2 Hr]. split; [by etrans|done].
  - run_inv. simplify_eq. split; [done|]. intros d b t [= <- <- _].
    split; [by apply Forall_drop|]. rewrite u64_small by (split; lia). lia.
Qed.

Lemma fill_chunk_within ch data blk total w r w' :
  bytes_ok data → p_start info ≤ blk → blk + chunk_step < 2 ^ 64 → 0 ≤ chunk_sz ch < 2 ^ 32 →
  fill_chunk info h ch data blk total w = Ret (r, w') → chunk_ok blk w r w'.
Proof.
  intros Hd Hb Hs Hc E. pose proof (chunk_cnt_bounds ch Hc) as Hn. unfold fill_chunk in E. fold (chunk_cnt ch) in E.
  destruct (negb _); [by eapply chunk_fail|].
  apply comp_bind_Ret in E as (ok & w1 & E1 & E). apply (within_malloc (p_start info * 512) ((p_start info + p_size info) * 512)) in E1.
  assert (∀ r, chunk_ok blk w1 r w' → chunk_ok blk w r w') as Hfrom by (intros r' [? ?]; split; [by etrans|done]).
  apply Hfrom. destruct ok; cbn [negb] in E; [|by eapply chunk_fail].
  apply comp_bind_Ret in E as (val & w2 & (? & _ & [= <- ->])%lift_Ret & E).
  destruct (exceeds info blk (chunk_cnt ch)) eqn:He; [by eapply chunk_fail|]. apply not_exceeds in He; [|lia..].
  assert (fill_buf_num_blks info = 1024) as Hnum by (unfold fill_buf_num_blks; by rewrite blocks).
  rewrite Hnum in E.
  apply comp_bind_Ret in E as (r1 & w3 & Ef & E).
  rewrite <- (Z.add_0_r blk) in Ef. apply fill_within in Ef as [W3 Hr]; [|lia..].
  assert (inside w1 w3) by (eapply within_wider; [..|exact W3]; lia).
  destruct r1 as [blk'|]; [|run_inv; by simplify_eq].
  specialize (Hr blk' eq_refl) as ->. destruct (blk_sz h =? 0); [done|]. run_inv. simplify_eq.
  split; [done|]. intros d b t [= <- <- _]. split; [by apply Forall_drop|lia].
Qed.

Lemma chunk_sz_range data ch : bytes_ok data → read_chunk_header data = Ret ch → 0 ≤ chunk_sz ch < 2 ^ 32.
Proof.
  intros Hd E. unfold read_chunk_header in E. apply run_bind_Ret in E as (b & Eb & [= <-]).
  apply rd_Ret in Eb as (_ & _ & Hl & ->). cbn [chunk_sz chunk_header_of].
  rewrite slice_slice by (unfold sizeof_chunk_header; lia). pose proof (le_decode_range (slice data (0 + 4) 4) ltac:(by apply slice_ok)) as Hr.
  rewrite zlen_slice in Hr by (unfold sizeof_chunk_header in Hl; lia). exact Hr.
Qed.

Lemma one_chunk_within data blk total w r w' :
  bytes_ok data → p_start info ≤ blk → blk + chunk_step < 2 ^ 64 →
  one_chunk info h data blk total w = Ret (r, w') → chunk_ok blk w r w'.
Proof.
  intros Hd Hb Hs E. unfold one_chunk in E.
  apply comp_bind_Ret in E as (ch & w1 & (? & Hch & [= <- ->])%lift_Ret & E).
  pose proof (chunk_sz_range _ _ Hd Hch) as Hc.
  set (data' := if sizeof_chunk_header <? chunk_hdr_sz h then _ else _) in E.
  assert (bytes_ok data') as Hd'
    by (unfold data'; destruct (_ <? _); repeat apply Forall_drop; done).
  destruct (_ =? CHUNK_TYPE_RAW); [by eapply raw_within|].
  destruct (_ =? CHUNK_TYPE_FILL); [by eapply fill_chunk_within|].
  pose proof (chunk_cnt_bounds ch Hc) as Hn.
  destruct (_ =? CHUNK_TYPE_DONT_CARE).
  { unfold dont_care_chunk in E. fold (chunk_cnt ch) in E. run_inv. simplify_eq.
    split; [done|]. intros d b t [= <- <- _]. rewrite u64_small by (split; lia). split; [done|lia]. }
  destruct (_ =? CHUNK_TYPE_CRC32); [|by eapply chunk_fail].
  unfold crc32_chunk in E. destruct (negb _); [by eapply chunk_fail|].
  run_inv. simplify_eq. split; [done|]. intros d b t [= <- <- _].
  assert (0 ≤ chunk_step) by (apply Z.div_pos; nia). split; [by apply Forall_drop|lia].
Qed.

Lemma chunks_within n data blk total w r w' :
  bytes_ok data → p_start info ≤ blk → blk + Z.of_nat n * chunk_step < 2 ^ 64 →
  chunks_from info h n data blk total w = Ret (r, w') → inside w w'.
Proof.
  assert (0 ≤ chunk_step) as Hst by (apply Z.div_pos; nia).
  revert data blk total w. induction n as [|n IH]; intros data blk total w Hd Hb Hs E; cbn [chunks_from] in E.
  { run_inv. by simplify_eq. }
  rewrite Nat2Z.inj_succ, Z.mul_succ_l in Hs. pose proof (Z.mul_nonneg_nonneg (Z.of_nat n) chunk_step ltac:(lia) Hst).
  apply comp_bind_Ret in E as (r1 & w1 & E1 & E). apply one_chunk_within in E1 as [W1 Hr]; [|done|done|lia].
  destruct r1 as [[[d b] t]|]; [|run_inv; by simplify_eq].
  destruct (Hr d b t eq_refl) as [Hd1 Hb1]. etrans; [exact W1|]. eapply (IH d b t w1); [done|lia|lia|exact E].
Qed.
End Partition.

Lemma sparse_within info h data (w w' : W) r :
  p_blksz info = 512 → 0 ≤ p_start info → 0 ≤ p_size info < 2 ^ 31 →
  p_start info + p_size info < 2 ^ 64 → bytes_ok data → read_sparse_header data = Ret h →
  p_start info + total_chunks h * chunk_step h < 2 ^ 64 →
  write_sparse_image info data w = Ret (r, w') →
  within (p_start info * 512) ((p_start info + p_size info) * 512) w w'.
Proof.
  intros Hblk Hst Hsz Hend Hd Hh Hstep E.
  assert (0 ≤ blk_sz h < 2 ^ 32 ∧ 0 ≤ total_chunks h) as [Hbs Htc].
  { unfold read_sparse_header in Hh. apply run_bind_Ret in Hh as (b & Eb & [= <-]).
    apply rd_Ret in Eb as (_ & _ & Hl & ->). unfold sizeof_sparse_header in Hl.
    cbn [blk_sz total_chunks sparse_header_of]. rewrite !slice_slice by (unfold sizeof_sparse_header; lia).
    pose proof (le_decode_range (slice data (0 + 12) 4) ltac:(by apply slice_ok)) as Hr.
    pose proof (le_decode_range (slice data (0 + 20) 4) ltac:(by apply slice_ok)).
    rewrite zlen_slice in Hr by lia. split; [exact Hr|lia]. }
  unfold write_sparse_image in E. rewrite (comp_bind_run _ _ _ _ _ (lift_run _ _ _ Hh)) in E.
  set (data' := if sizeof_sparse_header <? file_hdr_sz h then _ else _) in E.
  assert (bytes_ok data') as Hd'
    by (unfold data'; destruct (_ <? _); repeat apply Forall_drop; done).
  destruct (negb _).
  { apply comp_bind_Ret in E as (? & w1 & E1 & E). run_inv. simplify_eq. by eapply within_reply. }
  apply comp_bind_Ret in E as (r1 & w1 & E1 & E).
  apply chunks_within in E1; [|done..|rewrite Z2Nat.id by done; exact Hstep].
  etrans; [exact E1|]. destruct r1; [|run_inv; by simplify_eq].
  destruct (negb _); apply comp_bind_Ret in E as (? & w2 & E2 & E); run_inv; simplify_eq; by eapply within_reply.
Qed.

Lemma raw_image_within info buffer n (w w' : W) r :
  p_blksz info = 512 → 0 ≤ p_start info → 0 ≤ p_size info → p_start info + p_size info < 2 ^ 64 →
  write_raw_image info buffer n w = Ret (r, w') →
  within (p_start info * 512) ((p_start info + p_size info) * 512) w w'.
Proof.
  intros Hblk Hst Hsz Hend E. unfold write_raw_image in E. rewrite Hblk in E.
  set (blkcnt := Z.land _ _ / 512) in E.
  assert (0 ≤ blkcnt) as Hcnt by (apply Z.div_pos; [apply Z.land_nonneg; left; apply u64_range|lia]).
  destruct (Z.ltb_spec (p_size info) blkcnt); [by eapply within_reply|].
  apply comp_bind_Ret in E as (blks & w1 & Ew & E). apply on_dev_Ret in Ew as [Ed _].
  apply block_write_frame in Ed as [_ Hframe]; [|lia..]. etrans; [intros a Ha; apply Hframe; lia|].
  destruct (negb _); by eapply within_reply.
Qed.

(** A sparse image, whatever it says and however it ends, changes no byte
    outside of its partition, as long as its chunks cannot add up to more blocks
    than a block number holds. *)
Theorem sparse_stays_inside info h data (w w' : W) r :
  p_blksz info = 512 → 0 ≤ p_start info → 0 ≤ p_size info < 2 ^ 31 →
  p_start info + p_size info < 2 ^ 64 → bytes_ok data → read_sparse_header data = Ret h →
  p_start info + total_chunks h * chunk_step h < 2 ^ 64 →
  write_sparse_image info data w = Ret (r, w') →
  ∀ a, ¬ (p_start info * 512 ≤ a < (p_start info + p_size info) * 512) → disk_of w' a = disk_of w a.
Proof. apply sparse_within. Qed.

Section Flash.
Context `{!Partitions V}.

(** Flashing stays inside of the partition. *)
Lemma flash_within stale cmd info buffer n (w w' : W) r :
  is_aml_or_dos = true → get_partition_info_aml_by_name cmd = Some info →
  cmd ≠ CONFIG_FASTBOOT_MBR_NAME → has_prefix cmd (str "bootloader") = false →
  p_blksz info = 512 → 0 ≤ p_start info → 0 ≤ p_size info < 2 ^ 31 → p_start info + p_size info < 2 ^ 64 →
  bytes_ok buffer →
  (∀ h, is_sparse_image buffer = Ret true → read_sparse_header buffer = Ret h →
    p_start info + total_chunks h * chunk_step h < 2 ^ 64) →
  fb_mmc_flash_write stale cmd buffer n w = Ret (r, w') →
  ∀ a, ¬ (p_start info * 512 ≤ a < (p_start info + p_size info) * 512) → disk_of w' a = disk_of w a.
Proof.
  intros Ht Hi Hm Hbl Hblk Hst Hsz Hend Hb Hstep E.
  change (within (p_start info * 512) ((p_start info + p_size info) * 512) w w').
  unfold fb_mmc_flash_write in E. destruct (negb known_device); [by eapply within_reply|].
  rewrite bool_decide_false in E by (unfold is_aml_or_dos in Ht; intros Hp; by rewrite Hp in Ht).
  unfold flash_aml in E. rewrite Ht in E. cbn [orb] in E. rewrite bool_decide_false, Hi in E by done.
  unfold write_image in E. destruct (bool_decide _); [by eapply within_reply|]. rewrite Hbl in E.
  apply comp_bind_Ret in E as (sp & w1 & (? & Hsp & [= <- ->])%lift_Ret & E).
  destruct sp; [|by eapply raw_image_within; [..|exact E]; lia].
  apply comp_bind_Ret in E as (rs & w2 & Es & E). run_inv. simplify_eq.
  destruct (read_sparse_header buffer) as [h|] eqn:Hh.
  - by eapply sparse_within; [..|by apply (Hstep h)|exact Es].
  - unfold write_sparse_image in Es. by rewrite Hh in Es.
Qed.

(** C8: flashing a partition of the board's table, of Amlogic's or DOS type,
    other than "mbr" and "bootloader*" and of less than 2^31 blocks, with any
    image and whatever the answer, changes no byte outside of that partition;
    the number of chunks of a sparse image times its largest step must not lead
    to block numbers beyond 2^64. *)
Theorem flash_write_inside stale cmd info buffer n (w w' : W) r :
  is_aml_or_dos = true → get_partition_info_aml_by_name cmd = Some info →
  cmd ≠ CONFIG_FASTBOOT_MBR_NAME → has_prefix cmd (str "bootloader") = false →
  p_blksz info = 512 → 0 ≤ p_start info → 0 ≤ p_size info < 2 ^ 31 → p_start info + p_size info < 2 ^ 64 →
  bytes_ok buffer →
  (∀ h, is_sparse_image buffer = Ret true → read_sparse_header buffer = Ret h →
    p_start info + total_chunks h * chunk_step h < 2 ^ 64) →
  fb_mmc_flash_write stale cmd buffer n w = Ret (r, w') →
  ∀ a, ¬ (p_start info * 512 ≤ a < (p_start info + p_size info) * 512) → disk_of w' a = disk_of w a.
Proof. apply flash_within. Qed.
End Flash.

(** ** Expanding an image *)

(** An image as a list of chunks over blocks of [B] bytes. *)
Inductive chunk :=
| Raw (d : bytes)
| Fill (v : bytes) (n : Z)
| Skip (n : Z).

Section Expand.
Context (B : Z) (B_ok : 0 < B < 2 ^ 32 ∧ B mod 512 = 0).

Definition chunk_count (c : chunk) : Z :=
  match c with Raw d => zlen d / B | Fill _ n => n | Skip n => n end.
Definition image_count (cs : list chunk) : Z := foldr (fun c n => chunk_count c + n) 0 cs.

Definition chunk_wf (c : chunk) : Prop :=
  match c with
  | Raw d => 0 < zlen d ∧ zlen d mod B = 0 ∧ zlen d + 12 < 2 ^ 32
  | Fill v n => zlen v = 4 ∧ 0 < n < 2 ^ 32
  | Skip n => 0 ≤ n < 2 ^ 32
  end.

Definition encode_chunk (c : chunk) : bytes :=
  let head t total := le_encode 2 t ++ [0; 0] ++ le_encode 4 (chunk_count c) ++ le_encode 4 total in
  match c with
  | Raw d => head CHUNK_TYPE_RAW (12 + zlen d) ++ d
  | Fill v n => head CHUNK_TYPE_FILL 16 ++ v
  | Skip n => head CHUNK_TYPE_DONT_CARE 12
  end.
Definition encode_image (cs : list chunk) : bytes :=
  le_encode 4 SPARSE_HEADER_MAGIC ++ le_encode 2 1 ++ [0; 0] ++ le_encode 2 28 ++ le_encode 2 12
  ++ le_encode 4 B ++ le_encode 4 (image_count cs) ++ le_encode 4 (zlen cs) ++ [0; 0; 0; 0]
  ++ concat (encode_chunk <$> cs).

(** The bytes of a chunk on the device, if it has some. *)
Definition chunk_bytes (c : chunk) : bytes :=
  match c with
  | Raw d => d
  | Fill v n => concat (replicate (Z.to_nat (n * B / 4)) v)
  | Skip n => []
  end.
(** The device with the chunks at [off], in order. *)
Fixpoint lay (d : Z → Z) (off : Z) (cs : list chunk) : Z → Z :=
  match cs with
  | [] => d
  | c :: cs => lay (over d off (chunk_bytes c)) (off + chunk_count c * B) cs
  end.

Lemma lay_ext cs d d' off : (∀ a, d a = d' a) → ∀ a, lay d off cs a = lay d' off cs a.
Proof.
  revert d d' off. induction cs as [|c cs IH]; intros d d' off Hd a; [apply Hd|]. cbn [lay].
  apply IH. intros x. by apply over_ext.
Qed.

(** *** Filling *)

Lemma concat_replicate_length n (v : bytes) : length (concat (replicate n v)) = (n * length v)%nat.
Proof. induction n as [|n IH]; [done|]. cbn [replicate concat]. rewrite length_app, IH. lia. Qed.
Lemma concat_replicate_add n k (v : bytes) :
  concat (replicate (n + k) v) = concat (replicate n v) ++ concat (replicate k v).
Proof. by rewrite replicate_add, concat_app. Qed.
Lemma take_concat_replicate n k (v : bytes) : (k ≤ n)%nat →
  take (k * length v) (concat (replicate n v)) = concat (replicate k v).
Proof.
  intros Hk. replace n with (k + (n - k))%nat by lia. rewrite concat_replicate_add.
  apply take_app_length'. by rewrite concat_replicate_length.
Qed.

Lemma fill_ok fuel v N num blkcnt b0 i (w : W) :
  zlen v = 4 → N = Z.to_nat (num * 128) → 0 < num →
  0 ≤ b0 → 0 ≤ i ≤ blkcnt → blkcnt < 2 ^ 31 → b0 + blkcnt < 2 ^ 64 →
  (∀ s k, b0 ≤ s → 0 < k → s + k ≤ b0 + blkcnt → writable s k) →
  blkcnt - i ≤ num * Z.of_nat fuel →
  ∃ w', fill_from fuel (concat (replicate N v)) num blkcnt (b0 + i) i w = Ret (Some (b0 + blkcnt), w')
    ∧ fl_replies w' = fl_replies w
    ∧ ∀ a, disk_of w' a = over (disk_of w) ((b0 + i) * 512)
        (concat (replicate (Z.to_nat ((blkcnt - i) * 128)) v)) a.
Proof.
  intros Hv HN Hnum Hb. revert i w. induction fuel as [|fuel IH]; intros i w Hi Hc Hw Hwr Hf; cbn [fill_from];
    rewrite (u64_small i) by (split; lia).
  { assert (i = blkcnt) as -> by lia. rewrite Z.ltb_irrefl. exists w. split; [done|]. split; [done|].
    intros a. rewrite Z.sub_diag. rewrite over_out; [done|]. change (zlen (concat _)) with 0. lia. }
  destruct (Z.ltb_spec i blkcnt) as [Hlt|].
  2: { assert (i = blkcnt) as -> by lia. exists w. split; [done|]. split; [done|].
    intros a. rewrite Z.sub_diag. rewrite over_out; [done|]. change (zlen (concat _)) with 0. lia. }
  rewrite (u64_small (blkcnt - i)), (s32_small (blkcnt - i)) by (split; lia).
  set (j := if num <? blkcnt - i then num else blkcnt - i).
  assert (Hj : 0 < j ≤ blkcnt - i ∧ j ≤ num ∧ (j = num ∨ j = blkcnt - i))
    by (unfold j; destruct (Z.ltb_spec num (blkcnt - i)); lia).
  rewrite (u64_small j) by (split; lia).
  assert (Hlen : length v = 4%nat) by (unfold zlen in Hv; lia).
  destruct (block_write_ok (b0 + i) j (concat (replicate N v)) (fl_dev w)) as (v1 & E1 & D1);
    [apply Hwr; lia|lia..|unfold zlen; rewrite concat_replicate_length, Hlen; lia|].
  assert (on_dev (block_write (b0 + i) j (concat (replicate N v))) w = Ret (j, mkFlash v1 (fl_replies w))) as Ew
    by (unfold on_dev; by rewrite E1).
  rewrite (comp_bind_run _ _ _ _ _ Ew), Z.ltb_irrefl.
  rewrite (u64_small (b0 + i + j)), (s32_small (i + j)) by (split; lia). replace (b0 + i + j) with (b0 + (i + j)) by lia.
  destruct (IH (i + j) (mkFlash v1 (fl_replies w))) as (w2 & E2 & R2 & D2); [lia..|done|nia|].
  exists w2. split; [exact E2|]. split; [exact R2|]. intros a. rewrite D2.
  assert (slice (concat (replicate N v)) 0 (j * 512) = concat (replicate (Z.to_nat (j * 128)) v)) as Hsl.
  { unfold slice. rewrite drop_0. replace (Z.to_nat (j * 512)) with (Z.to_nat (j * 128) * length v)%nat by (rewrite Hlen; lia).
    apply take_concat_replicate. lia. }
  rewrite (over_ext _ (over (disk_of w) ((b0 + i) * 512) (concat (replicate (Z.to_nat (j * 128)) v))));
    [|intros x; unfold disk_of; cbn [fl_dev]; by rewrite D1, Hsl].
  replace (Z.to_nat ((blkcnt - i) * 128)) with (Z.to_nat (j * 128) + Z.to_nat ((blkcnt - (i + j)) * 128))%nat by lia.
  rewrite concat_replicate_add, over_app. f_equal. unfold zlen. rewrite concat_replicate_length, Hlen. lia.
Qed.

(** *** Chunks *)

Definition chunk_head (t n total : Z) : bytes :=
  le_encode 2 t ++ [0; 0] ++ le_encode 4 n ++ le_encode 4 total.

Lemma read_chunk_head t n total x :
  0 ≤ t < 2 ^ 16 → 0 ≤ n < 2 ^ 32 → 0 ≤ total < 2 ^ 32 →
  read_chunk_header (chunk_head t n total ++ x) = Ret (mkChunk t n total).
Proof.
  intros Ht Hn Htot. unfold read_chunk_header. rewrite rd_ok by (try done; rewrite zlen_app; change (zlen (chunk_head _ _ _)) with 12;
    pose proof (zlen_nonneg x); unfold sizeof_chunk_header; lia).
  change (slice (chunk_head t n total ++ x) 0 sizeof_chunk_header) with (chunk_head t n total).
  cbn [mbind run_bind]. unfold chunk_header_of.
  change (slice (chunk_head t n total) 0 2) with (le_encode 2 t).
  change (slice (chunk_head t n total) 4 4) with (le_encode 4 n).
  change (slice (chunk_head t n total) 8 4) with (le_encode 4 total).
  rewrite !le_decode_encode. by rewrite !Z.mod_small by assumption.
Qed.

Context (heap_ok : ∀ n (v : V), (heap_alloc n v).1 = true).
Context (info : disk_partition) (blocks : p_blksz info = 512) (start_ok : 0 ≤ p_start info)
  (size_ok : 0 ≤ p_size info < 2 ^ 31) (end_ok : p_start info + p_size info < 2 ^ 64).
Context (can_write : ∀ s k, p_start info ≤ s → 0 < k → s + k ≤ p_start info + p_size info → writable s k).
Context (h : sparse_header) (h_chunk : chunk_hdr_sz h = 12) (h_blk : blk_sz h = B).

(** The blocks of the device behind a number of blocks of the image. *)
Definition dev_blocks (n : Z) : Z := n * (B / 512).

Lemma dev_blocks_bytes n : dev_blocks n * 512 = n * B.
Proof. unfold dev_blocks. pose proof (Z.div_mod B 512 ltac:(lia)). lia. Qed.
Lemma chunk_cnt_dev ch : 0 ≤ chunk_sz ch < 2 ^ 32 →
  u64 (blk_sz h * chunk_sz ch) = chunk_sz ch * B ∧ chunk_sz ch * B / p_blksz info = dev_blocks (chunk_sz ch).
Proof.
  intros Hc. rewrite h_blk, blocks. split; [rewrite u64_small by (split; nia); lia|].
  rewrite <- dev_blocks_bytes. by apply Z.div_mul.
Qed.
Lemma dev_blocks_pos n : 0 < n → 0 < dev_blocks n.
Proof. intros Hn. pose proof (dev_blocks_bytes n). nia. Qed.
Lemma dev_blocks_nonneg n : 0 ≤ n → 0 ≤ dev_blocks n.
Proof. intros Hn. pose proof (dev_blocks_bytes n). nia. Qed.

Lemma fits blk n : p_start info ≤ blk → 0 ≤ n → blk + n ≤ p_start info + p_size info →
  exceeds info blk n = false.
Proof. intros Hb Hn Hf. unfold exceeds. rewrite !u64_small by (split; lia). apply Z.ltb_ge. lia. Qed.

(** What a chunk does when it is done. *)
Definition chunk_done (c : chunk) (rest : bytes) (blk total : Z) (w : W) (m : comp W (option (bytes * Z * Z))) : Prop :=
  ∃ w', m w = Ret (Some (rest, blk + dev_blocks (chunk_count c), u32 (total + chunk_count c)), w')
    ∧ fl_replies w' = fl_replies w
    ∧ ∀ a, disk_of w' a = over (disk_of w) (blk * 512) (chunk_bytes c) a.

Lemma raw_ok d rest blk total w :
  chunk_wf (Raw d) → p_start info ≤ blk → blk + dev_blocks (zlen d / B) ≤ p_start info + p_size info →
  chunk_done (Raw d) rest blk total w
    (raw_chunk info h (mkChunk CHUNK_TYPE_RAW (zlen d / B) (12 + zlen d)) (d ++ rest) blk total).
Proof.
  intros (Hd & Hm & Hs) Hb Hf. set (n := zlen d / B) in *.
  assert (Hn : n * B = zlen d) by (unfold n; pose proof (Z.div_mod (zlen d) B ltac:(lia)); lia).
  assert (Hn' : 0 < n < 2 ^ 32) by nia. pose proof (dev_blocks_pos n ltac:(lia)) as Hpos.
  pose proof (dev_blocks_bytes n) as Hbytes.
  destruct (chunk_cnt_dev (mkChunk CHUNK_TYPE_RAW n (12 + zlen d)) ltac:(cbn; lia)) as [E1 E2]. cbn [chunk_sz] in E1, E2.
  unfold chunk_done, raw_chunk. cbn [chunk_sz total_sz chunk_count]. fold n. rewrite E1, E2, Hn, h_chunk.
  rewrite (u64_small (12 + zlen d)), Z.eqb_refl by (split; lia). cbn [negb]. rewrite fits by lia.
  destruct (block_write_ok blk (dev_blocks n) (d ++ rest) (fl_dev w)) as (v1 & Ew & D);
    [apply can_write; lia|lia..|rewrite zlen_app; pose proof (zlen_nonneg rest); lia|].
  assert (on_dev (block_write blk (dev_blocks n) (d ++ rest)) w = Ret (dev_blocks n, mkFlash v1 (fl_replies w))) as Eo
    by (unfold on_dev; by rewrite Ew).
  rewrite (comp_bind_run _ _ _ _ _ Eo), Z.ltb_irrefl, u64_small by (split; lia).
  assert (Hlen : Z.to_nat (zlen d) = length d) by (unfold zlen; lia).
  eexists. split; [rewrite Hlen, drop_app_length; reflexivity|]. split; [done|].
  intros a. unfold disk_of. cbn [fl_dev chunk_bytes]. rewrite D, Hbytes, Hn.
  unfold slice. change (Z.to_nat 0) with 0%nat. by rewrite drop_0, Hlen, take_app_length.
Qed.

Lemma fill_chunk_ok v n rest blk total w :
  chunk_wf (Fill v n) → p_start info ≤ blk → blk + dev_blocks n ≤ p_start info + p_size info →
  chunk_done (Fill v n) rest blk total w
    (fill_chunk info h (mkChunk CHUNK_TYPE_FILL n 16) (v ++ rest) blk total).
Proof.
  intros (Hv & Hn) Hb Hf. pose proof (dev_blocks_pos n ltac:(lia)) as Hpos.
  pose proof (dev_blocks_bytes n) as Hbytes. assert (Hlen : length v = 4%nat) by (unfold zlen in Hv; lia).
  destruct (chunk_cnt_dev (mkChunk CHUNK_TYPE_FILL n 16) ltac:(cbn; lia)) as [E1 E2]. cbn [chunk_sz] in E1, E2.
  assert (fill_buf_num_blks info = 1024) as Hnum by (unfold fill_buf_num_blks; by rewrite blocks).
  unfold chunk_done, fill_chunk. cbn [chunk_sz total_sz chunk_count]. rewrite E1, E2, h_chunk, Hnum, blocks.
  change (16 =? 12 + 4) with true. cbn [negb].
  set (sz := ROUNDUP _ _). pose proof (heap_ok sz (fl_dev w)) as Ho. pose proof (heap_disk sz (fl_dev w)) as Hd.
  destruct (heap_alloc sz (fl_dev w)) as [o v1] eqn:Ea. cbn [fst snd] in Ho, Hd. subst o.
  assert (on_dev (malloc sz) w = Ret (true, mkFlash v1 (fl_replies w))) as Em
    by (unfold on_dev, malloc; by rewrite Ea).
  rewrite (comp_bind_run _ _ _ _ _ Em). cbn [negb].
  assert (rd (v ++ rest) 0 4 = Ret v) as Er.
  { rewrite rd_ok by (rewrite ?zlen_app, ?Hv; pose proof (zlen_nonneg rest); lia). unfold slice.
    change (Z.to_nat 0) with 0%nat. rewrite drop_0. by rewrite take_app_length' by done. }
  rewrite (comp_bind_run _ _ _ _ _ (lift_run _ _ _ Er)), fits by lia.
  destruct (fill_ok (fill_passes 1024 (dev_blocks n)) v (Z.to_nat (u64 (512 * 1024) / 4)) 1024 (dev_blocks n) blk 0
    (mkFlash v1 (fl_replies w))) as (w2 & E3 & R3 & D3);
    [done|done|lia..|intros; apply can_write; lia| |].
  { unfold fill_passes. pose proof (Z.div_mod (dev_blocks n) 1024 ltac:(lia)).
    pose proof (Z.mod_pos_bound (dev_blocks n) 1024 ltac:(lia)). pose proof (Z.div_pos (dev_blocks n) 1024 ltac:(lia) ltac:(lia)). lia. }
  rewrite Z.add_0_r in E3, D3. rewrite (comp_bind_run _ _ _ _ _ E3), h_blk. rewrite (proj2 (Z.eqb_neq B 0)) by lia.
  rewrite Z.div_mul, (u32_small n) by (try split; lia).
  exists w2. split; [by rewrite drop_app_length' by done|]. split; [done|]. intros a. rewrite D3.
  cbn [chunk_bytes]. rewrite Z.sub_0_r. replace (n * B / 4) with (dev_blocks n * 128).
  - apply over_ext. exact Hd.
  - rewrite <- Hbytes. apply (Z.div_unique _ _ _ 0); lia.
Qed.

Lemma one_chunk_head t n total' x blk total (w : W) :
  0 ≤ t < 2 ^ 16 → 0 ≤ n < 2 ^ 32 → 0 ≤ total' < 2 ^ 32 →
  one_chunk info h (chunk_head t n total' ++ x) blk total w
  = (let ch := mkChunk t n total' in
     if t =? CHUNK_TYPE_RAW then raw_chunk info h ch x blk total
     else if t =? CHUNK_TYPE_FILL then fill_chunk info h ch x blk total
     else if t =? CHUNK_TYPE_DONT_CARE then dont_care_chunk info h ch x blk total
     else if t =? CHUNK_TYPE_CRC32 then crc32_chunk h ch x blk total
     else fail (str "Unknown chunk type")) w.
Proof.
  intros Ht Hn Htot. unfold one_chunk.
  rewrite (comp_bind_run _ _ _ _ _ (lift_run _ _ _ (read_chunk_head t n total' x Ht Hn Htot))).
  rewrite h_chunk. change (sizeof_chunk_header <? 12) with false. cbv iota.
  by change (drop (Z.to_nat sizeof_chunk_header) (chunk_head t n total' ++ x)) with x.
Qed.

Lemma one_chunk_ok c rest blk total w :
  chunk_wf c → p_start info ≤ blk → blk + dev_blocks (chunk_count c) ≤ p_start info + p_size info →
  chunk_done c rest blk total w (one_chunk info h (encode_chunk c ++ rest) blk total).
Proof.
  intros Hwf Hb Hf. destruct c as [d|v n|n]; unfold chunk_done; cbn [chunk_count] in *.
  - destruct Hwf as (Hd & Hm & Hs). unfold encode_chunk. rewrite <- (app_assoc _ d rest).
    assert (0 ≤ zlen d / B < 2 ^ 32) by (split; [apply Z.div_pos; lia|apply Z.div_lt_upper_bound; nia]).
    fold (chunk_head CHUNK_TYPE_RAW (zlen d / B) (12 + zlen d)).
    setoid_rewrite (one_chunk_head CHUNK_TYPE_RAW (zlen d / B) (12 + zlen d) (d ++ rest)); [|done|done|lia].
    by apply raw_ok.
  - unfold encode_chunk. rewrite <- (app_assoc _ v rest). fold (chunk_head CHUNK_TYPE_FILL n 16).
    destruct Hwf as (Hv & Hn).
    setoid_rewrite (one_chunk_head CHUNK_TYPE_FILL n 16 (v ++ rest)); [|done|lia|done].
    by apply fill_chunk_ok.
  - unfold encode_chunk. fold (chunk_head CHUNK_TYPE_DONT_CARE n 12). unfold chunk_wf in Hwf.
    setoid_rewrite (one_chunk_head CHUNK_TYPE_DONT_CARE n 12 rest); [|done|done|done].
    destruct (chunk_cnt_dev (mkChunk CHUNK_TYPE_DONT_CARE n 12) Hwf) as [E1 E2]. cbn [chunk_sz] in E1, E2.
    pose proof (dev_blocks_nonneg n ltac:(lia)).
    exists w. cbv zeta. change (CHUNK_TYPE_DONT_CARE =? CHUNK_TYPE_RAW) with false.
    change (CHUNK_TYPE_DONT_CARE =? CHUNK_TYPE_FILL) with false.
    change (CHUNK_TYPE_DONT_CARE =? CHUNK_TYPE_DONT_CARE) with true. cbv iota.
    unfold dont_care_chunk. cbn [chunk_sz]. rewrite E1, E2, u64_small by (split; lia).
    split; [done|]. split; [done|]. intros a. rewrite over_out; [done|]. cbn [chunk_bytes]. change (zlen (@nil Z)) with 0. lia.
Qed.

Lemma image_count_nonneg cs : Forall chunk_wf cs → 0 ≤ image_count cs.
Proof.
  induction 1 as [|c cs Hc _ IH]; [done|]. cbn [image_count foldr]. fold (image_count cs).
  assert (0 ≤ chunk_count c); [|lia]. destruct c; cbn in *; [apply Z.div_pos; lia|lia..].
Qed.

Lemma chunks_ok cs rest blk total w :
  Forall chunk_wf cs → p_start info ≤ blk → blk + dev_blocks (image_count cs) ≤ p_start info + p_size info →
  0 ≤ total → total + image_count cs < 2 ^ 32 →
  ∃ w', chunks_from info h (length cs) (concat (encode_chunk <$> cs) ++ rest) blk total w
        = Ret (Some (total + image_count cs), w')
    ∧ fl_replies w' = fl_replies w
    ∧ ∀ a, disk_of w' a = lay (disk_of w) (blk * 512) cs a.
Proof.
  intros Hwf. revert blk total w. induction Hwf as [|c cs Hc Hwf IH]; intros blk total w Hb Hf Ht Htot.
  { exists w. cbn. by rewrite Z.add_0_r. }
  cbn [image_count foldr] in *. fold (image_count cs) in *. pose proof (image_count_nonneg cs Hwf) as Hpos.
  pose proof (image_count_nonneg [c] ltac:(by constructor)) as Hcpos. cbn in Hcpos. rewrite Z.add_0_r in Hcpos.
  assert (dev_blocks (chunk_count c + image_count cs) = dev_blocks (chunk_count c) + dev_blocks (image_count cs)) as Hadd
    by (unfold dev_blocks; lia).
  pose proof (dev_blocks_nonneg _ Hpos). pose proof (dev_blocks_nonneg _ Hcpos).
  cbn [fmap list_fmap concat length chunks_from]. rewrite <- app_assoc.
  destruct (one_chunk_ok c (concat (encode_chunk <$> cs) ++ rest) blk total w Hc Hb ltac:(lia)) as (w1 & E1 & R1 & D1).
  setoid_rewrite (comp_bind_run _ _ _ _ _ E1). rewrite u32_small by (split; lia).
  destruct (IH (blk + dev_blocks (chunk_count c)) (total + chunk_count c) w1) as (w2 & E2 & R2 & D2); [lia..|].
  exists w2. split; [by rewrite Z.add_assoc|]. split; [congruence|]. intros a. rewrite D2. cbn [lay].
  rewrite Z.mul_add_distr_r, dev_blocks_bytes. by apply lay_ext.
Qed.
End Expand.

Lemma blk_sz_aligned B : 0 ≤ B < 2 ^ 32 → B mod 512 = 0 → Z.land B (u64 (Z.lnot (u64 (512 - 1)))) = B.
Proof.
  intros HB Hm. change 512 with (2 ^ 9). rewrite align_down by lia. change (2 ^ 9) with 512.
  pose proof (Z.div_mod B 512 ltac:(lia)). lia.
Qed.

(** The header of an image. *)
Definition image_header (B : Z) (cs : list chunk) : sparse_header :=
  mkSparse SPARSE_HEADER_MAGIC 1 28 12 B (image_count B cs) (zlen cs).

Lemma read_image_header B cs rest :
  0 ≤ B < 2 ^ 32 → 0 ≤ image_count B cs < 2 ^ 32 → zlen cs < 2 ^ 32 →
  read_sparse_header (encode_image B cs ++ rest) = Ret (image_header B cs).
Proof.
  intros HB Hc Hl. pose proof (zlen_nonneg cs). unfold encode_image. set (x := concat _).
  set (head := le_encode 4 SPARSE_HEADER_MAGIC ++ le_encode 2 1 ++ [0; 0] ++ le_encode 2 28 ++ le_encode 2 12
    ++ le_encode 4 B ++ le_encode 4 (image_count B cs) ++ le_encode 4 (zlen cs) ++ [0; 0; 0; 0]).
  change (read_sparse_header ((head ++ x) ++ rest) = Ret (image_header B cs)). rewrite <- app_assoc.
  unfold read_sparse_header. rewrite rd_ok by (try done; rewrite zlen_app; change (zlen head) with 28;
    pose proof (zlen_nonneg (x ++ rest)); unfold sizeof_sparse_header; lia).
  change (slice (head ++ x ++ rest) 0 sizeof_sparse_header) with head. cbn [mbind run_bind].
  unfold sparse_header_of. 
  change (slice head 0 4) with (le_encode 4 SPARSE_HEADER_MAGIC). change (slice head 4 2) with (le_encode 2 1).
  change (slice head 8 2) with (le_encode 2 28). change (slice head 10 2) with (le_encode 2 12).
  change (slice head 12 4) with (le_encode 4 B). change (slice head 16 4) with (le_encode 4 (image_count B cs)).
  change (slice head 20 4) with (le_encode 4 (zlen cs)). rewrite !le_decode_encode.
  rewrite !Z.mod_small by (try assumption; split; (assumption || done)). done.
Qed.

(** A well-formed image that fits is written in full. *)
Lemma image_written B cs rest info (w : W) :
  (∀ n (v : V), (heap_alloc n v).1 = true) →
  p_blksz info = 512 → 0 ≤ p_start info → 0 ≤ p_size info < 2 ^ 31 →
  p_start info + p_size info < 2 ^ 64 →
  (∀ s k, p_start info ≤ s → 0 < k → s + k ≤ p_start info + p_size info → writable s k) →
  0 < B < 2 ^ 32 → B mod 512 = 0 → Forall (chunk_wf B) cs → zlen cs < 2 ^ 32 → image_count B cs < 2 ^ 32 →
  dev_blocks B (image_count B cs) ≤ p_size info →
  ∃ w', write_sparse_image info (encode_image B cs ++ rest) w = Ret (0, w')
    ∧ fl_replies w' = OkayReply :: fl_replies w
    ∧ ∀ a, disk_of w' a = lay B (disk_of w) (p_start info * 512) cs a.
Proof.
  intros Hheap Hblk Hst Hsz Hend Hcan HB Hm Hwf Hl Hc Hf.
  pose proof (image_count_nonneg B ltac:(done) cs Hwf) as Hpos.
  destruct (chunks_ok B ltac:(done) Hheap info Hblk Hst Hsz Hend Hcan (image_header B cs) eq_refl eq_refl
    cs rest (p_start info) 0 w Hwf ltac:(lia) ltac:(lia) ltac:(lia) ltac:(lia)) as (w1 & E1 & R1 & D1).
  exists (mkFlash (fl_dev w1) (OkayReply :: fl_replies w)). split_and!; [|done|exact D1].
  unfold write_sparse_image.
  rewrite (comp_bind_run _ _ _ _ _ (lift_run _ _ _ (read_image_header B cs rest ltac:(lia) ltac:(lia) Hl))).
  cbn [file_hdr_sz image_header blk_sz total_chunks total_blks]. change (sizeof_sparse_header <? 28) with false. cbv iota.
  rewrite Hblk, blk_sz_aligned, Z.eqb_refl by (done || lia). cbn [negb].
  change (drop (Z.to_nat 28) (encode_image B cs ++ rest)) with (concat (encode_chunk B <$> cs) ++ rest).
  unfold zlen at 1. rewrite Nat2Z.id. rewrite (comp_bind_run _ _ _ _ _ E1), Z.add_0_l, Z.eqb_refl. cbn [negb].
  by rewrite <- R1.
Qed.

(** C19: a well-formed sparse image that fits its partition is expanded onto it:
    the writer answers OKAY, and the device holds the data of the raw chunks and
    the pattern of the filled ones where they belong, and elsewhere what it held
    before. *)
Theorem sparse_expands B cs rest info (w : W) :
  (∀ n (v : V), (heap_alloc n v).1 = true) →
  p_blksz info = 512 → 0 ≤ p_start info → 0 ≤ p_size info < 2 ^ 31 →
  p_start info + p_size info < 2 ^ 64 →
  (∀ s k, p_start info ≤ s → 0 < k → s + k ≤ p_start info + p_size info → writable s k) →
  0 < B < 2 ^ 32 → B mod 512 = 0 → Forall (chunk_wf B) cs → zlen cs < 2 ^ 32 → image_count B cs < 2 ^ 32 →
  dev_blocks B (image_count B cs) ≤ p_size info →
  ∃ w', write_sparse_image info (encode_image B cs ++ rest) w = Ret (0, w')
    ∧ fl_replies w' = OkayReply :: fl_replies w
    ∧ ∀ a, disk_of w' a = lay B (disk_of w) (p_start info * 512) cs a.
Proof. apply image_written. Qed.

(** ** Raw images *)

(** The blocks of a download. *)
Definition raw_blocks (n : Z) : Z := (n + 511) / 512.

Lemma raw_blocks_eq n : 0 ≤ n < 2 ^ 32 →
  Z.land (u64 (n + u64 (512 - 1))) (u64 (Z.lnot (u64 (512 - 1)))) / 512 = raw_blocks n.
Proof.
  intros Hn. change (u64 (512 - 1)) with 511 at 1. rewrite (u64_small (n + 511)) by (split; lia).
  change 512 with (2 ^ 9) at 1. rewrite align_down by lia. apply Z.div_mul. done.
Qed.

(** A raw image goes to the start of its partition in whole blocks, the rest
    of the last block being what follows the download in memory; one that is too
    large is refused before anything is written. *)
Theorem raw_image_written info buffer n (w : W) :
  p_blksz info = 512 → 0 ≤ p_start info → p_start info + p_size info < 2 ^ 64 → 0 < n < 2 ^ 32 →
  raw_blocks n * 512 ≤ zlen buffer →
  (∀ s k, p_start info ≤ s → 0 < k → s + k ≤ p_start info + p_size info → writable s k) →
  ∃ w', write_raw_image info buffer n w = Ret (tt, w')
    ∧ if raw_blocks n <=? p_size info
      then fl_replies w' = OkayReply :: fl_replies w
           ∧ ∀ a, disk_of w' a = over (disk_of w) (p_start info * 512) (slice buffer 0 (raw_blocks n * 512)) a
      else fl_replies w' = FailReply (str "too large for partition") :: fl_replies w ∧ fl_dev w' = fl_dev w.
Proof.
  intros Hblk Hst Hend Hn Hbuf Hcan. unfold write_raw_image. rewrite Hblk, raw_blocks_eq by lia.
  assert (0 < raw_blocks n) as Hpos by (apply Z.div_str_pos; lia).
  destruct (Z.leb_spec (raw_blocks n) (p_size info)) as [Hf|Hf].
  - rewrite (proj2 (Z.ltb_ge _ _)) by lia.
    destruct (block_write_ok (p_start info) (raw_blocks n) buffer (fl_dev w)) as (v1 & E1 & D1); [apply Hcan; lia|lia..|].
    assert (on_dev (block_write (p_start info) (raw_blocks n) buffer) w = Ret (raw_blocks n, mkFlash v1 (fl_replies w))) as Eo
      by (unfold on_dev; by rewrite E1).
    rewrite (comp_bind_run _ _ _ _ _ Eo), Z.eqb_refl. by eexists.
  - rewrite (proj2 (Z.ltb_lt _ _)) by lia. by eexists.
Qed.
End Sparse.

(** ** Erasing a partition *)

(** The first group from [start] on. *)
Definition group_up (grp start : Z) : Z := (start + grp - 1) / grp * grp.

Lemma erase_first_eq info k : 0 ≤ k < 63 → 0 ≤ p_start info → p_start info + 2 ^ k < 2 ^ 64 →
  erase_first info (2 ^ k) = group_up (2 ^ k) (p_start info).
Proof.
  intros Hk Hs Hw. pose proof (Z.pow_pos_nonneg 2 k ltac:(lia) ltac:(lia)). unfold erase_first, group_up.
  rewrite (u64_small (p_start info + 2 ^ k)), (u64_small (p_start info + 2 ^ k - 1)) by (split; lia).
  apply align_down; lia.
Qed.
Lemma group_up_bounds grp start : 0 < grp → 0 ≤ start →
  start ≤ group_up grp start < start + grp ∧ group_up grp start mod grp = 0.
Proof.
  intros Hg Hs. unfold group_up. pose proof (Z.div_mod (start + grp - 1) grp ltac:(lia)).
  pose proof (Z.mod_pos_bound (start + grp - 1) grp ltac:(lia)). split; [lia|]. by apply Z.mod_mul; lia.
Qed.

Lemma erase_count_eq info k : 0 ≤ k < 63 → 0 ≤ p_start info → 0 ≤ p_size info →
  p_start info + p_size info + 2 ^ k < 2 ^ 64 →
  erase_count info (2 ^ k)
  = if 2 ^ k <=? p_size info
    then (p_start info + p_size info - group_up (2 ^ k) (p_start info)) / 2 ^ k * 2 ^ k else 0.
Proof.
  intros Hk Hs Hz Hw. pose proof (Z.pow_pos_nonneg 2 k ltac:(lia) ltac:(lia)) as Hg. unfold erase_count.
  rewrite erase_first_eq by lia. destruct (group_up_bounds (2 ^ k) (p_start info) Hg Hs) as [Hb _].
  destruct (Z.leb_spec (2 ^ k) (p_size info)); [|done].
  rewrite (u64_small (group_up _ _ - _)) by (split; lia).
  replace (p_size info - (group_up (2 ^ k) (p_start info) - p_start info))
    with (p_start info + p_size info - group_up (2 ^ k) (p_start info)) by lia.
  rewrite (u64_small (_ - _)) by (split; lia). apply align_down; lia.
Qed.

(** The blocks that "erase" takes of a partition are whole groups inside of
    it, and at either end less than a group is left. *)
Theorem erase_groups_inside info k :
  0 ≤ k < 63 → 0 ≤ p_start info → 0 ≤ p_size info → p_start info + p_size info + 2 ^ k < 2 ^ 64 →
  let first := erase_first info (2 ^ k) in
  let n := erase_count info (2 ^ k) in
  first mod 2 ^ k = 0 ∧ n mod 2 ^ k = 0 ∧ p_start info ≤ first < p_start info + 2 ^ k
  ∧ (n ≠ 0 → first + n ≤ p_start info + p_size info < first + n + 2 ^ k).
Proof.
  intros Hk Hs Hz Hw first n. pose proof (Z.pow_pos_nonneg 2 k ltac:(lia) ltac:(lia)) as Hg.
  unfold first, n. rewrite erase_count_eq, erase_first_eq by lia.
  destruct (group_up_bounds (2 ^ k) (p_start info) Hg Hs) as [Hb Hm].
  set (f := group_up _ _) in *. split; [done|]. split.
  - destruct (2 ^ k <=? p_size info); [apply Z.mod_mul; lia|by apply Z.mod_0_l; lia].
  - split; [lia|]. destruct (2 ^ k <=? p_size info); [|done]. intros _.
    pose proof (Z.div_mod (p_start info + p_size info - f) (2 ^ k) ltac:(lia)).
    pose proof (Z.mod_pos_bound (p_start info + p_size info - f) (2 ^ k) ltac:(lia)). lia.
Qed.

(** ** On the eMMC *)

Section OnEmmc.
Context {V : Type} `{MmcHost V} `{Heap V} (m : mmc) `{!CardLaws V (erase_grp_size m)}.
Context (key_area : option (Z * Z)) (info_disprotect : Z).
Context (card : emmc m) (devs : list mmc) (dev_num : Z) (found : find_mmc_device devs dev_num = Some m).
Context (healthy : ∀ c d (v : V), ready (send_cmd c d v).1).

(** The block device is the driver of the card. *)
#[local] Instance emmc_blocks : BlockDev V := {|
  block_write := mmc_bwrite devs key_area info_disprotect dev_num;
  block_erase := mmc_berase devs key_area info_disprotect dev_num;
|}.

#[local] Instance emmc_disk : DiskLaws V.
Proof.
  refine {| on_disk := disk;
    writable s n := s + n ≤ lba m ∧ emmckey_is_access_range_legal key_area info_disprotect m s n = Ret true |}.
  - intros start n src v k v' Hs Hn Hw E. destruct (Z.eq_dec n 0) as [->|].
    + cbn [block_write emmc_blocks] in E. destruct (bwrite_zero m key_area info_disprotect card devs dev_num found start src v k v' ltac:(lia) E) as [-> Hd]. split; [lia|]. intros a _. apply Hd.
    + cbn [block_write emmc_blocks] in E.
      destruct (bwrite_sound m key_area info_disprotect card devs dev_num found start n src v k v' Hs ltac:(lia) Hw E) as (Hout & Hin & _). split; [|exact Hout].
      destruct (Z.eq_dec k 0) as [->|Hk]; [lia|]. by destruct (Hin Hk) as [-> _].
  - intros start n src v [Hl Hk] Hs Hn _ Hsrc. apply (bwrite_ready m); [done..|lia|done].
Defined.

Context (heap_disk : ∀ n v a, disk (heap_alloc n v).2 a = disk v a).
Context (heap_ok : ∀ n (v : V), (heap_alloc n v).1 = true).
Context (small_groups : erase_grp_size m < 2 ^ 22).
Context `{!Partitions V}.

(** The whole groups inside of a partition are cleared, and nothing else changes. *)
Definition groups_cleared (info : disk_partition) (grp_size : Z) (v v' : V) : Prop :=
  cleared m (erase_first info grp_size * 512)
    ((erase_first info grp_size + erase_count info grp_size) * 512) v v'.

(** C20: "erase" on an eMMC that answers, with erase groups of a power of two
    blocks, of a partition on the card that is free of the key area and not one
    of "bootloader*", answers OKAY and clears the whole groups inside of the
    partition and no other byte, when there are such groups. *)
Theorem fastboot_erase_clears stale cmd info k (w : Flash V) :
  erase_grp_size m = 2 ^ k → 0 ≤ k → found_erase_grp_size = Some (2 ^ k) → known_device = true →
  erase_info stale cmd = Some info → has_prefix cmd (str "bootloader") = false →
  0 ≤ p_start info → 0 ≤ p_size info → p_start info + p_size info ≤ lba m →
  free m key_area info_disprotect (p_start info) (p_size info) →
  0 < erase_count info (2 ^ k) →
  ∃ w', fb_mmc_erase_write stale cmd w = Ret (tt, w')
    ∧ fl_replies w' = OkayReply :: fl_replies w
    ∧ groups_cleared info (2 ^ k) (fl_dev w) (fl_dev w').
Proof.
  intros Hu Hk Hg Hd Hi Hp Hs Hz Hl Hfree Hn. pose proof (emmc_lba m card) as Hlba.
  assert (k < 22) as Hk22.
  { apply (Z.pow_lt_mono_r_iff 2); lia. }
  pose proof (Z.pow_pos_nonneg 2 k ltac:(lia) Hk) as Hpos. pose proof small_groups as Hsm. rewrite Hu in Hsm.
  assert (p_start info ≤ erase_first info (2 ^ k)
    ∧ erase_first info (2 ^ k) + erase_count info (2 ^ k) ≤ p_start info + p_size info) as [Hf1 Hf2].
  { rewrite erase_count_eq, erase_first_eq in * by lia.
    destruct (group_up_bounds (2 ^ k) (p_start info) Hpos Hs) as [Hb Hm].
    destruct (2 ^ k <=? p_size info); [|lia]. split; [lia|].
    pose proof (Z.div_mod (p_start info + p_size info - group_up (2 ^ k) (p_start info)) (2 ^ k) ltac:(lia)).
    pose proof (Z.mod_pos_bound (p_start info + p_size info - group_up (2 ^ k) (p_start info)) (2 ^ k) ltac:(lia)). lia. }
  set (first := erase_first info (2 ^ k)) in *. set (n := erase_count info (2 ^ k)) in *.
  destruct (berase_ready m key_area info_disprotect heap_disk card devs dev_num found healthy heap_ok small_groups
    first n (fl_dev w)) as (v' & E & C); [lia..|intros s j ???; apply Hfree; lia|].
  exists (mkFlash v' (OkayReply :: fl_replies w)). split; [|split; [done|exact C]].
  unfold fb_mmc_erase_write. rewrite Hg, Hd, Hi, Hp. cbn [negb]. fold first n.
  assert (on_dev (block_erase first n) w = Ret (0, mkFlash v' (fl_replies w))) as Eo
    by (unfold on_dev; cbn [block_erase emmc_blocks]; by rewrite E).
  by rewrite (comp_bind_run _ _ _ _ _ Eo).
Qed.
End OnEmmc.

(** ** Examples *)

#[local] Existing Instances MmcBlock.demo_host MmcBlock.demo_heap MmcBlock.demo_laws.
#[local] Instance demo_blocks : BlockDev demo_card := emmc_blocks demo_keys 0 [demo_emmc] 1.
#[local] Instance demo_disk : DiskLaws demo_card := emmc_disk demo_emmc demo_keys 0 demo_is_emmc [demo_emmc] 1 eq_refl demo_healthy.

Lemma demo_on_disk n (v : demo_card) a : on_disk (heap_alloc n v).2 a = on_disk v a.
Proof. done. Qed.

Definition demo_part : disk_partition := mkPart 0x20000 64 512.
Definition demo_flash : Flash demo_card := mkFlash demo_blank [].
Definition demo_chunks : list chunk := [Raw (replicate 512 7); Fill [1; 2; 3; 4] 3; Skip 2].

Lemma demo_data_writable s k : 0x20000 ≤ s → 0 < k → s + k ≤ 0x20000 + 0x2000 → writable s k.
Proof.
  intros Hs Hk He. split; [cbn [lba demo_emmc]; lia|].
  rewrite (legal_protected demo_emmc demo_keys 0 0x2404000 0x40000 eq_refl eq_refl); [|by repeat split|done|lia..].
  rewrite bool_decide_false; [done|]. intros (_ & Hb & _). change (key_next 0x2404000 0x40000) with 74272 in Hb. lia.
Qed.
Lemma demo_writable s k : p_start demo_part ≤ s → 0 < k →
  s + k ≤ p_start demo_part + p_size demo_part → writable s k.
Proof. cbn [p_start p_size demo_part]. intros. apply demo_data_writable; lia. Qed.

Lemma sparse_expands_witness : ∃ w',
  write_sparse_image demo_part (encode_image 512 demo_chunks ++ [9]) demo_flash = Ret (0, w')
  ∧ fl_replies w' = [OkayReply]
  ∧ ∀ a, disk_of w' a = lay 512 (disk_of demo_flash) (0x20000 * 512) demo_chunks a.
Proof.
  apply (sparse_expands demo_on_disk 512 demo_chunks [9] demo_part demo_flash (fun _ _ => eq_refl));
    [done|done|done|done|exact demo_writable|done|done|by repeat constructor|done|by vm_compute|by vm_compute].
Defined.

Lemma sparse_stays_inside_witness : ∃ w',
  write_sparse_image demo_part (encode_image 512 [Raw (replicate 512 7); Skip 2]) demo_flash = Ret (0, w')
  ∧ disk_of w' 0 = disk_of demo_flash 0.
Proof.
  set (data := encode_image 512 [Raw (replicate 512 7); Skip 2]).
  destruct (image_written demo_on_disk 512 [Raw (replicate 512 7); Skip 2] [] demo_part demo_flash (fun _ _ => eq_refl))
    as (w' & E & _); [done|done|done|done|exact demo_writable|done|done|by repeat constructor|done|by vm_compute|by vm_compute|].
  rewrite app_nil_r in E. fold data in E.
  exists w'. split; [exact E|].
  apply (sparse_stays_inside demo_on_disk demo_part (mkSparse SPARSE_HEADER_MAGIC 1 28 12 512 3 2) data demo_flash w' 0);
    [done|done|done|done| |by vm_compute|by vm_compute|exact E|by vm_compute; intros [? _]].
  apply (bool_decide_unpack (Forall (fun b => 0 ≤ b < 256) data)). by vm_compute.
Defined.

Lemma raw_image_written_witness : ∃ w',
  write_raw_image demo_part (replicate 1024 7) 600 demo_flash = Ret (tt, w')
  ∧ fl_replies w' = [OkayReply]
  ∧ ∀ a, disk_of w' a = over (disk_of demo_flash) (0x20000 * 512) (replicate 1024 7) a.
Proof.
  exact (raw_image_written demo_part (replicate 1024 7) 600 demo_flash eq_refl ltac:(done) ltac:(done)
    ltac:(done) ltac:(by vm_compute) demo_writable).
Defined.

Lemma erase_groups_inside_witness :
  let info := mkPart 1000 5000 512 in
  erase_first info 1024 = 1024 ∧ erase_count info 1024 = 4096 ∧ 1024 + 4096 ≤ 6000 < 1024 + 4096 + 1024.
Proof.
  intros info. split; [reflexivity|]. split; [reflexivity|].
  apply (erase_groups_inside info 10); by vm_compute.
Defined.

#[local] Instance demo_partitions : Partitions demo_card := {|
  known_device := true;
  device_part_type := PART_TYPE_AML;
  get_partition_info_efi_by_name := fun _ => None;
  get_partition_info_aml_by_name := fun name =>
    if bool_decide (name = str "data") then Some (mkPart 0x20000 0x2000 512)
    else if bool_decide (name = str "misc") then Some (mkPart 0x40000 0x200 512) else None;
  getenv_alias := fun _ => None;
  is_valid_gpt_buf := fun _ => 1;
  write_mbr_and_gpt_partitions := fun _ => mret 1;
  emmc_update_mbr := fun _ => mret 1;
  amlmmc_write_bootloader := fun _ _ _ => mret 1;
  amlmmc_erase_bootloader := fun _ => mret 1;
  found_erase_grp_size := Some demo_unit;
|}.

Lemma flash_write_inside_witness :
  let data := str "data" in
  ∃ w', fb_mmc_flash_write demo_part data (replicate 1024 7) 600 demo_flash = Ret (tt, w')
    ∧ fl_replies w' = [OkayReply] ∧ disk_of w' 0 = disk_of demo_flash 0.
Proof.
  intros data.
  assert (match fb_mmc_flash_write demo_part data (replicate 1024 7) 600 demo_flash with
          | Ret (_, w') => Some (fl_replies w') | Crash _ => None end = Some [OkayReply]) as R by by vm_compute.
  destruct (fb_mmc_flash_write demo_part data (replicate 1024 7) 600 demo_flash) as [[[] w']|] eqn:E; [|done].
  exists w'. split; [done|]. split; [by injection R|].
  apply (flash_write_inside demo_on_disk demo_part data (mkPart 0x20000 0x2000 512) (replicate 1024 7) 600 demo_flash w' tt);
    [done|done|done|done|done|done|done|done|by repeat constructor|done|exact E|by vm_compute; intros [? _]].
Defined.

Lemma fastboot_erase_clears_witness : ∃ w',
  fb_mmc_erase_write demo_part (str "data") demo_flash = Ret (tt, w')
  ∧ fl_replies w' = [OkayReply]
  ∧ cleared demo_emmc (0x20000 * 512) ((0x20000 + 0x2000) * 512) demo_blank (fl_dev w').
Proof.
  assert (Hfree : free demo_emmc demo_keys 0 0x20000 0x2000).
  { apply (free_disjoint demo_emmc demo_keys 0 0x2404000 0x40000 eq_refl eq_refl); [by repeat split|done|lia|lia|].
    right. by vm_compute. }
  destruct (fastboot_erase_clears (Partitions0 := demo_partitions) demo_emmc demo_keys 0 demo_is_emmc [demo_emmc] 1 eq_refl demo_healthy MmcBlock.demo_heap_disk
    (fun _ (_ : demo_card) => eq_refl) ltac:(by vm_compute) demo_part (str "data") (mkPart 0x20000 0x2000 512) 10
    demo_flash eq_refl ltac:(lia) eq_refl eq_refl eq_refl eq_refl ltac:(cbn [p_start]; lia) ltac:(cbn [p_size]; lia)
    ltac:(by vm_compute) Hfree ltac:(by vm_compute)) as (w' & E & R & C).
  exists w'. split; [exact E|]. split; [exact R|].
  assert (erase_first (mkPart 0x20000 0x2000 512) (2 ^ 10) = 0x20000) as Hf by by vm_compute.
  assert (erase_count (mkPart 0x20000 0x2000 512) (2 ^ 10) = 0x2000) as Hn by by vm_compute.
  unfold groups_cleared in C. rewrite Hf, Hn in C. exact C.
Defined.

(** A partition in which no whole group lies is erased with a count of zero,
    which the driver takes for the whole card: "erase" of 512 blocks from 0x40000
    on asks for the 0x800000 blocks from there on, although only groups inside of
    the partition were meant. *)
Example small_partition_erases_card :
  erase_count (mkPart 0x40000 0x200 512) demo_unit = 0
  ∧ match fb_mmc_erase_write demo_part (str "misc") demo_flash with
    | Ret (_, w') => Some (drop 5 (dc_log (fl_dev w')), fl_replies w')
    | Crash _ => None
    end
    = Some ([mkCmd MMC_CMD_ERASE SECURE_ERASE;
             mkCmd MMC_CMD_ERASE_GROUP_END (0x40000 + 0x800000 - 1);
             mkCmd MMC_CMD_ERASE_GROUP_START 0x40000], [OkayReply]).
Proof. split; by vm_compute. Qed.

(** A device that notes the blocks it is asked to write. *)
#[local] Instance noting : BlockDev (list (Z * Z)) := {|
  block_write := fun start n _ l => Ret (n, (start, n) :: l);
  block_erase := fun _ _ l => Ret (0, l);
|}.
#[local] Instance noting_heap : Heap (list (Z * Z)) := fun _ l => (true, l).

Definition first_write (info : disk_partition) (data : bytes) : option (Z * Z) :=
  match write_sparse_image info data (mkFlash [] []) with
  | Ret (_, w') => last (fl_dev w')
  | Crash _ => None
  end.

(** 513 chunks of blocks of almost 4 GiB that are skipped, then one to fill. *)
Definition wrapping_image : bytes :=
  encode_image 0xFFFFFE00
    (replicate 512 (Skip 0xFFFFFFFF) ++ [Skip (2 ^ 41 + 2 ^ 18 - 512 * 0xFFFFFFFF); Fill [1; 2; 3; 4] 1]).

(** The sum of the chunks is not bounded: 513 chunks to skip bring the block
    number round to 0, and the next chunk passes for one inside of the partition
    although it is written from block 0 on. *)
Example sparse_wraps : first_write (mkPart 0x40000 0x1000000 512) wrapping_image = Some (0, 1024).
Proof. by vm_compute. Qed.

Definition sparse_replies (data : bytes) : run (list reply) :=
  match write_sparse_image (mkPart 0x40000 0x1000 512) data (mkFlash [] []) with
  | Ret (_, w') => Ret (fl_replies w')
  | Crash c => Crash c
  end.
(** An image of one chunk with a header of [hdr] bytes. *)
Definition one_chunk_image (hdr B blks : Z) (chunk : bytes) : bytes :=
  le_encode 4 SPARSE_HEADER_MAGIC ++ le_encode 2 1 ++ [0; 0] ++ le_encode 2 hdr ++ le_encode 2 12
  ++ le_encode 4 B ++ le_encode 4 blks ++ le_encode 4 1 ++ replicate (Z.to_nat (hdr - 24)) 0 ++ chunk.

(** Images the format allows that are not read as such: a header longer than
    28 bytes is skipped twice, and a checksum chunk is only accepted without its
    four bytes; a block size of 0 passes the check and is then divided by. *)
Example sparse_format_refused :
  sparse_replies (one_chunk_image 28 512 4 (chunk_head CHUNK_TYPE_DONT_CARE 4 12)) = Ret [OkayReply]
  ∧ sparse_replies (one_chunk_image 32 512 4 (chunk_head CHUNK_TYPE_DONT_CARE 4 12 ++ replicate 8 0))
    = Ret [FailReply (str "Unknown chunk type")]
  ∧ sparse_replies (one_chunk_image 28 512 0 (chunk_head CHUNK_TYPE_CRC32 0 16 ++ [1; 2; 3; 4]))
    = Ret [FailReply (str "Bogus chunk size for chunk type Dont Care")]
  ∧ sparse_replies (one_chunk_image 28 0 0 (chunk_head CHUNK_TYPE_FILL 1 16 ++ [1; 2; 3; 4])) = Crash Aborted.
Proof. repeat (split; [by vm_compute|]). by vm_compute. Qed.
