(* ===== verification/FlashChain.v ===== *)
(** * From a download to the partition

    "flash" as a whole: the packets of a download, the command, and the blocks
    written by [fb_mmc_flash_write]. *)

From S2P Require Import Prelude AvbOps BootCtl CmdAvb.
From S2P Require Import Idme IdmeBoot IdmeCmd SecureBoot Unlock Bootm Fastboot FastbootSpec FastbootLock.
From S2P Require Import FastbootData MmcBlock Sparse SparseSpec.

Section Chain.
Context {D E : Type} `{Mmc D} `{Heap (IdmeState D)} `{Heap (Board D)} `{SecureChip} `{TomCrypt} `{UnlockPlatform}.
Context `{StoreOps E} `{Heap (BootState E)} `{FastbootPlatform}.
Context {V : Type} `{BlockDev V} `{Heap V} `{!DiskLaws V} `{!Partitions V}.
Context (stale : disk_partition).

(** What the events of fastboot do to the device. *)
Definition deliver (e : fb_event) : comp (Flash V) unit :=
  match e with
  | FlashWrite partition data => fb_mmc_flash_write stale partition data (zlen data)
  | FlashErase partition => fb_mmc_erase_write stale partition
  | _ => mret tt
  end.

(** A name "flash:" takes for a partition, on a device with an eMMC. *)
Definition flashable (name : bytes) (st : BootState E) : Prop :=
  main_storage = Emmc
  ∧ Forall (fun c => strcmp_l1 c name = false) [str "unlock"; str "otucert"; str "otucode"]
  ∧ (dynamic_partition st = 0 ∨ name ∉ logical_partitions).

(** A partition of the board's table that images are written to as they are. *)
Definition data_partition (part : bytes) (info : disk_partition) : Prop :=
  known_device = true ∧ is_aml_or_dos = true ∧ get_partition_info_aml_by_name part = Some info
  ∧ part ≠ CONFIG_FASTBOOT_MBR_NAME ∧ part ≠ str "dtb" ∧ has_prefix part (str "bootloader") = false.

Lemma flash_run name data (w : Fastboot D E) :
  flashable name (m_boot (fb_machine w)) → downloaded w = Ret (data, w) →
  ∃ w', cb_flash (str "flash:" ++ name) w = Ret (tt, w')
    ∧ fb_log w' = FlashWrite (rename_partition name) data :: fb_log w.
Proof.
  intros (Hs & Hc & Hl) Hd. rewrite !Forall_cons in Hc. destruct Hc as (Hc1 & Hc2 & Hc3 & _).
  unfold cb_flash. change (strsep (str "flash:" ++ name) 58) with (Some name). cbv iota beta.
  rewrite Hc1, Hc2, Hc3. change (negb (check_lock =? 0)) with false. cbv iota.
  unfold boot_state, mbind at 1, comp_bind at 1.
  assert (negb (dynamic_partition (m_boot (fb_machine w)) =? 0) && bool_decide (name ∈ logical_partitions) = false) as ->.
  { destruct Hl as [->|Hl]; [done|]. rewrite (bool_decide_false _ Hl). apply andb_false_r. }
  unfold on_storage. rewrite Hs. unfold flash_partition. rewrite (comp_bind_run _ _ _ _ _ Hd). by eexists.
Qed.

Lemma deliver_raw part info data (v : Flash V) :
  data_partition part info → is_sparse_image data = Ret false →
  p_blksz info = 512 → 0 ≤ p_start info → p_start info + p_size info < 2 ^ 64 →
  0 < zlen data < 2 ^ 32 → zlen data mod 512 = 0 → zlen data ≤ p_size info * 512 →
  (∀ s k, p_start info ≤ s → 0 < k → s + k ≤ p_start info + p_size info → writable s k) →
  ∃ v', deliver (FlashWrite part data) v = Ret (tt, v') ∧ fl_replies v' = OkayReply :: fl_replies v
    ∧ ∀ a, disk_of v' a = over (disk_of v) (p_start info * 512) data a.
Proof.
  intros (Hk & Ht & Hi & Hm & Hdtb & Hb) Hsp Hblk Hst Hend Hn Hmod Hfit Hcan.
  pose proof (Z.div_mod (zlen data) 512 ltac:(lia)) as Hd.
  assert (raw_blocks (zlen data) * 512 = zlen data) as Hr.
  { unfold raw_blocks. rewrite Hd, Hmod at 1. replace (_ + 0 + 511) with (511 + zlen data / 512 * 512) by lia.
    rewrite Z.div_add by done. change (511 / 512) with 0. lia. }
  destruct (raw_image_written info data (zlen data) v) as (v' & Ew & Hv); [done..|lia|done|].
  rewrite (proj2 (Z.leb_le _ _)) in Hv by lia. destruct Hv as [R Hdisk].
  exists v'. split; [|split; [done|]].
  - cbn [deliver]. unfold fb_mmc_flash_write. rewrite Hk. cbn [negb].
    rewrite bool_decide_false by (unfold is_aml_or_dos in Ht; intros Hp; by rewrite Hp in Ht).
    unfold flash_aml. rewrite Ht. cbn [orb]. rewrite bool_decide_false, Hi by done.
    unfold write_image. rewrite bool_decide_false, Hb by done.
    by rewrite (comp_bind_run _ _ _ _ _ (lift_run _ _ _ Hsp)).
  - intros a. rewrite Hdisk, Hr, slice_all. done.
Qed.

(** C18: flashing works from the host to the blocks: a raw image of whole
    blocks, not sparse, that fits the partition and the download buffer, is
    downloaded in any packets and then flashed by the name of a partition the
    device may flash and whose blocks can be written, is written, after one
    request to the storage, to the start of the partition, is answered with
    OKAY, and nothing else on the device changes. *)
Theorem flash_stores n qs p name info (w : Fastboot D E) (v : Flash V) :
  let data := take (Z.to_nat n) (concat qs ++ p) in
  let part := rename_partition name in
  0 < n → n ≤ ddr_size_usable → n < 2 ^ 32 → n ≤ zlen (fb_buffer w) →
  zlen (concat qs) < n ≤ zlen (concat qs) + zlen p →
  flashable name (m_boot (fb_machine w)) → data_partition part info → is_sparse_image data = Ret false →
  p_blksz info = 512 → 0 ≤ p_start info → p_start info + p_size info < 2 ^ 64 →
  n mod 512 = 0 → n ≤ p_size info * 512 →
  (∀ s k, p_start info ≤ s → 0 < k → s + k ≤ p_start info + p_size info → writable s k) →
  ∃ w' v',
    (cb_download (str "download:" ++ hex_of_Z n);; receive qs;; rx_handler_dl_image p;;
     cb_flash (str "flash:" ++ name)) w = Ret (tt, w')
    ∧ head (fb_log w') = Some (FlashWrite part data)
    ∧ deliver (FlashWrite part data) v = Ret (tt, v')
    ∧ fl_replies v' = OkayReply :: fl_replies v
    ∧ ∀ a, disk_of v' a = over (disk_of v) (p_start info * 512) data a.
Proof.
  intros data part Hpos Hu H32 Hb Hp Hf Hpart Hsp Hblk Hst Hend Hmod Hfit Hcan.
  destruct (download_run n qs p w Hpos Hu H32 Hb Hp) as (w1 & E1 & D1 & _ & M1 & _). fold data in D1.
  destruct (flash_run name data w1) as (w2 & E2 & L2); [by rewrite M1|done|].
  assert (zlen data = n) as Hl by (unfold data, zlen in *; rewrite length_take, length_app; lia).
  destruct (deliver_raw part info data v) as (v' & Ev & R & Hd); [done..|by rewrite Hl|by rewrite Hl|by rewrite Hl|done|].
  exists w2, v'. split; [|by rewrite L2].
  apply comp_bind_Ret in E1 as ([] & wa & Ea & E1). apply comp_bind_Ret in E1 as ([] & wb & Eb & E1).
  by rewrite (comp_bind_run _ _ _ _ _ Ea), (comp_bind_run _ _ _ _ _ Eb), (comp_bind_run _ _ _ _ _ E1).
Qed.
End Chain.

(** ** Example *)

#[local] Existing Instances Unlock.demo_tomcrypt Unlock.demo_chip Unlock.demo_platform Unlock.demo_mmc
  Unlock.demo_heap IdmeCmd.demo_heap CmdAvb.demo_store CmdAvb.demo_board_heap FastbootSpec.demo_fastboot.
#[local] Existing Instances MmcBlock.demo_host MmcBlock.demo_heap MmcBlock.demo_laws SparseSpec.demo_blocks
  SparseSpec.demo_disk SparseSpec.demo_partitions.

Lemma flash_stores_witness :
  let w := mkFastboot (demo_machine []) (replicate 600 0) 0 0 [] 0 [] : Fastboot unit demo_world in
  let data := replicate 512 7 in
  ∃ w' v',
    (cb_download (str "download:" ++ hex_of_Z 512);; receive [replicate 500 7];; rx_handler_dl_image (replicate 12 7);;
     cb_flash (str "flash:userdata")) w = Ret (tt, w')
    ∧ head (fb_log w') = Some (FlashWrite (str "data") data)
    ∧ deliver demo_part (FlashWrite (str "data") data) demo_flash = Ret (tt, v')
    ∧ fl_replies v' = [OkayReply]
    ∧ ∀ a, disk_of v' a = over (disk_of demo_flash) (0x20000 * 512) data a.
Proof.
  intros w data.
  apply (flash_stores demo_part 512 [replicate 500 7] (replicate 12 7) (str "userdata") (mkPart 0x20000 0x2000 512) w
    demo_flash); [done|by vm_compute|done|by vm_compute|split; by vm_compute| | |done|done|done|done|done|done|].
  - split; [done|]. split; [by repeat constructor|]. by left.
  - by repeat split.
  - exact demo_data_writable.
Defined.
