(* ===== verification/PartTable.v ===== *)
(** * The partition table of the eMMC

    [drivers/mmc/aml_emmc_partition.c] and the lookups of [disk/part_aml.c]: how
    the table is composed of the board's own partitions and those of the device
    tree, laid out on the card, stored in the reserved area and in MBR and EBR
    sectors, read back at the next start, and asked for by name.  The board is
    built with [CONFIG_PTBL_MBR] and [DTB_BIND_KERNEL], without
    [CONFIG_AML_GPT]. *)

From S2P Require Import Prelude MmcBlock Sparse.

Definition SZ_1M : Z := 0x100000.
Definition MAX_PART_COUNT : Z := 32.
Definition MAX_MMC_PART_NUM : Z := 32.
Definition DOS_PARTITION_COUNT : Z := 32.
Definition PARTITION_RESERVED : Z := 8 * SZ_1M.
Definition MMC_BOOT_PARTITION_RESERVED : Z := 32 * SZ_1M.
Definition MMC_BOTTOM_RSV_SIZE : Z := 0.
Definition MMC_BOOT_NAME : bytes := str "bootloader".
Definition MMC_RESERVED_NAME : bytes := str "reserved".
Definition MMC_TABLE_NAME : bytes := str "AML_TABLE".
Definition MMC_CARD_PARTITION_NAME : bytes := str "card".
Definition MMC_MPT_VERSION_1 : bytes := str "01.00.00".
Definition MMC_MPT_VERSION_2 : bytes := str "01.02.00".
Definition MMC_MPT_VERSION : bytes := MMC_MPT_VERSION_1.
Definition MMC_PARTITIONS_MAGIC : bytes := str "MPT".
Definition EMMC_BOOT_FLAG : Z := 2.
Definition MESON_CPU_MAJOR_ID_GXL : Z := 0x21.
Definition ENOMEM : Z := 12.

(** ** Partitions *)

(** [struct partitions]; the name fills sixteen bytes. *)
Record partitions := mkPartition {
  pt_name : bytes;
  pt_size : Z;
  pt_offset : Z;
  pt_mask : Z;
}.
#[export] Instance partitions_eq_dec : EqDecision partitions.
Proof. solve_decision. Defined.

Definition set_offset (p : partitions) (o : Z) : partitions :=
  mkPartition (pt_name p) (pt_size p) o (pt_mask p).
Definition set_size (p : partitions) (s : Z) : partitions :=
  mkPartition (pt_name p) s (pt_offset p) (pt_mask p).
Definition set_name (p : partitions) (n : bytes) : partitions :=
  mkPartition n (pt_size p) (pt_offset p) (pt_mask p).

(** The struct in memory, four bytes of padding at its end. *)
Definition sizeof_partitions : Z := 40.
Definition partition_bytes (p : partitions) : bytes :=
  pt_name p ++ le_encode 8 (pt_size p) ++ le_encode 8 (pt_offset p) ++ le_encode 4 (pt_mask p)
  ++ replicate 4 0.
Definition partition_of (b : bytes) : partitions :=
  mkPartition (slice b 0 16) (le_decode (slice b 16 8)) (le_decode (slice b 24 8)) (le_decode (slice b 32 4)).
Definition table_bytes (l : list partitions) : bytes := mjoin (partition_bytes <$> l).

Definition char16 (s : bytes) : bytes := take 16 (s ++ replicate 16 0).
Definition PARTITION_ELEMENT (na : bytes) (sz flags : Z) : partitions :=
  mkPartition (char16 na) sz 0 flags.
Definition no_partition : partitions := mkPartition (replicate 16 0) 0 0 0.

(** [part->name] as a string: a name of sixteen characters has no NUL, and
    reading goes on into the fields behind it. *)
Definition name_string (p : partitions) : run bytes := c_str (partition_bytes p).
Definition name_is (p : partitions) (name : bytes) : run bool := c_streq (partition_bytes p) name.

(** [struct _iptbl]. *)
Record _iptbl := Iptbl {
  it_partitions : list partitions;
  it_count : Z;
}.

Definition emmc_partition_table : list partitions :=
  [PARTITION_ELEMENT MMC_BOOT_NAME (4 * SZ_1M) 0; PARTITION_ELEMENT MMC_RESERVED_NAME (64 * SZ_1M) 0].

Record virtual_partition := VIRTUAL_PARTITION_ELEMENT {
  vp_name : bytes;
  vp_offset : Z;
  vp_size : Z;
  vp_flag : Z;
}.
Definition VP_FLAG_BASE_USER : Z := 1.
Definition VP_FLAG_BASE_BOOT0 : Z := 2.
Definition VP_FLAG_BASE_BOOT1 : Z := 4.
Definition VP_FLAG_BASE_RSV : Z := 8.

Definition virtual_partition_table : list virtual_partition :=
  [VIRTUAL_PARTITION_ELEMENT (str "AML_MBR") 0 0x200 VP_FLAG_BASE_USER;
   VIRTUAL_PARTITION_ELEMENT (str "bootloader-boot0") 0 0 VP_FLAG_BASE_BOOT0;
   VIRTUAL_PARTITION_ELEMENT (str "bootloader-boot1") 0 0 VP_FLAG_BASE_BOOT1;
   VIRTUAL_PARTITION_ELEMENT MMC_TABLE_NAME 0 (16 * 1024) VP_FLAG_BASE_RSV;
   VIRTUAL_PARTITION_ELEMENT (str "key") 0x4000 (256 * 1024) VP_FLAG_BASE_RSV;
   VIRTUAL_PARTITION_ELEMENT (str "pattern") (SZ_1M * 3) (256 * 512) VP_FLAG_BASE_RSV;
   VIRTUAL_PARTITION_ELEMENT (str "dtb") (SZ_1M * 4) (512 * 512 * 2) VP_FLAG_BASE_RSV;
   VIRTUAL_PARTITION_ELEMENT (str "fastboot_context") (SZ_1M * 5) 512 VP_FLAG_BASE_RSV;
   VIRTUAL_PARTITION_ELEMENT (str "magic") (SZ_1M * 6) (256 * 512) VP_FLAG_BASE_RSV;
   VIRTUAL_PARTITION_ELEMENT (str "random") (SZ_1M * 7) (256 * 512) VP_FLAG_BASE_RSV;
   VIRTUAL_PARTITION_ELEMENT (str "ddr-parameter") (SZ_1M * 8) (4 * 512) VP_FLAG_BASE_RSV].

(** Names behind a pointer into this table run on into the offset. *)
Definition vp_bytes (v : virtual_partition) : bytes :=
  char16 (vp_name v) ++ le_encode 8 (vp_offset v) ++ le_encode 8 (vp_size v) ++ le_encode 4 (vp_flag v).

(** ** Looking up by name *)

(** An element of an array; a store into it. *)
Definition at_ {A} (l : list A) (i : Z) : run A :=
  if i <? 0 then Crash OutOfBounds
  else match l !! Z.to_nat i with Some x => Ret x | None => Crash OutOfBounds end.
Definition put {A} (l : list A) (i : Z) (x : A) : run (list A) :=
  if (0 <=? i) && (i <? zlen l) then Ret (<[Z.to_nat i := x]> l) else Crash OutOfBounds.

(** The first of [n] entries with this name, with its index from [i] on. *)
Fixpoint index_from (tbl : list partitions) (n : nat) (i : Z) (name : bytes) : run (option (Z * partitions)) :=
  match n with
  | O => Ret None
  | S n =>
      match tbl with
      | [] => Crash OutOfBounds
      | p :: tbl =>
          eq ← name_is p name;
          if eq : bool then Ret (Some (i, p)) else index_from tbl n (i + 1) name
      end
  end.

Definition _get_part_index_by_name (tbl : list partitions) (cnt : Z) (name : bytes) : run Z :=
  r ← index_from tbl (Z.to_nat cnt) 0 name;
  Ret (match r with Some (i, _) => i | None => -1 end).

Definition _find_partition_by_name (tbl : list partitions) (cnt : Z) (name : bytes) : run (option partitions) :=
  r ← index_from tbl (Z.to_nat cnt) 0 name;
  Ret (match r with Some (_, p) => Some p | None => None end).

(** [inh] is the global [emmc_partition_table], whose offsets change. *)
Definition _get_inherent_offset (inh : list partitions) (name : bytes) : run Z :=
  part ← _find_partition_by_name inh (zlen inh) name;
  Ret (match part with None => u64 (-1) | Some p => pt_offset p end).

Definition aml_get_partition_by_name (inh : list partitions) (name : bytes) : run (option partitions) :=
  _find_partition_by_name inh (zlen inh) name.

Fixpoint virtual_from (tbl : list virtual_partition) (name : bytes) : run (option virtual_partition) :=
  match tbl with
  | [] => Ret None
  | v :: tbl =>
      eq ← c_streq (vp_bytes v) name;
      if eq : bool then Ret (Some v) else virtual_from tbl name
  end.
Definition aml_get_virtual_partition_by_name (name : bytes) : run (option virtual_partition) :=
  virtual_from virtual_partition_table name.

Definition is_prio_partition (list : _iptbl) (part : partitions) : run (option Z) :=
  name ← name_string part;
  r ← index_from (it_partitions list) (Z.to_nat (it_count list)) 0 name;
  Ret (match r with Some (i, _) => Some i | None => None end).

(** ** Composing a table *)

(** The loop of [compose_ept], with [n] passes left. *)
Fixpoint compose_from (n : nat) (i : Z) (dtb inh ept : _iptbl) : run _iptbl :=
  match n with
  | O => Ret ept
  | S n =>
      src ← (if i <? it_count inh then at_ (it_partitions inh) i
             else at_ (it_partitions dtb) (i - it_count inh));
      prio ← is_prio_partition ept src;
      let dst := match prio with Some k => k | None => it_count ept end in
      let count := match prio with Some _ => it_count ept | None => it_count ept + 1 end in
      l ← put (it_partitions ept) dst src;
      let ept := Iptbl l count in
      if pt_size src =? u64 (-1) then Ret ept else compose_from n (i + 1) dtb inh ept
  end.
Definition compose_ept (dtb inh ept : _iptbl) : run _iptbl :=
  compose_from (Z.to_nat MAX_PART_COUNT) 0 dtb inh ept.

(** The loop of [_calculate_offset] over what follows [prev], with [n] passes
    left; the value of [i] at its end is returned as well. *)
Fixpoint offsets_from (n : nat) (i capacity gap : Z) (bottom : bool) (prev : partitions) (l : list partitions)
    : run (list partitions * Z) :=
  match n with
  | O => Ret (l, i)
  | S n =>
      match l with
      | [] => Crash OutOfBounds
      | p :: l =>
          let p := set_offset p (u64 (pt_offset prev + pt_size prev + gap)) in
          if (capacity <? u64 (pt_offset p + pt_size p)) || (pt_size p =? u64 (-1)) then
            let p := set_size p (u64 (capacity - pt_offset p)) in
            let p := if bottom && (MMC_BOTTOM_RSV_SIZE <? pt_size p)
                     then set_size p (u64 (pt_size p - MMC_BOTTOM_RSV_SIZE)) else p in
            Ret (p :: l, i)
          else
            r ← offsets_from n (i + 1) capacity PARTITION_RESERVED bottom p l;
            Ret (p :: r.1, r.2)
      end
  end.

Definition _calculate_offset (device_boot_flag : Z) (m : mmc) (itbl : _iptbl) (bottom : bool)
    : run (Z * _iptbl) :=
  if it_count itbl <=? 0 then Ret (-1, itbl) else
  match it_partitions itbl with
  | [] => Crash OutOfBounds
  | part :: l =>
      let part := set_offset part 0 in
      boot ← name_is part MMC_BOOT_NAME;
      let gap := if boot : bool then MMC_BOOT_PARTITION_RESERVED else PARTITION_RESERVED in
      name ← (if boot && negb (device_boot_flag =? EMMC_BOOT_FLAG)
              then wr (pt_name part) 0 (str "bootloadere" ++ [0]) else Ret (pt_name part));
      let part := set_name part name in
      r ← offsets_from (Z.to_nat (it_count itbl - 1)) 1 (capacity m) gap bottom part l;
      Ret (if r.2 <? it_count itbl - 1 then -1 else 0, Iptbl (part :: r.1) (it_count itbl))
  end.

(** ** The table in the reserved area *)

(** [!strncmp(s, lit, sizeof(lit))]: the NUL of [lit] is compared as well. *)
Definition _get_version (s : bytes) : run Z :=
  v2 ← c_streq s MMC_MPT_VERSION_2;
  if v2 : bool then Ret 2 else
  v1 ← c_streq s MMC_MPT_VERSION_1;
  Ret (if v1 : bool then 1 else -1).

(** The words of four bytes of an array, added up without the carry out of 32
    bits. *)
Fixpoint add_words (n : nat) (p : bytes) (sum : Z) : Z :=
  match n with
  | O => sum
  | S n => add_words n (drop 4 p) (u32 (sum + le_decode (take 4 p)))
  end.
Definition _calc_iptbl_check_v2 (part : bytes) (count : Z) : Z :=
  s32 (add_words (Z.to_nat (Z.shiftr (count * sizeof_partitions) 2)) part 0).
Definition _calc_iptbl_check_v1 (part : bytes) (count : Z) : Z :=
  s32 (Nat.iter (Z.to_nat count) (add_words (Z.to_nat (sizeof_partitions / 4)) part) 0).
Definition _calc_iptbl_check (part : bytes) (count version : Z) : Z :=
  if version =? 1 then _calc_iptbl_check_v1 part count
  else if version =? 2 then _calc_iptbl_check_v2 part count
  else -1.

(** [struct ptbl_rsv]: magic, version, count, checksum and thirty-two partitions,
    in whole blocks. *)
Definition sizeof_ptbl_rsv : Z := 24 + MAX_MMC_PART_NUM * sizeof_partitions.
Definition ptbl_blocks_size : Z := (sizeof_ptbl_rsv + 511) / 512 * 512.

Section Table.
Context {V : Type} `{MmcHost V} `{Heap V}.
Context (mmc_devices : list mmc) (key_area : option (Z * Z)) (info_disprotect : Z).
Context (device_boot_flag family_id : Z).

Notation block_read m := (mmc_bread mmc_devices key_area info_disprotect (dev m)).
Notation block_write m := (mmc_bwrite mmc_devices key_area info_disprotect (dev m)).

Definition _mmc_rsv_read (m : mmc) (offset size : Z) : comp V (Z * bytes) :=
  if size =? 0 then mret (0, []) else
  if read_bl_len m =? 0 then (fun _ => Crash Aborted) else
  r ← block_read m (offset / read_bl_len m) (size / read_bl_len m);
  mret (u64 (r.1 * read_bl_len m), r.2).

Definition _mmc_rsv_write (m : mmc) (offset size : Z) (buffer : bytes) : comp V Z :=
  if size =? 0 then mret 0 else
  if read_bl_len m =? 0 then (fun _ => Crash Aborted) else
  n ← block_write m (offset / read_bl_len m) (size / read_bl_len m) buffer;
  mret (u64 (n * read_bl_len m)).

(** The partitions stored in the table of [buffer], when it is one: an error or
    the entries in use. *)
Definition read_ptbl (buffer : bytes) : run (Z + list partitions) :=
  magic ← c_streq (slice buffer 0 4) MMC_PARTITIONS_MAGIC;
  if negb magic then Ret (inl (-4)) else
  version ← _get_version (slice buffer 4 12);
  if version <? 0 then Ret (inl (-5)) else
  let count := le_decode (slice buffer 16 4) in
  if MAX_MMC_PART_NUM <? count then Ret (inl (-1)) else
  let part := slice buffer 24 (MAX_MMC_PART_NUM * sizeof_partitions) in
  let checksum := _calc_iptbl_check part count version in
  if negb (checksum =? s32 (le_decode (slice buffer 20 4))) then Ret (inl (-6)) else
  Ret (inr ((fun i => partition_of (slice part (Z.of_nat i * sizeof_partitions) sizeof_partitions))
              <$> seq 0 (Z.to_nat count))).

(** [rsv] comes back with the table that was found, or as it was. *)
Definition get_ptbl_rsv (m : mmc) (inh : list partitions) (rsv : _iptbl) : comp V (Z * _iptbl) :=
  vpart ← lift (aml_get_virtual_partition_by_name MMC_TABLE_NAME);
  match vpart with
  | None => null_deref
  | Some vpart =>
      let size := ptbl_blocks_size in
      if vp_size vpart <? size then mret (-1, rsv) else
      buffer ← malloc size;
      if negb buffer then mret (-2, rsv) else
      base ← lift (_get_inherent_offset inh MMC_RESERVED_NAME);
      let offset := u64 (base + vp_offset vpart) in
      r ← _mmc_rsv_read m offset size;
      if negb (r.1 =? size) then mret (-3, rsv) else
      t ← lift (read_ptbl r.2);
      match t with
      | inl e => mret (e, rsv)
      | inr l => mret (0, Iptbl (l ++ drop (length l) (it_partitions rsv)) (zlen l))
      end
  end.

(** The block image of a table. *)
Definition ptbl_image (src : _iptbl) : run bytes :=
  let buffer := replicate (Z.to_nat ptbl_blocks_size) 0 in
  buffer ← wr buffer 4 (MMC_MPT_VERSION ++ [0]);
  buffer ← wr buffer 0 (MMC_PARTITIONS_MAGIC ++ [0]);
  buffer ← wr buffer 16 (le_encode 4 (it_count src));
  part ← rd (table_bytes (it_partitions src)) 0 (sizeof_partitions * it_count src);
  buffer ← wr buffer 24 part;
  version ← _get_version (slice buffer 4 12);
  wr buffer 20 (le_encode 4 (_calc_iptbl_check (table_bytes (it_partitions src)) (it_count src) version)).

Definition update_ptbl_rsv (m : mmc) (inh : list partitions) (src : _iptbl) : comp V Z :=
  vpart ← lift (aml_get_virtual_partition_by_name MMC_TABLE_NAME);
  let size := ptbl_blocks_size in
  buffer ← malloc size;
  if negb buffer then mret (-1) else
  if MAX_MMC_PART_NUM <? it_count src then mret (-1) else
  buffer ← lift (ptbl_image src);
  base ← lift (_get_inherent_offset inh MMC_RESERVED_NAME);
  match vpart with
  | None => null_deref
  | Some vpart =>
      let offset := u64 (base + vp_offset vpart) in
      n ← _mmc_rsv_write m offset size buffer;
      mret (if negb (n =? size) then -1 else 0)
  end.

(** ** Comparing and copying tables *)

(** Names and masks are not compared with [CONFIG_PTBL_MBR]. *)
Definition _cmp_partition (dst src : partitions) : Z :=
  let ret := if negb (pt_size dst =? pt_size src) then -3 else 0 in
  if negb (pt_offset dst =? pt_offset src) then -4 else ret.

Fixpoint cmp_from (n : nat) (dst src : list partitions) : run Z :=
  match n with
  | O => Ret 0
  | S n =>
      match dst, src with
      | d :: dst, s :: src =>
          let ret := _cmp_partition d s in
          if negb (ret =? 0) then Ret ret else cmp_from n dst src
      | _, _ => Crash OutOfBounds
      end
  end.
Definition _cmp_iptbl (dst src : _iptbl) : run Z :=
  if negb (it_count dst =? it_count src) then Ret (-1)
  else cmp_from (Z.to_nat (it_count dst)) (it_partitions dst) (it_partitions src).

Definition zero_table : _iptbl := Iptbl (replicate (Z.to_nat MAX_PART_COUNT) no_partition) 0.

Definition _zalloc_iptbl : comp V (Z * option _iptbl) :=
  partition ← malloc (sizeof_partitions * MAX_PART_COUNT);
  if negb partition then mret (-1, None) else
  iptbl ← malloc 16;
  if negb iptbl then mret (-2, None) else
  mret (0, Some zero_table).

(** The memory behind both arguments is there. *)
Definition _cpy_iptbl (dst src : _iptbl) : Z * _iptbl :=
  if MAX_MMC_PART_NUM <? it_count src then (-3, dst)
  else let n := Z.to_nat (it_count src) in
       (0, Iptbl (take n (it_partitions src) ++ drop n (it_partitions dst)) (it_count src)).

(** ** MBR and EBR *)

Definition DOS_PART_TBL_OFFSET : Z := 0x1be.
Definition DOS_PART_MAGIC_OFFSET : Z := 0x1fe.
Definition DOS_PBR_FSTYPE_OFFSET : Z := 0x36.
Definition DOS_PBR32_FSTYPE_OFFSET : Z := 0x52.
Definition DOS_MBR : Z := 0.
Definition DOS_PBR : Z := 1.

Record dos_partition := mkDos {
  boot_ind : Z;
  sys_ind : Z;
  start4 : bytes;
  size4 : bytes;
}.
(** Heads, sectors and cylinders stay zero. *)
Definition dos_bytes (p : dos_partition) : bytes :=
  [boot_ind p; 0; 0; 0; sys_ind p; 0; 0; 0] ++ start4 p ++ size4 p.
Definition no_entry : dos_partition := mkDos 0 0 (replicate 4 0) (replicate 4 0).
Definition dos_of (b : bytes) : dos_partition := mkDos (b !!! 0%nat) (b !!! 4%nat) (slice b 8 4) (slice b 12 4).
Definition dos_entry (buffer : bytes) (i : Z) : dos_partition :=
  dos_of (slice buffer (DOS_PART_TBL_OFFSET + 16 * i) 16).

Definition le32_to_int (le32 : bytes) : Z := s32 (le_decode le32).

(** The pointer to the entries does not move: all three passes look at the
    first. *)
Fixpoint test_slots (n : nat) (slot : Z) (buffer : bytes) : Z :=
  match n with
  | O => DOS_MBR
  | S n =>
      let p := dos_entry buffer 0 in
      if negb (boot_ind p =? 0) && negb (boot_ind p =? 0x80) then
        if (slot =? 0)
           && (bool_decide (slice buffer DOS_PBR_FSTYPE_OFFSET 3 = str "FAT")
               || bool_decide (slice buffer DOS_PBR32_FSTYPE_OFFSET 5 = str "FAT32"))
        then DOS_PBR else -1
      else test_slots n (slot + 1) buffer
  end.
Definition test_block_type (buffer : bytes) : Z :=
  if negb (buffer !!! Z.to_nat DOS_PART_MAGIC_OFFSET =? 0x55)
     || negb (buffer !!! Z.to_nat (DOS_PART_MAGIC_OFFSET + 1) =? 0xaa) then -1
  else test_slots 3 0 buffer.

(** What the loop over sectors carries. *)
Record chain := mkChain {
  ch_partitions : list partitions;
  ch_part_num : Z;
  ch_primary_num : Z;
  ch_logic_start : Z;
  ch_externed_start : Z;
}.

(** One entry of a sector: a partition, or where the next sector is. *)
Definition take_entry (flag : bool) (read_offset : Z) (pt : dos_partition) (c : chain) : run chain :=
  if ((boot_ind pt =? 0) || (boot_ind pt =? 0x80)) && (sys_ind pt =? 0x83) then
    old ← at_ (ch_partitions c) (ch_part_num c);
    l ← put (ch_partitions c) (ch_part_num c)
          (mkPartition (pt_name old) (u64 (Z.shiftl (u64 (le32_to_int (size4 pt))) 9))
             (u64 (Z.shiftl (u64 (le32_to_int (start4 pt) + read_offset)) 9)) (sys_ind pt));
    Ret (mkChain l (ch_part_num c + 1) (if flag then ch_primary_num c + 1 else ch_primary_num c)
           (ch_logic_start c) (ch_externed_start c))
  else if (boot_ind pt =? 0) && (sys_ind pt =? 0x05) then
    Ret (mkChain (ch_partitions c) (ch_part_num c) (ch_primary_num c)
           (u64 (le32_to_int (start4 pt))) (ch_externed_start c))
  else Ret c.

Fixpoint take_entries (n : nat) (i : Z) (flag : bool) (read_offset : Z) (buffer : bytes) (c : chain) : run chain :=
  match n with
  | O => Ret c
  | S n =>
      c ← take_entry flag read_offset (dos_entry buffer i) c;
      take_entries n (i + 1) flag read_offset buffer c
  end.

(** The loop over sectors; nothing in the code bounds it. *)
Fixpoint chain_from (fuel : nat) (m : mmc) (read_offset : Z) (c : chain) : comp V chain :=
  match fuel with
  | O => fun _ => Crash NoFuel
  | S fuel =>
      r ← block_read m read_offset 1;
      if negb (r.1 =? 1) then mret c else
      let type := test_block_type r.2 in
      if negb (type =? 0) && negb (type =? 1) then mret c else
      c ← lift (take_entries 4 0 (read_offset =? 0) read_offset r.2 c);
      let externed_start :=
        if ch_part_num c =? ch_primary_num c then ch_logic_start c else ch_externed_start c in
      let read_offset :=
        if ch_part_num c =? ch_primary_num c then externed_start
        else u64 (externed_start + ch_logic_start c) in
      if ch_logic_start c =? 0 then mret c else
      chain_from fuel m read_offset
        (mkChain (ch_partitions c) (ch_part_num c) (ch_primary_num c) 0 externed_start)
  end.

Definition _construct_ptbl_by_mbr (fuel : nat) (m : mmc) (iptbl_mbr : _iptbl) : comp V _iptbl :=
  c ← chain_from fuel m 0 (mkChain (it_partitions iptbl_mbr) 0 0 0 0);
  mret (Iptbl (ch_partitions c) (ch_part_num c)).

Definition _check_ptbl_mbr (fuel : nat) (m : mmc) (ept : _iptbl) : comp V Z :=
  iptbl_mbr ← malloc 16;
  if negb iptbl_mbr then mret (-1) else
  partitions ← malloc (sizeof_partitions * DOS_PARTITION_COUNT);
  if negb partitions then mret (-1) else
  t ← _construct_ptbl_by_mbr fuel m
        (Iptbl (replicate (Z.to_nat DOS_PARTITION_COUNT) no_partition) 0);
  lift (_cmp_iptbl t ept).

Definition _construct_ebr_1st_entry (t : _iptbl) (part_num : Z) : run dos_partition :=
  p ← at_ (it_partitions t) part_num;
  Ret (mkDos 0 0x83 (le_encode 4 (Z.shiftr PARTITION_RESERVED 9)) (le_encode 4 (pt_size p / 512))).

(** Nothing is filled in behind the last partition. *)
Definition _construct_ebr_2nd_entry (t : _iptbl) (part_num : Z) : run dos_partition :=
  if it_count t <? part_num + 2 then Ret no_entry else
  next ← at_ (it_partitions t) (part_num + 1);
  first ← at_ (it_partitions t) 3;
  let start_offset :=
    Z.shiftr (u64 (pt_offset next - PARTITION_RESERVED - (pt_offset first - PARTITION_RESERVED))) 9 in
  let logic_size := Z.shiftr (u64 (pt_size next + PARTITION_RESERVED)) 9 in
  Ret (mkDos 0 0x05 (le_encode 4 start_offset) (le_encode 4 logic_size)).

(** The loop over the logical partitions keeps the size of the last. *)
Fixpoint externed_size_from (n : nat) (i : Z) (t : _iptbl) (externed_size : Z) : run Z :=
  match n with
  | O => Ret externed_size
  | S n =>
      p ← at_ (it_partitions t) i;
      externed_size_from n (i + 1) t (Z.shiftr (pt_size p) 9)
  end.

Definition _construct_mbr_entry (t : _iptbl) (part_num : Z) : run dos_partition :=
  if part_num =? 3 then
    first ← at_ (it_partitions t) 3;
    externed_size ← externed_size_from (Z.to_nat (it_count t - 3)) 3 t 0;
    Ret (mkDos 0 0x05 (le_encode 4 (Z.shiftr (u64 (pt_offset first - PARTITION_RESERVED)) 9))
           (le_encode 4 externed_size))
  else
    p ← at_ (it_partitions t) part_num;
    Ret (mkDos 0 0x83 (le_encode 4 (Z.shiftr (pt_offset p) 9)) (le_encode 4 (Z.shiftr (pt_size p) 9))).

(** A sector of zeros with the entries, the mark of an EBR and the magic. *)
Definition dos_sector (bootstart : bytes) (es : list dos_partition) : bytes :=
  bootstart ++ mjoin (dos_bytes <$> es) ++ [0x55; 0xaa].
Definition _construct_mbr_or_ebr (t : _iptbl) (part_num type : Z) : run bytes :=
  if type =? DOS_MBR then
    e0 ← _construct_mbr_entry t 0;
    e1 ← _construct_mbr_entry t 1;
    e2 ← _construct_mbr_entry t 2;
    e3 ← _construct_mbr_entry t 3;
    Ret (dos_sector (replicate 446 0) [e0; e1; e2; e3])
  else
    e0 ← _construct_ebr_1st_entry t part_num;
    e1 ← _construct_ebr_2nd_entry t part_num;
    Ret (dos_sector (replicate 82 0 ++ str "FAT32" ++ replicate 359 0) [e0; e1; no_entry; no_entry]).

(** The first sector stands for three partitions, each other for one.  The
    offset of the entry behind the last is read as well. *)
Fixpoint update_mbr_from (fuel : nat) (m : mmc) (t : _iptbl) (i start_blk ret : Z) : comp V Z :=
  match fuel with
  | O => fun _ => Crash NoFuel
  | S fuel =>
      if negb (i <? it_count t) then mret ret else
      sector ← lift (_construct_mbr_or_ebr t i (if i =? 0 then 0 else 2));
      let i := if i =? 0 then i + 2 else i in
      ret ← block_write m (u64 start_blk) 1 sector;
      let i := i + 1 in
      if negb (ret =? 1) then mret ret else
      p ← lift (at_ (it_partitions t) i);
      update_mbr_from fuel m t i (s32 (Z.shiftr (u64 (pt_offset p - PARTITION_RESERVED)) 9)) ret
  end.
Definition _update_ptbl_mbr (m : mmc) (t : _iptbl) : comp V Z :=
  mbr ← malloc 512;
  if negb mbr then mret (- ENOMEM) else
  ret ← update_mbr_from (S (Z.to_nat (it_count t))) m t 0 0 0;
  mret (if ret =? 0 then 1 else 0).

(** ** Bringing the table up *)

(** The globals [emmc_partition_table] and [p_iptbl_ept]. *)
Record tables := mkTables {
  inherent : list partitions;
  p_iptbl_ept : option _iptbl;
}.

(** The sectors of MBR and EBR are made to agree with the table. *)
Definition agree_mbr (fuel : nat) (m : mmc) (ept : _iptbl) (ret : Z) : comp V Z :=
  if MESON_CPU_MAJOR_ID_GXL <=? family_id then
    bad ← _check_ptbl_mbr fuel m ept;
    if negb (bad =? 0) then
      r ← _update_ptbl_mbr m ept;
      mret (Z.lor ret r)
    else mret ret
  else mret ret.

(** [dtb] is the table [get_ptbl_from_dtb] returns.  The flag says whether to go
    on: when the table cannot be laid out the function is left. *)
Definition table_of_dtb (m : mmc) (dtb : option _iptbl) (inh ept : _iptbl) : run (bool * _iptbl) :=
  match dtb with
  | None => Ret (true, ept)
  | Some dtb =>
      ept ← compose_ept dtb inh ept;
      if it_count ept =? 0 then Ret (false, ept) else
      r ← _calculate_offset device_boot_flag m ept true;
      Ret (r.1 =? 0, r.2)
  end.

(** The stored table, against or in place of the one of the device tree. *)
Definition agree_rsv (fuel : nat) (m : mmc) (inh : list partitions) (from_dtb : bool) (ept : _iptbl)
    : comp V (bool * (Z * _iptbl)) :=
  a ← _zalloc_iptbl;
  match a.2 with
  | None => mret (false, (a.1, ept))
  | Some rsv =>
      r ← get_ptbl_rsv m inh rsv;
      let rsv := r.2 in
      if negb (it_count rsv =? 0) then
        if from_dtb then
          ret ← lift (_cmp_iptbl ept rsv);
          ret ← (if ret =? 0 then mret ret else update_ptbl_rsv m inh ept);
          ret ← agree_mbr fuel m ept ret;
          mret (true, (ret, ept))
        else
          let ept := (_cpy_iptbl ept rsv).2 in
          ret ← agree_mbr fuel m ept r.1;
          mret (true, (ret, ept))
      else if negb from_dtb then mret (false, (-9, ept))
      else
        ret ← update_ptbl_rsv m inh ept;
        ret ← agree_mbr fuel m ept ret;
        mret (true, (ret, ept))
  end.

(** [mmc_device_init] up to the table.  The flag says whether the function goes
    on to [init_part] and idme, or is left through [_out]. *)
Definition device_table (fuel : nat) (m : mmc) (dtb : option _iptbl) (g : tables) : comp V (bool * (Z * tables)) :=
  r ← lift (_calculate_offset device_boot_flag m (Iptbl (inherent g) (zlen (inherent g))) false);
  let inh := it_partitions r.2 in
  a ← (match p_iptbl_ept g with
       | None => _zalloc_iptbl
       | Some _ => mret (1, Some zero_table)
       end);
  match a.2 with
  | None => mret (false, (a.1, mkTables inh None))
  | Some ept =>
      t ← lift (table_of_dtb m dtb (Iptbl inh (zlen inh)) ept);
      if negb t.1 then mret (false, (a.1, mkTables inh (Some t.2))) else
      r ← agree_rsv fuel m inh (bool_decide (is_Some dtb)) t.2;
      mret (r.1, (r.2.1, mkTables inh (Some r.2.2)))
  end.

(** ** Asking for a partition *)

Definition find_mmc_partition_by_name (g : tables) (name : bytes) : run (option partitions) :=
  match p_iptbl_ept g with
  | None => Ret None
  | Some t => _find_partition_by_name (it_partitions t) (it_count t) name
  end.

(** [partition] comes back filled in only for a part of the reserved area; its
    name, which only messages show, is left out. *)
Definition find_virtual_partition_by_name (g : tables) (name : bytes) (partition : partitions)
    : run (Z * partitions) :=
  vpart ← aml_get_virtual_partition_by_name name;
  match vpart with
  | None => Ret (-2, partition)
  | Some vpart =>
      if negb (Z.land (vp_flag vpart) VP_FLAG_BASE_RSV =? 0) then
        offset ← _get_inherent_offset (inherent g) MMC_RESERVED_NAME;
        if offset =? u64 (-1) then Ret (-1, partition) else
        Ret (0, set_size (set_offset partition (u64 (offset + vp_offset vpart))) (vp_size vpart))
      else Ret (0, partition)
  end.

Definition find_dev_num_by_partition_name (g : tables) (name : bytes) : run Z :=
  if bool_decide (name = MMC_CARD_PARTITION_NAME) then Ret 0 else
  p ← find_mmc_partition_by_name g name;
  Ret (match p with Some _ => 1 | None => -1 end).

Definition disk_part (blksz : Z) (p : partitions) : disk_partition :=
  mkPart (pt_offset p / blksz) (pt_size p / blksz) blksz.

Definition get_part_info_from_tbl (g : tables) (blksz num : Z) : run (option disk_partition) :=
  match p_iptbl_ept g with
  | None => Ret None
  | Some t =>
      if u32 (it_count t - 1) <? u32 num then Ret None else
      p ← at_ (it_partitions t) num;
      Ret (Some (disk_part blksz p))
  end.

(** The first block of the card is not part of the bootloader. *)
Definition for_bootloader (info : disk_partition) : disk_partition :=
  if (p_start info =? 0) && (MESON_CPU_MAJOR_ID_GXL <=? family_id)
  then mkPart 1 (u64 (p_size info - 1)) (p_blksz info) else info.

(** [virtual] is the local variable before it is filled in. *)
Definition get_part_info_by_name (g : tables) (blksz : Z) (virtual : partitions) (name : bytes)
    : run (option disk_partition) :=
  p ← find_mmc_partition_by_name g name;
  match p with
  | Some p => Ret (Some (for_bootloader (disk_part blksz p)))
  | None =>
      r ← find_virtual_partition_by_name g name virtual;
      if r.1 =? 0 then Ret (Some (for_bootloader (disk_part blksz r.2))) else Ret None
  end.

Definition get_partition_num_by_name (g : tables) (name : bytes) : run Z :=
  match p_iptbl_ept g with
  | None => Ret (-1)
  | Some t => _get_part_index_by_name (it_partitions t) (it_count t) name
  end.

Definition AML_MPT_OFFSET : Z := 73728.
Definition test_part_aml (m : mmc) (is_mmc : bool) : comp V Z :=
  if negb is_mmc then mret 1 else
  r ← block_read m AML_MPT_OFFSET 1;
  if negb (r.1 =? 1) then mret (-1) else
  mret (if bool_decide (slice r.2 0 3 = str "MPT") then 0 else 1).
End Table.
