(* ===== verification/PartTableSpec.v ===== *)
(** * What the partition table promises

    The layout of a table on the card, the table in the reserved area read back,
    and the cases that go wrong. *)

From S2P Require Import Prelude MmcBlock Sparse PartTable.

Lemma at_Ret {A} (l : list A) i x : at_ l i = Ret x ↔ 0 ≤ i ∧ l !! Z.to_nat i = Some x.
Proof.
  unfold at_. destruct (Z.ltb_spec i 0); [split; [done|lia]|].
  destruct (l !! Z.to_nat i); split; [intros [= ->]; done|intros [_ [= ->]]; done|done|by intros [_ ?]].
Qed.
Lemma at_ok {A} (l : list A) i x : l !! i = Some x → at_ l (Z.of_nat i) = Ret x.
Proof. intros E. apply at_Ret. split; [lia|]. by rewrite Nat2Z.id. Qed.
Lemma put_ok {A} (l : list A) i x : (i < length l)%nat → put l (Z.of_nat i) x = Ret (<[i := x]> l).
Proof.
  intros Hi. unfold put, zlen. rewrite (proj2 (Z.leb_le _ _)), (proj2 (Z.ltb_lt _ _)) by lia.
  cbn [andb]. by rewrite Nat2Z.id.
Qed.

(** ** The layout *)

(** A size that was asked for: so many bytes, or the rest of the card. *)
Definition size_ok (p : partitions) : Prop := 0 ≤ pt_size p < 2 ^ 62 ∨ pt_size p = u64 (-1).
#[export] Instance size_ok_dec p : Decision (size_ok p).
Proof. unfold size_ok. apply _. Defined.

(** [l'] is [l] laid out behind [prev], with [gap] in between: each partition
    starts where it must and keeps its name and size; the last may be cut. *)
Fixpoint laid (capacity gap : Z) (prev : partitions) (l l' : list partitions) : Prop :=
  match l, l' with
  | [], [] => True
  | p :: l, p' :: l' =>
      pt_name p' = pt_name p ∧ pt_mask p' = pt_mask p
      ∧ pt_offset p' = pt_offset prev + pt_size prev + gap
      ∧ 0 ≤ pt_size p'
      ∧ (pt_size p' = pt_size p ∧ pt_offset p' + pt_size p' ≤ capacity
         ∨ l = [] ∧ (pt_offset p' ≤ capacity → pt_offset p' + pt_size p' = capacity))
      ∧ laid capacity PARTITION_RESERVED p' l l'
  | _, _ => False
  end.

Lemma offsets_from_laid n i cap gap bottom prev l l' k :
  0 ≤ cap < 2 ^ 62 → 0 ≤ gap ≤ MMC_BOOT_PARTITION_RESERVED →
  0 ≤ pt_offset prev → 0 ≤ pt_size prev → pt_offset prev + pt_size prev ≤ cap →
  Forall size_ok (take n l) → offsets_from n i cap gap bottom prev l = Ret (l', k) →
  i + Z.of_nat n - 1 ≤ k →
  laid cap gap prev (take n l) (take n l') ∧ drop n l' = drop n l.
Proof.
  unfold MMC_BOOT_PARTITION_RESERVED, SZ_1M.
  revert i gap prev l l' k. induction n as [|n IH]; intros i gap prev l l' k Hc Hg Ho Hs He Hl E Hk.
  { cbn in E. by simplify_eq. }
  destruct l as [|p l]; [done|]. cbn [take] in Hl. apply Forall_cons in Hl as [Hp Hl].
  cbn [offsets_from] in E. set (o := u64 (pt_offset prev + pt_size prev + gap)) in E.
  assert (o = pt_offset prev + pt_size prev + gap) as Ho' by (apply u64_small; split; lia).
  change (pt_offset (set_offset p o)) with o in E. change (pt_size (set_offset p o)) with (pt_size p) in E.
  change MMC_BOTTOM_RSV_SIZE with 0 in E.
  destruct ((cap <? u64 (o + pt_size p)) || (pt_size p =? u64 (-1))) eqn:Hb.
  - cbn in E. assert (n = 0%nat) as -> by (destruct (bottom && _); simplify_eq; lia).
    assert (∃ s, l' = set_size (set_offset p o) s :: l ∧ s = u64 (cap - o)) as (s & -> & ->).
    { destruct (bottom && _); simplify_eq; [|by eexists]. eexists. split; [done|].
      cbn. rewrite Z.sub_0_r. unfold u64. by rewrite Z.mod_mod by done. }
    cbn. split; [|done]. split_and!; try done; [apply Z.mod_pos_bound; lia|]. right. split; [done|].
    intros. rewrite u64_small by (split; lia). lia.
  - apply orb_false_iff in Hb as [Hb1 Hb2]. apply Z.ltb_ge in Hb1. apply Z.eqb_neq in Hb2.
    destruct Hp as [Hp|]; [|done]. rewrite u64_small in Hb1 by (split; lia).
    destruct (offsets_from n (i + 1) cap PARTITION_RESERVED bottom (set_offset p o) l) as [[l2 k2]|] eqn:E2; [|done].
    cbn in E. simplify_eq.
    apply IH in E2 as [H1 H2]; [|done|unfold PARTITION_RESERVED, SZ_1M; lia|cbn; lia..|done|lia].
    cbn [take drop laid]. split; [|done]. cbn. split_and!; try done; [lia|]. left. lia.
Qed.

(** Behind [prev] everything keeps its distance. *)
Lemma laid_after cap gap prev l l' j q :
  laid cap gap prev l l' → 0 ≤ pt_size prev → PARTITION_RESERVED ≤ gap → l' !! j = Some q →
  pt_offset prev + pt_size prev + PARTITION_RESERVED ≤ pt_offset q.
Proof.
  assert (0 < PARTITION_RESERVED) by done.
  revert gap prev l l'. induction j as [|j IH]; intros gap prev [|p l] [|p' l'] Hl Hs Hg Hq; try done;
    destruct Hl as (_ & _ & Ho & Hz & _ & Hl).
  - injection Hq as ->. lia.
  - eapply IH in Hl; [|done..]. lia.
Qed.
Lemma laid_apart cap gap prev l l' i j p q :
  laid cap gap prev l l' → PARTITION_RESERVED ≤ gap → (i < j)%nat → l' !! i = Some p → l' !! j = Some q →
  pt_offset p + pt_size p + PARTITION_RESERVED ≤ pt_offset q.
Proof.
  revert gap prev l l' j. induction i as [|i IH]; intros gap prev [|x l] [|x' l'] [|j] Hl Hg Hij Hp Hq; try done; try lia;
    destruct Hl as (_ & _ & _ & Hz & _ & Hl).
  - injection Hp as ->. by eapply laid_after.
  - eapply (IH _ _ _ _ j); [exact Hl|done|lia|done|done].
Qed.
(** Each partition has its place, the last if it starts on the card. *)
Lemma laid_inside cap gap prev l l' i p :
  laid cap gap prev l l' → l' !! i = Some p → pt_offset p ≤ cap → pt_offset p + pt_size p ≤ cap.
Proof.
  revert gap prev l l'. induction i as [|i IH]; intros gap prev [|x l] [|x' l'] Hl Hp Hc; try done;
    destruct Hl as (_ & _ & _ & Hz & He & Hl).
  - injection Hp as ->. destruct He as [[_ ?]|[_ He]]; [done|]. rewrite He; lia.
  - by eapply IH.
Qed.
Lemma laid_length cap gap prev l l' : laid cap gap prev l l' → length l' = length l.
Proof.
  revert gap prev l'. induction l as [|p l IH]; intros gap prev [|p' l'] Hl; try done.
  cbn. f_equal. eapply IH. apply Hl.
Qed.
Lemma laid_size cap gap prev l l' i p p' :
  laid cap gap prev l l' → l !! i = Some p → l' !! i = Some p' → (S i < length l)%nat →
  pt_size p' = pt_size p.
Proof.
  revert gap prev l l'. induction i as [|i IH]; intros gap prev [|x l] [|x' l'] Hl Hp Hp' Hi; try done;
    destruct Hl as (_ & _ & _ & _ & He & Hl).
  - cbn in *. simplify_eq. destruct He as [[? _]|[-> _]]; [done|]. cbn in Hi. lia.
  - eapply IH; [exact Hl|done|done|cbn in Hi; lia].
Qed.

(** What [_calculate_offset] does to a table. *)
Lemma calculate_offset_laid flag m t bottom t' part l :
  0 ≤ capacity m < 2 ^ 62 → 0 < it_count t → it_partitions t = part :: l →
  0 ≤ pt_size part ≤ capacity m → Forall size_ok (take (Z.to_nat (it_count t - 1)) l) →
  _calculate_offset flag m t bottom = Ret (0, t') →
  ∃ part' l' gap, it_partitions t' = part' :: l' ∧ it_count t' = it_count t
    ∧ pt_offset part' = 0 ∧ pt_size part' = pt_size part ∧ pt_mask part' = pt_mask part
    ∧ zlen (pt_name part') = zlen (pt_name part) ∧ (bytes_ok (pt_name part) → bytes_ok (pt_name part'))
    ∧ PARTITION_RESERVED ≤ gap ≤ MMC_BOOT_PARTITION_RESERVED ∧ gap mod 512 = 0
    ∧ laid (capacity m) gap part' (take (Z.to_nat (it_count t - 1)) l) (take (Z.to_nat (it_count t - 1)) l')
    ∧ drop (Z.to_nat (it_count t - 1)) l' = drop (Z.to_nat (it_count t - 1)) l.
Proof.
  intros Hc Hn Hl Hs Hf E. unfold _calculate_offset in E. rewrite (proj2 (Z.leb_gt _ _)), Hl in E by lia.
  destruct (name_is _ _) as [boot|]; [|done]. cbn [mbind run_bind] in E.
  destruct (if boot && _ then _ else _) as [name|] eqn:En; [|done]. cbn [mbind run_bind] in E.
  set (gap := if boot then _ else _) in E. set (part' := set_name _ name) in E.
  destruct (offsets_from _ _ _ _ _ _ _) as [[l' k]|] eqn:Eo; [|done]. cbn in E.
  destruct (Z.ltb_spec k (it_count t - 1)); [done|]. simplify_eq.
  assert (PARTITION_RESERVED ≤ gap ≤ MMC_BOOT_PARTITION_RESERVED).
  { unfold gap, PARTITION_RESERVED, MMC_BOOT_PARTITION_RESERVED, SZ_1M. destruct boot; lia. }
  assert (0 < PARTITION_RESERVED) by done. assert (gap mod 512 = 0) by (unfold gap; by destruct boot).
  apply offsets_from_laid in Eo as [Hla Hrest]; [|done|lia|cbn; lia|cbn; lia|cbn; lia|done|lia].
  assert (zlen name = zlen (pt_name part) ∧ (bytes_ok (pt_name part) → bytes_ok name)) as [Hlen Hok].
  { destruct (boot && _); [|by injection En as <-]. pose proof (wr_length _ _ _ _ En). apply wr_Ret in En as (_ & _ & ->).
    split; [done|]. intros Hb. apply Forall_app. split; [by apply Forall_take|]. apply Forall_app.
    split; [by repeat constructor|by apply Forall_drop]. }
  by exists part', l', gap.
Qed.

(** The offsets and sizes of the partitions in use. *)
Definition used (t : _iptbl) : list partitions := take (Z.to_nat (it_count t)) (it_partitions t).

(** C17: a table that [_calculate_offset] accepts is laid out from the start of
    the card on, in the order of its entries and with at least eight megabytes
    between any two of them; all but the last have the size they asked for, and
    each that starts on the card ends on it. *)
Theorem table_laid_out flag m t bottom t' :
  0 ≤ capacity m < 2 ^ 62 → 0 < it_count t ≤ zlen (it_partitions t) →
  Forall size_ok (used t) → (∀ p, head (it_partitions t) = Some p → 0 ≤ pt_size p ≤ capacity m) →
  _calculate_offset flag m t bottom = Ret (0, t') →
  it_count t' = it_count t ∧ length (used t') = length (used t)
  ∧ (∀ p, used t' !! 0%nat = Some p → pt_offset p = 0)
  ∧ (∀ i j p q, (i < j)%nat → used t' !! i = Some p → used t' !! j = Some q →
      pt_offset p + pt_size p + PARTITION_RESERVED ≤ pt_offset q)
  ∧ (∀ i p, used t' !! i = Some p → pt_offset p ≤ capacity m → pt_offset p + pt_size p ≤ capacity m)
  ∧ (∀ i p p', used t !! i = Some p → used t' !! i = Some p' → (S i < length (used t))%nat →
      pt_size p' = pt_size p).
Proof.
  intros Hc [Hn Hz] Hf Hh E. destruct (it_partitions t) as [|part l] eqn:Hl; [by rewrite zlen_nil in Hz; lia|].
  specialize (Hh part eq_refl). unfold used in *. rewrite Hl in *.
  assert (Z.to_nat (it_count t) = S (Z.to_nat (it_count t - 1))) as Hk by lia.
  rewrite Hk in *. cbn [take] in *. apply Forall_cons in Hf as [_ Hf].
  destruct (calculate_offset_laid _ _ _ _ _ _ _ Hc Hn Hl Hh Hf E)
    as (part' & l' & gap & Ht & Hcnt & Ho & Hs & _ & _ & _ & Hg & _ & Hlaid & _).
  rewrite Hcnt, Ht, Hk. cbn [take]. pose proof (laid_length _ _ _ _ _ Hlaid) as Hlen.
  split; [done|]. split; [by cbn; f_equal|]. split; [intros p [= <-]; done|]. split_and!.
  - intros [|i] [|j] p q Hij Hp Hq; [lia| |lia|].
    + injection Hp as <-. eapply laid_after; [exact Hlaid|lia|lia|exact Hq].
    + eapply (laid_apart _ _ _ _ _ i j); [exact Hlaid|lia|lia|exact Hp|exact Hq].
  - intros [|i] p Hp Hle; [injection Hp as <-; lia|]. by eapply laid_inside.
  - intros [|i] p p' Hp Hp' Hi; [by injection Hp as <-; injection Hp' as <-|].
    eapply laid_size; [exact Hlaid|exact Hp|exact Hp'|cbn in Hi; lia].
Qed.

(** ** The table in the reserved area *)

(** Fields within their widths. *)
Definition part_wf (p : partitions) : Prop :=
  zlen (pt_name p) = 16 ∧ bytes_ok (pt_name p) ∧ is_u64 (pt_size p) ∧ is_u64 (pt_offset p) ∧ is_u32 (pt_mask p).
Definition table_wf (t : _iptbl) : Prop :=
  zlen (it_partitions t) = MAX_PART_COUNT ∧ 0 ≤ it_count t ≤ MAX_PART_COUNT ∧ Forall part_wf (it_partitions t).

Lemma partition_bytes_length p : zlen (pt_name p) = 16 → zlen (partition_bytes p) = sizeof_partitions.
Proof.
  intros Hn. unfold partition_bytes. autorewrite with bytes. rewrite Hn. unfold zlen.
  rewrite !le_encode_length. done.
Qed.
Lemma slice_at {A} (a b c : list A) off n : off = zlen a → n = zlen b → slice (a ++ b ++ c) off n = b.
Proof.
  intros -> ->. rewrite slice_app_r by apply zlen_nonneg. by apply slice_app_take.
Qed.
Lemma zlen_encode n x : zlen (le_encode n x) = Z.of_nat n.
Proof. unfold zlen. by rewrite le_encode_length. Qed.

Lemma partition_roundtrip p : part_wf p → partition_of (partition_bytes p) = p.
Proof.
  intros (Hn & Hb & Hs & Ho & Hm). destruct p as [name size off mask]. cbn in Hn, Hb, Hs, Ho, Hm.
  unfold partition_of, partition_bytes. cbn [pt_name pt_size pt_offset pt_mask].
  rewrite slice_app_take by done. f_equal.
  - rewrite slice_at by (rewrite ?zlen_encode; done). rewrite le_decode_encode. by apply Z.mod_small.
  - rewrite (app_assoc name). rewrite slice_at by (rewrite ?zlen_app, ?zlen_encode, ?Hn; done).
    rewrite le_decode_encode. by apply Z.mod_small.
  - rewrite (app_assoc name), (app_assoc (name ++ _)). rewrite slice_at by (rewrite ?zlen_app, ?zlen_encode, ?Hn; done).
    rewrite le_decode_encode. by apply Z.mod_small.
Qed.

Lemma table_bytes_length l : Forall part_wf l → zlen (table_bytes l) = sizeof_partitions * zlen l.
Proof.
  induction 1 as [|p l Hp _ IH]; [done|]. change (table_bytes (p :: l)) with (partition_bytes p ++ table_bytes l).
  rewrite zlen_app, IH, zlen_cons, partition_bytes_length by apply Hp. lia.
Qed.
Lemma table_bytes_app l k : table_bytes (l ++ k) = table_bytes l ++ table_bytes k.
Proof.
  induction l as [|p l IH]; [done|]. cbn [app]. change (table_bytes (p :: l)) with (partition_bytes p ++ table_bytes l).
  rewrite <- app_assoc, <- IH. done.
Qed.

Lemma table_bytes_take l n : Forall part_wf l → (n ≤ length l)%nat →
  slice (table_bytes l) 0 (sizeof_partitions * Z.of_nat n) = table_bytes (take n l).
Proof.
  intros Hl Hn. rewrite <- (take_drop n l) at 1. rewrite table_bytes_app.
  apply slice_app_take. rewrite table_bytes_length by by apply Forall_take.
  unfold zlen, sizeof_partitions. rewrite length_take. lia.
Qed.

(** Reading the entries out of the bytes of a table. *)
Lemma table_entries l rest : Forall part_wf l →
  (fun i => partition_of (slice (table_bytes l ++ rest) (Z.of_nat i * sizeof_partitions) sizeof_partitions))
    <$> seq 0 (length l) = l.
Proof.
  intros Hl. apply list_eq. intros i. rewrite list_lookup_fmap.
  destruct (l !! i) as [p|] eqn:Hi.
  2:{ apply lookup_ge_None in Hi. by rewrite lookup_seq_ge by done. }
  pose proof (lookup_lt_Some _ _ _ Hi). rewrite lookup_seq_lt by done. cbn [fmap option_fmap option_map]. f_equal.
  rewrite Nat.add_0_l. rewrite <- (take_drop_middle _ _ _ Hi) at 1. rewrite table_bytes_app.
  assert (table_bytes (p :: drop (S i) l) = partition_bytes p ++ table_bytes (drop (S i) l)) as -> by done.
  assert (part_wf p) as Hp by by eapply Forall_lookup_1.
  rewrite <- !app_assoc. rewrite slice_at; [by apply partition_roundtrip| |by rewrite partition_bytes_length by apply Hp].
  rewrite table_bytes_length by by apply Forall_take. unfold zlen, sizeof_partitions. rewrite length_take. lia.
Qed.

(** The first checksum looks at the first entry only. *)
Lemma add_words_take n p sum : add_words n p sum = add_words n (take (4 * n) p) sum.
Proof.
  revert p sum. induction n as [|n IH]; intros p sum; [done|]. cbn [add_words].
  rewrite (IH (drop 4 p)), (IH (drop 4 (take _ p))). rewrite skipn_firstn_comm, take_take, take_take.
  replace (4 * S n - 4)%nat with (4 * n)%nat by lia. rewrite Nat.min_id.
  by rewrite Nat.min_l by lia.
Qed.
Lemma check_v1_first part part' count :
  (0 < count → take 40 part = take 40 part') → _calc_iptbl_check_v1 part count = _calc_iptbl_check_v1 part' count.
Proof.
  intros Hp. unfold _calc_iptbl_check_v1. f_equal. destruct (decide (0 < count)) as [Hc|Hc].
  - change (Z.to_nat (sizeof_partitions / 4)) with 10%nat.
    induction (Z.to_nat count) as [|n IH]; [done|]. rewrite !Nat.iter_succ, IH.
    rewrite (add_words_take _ part), (add_words_take _ part'). by rewrite (Hp Hc : take (4 * 10) part = _).
  - by replace (Z.to_nat count) with 0%nat by lia.
Qed.
Lemma s32_stored x : s32 (le_decode (le_encode 4 (s32 x))) = s32 x.
Proof.
  rewrite le_decode_encode. change (256 ^ Z.of_nat 4) with 0x100000000.
  unfold s32 at 1. fold (u32 (s32 x)). assert (∀ y, u32 (u32 y) = u32 y) as Huu.
  { intros y. unfold u32. by rewrite Z.mod_mod. }
  rewrite Huu. assert (u32 (s32 x) = u32 x) as ->; [|done].
  unfold s32. cbv zeta. destruct (_ <? _); [apply Huu|]. unfold u32. rewrite Zminus_mod, Z.mod_mod, Z_mod_same_full, Z.sub_0_r by done.
  by rewrite Z.mod_mod.
Qed.

(** The blocks of a table. *)
Definition ptbl_bytes (count checksum : Z) (part : bytes) : bytes :=
  (MMC_PARTITIONS_MAGIC ++ [0]) ++ (MMC_MPT_VERSION ++ [0] ++ replicate 3 0) ++ le_encode 4 count
  ++ le_encode 4 checksum ++ part ++ replicate (Z.to_nat (1512 - zlen part)) 0.
Lemma ptbl_bytes_length count checksum part : zlen part ≤ 1280 →
  zlen (ptbl_bytes count checksum part) = ptbl_blocks_size.
Proof.
  intros Hp. pose proof (zlen_nonneg part). unfold ptbl_bytes. rewrite !zlen_app, !zlen_encode, !zlen_replicate.
  change (zlen MMC_PARTITIONS_MAGIC) with 3. change (zlen MMC_MPT_VERSION) with 8. 
  change (zlen [0]) with 1. change ptbl_blocks_size with 1536. lia.
Qed.

Lemma zeros_split n m : (m ≤ n)%nat → replicate n 0 = replicate m 0 ++ replicate (n - m) 0.
Proof. intros Hm. rewrite <- replicate_add. f_equal. lia. Qed.
Lemma wr_at (a b c src l : bytes) off : l = a ++ b ++ c → off = zlen a → zlen b = zlen src →
  wr l off src = Ret (a ++ src ++ c).
Proof. intros -> -> Hb. by apply wr_app. Qed.

Lemma used_length t : table_wf t → zlen (used t) = it_count t.
Proof.
  intros (Hl & Hc & _). unfold used, zlen in *. rewrite length_take. lia.
Qed.
Lemma used_wf t : table_wf t → Forall part_wf (used t).
Proof. intros (_ & _ & Hw). by apply Forall_take. Qed.

Lemma ptbl_image_eq t : table_wf t →
  ptbl_image t = Ret (ptbl_bytes (it_count t) (_calc_iptbl_check_v1 (table_bytes (it_partitions t)) (it_count t))
                        (table_bytes (used t))).
Proof.
  intros Ht. pose proof (used_length t Ht) as Hu. pose proof (used_wf t Ht) as Huw.
  destruct Ht as (Hl & Hc & Hw). unfold MAX_PART_COUNT in *.
  pose proof (table_bytes_length _ Hw) as Htb. pose proof (table_bytes_length _ Huw) as Hub. rewrite Hu in Hub. rewrite Hl in Htb.
  unfold sizeof_partitions in Htb, Hub.
  set (c := it_count t) in *. set (P := table_bytes (used t)) in *.
  unfold ptbl_image. change (Z.to_nat ptbl_blocks_size) with (4 + (9 + 1523))%nat. rewrite !replicate_add.
  rewrite (wr_at (replicate 4 0) (replicate 9 0) (replicate 1523 0)) by done. cbn [mbind run_bind].
  rewrite (wr_at [] (replicate 4 0) ((MMC_MPT_VERSION ++ [0]) ++ replicate 1523 0)) by done. cbn [mbind run_bind].
  change (replicate 1523 0) with (replicate (3 + (4 + (4 + 1512))) 0). rewrite !replicate_add.
  rewrite (wr_at ((MMC_PARTITIONS_MAGIC ++ [0]) ++ (MMC_MPT_VERSION ++ [0]) ++ replicate 3 0) (replicate 4 0)
    (replicate 4 0 ++ replicate 1512 0)); [|by rewrite <- ?app_assoc|done|by rewrite zlen_encode].
  cbn [mbind run_bind]. rewrite rd_ok by (unfold sizeof_partitions; fold c; lia). cbn [mbind run_bind].
  fold c. rewrite <- (Z2Nat.id c) at 2 by lia. rewrite table_bytes_take by (try done; unfold zlen in *; lia).
  change (table_bytes (take (Z.to_nat c) (it_partitions t))) with P.
  rewrite (wr_at ((MMC_PARTITIONS_MAGIC ++ [0]) ++ (MMC_MPT_VERSION ++ [0]) ++ replicate 3 0 ++ le_encode 4 c ++ replicate 4 0)
    (replicate (Z.to_nat (zlen P)) 0) (replicate (1512 - Z.to_nat (zlen P)) 0)).
  2:{ rewrite <- !app_assoc. do 7 f_equal. apply zeros_split. lia. }
  2:{ rewrite !zlen_app, zlen_encode. done. }
  2:{ rewrite zlen_replicate. pose proof (zlen_nonneg P). lia. }
  cbn [mbind run_bind]. set (k := _calc_iptbl_check_v1 _ _). set (z := replicate (1512 - _) 0).
  match goal with |- context [slice ?b 4 12] => assert (_get_version (slice b 4 12) = Ret 1) as -> end.
  { clearbody P. by vm_compute. }
  cbn [mbind run_bind]. change (_calc_iptbl_check _ _ 1) with k.
  rewrite (wr_at ((MMC_PARTITIONS_MAGIC ++ [0]) ++ (MMC_MPT_VERSION ++ [0]) ++ replicate 3 0 ++ le_encode 4 c)
    (replicate 4 0) (P ++ z)).
  - unfold ptbl_bytes. rewrite <- !app_assoc. by replace (Z.to_nat (1512 - zlen P)) with (1512 - Z.to_nat (zlen P))%nat by lia.
  - by rewrite <- !app_assoc.
  - by rewrite !zlen_app, zlen_encode.
  - by rewrite zlen_encode.
Qed.

(** What is stored is what is read. *)
Lemma read_ptbl_bytes t : table_wf t →
  read_ptbl (ptbl_bytes (it_count t) (_calc_iptbl_check_v1 (table_bytes (it_partitions t)) (it_count t))
               (table_bytes (used t))) = Ret (inr (used t)).
Proof.
  intros Ht. pose proof (used_length t Ht) as Hu. pose proof (used_wf t Ht) as Huw.
  destruct Ht as (Hl & Hc & Hw). unfold MAX_PART_COUNT in *.
  pose proof (table_bytes_length _ Huw) as Hub. rewrite Hu in Hub. unfold sizeof_partitions in Hub.
  set (k := _calc_iptbl_check_v1 _ _). set (P := table_bytes (used t)) in *.
  set (b := ptbl_bytes _ _ _). unfold read_ptbl.
  assert (slice b 0 4 = MMC_PARTITIONS_MAGIC ++ [0]) as -> by by apply slice_app_take.
  assert (slice b 4 12 = MMC_MPT_VERSION ++ [0] ++ replicate 3 0) as -> by by apply slice_at.
  assert (slice b 16 4 = le_encode 4 (it_count t)) as ->.
  { unfold b, ptbl_bytes. rewrite (app_assoc (MMC_PARTITIONS_MAGIC ++ _)). by apply slice_at. }
  assert (slice b 20 4 = le_encode 4 k) as ->.
  { unfold b, ptbl_bytes. rewrite (app_assoc (MMC_PARTITIONS_MAGIC ++ _)), (app_assoc (_ ++ MMC_MPT_VERSION ++ _)).
    apply slice_at; [rewrite !zlen_app|]; by rewrite ?zlen_encode. }
  assert (slice b 24 (MAX_MMC_PART_NUM * sizeof_partitions) = P ++ replicate (Z.to_nat (1280 - zlen P)) 0) as ->.
  { unfold b, ptbl_bytes. rewrite (zeros_split (Z.to_nat (1512 - zlen P)) (Z.to_nat (1280 - zlen P))) by lia.
    rewrite (app_assoc P), (app_assoc (MMC_PARTITIONS_MAGIC ++ _)), (app_assoc (_ ++ MMC_MPT_VERSION ++ _)),
      (app_assoc (_ ++ le_encode 4 (it_count t))).
    apply slice_at; [rewrite !zlen_app; by rewrite ?zlen_encode|].
    rewrite zlen_app, zlen_replicate. change (MAX_MMC_PART_NUM * sizeof_partitions) with 1280. lia. }
  assert (c_streq (MMC_PARTITIONS_MAGIC ++ [0]) MMC_PARTITIONS_MAGIC = Ret true) as -> by done.
  assert (_get_version (MMC_MPT_VERSION ++ [0] ++ replicate 3 0) = Ret 1) as -> by done.
  cbn [mbind run_bind negb Z.ltb Z.compare]. rewrite le_decode_encode, Z.mod_small by (cbn; lia).
  unfold MAX_MMC_PART_NUM. rewrite (proj2 (Z.ltb_ge _ _)) by lia. cbn [Z.compare].
  change (_calc_iptbl_check ?x ?c 1) with (_calc_iptbl_check_v1 x c).
  rewrite (check_v1_first _ (table_bytes (it_partitions t))).
  2:{ intros Hpos. rewrite <- (take_drop (Z.to_nat (it_count t)) (it_partitions t)), table_bytes_app.
      fold (used t). fold P. unfold zlen in Hub. by rewrite !take_app_le by lia. }
  fold k. unfold k at 2. unfold _calc_iptbl_check_v1. rewrite s32_stored.
  fold (_calc_iptbl_check_v1 (table_bytes (it_partitions t)) (it_count t)). fold k. rewrite Z.eqb_refl. cbn [negb].
  do 2 f_equal. replace (Z.to_nat (it_count t)) with (length (used t)) by (unfold zlen in Hu; lia).
  by apply table_entries.
Qed.

(** ** An example *)

(** The partitions of a device tree. *)
Definition demo_dtb : _iptbl :=
  Iptbl [PARTITION_ELEMENT (str "logo") (32 * SZ_1M) 1; PARTITION_ELEMENT (str "misc") (8 * SZ_1M) 1;
         PARTITION_ELEMENT (str "boot") (64 * SZ_1M) 1; PARTITION_ELEMENT (str "data") (u64 (-1)) 4] 4.
(** Composed with those of the board. *)
Definition demo_composed : _iptbl :=
  match compose_ept demo_dtb (Iptbl emmc_partition_table 2) zero_table with Ret t => t | Crash _ => zero_table end.
(** The place of the partitions, in megabytes. *)
Definition places (t : _iptbl) : list (Z * Z) :=
  (fun p => (pt_offset p / SZ_1M, pt_size p / SZ_1M)) <$> used t.

Lemma table_laid_out_witness :
  ∃ t', _calculate_offset EMMC_BOOT_FLAG demo_emmc demo_composed true = Ret (0, t')
    ∧ places t' = [(0, 4); (36, 64); (108, 32); (148, 8); (164, 64); (236, 3860)]
    ∧ (∀ p q, used t' !! 2%nat = Some p → used t' !! 5%nat = Some q →
        pt_offset p + pt_size p + PARTITION_RESERVED ≤ pt_offset q).
Proof.
  assert (match _calculate_offset EMMC_BOOT_FLAG demo_emmc demo_composed true with
          | Ret (r, t) => Some (r, places t) | Crash _ => None end
          = Some (0, [(0, 4); (36, 64); (108, 32); (148, 8); (164, 64); (236, 3860)])) as P by by vm_compute.
  destruct (_calculate_offset EMMC_BOOT_FLAG demo_emmc demo_composed true) as [[r t']|] eqn:E; [|done].
  injection P as -> P. exists t'. split; [done|]. split; [exact P|]. intros p q Hp Hq.
  refine (proj1 (proj2 (proj2 (proj2 (table_laid_out EMMC_BOOT_FLAG demo_emmc demo_composed true t' _ _ _ _ E)))) 2%nat 5%nat p q _ Hp Hq).
  - by vm_compute.
  - by vm_compute.
  - apply (bool_decide_unpack _). by vm_compute.
  - intros x [= <-]. by vm_compute.
  - lia.
Defined.
