(* ===== verification/PartTableCard.v ===== *)
(** * The partition table on the card

    What is stored in the reserved area and in the sectors of MBR and EBR is
    what is read at the next start: the tables of [PartTable] on a card that
    keeps what is written. *)

From S2P Require Import Prelude MmcBlock Sparse SparseSpec PartTable PartTableSpec.

(** ** Sectors *)

#[export] Instance partitions_inhabited : Inhabited partitions := populate no_partition.

Definition dos_wf (e : dos_partition) : Prop := zlen (start4 e) = 4 ∧ zlen (size4 e) = 4.

Lemma dos_bytes_length e : dos_wf e → zlen (dos_bytes e) = 16.
Proof. intros [Hs Hz]. unfold dos_bytes. rewrite !zlen_app, Hs, Hz. done. Qed.
Lemma dos_roundtrip e : dos_wf e → dos_of (dos_bytes e) = e.
Proof.
  intros [Hs Hz]. destruct e as [b s st sz]. cbn in Hs, Hz. unfold dos_of, dos_bytes.
  cbn [boot_ind sys_ind start4 size4]. f_equal.
  - by apply slice_at.
  - rewrite app_assoc, slice_app_skip by (rewrite zlen_app, Hs; done). rewrite zlen_app, Hs.
    by apply slice_full.
Qed.

Lemma dos_entry_of (boot : bytes) e0 e1 e2 e3 i e : zlen boot = 446 →
  dos_wf e0 → dos_wf e1 → dos_wf e2 → dos_wf e3 → [e0; e1; e2; e3] !! i = Some e →
  dos_entry (dos_sector boot [e0; e1; e2; e3]) (Z.of_nat i) = e.
Proof.
  intros Hb H0 H1 H2 H3 Hi. unfold dos_entry, dos_sector. cbn [fmap list_fmap mjoin list_join].
  pose proof (dos_bytes_length _ H0) as L0. pose proof (dos_bytes_length _ H1) as L1.
  pose proof (dos_bytes_length _ H2) as L2. pose proof (dos_bytes_length _ H3) as L3.
  rewrite <- (dos_roundtrip e) by by repeat (destruct i as [|i]; [by injection Hi as <-|]).
  f_equal. unfold DOS_PART_TBL_OFFSET. rewrite app_nil_r, <- !app_assoc.
  destruct i as [|[|[|[|i]]]]; try done; injection Hi as <-.
  - apply slice_at; lia.
  - rewrite (app_assoc boot). apply slice_at; [rewrite zlen_app|]; lia.
  - rewrite (app_assoc boot), (app_assoc (boot ++ _)). apply slice_at; [rewrite !zlen_app|]; lia.
  - rewrite (app_assoc boot), (app_assoc (boot ++ _)), (app_assoc (_ ++ dos_bytes e1)).
    apply slice_at; [rewrite !zlen_app|]; lia.
Qed.
Lemma dos_sector_length (boot : bytes) e0 e1 e2 e3 : zlen boot = 446 →
  dos_wf e0 → dos_wf e1 → dos_wf e2 → dos_wf e3 → zlen (dos_sector boot [e0; e1; e2; e3]) = 512.
Proof.
  intros Hb H0 H1 H2 H3. unfold dos_sector. cbn [fmap list_fmap mjoin list_join].
  rewrite app_nil_r, !zlen_app, Hb, !dos_bytes_length by done. done.
Qed.
Lemma dos_sector_type (boot : bytes) e0 e1 e2 e3 : zlen boot = 446 →
  dos_wf e0 → dos_wf e1 → dos_wf e2 → dos_wf e3 → boot_ind e0 = 0 →
  test_block_type (dos_sector boot [e0; e1; e2; e3]) = DOS_MBR.
Proof.
  intros Hb H0 H1 H2 H3 Hz. unfold test_block_type.
  pose proof (dos_sector_length boot e0 e1 e2 e3 Hb H0 H1 H2 H3) as Hl.
  assert (∀ k, dos_sector boot [e0; e1; e2; e3] !!! (510 + k)%nat = [0x55; 0xaa] !!! k) as Hm.
  { intros k. unfold dos_sector in *. rewrite app_assoc in *. rewrite zlen_app in Hl.
    change (zlen [85; 170]) with 2 in Hl.
    replace (510 + k)%nat with (length (boot ++ mjoin (dos_bytes <$> [e0; e1; e2; e3])) + k)%nat
      by (unfold zlen in Hl; lia). apply lookup_total_app_add. }
  change (Z.to_nat DOS_PART_MAGIC_OFFSET) with (510 + 0)%nat.
  change (Z.to_nat (DOS_PART_MAGIC_OFFSET + 1)) with (510 + 1)%nat. rewrite !Hm. cbn -[test_slots].
  cbn [test_slots]. assert (boot_ind (dos_entry (dos_sector boot [e0; e1; e2; e3]) 0) = 0) as ->; [|done].
  change 0 with (Z.of_nat 0) at 1. by rewrite (dos_entry_of boot e0 e1 e2 e3 0 e0).
Qed.

Lemma le32_encode x : 0 ≤ x < 2 ^ 31 → le32_to_int (le_encode 4 x) = x.
Proof.
  intros Hx. unfold le32_to_int. rewrite le_decode_encode, Z.mod_small by (change (256 ^ Z.of_nat 4) with (2 ^ 32); lia).
  apply s32_small. lia.
Qed.

(** ** Tables that sectors can hold *)

(** Whole blocks, in order and with their distance, below a terabyte. *)
Record sectors_ok (t : _iptbl) : Prop := {
  so_length : zlen (it_partitions t) = 32;
  so_count : 4 ≤ it_count t < 32;
  so_size i p : it_partitions t !! i = Some p → Z.of_nat i < it_count t →
    0 ≤ pt_size p < 2 ^ 40 ∧ pt_size p mod 512 = 0 ∧ 0 ≤ pt_offset p < 2 ^ 40 ∧ pt_offset p mod 512 = 0;
  so_apart i j p q : (i < j)%nat → Z.of_nat j < it_count t →
    it_partitions t !! i = Some p → it_partitions t !! j = Some q →
    pt_offset p + pt_size p + PARTITION_RESERVED ≤ pt_offset q;
}.

Section Sectors.
Context (t : _iptbl) (ok : sectors_ok t).

Notation part i := (it_partitions t !!! i).

Lemma part_lookup i : Z.of_nat i < 32 → it_partitions t !! i = Some (part i).
Proof.
  intros Hi. apply list_lookup_lookup_total_lt. pose proof (so_length t ok). unfold zlen in *. lia.
Qed.
Lemma part_at i : 0 ≤ i < 32 → at_ (it_partitions t) i = Ret (part (Z.to_nat i)).
Proof. intros Hi. apply at_Ret. split; [lia|]. apply part_lookup. lia. Qed.

(** A place in blocks. *)
Lemma part_blocks i : Z.of_nat i < it_count t →
  ∃ o s, pt_offset (part i) = o * 512 ∧ pt_size (part i) = s * 512 ∧ 0 ≤ o < 2 ^ 31 ∧ 0 ≤ s < 2 ^ 31.
Proof.
  intros Hi. pose proof (so_count t ok). destruct (so_size t ok i (part i) (part_lookup i ltac:(lia)) Hi) as (? & Hs & ? & Ho).
  apply Z.mod_divide in Hs as [s Hs]; [|lia]. apply Z.mod_divide in Ho as [o Ho]; [|lia].
  exists o, s. lia.
Qed.
Lemma part_apart i j : (i < j)%nat → Z.of_nat j < it_count t →
  pt_offset (part i) + pt_size (part i) + PARTITION_RESERVED ≤ pt_offset (part j).
Proof.
  intros Hij Hj. pose proof (so_count t ok). apply (so_apart t ok i j); [done|done|apply part_lookup; lia..].
Qed.

(** The sector that describes the [i]-th partition. *)
Definition blk (i : nat) : Z := (pt_offset (part i) - PARTITION_RESERVED) / 512.

Lemma blk_spec i : (1 ≤ i)%nat → Z.of_nat i < it_count t →
  pt_offset (part i) = (blk i + 16384) * 512 ∧ 0 ≤ blk i < 2 ^ 31.
Proof.
  intros H1 Hi. destruct (part_blocks i Hi) as (o & s & Ho & Hs & Hor & Hsr).
  pose proof (part_apart 0 i ltac:(lia) Hi) as Ha. destruct (part_blocks 0) as (o0 & s0 & Ho0 & Hs0 & ? & ?); [pose proof (so_count t ok); lia|].
  unfold blk, PARTITION_RESERVED, SZ_1M in *. rewrite Ho.
  replace (o * 512 - 8 * 0x100000) with ((o - 16384) * 512) by lia. rewrite Z.div_mul by done. lia.
Qed.
Lemma blk_mono i j : (1 ≤ i < j)%nat → Z.of_nat j < it_count t → blk i < blk j.
Proof.
  intros Hij Hj. destruct (blk_spec i) as [Hi _]; [lia..|]. destruct (blk_spec j) as [Hj' _]; [lia..|].
  pose proof (part_apart i j ltac:(lia) Hj) as Ha. destruct (part_blocks i) as (o & s & _ & Hs & _ & ?); [lia|].
  unfold PARTITION_RESERVED, SZ_1M in Ha. lia.
Qed.

(** The entries and sectors of the table. *)
Definition primary (i : nat) : dos_partition :=
  mkDos 0 0x83 (le_encode 4 (pt_offset (part i) / 512)) (le_encode 4 (pt_size (part i) / 512)).
Definition externed (size : Z) : dos_partition := mkDos 0 0x05 (le_encode 4 (blk 3)) (le_encode 4 size).
Definition mbr (size : Z) : bytes :=
  dos_sector (replicate 446 0) [primary 0; primary 1; primary 2; externed size].
Definition logical (i : nat) : dos_partition :=
  mkDos 0 0x83 (le_encode 4 16384) (le_encode 4 (pt_size (part i) / 512)).
Definition next (i : nat) : dos_partition :=
  if it_count t <? Z.of_nat i + 2 then no_entry
  else mkDos 0 0x05 (le_encode 4 (blk (S i) - blk 3))
         (le_encode 4 (Z.shiftr (u64 (pt_size (part (S i)) + PARTITION_RESERVED)) 9)).
Definition ebr (i : nat) : bytes :=
  dos_sector (replicate 82 0 ++ str "FAT32" ++ replicate 359 0) [logical i; next i; no_entry; no_entry].

Lemma primary_wf i : dos_wf (primary i).
Proof. split; apply zlen_encode. Qed.
Lemma externed_wf x : dos_wf (externed x).
Proof. split; apply zlen_encode. Qed.
Lemma logical_wf i : dos_wf (logical i).
Proof. split; apply zlen_encode. Qed.
Lemma no_entry_wf : dos_wf no_entry.
Proof. done. Qed.
Lemma next_wf i : dos_wf (next i).
Proof. unfold next. destruct (_ <? _); [done|]. split; apply zlen_encode. Qed.
Hint Resolve primary_wf externed_wf logical_wf no_entry_wf next_wf : core.

Lemma shiftr_blocks x : Z.shiftr x 9 = x / 512.
Proof. by rewrite Z.shiftr_div_pow2. Qed.

Lemma mbr_eq : ∃ size, _construct_mbr_or_ebr t 0 0 = Ret (mbr size).
Proof.
  pose proof (so_count t ok) as Hc.
  assert (∀ n i x, 0 ≤ i → i + Z.of_nat n ≤ 32 → ∃ y, externed_size_from n i t x = Ret y) as Hext.
  { intros n. induction n as [|n IH]; intros i x Hi Hn; [by exists x|]. cbn [externed_size_from].
    rewrite part_at by lia. cbn [mbind run_bind]. apply IH; lia. }
  destruct (Hext (Z.to_nat (it_count t - 3)) 3 0) as (y & Ey); [lia..|]. exists y.
  unfold _construct_mbr_or_ebr. cbn [DOS_MBR Z.eqb]. unfold _construct_mbr_entry. cbn [Z.eqb Pos.eqb].
  rewrite !part_at by lia. cbn [mbind run_bind]. rewrite Ey. cbn [mbind run_bind].
  destruct (blk_spec 3) as [H3 Hb3]; [lia..|]. unfold mbr, primary, externed. rewrite !shiftr_blocks.
  do 6 f_equal. unfold blk. rewrite u64_small; [done|]. change (Z.to_nat 3) with 3%nat. rewrite H3.
  split; unfold PARTITION_RESERVED, SZ_1M; lia.
Qed.

Lemma ebr_eq i : (3 ≤ i)%nat → Z.of_nat i < it_count t → _construct_mbr_or_ebr t (Z.of_nat i) 2 = Ret (ebr i).
Proof.
  intros H3 Hi. pose proof (so_count t ok) as Hc. unfold _construct_mbr_or_ebr. cbn [DOS_MBR Z.eqb].
  unfold _construct_ebr_1st_entry, _construct_ebr_2nd_entry. rewrite (part_at (Z.of_nat i)) by lia. rewrite Nat2Z.id.
  cbn [mbind run_bind]. unfold ebr, next, logical.
  destruct (Z.ltb_spec (it_count t) (Z.of_nat i + 2)) as [Hl|Hl]; [done|].
  rewrite !part_at by lia. cbn [mbind run_bind]. replace (Z.to_nat (Z.of_nat i + 1)) with (S i) by lia.
  change (Z.to_nat 3) with 3%nat. do 6 f_equal. rewrite shiftr_blocks.
  destruct (blk_spec (S i)) as [HS HbS]; [lia..|]. destruct (blk_spec 3) as [HH3 Hb3]; [lia..|].
  pose proof (blk_mono 3 (S i) ltac:(lia) ltac:(lia)). rewrite HS, HH3.
  rewrite u64_small by (split; unfold PARTITION_RESERVED, SZ_1M; lia).
  replace (_ - _ - _) with ((blk (S i) - blk 3) * 512) by lia. by rewrite Z.div_mul.
Qed.

Lemma mbr_length x : zlen (mbr x) = 512.
Proof. by apply dos_sector_length. Qed.
Lemma ebr_length i : zlen (ebr i) = 512.
Proof. by apply dos_sector_length. Qed.
Lemma mbr_type x : test_block_type (mbr x) = DOS_MBR.
Proof. by apply dos_sector_type. Qed.
Lemma ebr_type i : test_block_type (ebr i) = DOS_MBR.
Proof. by apply dos_sector_type. Qed.

(** The first [n] entries of [l] are those of the table, up to names and
    masks. *)
Definition placed (l : list partitions) (n : nat) : Prop :=
  length l = 32%nat
  ∧ ∀ j p, (j < n)%nat → l !! j = Some p → pt_size p = pt_size (part j) ∧ pt_offset p = pt_offset (part j).
Lemma placed_insert l n p : placed l n → (n < 32)%nat →
  pt_size p = pt_size (part n) → pt_offset p = pt_offset (part n) → placed (<[n := p]> l) (S n).
Proof.
  intros [Hl Hp] Hn Hs Ho. split; [by rewrite length_insert|]. intros j q Hj Hq.
  apply list_lookup_insert_Some in Hq as [(-> & -> & _)|[Hne Hq]]; [done|]. apply Hp; [lia|done].
Qed.

(** A partition entry that places the [n]-th partition. *)
Lemma take_partition flag ro e c n : placed (ch_partitions c) n → ch_part_num c = Z.of_nat n → (n < 32)%nat →
  boot_ind e = 0 → sys_ind e = 0x83 →
  u64 (Z.shiftl (u64 (le32_to_int (size4 e))) 9) = pt_size (part n) →
  u64 (Z.shiftl (u64 (le32_to_int (start4 e) + ro)) 9) = pt_offset (part n) →
  ∃ l, placed l (S n) ∧ take_entry flag ro e c
    = Ret (mkChain l (Z.of_nat (S n)) (if flag then ch_primary_num c + 1 else ch_primary_num c)
             (ch_logic_start c) (ch_externed_start c)).
Proof.
  intros Hp Hn Hlt Hb Hs Hsz Ho. unfold take_entry. rewrite Hb, Hs, Hsz, Ho, Hn. cbn [Z.eqb Pos.eqb orb andb].
  assert (n < length (ch_partitions c))%nat as Hlen by (destruct Hp; lia).
  destruct (lookup_lt_is_Some_2 _ _ Hlen) as [old Hold]. rewrite (at_ok _ _ _ Hold). cbn [mbind run_bind].
  rewrite put_ok by done. cbn [mbind run_bind].
  eexists. split; [|by rewrite Nat2Z.inj_succ]. by apply placed_insert.
Qed.

Lemma shiftl_blocks x : 0 ≤ x < 2 ^ 32 → u64 (Z.shiftl (u64 x) 9) = x * 512.
Proof. intros Hx. rewrite (u64_small x) by (split; lia). rewrite Z.shiftl_mul_pow2 by lia. apply u64_small. split; lia. Qed.

(** What the sectors say. *)
Lemma take_mbr l size : placed l 0 →
  ∃ l', placed l' 3 ∧ take_entries 4 0 true 0 (mbr size) (mkChain l 0 0 0 0) = Ret (mkChain l' 3 3 (blk 3) 0).
Proof.
  intros Hl. pose proof (so_count t ok) as Hc. cbn [take_entries].
  assert (∀ n c, placed (ch_partitions c) n → ch_part_num c = Z.of_nat n → (n < 3)%nat →
    ∃ l, placed l (S n) ∧ take_entry true 0 (primary n) c
      = Ret (mkChain l (Z.of_nat (S n)) (ch_primary_num c + 1) (ch_logic_start c) (ch_externed_start c))) as Hprim.
  { intros n c Hp Hn Hlt. destruct (part_blocks n) as (o & s & Ho & Hs & Hor & Hsr); [lia|].
    apply (take_partition true 0 (primary n) c n); cbn [primary boot_ind sys_ind start4 size4]; try done; [lia|..].
    - rewrite Hs, Z.div_mul, le32_encode by lia. rewrite shiftl_blocks by lia. done.
    - rewrite Ho, Z.div_mul, le32_encode by lia. rewrite Z.add_0_r, shiftl_blocks by lia. done. }
  assert (dos_entry (mbr size) 0 = primary 0) as D0 by by apply (dos_entry_of _ _ _ _ _ 0).
  assert (dos_entry (mbr size) 1 = primary 1) as D1 by by apply (dos_entry_of _ _ _ _ _ 1).
  assert (dos_entry (mbr size) 2 = primary 2) as D2 by by apply (dos_entry_of _ _ _ _ _ 2).
  assert (dos_entry (mbr size) 3 = externed size) as D3 by by apply (dos_entry_of _ _ _ _ _ 3).
  change (0 + 1) with 1. change (1 + 1) with 2. change (2 + 1) with 3.
  rewrite D0, D1, D2, D3.
  destruct (Hprim 0%nat (mkChain l 0 0 0 0)) as (l0 & P0 & E0); [done|done|lia|]. rewrite E0. cbn [mbind run_bind].
  destruct (Hprim 1%nat (mkChain l0 1 1 0 0) P0 eq_refl) as (l1 & P1 & E1); [lia|].
  change (take_entry true 0 (primary 1) _) with (take_entry true 0 (primary 1) (mkChain l0 1 1 0 0)).
  rewrite E1. cbn [mbind run_bind].
  destruct (Hprim 2%nat (mkChain l1 2 2 0 0) P1 eq_refl) as (l2 & P2 & E2); [lia|].
  change (take_entry true 0 (primary 2) _) with (take_entry true 0 (primary 2) (mkChain l1 2 2 0 0)).
  rewrite E2. cbn [mbind run_bind].
  destruct (blk_spec 3) as [_ Hb3]; [lia..|]. exists l2. split; [exact P2|].
  unfold take_entry. cbn [externed boot_ind sys_ind start4]. cbn [Z.eqb Pos.eqb orb andb].
  rewrite le32_encode by lia. rewrite u64_small by (split; lia). done.
Qed.

Lemma take_ebr l i prim : placed l i → (3 ≤ i)%nat → Z.of_nat i < it_count t →
  ∃ l', placed l' (S i)
    ∧ take_entries 4 0 (blk i =? 0) (blk i) (ebr i) (mkChain l (Z.of_nat i) prim 0 (blk 3))
      = Ret (mkChain l' (Z.of_nat (S i)) prim
               (if it_count t <? Z.of_nat i + 2 then 0 else blk (S i) - blk 3) (blk 3)).
Proof.
  intros Hl H3 Hi. pose proof (so_count t ok) as Hc. cbn [take_entries].
  assert (dos_entry (ebr i) 0 = logical i) as D0 by by apply (dos_entry_of _ _ _ _ _ 0).
  assert (dos_entry (ebr i) 1 = next i) as D1 by by apply (dos_entry_of _ _ _ _ _ 1).
  assert (dos_entry (ebr i) 2 = no_entry) as D2 by by apply (dos_entry_of _ _ _ _ _ 2).
  assert (dos_entry (ebr i) 3 = no_entry) as D3 by by apply (dos_entry_of _ _ _ _ _ 3).
  change (0 + 1) with 1. change (1 + 1) with 2. change (2 + 1) with 3. rewrite D0, D1, D2, D3.
  destruct (blk_spec i) as [Ho Hb]; [lia..|]. destruct (part_blocks i) as (o & s & _ & Hs & _ & Hsr); [lia|].
  pose proof (blk_mono 1 i ltac:(lia) Hi) as Hpos. destruct (blk_spec 1) as [_ Hb1]; [lia..|].
  rewrite (proj2 (Z.eqb_neq (blk i) 0)) by lia.
  destruct (take_partition false (blk i) (logical i) (mkChain l (Z.of_nat i) prim 0 (blk 3)) i) as (l' & P & E);
    cbn [logical boot_ind sys_ind start4 size4]; try done; [lia|..].
  { rewrite Hs, Z.div_mul, le32_encode by lia. rewrite shiftl_blocks by lia. done. }
  { rewrite le32_encode by lia. rewrite shiftl_blocks by lia. lia. }
  exists l'. split; [exact P|]. rewrite E. cbn [mbind run_bind].
  assert (∀ c, take_entry false (blk i) no_entry c = Ret c) as Hno by done.
  unfold next. destruct (Z.ltb_spec (it_count t) (Z.of_nat i + 2)) as [Hlast|Hmore]; [by rewrite !Hno|].
  destruct (blk_spec (S i)) as [_ HbS]; [lia..|]. pose proof (blk_mono 3 (S i) ltac:(lia) ltac:(lia)).
  destruct (blk_spec 3) as [_ Hb3]; [lia..|].
  assert (∀ z c, take_entry false (blk i) (mkDos 0 0x05 (le_encode 4 (blk (S i) - blk 3)) z) c
    = Ret (mkChain (ch_partitions c) (ch_part_num c) (ch_primary_num c) (blk (S i) - blk 3) (ch_externed_start c))) as ->.
  { intros z c. unfold take_entry. cbn [boot_ind sys_ind start4 Z.eqb Pos.eqb orb andb].
    rewrite le32_encode by lia. rewrite u64_small by (split; lia). done. }
  cbn [mbind run_bind]. by rewrite !Hno.
Qed.

(** A table placed like this one compares as equal to every table with the
    same partitions in use. *)
Lemma placed_cmp l t2 : placed l (Z.to_nat (it_count t)) → it_count t2 = it_count t → used t2 = used t →
  _cmp_iptbl (Iptbl l (it_count t)) t2 = Ret 0.
Proof.
  intros [Hl Hp] Ht2 Hu. unfold _cmp_iptbl. cbn [it_count it_partitions]. rewrite Ht2, Z.eqb_refl. cbn [negb].
  pose proof (so_count t ok) as Hc. pose proof (so_length t ok) as Hlen.
  assert (∀ n l' l2, (n ≤ length l')%nat → (n ≤ length l2)%nat →
    (∀ j p q, (j < n)%nat → l' !! j = Some p → l2 !! j = Some q → pt_size p = pt_size q ∧ pt_offset p = pt_offset q) →
    cmp_from n l' l2 = Ret 0) as Hcmp.
  { intros n. induction n as [|n IH]; intros [|p l'] [|q l2] H1 H2 Hj; cbn [length] in *; try done; try lia.
    cbn [cmp_from]. destruct (Hj 0%nat p q) as [Hs Ho]; [lia|done|done|]. unfold _cmp_partition.
    rewrite Hs, Ho, !Z.eqb_refl. cbn [negb Z.eqb]. apply IH; [lia|lia|].
    intros j p' q' Hn Hp' Hq'. apply (Hj (S j)); [lia|done|done]. }
  apply Hcmp; [lia| |].
  - apply (f_equal length) in Hu. unfold used, zlen in *. rewrite !length_take, Ht2 in Hu. lia.
  - intros j p q Hj Hjp Hjq. apply (f_equal (fun l => l !! j)) in Hu. unfold used in Hu.
    rewrite !lookup_take_lt, Hjq, (part_lookup j) in Hu by lia. injection Hu as ->. by apply Hp.
Qed.
End Sectors.

(** ** On a card *)

Section OnCard.
Context {V : Type} `{MmcHost V} `{Heap V} (m : mmc) `{!CardLaws V (erase_grp_size m)}.
Context (key_area : option (Z * Z)) (info_disprotect : Z).
Context (card : emmc m) (devs : list mmc) (found : find_mmc_device devs (dev m) = Some m).
Context (healthy : ∀ c d (v : V), ready (send_cmd c d v).1).
Context (heap_disk : ∀ n v a, disk (heap_alloc n v).2 a = disk v a).
Context (heap_ok : ∀ n (v : V), (heap_alloc n v).1 = true).

Notation legal := (emmckey_is_access_range_legal key_area info_disprotect m).
Notation block_read := (mmc_bread devs key_area info_disprotect (dev m)).
Notation block_write := (mmc_bwrite devs key_area info_disprotect (dev m)).
Notation same := (same_disk m).
Notation img := (image m).

Lemma malloc_ready n (v : V) : ∃ v', malloc n v = Ret (true, v') ∧ same v v'.
Proof.
  pose proof (heap_ok n v) as Ho. pose proof (heap_disk n v) as Hd. unfold malloc.
  destruct (heap_alloc n v) as [o v']. cbn in *. subst o. by exists v'.
Qed.

(** *** The sectors *)

(** A block that can be read and written. *)
Definition ok_block (b : Z) : Prop := 0 ≤ b ∧ b + 1 ≤ lba m ∧ legal b 1 = Ret true.

Lemma read_block b v : ok_block b → ∃ v', block_read b 1 v = Ret ((1, img v (b * 512) 512), v') ∧ same v v'.
Proof.
  intros (Hb & Hl & Hk). by apply (bread_ready m key_area info_disprotect card devs (dev m) found healthy b 1).
Qed.
Lemma write_block b src v : ok_block b → zlen src = 512 →
  ∃ v', block_write b 1 src v = Ret (1, v') ∧ ∀ a, disk v' a = over (disk v) (b * 512) src a.
Proof.
  intros (Hb & Hl & Hk) Hs.
  destruct (bwrite_ready m key_area info_disprotect card devs (dev m) found healthy b 1 src v) as (v' & E & D);
    [done|lia|lia|lia|done|].
  exists v'. split; [exact E|]. intros a. rewrite D. f_equal. change (1 * 512) with 512. rewrite <- Hs. apply slice_all.
Qed.

Lemma img_512 v lo s d : zlen s = 512 → (∀ a, disk v a = over d lo s a) → img v lo 512 = s.
Proof. intros Hs Hd. rewrite <- Hs. by eapply image_over. Qed.
Lemma img_kept v v' lo n : (∀ a, lo ≤ a < lo + n → disk v' a = disk v a) → img v' lo n = img v lo n.
Proof.
  intros Hd. unfold image. apply list_eq. intros i. rewrite !list_lookup_fmap.
  destruct (decide (i < Z.to_nat n)%nat) as [Hi|Hi].
  - rewrite lookup_seq_lt by done. cbn. f_equal. apply Hd. lia.
  - by rewrite lookup_seq_ge by lia.
Qed.

Section Table.
Context (t : _iptbl) (ok : sectors_ok t).
Context (reachable : ∀ i, (3 ≤ i)%nat → Z.of_nat i < it_count t → ok_block (blk t i)).
Context (first_block : ok_block 0).

(** A byte of a sector from the [i]-th on. *)
Definition in_ebr (i : nat) (a : Z) : Prop :=
  ∃ j, (i ≤ j)%nat ∧ Z.of_nat j < it_count t ∧ blk t j * 512 ≤ a < blk t j * 512 + 512.

Lemma update_ebrs k i fuel sb ret v :
  (3 ≤ i)%nat → Z.of_nat (i + k) = it_count t → (k < fuel)%nat → ((0 < k)%nat → sb = blk t i) →
  ∃ v', update_mbr_from devs key_area info_disprotect fuel m t (Z.of_nat i) sb ret v
      = Ret (match k with O => ret | _ => 1 end, v')
    ∧ (∀ j, (i ≤ j)%nat → Z.of_nat j < it_count t → img v' (blk t j * 512) 512 = ebr t j)
    ∧ (∀ a, ¬ in_ebr i a → disk v' a = disk v a).
Proof.
  pose proof (so_count t ok) as Hc.
  revert i fuel sb ret v. induction k as [|k IH]; intros i [|fuel] sb ret v H3 Hk Hf Hsb; [lia| |lia|]; cbn [update_mbr_from].
  { rewrite (proj2 (Z.ltb_ge _ _)) by lia. exists v. split; [done|]. split; [|done]. intros j Hj1 Hj2. lia. }
  rewrite (proj2 (Z.ltb_lt _ _)) by lia. cbn [negb]. rewrite (proj2 (Z.eqb_neq _ 0)) by lia.
  rewrite (comp_bind_run _ _ _ _ _ (lift_run _ _ _ (ebr_eq t ok i H3 ltac:(lia)))).
  rewrite Hsb by lia. destruct (blk_spec t ok i) as [_ Hb]; [lia..|]. rewrite u64_small by (split; lia).
  destruct (write_block (blk t i) (ebr t i) v) as (v1 & E1 & D1); [by apply reachable; lia|apply ebr_length|].
  rewrite (comp_bind_run _ _ _ _ _ E1). cbn [negb Z.eqb Pos.eqb].
  rewrite (comp_bind_run _ _ _ _ _ (lift_run _ _ _ (part_at t ok (Z.of_nat i + 1) ltac:(lia)))).
  replace (Z.of_nat i + 1) with (Z.of_nat (S i)) by lia. rewrite Nat2Z.id.
  destruct (IH (S i) fuel (s32 (Z.shiftr (u64 (pt_offset (it_partitions t !!! S i) - PARTITION_RESERVED)) 9)) 1 v1)
    as (v2 & E2 & D2 & O2); [lia..| |].
  { intros Hpos. destruct (blk_spec t ok (S i)) as [HS HbS]; [lia..|].
    rewrite shiftr_blocks, HS, u64_small by (unfold PARTITION_RESERVED, SZ_1M; split; lia).
    replace (_ * 512 - _) with (blk t (S i) * 512) by (unfold PARTITION_RESERVED, SZ_1M; lia).
    rewrite Z.div_mul by done. apply s32_small. lia. }
  exists v2. rewrite E2. split; [by destruct k|]. split.
  - intros j Hj1 Hj2. destruct (decide (j = i)) as [->|]; [|apply D2; lia].
    rewrite (img_kept v1); [by apply (img_512 _ _ _ (disk v)); [apply ebr_length|]|].
    intros a Ha. apply O2. intros (j & Hj & Hjc & Hja). pose proof (blk_mono t ok i j ltac:(lia) Hjc). lia.
  - intros a Ha. rewrite O2, D1, over_out; [done| |].
    + intros Ha'. apply Ha. exists i. rewrite ebr_length in Ha'. lia.
    + intros (j & Hj & Hja). apply Ha. exists j. split; [lia|done].
Qed.

(** The sectors are on the card. *)
Definition sectors_stored (v : V) : Prop :=
  (∃ size, img v 0 512 = mbr t size)
  ∧ ∀ i, (3 ≤ i)%nat → Z.of_nat i < it_count t → img v (blk t i * 512) 512 = ebr t i.

Lemma stored_same v v' : same v v' → sectors_stored v → sectors_stored v'.
Proof.
  intros Hs [[size Hm] He]. split; [exists size|intros i H3 Hi]; rewrite (image_same m v v'); auto.
Qed.

Lemma update_mbr_ready v : ∃ v', _update_ptbl_mbr devs key_area info_disprotect m t v = Ret (0, v')
  ∧ sectors_stored v' ∧ (∀ a, ¬ 0 ≤ a < 512 → ¬ in_ebr 3 a → disk v' a = disk v a).
Proof.
  pose proof (so_count t ok) as Hc. unfold _update_ptbl_mbr.
  destruct (malloc_ready 512 v) as (v1 & E1 & S1). rewrite (comp_bind_run _ _ _ _ _ E1). cbn [negb].
  assert (∃ v', update_mbr_from devs key_area info_disprotect (S (Z.to_nat (it_count t))) m t 0 0 0 v1 = Ret (1, v')
    ∧ sectors_stored v' ∧ (∀ a, ¬ 0 ≤ a < 512 → ¬ in_ebr 3 a → disk v' a = disk v1 a)) as (v' & E & St & O).
  2:{ exists v'. rewrite (comp_bind_run _ _ _ _ _ E). split; [done|]. split; [done|].
      intros a Ha Hb. rewrite O, S1; done. }
  destruct (mbr_eq t ok) as (size & Em). cbn [update_mbr_from]. rewrite (proj2 (Z.ltb_lt 0 _)) by lia. cbn [negb Z.eqb].
  rewrite (comp_bind_run _ _ _ _ _ (lift_run _ _ _ Em)).
  destruct (write_block 0 (mbr t size) v1 first_block (mbr_length t size)) as (v2 & E2 & D2).
  change (u64 0) with 0. rewrite (comp_bind_run _ _ _ _ _ E2). cbn [negb Z.eqb Pos.eqb].
  change (0 + 2 + 1) with 3. rewrite (comp_bind_run _ _ _ _ _ (lift_run _ _ _ (part_at t ok 3 ltac:(lia)))).
  change (Z.to_nat 3) with 3%nat. destruct (blk_spec t ok 3) as [HS HbS]; [lia..|].
  set (sb := s32 _). assert (sb = blk t 3) as Hsb.
  { unfold sb. rewrite shiftr_blocks, HS, u64_small by (unfold PARTITION_RESERVED, SZ_1M; split; lia).
    replace (_ * 512 - _) with (blk t 3 * 512) by (unfold PARTITION_RESERVED, SZ_1M; lia).
    rewrite Z.div_mul by done. apply s32_small. lia. }
  destruct (update_ebrs (Z.to_nat (it_count t) - 3) 3 (Z.to_nat (it_count t)) sb 1 v2) as (v3 & E3 & D3 & O3);
    [lia..|done|]. change (Z.of_nat 3) with 3 in E3. exists v3. split; [rewrite E3|].
  - destruct (Z.to_nat (it_count t) - 3)%nat eqn:Ez; [lia|done].
  - split; [split; [exists size|exact D3]|].
    + rewrite (img_kept v2); [by apply (img_512 _ _ _ (disk v1)); [apply mbr_length|]|].
      intros a Ha. apply O3. intros (j & Hj & Hjc & Hja). pose proof (blk_mono t ok 1 j ltac:(lia) Hjc).
      destruct (blk_spec t ok 1) as [_ ?]; lia.
    + intros a Ha Hb. rewrite O3, D2, over_out; [done| |done]. by rewrite mbr_length.
Qed.

(** Following the chain from the [i]-th partition on. *)
Lemma chain_ready k i fuel l v : sectors_stored v →
  (3 ≤ i)%nat → Z.of_nat (i + k) = it_count t → (0 < k ≤ fuel)%nat → placed t l i →
  ∃ v' l' e, chain_from devs key_area info_disprotect fuel m (blk t i) (mkChain l (Z.of_nat i) 3 0 (blk t 3)) v
      = Ret (mkChain l' (it_count t) 3 0 e, v')
    ∧ placed t l' (Z.to_nat (it_count t)) ∧ same v v'.
Proof.
  pose proof (so_count t ok) as Hc.
  revert i fuel l v. induction k as [|k IH]; intros i [|fuel] l v Hst H3 Hk Hf Hl; [lia..|]. cbn [chain_from].
  destruct (read_block (blk t i) v) as (v1 & E1 & S1); [apply reachable; lia|].
  rewrite (comp_bind_run _ _ _ _ _ E1). cbn [fst snd negb Z.eqb Pos.eqb].
  rewrite (proj2 Hst i H3 ltac:(lia)), (ebr_type t i). cbn [DOS_MBR negb Z.eqb andb].
  destruct (take_ebr t ok l i 3 Hl H3 ltac:(lia)) as (l1 & P1 & E2).
  rewrite (comp_bind_run _ _ _ _ _ (lift_run _ _ _ E2)). cbn [ch_part_num ch_primary_num ch_logic_start ch_externed_start ch_partitions].
  rewrite (proj2 (Z.eqb_neq _ 3)) by lia.
  destruct (Z.ltb_spec (it_count t) (Z.of_nat i + 2)) as [Hlast|Hmore].
  - cbn [Z.eqb]. exists v1, l1, (blk t 3). replace (Z.of_nat (S i)) with (it_count t) by lia. split; [done|].
    split; [|done]. by replace (Z.to_nat (it_count t)) with (S i) by lia.
  - pose proof (blk_mono t ok 3 (S i) ltac:(lia) ltac:(lia)) as Hm. rewrite (proj2 (Z.eqb_neq _ 0)) by lia.
    destruct (blk_spec t ok (S i)) as [_ HbS]; [lia..|].
    replace (blk t 3 + (blk t (S i) - blk t 3)) with (blk t (S i)) by lia. rewrite u64_small by (split; lia).
    destruct (IH (S i) fuel l1 v1 (stored_same _ _ S1 Hst)) as (v2 & l2 & e & E3 & P3 & S3); [lia..|done|].
    exists v2, l2, e. rewrite E3. split; [done|]. split; [done|]. by etrans.
Qed.

Lemma check_mbr_ready t2 fuel v : sectors_stored v → (Z.to_nat (it_count t) ≤ fuel)%nat →
  it_count t2 = it_count t → used t2 = used t →
  ∃ v', _check_ptbl_mbr devs key_area info_disprotect fuel m t2 v = Ret (0, v') ∧ same v v'.
Proof.
  intros Hst Hf Hc2 Hu2. pose proof (so_count t ok) as Hc. unfold _check_ptbl_mbr.
  destruct (malloc_ready 16 v) as (v1 & E1 & S1). rewrite (comp_bind_run _ _ _ _ _ E1). cbn [negb].
  destruct (malloc_ready (sizeof_partitions * DOS_PARTITION_COUNT) v1) as (v2 & E2 & S2).
  rewrite (comp_bind_run _ _ _ _ _ E2). cbn [negb]. assert (same v v2) as S12 by by etrans.
  pose proof (stored_same _ _ S12 Hst) as Hst2. 
  destruct fuel as [|fuel]; [lia|].
  destruct (read_block 0 v2 first_block) as (v3 & E3 & S3). destruct (proj1 Hst2) as [size Hm].
  change (0 * 512) with 0 in E3. rewrite Hm in E3.
  destruct (take_mbr t ok (replicate 32 no_partition) size) as (l & P & E4); [split; [done|]; intros; lia|].
  destruct (blk_spec t ok 3) as [_ Hb3]; [lia..|]. pose proof (blk_mono t ok 1 3 ltac:(lia) ltac:(lia)).
  destruct (blk_spec t ok 1) as [_ Hb1]; [lia..|].
  destruct (chain_ready (Z.to_nat (it_count t) - 3) 3 fuel l v3) as (v4 & l' & e & E5 & P5 & S5);
    [by eapply stored_same|lia..|done|].
  exists v4. split; [|by etrans; [done|]; etrans].
  assert (chain_from devs key_area info_disprotect (S fuel) m 0 (mkChain (replicate 32 no_partition) 0 0 0 0) v2
    = Ret (mkChain l' (it_count t) 3 0 e, v4)) as E6.
  { cbn [chain_from]. rewrite (comp_bind_run _ _ _ _ _ E3). cbn [fst snd negb Z.eqb Pos.eqb].
    rewrite (mbr_type t size). cbn [DOS_MBR negb Z.eqb andb].
    rewrite (comp_bind_run _ _ _ _ _ (lift_run _ _ _ E4)). cbn [ch_part_num ch_primary_num ch_logic_start ch_externed_start ch_partitions Z.eqb Pos.eqb].
    rewrite (proj2 (Z.eqb_neq _ 0)) by lia. exact E5. }
  assert (_construct_ptbl_by_mbr devs key_area info_disprotect (S fuel) m (Iptbl (replicate 32 no_partition) 0) v2
    = Ret (Iptbl l' (it_count t), v4)) as E7.
  { unfold _construct_ptbl_by_mbr. cbn [it_partitions]. by rewrite (comp_bind_run _ _ _ _ _ E6). }
  change (Z.to_nat DOS_PARTITION_COUNT) with 32%nat. rewrite (comp_bind_run _ _ _ _ _ E7).
  apply lift_run. by apply placed_cmp.
Qed.
End Table.
End OnCard.
