(* ===== verification/PartTableStart.v ===== *)
(** * Starting with a partition table

    The partition table in [mmc_device_init], on a card that keeps what is
    written: a table that comes with a device tree is laid out and stored, and the
    next start finds it. *)

From S2P Require Import Prelude MmcBlock Sparse SparseSpec PartTable PartTableSpec PartTableCard.

(** ** The tables in memory *)

Definition MMC_RESERVED_OFFSET : Z := 36 * SZ_1M.

(** A partition of a device tree: so many whole blocks, or the rest. *)
Definition dtb_ok (p : partitions) : Prop :=
  part_wf p ∧ (pt_size p = u64 (-1) ∨ 0 ≤ pt_size p < 2 ^ 40 ∧ pt_size p mod 512 = 0).
#[export] Instance dtb_ok_dec p : Decision (dtb_ok p).
Proof. unfold dtb_ok, part_wf, bytes_ok, is_u8, is_u64, is_u32. apply _. Defined.

(** The board's own table, laid out: the reserved area starts at 36 megabytes on
    every card. *)
Lemma inherent_laid flag m : ∃ r inh,
  _calculate_offset flag m (Iptbl emmc_partition_table 2) false = Ret (r, Iptbl inh 2)
  ∧ zlen inh = 2 ∧ _get_inherent_offset inh MMC_RESERVED_NAME = Ret MMC_RESERVED_OFFSET
  ∧ (MMC_RESERVED_OFFSET + 64 * SZ_1M ≤ capacity m → Forall dtb_ok inh).
Proof.
  unfold _calculate_offset. cbn [it_count it_partitions emmc_partition_table Z.leb Z.compare].
  assert (name_is (set_offset (PARTITION_ELEMENT MMC_BOOT_NAME (4 * SZ_1M) 0) 0) MMC_BOOT_NAME = Ret true) as -> by done.
  cbn [mbind run_bind andb].
  set (part := if negb (flag =? EMMC_BOOT_FLAG) then _ else _).
  assert (∃ name, part = Ret name ∧ (name = char16 MMC_BOOT_NAME ∨ name = char16 (str "bootloadere"))) as (name & -> & Hname).
  { unfold part. destruct (flag =? _); cbn [negb]; (eexists; split; [reflexivity|]); [by left|by right]. }
  cbn [mbind run_bind]. change (Z.to_nat (2 - 1)) with 1%nat. cbn [offsets_from].
  match goal with |- context [u64 (?a + ?b + ?g)] => assert (u64 (a + b + g) = MMC_RESERVED_OFFSET) as -> by done end.
  change (pt_offset (set_offset ?p ?o)) with o. change (pt_size (set_offset ?p ?o)) with (pt_size p).
  cbn [pt_size PARTITION_ELEMENT]. change (u64 (MMC_RESERVED_OFFSET + 64 * SZ_1M)) with (MMC_RESERVED_OFFSET + 64 * SZ_1M).
  destruct (Z.ltb_spec (capacity m) (MMC_RESERVED_OFFSET + 64 * SZ_1M)) as [Hlt|Hge]; cbn [orb].
  - eexists _, _. split; [reflexivity|]. split; [done|]. split; [by destruct Hname as [-> | ->]|lia].
  - change (64 * SZ_1M =? u64 (-1)) with false. cbn [mbind run_bind]. eexists _, _. split; [reflexivity|]. split; [done|].
    split; [by destruct Hname as [-> | ->]|]. intros _.
    constructor; [|constructor; [|constructor]]; (split; [|by right]); [destruct Hname as [-> | ->]|]; by repeat constructor.
Qed.

(** What holds of the partitions of the device tree and of the board holds of
    those composed of them. *)
Lemma put_Forall (P : partitions → Prop) l i x l' :
  Forall P l → P x → put l i x = Ret l' → Forall P l' ∧ length l' = length l.
Proof.
  intros Hl Hx. unfold put. destruct (_ && _); [|done]. intros [= <-].
  split; [by apply Forall_insert|apply length_insert].
Qed.
Lemma compose_Forall (P : partitions → Prop) n i dtb inh ept t :
  Forall P (it_partitions dtb) → Forall P (it_partitions inh) → Forall P (it_partitions ept) →
  compose_from n i dtb inh ept = Ret t →
  Forall P (it_partitions t) ∧ length (it_partitions t) = length (it_partitions ept).
Proof.
  intros Hd Hi. revert i ept. induction n as [|n IH]; intros i ept He E; [by injection E as <-|]. cbn [compose_from] in E.
  destruct (if i <? it_count inh then _ else _) as [src|] eqn:Es; [|done]. cbn [mbind run_bind] in E.
  destruct (is_prio_partition ept src) as [prio|]; [|done]. cbn [mbind run_bind] in E.
  destruct (put _ _ src) as [l|] eqn:Ep; [|done]. cbn [mbind run_bind] in E.
  assert (P src) as Hs.
  { destruct (i <? it_count inh); apply at_Ret in Es as [_ Es]; [eapply (Forall_lookup_1 _ _ _ _ Hi Es)|eapply (Forall_lookup_1 _ _ _ _ Hd Es)]. }
  apply put_Forall with (P := P) in Ep as [Hl Hlen]; [|done..].
  destruct (_ =? _); [by injection E as <-|]. apply IH in E as [H1 H2]; [|done]. split; [done|].
  by rewrite H2.
Qed.


(** A partition with its place in whole blocks. *)
Definition in_blocks (p : partitions) : Prop :=
  part_wf p ∧ 0 ≤ pt_size p < 2 ^ 40 ∧ pt_size p mod 512 = 0
  ∧ 0 ≤ pt_offset p < 2 ^ 40 ∧ pt_offset p mod 512 = 0.

Lemma mod_add a b : a mod 512 = 0 → b mod 512 = 0 → (a + b) mod 512 = 0.
Proof. intros Ha Hb. by rewrite Zplus_mod, Ha, Hb. Qed.
Lemma mod_sub a b : a mod 512 = 0 → b mod 512 = 0 → (a - b) mod 512 = 0.
Proof. intros Ha Hb. by rewrite Zminus_mod, Ha, Hb. Qed.

Lemma laid_blocks cap gap prev l l' :
  0 ≤ cap < 2 ^ 40 → cap mod 512 = 0 → 0 ≤ gap → gap mod 512 = 0 →
  0 ≤ pt_offset prev → 0 ≤ pt_size prev → pt_offset prev mod 512 = 0 → pt_size prev mod 512 = 0 →
  Forall dtb_ok l → laid cap gap prev l l' → Forall (fun p => pt_offset p ≤ cap) l' →
  Forall in_blocks l'.
Proof.
  intros Hc Hcm. revert gap prev l'. induction l as [|p l IH]; intros gap prev [|p' l'] Hg Hgm Ho Hs Hom Hsm Hd Hl Hf;
    try done.
  destruct Hl as (Hn & Hm & Hoff & Hsz & Hend & Hl). apply Forall_cons in Hd as [[Hw Hp] Hd].
  apply Forall_cons in Hf as [Hle Hf].
  assert (pt_offset p' mod 512 = 0) as Hom' by (rewrite Hoff; auto using mod_add).
  assert (pt_size p' mod 512 = 0 ∧ pt_offset p' + pt_size p' ≤ cap) as [Hsm' Hend'].
  { destruct Hend as [[Heq Hend]|[_ Hend]].
    - split; [|done]. destruct Hp as [Hp|[_ Hp]]; [|by rewrite Heq].
      change (u64 (-1)) with (2 ^ 64 - 1) in Hp. lia.
    - specialize (Hend Hle). split; [|lia]. replace (pt_size p') with (cap - pt_offset p') by lia. by apply mod_sub. }
  constructor.
  - destruct Hw as (Hw1 & Hw2 & _ & _ & Hw5). split; [|repeat split; try done; lia].
    unfold part_wf. rewrite Hn, Hm. split_and!; try done; split; lia.
  - eapply IH; [..|exact Hl|done]; try done; lia.
Qed.

(** A table composed of such partitions and laid out has its place on the card,
    and its sectors can be written. *)
Lemma dtb_table_ok flag m t bottom ept :
  0 ≤ capacity m < 2 ^ 40 → capacity m mod 512 = 0 →
  Forall dtb_ok (it_partitions t) → zlen (it_partitions t) = MAX_PART_COUNT →
  4 ≤ it_count t < MAX_PART_COUNT →
  (∀ p, head (it_partitions t) = Some p → 0 ≤ pt_size p ≤ capacity m) →
  _calculate_offset flag m t bottom = Ret (0, ept) →
  Forall (fun p => pt_offset p ≤ capacity m) (used ept) →
  table_wf ept ∧ sectors_ok ept ∧ it_count ept = it_count t.
Proof.
  unfold MAX_PART_COUNT. intros Hc Hcm Hd Hl Hn Hh E Hf.
  destruct (it_partitions t) as [|part l] eqn:Hp; [done|]. specialize (Hh part eq_refl).
  apply Forall_cons in Hd as [[Hw Hpart] Hd].
  assert (Forall size_ok l) as Hsz.
  { eapply Forall_impl; [exact Hd|]. intros p [_ [?|[? _]]]; [by right|left; lia]. }
  destruct (calculate_offset_laid flag m t bottom ept part l ltac:(lia) ltac:(lia) Hp Hh (Forall_take _ _ _ Hsz) E)
    as (part' & l' & gap & Ht & Hcnt & Ho & Hs & Hmask & Hname & Hok & Hg & Hgm & Hlaid & Hrest).
  set (n := Z.to_nat (it_count t - 1)) in *.
  assert (used ept = part' :: take n l') as Hu.
  { unfold used. rewrite Hcnt, Ht. by replace (Z.to_nat (it_count t)) with (S n) by lia. }
  rewrite Hu in Hf. apply Forall_cons in Hf as [_ Hf].
  assert (pt_size part mod 512 = 0) as Hsm.
  { destruct Hpart as [Hpart|[_ ?]]; [|done]. change (u64 (-1)) with (2 ^ 64 - 1) in Hpart. lia. }
  assert (0 < PARTITION_RESERVED) as Hr by done.
  assert (in_blocks part') as Hb0.
  { destruct Hw as (Hw1 & Hw2 & Hw3 & _ & Hw5). unfold in_blocks, part_wf. rewrite Ho, Hs, Hmask, Hname.
    split_and!; auto; try lia; split; lia. }
  assert (Forall in_blocks (take n l')) as Hb.
  { apply (laid_blocks (capacity m) gap part' (take n l)); try done; try lia; [by rewrite Ho|by rewrite Hs|by apply Forall_take]. }
  assert (Forall in_blocks (used ept)) as Hall by (rewrite Hu; by constructor).
  assert (Forall part_wf (it_partitions ept)) as Hwf.
  { rewrite Ht, <- (take_drop n l'). constructor; [apply Hb0|]. apply Forall_app. split.
    - eapply Forall_impl; [exact Hb|]. intros p [? _]. done.
    - rewrite Hrest. apply Forall_drop. eapply Forall_impl; [exact Hd|]. intros p [? _]. done. }
  assert (zlen (it_partitions ept) = 32) as Hlen.
  { pose proof (laid_length _ _ _ _ _ Hlaid) as L1. pose proof (f_equal length Hrest) as L2.
    rewrite !length_drop in L2. rewrite !length_take in L1. rewrite Ht. unfold zlen in *. cbn [length] in *. lia. }
  split; [unfold table_wf, MAX_PART_COUNT; split_and!; [done|lia|lia|done]|]. split; [|done]. split; [done|lia|..].
  - intros i p Hi Hic. assert (used ept !! i = Some p) as Hui by (unfold used; rewrite lookup_take_lt; [done|lia]).
    destruct (Forall_lookup_1 _ _ _ _ Hall Hui) as (_ & ? & ? & ? & ?). done.
  - intros i j p q Hij Hjc Hi Hj.
    assert (used ept !! i = Some p) as Hui by (unfold used; rewrite lookup_take_lt; [done|lia]).
    assert (used ept !! j = Some q) as Huj by (unfold used; rewrite lookup_take_lt; [done|lia]).
    rewrite Hu in Hui, Huj. destruct j as [|j]; [lia|]. destruct i as [|i].
    + injection Hui as <-. eapply laid_after; [exact Hlaid|lia|lia|exact Huj].
    + eapply (laid_apart _ _ _ _ _ i j); [exact Hlaid|lia|lia|exact Hui|exact Huj].
Qed.

(** ** On a card *)

Section OnCard.
Context {V : Type} `{MmcHost V} `{Heap V} (m : mmc) `{!CardLaws V (erase_grp_size m)}.
Context (key_area : option (Z * Z)) (info_disprotect : Z).
Context (card : emmc m) (devs : list mmc) (found : find_mmc_device devs (dev m) = Some m).
Context (healthy : ∀ c d (v : V), ready (send_cmd c d v).1).
Context (heap_disk : ∀ n v a, disk (heap_alloc n v).2 a = disk v a).
Context (heap_ok : ∀ n (v : V), (heap_alloc n v).1 = true).

Notation legal := (emmckey_is_access_range_legal key_area info_disprotect m).
Notation same := (same_disk m).
Notation img := (image m).
Notation base := MMC_RESERVED_OFFSET.

Section Reserved.
(** The blocks of the table can be read and written. *)
Context (table_area : legal (base / 512) 3 = Ret true ∧ base / 512 + 3 ≤ lba m).
Context (inh : list partitions) (inh_at : _get_inherent_offset inh MMC_RESERVED_NAME = Ret base).

Lemma table_vpart : aml_get_virtual_partition_by_name MMC_TABLE_NAME
  = Ret (Some (VIRTUAL_PARTITION_ELEMENT MMC_TABLE_NAME 0 (16 * 1024) VP_FLAG_BASE_RSV)).
Proof. by vm_compute. Qed.

Lemma get_rsv_ready rsv r v : read_ptbl (img v base ptbl_blocks_size) = Ret r →
  ∃ v', get_ptbl_rsv devs key_area info_disprotect m inh rsv v
      = Ret (match r with
             | inl e => (e, rsv)
             | inr l => (0, Iptbl (l ++ drop (length l) (it_partitions rsv)) (zlen l))
             end, v')
    ∧ same v v'.
Proof.
  intros Hr. unfold get_ptbl_rsv. rewrite (comp_bind_run _ _ _ _ _ (lift_run _ _ _ table_vpart)).
  cbn [vp_size vp_offset]. change (16 * 1024 <? ptbl_blocks_size) with false. cbv iota.
  destruct (malloc_ready m heap_disk heap_ok ptbl_blocks_size v) as (v1 & E1 & S1). rewrite (comp_bind_run _ _ _ _ _ E1). cbn [negb].
  rewrite (comp_bind_run _ _ _ _ _ (lift_run _ _ _ inh_at)). change (u64 (base + 0)) with base.
  destruct (bread_ready m key_area info_disprotect card devs (dev m) found healthy (base / 512) 3 v1)
    as (v2 & E2 & S2); [done|done|apply table_area|apply table_area|].
  change (base / 512 * 512) with base in E2. change (3 * 512) with ptbl_blocks_size in E2.
  assert (_mmc_rsv_read devs key_area info_disprotect m base ptbl_blocks_size v1
    = Ret ((ptbl_blocks_size, img v base ptbl_blocks_size), v2)) as E3.
  { unfold _mmc_rsv_read. rewrite (emmc_read_len m card). change (ptbl_blocks_size =? 0) with false. cbn [Z.eqb].
    change (ptbl_blocks_size / 512) with 3. rewrite (comp_bind_run _ _ _ _ _ E2). by rewrite (image_same m v v1). }
  rewrite (comp_bind_run _ _ _ _ _ E3). cbn [fst snd]. rewrite Z.eqb_refl. cbn [negb].
  rewrite (comp_bind_run _ _ _ _ _ (lift_run _ _ _ Hr)). exists v2. split; [by destruct r|by etrans].
Qed.

(** The table is on the card. *)
Definition table_stored (t : _iptbl) (v : V) : Prop :=
  img v base ptbl_blocks_size
  = ptbl_bytes (it_count t) (_calc_iptbl_check_v1 (table_bytes (it_partitions t)) (it_count t)) (table_bytes (used t)).

Lemma update_rsv_ready t v : table_wf t →
  ∃ v', update_ptbl_rsv devs key_area info_disprotect m inh t v = Ret (0, v')
    ∧ table_stored t v' ∧ (∀ a, ¬ base ≤ a < base + ptbl_blocks_size → disk v' a = disk v a).
Proof.
  intros Ht. unfold update_ptbl_rsv. rewrite (comp_bind_run _ _ _ _ _ (lift_run _ _ _ table_vpart)).
  destruct (malloc_ready m heap_disk heap_ok ptbl_blocks_size v) as (v1 & E1 & S1). rewrite (comp_bind_run _ _ _ _ _ E1). cbn [negb].
  rewrite (proj2 (Z.ltb_ge _ _)) by apply Ht. rewrite (comp_bind_run _ _ _ _ _ (lift_run _ _ _ (ptbl_image_eq t Ht))).
  rewrite (comp_bind_run _ _ _ _ _ (lift_run _ _ _ inh_at)). cbn [vp_offset]. change (u64 (base + 0)) with base.
  set (b := ptbl_bytes _ _ _). assert (zlen b = ptbl_blocks_size) as Hb.
  { apply ptbl_bytes_length. rewrite table_bytes_length, used_length by auto using used_wf.
    destruct Ht as (_ & Hc & _). unfold MAX_PART_COUNT, sizeof_partitions in *. lia. }
  destruct (bwrite_ready m key_area info_disprotect card devs (dev m) found healthy (base / 512) 3 b v1)
    as (v2 & E2 & D2); [done|done|apply table_area|by rewrite Hb|apply table_area|].
  change (base / 512 * 512) with base in D2. change (3 * 512) with ptbl_blocks_size in D2.
  rewrite <- Hb, slice_all in D2.
  assert (_mmc_rsv_write devs key_area info_disprotect m base ptbl_blocks_size b v1 = Ret (ptbl_blocks_size, v2)) as E3.
  { unfold _mmc_rsv_write. rewrite (emmc_read_len m card). change (ptbl_blocks_size =? 0) with false. cbn [Z.eqb].
    change (ptbl_blocks_size / 512) with 3. by rewrite (comp_bind_run _ _ _ _ _ E2). }
  rewrite (comp_bind_run _ _ _ _ _ E3), Z.eqb_refl. exists v2. split; [done|]. split.
  - unfold table_stored. fold b. rewrite <- Hb. by eapply image_over.
  - intros a Ha. rewrite D2, over_out by (by rewrite Hb). apply S1.
Qed.
End Reserved.

(** *** Starting *)

Section Start.
Context (keys_at : key_area = Some (base + 0x4000, 0x40000)) (is_tsd : aml_is_emmc_tsd m = true).
Context (device_boot_flag family_id : Z) (gxl : MESON_CPU_MAJOR_ID_GXL ≤ family_id).
Context (whole : capacity m mod 512 = 0 ∧ 0 ≤ capacity m < 2 ^ 40 ∧ capacity m ≤ lba m * 512).
Context (table_blocks : base / 512 + 3 ≤ lba m).

Lemma zalloc_ready v : ∃ v', _zalloc_iptbl v = Ret ((0, Some zero_table), v') ∧ same v v'.
Proof.
  unfold _zalloc_iptbl. destruct (malloc_ready m heap_disk heap_ok (sizeof_partitions * MAX_PART_COUNT) v) as (v1 & E1 & S1).
  rewrite (comp_bind_run _ _ _ _ _ E1). cbn [negb].
  destruct (malloc_ready m heap_disk heap_ok 16 v1) as (v2 & E2 & S2). rewrite (comp_bind_run _ _ _ _ _ E2). cbn [negb].
  exists v2. split; [done|by etrans].
Qed.

(** Blocks before and behind the keys. *)
Lemma block_free b n : 0 ≤ b → 0 < n → b + n < 2 ^ 63 → b + n ≤ base / 512 + 32 ∨ base / 512 + 544 ≤ b →
  legal b n = Ret true.
Proof.
  intros Hb Hn Hw Hd. destruct (decide (Z.land info_disprotect DISPROTECT_KEY = 0)) as [Hp|Hp].
  2: { unfold emmckey_is_access_range_legal. rewrite is_tsd, keys_at. by rewrite (proj2 (Z.eqb_neq _ _) Hp). }
  apply (free_disjoint m key_area info_disprotect (base + 0x4000) 0x40000 keys_at is_tsd) with (start := b) (n := n);
    try done; try lia; by repeat split.
Qed.

(** A card without a partition table in its first sector. *)
Lemma check_blank t fuel v : it_count t ≠ 0 → test_block_type (img v 0 512) = -1 →
  ∃ v', _check_ptbl_mbr devs key_area info_disprotect (S fuel) m t v = Ret (-1, v') ∧ same v v'.
Proof.
  intros Hc Hb. unfold _check_ptbl_mbr.
  destruct (malloc_ready m heap_disk heap_ok 16 v) as (v1 & E1 & S1). rewrite (comp_bind_run _ _ _ _ _ E1). cbn [negb].
  destruct (malloc_ready m heap_disk heap_ok (sizeof_partitions * DOS_PARTITION_COUNT) v1) as (v2 & E2 & S2).
  rewrite (comp_bind_run _ _ _ _ _ E2). cbn [negb]. assert (same v v2) as S12 by by etrans.
  destruct (read_block m key_area info_disprotect card devs found healthy 0 v2) as (v3 & E3 & S3).
  { pose proof table_blocks as Ht. change (base / 512) with 73728 in Ht. split; [lia|]. split; [lia|].
    apply block_free; [lia..|]. left. by vm_compute. }
  change (0 * 512) with 0 in E3. rewrite (image_same m v v2) in E3 by done.
  exists v3. split; [|by etrans].
  assert (∀ c, chain_from devs key_area info_disprotect (S fuel) m 0 c v2 = Ret (c, v3)) as E4.
  { intros c. cbn [chain_from]. rewrite (comp_bind_run _ _ _ _ _ E3). cbn [fst snd negb Z.eqb Pos.eqb]. by rewrite Hb. }
  assert (∀ l, _construct_ptbl_by_mbr devs key_area info_disprotect (S fuel) m (Iptbl l 0) v2 = Ret (Iptbl l 0, v3)) as E5.
  { intros l. unfold _construct_ptbl_by_mbr. by rewrite (comp_bind_run _ _ _ _ _ (E4 _)). }
  rewrite (comp_bind_run _ _ _ _ _ (E5 _)). apply lift_run. unfold _cmp_iptbl. cbn [it_count].
  by rewrite (proj2 (Z.eqb_neq 0 _)) by lia.
Qed.

Notation agree := (agree_mbr devs key_area info_disprotect family_id).
Notation device_init := (device_table devs key_area info_disprotect device_boot_flag family_id).
Notation fresh := (mkTables emmc_partition_table None).

Section Stored.
Context (ept : _iptbl) (wf : table_wf ept) (sec : sectors_ok ept).
Context (on_card : Forall (fun p => pt_offset p ≤ capacity m) (used ept)).
Context (behind : ∀ p, used ept !! 2%nat = Some p → base + 0x44000 ≤ pt_offset p).

Lemma used_part i : Z.of_nat i < it_count ept → used ept !! i = Some (it_partitions ept !!! i).
Proof.
  intros Hi. unfold used. rewrite lookup_take_lt by lia. apply part_lookup; [done|]. pose proof (so_count _ sec). lia.
Qed.
(** The sectors lie behind the keys. *)
Lemma sectors_behind i : (3 ≤ i)%nat → Z.of_nat i < it_count ept →
  base / 512 + 544 ≤ blk ept i ∧ ok_block m key_area info_disprotect (blk ept i).
Proof.
  intros H3 Hi. destruct (blk_spec ept sec i) as [Ho Hb]; [lia..|]. pose proof (so_count _ sec) as Hc.
  pose proof (part_apart ept sec 2 i ltac:(lia) Hi) as Ha. destruct (part_blocks ept sec 2) as (o & s & Ho2 & Hs2 & _ & ?); [lia|].
  pose proof (behind _ (used_part 2 ltac:(lia))) as H2. pose proof (Forall_lookup_1 _ _ _ _ on_card (used_part i Hi)) as Hcap.
  cbn in Hcap. unfold PARTITION_RESERVED, MMC_RESERVED_OFFSET, SZ_1M in *.
  change (36 * 0x100000 / 512) with 73728. assert (73728 + 544 ≤ blk ept i) as Hk by lia. split; [done|].
  destruct whole as (_ & _ & Hw). split; [lia|]. split; [lia|]. apply block_free; [lia..|]. right.
  unfold MMC_RESERVED_OFFSET, SZ_1M. change (36 * 0x100000 / 512) with 73728. done.
Qed.
Lemma first_ok : ok_block m key_area info_disprotect 0.
Proof.
  pose proof table_blocks as Ht. change (base / 512) with 73728 in Ht. split; [lia|]. split; [lia|].
  apply block_free; [lia..|]. left. by vm_compute.
Qed.

(** The table and its sectors are on the card. *)
Definition all_stored (v : V) : Prop := table_stored ept v ∧ sectors_stored m ept v.
Lemma all_stored_same v v' : same v v' → all_stored v → all_stored v'.
Proof.
  intros Hs [Ht Hm]. split; [|by eapply stored_same]. unfold table_stored in *. by rewrite (image_same m v v').
Qed.

(** Making the sectors agree, on a card without them. *)
Lemma agree_blank fuel v : table_stored ept v → test_block_type (img v 0 512) = -1 →
  ∃ v', agree (S fuel) m ept 0 v = Ret (0, v') ∧ all_stored v'.
Proof.
  intros Ht Hb. pose proof (so_count _ sec) as Hc. unfold agree_mbr. rewrite (proj2 (Z.leb_le _ _)) by done.
  destruct (check_blank ept fuel v ltac:(lia) Hb) as (v1 & E1 & S1). rewrite (comp_bind_run _ _ _ _ _ E1). cbn [negb Z.eqb].
  destruct (update_mbr_ready m key_area info_disprotect card devs found healthy heap_disk heap_ok ept sec
    (fun i H3 Hi => proj2 (sectors_behind i H3 Hi)) first_ok v1) as (v2 & E2 & St2 & O2).
  rewrite (comp_bind_run _ _ _ _ _ E2). exists v2. split; [done|]. split; [|done]. unfold table_stored in *.
  rewrite <- Ht. apply img_kept. intros a Ha. rewrite O2; [apply S1| |].
  - unfold MMC_RESERVED_OFFSET, SZ_1M in *. lia.
  - intros (j & Hj & Hjc & Hja). destruct (sectors_behind j Hj Hjc) as [Hk _].
    change ptbl_blocks_size with 1536 in Ha. unfold MMC_RESERVED_OFFSET, SZ_1M in *. change (36 * 0x100000 / 512) with 73728 in Hk. lia.
Qed.

(** Nothing to do when they are there. *)
Lemma agree_stored fuel t2 v : sectors_stored m ept v → (Z.to_nat (it_count ept) ≤ fuel)%nat →
  it_count t2 = it_count ept → used t2 = used ept →
  ∃ v', agree fuel m t2 0 v = Ret (0, v') ∧ same v v'.
Proof.
  intros Hst Hf Hc Hu. unfold agree_mbr. rewrite (proj2 (Z.leb_le _ _)) by done.
  destruct (check_mbr_ready m key_area info_disprotect card devs found healthy heap_disk heap_ok ept sec
    (fun i H3 Hi => proj2 (sectors_behind i H3 Hi)) first_ok t2 fuel v Hst Hf Hc Hu) as (v1 & E1 & S1).
  rewrite (comp_bind_run _ _ _ _ _ E1). by exists v1.
Qed.

Lemma area_ok : legal (base / 512) 3 = Ret true ∧ base / 512 + 3 ≤ lba m.
Proof. split; [|done]. apply block_free; [by vm_compute..|]. left. by vm_compute. Qed.

Context (r : Z) (inh : list partitions).
Context (laid_inh : _calculate_offset device_boot_flag m (Iptbl emmc_partition_table 2) false = Ret (r, Iptbl inh 2)).
Context (two : zlen inh = 2) (inh_at : _get_inherent_offset inh MMC_RESERVED_NAME = Ret base).

(** The first start, with a device tree, on a card with nothing on it. *)
Lemma start_blank fuel dtb e v :
  table_of_dtb device_boot_flag m (Some dtb) (Iptbl inh 2) zero_table = Ret (true, ept) →
  read_ptbl (img v base ptbl_blocks_size) = Ret (inl e) → test_block_type (img v 0 512) = -1 →
  ∃ v', device_init (S fuel) m (Some dtb) fresh v = Ret ((true, (0, mkTables inh (Some ept))), v') ∧ all_stored v'.
Proof.
  intros Hd Hr Hb. unfold device_table. cbn [inherent p_iptbl_ept]. change (zlen emmc_partition_table) with 2.
  rewrite (comp_bind_run _ _ _ _ _ (lift_run _ _ _ laid_inh)). cbn [snd it_partitions]. rewrite two.
  destruct (zalloc_ready v) as (v1 & E1 & S1). rewrite (comp_bind_run _ _ _ _ _ E1). cbn [fst snd].
  rewrite (comp_bind_run _ _ _ _ _ (lift_run _ _ _ Hd)). cbn [fst snd negb].
  rewrite bool_decide_true by done.
  destruct (zalloc_ready v1) as (v2 & E2 & S2). assert (same v v2) as S12 by by etrans.
  destruct (get_rsv_ready area_ok inh inh_at zero_table (inl e) v2) as (v3 & E3 & S3); [by rewrite (image_same m v v2)|].
  destruct (update_rsv_ready area_ok inh inh_at ept v3 wf) as (v4 & E4 & St4 & O4).
  assert (img v4 0 512 = img v 0 512) as Hi.
  { apply img_kept. intros a Ha. rewrite O4, S3, S12; [done|]. unfold MMC_RESERVED_OFFSET, SZ_1M. lia. }
  destruct (agree_blank fuel v4 St4) as (v5 & E5 & A5); [by rewrite Hi|]. exists v5. split; [|done].
  assert (agree_rsv devs key_area info_disprotect family_id (S fuel) m inh true ept v1 = Ret ((true, (0, ept)), v5)) as E.
  { unfold agree_rsv. rewrite (comp_bind_run _ _ _ _ _ E2). cbn [fst snd].
    rewrite (comp_bind_run _ _ _ _ _ E3). cbn [fst snd zero_table it_count Z.eqb negb].
    rewrite (comp_bind_run _ _ _ _ _ E4). by rewrite (comp_bind_run _ _ _ _ _ E5). }
  by rewrite (comp_bind_run _ _ _ _ _ E).
Qed.

(** A later start, without one. *)
Lemma start_stored fuel v : all_stored v → (Z.to_nat (it_count ept) ≤ fuel)%nat →
  ∃ v' t2, device_init fuel m None fresh v = Ret ((true, (0, mkTables inh (Some t2))), v')
    ∧ it_count t2 = it_count ept ∧ used t2 = used ept ∧ same v v'.
Proof.
  intros [Ht Hs] Hf. unfold device_table. cbn [inherent p_iptbl_ept]. change (zlen emmc_partition_table) with 2.
  rewrite (comp_bind_run _ _ _ _ _ (lift_run _ _ _ laid_inh)). cbn [snd it_partitions].
  destruct (zalloc_ready v) as (v1 & E1 & S1). rewrite (comp_bind_run _ _ _ _ _ E1). cbn [fst snd].
  cbn [table_of_dtb]. rewrite (comp_bind_run _ _ _ _ _ (lift_run _ _ _ eq_refl)). cbn [fst snd negb].
  destruct (zalloc_ready v1) as (v2 & E2 & S2). assert (same v v2) as S12 by by etrans.
  pose proof (used_length _ wf) as Hlen. pose proof (so_count _ sec) as Hc.
  destruct (get_rsv_ready area_ok inh inh_at zero_table (inr (used ept)) v2) as (v3 & E3 & S3).
  { rewrite (image_same m v v2) by done. rewrite Ht. by apply read_ptbl_bytes. }
  set (rsv := Iptbl _ _) in E3. set (t2 := (_cpy_iptbl zero_table rsv).2).
  assert (it_count t2 = it_count ept ∧ used t2 = used ept) as [Hc2 Hu2].
  { unfold t2, _cpy_iptbl, rsv, MAX_MMC_PART_NUM. cbn [it_count it_partitions]. rewrite Hlen.
    rewrite (proj2 (Z.ltb_ge _ _)) by lia. cbn [snd]. split; [done|]. unfold used at 1. cbn [it_count it_partitions].
    replace (Z.to_nat (it_count ept)) with (length (used ept)) by (unfold zlen in Hlen; lia).
    by rewrite take_app_length, take_app_length. }
  destruct (agree_stored fuel t2 v3) as (v4 & E4 & S4); [eapply stored_same; [|exact Hs]; by etrans|done..|].
  exists v4, t2. split; [|split; [done|]; split; [done|]; etrans; [done|]; by etrans].
  assert (agree_rsv devs key_area info_disprotect family_id fuel m inh false zero_table v1 = Ret ((true, (0, t2)), v4)) as E.
  { unfold agree_rsv. rewrite (comp_bind_run _ _ _ _ _ E2). cbn [fst snd]. rewrite (comp_bind_run _ _ _ _ _ E3).
    cbn [fst snd]. unfold rsv at 1. cbn [it_count]. rewrite Hlen, (proj2 (Z.eqb_neq _ 0)) by lia. cbn [negb].
    fold t2. by rewrite (comp_bind_run _ _ _ _ _ E4). }
  rewrite bool_decide_false by (by intros [? ?]). by rewrite (comp_bind_run _ _ _ _ _ E).
Qed.
End Stored.

(** What laying out keeps of the first partition. *)
Lemma calculate_offset_head flag t bottom t' k : 0 < it_count t → _calculate_offset flag m t bottom = Ret (k, t') →
  it_count t' = it_count t ∧ ∀ p, head (it_partitions t) = Some p →
    ∃ p', head (it_partitions t') = Some p' ∧ pt_size p' = pt_size p.
Proof.
  intros Hc E. unfold _calculate_offset in E. rewrite (proj2 (Z.leb_gt _ _)) in E by lia.
  destruct (it_partitions t) as [|part l]; [done|].
  destruct (name_is _ _) as [boot|]; [|done]. cbn [mbind run_bind] in E.
  destruct (if boot && _ then _ else _) as [name|]; [|done]. cbn [mbind run_bind] in E.
  destruct (offsets_from _ _ _ _ _ _ _) as [[l' i]|]; [|done]. cbn in E. simplify_eq.
  split; [done|]. intros p [= <-]. eexists. split; [reflexivity|done].
Qed.

Lemma compose_ept_Forall (P : partitions → Prop) dtb inh ept t :
  Forall P (it_partitions dtb) → Forall P (it_partitions inh) → Forall P (it_partitions ept) →
  compose_ept dtb inh ept = Ret t →
  Forall P (it_partitions t) ∧ length (it_partitions t) = length (it_partitions ept).
Proof. apply compose_Forall. Qed.
Lemma table_of_dtb_inv flag mc dtb inh z ept : table_of_dtb flag mc (Some dtb) inh z = Ret (true, ept) →
  ∃ t, compose_ept dtb inh z = Ret t ∧ it_count t ≠ 0
    ∧ _calculate_offset flag mc t true = Ret (0, ept).
Proof.
  unfold table_of_dtb. generalize (compose_ept dtb inh z). intros c E.
  destruct c as [t|]; [|done]. exists t. split; [done|]. revert E. cbn [mbind run_bind].
  generalize (_calculate_offset flag mc t true). intros o E.
  destruct (Z.eqb_spec (it_count t) 0) as [|Hn]; [done|].
  destruct o as [[k t']|]; [|done]. cbn in E. injection E as Hk ->.
  apply Z.eqb_eq in Hk as ->. done.
Qed.
Lemma zero_dtb_ok : Forall dtb_ok (it_partitions zero_table).
Proof. apply Forall_replicate. split; [by repeat constructor|by right]. Qed.

(** A table that comes with a device tree fits the card and its sectors. *)
Lemma dtb_table_fits dtb ept r inh :
  Forall dtb_ok (it_partitions dtb) → base + 64 * SZ_1M ≤ capacity m →
  _calculate_offset device_boot_flag m (Iptbl emmc_partition_table 2) false = Ret (r, Iptbl inh 2) →
  table_of_dtb device_boot_flag m (Some dtb) (Iptbl inh 2) zero_table = Ret (true, ept) →
  4 ≤ it_count ept < MAX_PART_COUNT → Forall (fun p => pt_offset p ≤ capacity m) (used ept) →
  (∀ p, head (it_partitions ept) = Some p → pt_size p ≤ capacity m) →
  table_wf ept ∧ sectors_ok ept.
Proof.
  intros Hd Hcap Ei E Hc Hf Hh. destruct whole as (Hm & Hw & _).
  destruct (inherent_laid device_boot_flag m) as (r' & inh' & Ei' & _ & _ & Hinh). rewrite Ei in Ei'. injection Ei' as <- <-.
  specialize (Hinh Hcap). destruct (table_of_dtb_inv _ _ _ _ _ _ E) as (t & Ec & Hn & Eo).
  destruct (compose_ept_Forall dtb_ok dtb (Iptbl inh 2) zero_table t Hd Hinh zero_dtb_ok Ec) as [Ht Hl].
  assert (0 < it_count t) as Hpos.
  { destruct (Z_le_gt_dec (it_count t) 0) as [Hle|]; [|lia]. unfold _calculate_offset in Eo.
    rewrite (proj2 (Z.leb_le _ _)) in Eo by done. done. }
  destruct (calculate_offset_head _ _ _ _ _ Hpos Eo) as [Hc' Hh'].
  destruct (dtb_table_ok device_boot_flag m t true ept) as (? & ? & _); try done.
  - unfold zlen. by rewrite Hl.
  - lia.
  - intros p Hp. destruct (Hh' p Hp) as (p' & Hp' & Hs). specialize (Hh p' Hp').
    destruct (it_partitions t) as [|p0 l]; [done|]. injection Hp as ->. apply Forall_cons in Ht as [[(_ & _ & [? _] & _) _] _]. lia.
Qed.

(** What a first start needs: a device tree [dtb] whose table is laid out on
    the card as [ept] next to the board's own partitions [inh], with the sectors
    behind the keys. *)
Record laid_out (dtb ept : _iptbl) (r : Z) (inh : list partitions) : Prop := {
  lo_dtb : Forall dtb_ok (it_partitions dtb);
  lo_room : base + 64 * SZ_1M ≤ capacity m;
  lo_inh : _calculate_offset device_boot_flag m (Iptbl emmc_partition_table 2) false = Ret (r, Iptbl inh 2);
  lo_table : table_of_dtb device_boot_flag m (Some dtb) (Iptbl inh 2) zero_table = Ret (true, ept);
  lo_count : 4 ≤ it_count ept < MAX_PART_COUNT;
  lo_on_card : Forall (fun p => pt_offset p ≤ capacity m) (used ept);
  lo_head p : head (it_partitions ept) = Some p → pt_size p ≤ capacity m;
  lo_behind p : used ept !! 2%nat = Some p → base + 0x44000 ≤ pt_offset p;
}.

(** The first start on a card with nothing on it stores the table, and a later
    one finds it. *)
Lemma first_start fuel dtb ept r inh e v : laid_out dtb ept r inh → (Z.to_nat (it_count ept) ≤ fuel)%nat →
  read_ptbl (img v base ptbl_blocks_size) = Ret (inl e) → test_block_type (img v 0 512) = -1 →
  ∃ v1, device_init fuel m (Some dtb) fresh v = Ret ((true, (0, mkTables inh (Some ept))), v1)
    ∧ all_stored ept v1.
Proof.
  intros [Hd Hcap Ei E Hc Hf Hh Hb] Hfuel Hr Hm.
  destruct (dtb_table_fits dtb ept r inh) as [wf sec]; [done..|].
  destruct (inherent_laid device_boot_flag m) as (r' & inh' & Ei' & Htwo & Hat & _). rewrite Ei in Ei'. injection Ei' as <- <-.
  destruct fuel as [|fuel]; [lia|].
  exact (start_blank ept wf sec Hf Hb r inh Ei Htwo Hat fuel dtb e v E Hr Hm).
Qed.

Lemma later_start fuel dtb ept r inh v : laid_out dtb ept r inh → (Z.to_nat (it_count ept) ≤ fuel)%nat →
  all_stored ept v →
  ∃ v' t2, device_init fuel m None fresh v = Ret ((true, (0, mkTables inh (Some t2))), v')
    ∧ it_count t2 = it_count ept ∧ used t2 = used ept ∧ same v v'.
Proof.
  intros [Hd Hcap Ei E Hc Hf Hh Hb] Hfuel Ha.
  destruct (dtb_table_fits dtb ept r inh) as [wf sec]; [done..|].
  destruct (inherent_laid device_boot_flag m) as (r' & inh' & Ei' & Htwo & Hat & _). rewrite Ei in Ei'. injection Ei' as <- <-.
  exact (start_stored ept wf sec Hf Hb r inh Ei Hat fuel v Ha Hfuel).
Qed.
End Start.
End OnCard.

(** ** An example *)

#[local] Existing Instances MmcBlock.demo_host MmcBlock.demo_heap MmcBlock.demo_laws.

Definition demo_inh : list partitions :=
  match _calculate_offset EMMC_BOOT_FLAG demo_emmc (Iptbl emmc_partition_table 2) false with
  | Ret (_, t) => it_partitions t
  | Crash _ => []
  end.
Definition demo_ept : _iptbl :=
  match table_of_dtb EMMC_BOOT_FLAG demo_emmc (Some demo_dtb) (Iptbl demo_inh 2) zero_table with
  | Ret (_, t) => t
  | Crash _ => zero_table
  end.

Lemma option_checked {A} (o : option A) (P : A → Prop) `{∀ x, Decision (P x)} :
  match o with Some x => bool_decide (P x) | None => true end = true → ∀ x, o = Some x → P x.
Proof. intros Hb x ->. by apply bool_decide_eq_true in Hb. Qed.

Lemma demo_laid_out : laid_out demo_emmc EMMC_BOOT_FLAG demo_dtb demo_ept 0 demo_inh.
Proof.
  split.
  - apply (bool_decide_unpack _). by vm_compute.
  - by vm_compute.
  - by vm_compute.
  - by vm_compute.
  - by vm_compute.
  - apply (bool_decide_unpack _). by vm_compute.
  - apply (option_checked _ (fun p => pt_size p ≤ capacity demo_emmc)). by vm_compute.
  - apply (option_checked _ (fun p => MMC_RESERVED_OFFSET + 0x44000 ≤ pt_offset p)). by vm_compute.
Qed.
