(* ===== verification/DeviceInit.v ===== *)
(** * The start of the eMMC

    [mmc_device_init] of [drivers/mmc/aml_emmc_partition.c] as a whole: the
    partition table of [PartTable], then [init_part] of [disk/part.c], then the
    start of the data store of [Idme] in the boot area, which counts the boot. *)

From S2P Require Import Prelude Idme IdmeSpec IdmeBoot MmcBlock MmcArea Sparse PartTable PartTableSpec PartTableCard PartTableStart.

(** ** The type of the partition table *)

Definition EFI_PMBR_OSTYPE_EFI_GPT : Z := 0xee.
Definition MSDOS_MBR_SIGNATURE : Z := 0xaa55.

Definition pmbr_part_valid (p : dos_partition) : bool :=
  (sys_ind p =? EFI_PMBR_OSTYPE_EFI_GPT) && (le_decode (start4 p) =? 1).
Definition is_pmbr_valid (mbr : bytes) : bool :=
  (le_decode (slice mbr 510 2) =? MSDOS_MBR_SIGNATURE)
  && existsb (fun i => pmbr_part_valid (dos_entry mbr i)) [0; 1; 2; 3].

Section Init.
Context {V : Type} `{MmcHost V} `{Heap V}.
Context (mmc_devices : list mmc) (key_area : option (Z * Z)) (info_disprotect : Z).
Context (device_boot_flag family_id : Z) (null_string : run bytes).

Notation block_read m := (mmc_bread mmc_devices key_area info_disprotect (dev m)).

Definition test_part_efi (m : mmc) : comp V Z :=
  r ← block_read m 0 1;
  mret (if negb (r.1 =? 1) || negb (is_pmbr_valid r.2) then -1 else 0).
Definition test_part_dos (m : mmc) : comp V Z :=
  r ← block_read m 0 1;
  if negb (r.1 =? 1) then mret (-1) else
  mret (if negb (test_block_type r.2 =? DOS_MBR) then -1 else 0).

(** The type it sets. *)
Definition init_part (m : mmc) : comp V part_type :=
  efi ← test_part_efi m;
  if efi =? 0 then mret PART_TYPE_EFI else
  aml ← test_part_aml mmc_devices key_area info_disprotect m true;
  if aml =? 0 then mret PART_TYPE_AML else
  dos ← test_part_dos m;
  mret (if dos =? 0 then PART_TYPE_DOS else PART_TYPE_OTHER).

#[local] Hint Extern 0 (Mmc (driver V)) => exact (driver_mmc key_area info_disprotect) : typeclass_instances.

(** The result, the tables, and the type of the partition table when it is set. *)
Definition mmc_device_init (fuel : nat) (m : mmc) (dtb : option _iptbl) (g : tables)
    : comp (IdmeState (driver V)) (Z * tables * option part_type) :=
  r ← on_card (device_table mmc_devices key_area info_disprotect device_boot_flag family_id fuel m dtb g);
  if negb r.1 then mret (r.2, None) else
  type ← on_card (init_part m);
  idme_initialize null_string idme_default_values;;
  idme_boot_info;;
  mret (r.2, Some type).
End Init.

(** ** The table leaves the boot areas alone *)

Section TableAreas.
Context {V : Type} `{MmcHost V} `{Heap V} (m : mmc) `{!CardLaws V (erase_grp_size m)} `{!AreaLaws V (erase_grp_size m)}.
Context (key_area : option (Z * Z)) (info_disprotect device_boot_flag family_id : Z).
Context (devs : list mmc) (found : find_mmc_device devs (dev m) = Some m).
Context (heap_areas : ∀ n (v : V), same_areas m v (heap_alloc n v).2).

Notation kept := (preserves (keeps_areas m)).

Lemma malloc_areas n : kept (malloc (W := V) n).
Proof.
  intros v b v' E. unfold malloc in E. pose proof (heap_areas n v) as [Hs Ha].
  destruct (heap_alloc n v) as [o v1]. injection E as <- <-. split; [done|]. intros k a _. apply Ha.
Qed.
Lemma read_areas start n : kept (mmc_bread devs key_area info_disprotect (dev m) start n).
Proof. by apply bread_areas. Qed.
Lemma write_areas start n src : kept (mmc_bwrite devs key_area info_disprotect (dev m) start n src).
Proof. by apply bwrite_areas. Qed.
#[local] Hint Resolve malloc_areas read_areas write_areas : preserves.

Lemma chain_areas fuel b c : kept (chain_from devs key_area info_disprotect fuel m b c).
Proof. revert b c. induction fuel as [|fuel IH]; intros b c; cbn [chain_from]; preserve; apply IH. Qed.
Lemma update_mbr_areas fuel t i b ret : kept (update_mbr_from devs key_area info_disprotect fuel m t i b ret).
Proof. revert i b ret. induction fuel as [|fuel IH]; intros i b ret; cbn [update_mbr_from]; preserve; apply IH. Qed.
#[local] Hint Resolve chain_areas update_mbr_areas : preserves.
Lemma agree_areas fuel t ret : kept (agree_mbr devs key_area info_disprotect family_id fuel m t ret).
Proof.
  unfold agree_mbr, _check_ptbl_mbr, _construct_ptbl_by_mbr, _update_ptbl_mbr. preserve.
Qed.
Lemma get_rsv_areas inh t : kept (get_ptbl_rsv devs key_area info_disprotect m inh t).
Proof. unfold get_ptbl_rsv, _mmc_rsv_read, null_deref. preserve. Qed.
Lemma update_rsv_areas inh t : kept (update_ptbl_rsv devs key_area info_disprotect m inh t).
Proof. unfold update_ptbl_rsv, _mmc_rsv_write, null_deref. preserve. Qed.
Lemma zalloc_areas : kept _zalloc_iptbl.
Proof. unfold _zalloc_iptbl. preserve. Qed.
#[local] Hint Resolve agree_areas get_rsv_areas update_rsv_areas zalloc_areas : preserves.

Lemma device_table_areas fuel dtb g :
  kept (device_table devs key_area info_disprotect device_boot_flag family_id fuel m dtb g).
Proof. unfold device_table, agree_rsv. preserve. Qed.
Lemma init_part_areas : kept (init_part devs key_area info_disprotect m).
Proof. unfold init_part, test_part_efi, test_part_aml, test_part_dos. preserve. Qed.
End TableAreas.

(** ** The data store at a start *)

Lemma default_values_u32 : is_u32 (zlen idme_default_values).
Proof. by vm_compute. Qed.

Section Store.
Context {V : Type} `{MmcHost V} `{Heap V} (x : device).
Notation m := (d_mmc x).
Context `{!CardLaws V (erase_grp_size m)} `{!AreaLaws V (erase_grp_size m)}.
Context (key_area : option (Z * Z)) (info_disprotect : Z).
Context (card : emmc m) (ds : list device) (found : find_device ds CFG_FASTBOOT_MMC_NO = Some x).
Context (healthy : ∀ c d (v : V), ready (send_cmd c d v).1).
Context (heap_ok : ∀ n (v : V), (heap_alloc n v).1 = true).
Context (heap_areas : ∀ n (v : V), same_areas m v (heap_alloc n v).2).
Context (areas : areas_ok x key_area info_disprotect).

#[local] Hint Extern 0 (Mmc (driver V)) => exact (driver_mmc key_area info_disprotect) : typeclass_instances.

(** A table of version 2.1 that has counted [n] boots. *)
Definition counted (buf : bytes) (n : Z) : Prop := ∃ es e,
  idme_repr buf es ∧ slice buf IDME_VERSION_OFF 3 = IDME_VERSION_2P1
  ∧ get_entry (str "bootcount") es = Some e ∧ IdmeSpec.e_data e = counter_data n.

Lemma version_slice (buf buf' : bytes) : slice buf 0 IDME_ITEM_DATA_OFF = slice buf' 0 IDME_ITEM_DATA_OFF →
  slice buf IDME_VERSION_OFF 3 = slice buf' IDME_VERSION_OFF 3.
Proof.
  intros E. assert (∀ b : bytes, slice b IDME_VERSION_OFF 3 = slice (slice b 0 IDME_ITEM_DATA_OFF) IDME_VERSION_OFF 3) as Hs.
  { intros b. unfold slice. rewrite drop_0. change (Z.to_nat IDME_ITEM_DATA_OFF) with (8 + 8)%nat.
    change (Z.to_nat IDME_VERSION_OFF) with 8%nat. rewrite <- take_drop_commute, take_take. done. }
  by rewrite (Hs buf), (Hs buf'), E.
Qed.
Lemma version_slice_4 (buf buf' : bytes) : slice buf IDME_VERSION_OFF 4 = slice buf' IDME_VERSION_OFF 4 →
  slice buf IDME_VERSION_OFF 3 = slice buf' IDME_VERSION_OFF 3.
Proof.
  intros E. apply (f_equal (take 3)) in E. unfold slice in *. rewrite !take_take in E. exact E.
Qed.

(** The functions for that version are selected. *)
Lemma select_2p1 buf (st : IdmeState (driver V)) : slice buf IDME_VERSION_OFF 3 = IDME_VERSION_2P1 →
  select_version idme_ver_table (drop (Z.to_nat IDME_VERSION_OFF) buf) st
  = Ret (tt, mkIdme (gidme_buff st) (pidme_set st) true (Idme.mmc st)).
Proof.
  intros Hv. unfold slice in Hv.
  rewrite <- (take_drop (Z.to_nat 3) (drop (Z.to_nat IDME_VERSION_OFF) buf)), Hv. reflexivity.
Qed.

Definition at_power_on (v : V) : IdmeState (driver V) :=
  mkIdme (replicate (Z.to_nat CONFIG_IDME_SIZE) 0) false false (mkDriver ds v).

(** The count of a migrated table is the one it had. *)
Definition bootcount_default : idme_init_values := item "bootcount" 8 1 (Some (str "0")).
Lemma migrate_counted nb es e n buf : get_entry (str "bootcount") es = Some e → IdmeSpec.e_data e = counter_data n →
  idme_repr buf (migrate nb es <$> idme_default_values) → slice buf IDME_VERSION_OFF 3 = IDME_VERSION_2P1 →
  counted buf n.
Proof.
  intros Hg Hd Hr Hv. exists (migrate nb es <$> idme_default_values), (migrate nb es bootcount_default).
  split; [done|]. split; [done|].
  split.
  - apply (get_entry_migrate nb es idme_default_values bootcount_default default_values_distinct).
    unfold idme_default_values. set_solver.
  - unfold migrate. change (desc_name (init_desc bootcount_default)) with (str "bootcount"). rewrite Hg.
    unfold resized. cbn [IdmeSpec.e_data]. unfold e_size. rewrite Hd, zlen_counter. cbn [Z.leb Z.compare desc_size init_desc bootcount_default item].
    rewrite drop_ge; [apply app_nil_r|]. pose proof (zlen_counter n) as Hz. unfold zlen in Hz.
    assert (length (default_data nb bootcount_default) = 8%nat) as -> by done. lia.
Qed.

(** [idme_initialize] finds the table, and stores it again where the template
    of the build asks for more. *)
Lemma initialize_ready nb v n : selected v = 0 → counted (store_image x v) n →
  ∃ buf v', idme_initialize (Ret nb) idme_default_values (at_power_on v) = Ret (0, mkIdme buf true true (mkDriver ds v'))
    ∧ counted buf n ∧ only_store x v v' ∧ store_image x v' = buf.
Proof.
  intros Hv Hc. pose proof Hc as (es & e & Hr & Hver & Hg & Hd).
  destruct (platform_read_ready x key_area info_disprotect card ds found healthy areas
    (replicate (Z.to_nat CONFIG_IDME_SIZE) 0) false false v Hv) as (v1 & E1 & S1 & A1).
  { rewrite zlen_replicate. apply Z2Nat.id. discriminate. }
  set (buf := store_image x v) in *.
  assert (store_image x v1 = buf) as Hs1 by (apply list_fmap_ext; intros; apply A1).
  pose proof (heap_ok CONFIG_IDME_SIZE v1) as Ho. pose proof (heap_areas CONFIG_IDME_SIZE v1) as [S2 A2].
  destruct (heap_alloc CONFIG_IDME_SIZE v1) as [ok v2] eqn:Eh. cbn in Ho, S2, A2. subst ok.
  assert (heap_alloc CONFIG_IDME_SIZE (mkIdme buf true true (mkDriver ds v1)) = (true, mkIdme buf true true (mkDriver ds v2))) as Eh'.
  { unfold heap_alloc at 1, idme_heap. cbn [Idme.mmc host]. by rewrite Eh. }
  assert (∀ r st, idme_update_table_v2p0 (Ret nb) idme_default_values (Some buf) (mkIdme buf true true (mkDriver ds v1)) = Ret (r, st) →
    idme_initialize (Ret nb) idme_default_values (at_power_on v)
    = match r with
      | (0, Some b) => (set_buff b;; rc ← idme_platform_write; mret (if negb (rc =? 0) then -1 else 0)) st
      | _ => Ret (0, st)
      end) as Hrun.
  { intros r st Eu. unfold idme_initialize, mbind, comp_bind, get_idme, at_power_on. cbn [pidme_set].
    unfold set_buff at 1. cbn [gidme_buff pidme_set v2_functions Idme.mmc]. rewrite E1. cbn [Z.eqb negb].
    unfold set_pidme, pidme_data. cbn [gidme_buff pidme_set v2_functions Idme.mmc].
    rewrite (lift_run _ _ _ (magic_present buf (proj1 (proj2 Hr)))). cbn [Z.eqb]. unfold mret at 1, comp_ret at 1.
    cbn [gidme_buff]. rewrite (select_2p1 buf _ Hver). cbn [gidme_buff pidme_set v2_functions Idme.mmc andb].
    rewrite Eu. destruct r as [[| |] [b|]]; reflexivity. }
  destruct (update_table_repr nb idme_default_values default_values_wf default_values_u32 default_values_fit buf es _ _ Hr Hver Eh')
    as [(new & Eu & Hnew & Hnv)|(Eu & _)].
  - rewrite (Hrun _ _ Eu). unfold mbind, comp_bind, set_buff. cbn [gidme_buff pidme_set v2_functions Idme.mmc].
    destruct (platform_write_ready x key_area info_disprotect card ds found healthy areas new true v2) as (v3 & E3 & I3 & O3);
      [congruence|apply Hnew|].
    rewrite E3. exists new, v3. split; [done|]. split; [|split; [|done]].
    + eapply migrate_counted; [exact Hg|exact Hd|exact Hnew|]. by rewrite (version_slice_4 new buf).
    + etrans; [|exact O3]. split; [congruence|]. intros k a _. by rewrite A2, A1.
  - rewrite (Hrun _ _ Eu). exists buf, v2. split; [done|]. split; [done|]. split.
    + split; [congruence|]. intros k a _. by rewrite A2, A1.
    + rewrite <- Hs1. apply list_fmap_ext. intros. apply A2.
Qed.

(** The whole start: one more boot is counted, on the card. *)
Lemma store_starts nb v n : selected v = 0 → counted (store_image x v) n → 0 ≤ n < 99999999 →
  ∃ st v', (idme_initialize (Ret nb) idme_default_values;; idme_boot_info) (at_power_on v) = Ret (tt, st)
    ∧ Idme.mmc st = mkDriver ds v' ∧ counted (store_image x v') (n + 1) ∧ only_store x v v'.
Proof.
  intros Hv Hc Hn. destruct (initialize_ready nb v n Hv Hc) as (buf & v1 & E1 & (es & e & Hr & Hver & Hg & Hd) & O1 & I1).
  destruct (boot_info_writes (mkIdme buf true true (mkDriver ds v1)) es e n eq_refl eq_refl Hr Hg Hd Hn)
    as (b & Hb & Hbv & Hw). cbn [Idme.mmc gidme_buff] in Hw, Hbv.
  destruct (platform_write_ready x key_area info_disprotect card ds found healthy areas b true v1) as (v2 & E2 & I2 & O2);
    [rewrite (proj1 O1); done|apply Hb|].
  eexists _, v2. split; [unfold mbind, comp_bind; rewrite E1; exact (Hw _ _ E2)|]. split; [done|]. split; [|by etrans].
  rewrite I2. eexists _, _. split; [exact Hb|]. split; [by rewrite (version_slice b buf)|].
  rewrite get_set_entry.
  2: { intros e' He'. rewrite zlen_counter. unfold e_size. simplify_eq. by rewrite Hd, zlen_counter. }
  rewrite bool_decide_true, Hg by done. split; reflexivity.
Qed.
End Store.

(** ** Starting and starting again *)

Section Start.
Context {V : Type} `{MmcHost V} `{Heap V} (x : device).
Notation m := (d_mmc x).
Context `{!CardLaws V (erase_grp_size m)} `{!AreaLaws V (erase_grp_size m)}.
Context (key_area : option (Z * Z)) (info_disprotect device_boot_flag family_id : Z) (ds : list device) (nb : bytes).
Notation devs := (d_mmc <$> ds).
#[local] Hint Extern 0 (Mmc (driver V)) => exact (driver_mmc key_area info_disprotect) : typeclass_instances.

(** A board with a working eMMC: it answers every command, memory does not run
    out, the keys lie behind the table of the reserved area, and the data store
    has its place in the boot area. *)
Record working : Prop := {
  wk_card : emmc m;
  wk_found : find_device ds CFG_FASTBOOT_MMC_NO = Some x;
  wk_healthy c d (v : V) : ready (send_cmd c d v).1;
  wk_heap n (v : V) : (heap_alloc n v).1 = true;
  wk_heap_areas n (v : V) : same_areas m v (heap_alloc n v).2;
  wk_keys : key_area = Some (MMC_RESERVED_OFFSET + 0x4000, 0x40000);
  wk_tsd : aml_is_emmc_tsd m = true;
  wk_gxl : MESON_CPU_MAJOR_ID_GXL ≤ family_id;
  wk_whole : capacity m mod 512 = 0 ∧ 0 ≤ capacity m < 2 ^ 40 ∧ capacity m ≤ lba m * 512;
  wk_blocks : MMC_RESERVED_OFFSET / 512 + 3 ≤ lba m;
  wk_areas : areas_ok x key_area info_disprotect;
}.
Context (wk : working).

Lemma wk_devs : find_mmc_device devs (dev m) = Some m.
Proof. rewrite find_device_mmc, (found_dev x ds (wk_found wk)), (wk_found wk). done. Qed.
Lemma wk_heap_disk n (v : V) a : disk (heap_alloc n v).2 a = disk v a.
Proof. exact (same_areas_disk m _ _ (wk_heap_areas wk n v) a). Qed.

(** The stored table is of Amlogic's type. *)
Lemma mbr_not_efi t size : is_pmbr_valid (mbr t size) = false.
Proof.
  unfold is_pmbr_valid. cbn [existsb].
  assert (dos_entry (mbr t size) 0 = primary t 0) as -> by by apply (dos_entry_of _ _ _ _ _ 0).
  assert (dos_entry (mbr t size) 1 = primary t 1) as -> by by apply (dos_entry_of _ _ _ _ _ 1).
  assert (dos_entry (mbr t size) 2 = primary t 2) as -> by by apply (dos_entry_of _ _ _ _ _ 2).
  assert (dos_entry (mbr t size) 3 = externed t size) as -> by by apply (dos_entry_of _ _ _ _ _ 3).
  by rewrite andb_false_r.
Qed.
Lemma image_slice v lo n k : 0 ≤ k ≤ n → slice (image m v lo n) 0 k = image m v lo k.
Proof.
  intros Hk. unfold slice, image. rewrite drop_0, <- fmap_take, take_seq. do 2 f_equal. lia.
Qed.
Lemma init_part_ready ept v : all_stored m ept v →
  ∃ v', init_part devs key_area info_disprotect m v = Ret (PART_TYPE_AML, v') ∧ same_disk m v v'.
Proof.
  intros [Ht [[size Hm] _]]. pose proof (wk_blocks wk) as Hb. change (MMC_RESERVED_OFFSET / 512) with 73728 in Hb.
  assert (∀ b, b = 0 ∨ b = AML_MPT_OFFSET → ok_block m key_area info_disprotect b) as Hok.
  { intros b Hc. unfold AML_MPT_OFFSET in Hc. split; [lia|]. split; [lia|].
    apply (block_free m _ _ (wk_keys wk) (wk_tsd wk)); [lia..|]. left. change (MMC_RESERVED_OFFSET / 512) with 73728. lia. }
  destruct (read_block m key_area info_disprotect (wk_card wk) devs wk_devs (wk_healthy wk) 0 v (Hok 0 (or_introl eq_refl)))
    as (v1 & E1 & S1). change (0 * 512) with 0 in E1. rewrite Hm in E1.
  destruct (read_block m key_area info_disprotect (wk_card wk) devs wk_devs (wk_healthy wk) AML_MPT_OFFSET v1
    (Hok AML_MPT_OFFSET (or_intror eq_refl))) as (v2 & E2 & S2). rewrite (image_same m v v1) in E2 by done.
  exists v2. split; [|by etrans].
  assert (test_part_efi devs key_area info_disprotect m v = Ret (-1, v1)) as F1.
  { unfold test_part_efi. rewrite (comp_bind_run _ _ _ _ _ E1). cbn [fst snd]. by rewrite mbr_not_efi. }
  assert (slice (image m v (AML_MPT_OFFSET * 512) 512) 0 3 = str "MPT") as Hmpt.
  { change (AML_MPT_OFFSET * 512) with MMC_RESERVED_OFFSET. rewrite image_slice by lia.
    rewrite <- (image_slice v MMC_RESERVED_OFFSET ptbl_blocks_size 3) by (split; by vm_compute).
    unfold table_stored in Ht. rewrite Ht. reflexivity. }
  assert (test_part_aml devs key_area info_disprotect m true v1 = Ret (0, v2)) as F2.
  { unfold test_part_aml. cbn [negb]. rewrite (comp_bind_run _ _ _ _ _ E2). cbn [fst snd Z.eqb Pos.eqb negb]. by rewrite Hmpt. }
  unfold init_part. rewrite (comp_bind_run _ _ _ _ _ F1). cbn [Z.eqb]. by rewrite (comp_bind_run _ _ _ _ _ F2).
Qed.

(** What a start comes down to: the table, and then the data store. *)
Lemma device_init_ready fuel dtb g inh t v v1 n :
  device_table devs key_area info_disprotect device_boot_flag family_id fuel m dtb g v
    = Ret ((true, (0, mkTables inh (Some t))), v1) →
  selected v = 0 → counted (store_image x v) n → 0 ≤ n < 99999999 →
  (∃ ept, all_stored m ept v1) →
  ∃ st v2, mmc_device_init devs key_area info_disprotect device_boot_flag family_id (Ret nb) fuel m dtb g (at_power_on ds v)
      = Ret ((0, mkTables inh (Some t), Some PART_TYPE_AML), st)
    ∧ Idme.mmc st = mkDriver ds v2 ∧ counted (store_image x v2) (n + 1)
    ∧ same_disk m v1 v2 ∧ selected v2 = 0
    ∧ (same_disk m v v1 → only_store x v v2).
Proof.
  intros E1 Hv Hc Hn [ept Hst]. destruct (init_part_ready ept v1 Hst) as (v2 & E2 & S2).
  pose proof (device_table_areas m key_area info_disprotect device_boot_flag family_id devs wk_devs
    (wk_heap_areas wk) fuel dtb g _ _ _ E1) as K1.
  assert (same_areas m v1 v2) as A2.
  { apply same_areas_of; [|done]. exact (init_part_areas m key_area info_disprotect devs wk_devs _ _ _ E2). }
  assert (selected v2 = 0) as Hv2 by (rewrite (proj1 A2), (proj1 K1); done).
  assert (store_image x v2 = store_image x v) as Hi.
  { apply list_fmap_ext. intros i y _. rewrite (proj2 A2). apply (proj2 K1). by rewrite Hv. }
  destruct (store_starts x key_area info_disprotect (wk_card wk) ds (wk_found wk) (wk_healthy wk) (wk_heap wk)
    (wk_heap_areas wk) (wk_areas wk) nb v2 n Hv2 ltac:(by rewrite Hi) Hn) as (st & v3 & E3 & Hd & Hc3 & O3).
  exists st, v3. split; [|split; [done|]; split; [done|]; split; [|split]].
  - unfold mmc_device_init. assert (on_card (device_table devs key_area info_disprotect device_boot_flag family_id fuel m dtb g)
      (at_power_on ds v) = Ret ((true, (0, mkTables inh (Some t))), at_power_on ds v1)) as F1
      by (unfold on_card, at_power_on; cbn [Idme.mmc host]; by rewrite E1).
    rewrite (comp_bind_run _ _ _ _ _ F1). cbn [fst snd negb].
    assert (on_card (init_part devs key_area info_disprotect m) (at_power_on ds v1) = Ret (PART_TYPE_AML, at_power_on ds v2)) as F2
      by (unfold on_card, at_power_on; cbn [Idme.mmc host]; by rewrite E2).
    rewrite (comp_bind_run _ _ _ _ _ F2). revert E3. unfold mbind, comp_bind.
    generalize (idme_initialize (Ret nb) idme_default_values (at_power_on ds v2)). intros o E3.
    destruct o as [[rc s]|]; [|done]. by rewrite E3.
  - etrans; [exact S2|]. exact (only_store_disk x _ _ Hv2 O3).
  - rewrite (proj1 O3). done.
  - intros Hs. etrans; [|exact O3]. assert (same_areas m v v2) as [Sa Aa].
    { etrans; [|exact A2]. by apply same_areas_of. }
    split; [done|]. intros k a _. apply Aa.
Qed.

(** C16: the first start with a device tree on an eMMC without a partition
    table lays out its partitions, stores the table in the reserved area and
    writes the sectors of MBR and EBR.  Every later start without a device tree
    finds the same table and reports success; it changes nothing on the card but
    the data store in the boot area, where each start counts one boot more.  The
    partition table is found to be Amlogic's at both. *)
Theorem table_survives_restart fuel dtb ept r inh e v n :
  laid_out m device_boot_flag dtb ept r inh → (Z.to_nat (it_count ept) ≤ fuel)%nat →
  read_ptbl (image m v MMC_RESERVED_OFFSET ptbl_blocks_size) = Ret (inl e) → test_block_type (image m v 0 512) = -1 →
  selected v = 0 → counted (store_image x v) n → 0 ≤ n < 99999998 →
  let start dtb v := mmc_device_init devs key_area info_disprotect device_boot_flag family_id (Ret nb) fuel m dtb
                       (mkTables emmc_partition_table None) (at_power_on ds v) in
  ∃ st1 v1, start (Some dtb) v = Ret ((0, mkTables inh (Some ept), Some PART_TYPE_AML), st1)
    ∧ Idme.mmc st1 = mkDriver ds v1 ∧ counted (store_image x v1) (n + 1)
    ∧ ∃ t2 st2 v2, start None v1 = Ret ((0, mkTables inh (Some t2), Some PART_TYPE_AML), st2)
        ∧ it_count t2 = it_count ept ∧ used t2 = used ept
        ∧ Idme.mmc st2 = mkDriver ds v2 ∧ counted (store_image x v2) (n + 2) ∧ only_store x v1 v2.
Proof.
  intros Hlo Hf Hr Hb Hv Hc Hn start.
  destruct (first_start m key_area info_disprotect (wk_card wk) devs wk_devs (wk_healthy wk) wk_heap_disk (wk_heap wk)
    (wk_keys wk) (wk_tsd wk) device_boot_flag family_id (wk_gxl wk) (wk_whole wk) (wk_blocks wk)
    fuel dtb ept r inh e v Hlo Hf Hr Hb) as (u1 & E1 & Hst).
  destruct (device_init_ready fuel (Some dtb) _ inh ept v u1 n E1 Hv Hc ltac:(lia) (ex_intro _ ept Hst))
    as (st1 & v1 & F1 & D1 & C1 & S1 & Hv1 & _).
  exists st1, v1. split; [exact F1|]. split; [done|]. split; [done|].
  pose proof (all_stored_same m ept _ _ S1 Hst) as Hst1.
  destruct (later_start m key_area info_disprotect (wk_card wk) devs wk_devs (wk_healthy wk) wk_heap_disk (wk_heap wk)
    (wk_keys wk) (wk_tsd wk) device_boot_flag family_id (wk_gxl wk) (wk_whole wk) (wk_blocks wk)
    fuel dtb ept r inh v1 Hlo Hf Hst1) as (u2 & t2 & E2 & Hc2 & Hu2 & S2).
  destruct (device_init_ready fuel None _ inh t2 v1 u2 (n + 1) E2 Hv1 C1 ltac:(lia)
    (ex_intro _ ept (all_stored_same m ept _ _ S2 Hst1))) as (st2 & v2 & F2 & D2 & C2 & _ & _ & O2).
  exists t2, st2, v2. split; [exact F2|]. split_and!; [done|done|done| |by apply O2].
  by replace (n + 2) with (n + 1 + 1) by lia.
Qed.
End Start.

(** ** An example *)

(** A card with areas that keeps what it is told. *)
Record area_card := mkAreas {
  ac_area : Z → Z → Z;
  ac_selected : Z;
  ac_start : Z;
  ac_end : Z;
}.
Definition set_area (v : area_card) (d : Z → Z) : area_card :=
  mkAreas (fun k => if k =? ac_selected v then d else ac_area v k) (ac_selected v) (ac_start v) (ac_end v).
Definition area_send (c : mmc_cmd) (d : mmc_data) (v : area_card) : mmc_reply * area_card :=
  let ok (dest : bytes) := mkReply 0 0x900 dest in
  let disk := ac_area v (ac_selected v) in
  match d with
  | WriteData s => (ok [], set_area v (over disk (cmdarg c * 512) s))
  | ReadData n => (ok ((fun i => disk (cmdarg c * 512 + Z.of_nat i)) <$> seq 0 (Z.to_nat n)), v)
  | NoData =>
      if cmdidx c =? MMC_CMD_ERASE_GROUP_START then
        (ok [], mkAreas (ac_area v) (ac_selected v) (cmdarg c) (ac_end v))
      else if cmdidx c =? MMC_CMD_ERASE_GROUP_END then
        (ok [], mkAreas (ac_area v) (ac_selected v) (ac_start v) (cmdarg c))
      else if cmdidx c =? MMC_CMD_ERASE then
        (ok [], set_area v (fun a => if (ac_start v / demo_unit * demo_unit * 512 <=? a)
                                        && (a <? (ac_end v / demo_unit + 1) * demo_unit * 512)
                                     then 255 else disk a))
      else if cmdidx c =? MMC_CMD_SWITCH then
        (ok [], mkAreas (ac_area v) (Z.land (Z.shiftr (cmdarg c) 8) PART_ACCESS_MASK) (ac_start v) (ac_end v))
      else (ok [], v)
  end.
#[local] Instance area_host : MmcHost area_card := area_send.
#[local] Instance area_heap : Heap area_card := fun _ v => (true, v).
Definition area_view (v : area_card) : Z → Z := ac_area v (ac_selected v).
Lemma set_area_view v d : area_view (set_area v d) = d.
Proof. unfold area_view, set_area. cbn. by rewrite Z.eqb_refl. Qed.

#[local] Instance area_card_laws : CardLaws area_card demo_unit.
Proof.
  refine {| disk := area_view; group_start := ac_start; group_end := ac_end; erased_byte := 255 |}.
  - intros idx arg d v _. unfold send_cmd, area_host, area_send. cbn zeta. rewrite set_area_view. split; [|done]. intros a Ha. by apply over_out.
  - intros idx arg n v _. done.
  - intros s v. done.
  - intros e v. done.
  - intros arg v. unfold send_cmd, area_host, area_send. cbn [cmdidx cmdarg]. cbn [MMC_CMD_ERASE MMC_CMD_ERASE_GROUP_START MMC_CMD_ERASE_GROUP_END Z.eqb Pos.eqb].
    cbn zeta. rewrite set_area_view. split.
    + intros a Ha. destruct (Z.leb_spec (ac_start v / demo_unit * demo_unit * 512) a),
        (Z.ltb_spec a ((ac_end v / demo_unit + 1) * demo_unit * 512)); try done. lia.
    + intros _ a Ha. by rewrite (proj2 (Z.leb_le _ _)), (proj2 (Z.ltb_lt _ _)) by lia.
  - intros idx arg v Hi. destruct Hi as [->|[->| ->]]; done.
Defined.

Lemma switch_selects value : 0 ≤ value < 256 →
  Z.land (Z.shiftr (switch_arg EXT_CSD_PART_CONF value) 8) PART_ACCESS_MASK = Z.land value PART_ACCESS_MASK.
Proof.
  intros Hv. unfold switch_arg. rewrite Z.shiftr_lor, Z.shiftr_shiftl_l, Z.shiftl_0_r by lia.
  rewrite Z.land_lor_distr_l. reflexivity.
Qed.
#[local] Instance area_card_areas : AreaLaws area_card demo_unit.
Proof.
  refine {| selected := ac_selected; area := ac_area |}.
  - done.
  - intros c d v Hc. unfold send_cmd, area_host, area_send.
    assert (∀ d', (∀ k a, k ≠ ac_selected v → ac_area (set_area v d') k a = ac_area v k a)) as Hk.
    { intros d' k a Hk. cbn. by rewrite (proj2 (Z.eqb_neq _ _) Hk). }
    destruct d; [|by split; [|apply Hk]|done].
    destruct (_ =? _); [done|]. destruct (_ =? _); [done|]. destruct (_ =? _); [by split; [|apply Hk]|].
    by rewrite (proj2 (Z.eqb_neq _ _) Hc).
  - intros value v Hv. split; [done|]. intros _. by apply switch_selects.
Defined.

Definition area_device : device := mkDevice demo_emmc 0x48 0x100000000 0x400000 0x400000 [].
Definition area_keys : option (Z * Z) := Some (MMC_RESERVED_OFFSET + 0x4000, 0x40000).

Lemma area_working : working area_device area_keys DISPROTECT_KEY 0x2f [area_device].
Proof.
  split.
  - exact demo_is_emmc.
  - done.
  - intros c d v. unfold send_cmd, area_host, area_send. destruct d; [|done..]. by repeat case_match.
  - done.
  - done.
  - done.
  - done.
  - by vm_compute.
  - split; [by vm_compute|]. split; by vm_compute.
  - by vm_compute.
  - split; [done|by vm_compute|done|done].
Qed.

(** A card from the factory: a data store, and nothing in the user area. *)
Definition factory (buf : bytes) : area_card :=
  mkAreas (fun k => if k =? CONFIG_IDME_PARTITION_NUM then over (fun _ => 0) (store_at area_device) buf else fun _ => 0) 0 0 0.
Lemma factory_store buf : zlen buf = CONFIG_IDME_SIZE → store_image area_device (factory buf) = buf.
Proof.
  intros Hb. unfold store_image. rewrite <- Hb. unfold zlen. rewrite Nat2Z.id. apply list_eq. intros i. rewrite list_lookup_fmap.
  destruct (decide (i < length buf)%nat) as [Hi|Hi].
  - rewrite lookup_seq_lt by done. cbn [fmap option_fmap option_map]. cbn [area area_card_areas ac_area factory].
    rewrite Z.eqb_refl, over_in by (unfold zlen; lia). replace (Z.to_nat _) with i by lia.
    symmetry. by apply list_lookup_lookup_total_lt.
  - by rewrite lookup_seq_ge, lookup_ge_None_2 by lia.
Qed.
Lemma default_counted : ∃ buf, zlen buf = CONFIG_IDME_SIZE ∧ counted buf 0.
Proof.
  destruct default_table as (buf & Hr & Hv). exists buf. split; [apply Hr|].
  exists (default_entry [] <$> idme_default_values), (default_entry [] bootcount_default).
  split; [done|]. split; [done|]. split; reflexivity.
Qed.

Lemma table_survives_restart_witness : ∃ v,
  let start dtb v := mmc_device_init [demo_emmc] area_keys DISPROTECT_KEY EMMC_BOOT_FLAG 0x2f (Ret []) 6 demo_emmc dtb
                       (mkTables emmc_partition_table None) (at_power_on [area_device] v) in
  ∃ st1 v1, start (Some demo_dtb) v = Ret ((0, mkTables demo_inh (Some demo_ept), Some PART_TYPE_AML), st1)
    ∧ Idme.mmc st1 = mkDriver [area_device] v1 ∧ counted (store_image area_device v1) 1
    ∧ ∃ t2 st2 v2, start None v1 = Ret ((0, mkTables demo_inh (Some t2), Some PART_TYPE_AML), st2)
        ∧ it_count t2 = it_count demo_ept ∧ used t2 = used demo_ept
        ∧ Idme.mmc st2 = mkDriver [area_device] v2 ∧ counted (store_image area_device v2) 2
        ∧ only_store area_device v1 v2.
Proof.
  destruct default_counted as (buf & Hb & Hc). exists (factory buf).
  refine (table_survives_restart area_device area_keys DISPROTECT_KEY EMMC_BOOT_FLAG 0x2f [area_device] [] area_working
    6 demo_dtb demo_ept 0 demo_inh (-4) (factory buf) 0 demo_laid_out _ _ _ eq_refl _ _).
  - vm_compute. lia.
  - clear. by vm_compute.
  - clear. by vm_compute.
  - by rewrite factory_store.
  - lia.
Defined.
