(* ===== verification/PartTableFlash.v ===== *)
(** * Flashing by name

    Fastboot finds a partition in the table of the eMMC, and the table keeps
    partitions apart: what is flashed to one leaves the others alone.  Then the
    cases in which the table goes wrong. *)

From S2P Require Import Prelude MmcBlock Sparse SparseSpec PartTable PartTableSpec PartTableCard PartTableStart.

Lemma index_from_lookup tbl n k name j p : index_from tbl n k name = Ret (Some (j, p)) →
  ∃ i, j = k + Z.of_nat i ∧ (i < n)%nat ∧ tbl !! i = Some p.
Proof.
  revert tbl k. induction n as [|n IH]; intros [|x tbl] k E; try done. cbn [index_from] in E.
  destruct (name_is x name) as [eq|]; [|done]. cbn [mbind run_bind] in E. destruct eq.
  - injection E as <- <-. exists 0%nat. split; [lia|]. split; [lia|done].
  - apply IH in E as (i & -> & Hi & Hl). exists (S i). split; [lia|]. split; [lia|done].
Qed.

(** What the table says of a name it knows. *)
Lemma info_of_index family_id g t blksz virtual name i :
  p_iptbl_ept g = Some t → _get_part_index_by_name (it_partitions t) (it_count t) name = Ret (Z.of_nat i) →
  ∃ p, it_partitions t !! i = Some p ∧ Z.of_nat i < it_count t
    ∧ get_part_info_by_name family_id g blksz virtual name = Ret (Some (for_bootloader family_id (disk_part blksz p))).
Proof.
  intros Hg E. unfold _get_part_index_by_name in E.
  destruct (index_from _ _ 0 name) as [[[j p]|]|] eqn:Ei; [|by cbn in E; injection E; lia|done].
  cbn in E. injection E as ->. pose proof (index_from_lookup _ _ _ _ _ _ Ei) as (k & Hk & Hlt & Hl).
  assert (k = i) as -> by lia. exists p. split; [done|]. split; [lia|].
  unfold get_part_info_by_name, find_mmc_partition_by_name, _find_partition_by_name. by rewrite Hg, Ei.
Qed.

Section Flash.
Context {V : Type} `{BlockDev V} `{Heap V} `{!DiskLaws V} `{!Partitions V}.
Context (heap_disk : ∀ n v a, on_disk (heap_alloc n v).2 a = on_disk v a).

(** C9: with the table of the eMMC behind the names, of 4 to 31 partitions of
    whole blocks, in order and with the reserved gaps between them, flashing a
    partition behind the first, other than "mbr" and "bootloader*", with any
    image and whatever the answer changes no byte of any other partition; the
    number of chunks of a sparse image times its largest step is below 2^63. *)
Theorem flash_keeps_partitions family_id stale virtual g t cmd i buffer n (w w' : Flash V) r :
  is_aml_or_dos = true →
  get_part_info_by_name family_id g 512 virtual cmd = Ret (get_partition_info_aml_by_name cmd) →
  p_iptbl_ept g = Some t → sectors_ok t →
  _get_part_index_by_name (it_partitions t) (it_count t) cmd = Ret (Z.of_nat i) → (0 < i)%nat →
  cmd ≠ CONFIG_FASTBOOT_MBR_NAME → has_prefix cmd (str "bootloader") = false → bytes_ok buffer →
  (∀ h, is_sparse_image buffer = Ret true → read_sparse_header buffer = Ret h →
    total_chunks h * chunk_step h < 2 ^ 63) →
  fb_mmc_flash_write stale cmd buffer n w = Ret (r, w') →
  ∀ j q a, j ≠ i → used t !! j = Some q → pt_offset q ≤ a < pt_offset q + pt_size q →
    disk_of w' a = disk_of w a.
Proof.
  intros Ht Haml Hg ok Hidx Hi Hm Hbl Hb Hstep E j q a Hji Hq Ha.
  destruct (info_of_index family_id g t 512 virtual cmd i Hg Hidx) as (p & Hp & Hic & Einfo).
  rewrite Einfo in Haml. injection Haml as Haml. symmetry in Haml.
  assert (it_partitions t !!! i = p) as Hpi by by apply list_lookup_total_correct.
  destruct (part_blocks t ok i Hic) as (o & s & Ho & Hs & Hor & Hsr). rewrite Hpi in Ho, Hs.
  pose proof (blk_spec t ok i ltac:(lia) Hic) as [Hoff Hblk]. rewrite Hpi in Hoff.
  assert (for_bootloader family_id (disk_part 512 p) = mkPart o s 512) as Hinfo.
  { unfold for_bootloader, disk_part. cbn [p_start p_size]. rewrite Ho, Hs, !Z.div_mul by done.
    by rewrite (proj2 (Z.eqb_neq o 0)) by lia. }
  rewrite Hinfo in Haml. unfold used in Hq. apply lookup_take_Some in Hq as [Hq Hjc].
  assert (it_partitions t !!! j = q) as Hqj by by apply list_lookup_total_correct.
  apply (flash_within heap_disk stale cmd (mkPart o s 512) buffer n w w' r);
    [done|done|done|done|done|cbn [p_start]; lia|cbn [p_size]; lia|cbn [p_start p_size]; lia|done| |exact E|].
  - intros h H1 H2. specialize (Hstep h H1 H2). cbn [p_start]. lia.
  - cbn [p_start p_size]. assert (0 < PARTITION_RESERVED) by done.
    destruct (decide (i < j)%nat) as [Hlt|Hge].
    + pose proof (part_apart t ok i j Hlt ltac:(lia)) as Hap. rewrite Hpi, Hqj in Hap. lia.
    + pose proof (part_apart t ok j i ltac:(lia) Hic) as Hap. rewrite Hpi, Hqj in Hap. lia.
Qed.
End Flash.

(** ** The chain of sectors *)

(** The entries of a sector: how many partitions they name, and the sector the
    last link among them leads to. *)
Definition names_partition (e : dos_partition) : bool :=
  ((boot_ind e =? 0) || (boot_ind e =? 0x80)) && (sys_ind e =? 0x83).
Definition is_link (e : dos_partition) : bool := (boot_ind e =? 0) && (sys_ind e =? 0x05).
Definition entries (buffer : bytes) : list dos_partition := dos_entry buffer <$> [0; 1; 2; 3].
Fixpoint named (es : list dos_partition) : Z :=
  match es with [] => 0 | e :: es => (if names_partition e then 1 else 0) + named es end.
Definition link_of (es : list dos_partition) (start : Z) : Z :=
  foldl (fun x e => if is_link e then u64 (le32_to_int (start4 e)) else x) start es.

Fixpoint take_list (flag : bool) (read_offset : Z) (es : list dos_partition) (c : chain) : run chain :=
  match es with
  | [] => Ret c
  | e :: es => c ← take_entry flag read_offset e c; take_list flag read_offset es c
  end.

Lemma named_nonneg es : 0 ≤ named es.
Proof. induction es as [|e es IH]; cbn [named]; [lia|]. destruct (names_partition e); lia. Qed.

(** A sector fills the array of thirty-two partitions up, or runs over it. *)
Lemma take_list_spec flag ro es c : length (ch_partitions c) = 32%nat → 0 ≤ ch_part_num c ≤ 32 →
  if ch_part_num c + named es <=? 32 then
    ∃ l, length l = 32%nat ∧ take_list flag ro es c
      = Ret (mkChain l (ch_part_num c + named es) (ch_primary_num c + if flag then named es else 0)
               (link_of es (ch_logic_start c)) (ch_externed_start c))
  else take_list flag ro es c = Crash OutOfBounds.
Proof.
  revert c. induction es as [|e es IH]; intros c Hl Hc; cbn [named take_list].
  { rewrite (proj2 (Z.leb_le _ _)) by lia. exists (ch_partitions c). split; [done|].
    destruct c, flag; cbn; do 2 f_equal; lia. }
  pose proof (named_nonneg es) as Hn.
  assert (link_of (e :: es) (ch_logic_start c)
    = link_of es (if is_link e then u64 (le32_to_int (start4 e)) else ch_logic_start c)) as Hlk by done.
  rewrite Hlk. unfold take_entry. fold (names_partition e) (is_link e).
  destruct (names_partition e) eqn:Ep.
  - assert (is_link e = false) as ->.
    { unfold names_partition, is_link in *. destruct (sys_ind e =? 0x83) eqn:Es; [|by rewrite andb_false_r in Ep].
      apply Z.eqb_eq in Es. rewrite Es. by rewrite andb_false_r. }
    destruct (decide (ch_part_num c = 32)) as [H32|H32].
    { rewrite (proj2 (Z.leb_gt _ _)) by lia. unfold at_. rewrite H32. cbn [Z.ltb Z.compare].
      by rewrite (lookup_ge_None_2 (ch_partitions c)) by lia. }
    destruct (lookup_lt_is_Some_2 (ch_partitions c) (Z.to_nat (ch_part_num c))) as [old Hold]; [lia|].
    pose proof (at_ok _ _ _ Hold) as Ha. rewrite Z2Nat.id in Ha by lia. rewrite Ha. cbn [mbind run_bind].
    assert (∀ x, put (ch_partitions c) (ch_part_num c) x = Ret (<[Z.to_nat (ch_part_num c) := x]> (ch_partitions c))) as ->.
    { intros x. rewrite <- (put_ok _ _ x) by lia. by rewrite Z2Nat.id by lia. }
    cbn [mbind run_bind].
    match goal with |- context [take_list flag ro es ?c1] => specialize (IH c1) end.
    cbn [ch_partitions ch_part_num ch_primary_num ch_logic_start ch_externed_start] in IH.
    rewrite length_insert in IH. specialize (IH Hl ltac:(lia)).
    rewrite Z.add_assoc. destruct (_ <=? 32); [|done]. destruct IH as (l & Hl' & E). exists l. split; [done|].
    rewrite E. destruct flag; do 2 f_equal; lia.
  - cbn [Z.add]. destruct (is_link e) eqn:Ek.
    + cbn [mbind run_bind]. by apply (IH (mkChain _ _ _ _ _)).
    + cbn [mbind run_bind]. by apply IH.
Qed.

Section Chain.
Context {V : Type} `{MmcHost V} `{Heap V} (m : mmc) `{!CardLaws V (erase_grp_size m)}.
Context (key_area : option (Z * Z)) (info_disprotect : Z).
Context (card : emmc m) (devs : list mmc) (found : find_mmc_device devs (dev m) = Some m).
Context (healthy : ∀ c d (v : V), ready (send_cmd c d v).1).
Context (heap_disk : ∀ n v a, disk (heap_alloc n v).2 a = disk v a).
Context (heap_ok : ∀ n (v : V), (heap_alloc n v).1 = true).
Context (v0 : V).

(** The sectors of the card, and those that the chain leads through. *)
Definition sector_of (b : Z) : bytes := image m v0 (b * 512) 512.
Definition first_link : Z := link_of (entries (sector_of 0)) 0.
Fixpoint ebr_at (n : nat) : Z :=
  match n with
  | O => first_link
  | S n => u64 (first_link + link_of (entries (sector_of (ebr_at n))) 0)
  end.

(** A sector that can be read, is a partition table, and leads on. *)
Definition leads_on (b : Z) : Prop :=
  ok_block m key_area info_disprotect b ∧ test_block_type (sector_of b) = DOS_MBR
  ∧ link_of (entries (sector_of b)) 0 ≠ 0.

(** One turn of the loop over sectors. *)
Lemma chain_turn fuel b c v : leads_on b → same_disk m v0 v → length (ch_partitions c) = 32%nat →
  0 ≤ ch_part_num c ≤ 32 → ch_logic_start c = 0 →
  let n := named (entries (sector_of b)) in
  let link := link_of (entries (sector_of b)) 0 in
  if ch_part_num c + n <=? 32 then
    ∃ l v', length l = 32%nat ∧ same_disk m v0 v' ∧
      let prim := ch_primary_num c + (if b =? 0 then n else 0) in
      let ext := if ch_part_num c + n =? prim then link else ch_externed_start c in
      chain_from devs key_area info_disprotect (S fuel) m b c v
      = chain_from devs key_area info_disprotect fuel m (if ch_part_num c + n =? prim then link else u64 (ext + link))
          (mkChain l (ch_part_num c + n) prim 0 ext) v'
  else chain_from devs key_area info_disprotect (S fuel) m b c v = Crash OutOfBounds.
Proof.
  intros (Hb & Ht & Hk) Hv Hl Hc Hz n link.
  destruct (read_block m key_area info_disprotect card devs found healthy b v Hb) as (v1 & E1 & S1).
  rewrite (image_same m v0 v) in E1 by done. fold (sector_of b) in E1.
  pose proof (take_list_spec (b =? 0) b (entries (sector_of b)) c Hl Hc) as Hs. rewrite Hz in Hs.
  cbn [chain_from]. rewrite (comp_bind_run _ _ _ _ _ E1). cbn [fst snd negb Z.eqb Pos.eqb]. rewrite Ht.
  cbn [DOS_MBR negb Z.eqb andb].
  change (take_entries 4 0 (b =? 0) b (sector_of b) c) with (take_list (b =? 0) b (entries (sector_of b)) c).
  fold n link in Hs |- *. destruct (_ <=? 32).
  - destruct Hs as (l & Hl' & E). exists l, v1. split; [done|]. split; [by etrans|].
    rewrite (comp_bind_run _ _ _ _ _ (lift_run _ _ _ E)).
    cbn [ch_part_num ch_primary_num ch_logic_start ch_partitions ch_externed_start].
    rewrite (proj2 (Z.eqb_neq link 0)) by done. cbn zeta. by destruct (_ =? _ + _).
  - unfold mbind, comp_bind, lift. by rewrite Hs.
Qed.

(** Behind the first sector every further one adds a partition. *)
Lemma chain_overflows k n fuel c v : (n + k = 33)%nat →
  (∀ i, (n ≤ i < 33)%nat → leads_on (ebr_at i) ∧ 1 ≤ named (entries (sector_of (ebr_at i)))) →
  same_disk m v0 v → length (ch_partitions c) = 32%nat →
  Z.of_nat n ≤ ch_part_num c ≤ 32 → ch_primary_num c ≤ ch_part_num c →
  n = 0%nat ∨ ch_primary_num c < ch_part_num c → ch_logic_start c = 0 → ch_externed_start c = first_link →
  first_link ≠ 0 →
  chain_from devs key_area info_disprotect (k + fuel) m (ebr_at n) c v = Crash OutOfBounds.
Proof.
  revert n c v. induction k as [|k IH]; intros n c v Hn Hi Hv Hl Hc Hp Hp' Hz He Hf; [lia|].
  destruct (Hi n) as [Hlead Hnm]; [lia|].
  pose proof (chain_turn (k + fuel) (ebr_at n) c v Hlead Hv Hl ltac:(lia) Hz) as Hturn. cbn zeta in Hturn.
  destruct (Z.leb_spec (ch_part_num c + named (entries (sector_of (ebr_at n)))) 32) as [Hle|Hgt]; [|exact Hturn].
  destruct Hturn as (l & v' & Hl' & Hv' & E). change (S k + fuel)%nat with (S (k + fuel)). rewrite E, He.
  assert (ch_primary_num c + (if ebr_at n =? 0 then named (entries (sector_of (ebr_at n))) else 0)
    < ch_part_num c + named (entries (sector_of (ebr_at n)))) as Hlt.
  { destruct Hp' as [-> | Hp']; [|destruct (_ =? 0); lia]. cbn [ebr_at]. rewrite (proj2 (Z.eqb_neq _ _) Hf).
    cbn [ebr_at] in Hnm. lia. }
  rewrite (proj2 (Z.eqb_neq _ _)) by lia. change (u64 (first_link + _)) with (ebr_at (S n)).
  apply IH; cbn [ch_partitions ch_part_num ch_primary_num ch_logic_start ch_externed_start];
    try done; [lia|intros i Hi'; apply Hi; lia|lia|lia|by right].
Qed.

(** C38: nothing bounds the chain of sectors that is followed at every start.  On
    a working card whose first sector leads to a chain of thirty-three sectors,
    each of which names a partition and leads on, an entry is written behind the
    end of the array of thirty-two partitions, however long the loop may go on.
    A sector that leads to itself is such a chain. *)
Theorem ebr_chain_overflows fuel ept : leads_on 0 →
  (∀ i, (i < 33)%nat → leads_on (ebr_at i) ∧ 1 ≤ named (entries (sector_of (ebr_at i)))) →
  _check_ptbl_mbr devs key_area info_disprotect (34 + fuel) m ept v0 = Crash OutOfBounds.
Proof.
  intros Hz Hi. pose proof (named_nonneg (entries (sector_of 0))) as Hn.
  destruct (malloc_ready m heap_disk heap_ok 16 v0) as (v1 & E1 & S1).
  destruct (malloc_ready m heap_disk heap_ok (sizeof_partitions * DOS_PARTITION_COUNT) v1) as (v2 & E2 & S2).
  unfold _check_ptbl_mbr. rewrite (comp_bind_run _ _ _ _ _ E1). cbn [negb].
  rewrite (comp_bind_run _ _ _ _ _ E2). cbn [negb]. unfold _construct_ptbl_by_mbr. cbn [it_partitions].
  set (c0 := mkChain (replicate (Z.to_nat DOS_PARTITION_COUNT) no_partition) 0 0 0 0).
  enough (chain_from devs key_area info_disprotect (34 + fuel) m 0 c0 v2 = Crash OutOfBounds) as E
    by (unfold mbind, comp_bind; by rewrite E).
  pose proof (chain_turn (33 + fuel) 0 c0 v2 Hz ltac:(by etrans) eq_refl ltac:(done) eq_refl) as Hturn.
  cbn zeta in Hturn. cbn [ch_part_num ch_primary_num c0] in Hturn. cbn [Z.eqb] in Hturn. rewrite !Z.add_0_l in Hturn.
  destruct (Z.leb_spec (named (entries (sector_of 0))) 32) as [Hle|Hgt]; [|exact Hturn].
  destruct Hturn as (l & v' & Hl & Hv' & E). rewrite Z.eqb_refl in E. change (34 + fuel)%nat with (S (33 + fuel)).
  rewrite E. clear E. fold first_link. change first_link with (ebr_at 0) at 1.
  apply (chain_overflows 33 0 fuel (mkChain l _ _ 0 first_link) v' eq_refl).
  - intros i Hi'. apply Hi. lia.
  - exact Hv'.
  - exact Hl.
  - cbn [ch_part_num]. lia.
  - cbn [ch_part_num ch_primary_num]. lia.
  - by left.
  - reflexivity.
  - reflexivity.
  - apply Hz.
Qed.
End Chain.

(** ** Examples *)

#[local] Existing Instances MmcBlock.demo_host MmcBlock.demo_heap MmcBlock.demo_laws.
#[local] Existing Instances SparseSpec.demo_blocks SparseSpec.demo_disk.

Definition demo_tables : tables := mkTables demo_inh (Some demo_ept).

(** The names come from the table. *)
#[local] Instance demo_named : Partitions demo_card := {|
  known_device := true;
  device_part_type := PART_TYPE_AML;
  get_partition_info_efi_by_name := fun _ => None;
  get_partition_info_aml_by_name := fun name =>
    match get_part_info_by_name 0x2f demo_tables 512 no_partition name with Ret o => o | Crash _ => None end;
  getenv_alias := fun _ => None;
  is_valid_gpt_buf := fun _ => 1;
  write_mbr_and_gpt_partitions := fun _ => mret 1;
  emmc_update_mbr := fun _ => mret 1;
  amlmmc_write_bootloader := fun _ _ _ => mret 1;
  amlmmc_erase_bootloader := fun _ => mret 1;
  found_erase_grp_size := Some demo_unit;
|}.

Lemma demo_sectors_ok : sectors_ok demo_ept.
Proof.
  refine (proj2 (dtb_table_fits demo_emmc EMMC_BOOT_FLAG _ demo_dtb demo_ept 0 demo_inh _ _ _ _ _ _ _)).
  - split; [by vm_compute|]. split; by vm_compute.
  - apply (bool_decide_unpack _). by vm_compute.
  - by vm_compute.
  - by vm_compute.
  - by vm_compute.
  - by vm_compute.
  - apply (bool_decide_unpack _). by vm_compute.
  - apply (option_checked _ (fun p => pt_size p ≤ capacity demo_emmc)). by vm_compute.
Qed.

Lemma flash_keeps_partitions_witness : ∃ w',
  fb_mmc_flash_write demo_part (str "boot") (replicate 1024 7) 600 demo_flash = Ret (tt, w')
  ∧ fl_replies w' = [OkayReply]
  ∧ ∀ q a, used demo_ept !! 3%nat = Some q → pt_offset q ≤ a < pt_offset q + pt_size q →
      disk_of w' a = disk_of demo_flash a.
Proof.
  assert (match fb_mmc_flash_write demo_part (str "boot") (replicate 1024 7) 600 demo_flash with
          | Ret (_, w') => Some (fl_replies w') | Crash _ => None end = Some [OkayReply]) as R by by vm_compute.
  destruct (fb_mmc_flash_write demo_part (str "boot") (replicate 1024 7) 600 demo_flash) as [[[] w']|] eqn:E; [|done].
  exists w'. split; [done|]. split; [by injection R|]. intros q a Hq Ha.
  refine (flash_keeps_partitions demo_on_disk 0x2f demo_part no_partition demo_tables demo_ept (str "boot") 4 (replicate 1024 7)
    600 demo_flash w' tt _ _ _ demo_sectors_ok _ _ _ _ _ _ E 3%nat q a _ Hq Ha).
  - done.
  - by vm_compute.
  - done.
  - by vm_compute.
  - lia.
  - by vm_compute.
  - by vm_compute.
  - by repeat constructor.
  - done.
  - done.
Defined.

(** ** What goes wrong *)

(** A card with these sectors, and zeros elsewhere. *)
Definition card_with (sectors : list (Z * bytes)) : demo_card :=
  mkDemo (foldr (fun s d => over d (s.1 * 512) s.2) (fun _ => 0) sectors) 0 0 [].
(** An entry that leads to another sector, and one of a partition. *)
Definition leads (start : Z) : dos_partition := mkDos 0 0x05 (le_encode 4 start) (le_encode 4 1).
Definition holds (start size : Z) : dos_partition := mkDos 0 0x83 (le_encode 4 start) (le_encode 4 size).
Definition sector (es : list dos_partition) : bytes :=
  dos_sector (replicate 446 0) (take 4 (es ++ replicate 4 no_entry)).

(** A card whose sector 8 leads to itself. *)
Definition looping_card : demo_card :=
  card_with [(0, sector [leads 5]); (5, sector [holds 1 1; leads 3]); (8, sector [holds 1 1; leads 3])].

Lemma ebr_chain_overflows_witness :
  _check_ptbl_mbr [demo_emmc] demo_keys 0 100 demo_emmc demo_ept looping_card = Crash OutOfBounds.
Proof.
  assert (∀ b, b = 0 ∨ b = 5 ∨ b = 8 → leads_on demo_emmc demo_keys 0 looping_card b) as Hb.
  { intros b Hb. split; [|split].
    - destruct_or! Hb; subst b; by vm_compute.
    - destruct_or! Hb; subst b; by vm_compute.
    - destruct_or! Hb; subst b; by vm_compute. }
  apply (ebr_chain_overflows demo_emmc demo_keys 0 demo_is_emmc [demo_emmc] eq_refl demo_healthy
    demo_heap_disk (fun _ _ => eq_refl) looping_card 66 demo_ept (Hb 0 ltac:(lia))).
  intros i _. assert (ebr_at demo_emmc looping_card i = 5 ∨ ebr_at demo_emmc looping_card i = 8) as Hi.
  { destruct i as [|i]; [left; by vm_compute|right]. induction i as [|i IH]; [by vm_compute|].
    cbn [ebr_at] in IH |- *. rewrite IH. by vm_compute. }
  split; [apply Hb; tauto|]. destruct Hi as [-> | ->]; by vm_compute.
Defined.

(** The partitions in use by name, after a start. *)
Definition names_after (r : run (Z * tables * demo_card)) : option (Z * list bytes) :=
  match r with
  | Ret ((z, g), _) =>
      Some (z, match p_iptbl_ept g with Some t => (fun p => cut (pt_name p)) <$> used t | None => [] end)
  | Crash _ => None
  end.
Definition start (dtb : option _iptbl) (v : demo_card) : run (Z * tables * demo_card) :=
  match device_table [demo_emmc] demo_keys 0 EMMC_BOOT_FLAG 0x2f 40 demo_emmc dtb (mkTables emmc_partition_table None) v with
  | Ret ((_, r), v') => Ret (r, v')
  | Crash c => Crash c
  end.
Definition after (r : run (Z * tables * demo_card)) : demo_card :=
  match r with Ret (_, v) => v | Crash _ => demo_blank end.
Definition dtb_of (l : list (string * Z)) : _iptbl :=
  Iptbl ((fun p => PARTITION_ELEMENT (str p.1) p.2 1) <$> l) (zlen l).

(** Names are not compared.  A device tree that only renames a partition is
    taken as the one that is stored: the start with it knows the new name, the
    next start the old one. *)
Example renamed_partition_lost :
  let old := dtb_of [("logo", 32 * SZ_1M); ("misc", 8 * SZ_1M); ("data", u64 (-1))]%string in
  let new := dtb_of [("logo", 32 * SZ_1M); ("para", 8 * SZ_1M); ("data", u64 (-1))]%string in
  let v1 := after (start (Some old) demo_blank) in
  names_after (start (Some new) v1) = Some (0, str <$> ["bootloader"; "reserved"; "logo"; "para"; "data"]%string)
  ∧ names_after (start None (after (start (Some new) v1)))
    = Some (0, str <$> ["bootloader"; "reserved"; "logo"; "misc"; "data"]%string).
Proof. split; by vm_compute. Qed.

(** A table that does not fit the card is reported as a success, and the table
    is left without its offsets. *)
Example too_large_reported :
  let r := start (Some (dtb_of [("one", 3000 * SZ_1M); ("two", 3000 * SZ_1M); ("three", SZ_1M); ("data", u64 (-1))]%string)) demo_blank in
  match r with
  | Ret ((z, g), v) => Some (z, places <$> p_iptbl_ept g, dc_log v)
  | Crash _ => None
  end = Some (0, Some [(0, 4); (36, 64); (108, 3000); (3116, 980); (0, 1); (0, (2 ^ 64 - 1) / SZ_1M)], []).
Proof. by vm_compute. Qed.

(** A last partition that starts behind the end of the card gets nearly 2^64
    bytes. *)
Example last_partition_wraps :
  match start (Some (dtb_of [("one", 3984 * SZ_1M); ("data", u64 (-1))]%string)) demo_blank with
  | Ret ((z, g), _) => Some (z, places <$> p_iptbl_ept g)
  | Crash _ => None
  end = Some (0, Some [(0, 4); (36, 64); (108, 3984); (4100, 2 ^ 44 - 4)]).
Proof. by vm_compute. Qed.

(** Without a partition that takes the rest, the array of the device tree is
    read behind its end. *)
Example no_rest_overreads :
  compose_ept (dtb_of [("logo", 32 * SZ_1M); ("misc", 8 * SZ_1M)]%string) (Iptbl emmc_partition_table 2) zero_table
  = Crash OutOfBounds.
Proof. by vm_compute. Qed.

(** With all thirty-two entries in use the one behind them is read. *)
Example full_table_overreads :
  _update_ptbl_mbr [demo_emmc] demo_keys 0 demo_emmc
    (Iptbl ((fun i => mkPartition (char16 (str "p")) SZ_1M ((64 + 16 * Z.of_nat i) * SZ_1M) 0) <$> seq 0 32) 32) demo_blank
  = Crash OutOfBounds.
Proof. by vm_compute. Qed.

(** The names of the boot areas are found, and what is returned for them is what
    the local variable held before. *)
Theorem boot_area_unfilled virtual :
  get_part_info_by_name 0x2f demo_tables 512 virtual (str "bootloader-boot0")
  = Ret (Some (for_bootloader 0x2f (disk_part 512 virtual))).
Proof. by destruct virtual. Qed.

(** The checksum in use looks at the first partition only: a table whose second
    partition was changed is accepted. *)
Example checksum_first_only :
  let t := Iptbl (take 2 demo_inh ++ replicate 30 no_partition) 2 in
  match ptbl_image t with
  | Ret b => match wr b (24 + 40 + 24) [0xff] with Ret b' => read_ptbl b' | Crash c => Crash c end
  | Crash c => Crash c
  end
  = Ret (inr [demo_inh !!! 0%nat; set_offset (demo_inh !!! 1%nat) (36 * SZ_1M + 0xff)]).
Proof. by vm_compute. Qed.

(** A chain that leads to itself and holds no partition is followed for ever. *)
Lemma ebr_loop_turns l fuel b x v : b = 0 ∨ b = 5 →
  same_disk demo_emmc (card_with [(0, sector [leads 5]); (5, sector [leads 5])]) v →
  chain_from [demo_emmc] demo_keys 0 fuel demo_emmc b (mkChain l 0 0 0 x) v = Crash NoFuel.
Proof.
  revert b x v. induction fuel as [|fuel IH]; intros b x v Hb Hv; [done|]. cbn [chain_from].
  destruct (read_block demo_emmc demo_keys 0 demo_is_emmc [demo_emmc] eq_refl demo_healthy b v) as (v1 & E1 & S1).
  { destruct Hb as [-> | ->]; by vm_compute. }
  rewrite (image_same demo_emmc (card_with [(0, sector [leads 5]); (5, sector [leads 5])]) v) in E1 by done.
  assert (image demo_emmc (card_with [(0, sector [leads 5]); (5, sector [leads 5])]) (b * 512) 512 = sector [leads 5]) as Hi.
  { destruct Hb as [-> | ->]; by vm_compute. }
  rewrite Hi in E1. rewrite (comp_bind_run _ _ _ _ _ E1). cbn [fst snd negb Z.eqb Pos.eqb].
  change (test_block_type (sector [leads 5])) with 0. cbn [negb Z.eqb andb].
  assert (∀ flag, take_entries 4 0 flag b (sector [leads 5]) (mkChain l 0 0 0 x) = Ret (mkChain l 0 0 5 x)) as Ht by done.
  rewrite (comp_bind_run _ _ _ _ _ (lift_run _ _ _ (Ht _))). cbn [ch_part_num ch_primary_num ch_logic_start ch_partitions Z.eqb].
  apply IH; [by right|by etrans].
Qed.
Lemma check_of_chain fuel c v :
  chain_from [demo_emmc] demo_keys 0 fuel demo_emmc 0 (mkChain (replicate 32 no_partition) 0 0 0 0) v = Crash c →
  _check_ptbl_mbr [demo_emmc] demo_keys 0 fuel demo_emmc demo_ept v = Crash c.
Proof.
  intros E. unfold _check_ptbl_mbr. rewrite (comp_bind_run _ _ _ true v eq_refl). cbn [negb].
  rewrite (comp_bind_run _ _ _ true v eq_refl). cbn [negb]. unfold _construct_ptbl_by_mbr. cbn [it_partitions].
  change (Z.to_nat DOS_PARTITION_COUNT) with 32%nat. unfold mbind, comp_bind. by rewrite E.
Qed.
Theorem ebr_loop_never_ends fuel :
  _check_ptbl_mbr [demo_emmc] demo_keys 0 fuel demo_emmc demo_ept
    (card_with [(0, sector [leads 5]); (5, sector [leads 5])]) = Crash NoFuel.
Proof. apply check_of_chain, ebr_loop_turns; [by left|done]. Qed.
