(* ===== verification/HashTable.v ===== *)
(** * The hash table of the environment (lib/hashtable.c, include/search.h)

    Open addressing with double hashing: [hcreate_r] allocates the table,
    [hsearch_r] finds, enters and overwrites a variable, [hdelete_r] deletes
    one, [hmatch_r] and [hwalk_r] go through all of them.  The table is passed
    as a value and returned; allocation goes through the [Heap] of the world.
    What the table calls back ([env_callback_init], [env_flags_init], the
    [change_ok] of the table and the callback of an entry) is the class
    [EnvHooks], which EnvFlags instantiates with the functions of the source. *)

From S2P Require Import Prelude.

(** ** Data (include/search.h) *)

(** A [char *] that owns a heap string: the content up to the terminating
    zero, or the fact that the string was freed and the pointer dangles. *)
Inductive cptr := Null | Freed | Str (s : bytes).

#[export] Instance cptr_eq_dec : EqDecision cptr.
Proof. solve_decision. Defined.

Definition deref (p : cptr) : run bytes :=
  match p with Null => Crash NullDeref | Freed => Crash OutOfBounds | Str s => Ret s end.

(** [free]: of a null pointer nothing, of a freed one undefined. *)
Definition free (p : cptr) : run unit :=
  match p with Freed => Crash OutOfBounds | _ => Ret tt end.

Inductive env_op := env_op_create | env_op_delete | env_op_overwrite.

Inductive ACTION := FIND | ENTER.

(** The functions an entry's callback pointer can hold: the linker list that
    [U_BOOT_ENV_CALLBACK] fills, on this board. *)
Inductive env_clbk :=
  clbk_callbacks | clbk_flags | clbk_baudrate | clbk_bootfile | clbk_loadaddr | clbk_console.

Record ENTRY := Entry {
  e_key : cptr;
  e_data : cptr;
  e_callback : option env_clbk;
  e_flags : Z }.

(** [_ENTRY]: [used] is 0 for a slot never used, -1 for a deleted one, and
    the first hash of the key otherwise. *)
Record slot := Slot { used : Z; entry : ENTRY }.

Record hsearch_data := Hsearch {
  table : option (list slot);
  size : Z;
  filled : Z }.

Definition zero_slot : slot := Slot 0 (Entry Null Null None 0).

Definition H_NOCLEAR := 1.
Definition H_FORCE := 2.
Definition H_INTERACTIVE := 4.
Definition H_HIDE_DOT := 8.
Definition H_MATCH_KEY := 16.
Definition H_MATCH_DATA := 32.
Definition H_MATCH_BOTH := Z.lor H_MATCH_KEY H_MATCH_DATA.
Definition H_MATCH_IDENT := 64.
Definition H_MATCH_SUBSTR := 128.
Definition H_MATCH_REGEX := 256.
Definition H_MATCH_METHOD := Z.lor H_MATCH_IDENT (Z.lor H_MATCH_SUBSTR H_MATCH_REGEX).

Definition EPERM := 1.
Definition ESRCH := 3.
Definition ENOMEM := 12.
Definition EINVAL := 22.

(** What a search leaves: the value returned, [*retval] as the index of the
    entry it points to, and the [errno] it set (0 when it set none). *)
Record hret := Hret { h_ret : Z; h_val : option Z; h_errno : Z }.

(** The functions the table calls. *)
Class EnvHooks (W : Type) := {
  env_callback_init : hsearch_data → ENTRY → comp W ENTRY;
  env_flags_init : hsearch_data → ENTRY → comp W ENTRY;
  change_ok : option (ENTRY → cptr → env_op → Z → comp W Z);
  callback_call : env_clbk → bytes → cptr → env_op → Z → hsearch_data →
                  comp W (Z * hsearch_data) }.

(** ** Creation *)

Fixpoint isprime_loop (fuel : nat) (div number : Z) : run Z :=
  match fuel with
  | O => Crash NoFuel
  | S fuel =>
      if (u32 (div * div) <? number) && negb (number mod div =? 0)
      then isprime_loop fuel (u32 (div + 2)) number
      else Ret div
  end.

Definition isprime (number : Z) : run bool :=
  div ← isprime_loop (Z.to_nat number) 3 number;
  Ret (negb (number mod div =? 0)).

Fixpoint next_prime (fuel : nat) (nel : Z) : run Z :=
  match fuel with
  | O => Crash NoFuel
  | S fuel =>
      p ← isprime (u32 nel);
      if (p : bool) then Ret nel else next_prime fuel (u64 (nel + 2))
  end.

Definition sizeof_ENTRY := 40.

Section Table.
Context {W : Type} {HW : Heap W} {HH : EnvHooks W}.

Definition strdup (s : option bytes) : comp W cptr :=
  match s with
  | None => mret Null
  | Some s =>
      ok ← malloc (zlen s + 1);
      mret (if (ok : bool) then Str s else Null)
  end.

Definition hcreate_r (nel : Z) (htab : hsearch_data) : comp W (Z * hsearch_data) :=
  match table htab with
  | Some _ => mret (0, htab)
  | None =>
      let nel := Z.lor nel 1 in
      nel ← lift (next_prime (Z.to_nat nel) nel);
      let sz := u32 nel in
      ok ← malloc ((sz + 1) * sizeof_ENTRY);
      mret (if (ok : bool)
            then (1, Hsearch (Some (replicate (Z.to_nat (sz + 1)) zero_slot)) sz 0)
            else (0, Hsearch None sz 0))
  end.

(** ** Access to the slots *)

Definition slot_at (htab : hsearch_data) (idx : Z) : run slot :=
  match table htab with
  | None => Crash NullDeref
  | Some l =>
      if idx <? 0 then Crash OutOfBounds
      else match l !! Z.to_nat idx with Some s => Ret s | None => Crash OutOfBounds end
  end.

(** A store to a slot the code has read before. *)
Definition put_slot (htab : hsearch_data) (idx : Z) (s : slot) : hsearch_data :=
  Hsearch (<[Z.to_nat idx := s]> <$> table htab) (size htab) (filled htab).

Definition set_filled (htab : hsearch_data) (n : Z) : hsearch_data :=
  Hsearch (table htab) (size htab) n.

(** The loop of [hdestroy_r] over the slots from [i] on. *)
Fixpoint hdestroy_loop (fuel : nat) (i : Z) (htab : hsearch_data) : run unit :=
  match fuel with
  | O => Ret tt
  | S fuel =>
      s ← slot_at htab i;
      _ ← (if used s >? 0
           then _ ← free (e_key (entry s)); free (e_data (entry s))
           else Ret tt);
      hdestroy_loop fuel (i + 1) htab
  end.

Definition hdestroy_r (htab : hsearch_data) : run hsearch_data :=
  _ ← hdestroy_loop (Z.to_nat (size htab)) 1 htab;
  Ret (Hsearch None (size htab) (filled htab)).

(** [hmatch_r]: the loop runs while [idx < size]. *)
Fixpoint hmatch_loop (fuel : nat) (mtch : bytes) (idx : Z) (htab : hsearch_data) : run hret :=
  match fuel with
  | O => Ret (Hret 0 None ESRCH)
  | S fuel =>
      s ← slot_at htab idx;
      if used s <=? 0 then hmatch_loop fuel mtch (idx + 1) htab
      else
        k ← deref (e_key (entry s));
        if has_prefix k mtch then Ret (Hret idx (Some idx) 0)
        else hmatch_loop fuel mtch (idx + 1) htab
  end.

Definition hmatch_r (mtch : bytes) (last_idx : Z) (htab : hsearch_data) : run hret :=
  hmatch_loop (Z.to_nat (size htab - (last_idx + 1))) mtch (last_idx + 1) htab.

(** ** Searching *)

Definition permission (e : ENTRY) (newval : cptr) (op : env_op) (flag : Z) : comp W Z :=
  match change_ok with Some f => f e newval op flag | None => mret 0 end.

Definition call_callback (e : ENTRY) (key : bytes) (value : cptr) (op : env_op) (flag : Z)
    (htab : hsearch_data) : comp W (Z * hsearch_data) :=
  match e_callback e with
  | Some cb => callback_call cb key value op flag htab
  | None => mret (0, htab)
  end.

(** [_compare_and_overwrite_entry]; [used] is compared as an unsigned number. *)
Definition compare_and_overwrite_entry (key : bytes) (data : option bytes) (action : ACTION)
    (htab : hsearch_data) (flag hval idx : Z) : comp W (hret * hsearch_data) :=
  s ← lift (slot_at htab idx);
  if negb (u32 (used s) =? hval) then mret (Hret (-1) None 0, htab)
  else
    k ← lift (deref (e_key (entry s)));
    if negb (bool_decide (key = k)) then mret (Hret (-1) None 0, htab)
    else
      match action, data with
      | ENTER, Some d =>
          rej ← permission (entry s) (Str d) env_op_overwrite flag;
          if negb (rej =? 0) then mret (Hret 0 None EPERM, htab)
          else
            '(rej, htab) ← call_callback (entry s) key (Str d) env_op_overwrite flag htab;
            if negb (rej =? 0) then mret (Hret 0 None EINVAL, htab)
            else
              s ← lift (slot_at htab idx);
              _ ← lift (free (e_data (entry s)));
              p ← strdup (Some d);
              let e := entry s in
              let htab := put_slot htab idx
                            (Slot (used s) (Entry (e_key e) p (e_callback e) (e_flags e))) in
              match p with
              | Str _ => mret (Hret idx (Some idx) 0, htab)
              | _ => mret (Hret 0 None ENOMEM, htab)
              end
      | _, _ => mret (Hret idx (Some idx) 0, htab)
      end.

(** The string hash; [char] is unsigned on this machine. *)
Definition hash_key (key : bytes) : Z :=
  foldr (fun c hval => u32 (u32 (Z.shiftl hval 4) + c)) (u32 (zlen key)) key.

Definition first_hash (sz : Z) (key : bytes) : Z :=
  let hval := hash_key key mod sz in if hval =? 0 then hval + 1 else hval.

Definition second_hash (sz hval : Z) : Z := 1 + hval mod (sz - 2).

Definition next_index (sz hval2 idx : Z) : Z :=
  if idx <=? hval2 then u32 (sz + idx - hval2) else idx - hval2.

(** The [do]-[while] loop of [hsearch_r]: what the comparison returned, or
    nothing and the index at which an unused slot was met or the loop had come
    back to its start. *)
Fixpoint probe_loop (fuel : nat) (key : bytes) (data : option bytes) (action : ACTION)
    (htab : hsearch_data) (flag hval hval2 idx : Z)
    : comp W (option hret * Z * hsearch_data) :=
  match fuel with
  | O => fun _ => Crash NoFuel
  | S fuel =>
      let idx := next_index (size htab) hval2 idx in
      if idx =? hval then mret (None, idx, htab)
      else
        '(r, htab) ← compare_and_overwrite_entry key data action htab flag hval idx;
        if negb (h_ret r =? -1) then mret (Some r, idx, htab)
        else
          s ← lift (slot_at htab idx);
          if used s =? 0 then mret (None, idx, htab)
          else probe_loop fuel key data action htab flag hval hval2 idx
  end.

(** [_hdelete]; the freed pointers stay in the slot. *)
Definition _hdelete (htab : hsearch_data) (idx : Z) : run hsearch_data :=
  s ← slot_at htab idx;
  _ ← free (e_key (entry s));
  _ ← free (e_data (entry s));
  Ret (set_filled (put_slot htab idx (Slot (-1) (Entry Freed Freed None 0)))
         (u32 (filled htab - 1))).

(** The part of [hsearch_r] that enters a new variable at [idx]. *)
Definition enter_new (key : bytes) (data : option bytes) (htab : hsearch_data)
    (flag hval idx : Z) : comp W (hret * hsearch_data) :=
  if filled htab =? size htab then mret (Hret 0 None ENOMEM, htab)
  else
    s ← lift (slot_at htab idx);
    pk ← strdup (Some key);
    pd ← strdup data;
    let e := Entry pk pd (e_callback (entry s)) (e_flags (entry s)) in
    let htab := put_slot htab idx (Slot (s32 hval) e) in
    match pk, pd with
    | Str _, Str d =>
        let htab := set_filled htab (u32 (filled htab + 1)) in
        e ← env_callback_init htab e;
        let htab := put_slot htab idx (Slot (s32 hval) e) in
        e ← env_flags_init htab e;
        let htab := put_slot htab idx (Slot (s32 hval) e) in
        rej ← permission e (Str d) env_op_create flag;
        if negb (rej =? 0) then
          htab ← lift (_hdelete htab idx);
          mret (Hret 0 None EPERM, htab)
        else
          '(rej, htab) ← call_callback e key (Str d) env_op_create flag htab;
          if negb (rej =? 0) then
            htab ← lift (_hdelete htab idx);
            mret (Hret 0 None EINVAL, htab)
          else mret (Hret 1 (Some idx) 0, htab)
    | _, _ => mret (Hret 0 None ENOMEM, htab)
    end.

Definition hsearch_r (key : bytes) (data : option bytes) (action : ACTION)
    (htab : hsearch_data) (flag : Z) : comp W (hret * hsearch_data) :=
  let hval := first_hash (size htab) key in
  s ← lift (slot_at htab hval);
  let first_deleted := if used s =? -1 then hval else 0 in
  '(r, idx, htab) ←
    (if used s =? 0 then mret (None, hval, htab)
     else
       '(r, htab) ← compare_and_overwrite_entry key data action htab flag hval hval;
       if negb (h_ret r =? -1) then mret (Some r, hval, htab)
       else
         probe_loop (Z.to_nat (size htab)) key data action htab flag hval
           (second_hash (size htab) hval) hval);
  match r with
  | Some r => mret (r, htab)
  | None =>
      match action with
      | ENTER =>
          let idx := if first_deleted =? 0 then idx else first_deleted in
          enter_new key data htab flag hval idx
      | FIND => mret (Hret 0 None ESRCH, htab)
      end
  end.

(** ** Deletion *)

Definition hdelete_r (key : bytes) (htab : hsearch_data) (flag : Z)
    : comp W (Z * Z * hsearch_data) :=
  '(r, htab) ← hsearch_r key None FIND htab 0;
  if h_ret r =? 0 then mret (0, ESRCH, htab)
  else
    let idx := h_ret r in
    s ← lift (slot_at htab idx);
    rej ← permission (entry s) Null env_op_delete flag;
    if negb (rej =? 0) then mret (0, EPERM, htab)
    else
      '(rej, htab) ← call_callback (entry s) key Null env_op_delete flag htab;
      if negb (rej =? 0) then mret (0, EINVAL, htab)
      else
        htab ← lift (_hdelete htab idx);
        mret (1, 0, htab).

(** ** Walking: [callback] may change the entry it is given. *)

Fixpoint hwalk_loop (fuel : nat) (i : Z) (htab : hsearch_data) (callback : ENTRY → Z * ENTRY)
    : run (Z * hsearch_data) :=
  match fuel with
  | O => Ret (0, htab)
  | S fuel =>
      s ← slot_at htab i;
      if used s >? 0 then
        let '(retval, e) := callback (entry s) in
        let htab := put_slot htab i (Slot (used s) e) in
        if negb (retval =? 0) then Ret (retval, htab)
        else hwalk_loop fuel (i + 1) htab callback
      else hwalk_loop fuel (i + 1) htab callback
  end.

Definition hwalk_r (htab : hsearch_data) (callback : ENTRY → Z * ENTRY)
    : run (Z * hsearch_data) :=
  hwalk_loop (Z.to_nat (size htab)) 1 htab callback.
End Table.
