(* ===== verification/HashSpec.v ===== *)
(** * What the hash table of the environment does

    The primality test of [hcreate_r] and its termination; the probe sequence
    of [hsearch_r], which visits every slot once because the size is prime; the
    invariant of the table; and that find, enter and delete are lookup, insert
    and delete of a finite map from names to values. *)

From Stdlib Require Import Znumtheory.
From S2P Require Import Prelude HashTable.

(** ** The primality test *)

Lemma odd_factor n : 1 < n → Z.odd n = true → ¬ prime n →
  ∃ d, 3 ≤ d ∧ Z.odd d = true ∧ d * d ≤ n ∧ (d | n).
Proof.
  intros Hn Hodd Hp. destruct (not_prime_divide n Hn Hp) as (p & Hp1 & q & Hq).
  assert (Hoo : Z.odd q = true ∧ Z.odd p = true).
  { rewrite Hq, Z.odd_mul in Hodd. by apply andb_true_iff in Hodd. }
  destruct Hoo as [Hoq Hop]. assert (1 < q) by nia.
  assert (H3 : ∀ x, 1 < x → Z.odd x = true → 3 ≤ x).
  { intros x Hx Ho. destruct (decide (x = 2)) as [->|]; [discriminate|lia]. }
  destruct (decide (p ≤ q)).
  - exists p. split_and!; [apply H3; [lia|done]|done|nia|]. exists q. lia.
  - exists q. split_and!; [apply H3; [lia|done]|done|nia|]. exists p. lia.
Qed.

(** Where the loop stops: at the first odd divisor, or past the root. *)
Lemma isprime_loop_spec fuel div n :
  3 ≤ div → Z.odd div = true → 3 ≤ n < 65535 * 65535 → div ≤ 65535 →
  n < Z.of_nat fuel + div → (div = 3 ∨ (div - 2) * (div - 2) < n) →
  (∀ d, 3 ≤ d < div → Z.odd d = true → ¬ (d | n)) →
  ∃ d, isprime_loop fuel div n = Ret d ∧ 3 ≤ d ≤ 65535 ∧ Z.odd d = true ∧
    (∀ e, 3 ≤ e < d → Z.odd e = true → ¬ (e | n)) ∧
    (n ≤ d * d ∨ (d | n)) ∧ (d = 3 ∨ (d - 2) * (d - 2) < n).
Proof.
  revert div. induction fuel as [|fuel IH]; intros div H3 Ho Hn Hd Hf Hpr Hnd.
  - exfalso. destruct Hpr; nia.
  - cbn [isprime_loop]. rewrite u32_small by (split; nia).
    destruct (div * div <? n) eqn:E1; cbn [andb]; [|exists div; split_and!; auto; lia].
    destruct (n mod div =? 0) eqn:E2; cbn [negb].
    { exists div. split_and!; auto. right. apply Z.mod_divide; lia. }
    assert (div < 65535) by nia. assert (Z.odd (div + 2) = true) by (by rewrite Z.odd_add, Ho).
    rewrite u32_small by (split; lia).
    assert (div ≠ 65534) by (by intros ->).
    destruct (IH (div + 2)) as (d & Hr & ? & ? & ? & ? & ?); [lia|done|lia|lia|lia|right; nia| |].
    + intros d Hd' Ho'. destruct (decide (d < div)); [apply Hnd; auto; lia|].
      assert (d = div ∨ d = div + 1) as [->| ->] by lia.
      * intros [q Hq]. apply Z.eqb_neq in E2. apply E2. rewrite Hq. apply Z.mod_mul. lia.
      * rewrite Z.odd_add, Ho in Ho'. discriminate.
    + exists d. split_and!; auto; lia.
Qed.

(** The test is right for the odd numbers it is asked about. *)
Lemma isprime_correct n : 5 ≤ n < 65535 * 65535 → Z.odd n = true →
  ∃ b, isprime n = Ret b ∧ (b = true ↔ prime n).
Proof.
  intros Hn Ho. unfold isprime.
  destruct (isprime_loop_spec (Z.to_nat n) 3 n) as (d & -> & Hd & Hod & Hnd & Hstop & Hprev);
    [lia|done|lia|lia|lia|by left|lia|].
  eexists. split; [reflexivity|]. rewrite negb_true_iff, Z.eqb_neq.
  assert (Hdn : d < n) by (destruct Hprev as [->|]; nia).
  split.
  - intros Hm. destruct (prime_dec n) as [|Hnp]; [done|exfalso].
    destruct (odd_factor n) as (e & ? & ? & ? & Hdiv); [lia|done|done|].
    destruct Hstop as [Hs|Hs]; [|apply Hm, Z.mod_divide; auto; lia].
    destruct (decide (e < d)); [by apply (Hnd e)|].
    assert (e = d) as -> by nia. apply Hm, Z.mod_divide; auto; lia.
  - intros Hp Hm. apply Z.mod_divide in Hm; [|lia].
    destruct (prime_divisors n Hp d Hm) as [|[|[|]]]; lia.
Qed.

Lemma prime_of_isprime n : 5 ≤ n < 65535 * 65535 → Z.odd n = true → isprime n = Ret true → prime n.
Proof. intros Hn Ho Hi. destruct (isprime_correct n Hn Ho) as (b & Hb & Hp). rewrite Hi in Hb. injection Hb as <-. by apply Hp. Qed.

(** The search for the next prime ends for every size the code asks for. *)
Lemma next_prime_small nel : 2 ≤ nel ≤ 1024 →
  ∃ p, next_prime (Z.to_nat (Z.lor nel 1)) (Z.lor nel 1) = Ret p ∧ prime p ∧ nel ≤ p < 2048.
Proof.
  intros Hn.
  assert (Hall : forallb (fun n =>
    match next_prime (Z.to_nat (Z.lor (Z.of_nat n) 1)) (Z.lor (Z.of_nat n) 1) with
    | Ret p => (Z.of_nat n <=? p) && (5 <=? p) && (p <? 2048) && Z.odd p &&
               match isprime p with Ret b => b | _ => false end
    | _ => false end) (seq 2 1023) = true) by (vm_compute; reflexivity).
  rewrite forallb_forall in Hall. specialize (Hall (Z.to_nat nel)).
  rewrite Z2Nat.id in Hall by lia. rewrite in_seq in Hall.
  destruct (next_prime _ _) as [p|]; [|by discriminate Hall; lia].
  assert (Hp := Hall ltac:(lia)). rewrite !andb_true_iff, !Z.leb_le, Z.ltb_lt in Hp.
  destruct Hp as ((((? & ?) & ?) & ?) & Hp). exists p. split_and!; auto.
  destruct (isprime_correct p) as (b & Hb & Hiff); [lia|done|].
  rewrite Hb in Hp. by apply Hiff.
Qed.

(** ** The probe sequence *)

Lemma hash_key_range key : 0 ≤ hash_key key.
Proof. unfold hash_key. destruct key; simpl; apply u32_range. Qed.

Section Probe.
Context (sz : Z) (Hprime : prime sz) (Hsz : 3 ≤ sz < 0x80000000).

Lemma first_hash_range key : 1 ≤ first_hash sz key < sz.
Proof.
  unfold first_hash. assert (0 ≤ hash_key key mod sz < sz) by (apply Z.mod_pos_bound; lia).
  destruct (_ =? 0) eqn:E; lia.
Qed.

Lemma second_hash_range hval : 1 ≤ second_hash sz hval < sz.
Proof.
  unfold second_hash. assert (0 ≤ hval mod (sz - 2) < sz - 2) by (apply Z.mod_pos_bound; lia). lia.
Qed.

(** The [n]th slot looked at for a key with first hash [hval]. *)
Fixpoint probe_at (hval : Z) (n : nat) : Z :=
  match n with
  | O => hval
  | S n => next_index sz (second_hash sz hval) (probe_at hval n)
  end.

Lemma probe_at_range hval n : 1 ≤ hval ≤ sz → 1 ≤ probe_at hval n ≤ sz.
Proof.
  intros Hh. assert (H2 := second_hash_range hval). induction n as [|n IH]; [done|].
  cbn [probe_at]. unfold next_index. destruct (_ <=? _) eqn:E; [|lia].
  rewrite u32_small by (split; lia). lia.
Qed.

Lemma probe_at_mod hval n : 1 ≤ hval ≤ sz →
  probe_at hval n mod sz = (hval - Z.of_nat n * second_hash sz hval) mod sz.
Proof.
  intros Hh. assert (H2 := second_hash_range hval). induction n as [|n IH].
  - cbn [probe_at]. f_equal. lia.
  - assert (Hr := probe_at_range hval n Hh). cbn [probe_at]. unfold next_index.
    transitivity ((probe_at hval n - second_hash sz hval) mod sz).
    + destruct (_ <=? _) eqn:E; [|done]. rewrite u32_small by (split; lia).
      replace (sz + _ - _) with (probe_at hval n - second_hash sz hval + 1 * sz) by lia.
      apply Z.mod_add; lia.
    + rewrite <- Zminus_mod_idemp_l, IH, Zminus_mod_idemp_l. f_equal. lia.
Qed.

Lemma slot_index_eq a b : 1 ≤ a ≤ sz → 1 ≤ b ≤ sz → a mod sz = b mod sz → a = b.
Proof.
  intros Ha Hb Hm. assert (Hd : (sz | a - b)).
  { apply Z.mod_divide; [lia|]. rewrite Zminus_mod, Hm, Z.sub_diag. apply Z.mod_0_l. lia. }
  destruct Hd as [q Hq]. assert (q = 0) by nia. nia.
Qed.

(** A step of the second hash is invertible modulo the prime size. *)
Lemma second_hash_divide hval n : (sz | n * second_hash sz hval) → (sz | n).
Proof.
  intros Hd. rewrite Z.mul_comm in Hd. apply Gauss in Hd; [done|].
  apply rel_prime_sym, rel_prime_le_prime; [done|]. assert (H2 := second_hash_range hval). lia.
Qed.

Lemma probe_at_inj hval n m : 1 ≤ hval ≤ sz → Z.of_nat n < sz → Z.of_nat m < sz →
  probe_at hval n = probe_at hval m → n = m.
Proof.
  intros Hh Hn Hm Heq. assert (Hd : (sz | (Z.of_nat m - Z.of_nat n) * second_hash sz hval)).
  { apply Z.mod_divide; [lia|].
    assert (E := probe_at_mod hval n Hh). rewrite Heq, probe_at_mod in E by done.
    replace (_ * _) with ((hval - Z.of_nat n * second_hash sz hval) -
      (hval - Z.of_nat m * second_hash sz hval)) by lia.
    rewrite Zminus_mod, E, Z.sub_diag. apply Z.mod_0_l. lia. }
  apply second_hash_divide in Hd. destruct Hd as [q Hq]. assert (q = 0) by nia. nia.
Qed.

Lemma probe_at_wraps hval : 1 ≤ hval ≤ sz → probe_at hval (Z.to_nat sz) = hval.
Proof.
  intros Hh. apply slot_index_eq; [by apply probe_at_range|done|].
  rewrite probe_at_mod, Z2Nat.id by lia.
  replace (hval - _) with (hval + (- second_hash sz hval) * sz) by lia. apply Z.mod_add; lia.
Qed.

Lemma probe_at_covers hval i : 1 ≤ hval ≤ sz → 1 ≤ i ≤ sz →
  ∃ n, Z.of_nat n < sz ∧ probe_at hval n = i.
Proof.
  intros Hh Hi. assert (H2 := second_hash_range hval).
  assert (Hrp : rel_prime (second_hash sz hval) sz) by (apply rel_prime_le_prime; [done|lia]).
  apply rel_prime_bezout in Hrp. destruct Hrp as [u v Huv].
  exists (Z.to_nat (((hval - i) * u) mod sz)).
  assert (Hb : 0 ≤ ((hval - i) * u) mod sz < sz) by (apply Z.mod_pos_bound; lia).
  split; [lia|]. apply slot_index_eq; [by apply probe_at_range|done|].
  rewrite probe_at_mod, Z2Nat.id by lia.
  rewrite <- Zminus_mod_idemp_r, Zmult_mod_idemp_l, Zminus_mod_idemp_r.
  replace (hval - (hval - i) * u * second_hash sz hval)
    with (i + ((hval - i) * v) * sz) by nia.
  apply Z.mod_add; lia.
Qed.
End Probe.

(** ** The invariant *)

(** What a slot holds apart from the callback and the flags. *)
Definition cell (s : slot) : Z * cptr * cptr := (used s, e_key (entry s), e_data (entry s)).

Definition used_at (l : list (Z * cptr * cptr)) (i : Z) : Z :=
  match l !! Z.to_nat i with Some (u, _, _) => u | None => 0 end.

(** The [n]th probe for [key] is slot [i], and the slots before it are taken. *)
Definition reaches (l : list (Z * cptr * cptr)) (sz : Z) (key : bytes) (i : nat) : Prop :=
  ∃ n, Z.of_nat n < sz ∧ probe_at sz (first_hash sz key) n = Z.of_nat i ∧
    ∀ m, (m < n)%nat → used_at l (probe_at sz (first_hash sz key) m) ≠ 0.

Definition live (c : Z * cptr * cptr) : option (bytes * bytes) :=
  match c with
  | (u, Str k, Str v) => if u >? 0 then Some (k, v) else None
  | _ => None
  end.

#[global] Arguments cell : simpl never.
#[global] Arguments live : simpl never.

Record cells_ok (l : list (Z * cptr * cptr)) (sz : Z) (n : Z) : Prop := {
  c_prime : prime sz;
  c_size : 3 ≤ sz < 0x80000000;
  c_length : length l = S (Z.to_nat sz);
  c_zero : used_at l 0 = 0;
  c_cell i u pk pd : l !! i = Some (u, pk, pd) →
    u = 0 ∨ u = -1 ∨
    ∃ k v, pk = Str k ∧ pd = Str v ∧ u = first_hash sz k ∧ reaches l sz k i;
  c_unique i j u u' k pd pd' : l !! i = Some (u, Str k, pd) → l !! j = Some (u', Str k, pd') →
    0 < u → 0 < u' → i = j;
  c_filled : n = zlen (omap live l) }.

(** A well-formed table. *)
Definition tab_ok (t : hsearch_data) : Prop :=
  ∃ l, table t = Some l ∧ cells_ok (cell <$> l) (size t) (filled t).

(** Everything but callbacks and flags. *)
Definition skeleton (t : hsearch_data) : option (list (Z * cptr * cptr)) * Z * Z :=
  (option_map (list_fmap _ _ cell) (table t), size t, filled t).

(** The variables in the order of the slots, and as a map. *)
Definition variables (t : hsearch_data) : list (bytes * bytes) :=
  match table t with Some l => omap live (cell <$> l) | None => [] end.

Definition to_map (t : hsearch_data) : gmap bytes bytes := list_to_map (variables t).

(** How many slots have ever been used. *)
Definition taken (t : hsearch_data) : Z :=
  match table t with
  | Some l => zlen (omap (fun c => if c.1.1 =? 0 then None else Some ()) (cell <$> l))
  | None => 0
  end.

Lemma skeleton_ok t t' : skeleton t' = skeleton t → tab_ok t → tab_ok t'.
Proof.
  unfold skeleton. intros Hs (l & Hl & Hok). rewrite Hl in Hs. simplify_eq/=.
  destruct (table t') as [l'|] eqn:Hl'; simplify_eq/=. exists l'. split; [done|]. congruence.
Qed.

Lemma skeleton_variables t t' : skeleton t' = skeleton t → variables t' = variables t.
Proof.
  unfold skeleton, variables. intros Hs.
  destruct (table t), (table t'); simplify_eq/=; congruence.
Qed.

Lemma skeleton_taken t t' : skeleton t' = skeleton t → taken t' = taken t.
Proof.
  unfold skeleton, taken. intros Hs.
  destruct (table t), (table t'); simplify_eq/=; congruence.
Qed.

Lemma skeleton_map t t' : skeleton t' = skeleton t → to_map t' = to_map t.
Proof. intros Hs. unfold to_map. by rewrite (skeleton_variables _ _ Hs). Qed.

Lemma live_Some c k v : live c = Some (k, v) ↔ ∃ u, c = (u, Str k, Str v) ∧ 0 < u.
Proof.
  destruct c as [[u pk] pd]. unfold live. split.
  - intros Hc. destruct pk, pd; try done. destruct (u >? 0) eqn:E; simplify_eq. exists u. split; [done|lia].
  - intros (? & ? & ?); simplify_eq. by rewrite (proj2 (Z.gtb_lt _ _)).
Qed.

Section Cells.
Context (l : list (Z * cptr * cptr)) (sz n : Z) (Hok : cells_ok l sz n).

Lemma used_at_lookup i c : l !! i = Some c → used_at l (Z.of_nat i) = c.1.1.
Proof. intros Hi. unfold used_at. rewrite Nat2Z.id, Hi. by destruct c as [[? ?] ?]. Qed.

Lemma cells_lookup i : 0 ≤ i ≤ sz → ∃ c, l !! Z.to_nat i = Some c.
Proof.
  intros Hi. apply lookup_lt_is_Some. rewrite (c_length _ _ _ Hok). lia.
Qed.

(** A slot in use carries its key's hash, and distinct slots distinct keys. *)
Lemma live_cell i u pk pd : l !! i = Some (u, pk, pd) → 0 < u →
  ∃ k v, pk = Str k ∧ pd = Str v ∧ u = first_hash sz k ∧ reaches l sz k i.
Proof. intros Hi Hu. destruct (c_cell _ _ _ Hok _ _ _ _ Hi) as [?|[?|?]]; [lia|lia|done]. Qed.

Lemma live_omap k v : (k, v) ∈ omap live l ↔ ∃ i u, l !! i = Some (u, Str k, Str v) ∧ 0 < u.
Proof.
  rewrite list_elem_of_omap. split.
  - intros (c & Hc & Hl). apply live_Some in Hl as (u & -> & ?).
    apply list_elem_of_lookup in Hc as [i Hi]. eauto.
  - intros (i & u & Hi & Hu). exists (u, Str k, Str v). split; [by eapply list_elem_of_lookup_2|].
    apply live_Some. eauto.
Qed.
End Cells.

(** Keys of the variables are distinct. *)
Lemma omap_live_NoDup l :
  (∀ i j u u' k pd pd', l !! i = Some (u, Str k, pd) → l !! j = Some (u', Str k, pd') →
     0 < u → 0 < u' → i = j) →
  NoDup (omap live l).*1.
Proof.
  induction l as [|c l IH]; intros Hu; [constructor|].
  assert (IH' : NoDup (omap live l).*1).
  { apply IH. intros i j u u' k pd pd' Hi Hj ? ?.
    assert (S i = S j); [by eapply (Hu (S i) (S j))|lia]. }
  cbn [omap list_omap]. destruct (live c) as [[k v]|] eqn:Hc; [|done].
  cbn. constructor; [|done]. intros Hin. apply list_elem_of_fmap in Hin as ([k' v'] & Hk & Hin).
  simpl in Hk. subst k'. apply list_elem_of_omap in Hin as (c' & Hin & Hc').
  apply live_Some in Hc as (u & -> & ?). apply live_Some in Hc' as (u' & -> & ?).
  apply list_elem_of_lookup in Hin as [j Hj].
  by assert (0%nat = S j) by (eapply (Hu 0%nat (S j)); eauto).
Qed.

Lemma variables_NoDup t : tab_ok t → NoDup (variables t).*1.
Proof.
  intros (l & Hl & Hok). unfold variables. rewrite Hl. apply omap_live_NoDup. intros *. apply Hok.
Qed.

Lemma to_map_lookup t k v : tab_ok t → to_map t !! k = Some v ↔ (k, v) ∈ variables t.
Proof.
  intros Ht. symmetry. apply elem_of_list_to_map. by apply variables_NoDup.
Qed.

(** ** Searching *)

Section Search.
Context {W : Type} {HW : Heap W} {HH : EnvHooks W}.

Lemma slot_at_cell t l i : table t = Some l → cells_ok (cell <$> l) (size t) (filled t) →
  0 ≤ i ≤ size t → ∃ s, slot_at t i = Ret s ∧ l !! Z.to_nat i = Some s.
Proof.
  intros Hl Hok Hi. destruct (cells_lookup _ _ _ Hok i Hi) as [c Hc].
  rewrite list_lookup_fmap in Hc. apply fmap_Some in Hc as (s & Hs & ->).
  exists s. split; [|done]. unfold slot_at. rewrite Hl.
  rewrite (proj2 (Z.ltb_ge i 0)) by lia. by rewrite Hs.
Qed.

(** Whether slot [i] is the one of [key]. *)
Definition matches (t : hsearch_data) (l : list slot) (key : bytes) (i : Z) : Prop :=
  ∃ s, l !! Z.to_nat i = Some s ∧ used s = first_hash (size t) key ∧ e_key (entry s) = Str key.

Lemma matches_dec t l key i : Decision (matches t l key i).
Proof.
  unfold Decision. destruct (l !! Z.to_nat i) as [s|] eqn:Hs.
  - destruct (decide (used s = first_hash (size t) key ∧ e_key (entry s) = Str key)) as [[? ?]|Hn].
    + left. exists s. auto.
    + right. intros (s' & ? & ? & ?). simplify_eq. by apply Hn.
  - right. intros (s' & ? & ? & ?). simplify_eq.
Qed.

Section Fixed.
Context (t : hsearch_data) (l : list slot) (Hl : table t = Some l).
Context (Hok : cells_ok (cell <$> l) (size t) (filled t)).

Let sz := size t.
Let uat i := used_at (cell <$> l) i.

Lemma hash_in_table key : 1 ≤ first_hash sz key < sz.
Proof. apply first_hash_range, Hok. Qed.

Lemma probe_in_table key n : 1 ≤ probe_at sz (first_hash sz key) n ≤ sz.
Proof.
  assert (Hh := hash_in_table key). apply probe_at_range; [apply Hok|lia].
Qed.

Lemma slot_used i s : l !! Z.to_nat i = Some s → uat i = used s.
Proof. intros Hs. unfold uat, used_at. by rewrite list_lookup_fmap, Hs. Qed.

(** At a slot that is not the key's the search goes on. *)
Lemma compare_miss key data action flag i w : 1 ≤ i ≤ sz → ¬ matches t l key i →
  compare_and_overwrite_entry key data action t flag (first_hash sz key) i w =
    Ret (Hret (-1) None 0, t, w).
Proof.
  intros Hi Hm. unfold compare_and_overwrite_entry.
  destruct (slot_at_cell t l i Hl Hok) as (s & Hs & Hls); [unfold sz in Hi; lia|].
  erewrite comp_bind_run by by apply lift_run. cbn beta.
  destruct (u32 (used s) =? first_hash sz key) eqn:E; cbn [negb]; [|done].
  apply Z.eqb_eq in E. assert (Hh := hash_in_table key). assert (Hsz := c_size _ _ _ Hok).
  destruct (c_cell _ _ _ Hok (Z.to_nat i) (used s) (e_key (entry s)) (e_data (entry s)))
    as [H0|[H1|(k & v & Hk & Hv & Hu & _)]].
  { by rewrite list_lookup_fmap, Hls. }
  { rewrite H0 in E. unfold u32 in E. rewrite Z.mod_0_l in E by lia. lia. }
  { rewrite H1 in E. change (u32 (-1)) with U32_MAX in E. fold sz in Hsz. lia. }
  erewrite comp_bind_run by (apply lift_run; by rewrite Hk). cbn beta.
  rewrite bool_decide_eq_false_2; [done|]. intros ->. apply Hm. exists s. split_and!; auto.
Qed.

(** At the key's slot the comparison decides. *)
Lemma compare_hit_ret key data action flag i w r t' w' : 1 ≤ i ≤ sz →
  matches t l key i →
  compare_and_overwrite_entry key data action t flag (first_hash sz key) i w = Ret (r, t', w') →
  h_ret r ≠ -1.
Proof.
  intros Hi (s & Hls & Hu & Hk). unfold compare_and_overwrite_entry.
  destruct (slot_at_cell t l i Hl Hok) as (s' & Hs & Hls'); [unfold sz in Hi; lia|].
  rewrite Hls in Hls'. simplify_eq. assert (Hh := hash_in_table key).
  assert (Hsz := c_size _ _ _ Hok). fold sz in Hsz, Hu.
  erewrite comp_bind_run by by apply lift_run. cbn beta.
  rewrite Hu, u32_small by (split; lia). rewrite Z.eqb_refl. cbn [negb].
  erewrite comp_bind_run by (apply lift_run; by rewrite Hk). cbn beta.
  rewrite bool_decide_eq_true_2 by done. cbn [negb].
  intros Hr. destruct action, data; run_inv; simpl; try lia.
  all: repeat (case_hyp Hr; run_inv); simpl; lia.
Qed.

Section Key.
Context (key : bytes) (data : option bytes) (action : ACTION) (flag : Z).

Let hval := first_hash sz key.
Let at_ n := probe_at sz hval n.
Let compare i := compare_and_overwrite_entry key data action t flag hval i.

(** Where the loop ends: at the key's slot, or at the first slot never used, or
    back at the first one after all of them. *)
Lemma probe_loop_spec fuel n w :
  Z.of_nat n < sz → sz ≤ Z.of_nat (fuel + n) →
  (∀ m, (m ≤ n)%nat → uat (at_ m) ≠ 0 ∧ ¬ matches t l key (at_ m)) →
  (∃ j, Z.of_nat j < sz ∧ matches t l key (at_ j) ∧
     probe_loop fuel key data action t flag hval (second_hash sz hval) (at_ n) w =
     ('(r, t') ← compare (at_ j); mret (Some r, at_ j, t')) w) ∨
  (∃ j, (∀ m, (m < j)%nat → uat (at_ m) ≠ 0 ∧ ¬ matches t l key (at_ m)) ∧
     (Z.of_nat j = sz ∨ Z.of_nat j < sz ∧ uat (at_ j) = 0) ∧
     probe_loop fuel key data action t flag hval (second_hash sz hval) (at_ n) w =
     Ret (None, at_ j, t, w)).
Proof.
  assert (Hh := hash_in_table key). fold hval in Hh. revert n.
  induction fuel as [|fuel IH]; intros n Hn Hf Hseen; [lia|]. cbn [probe_loop].
  change (next_index (size t) (second_hash sz hval) (at_ n)) with (at_ (S n)).
  destruct (Z.eqb_spec (at_ (S n)) hval) as [He|He].
  - right. exists (S n). split_and!; [intros m Hm; apply Hseen; lia| |done]. left.
    destruct (decide (Z.of_nat (S n) = sz)) as [|Hne]; [done|].
    assert (S n = 0%nat); [|done].
    apply (probe_at_inj sz (c_prime _ _ _ Hok) (c_size _ _ _ Hok) hval); [lia|lia|lia|done].
  - assert (Hlt : Z.of_nat (S n) < sz).
    { destruct (decide (Z.of_nat (S n) = sz)) as [Hs|]; [|lia]. exfalso. apply He.
      rewrite <- (Nat2Z.id (S n)), Hs. apply probe_at_wraps; [apply Hok|lia]. }
    assert (Hr : 1 ≤ at_ (S n) ≤ sz) by apply probe_in_table.
    destruct (matches_dec t l key (at_ (S n))) as [Hm|Hm].
    + left. exists (S n). split_and!; [done|done|]. unfold mbind, comp_bind. fold (compare (at_ (S n))).
      destruct (compare (at_ (S n)) w) as [[[r t'] w']|] eqn:Hc; [|done].
      apply compare_hit_ret in Hc; [|done|done]. by rewrite (proj2 (Z.eqb_neq _ _) Hc).
    + erewrite comp_bind_run by by apply compare_miss. cbn beta iota. cbn [h_ret]. rewrite Z.eqb_refl. cbn [negb].
      destruct (slot_at_cell t l (at_ (S n)) Hl Hok) as (s & Hs & Hls); [fold sz; lia|].
      erewrite comp_bind_run by by apply lift_run. cbn beta.
      assert (Hu := slot_used _ _ Hls).
      assert (Hseen' : ∀ m, (m < S n)%nat → uat (at_ m) ≠ 0 ∧ ¬ matches t l key (at_ m))
        by (intros m Hm'; apply Hseen; lia).
      destruct (Z.eqb_spec (used s) 0) as [H0|H0].
      * right. exists (S n). split_and!; [done|right; split; [done|congruence]|done].
      * apply IH; [lia|lia|]. intros m Hm'. destruct (decide (m = S n)) as [->|];
          [split; [congruence|done]|apply Hseen; lia].
Qed.

(** A slot that a new variable may take: never used or deleted, and on the
    key's probe path; failing that, the first one, with no slot unused.  A
    deleted slot is taken only when it is the first one. *)
Definition slot_for (i : Z) : Prop :=
  1 ≤ i ≤ sz ∧ (uat i = -1 → i = hval) ∧
  ((uat i = 0 ∨ uat i = -1) ∧ reaches (cell <$> l) sz key (Z.to_nat i) ∨
   i = hval ∧ uat i ≠ -1 ∧ ∀ j, 1 ≤ j ≤ sz → uat j ≠ 0).

(** The loop having ended without a match, the key is not in the table. *)
Lemma search_absent j :
  (∀ m, (m < j)%nat → uat (at_ m) ≠ 0 ∧ ¬ matches t l key (at_ m)) →
  (Z.of_nat j = sz ∨ Z.of_nat j < sz ∧ uat (at_ j) = 0) →
  ∀ i, ¬ matches t l key i.
Proof.
  intros Hseen Hend i (s & Hs & Hu & Hk). assert (Hh := hash_in_table key).
  destruct (live_cell _ _ _ Hok (Z.to_nat i) (used s) (e_key (entry s)) (e_data (entry s)))
    as (k & v & Hk' & _ & _ & n & Hn & Hat & Hpath).
  { by rewrite list_lookup_fmap, Hs. }
  { fold sz in Hu. lia. }
  rewrite Hk in Hk'. simplify_eq. fold sz hval in Hn, Hat, Hpath. fold (at_ n) in Hat.
  assert (Hui : uat (at_ n) = used s).
  { apply slot_used. by rewrite Hat, Nat2Z.id. }
  destruct (decide (n < j)%nat) as [Hlt|].
  - destruct (Hseen n Hlt) as [_ Hm]. apply Hm. exists s. split_and!; auto. by rewrite Hat, Nat2Z.id.
  - destruct Hend as [|[Hj H0]]; [lia|]. destruct (decide (n = j)) as [->|].
    + fold sz hval in Hu. fold hval in Hh. lia.
    + apply (Hpath j); [lia|done].
Qed.

Lemma search_slot_for j (s : slot) :
  (∀ m, (m < j)%nat → uat (at_ m) ≠ 0 ∧ ¬ matches t l key (at_ m)) →
  (Z.of_nat j = sz ∨ Z.of_nat j < sz ∧ uat (at_ j) = 0) →
  l !! Z.to_nat hval = Some s →
  slot_for (if (if used s =? -1 then hval else 0) =? 0 then at_ j
            else (if used s =? -1 then hval else 0)).
Proof.
  intros Hseen Hend Hs. assert (Hh := hash_in_table key). fold hval in Hh.
  assert (Hu := slot_used _ _ Hs). destruct (Z.eqb_spec (used s) (-1)) as [Hd|Hd].
  - rewrite (proj2 (Z.eqb_neq hval 0)) by lia. split_and!; [lia|lia|done|]. left. split; [right; congruence|].
    exists 0%nat. split_and!; [lia| |lia]. cbn. fold sz. fold hval. lia.
  - cbn [Z.eqb]. split; [apply probe_in_table|]. destruct Hend as [Hj|[Hj H0]].
    + assert (Hw : at_ j = hval).
      { rewrite <- (Nat2Z.id j), Hj. apply probe_at_wraps; [apply Hok|lia]. }
      rewrite Hw. split; [done|]. right. split_and!; [done|congruence|]. intros i Hi.
      destruct (probe_at_covers sz (c_prime _ _ _ Hok) (c_size _ _ _ Hok) hval i) as (m & Hm & <-);
        [lia|done|]. apply Hseen. lia.
    + split; [rewrite H0; lia|]. left. split; [by left|]. exists j. split_and!; [done| |].
      * rewrite Z2Nat.id; [done|]. assert (Hr := probe_in_table key j). fold hval in Hr.
        fold (at_ j) in Hr. lia.
      * intros m Hm. by apply Hseen.
Qed.

(** What [hsearch_r] comes down to. *)
Lemma hsearch_cases w :
  (∃ i, 1 ≤ i ≤ sz ∧ matches t l key i ∧
     hsearch_r key data action t flag w = compare i w) ∨
  ((∀ i, ¬ matches t l key i) ∧ ∃ i, slot_for i ∧
     hsearch_r key data action t flag w =
     match action with
     | ENTER => enter_new key data t flag hval i w
     | FIND => Ret (Hret 0 None ESRCH, t, w)
     end).
Proof.
  assert (Hh := hash_in_table key). fold hval in Hh. unfold hsearch_r. fold sz. fold hval.
  destruct (slot_at_cell t l hval Hl Hok) as (s & Hs & Hls); [fold sz; lia|].
  erewrite comp_bind_run by by apply lift_run. cbn beta. assert (Hu := slot_used _ _ Hls).
  assert (Hnone : ∀ j, (∀ m, (m < j)%nat → uat (at_ m) ≠ 0 ∧ ¬ matches t l key (at_ m)) →
    (Z.of_nat j = sz ∨ Z.of_nat j < sz ∧ uat (at_ j) = 0) →
    (∀ i, ¬ matches t l key i) ∧ slot_for (if (if used s =? -1 then hval else 0) =? 0 then at_ j
            else (if used s =? -1 then hval else 0))).
  { intros j H1 H2. split; [by eapply search_absent|by apply search_slot_for]. }
  destruct (Z.eqb_spec (used s) 0) as [H0|H0].
  - right. destruct (Hnone 0%nat) as [H1 H2]; [lia|right; split; [lia|unfold at_; cbn; congruence]|].
    split; [done|]. eexists. split; [exact H2|]. by destruct action.
  - destruct (matches_dec t l key hval) as [Hm|Hm].
    + left. exists hval. split_and!; [lia|lia|done|]. unfold mbind, comp_bind. fold (compare hval).
      destruct (compare hval w) as [[[r t'] w']|] eqn:Hc; [|done].
      apply compare_hit_ret in Hc; [|lia|done]. by rewrite (proj2 (Z.eqb_neq _ _) Hc).
    + destruct (probe_loop_spec (Z.to_nat sz) 0 w) as [(j & Hj & Hmj & Hr)|(j & Hs1 & Hs2 & Hr)].
      { lia. } { lia. }
      { intros m Hm0. assert (m = 0%nat) as -> by lia. split; [unfold at_; cbn; congruence|done]. }
      * left. exists (at_ j). split_and!; [apply probe_in_table|apply probe_in_table|done|].
        change (at_ 0) with hval in Hr. unfold mbind, comp_bind in Hr |- *.
        unfold hval at 1. rewrite compare_miss by (first [lia|done]). fold hval. cbn beta iota. cbn [h_ret].
        rewrite Z.eqb_refl. cbn [negb]. fold sz. rewrite Hr. unfold compare.
        by destruct (compare_and_overwrite_entry _ _ _ _ _ _ _ w) as [[[r t'] w']|].
      * right. destruct (Hnone j Hs1 Hs2) as [H1 H2]. split; [done|]. eexists. split; [exact H2|].
        change (at_ 0) with hval in Hr. unfold mbind, comp_bind in Hr |- *.
        unfold hval at 1. rewrite compare_miss by (first [lia|done]). fold hval. cbn beta iota. cbn [h_ret].
        rewrite Z.eqb_refl. cbn [negb]. fold sz. rewrite Hr. by destruct action.
Qed.
End Key.
End Fixed.
End Search.

(** ** Changing a slot *)

Definition some1 {A} (o : option A) : Z := match o with Some _ => 1 | None => 0 end.

Definition is_live (c : Z * cptr * cptr) : Z := some1 (live c).

Lemma used_at_insert l i c j : (i < length l)%nat → 0 ≤ j →
  used_at (<[i := c]> l) j = if decide (Z.to_nat j = i) then c.1.1 else used_at l j.
Proof.
  intros Hi Hj. unfold used_at. destruct (decide (Z.to_nat j = i)) as [->|].
  - rewrite list_lookup_insert_eq by done. by destruct c as [[? ?] ?].
  - by rewrite list_lookup_insert_ne by done.
Qed.

Lemma zlen_omap_insert {A B} (f : A → option B) l i c c' : l !! i = Some c' →
  zlen (omap f (<[i := c]> l)) = zlen (omap f l) - some1 (f c') + some1 (f c).
Proof.
  intros Hi. assert (Hlt := lookup_lt_Some _ _ _ Hi). rewrite insert_take_drop by done.
  assert (Hl : omap f l = omap f (take i l ++ c' :: drop (S i) l))
    by (by rewrite take_drop_middle).
  rewrite Hl, !omap_app. cbn [omap list_omap].
  destruct (f c), (f c'); cbn [some1]; autorewrite with bytes; lia.
Qed.

(** A slot may be replaced by one that is in use or deleted, as long as a key
    it gets is nowhere else and can reach it. *)
Lemma cells_insert l sz n i c c' : cells_ok l sz n → l !! i = Some c' → i ≠ 0%nat →
  c.1.1 = -1 ∧ live c = None ∨
  (∃ k v, c = (first_hash sz k, Str k, Str v) ∧ reaches l sz k i ∧
     ∀ j u pd, l !! j = Some (u, Str k, pd) → 0 < u → j = i) →
  cells_ok (<[i := c]> l) sz (n - is_live c' + is_live c).
Proof.
  intros Hok Hi Hi0 Hc. assert (Hlt := lookup_lt_Some _ _ _ Hi).
  assert (Hsz := c_size _ _ _ Hok). assert (Hp := c_prime _ _ _ Hok).
  assert (Hnz : c.1.1 ≠ 0).
  { destruct Hc as [[-> _]|(k & v & -> & _)]; [done|]. simpl. assert (Hh := first_hash_range sz Hsz k). lia. }
  assert (Hreach : ∀ k j, reaches l sz k j → reaches (<[i := c]> l) sz k j).
  { intros k j (m & Hm & Hat & Hpath). exists m. split_and!; [done|done|]. intros m' Hm'.
    assert (Hh := first_hash_range sz Hsz k).
    assert (Hr := probe_at_range sz Hsz (first_hash sz k) m' ltac:(lia)).
    rewrite used_at_insert by (done || lia). case_decide; auto. }
  constructor; [done|done| | | | |].
  - by rewrite length_insert, (c_length _ _ _ Hok).
  - rewrite used_at_insert by (done || lia). case_decide as Hz; [by subst i|apply Hok].
  - intros j u pk pd Hj. destruct (decide (j = i)) as [->|Hne].
    + rewrite list_lookup_insert_eq in Hj by done. simplify_eq.
      destruct Hc as [[? _]|(k & v & ? & ? & _)]; simplify_eq/=; [by right; left|].
      right; right. exists k, v. auto.
    + rewrite list_lookup_insert_ne in Hj by done.
      destruct (c_cell _ _ _ Hok _ _ _ _ Hj) as [?|[?|(k & v & ? & ? & ? & ?)]]; [auto|auto|].
      right; right. exists k, v. auto.
  - intros j1 j2 u u' k pd pd' H1 H2 Hu Hu'. destruct (decide (j1 = i)) as [->|], (decide (j2 = i)) as [->|]; [done| | |].
    1, 2: destruct Hc as [[? Hl]|(k' & v & -> & _ & Huniq)].
    all: repeat first [rewrite list_lookup_insert_eq in * by done | rewrite list_lookup_insert_ne in * by done].
    all: simplify_eq/=; try lia; try (symmetry; by eapply Huniq); try (by eapply Huniq); by eapply Hok.
  - rewrite (zlen_omap_insert _ _ _ _ _ Hi). by rewrite (c_filled _ _ _ Hok).
Qed.

Lemma to_map_ext t m : tab_ok t → (∀ k v, (k, v) ∈ variables t ↔ m !! k = Some v) → to_map t = m.
Proof.
  intros Ht Hm. apply map_eq. intros k. apply option_eq. intros v.
  rewrite to_map_lookup by done. apply Hm.
Qed.

Lemma omap_length_le {A B} (f : A → option B) l : (length (omap f l) ≤ length l)%nat.
Proof. induction l as [|x l IH]; cbn; [done|]. destruct (f x); cbn; lia. Qed.

Lemma tab_filled t : tab_ok t → filled t = zlen (variables t).
Proof. intros (l & Hl & Hok). unfold variables. rewrite Hl. apply Hok. Qed.

Lemma filled_range t : tab_ok t → 0 ≤ filled t ≤ size t + 1.
Proof.
  intros (l & Hl & Hok). rewrite (c_filled _ _ _ Hok). split; [apply zlen_nonneg|].
  assert (Hlen := c_length _ _ _ Hok). assert (Hs := c_size _ _ _ Hok).
  assert (Hle := omap_length_le live (cell <$> l)). unfold zlen. lia.
Qed.

(** The variables after a store to a slot. *)
Lemma variables_put t l i s k v : table t = Some l → 0 ≤ i → (Z.to_nat i < length l)%nat →
  (k, v) ∈ variables (put_slot t i s) ↔
  live (cell s) = Some (k, v) ∨
  ∃ j u, j ≠ Z.to_nat i ∧ (cell <$> l) !! j = Some (u, Str k, Str v) ∧ 0 < u.
Proof.
  intros Hl Hi Hlt. unfold variables, put_slot. rewrite Hl. simpl.
  rewrite live_omap, list_fmap_insert. split.
  - intros (j & u & Hj & Hu). destruct (decide (j = Z.to_nat i)) as [->|].
    + rewrite list_lookup_insert_eq in Hj by (by rewrite length_fmap). left.
      apply live_Some. exists u. split; congruence.
    + rewrite list_lookup_insert_ne in Hj by done. right. eauto.
  - intros [Hc|(j & u & Hne & Hj & Hu)].
    + apply live_Some in Hc as (u & Hc & Hu). exists (Z.to_nat i), u.
      rewrite list_lookup_insert_eq by (by rewrite length_fmap). by rewrite Hc.
    + exists j, u. by rewrite list_lookup_insert_ne.
Qed.

(** Well-formedness after a store to a slot; [n] is the new count. *)
Lemma tab_put t l i s s' n : table t = Some l → cells_ok (cell <$> l) (size t) (filled t) →
  1 ≤ i ≤ size t → l !! Z.to_nat i = Some s' →
  used s = -1 ∧ live (cell s) = None ∨
  (∃ k v, cell s = (first_hash (size t) k, Str k, Str v) ∧
     reaches (cell <$> l) (size t) k (Z.to_nat i) ∧
     ∀ j u pd, (cell <$> l) !! j = Some (u, Str k, pd) → 0 < u → j = Z.to_nat i) →
  n = filled t - is_live (cell s') + is_live (cell s) →
  tab_ok (set_filled (put_slot t i s) n).
Proof.
  intros Hl Hok Hi Hs' Hc ->. unfold tab_ok, put_slot, set_filled. rewrite Hl.
  eexists. split; [reflexivity|]. cbn [size filled]. rewrite list_fmap_insert.
  apply cells_insert; [done|by rewrite list_lookup_fmap, Hs'|lia|done].
Qed.

Section Store.
Context (t : hsearch_data) (l : list slot) (Hl : table t = Some l).
Context (Hok : cells_ok (cell <$> l) (size t) (filled t)).

Lemma tab_ok_here : tab_ok t.
Proof. by exists l. Qed.

Lemma cell_in_table i s : l !! i = Some s → (i < length l)%nat.
Proof. apply lookup_lt_Some. Qed.

Lemma variables_here k v :
  (k, v) ∈ variables t ↔ ∃ j u, (cell <$> l) !! j = Some (u, Str k, Str v) ∧ 0 < u.
Proof. unfold variables. rewrite Hl. apply live_omap. Qed.

(** The slot of a key is the only place of the key. *)
Lemma matches_lookup key i s : 0 ≤ i → l !! Z.to_nat i = Some s →
  used s = first_hash (size t) key → e_key (entry s) = Str key →
  ∃ v, e_data (entry s) = Str v ∧ to_map t !! key = Some v ∧
    reaches (cell <$> l) (size t) key (Z.to_nat i) ∧
    (∀ j u pd, (cell <$> l) !! j = Some (u, Str key, pd) → 0 < u → j = Z.to_nat i).
Proof.
  intros Hi Hs Hu Hk. assert (Hh := first_hash_range (size t) (c_size _ _ _ Hok) key).
  assert (Hc : (cell <$> l) !! Z.to_nat i = Some (used s, e_key (entry s), e_data (entry s)))
    by (by rewrite list_lookup_fmap, Hs).
  destruct (live_cell _ _ _ Hok _ _ _ _ Hc ltac:(lia)) as (k & v & Hk' & Hv & _ & Hr).
  rewrite Hk in Hk'. simplify_eq. exists v. split_and!; [done| |done|].
  - apply to_map_lookup; [apply tab_ok_here|]. apply variables_here.
    exists (Z.to_nat i), (used s). rewrite Hc, Hk, Hv. split; [done|lia].
  - intros j u pd Hj Hju. eapply (c_unique _ _ _ Hok); [exact Hj| |done|].
    + rewrite Hc, Hk. reflexivity.
    + lia.
Qed.

(** An absent key. *)
Lemma no_match_None key : (∀ i, ¬ matches t l key i) →
  to_map t !! key = None ∧ (∀ j u pd, (cell <$> l) !! j = Some (u, Str key, pd) → ¬ 0 < u).
Proof.
  intros Hm. assert (Hno : ∀ j u pd, (cell <$> l) !! j = Some (u, Str key, pd) → ¬ 0 < u).
  { intros j u pd Hj Hu. destruct (live_cell _ _ _ Hok _ _ _ _ Hj Hu) as (k & v & ? & ? & -> & _).
    simplify_eq. rewrite list_lookup_fmap in Hj. apply fmap_Some in Hj as (s & Hs & Hc).
    apply (Hm (Z.of_nat j)). exists s. rewrite Nat2Z.id. unfold cell in Hc. by simplify_eq. }
  split; [|done]. apply eq_None_not_Some. intros [v Hv].
  apply to_map_lookup in Hv; [|apply tab_ok_here]. apply variables_here in Hv as (j & u & Hj & Hu).
  by apply (Hno _ _ _ Hj).
Qed.

(** Storing a value in the slot of a key, or in a free slot it reaches. *)
Lemma store_insert key v i s s' n : 1 ≤ i ≤ size t → l !! Z.to_nat i = Some s' →
  cell s = (first_hash (size t) key, Str key, Str v) →
  reaches (cell <$> l) (size t) key (Z.to_nat i) →
  (∀ j u pd, (cell <$> l) !! j = Some (u, Str key, pd) → 0 < u → j = Z.to_nat i) →
  (used s' ≤ 0 ∨ e_key (entry s') = Str key) →
  n = filled t - is_live (cell s') + 1 →
  tab_ok (set_filled (put_slot t i s) n) ∧
  to_map (set_filled (put_slot t i s) n) = <[key := v]> (to_map t).
Proof.
  intros Hi Hs' Hc Hr Huniq Hold Hn. assert (Hh := first_hash_range (size t) (c_size _ _ _ Hok) key).
  assert (Hlive : live (cell s) = Some (key, v)) by (rewrite Hc; apply live_Some; eexists; split; [done|lia]).
  assert (Ht : tab_ok (set_filled (put_slot t i s) n)).
  { apply (tab_put t l i s s'); auto; [right; exists key, v; auto|].
    rewrite Hn. unfold is_live at 3. by rewrite Hlive. }
  split; [done|]. apply to_map_ext; [done|]. intros k' v'.
  change (variables (set_filled _ n)) with (variables (put_slot t i s)).
  rewrite (variables_put t l) by (first [done|lia|by eapply cell_in_table]).
  rewrite Hlive, lookup_insert_Some. split.
  - intros [?|(j & u & Hne & Hj & Hu)]; simplify_eq; [by left|]. right.
    rewrite to_map_lookup by apply tab_ok_here. split; [|apply variables_here; eauto].
    intros <-. by eapply Hne, Huniq.
  - intros [[<- <-]|[Hne Hm]]; [by left|right].
    apply to_map_lookup in Hm; [|apply tab_ok_here]. apply variables_here in Hm as (j & u & Hj & Hu).
    exists j, u. split_and!; [|done|done]. intros ->. rewrite list_lookup_fmap, Hs' in Hj.
    unfold cell in Hj. simplify_eq/=. destruct Hold; [lia|congruence].
Qed.

(** Storing a new key over the variable in its own first slot: the count that
    fits is the old one. *)
Lemma store_overwrite key v i s s' k0 v0 : i = first_hash (size t) key → l !! Z.to_nat i = Some s' →
  live (cell s') = Some (k0, v0) → cell s = (first_hash (size t) key, Str key, Str v) →
  (∀ j u pd, (cell <$> l) !! j = Some (u, Str key, pd) → ¬ 0 < u) →
  tab_ok (set_filled (put_slot t i s) (filled t)) ∧
  to_map (put_slot t i s) = <[key := v]> (delete k0 (to_map t)).
Proof.
  intros Hi Hs' Hold Hc Hno. assert (Hh := first_hash_range (size t) (c_size _ _ _ Hok) key).
  assert (Hlive : live (cell s) = Some (key, v)) by (rewrite Hc; apply live_Some; eexists; split; [done|lia]).
  assert (Ht : tab_ok (set_filled (put_slot t i s) (filled t))).
  { apply (tab_put t l i s s'); auto; [lia| |unfold is_live; rewrite Hold, Hlive; cbn; lia].
    right. exists key, v. split_and!; [done| |by intros j u pd Hj Hu; destruct (Hno j u pd Hj)].
    exists 0%nat. split_and!; [lia| |lia]. cbn [probe_at]. lia. }
  split; [done|]. change (to_map (put_slot t i s)) with (to_map (set_filled (put_slot t i s) (filled t))).
  apply live_Some in Hold as (u0 & Hc' & Hu0).
  assert (Hi' : (cell <$> l) !! Z.to_nat i = Some (u0, Str k0, Str v0))
    by (by rewrite list_lookup_fmap, Hs', <- Hc').
  apply to_map_ext; [done|]. intros k' v'.
  change (variables (set_filled _ (filled t))) with (variables (put_slot t i s)).
  rewrite (variables_put t l) by (first [done|lia|by eapply cell_in_table]).
  rewrite Hlive, lookup_insert_Some, lookup_delete_Some, to_map_lookup, variables_here by apply tab_ok_here.
  split.
  - intros [?|(j & u & Hne & Hj & Hu)]; simplify_eq; [by left|]. right. split_and!; [| |eauto].
    + intros <-. by apply (Hno _ _ _ Hj).
    + intros <-. apply Hne. by eapply (c_unique _ _ _ Hok).
  - intros [[<- <-]|(Hne & Hne' & j & u & Hj & Hu)]; [by left|right]. exists j, u.
    split_and!; [|done|done]. intros ->. rewrite Hi' in Hj. by simplify_eq.
Qed.

(** Deleting the slot of a key. *)
Lemma store_delete key v i s' s n : 1 ≤ i ≤ size t → l !! Z.to_nat i = Some s' →
  live (cell s') = Some (key, v) → used s = -1 → live (cell s) = None →
  n = filled t - 1 →
  tab_ok (set_filled (put_slot t i s) n) ∧
  to_map (set_filled (put_slot t i s) n) = delete key (to_map t).
Proof.
  intros Hi Hs' Hlive Hu Hc Hn.
  assert (Ht : tab_ok (set_filled (put_slot t i s) n)).
  { eapply tab_put; eauto. unfold is_live. rewrite Hlive, Hc. cbn. lia. }
  split; [done|]. apply to_map_ext; [done|]. intros k' v'.
  change (variables (set_filled _ n)) with (variables (put_slot t i s)).
  rewrite (variables_put t l) by (first [done|lia|by eapply cell_in_table]).
  rewrite Hc, lookup_delete_Some, to_map_lookup, variables_here by apply tab_ok_here.
  apply live_Some in Hlive as (u0 & Hc' & Hu0).
  assert (Hi' : (cell <$> l) !! Z.to_nat i = Some (u0, Str key, Str v))
    by (by rewrite list_lookup_fmap, Hs', <- Hc').
  split.
  - intros [?|(j & u & Hne & Hj & Hju)]; [done|]. split; [|eauto]. intros <-.
    apply Hne. by eapply (c_unique _ _ _ Hok).
  - intros [Hne (j & u & Hj & Hju)]. right. exists j, u. split_and!; [|done|done].
    intros ->. rewrite Hi' in Hj. by simplify_eq.
Qed.
End Store.

(** ** Counting the slots in use *)

Lemma taken_put t l i s s' n : table t = Some l → l !! Z.to_nat i = Some s' →
  taken (set_filled (put_slot t i s) n) =
  taken t - (if used s' =? 0 then 0 else 1) + (if used s =? 0 then 0 else 1).
Proof.
  intros Hl Hs. unfold taken, set_filled, put_slot. cbn [table]. rewrite Hl. cbn [fmap option_fmap option_map].
  rewrite list_fmap_insert, (zlen_omap_insert _ _ _ _ (cell s')) by (by rewrite list_lookup_fmap, Hs).
  unfold cell. cbn [fst]. by destruct (used s =? 0), (used s' =? 0).
Qed.

Lemma omap_full {A B} (f : A → option B) l : (∀ x, x ∈ l → is_Some (f x)) → zlen (omap f l) = zlen l.
Proof.
  induction l as [|x l IH]; intros Hf; [done|]. cbn [omap list_omap].
  destruct (Hf x) as [y Hy]; [by left|]. rewrite Hy. autorewrite with bytes.
  rewrite IH; [done|]. intros z Hz. apply Hf. by right.
Qed.

(** As long as fewer slots than the size are taken, one is unused. *)
Lemma taken_unused t l : table t = Some l → cells_ok (cell <$> l) (size t) (filled t) →
  taken t < size t → ∃ j, 1 ≤ j ≤ size t ∧ used_at (cell <$> l) j = 0.
Proof.
  intros Hl Hok Ht. destruct (decide (Exists (λ c, c.1.1 = 0) (drop 1 (cell <$> l)))) as [He|He].
  - apply Exists_exists in He as (c & Hc & H0). apply list_elem_of_lookup in Hc as [j Hj].
    rewrite lookup_drop in Hj. exists (Z.of_nat (1 + j)).
    assert (Hlt := lookup_lt_Some _ _ _ Hj). rewrite (c_length _ _ _ Hok) in Hlt.
    assert (Hs := c_size _ _ _ Hok). split; [lia|]. by erewrite used_at_lookup by done.
  - exfalso. unfold taken in Ht. rewrite Hl in Ht. revert Ht He. assert (Hlen := c_length _ _ _ Hok).
    assert (Hs := c_size _ _ _ Hok). assert (Hz := c_zero _ _ _ Hok). unfold used_at in Hz.
    destruct (cell <$> l) as [|[[u0 k0] v0] cs]; [done|]. change (u0 = 0) in Hz. subst u0.
    cbn [omap list_omap fst Z.eqb drop]. intros Ht He. rewrite omap_full in Ht.
    + unfold zlen in Ht. simpl in Hlen. lia.
    + intros [[u k] v] Hx. cbn [fst]. destruct (Z.eqb_spec u 0); [|eauto]. exfalso.
      apply He, Exists_exists. exists (u, k, v). auto.
Qed.

(** ** The operations *)

Section Ops.
Context {W : Type} {HW : Heap W} {HH : EnvHooks W}.

(** What the table needs of the functions it calls: they set the callback and
    the flags of an entry and nothing else of the table. *)
Class HookLaws : Prop := {
  callback_init_keeps t e w e' w' : env_callback_init t e w = Ret (e', w') →
    e_key e' = e_key e ∧ e_data e' = e_data e;
  flags_init_keeps t e w e' w' : env_flags_init t e w = Ret (e', w') →
    e_key e' = e_key e ∧ e_data e' = e_data e;
  callback_keeps cb k v op fl t w r t' w' :
    callback_call cb k v op fl t w = Ret (r, t', w') → skeleton t' = skeleton t }.

(** Some request to the allocator is refused. *)
Definition out_of_memory : Prop := ∃ n (w : W), (heap_alloc n w).1 = false.

Lemma strdup_Ret s w p w' : strdup (Some s) w = Ret (p, w') → p = Str s ∨ p = Null ∧ out_of_memory.
Proof.
  unfold strdup. intros Hr. run_inv. destruct x eqn:E; [by left|right]. split; [done|].
  exists (zlen s + 1), w. destruct (heap_alloc (zlen s + 1) w); by simplify_eq/=.
Qed.

(** Find: the entry of the key, or the error; the table is not changed. *)
Lemma hfind_spec t key data flag w : tab_ok t →
  ∃ r, hsearch_r key data FIND t flag w = Ret (r, t, w) ∧
  match to_map t !! key with
  | Some v => 1 ≤ h_ret r ≤ size t ∧ h_val r = Some (h_ret r) ∧ h_errno r = 0 ∧
      ∃ s, slot_at t (h_ret r) = Ret s ∧ cell s = (first_hash (size t) key, Str key, Str v)
  | None => r = Hret 0 None ESRCH
  end.
Proof.
  intros (l & Hl & Hok).
  destruct (hsearch_cases t l Hl Hok key data FIND flag w)
    as [(i & Hi & (s & Hs & Hu & Hk) & Hr)|(Hno & i & Hi & Hr)].
  - destruct (matches_lookup t l Hl Hok key i s) as (v & Hv & Hm & _); [lia|done|done|done|].
    exists (Hret i (Some i) 0). rewrite Hm. split.
    + rewrite Hr. unfold compare_and_overwrite_entry.
      assert (Hsl : slot_at t i = Ret s).
      { unfold slot_at. by rewrite Hl, (proj2 (Z.ltb_ge i 0)), Hs by lia. }
      assert (Hh := first_hash_range (size t) (c_size _ _ _ Hok) key).
      assert (Hsz := c_size _ _ _ Hok).
      erewrite comp_bind_run by (apply lift_run; exact Hsl). cbn beta.
      rewrite Hu, u32_small, Z.eqb_refl by (split; lia). cbn [negb].
      erewrite comp_bind_run by (apply lift_run; by rewrite Hk). cbn beta.
      by rewrite bool_decide_eq_true_2.
    + cbn [h_ret h_val h_errno]. split_and!; [lia|lia|done|done|]. exists s. split.
      * unfold slot_at. by rewrite Hl, (proj2 (Z.ltb_ge i 0)), Hs by lia.
      * unfold cell. by rewrite Hu, Hk, Hv.
  - destruct (no_match_None t l Hl Hok key Hno) as [Hm _]. rewrite Hm. eauto.
Qed.

Lemma slot_at_lookup t l i s : table t = Some l → 0 ≤ i → l !! Z.to_nat i = Some s → slot_at t i = Ret s.
Proof. intros Hl Hi Hs. unfold slot_at. by rewrite Hl, (proj2 (Z.ltb_ge i 0)), Hs by lia. Qed.

Lemma slot_at_Ret t i s : slot_at t i = Ret s →
  ∃ l, table t = Some l ∧ 0 ≤ i ∧ l !! Z.to_nat i = Some s.
Proof.
  unfold slot_at. destruct (table t) as [l|]; [|done]. destruct (Z.ltb_spec i 0); [done|].
  destruct (l !! Z.to_nat i) eqn:E; intros ?; simplify_eq. eauto.
Qed.

Lemma hdelete_slot t i s key v : tab_ok t → 1 ≤ i ≤ size t → slot_at t i = Ret s →
  live (cell s) = Some (key, v) →
  ∃ t', _hdelete t i = Ret t' ∧ tab_ok t' ∧ to_map t' = delete key (to_map t) ∧
    size t' = size t ∧ taken t' = taken t.
Proof.
  intros (l & Hl & Hok) Hi Hs Hlive. apply slot_at_Ret in Hs as Hs'. destruct Hs' as (l' & Hl' & _ & Hls).
  rewrite Hl in Hl'. simplify_eq.
  assert (Hf := filled_range t (ex_intro _ _ (conj Hl Hok))). assert (Hsz := c_size _ _ _ Hok).
  assert (Hpos : 0 < filled t).
  { rewrite (c_filled _ _ _ Hok).
    assert (Hin : (key, v) ∈ omap live (cell <$> l')).
    { apply list_elem_of_omap. exists (cell s). split; [|done].
      apply list_elem_of_fmap. exists s. split; [done|]. by eapply list_elem_of_lookup_2. }
    destruct (omap live (cell <$> l')); [by apply not_elem_of_nil in Hin|].
    rewrite zlen_cons. assert (Hz := zlen_nonneg l). lia. }
  apply live_Some in Hlive as Hc. destruct Hc as (u & Hc & Hu). unfold cell in Hc.
  injection Hc as Hu' Hk Hv. unfold _hdelete. rewrite Hs. cbn. rewrite Hk, Hv. cbn. eexists. split; [reflexivity|].
  rewrite u32_small by (split; lia).
  destruct (store_delete t l' Hl Hok key v i s (Slot (-1) (Entry Freed Freed None 0)) (filled t - 1))
    as [Ht Hm]; [done|done|done|done|done|done|].
  split_and!; [done|done|done|].
  rewrite (taken_put t l' i _ s) by done. cbn [used]. rewrite (proj2 (Z.eqb_neq (used s) 0)) by lia.
  change (-1 =? 0) with false. cbv iota. lia.
Qed.

(** What entering a variable can lead to.  Only when memory runs out is the
    table not promised to be well formed. *)
Inductive enter_outcome (t : hsearch_data) (key d : bytes) : hret → hsearch_data → Prop :=
  | Entered ret i t' : 0 < ret → tab_ok t' → size t' = size t → taken t' ≤ taken t + 1 →
      to_map t' = <[key := d]> (to_map t) →
      enter_outcome t key d (Hret ret (Some i) 0) t'
  | Refused e t' : e = EPERM ∨ e = EINVAL → tab_ok t' → size t' = size t →
      taken t' ≤ taken t + 1 → to_map t' = to_map t →
      enter_outcome t key d (Hret 0 None e) t'
  | Full : filled t = size t → enter_outcome t key d (Hret 0 None ENOMEM) t
  | NoMemory t' : out_of_memory → enter_outcome t key d (Hret 0 None ENOMEM) t'.

Context {HL : HookLaws}.

Lemma call_callback_skeleton e k v op fl t w r t' w' :
  call_callback e k v op fl t w = Ret (r, t', w') → skeleton t' = skeleton t.
Proof.
  unfold call_callback. destruct (e_callback e); intros Hr; [by eapply callback_keeps|by run_inv].
Qed.

(** A slot of a table with the same skeleton has the same cell. *)
Lemma skeleton_slot t t' i s s' : skeleton t' = skeleton t → slot_at t i = Ret s →
  slot_at t' i = Ret s' → cell s' = cell s.
Proof.
  intros Hs H1 H2. apply slot_at_Ret in H1 as (l1 & Hl1 & _ & H1), H2 as (l2 & Hl2 & _ & H2).
  unfold skeleton in Hs. rewrite Hl1, Hl2 in Hs. injection Hs as Hs _ _.
  assert (Hc := f_equal (λ l, l !! Z.to_nat i) Hs). change list_fmap with (@fmap list _) in Hc.
  cbn beta in Hc. rewrite !list_lookup_fmap, H1, H2 in Hc. cbn [fmap option_fmap option_map] in Hc. congruence.
Qed.

Lemma skeleton_size t t' : skeleton t' = skeleton t → size t' = size t.
Proof. unfold skeleton. congruence. Qed.

Lemma overwrite_spec t l key d flag i w r t' w' : table t = Some l →
  cells_ok (cell <$> l) (size t) (filled t) → 1 ≤ i ≤ size t → matches t l key i →
  compare_and_overwrite_entry key (Some d) ENTER t flag (first_hash (size t) key) i w =
    Ret (r, t', w') →
  enter_outcome t key d r t'.
Proof.
  intros Hl Hok Hi (s & Hs & Hu & Hk) Hr. unfold compare_and_overwrite_entry in Hr.
  assert (Hsl := slot_at_lookup t l i s Hl ltac:(lia) Hs).
  assert (Hh := first_hash_range (size t) (c_size _ _ _ Hok) key). assert (Hsz := c_size _ _ _ Hok).
  erewrite comp_bind_run in Hr by (apply lift_run; exact Hsl). cbn beta in Hr.
  rewrite Hu, u32_small, Z.eqb_refl in Hr by (split; lia). cbn [negb] in Hr.
  erewrite comp_bind_run in Hr by (apply lift_run; by rewrite Hk). cbn beta in Hr.
  rewrite bool_decide_eq_true_2 in Hr by done. cbn [negb] in Hr.
  assert (Ht : tab_ok t) by (by exists l).
  apply comp_bind_Ret in Hr as (rej & w1 & _ & Hr).
  destruct (rej =? 0); cbn [negb] in Hr; [|run_inv; apply Refused; auto; lia].
  apply comp_bind_Ret in Hr as ([rej' t1] & w2 & Hcb & Hr). apply call_callback_skeleton in Hcb as Hsk.
  assert (Hsk1 := skeleton_size _ _ Hsk). assert (Hsk2 := skeleton_taken _ _ Hsk).
  assert (Hsk3 := skeleton_map _ _ Hsk). assert (Ht1 := skeleton_ok _ _ Hsk Ht).
  destruct (rej' =? 0); cbn [negb] in Hr; [|run_inv; apply Refused; auto; lia].
  apply comp_bind_Ret in Hr as (s1 & w3 & Hsl1 & Hr). apply lift_Ret in Hsl1 as (? & Hsl1 & [= <- <-]).
  assert (Hc := skeleton_slot _ _ _ _ _ Hsk Hsl Hsl1). unfold cell in Hc. injection Hc as Hcu Hck Hcd.
  apply slot_at_Ret in Hsl1 as (l1 & Hl1 & _ & Hs1). destruct Ht1 as (l1' & Hl1' & Hok1).
  rewrite Hl1 in Hl1'. injection Hl1' as <-.
  apply comp_bind_Ret in Hr as (? & w4 & Hf & Hr).
  apply comp_bind_Ret in Hr as (p & w5 & Hp & Hr). apply strdup_Ret in Hp as [->|[-> ?]].
  - run_inv.
    destruct (matches_lookup t1 l1 Hl1 Hok1 key i s1) as (v0 & Hv0 & Hm0 & Hreach & Huniq);
      [lia|done|congruence|congruence|].
    assert (Hlive : is_live (cell s1) = 1).
    { unfold is_live, cell. rewrite Hcu, Hck, Hv0, Hu, Hk. unfold live. by rewrite (proj2 (Z.gtb_lt _ _)) by lia. }
    edestruct (store_insert t1 l1 Hl1 Hok1 key d i (Slot (used s1) (Entry (e_key (entry s1)) (Str d)
      (e_callback (entry s1)) (e_flags (entry s1)))) s1 (filled t1)) as [Ht' Hm'];
      [lia|done|unfold cell; cbn; congruence|done|done|right; congruence|lia|].
    apply Entered; [lia|exact Ht'|done| |by rewrite <- Hsk3].
    change (put_slot t1 i ?x) with (set_filled (put_slot t1 i x) (filled t1)).
    rewrite (taken_put t1 l1 i _ s1) by done. cbn [used]. lia.
  - run_inv. by apply NoMemory.
Qed.

(** A new variable just stored: the table is well formed, the map has it, and
    replacing callback and flags of the entry changes neither. *)
Lemma fresh_store t l key d i s cb fl : table t = Some l →
  cells_ok (cell <$> l) (size t) (filled t) → (∀ i, ¬ matches t l key i) → 1 ≤ i ≤ size t →
  l !! Z.to_nat i = Some s → used s = 0 ∨ used s = -1 →
  reaches (cell <$> l) (size t) key (Z.to_nat i) →
  let t' := set_filled (put_slot t i (Slot (first_hash (size t) key) (Entry (Str key) (Str d) cb fl)))
              (filled t + 1) in
  tab_ok t' ∧ to_map t' = <[key := d]> (to_map t) ∧ taken t' ≤ taken t + 1 ∧
  to_map t !! key = None ∧
  ∃ s', slot_at t' i = Ret s' ∧ live (cell s') = Some (key, d).
Proof.
  intros Hl Hok Hno Hi Hs Hu Hr t'. destruct (no_match_None t l Hl Hok key Hno) as [Hm Hdead].
  assert (Hh := first_hash_range (size t) (c_size _ _ _ Hok) key).
  edestruct (store_insert t l Hl Hok key d i
    (Slot (first_hash (size t) key) (Entry (Str key) (Str d) cb fl)) s) as [Ht' Hm'];
    [lia|exact Hs|reflexivity|done| | | |].
  - intros j u pd Hj Hju. by destruct (Hdead _ _ _ Hj).
  - left. lia.
  - reflexivity.
  - assert (is_live (cell s) = 0) as Hz.
    { unfold is_live, cell, live. repeat case_match; simpl; auto. lia. }
    rewrite Hz, Z.sub_0_r in Ht', Hm'. split_and!; [exact Ht'|exact Hm'| |done|].
    + unfold t'. rewrite (taken_put t l i _ s) by done. cbn [used].
      rewrite (proj2 (Z.eqb_neq (first_hash _ _) 0)) by lia. case_match; lia.
    + eexists. split.
      * eapply slot_at_lookup; [unfold t', set_filled, put_slot; cbn [table]; by rewrite Hl|lia|].
        apply list_lookup_insert_eq. by eapply lookup_lt_Some.
      * apply live_Some. exists (first_hash (size t) key). split; [done|lia].
Qed.

Lemma put_put t i s s' : put_slot (put_slot t i s) i s' = put_slot t i s'.
Proof.
  unfold put_slot. cbn [table size filled]. f_equal. destruct (table t); [|done]. cbn.
  by rewrite list_insert_insert_eq.
Qed.

Lemma put_set_filled t i s n : put_slot (set_filled t n) i s = set_filled (put_slot t i s) n.
Proof. done. Qed.

(** Undoing the store of a variable that was rejected. *)
Lemma undo_store t t' t'' i s s'' key d e : tab_ok t' → to_map t' = <[key := d]> (to_map t) →
  to_map t !! key = None → size t' = size t → taken t' ≤ taken t + 1 →
  skeleton t'' = skeleton t' → slot_at t' i = Ret s → live (cell s) = Some (key, d) →
  1 ≤ i ≤ size t → e = EPERM ∨ e = EINVAL → slot_at t'' i = Ret s'' →
  ∀ t3, _hdelete t'' i = Ret t3 → enter_outcome t key d (Hret 0 None e) t3.
Proof.
  intros Ht' Hm' Hm Hsize Htk Hsk Hs Hlive Hi He Hs'' t3 H3.
  assert (Hc := skeleton_slot _ _ _ _ _ Hsk Hs Hs''). assert (Hsz := skeleton_size _ _ Hsk).
  destruct (hdelete_slot t'' i s'' key d) as (t4 & H4 & Hok4 & Hm4 & Hsz4 & Htk4).
  { by eapply skeleton_ok. } { lia. } { done. } { by rewrite Hc. }
  rewrite H3 in H4. injection H4 as <-. apply Refused; [done|done|lia| |].
  - rewrite Htk4, (skeleton_taken _ _ Hsk). lia.
  - by rewrite Hm4, (skeleton_map _ _ Hsk), Hm', delete_insert_id.
Qed.

Lemma enter_new_spec t l key d flag i w r t' w' : table t = Some l →
  cells_ok (cell <$> l) (size t) (filled t) → (∀ i, ¬ matches t l key i) → 1 ≤ i ≤ size t →
  used_at (cell <$> l) i = 0 ∨ used_at (cell <$> l) i = -1 →
  reaches (cell <$> l) (size t) key (Z.to_nat i) →
  enter_new key (Some d) t flag (first_hash (size t) key) i w = Ret (r, t', w') →
  enter_outcome t key d r t'.
Proof.
  intros Hl Hok Hno Hi Hu Hreach Hr. unfold enter_new in Hr.
  destruct (Z.eqb_spec (filled t) (size t)) as [Hf|Hf]; [run_inv; by apply Full|].
  assert (Hsz := c_size _ _ _ Hok). assert (Hh := first_hash_range (size t) Hsz key).
  assert (Hfr := filled_range t (ex_intro _ _ (conj Hl Hok))).
  destruct (slot_at_cell t l i Hl Hok) as (s & Hsl & Hs); [lia|].
  rewrite (slot_used l i s Hs) in Hu.
  erewrite comp_bind_run in Hr by (apply lift_run; exact Hsl). cbn beta in Hr.
  rewrite s32_small in Hr by lia.
  apply comp_bind_Ret in Hr as (pk & w1 & Hpk & Hr). apply strdup_Ret in Hpk as [->|[-> ?]];
    apply comp_bind_Ret in Hr as (pd & w2 & Hpd & Hr); [|run_inv; by apply NoMemory].
  apply strdup_Ret in Hpd as [->|[-> ?]]; [|run_inv; by apply NoMemory].
  rewrite u32_small in Hr by (split; cbn [filled put_slot]; lia). cbn [filled put_slot] in Hr.
  apply comp_bind_Ret in Hr as (e1 & w3 & He1 & Hr). apply callback_init_keeps in He1 as [Hk1 Hd1].
  apply comp_bind_Ret in Hr as (e2 & w4 & He2 & Hr). apply flags_init_keeps in He2 as [Hk2 Hd2].
  cbn [e_key e_data] in Hk1, Hd1. rewrite Hk1 in Hk2. rewrite Hd1 in Hd2.
  rewrite !put_set_filled, !put_put in Hr. destruct e2 as [k2 d2 cb fl]. cbn in Hk2, Hd2. subst k2 d2.
  destruct (fresh_store t l key d i s cb fl) as (Ht1 & Hm1 & Htk1 & Hm & s' & Hs' & Hlive); auto.
  set (t1 := set_filled _ _) in *.
  apply comp_bind_Ret in Hr as (rej & w5 & _ & Hr).
  destruct (rej =? 0); cbn [negb] in Hr.
  - apply comp_bind_Ret in Hr as ([rej' t2] & w6 & Hcb & Hr).
    apply call_callback_skeleton in Hcb as Hsk. destruct (rej' =? 0); cbn [negb] in Hr.
    + apply comp_ret_eq in Hr. injection Hr as -> -> ->. apply Entered; [lia|by eapply skeleton_ok| | |].
      * by rewrite (skeleton_size _ _ Hsk).
      * by rewrite (skeleton_taken _ _ Hsk).
      * by rewrite (skeleton_map _ _ Hsk).
    + apply comp_bind_Ret in Hr as (t3 & w7 & H3 & Hr). apply lift_Ret in H3 as (? & H3 & [= <- <-]).
      apply comp_ret_eq in Hr. injection Hr as -> -> ->.
      assert (Hex : ∃ s'', slot_at t2 i = Ret s'').
      { unfold _hdelete in H3. apply run_bind_Ret in H3 as (s'' & ? & _). eauto. }
      destruct Hex as [s'' Hs'']. eapply (undo_store t t1 t2 i s' s''); eauto.
  - apply comp_bind_Ret in Hr as (t3 & w7 & H3 & Hr). apply lift_Ret in H3 as (? & H3 & [= <- <-]).
    apply comp_ret_eq in Hr. injection Hr as -> -> ->. eapply (undo_store t t1 t1 i s' s'); eauto.
Qed.

(** Entering a variable is an insertion into the map, or leaves it as it is,
    as long as a slot has never been used or the table is full. *)
Lemma hsearch_enter_refines t key d flag w r t' w' : tab_ok t →
  taken t < size t ∨ filled t = size t →
  hsearch_r key (Some d) ENTER t flag w = Ret (r, t', w') → enter_outcome t key d r t'.
Proof.
  intros (l & Hl & Hok) Hroom Hr.
  destruct (hsearch_cases t l Hl Hok key (Some d) ENTER flag w)
    as [(i & Hi & Hm & Heq)|(Hno & i & (Hi & _ & Hfor) & Heq)]; rewrite Heq in Hr.
  - by eapply overwrite_spec.
  - destruct Hfor as [[Hu Hreach]|(-> & Hu & Hall)]; [by eapply enter_new_spec|].
    destruct Hroom as [Ht|Hfull].
    + destruct (taken_unused t l Hl Hok Ht) as (j & Hj & H0). by destruct (Hall j Hj).
    + unfold enter_new in Hr. rewrite (proj2 (Z.eqb_eq _ _) Hfull) in Hr. run_inv. by apply Full.
Qed.

Inductive delete_outcome (t : hsearch_data) (key : bytes) : Z → Z → hsearch_data → Prop :=
  | Deleted t' : is_Some (to_map t !! key) → tab_ok t' → size t' = size t → taken t' = taken t →
      to_map t' = delete key (to_map t) → delete_outcome t key 1 0 t'
  | Absent : to_map t !! key = None → delete_outcome t key 0 ESRCH t
  | Kept e t' : e = EPERM ∨ e = EINVAL → tab_ok t' → size t' = size t → taken t' = taken t →
      to_map t' = to_map t → delete_outcome t key 0 e t'.

Lemma hdelete_refines t key flag w ret e t' w' : tab_ok t →
  hdelete_r key t flag w = Ret (ret, e, t', w') → delete_outcome t key ret e t'.
Proof.
  intros Ht Hr. unfold hdelete_r in Hr. destruct (hfind_spec t key None 0 w Ht) as (r & Hf & Hres).
  erewrite comp_bind_run in Hr by exact Hf. cbn beta iota in Hr.
  destruct (to_map t !! key) as [v|] eqn:Hm.
  - destruct Hres as (Hi & _ & _ & s & Hs & Hc). assert (Hlive : live (cell s) = Some (key, v)).
    { rewrite Hc. apply live_Some. eexists. split; [done|]. destruct Ht as (l & _ & Hok).
      assert (Hh := first_hash_range (size t) (c_size _ _ _ Hok) key). lia. }
    rewrite (proj2 (Z.eqb_neq (h_ret r) 0)) in Hr by lia.
    erewrite comp_bind_run in Hr by (apply lift_run; exact Hs). cbn beta in Hr.
    apply comp_bind_Ret in Hr as (rej & w1 & _ & Hr).
    destruct (rej =? 0); cbn [negb] in Hr; [|run_inv; by apply Kept; auto].
    apply comp_bind_Ret in Hr as ([rej' t1] & w2 & Hcb & Hr). apply call_callback_skeleton in Hcb as Hsk.
    assert (Hok1 := skeleton_ok _ _ Hsk Ht). assert (Hm1 := skeleton_map _ _ Hsk).
    assert (Hsz1 := skeleton_size _ _ Hsk). assert (Htk1 := skeleton_taken _ _ Hsk).
    destruct (rej' =? 0); cbn [negb] in Hr; [|apply comp_ret_eq in Hr; injection Hr as -> -> -> ->; by apply Kept; auto].
    apply comp_bind_Ret in Hr as (t2 & w3 & H2 & Hr). apply lift_Ret in H2 as (? & H2 & [= <- <-]).
    apply comp_ret_eq in Hr. injection Hr as -> -> -> ->.
    assert (Hex : ∃ s1, slot_at t1 (h_ret r) = Ret s1).
    { unfold _hdelete in H2. apply run_bind_Ret in H2 as (s1 & ? & _). eauto. }
    destruct Hex as [s1 Hs1]. assert (Hc1 := skeleton_slot _ _ _ _ _ Hsk Hs Hs1).
    destruct (hdelete_slot t1 (h_ret r) s1 key v) as (t3 & H3 & Hok3 & Hm3 & Hsz3 & Htk3);
      [done|lia|done|by rewrite Hc1|].
    rewrite H2 in H3. injection H3 as <-. apply Deleted; [by rewrite Hm|done|lia|lia|by rewrite Hm3, Hm1].
  - subst r. cbn [h_ret Z.eqb] in Hr. run_inv. by apply Absent.
Qed.
End Ops.

Arguments HookLaws W {HH}.
Arguments out_of_memory W {HW}.

(** ** A new table *)

Definition empty_table (sz : Z) : hsearch_data :=
  Hsearch (Some (replicate (Z.to_nat (sz + 1)) zero_slot)) sz 0.

Lemma omap_replicate_None {A B} (f : A → option B) n x : f x = None → omap f (replicate n x) = [].
Proof. intros Hf. induction n as [|n IH]; [done|]. cbn. by rewrite Hf. Qed.

Lemma empty_table_ok sz : prime sz → 3 ≤ sz < 0x80000000 →
  tab_ok (empty_table sz) ∧ to_map (empty_table sz) = ∅ ∧ taken (empty_table sz) = 0.
Proof.
  intros Hp Hs. assert (Hv : variables (empty_table sz) = []).
  { unfold variables, empty_table. cbn [table]. rewrite fmap_replicate. by apply omap_replicate_None. }
  split_and!.
  - eexists. split; [reflexivity|]. unfold empty_table. cbn [size filled]. rewrite fmap_replicate.
    assert (Hlk : ∀ i c, replicate (Z.to_nat (sz + 1)) (cell zero_slot) !! i = Some c → c = (0, Null, Null)).
    { intros i c Hc. by apply lookup_replicate in Hc as [-> _]. }
    constructor; [done|done| | | | |].
    + rewrite length_replicate. lia.
    + unfold used_at. destruct (_ !! _) as [c|] eqn:E; [|done]. by apply Hlk in E as ->.
    + intros i u pk pd Hi. apply Hlk in Hi. simplify_eq. by left.
    + intros i j u u' k pd pd' Hi. apply Hlk in Hi. by simplify_eq.
    + by rewrite omap_replicate_None.
  - unfold to_map. by rewrite Hv.
  - unfold taken, empty_table. cbn [table]. rewrite fmap_replicate. by rewrite omap_replicate_None.
Qed.

Lemma hdestroy_ok t : tab_ok t → hdestroy_r t = Ret (Hsearch None (size t) (filled t)).
Proof.
  intros (l & Hl & Hok). unfold hdestroy_r.
  assert (Hloop : ∀ fuel i, 1 ≤ i → i + Z.of_nat fuel = size t + 1 → hdestroy_loop fuel i t = Ret tt).
  { induction fuel as [|fuel IH]; intros i Hi Hf; [done|]. cbn [hdestroy_loop].
    destruct (slot_at_cell t l i Hl Hok) as (s & Hs & Hls); [lia|]. rewrite Hs. cbn [mbind run_bind].
    destruct (Z.gtb_spec (used s) 0) as [Hu|Hu]; [|apply IH; lia].
    destruct (live_cell _ _ _ Hok (Z.to_nat i) (used s) (e_key (entry s)) (e_data (entry s)))
      as (k & v & Hk & Hv & _); [by rewrite list_lookup_fmap, Hls|lia|].
    rewrite Hk, Hv. cbn. apply IH; lia. }
  assert (Hsz := c_size _ _ _ Hok). by rewrite Hloop by lia.
Qed.

(** [hcreate_r] makes an empty table of prime size, not smaller than asked. *)
Lemma hcreate_ok {W} {HW : Heap W} nel t w : table t = None → 2 ≤ nel ≤ 1024 →
  ∃ p, prime p ∧ nel ≤ p < 2048 ∧
  hcreate_r nel t w =
    (ok ← malloc ((p + 1) * sizeof_ENTRY);
     mret (if (ok : bool) then (1, empty_table p) else (0, Hsearch None p 0))) w.
Proof.
  intros Ht Hn. destruct (next_prime_small nel Hn) as (p & Hr & Hp & Hb). exists p. split_and!; [done|lia|lia|].
  unfold hcreate_r. rewrite Ht. erewrite comp_bind_run by (apply lift_run; exact Hr). cbn beta.
  by rewrite u32_small by (split; lia).
Qed.
