(* ===== verification/HashRefine.v ===== *)
(** * The hash table implements a finite map

    With hooks that return, every operation of a well-formed table returns, and
    what it returns is what the operation of the map would. *)

From Stdlib Require Import Znumtheory.
From S2P Require Import Prelude HashTable HashSpec.

(** Hooks that neither crash nor run forever. *)
Class HooksReturn (W : Type) {HH : EnvHooks W} : Prop := {
  callback_init_returns t e (w : W) : ∃ r, env_callback_init t e w = Ret r;
  flags_init_returns t e (w : W) : ∃ r, env_flags_init t e w = Ret r;
  change_returns f e v op fl (w : W) : change_ok = Some f → ∃ r, f e v op fl w = Ret r;
  callback_returns cb k v op fl t (w : W) : ∃ r, callback_call cb k v op fl t w = Ret r }.

Section Total.
Context {W : Type} {HW : Heap W} {HH : EnvHooks W} {HL : HookLaws W} {HR : HooksReturn W}.

Lemma permission_returns e v op fl (w : W) : ∃ rej w', permission e v op fl w = Ret (rej, w').
Proof.
  unfold permission. destruct change_ok as [f|] eqn:E; [|by eexists _, _].
  destruct (change_returns f e v op fl w E) as [[rej w'] Hr]. eauto.
Qed.

Lemma call_callback_returns e k v op fl t (w : W) :
  ∃ rej t' w', call_callback e k v op fl t w = Ret (rej, t', w') ∧ skeleton t' = skeleton t.
Proof.
  assert (Hr : ∃ rej t' w', call_callback e k v op fl t w = Ret (rej, t', w')).
  { unfold call_callback. destruct (e_callback e) as [cb|]; [|by eexists _, _, _].
    destruct (callback_returns cb k v op fl t w) as [[[rej t'] w'] Hr]. eauto. }
  destruct Hr as (rej & t' & w' & Hr). exists rej, t', w'. split; [done|by eapply call_callback_skeleton].
Qed.

Lemma strdup_returns s (w : W) : ∃ p w', strdup (Some s) w = Ret (p, w').
Proof.
  unfold strdup, malloc, mbind, comp_bind. destruct (heap_alloc (zlen s + 1) w) as [[] w']; by eexists _, _.
Qed.

(** A slot of a table that a callback left as it was. *)
Lemma skeleton_slot_at t t' i s : tab_ok t → skeleton t' = skeleton t → 0 ≤ i ≤ size t → slot_at t i = Ret s →
  ∃ s', slot_at t' i = Ret s' ∧ cell s' = cell s.
Proof.
  intros Ht Hsk Hi Hs. assert (Ht' := skeleton_ok _ _ Hsk Ht). destruct Ht' as (l' & Hl' & Hok').
  destruct (slot_at_cell t' l' i Hl' Hok') as (s' & Hs' & _); [by rewrite (skeleton_size _ _ Hsk)|].
  exists s'. split; [done|]. by eapply skeleton_slot.
Qed.

Lemma overwrite_returns t l key d flag i (w : W) : table t = Some l → cells_ok (cell <$> l) (size t) (filled t) →
  1 ≤ i ≤ size t → matches t l key i →
  ∃ r, compare_and_overwrite_entry key (Some d) ENTER t flag (first_hash (size t) key) i w = Ret r.
Proof.
  intros Hl Hok Hi (s & Hs & Hu & Hk). unfold compare_and_overwrite_entry.
  assert (Ht : tab_ok t) by (by exists l). assert (Hsl := slot_at_lookup t l i s Hl ltac:(lia) Hs).
  assert (Hh := first_hash_range (size t) (c_size _ _ _ Hok) key). assert (Hsz := c_size _ _ _ Hok).
  erewrite comp_bind_run by (apply lift_run; exact Hsl). cbn beta.
  rewrite Hu, u32_small, Z.eqb_refl by (split; lia). cbn [negb].
  erewrite comp_bind_run by (apply lift_run; by rewrite Hk). cbn beta.
  rewrite bool_decide_eq_true_2 by done. cbn [negb].
  destruct (permission_returns (entry s) (Str d) env_op_overwrite flag w) as (rej & w1 & Hp).
  erewrite comp_bind_run by exact Hp. cbn beta. destruct (rej =? 0); cbn [negb]; [|by eexists].
  destruct (call_callback_returns (entry s) key (Str d) env_op_overwrite flag t w1) as (rej' & t1 & w2 & Hc & Hsk).
  erewrite comp_bind_run by exact Hc. cbn beta iota. destruct (rej' =? 0); cbn [negb]; [|by eexists].
  destruct (skeleton_slot_at t t1 i s Ht Hsk ltac:(lia) Hsl) as (s1 & Hs1 & Hcell).
  erewrite comp_bind_run by (apply lift_run; exact Hs1). cbn beta.
  destruct (matches_lookup t l Hl Hok key i s) as (v0 & Hv0 & _); [lia|done..|].
  unfold cell in Hcell. injection Hcell as _ _ Hd1.
  erewrite comp_bind_run by (apply lift_run; by rewrite Hd1, Hv0). cbn beta.
  destruct (strdup_returns d w2) as (p & w3 & Hd). erewrite comp_bind_run by exact Hd. cbn beta zeta.
  by destruct p; eexists.
Qed.

(** Undoing the store of a rejected variable returns. *)
Lemma undo_returns t t' i s key d : tab_ok t → 1 ≤ i ≤ size t → skeleton t' = skeleton t →
  slot_at t i = Ret s → live (cell s) = Some (key, d) → ∃ t3, _hdelete t' i = Ret t3.
Proof.
  intros Ht Hi Hsk Hs Hlive. destruct (skeleton_slot_at t t' i s Ht Hsk ltac:(lia) Hs) as (s' & Hs' & Hc).
  destruct (hdelete_slot t' i s' key d) as (t3 & H3 & _); [by eapply skeleton_ok| |done|by rewrite Hc|eauto].
  by rewrite (skeleton_size _ _ Hsk).
Qed.

Lemma enter_new_returns t l key d flag i (w : W) : table t = Some l →
  cells_ok (cell <$> l) (size t) (filled t) → (∀ i, ¬ matches t l key i) → 1 ≤ i ≤ size t →
  used_at (cell <$> l) i = 0 ∨ used_at (cell <$> l) i = -1 →
  reaches (cell <$> l) (size t) key (Z.to_nat i) →
  ∃ r, enter_new key (Some d) t flag (first_hash (size t) key) i w = Ret r.
Proof.
  intros Hl Hok Hno Hi Hu Hreach. unfold enter_new.
  destruct (Z.eqb_spec (filled t) (size t)) as [Hf|Hf]; [by eexists|].
  assert (Hsz := c_size _ _ _ Hok). assert (Hh := first_hash_range (size t) Hsz key).
  assert (Hfr := filled_range t (ex_intro _ _ (conj Hl Hok))).
  destruct (slot_at_cell t l i Hl Hok) as (s & Hsl & Hs); [lia|]. rewrite (slot_used l i s Hs) in Hu.
  erewrite comp_bind_run by (apply lift_run; exact Hsl). cbn beta. rewrite s32_small by lia.
  destruct (strdup_returns key w) as (pk & w1 & Hpk). erewrite comp_bind_run by exact Hpk. cbn beta.
  destruct (strdup_returns d w1) as (pd & w2 & Hpd). erewrite comp_bind_run by exact Hpd. cbn beta zeta.
  apply strdup_Ret in Hpk as [->|[-> _]]; [|by eexists]. apply strdup_Ret in Hpd as [->|[-> _]]; [|by eexists].
  rewrite u32_small by (split; cbn [filled put_slot]; lia). cbn [filled put_slot].
  match goal with |- context [(env_callback_init ?t0 ?e0 ≫= _) w2] =>
    destruct (callback_init_returns t0 e0 w2) as [[e1 w3] He1] end.
  erewrite comp_bind_run by exact He1. cbn beta. apply callback_init_keeps in He1 as [Hk1 Hd1].
  match goal with |- context [(env_flags_init ?t0 ?e0 ≫= _) w3] =>
    destruct (flags_init_returns t0 e0 w3) as [[e2 w4] He2] end.
  erewrite comp_bind_run by exact He2. cbn beta. apply flags_init_keeps in He2 as [Hk2 Hd2].
  cbn [e_key e_data] in Hk1, Hd1. rewrite Hk1 in Hk2. rewrite Hd1 in Hd2.
  rewrite !put_set_filled, !put_put. destruct e2 as [k2 d2 cb fl]. cbn in Hk2, Hd2. subst k2 d2.
  destruct (fresh_store t l key d i s cb fl) as (Ht1 & _ & _ & _ & s' & Hs' & Hlive); auto.
  set (t1 := set_filled _ _) in *.
  destruct (permission_returns (Entry (Str key) (Str d) cb fl) (Str d) env_op_create flag w4) as (rej & w5 & Hp).
  erewrite comp_bind_run by exact Hp. cbn beta. destruct (rej =? 0); cbn [negb].
  - destruct (call_callback_returns (Entry (Str key) (Str d) cb fl) key (Str d) env_op_create flag t1 w5)
      as (rej' & t2 & w6 & Hc & Hsk).
    erewrite comp_bind_run by exact Hc. cbn beta iota. destruct (rej' =? 0); cbn [negb]; [by eexists|].
    destruct (undo_returns t1 t2 i s' key d Ht1 Hi Hsk Hs' Hlive) as [t3 H3].
    erewrite comp_bind_run by (apply lift_run; exact H3). by eexists.
  - destruct (undo_returns t1 t1 i s' key d Ht1 Hi eq_refl Hs' Hlive) as [t3 H3].
    erewrite comp_bind_run by (apply lift_run; exact H3). by eexists.
Qed.

Lemma enter_returns t key d flag (w : W) : tab_ok t → taken t < size t ∨ filled t = size t →
  ∃ r t' w', hsearch_r key (Some d) ENTER t flag w = Ret (r, t', w').
Proof.
  intros (l & Hl & Hok) Hroom.
  assert (Hr : ∃ x, hsearch_r key (Some d) ENTER t flag w = Ret x).
  { destruct (hsearch_cases t l Hl Hok key (Some d) ENTER flag w)
      as [(i & Hi & Hm & ->)|(Hno & i & (Hi & _ & Hfor) & ->)]; [by eapply overwrite_returns|].
    destruct Hfor as [[Hu Hreach]|(-> & Hu & Hall)]; [by eapply enter_new_returns|].
    destruct Hroom as [Ht|Hfull].
    - destruct (taken_unused t l Hl Hok Ht) as (j & Hj & H0). by destruct (Hall j Hj).
    - unfold enter_new. rewrite (proj2 (Z.eqb_eq _ _) Hfull). by eexists. }
  destruct Hr as [[[r t'] w'] Hr]. eauto.
Qed.

Lemma delete_returns t key flag (w : W) : tab_ok t →
  ∃ ret e t' w', hdelete_r key t flag w = Ret (ret, e, t', w').
Proof.
  intros Ht. destruct (hfind_spec t key None 0 w Ht) as (r & Hf & Hres). unfold hdelete_r.
  erewrite comp_bind_run by exact Hf. cbn beta iota. destruct (to_map t !! key) as [v|] eqn:Hm; [|subst r; by eexists _, _, _, _].
  destruct Hres as (Hi & _ & _ & s & Hs & Hc). rewrite (proj2 (Z.eqb_neq (h_ret r) 0)) by lia.
  assert (Hlive : live (cell s) = Some (key, v)).
  { rewrite Hc. apply live_Some. eexists. split; [done|]. destruct Ht as (l & _ & Hok).
    assert (Hh := first_hash_range (size t) (c_size _ _ _ Hok) key). lia. }
  erewrite comp_bind_run by (apply lift_run; exact Hs). cbn beta.
  destruct (permission_returns (entry s) Null env_op_delete flag w) as (rej & w1 & Hp).
  erewrite comp_bind_run by exact Hp. cbn beta. destruct (rej =? 0); cbn [negb]; [|by eexists _, _, _, _].
  destruct (call_callback_returns (entry s) key Null env_op_delete flag t w1) as (rej' & t1 & w2 & Hcb & Hsk).
  erewrite comp_bind_run by exact Hcb. cbn beta iota. destruct (rej' =? 0); cbn [negb]; [|by eexists _, _, _, _].
  destruct (undo_returns t t1 (h_ret r) s key v Ht ltac:(lia) Hsk Hs Hlive) as [t3 H3].
  erewrite comp_bind_run by (apply lift_run; exact H3). by eexists _, _, _, _.
Qed.

(** C14: the hash table of the environment implements a finite map.  Looking a
    key up finds the slot with its value.  Entering a variable, as long as a
    slot was never used or the table is full, inserts it, or is refused, or
    finds the table full or memory exhausted, and in the first two cases the
    table stays well formed with the map as the outcome says.  Deleting removes
    the key, or leaves the map as it is.  Every one of these operations returns
    when the hooks do. *)
Theorem hash_table_refines t (w : W) : tab_ok t →
  (∀ key, ∃ r, hsearch_r key None FIND t 0 w = Ret (r, t, w) ∧
     match to_map t !! key with
     | Some v => ∃ i s, h_val r = Some i ∧ slot_at t i = Ret s ∧
         e_key (entry s) = Str key ∧ e_data (entry s) = Str v
     | None => h_val r = None ∧ h_errno r = ESRCH
     end) ∧
  (taken t < size t ∨ filled t = size t → ∀ key d flag, ∃ r t' w',
     hsearch_r key (Some d) ENTER t flag w = Ret (r, t', w') ∧ enter_outcome t key d r t') ∧
  (∀ key flag, ∃ ret e t' w', hdelete_r key t flag w = Ret (ret, e, t', w') ∧
     delete_outcome t key ret e t').
Proof.
  intros Ht. split_and!.
  - intros key. destruct (hfind_spec t key None 0 w Ht) as (r & Hr & Hres). exists r. split; [done|].
    destruct (to_map t !! key) as [v|]; [|by subst r]. destruct Hres as (_ & Hv & _ & s & Hs & Hc).
    exists (h_ret r), s. unfold cell in Hc. by injection Hc as _ -> ->.
  - intros Hroom key d flag. destruct (enter_returns t key d flag w Ht Hroom) as (r & t' & w' & Hr).
    exists r, t', w'. split; [done|]. by eapply hsearch_enter_refines.
  - intros key flag. destruct (delete_returns t key flag w Ht) as (ret & e & t' & w' & Hr).
    exists ret, e, t', w'. split; [done|]. by eapply hdelete_refines.
Qed.
End Total.

(** ** An example: a table without hooks *)

#[local] Instance plenty : Heap unit := fun _ w => (true, w).
#[local] Instance plain_hooks : EnvHooks unit := {|
  env_callback_init _ e := mret e; env_flags_init _ e := mret e; change_ok := None;
  callback_call _ _ _ _ _ t := mret (0, t) |}.
#[local] Instance plain_hook_laws : HookLaws unit.
Proof.
  split; [intros t e w e' w' [= <- <-]; done|intros t e w e' w' [= <- <-]; done|].
  intros cb k v op fl t w r t' w' [= _ <- _]. done.
Qed.
#[local] Instance plain_hooks_return : HooksReturn unit.
Proof. split; intros; [by eexists|by eexists|discriminate|by eexists]. Qed.

Lemma hash_table_refines_witness :
  ∃ r t' w', hsearch_r (str "bootdelay") (Some (str "1")) ENTER (empty_table 7) 0 () = Ret (r, t', w') ∧
    enter_outcome (empty_table 7) (str "bootdelay") (str "1") r t'.
Proof.
  apply (hash_table_refines (empty_table 7) ()).
  - apply empty_table_ok; [by apply prime_of_isprime|done].
  - left. by vm_compute.
Defined.
