(* ===== verification/EnvFlags.v ===== *)
(** * Attributes of environment variables
      (common/env_attr.c, common/env_flags.c, common/env_callback.c, and the
       lookups of common/cmd_nvedit.c and common/env_common.c they use)

    Which type and access a variable has and which function is called when it
    changes: the attribute lists and their parser, the flags, the validation of
    a change, the callbacks of this board, and the two callbacks that rewrite
    flags and callbacks of the whole table.  They instantiate the [EnvHooks] of
    the hash table. *)

From S2P Require Import Prelude HashTable Bootm.

(** ** Globals *)

(** A [char *] the lookups return: null, the scratch buffer [gd->env_buf], or
    the string that is the data of the entry at an index. *)
Inductive env_ptr := PNull | PBuf | PVar (idx : Z) (s : bytes).

Record env_globals := EnvGlobals {
  gd_env_ready : bool;
  gd_devinit : bool;
  gd_env_valid : Z;
  gd_env_addr : bytes;
  gd_env_buf : bytes;
  gd_baudrate : Z;
  load_addr : Z;
  BootFile : bytes;
  flags_first_call : bool;
  flags_list : env_ptr;
  callback_first_call : bool;
  callback_list : env_ptr;
  env_id : Z }.

(** The world of the environment: its globals, the default settings compiled
    into the image, the bytes that lie before an attribute list in memory, and
    the serial port and console with the number of characters that are typed
    on it. *)
Class EnvWorld (W : Type) := {
  env_globals_of : W → env_globals;
  set_env_globals : env_globals → W → W;
  default_environment : bytes;
  attr_before : bytes;
  serial_setbrg : Z → comp W unit;
  typed : W → nat;
  getc : comp W Z;
  console_assign : Z → bytes → comp W Z }.

Definition CONFIG_ENV_SIZE := 0x10000.

(** ** Attribute lists (env_attr.c) *)

Definition ENV_ATTR_LIST_DELIM := 44.
Definition ENV_ATTR_SEP := 58.

Fixpoint strstr_from (s1 s2 : bytes) (i : nat) : option nat :=
  if has_prefix s1 s2 then Some i
  else match s1 with [] => None | _ :: s1 => strstr_from s1 s2 (S i) end.

Definition strstr (s1 s2 : bytes) : option nat := strstr_from s1 s2 0.

Fixpoint drop_while (f : Z → bool) (s : bytes) : bytes :=
  match s with c :: r => if f c then drop_while f r else s | [] => [] end.

Fixpoint take_while (f : Z → bool) (s : bytes) : bytes :=
  match s with c :: r => if f c then c :: take_while f r else [] | [] => [] end.

(** [reverse_strstr], in offsets from the start of the list. *)
Fixpoint reverse_strstr_loop (fuel : nat) (list search_for : bytes) (searched : nat)
    (searched_start result : option nat) : run (option nat) :=
  match fuel with
  | O => Crash NoFuel
  | S fuel =>
      match strstr (drop searched list) search_for with
      | None => Ret result
      | Some d =>
          let m := (searched + d)%nat in
          if match searched_start with
             | Some st => bool_decide (st < m + length search_for)%nat
             | None => false
             end
          then Ret result
          else reverse_strstr_loop fuel list search_for (S m) searched_start (Some m)
      end
  end.

Definition reverse_strstr (list search_for : bytes) (searched_start : option nat)
    : run (option nat) :=
  match search_for with
  | [] => Ret (Some O)
  | _ => reverse_strstr_loop (S (S (length list))) list search_for 0 searched_start None
  end.

(** The first byte that is not a space, going back from before [entry]. *)
Definition prev_char (before list : bytes) (entry : nat) : run Z :=
  match drop_while (fun c => c =? 32) (rev (take entry list) ++ before) with
  | c :: _ => Ret c
  | [] => Crash OutOfBounds
  end.

(** The rest of the list after spaces. *)
Definition skip_blanks (rest : bytes) : bytes := drop_while (fun c => c =? 32) rest.

(** The character at the start of a rest; the list ends with a zero. *)
Definition char_at (rest : bytes) : Z := match rest with c :: _ => c | [] => 0 end.

(** The search of [env_attr_lookup] for an entry with exactly this name. *)
Fixpoint attr_find (fuel : nat) (before list name : bytes) (entry : option nat)
    : run (option nat) :=
  match fuel with
  | O => Crash NoFuel
  | S fuel =>
      match entry with
      | None => Ret None
      | Some e =>
          prevch ← prev_char before list e;
          let nextch := char_at (skip_blanks (drop (e + length name) list)) in
          if ((e =? 0)%nat || (prevch =? ENV_ATTR_LIST_DELIM)) &&
             ((nextch =? ENV_ATTR_SEP) || (nextch =? ENV_ATTR_LIST_DELIM) || (nextch =? 0))
          then Ret (Some e)
          else
            entry ← reverse_strstr list name (Some e);
            attr_find fuel before list name entry
      end
  end.

(** [env_attr_lookup]: the value returned and the buffer [attributes]. *)
Definition env_attr_lookup (fuel : nat) (before : bytes) (attr_list : option bytes) (name : bytes)
    (attributes : bytes) : run (Z * bytes) :=
  match attr_list with
  | None => Ret (1, attributes)
  | Some list =>
      entry ← reverse_strstr list name None;
      entry ← attr_find fuel before list name entry;
      match entry with
      | None => Ret (2, attributes)
      | Some e =>
          let rest := skip_blanks (drop (e + length name) list) in
          let value :=
            if char_at rest =? ENV_ATTR_SEP
            then take_while (fun c => negb ((c =? ENV_ATTR_LIST_DELIM) || (c =? 32)))
                   (skip_blanks (drop 1 rest))
            else [] in
          attributes ← wr attributes 0 (value ++ [0]);
          Ret (0, attributes)
      end
  end.

Definition isspace (c : Z) : bool := ((9 <=? c) && (c <=? 13)) || (c =? 32) || (c =? 160).

(** [strim] *)
Definition strim (s : bytes) : bytes :=
  rev (drop_while isspace (rev (drop_while isspace s))).

(** Splits at the first occurrence of a character. *)
Fixpoint split_at (c : Z) (s : bytes) : bytes * option bytes :=
  match s with
  | [] => ([], None)
  | d :: s => if d =? c then ([], Some s)
              else let '(a, b) := split_at c s in (d :: a, b)
  end.

Section Env.
Context {W : Type} {HW : Heap W} {EW : EnvWorld W}.

(** A read through a pointer to freed memory. *)
Definition dangling {A} : comp W A := fun _ => Crash OutOfBounds.

Definition get_globals : comp W env_globals := fun w => Ret (env_globals_of w, w).
Definition put_globals (g : env_globals) : comp W unit := fun w => Ret ((), set_env_globals g w).

(** [env_attr_walk]; [callback] works on the table. *)
Fixpoint attr_walk_loop (fuel : nat) (entry : bytes)
    (callback : bytes → option bytes → hsearch_data → comp W (Z * hsearch_data))
    (htab : hsearch_data) : comp W (Z * hsearch_data) :=
  match fuel with
  | O => fun _ => Crash NoFuel
  | S fuel =>
      let '(entry_cpy, entry_end) := split_at ENV_ATTR_LIST_DELIM entry in
      let next htab :=
        match entry_end with
        | Some entry => attr_walk_loop fuel entry callback htab
        | None => mret (0, htab)
        end in
      if (zlen entry_cpy =? 0) then next htab
      else
        ok ← malloc (zlen entry_cpy + 1);
        if negb (ok : bool) then mret (- ENOMEM, htab)
        else
          let '(name, attributes) := split_at ENV_ATTR_SEP entry_cpy in
          let attributes := strim <$> attributes in
          let name := strim name in
          if (zlen name =? 0) then next htab
          else
            '(retval, htab) ← callback name attributes htab;
            if negb (retval =? 0) then mret (retval, htab) else next htab
  end.

Definition env_attr_walk (attr_list : option bytes)
    (callback : bytes → option bytes → hsearch_data → comp W (Z * hsearch_data))
    (htab : hsearch_data) : comp W (Z * hsearch_data) :=
  match attr_list with
  | None => mret (1, htab)
  | Some list => attr_walk_loop (S (length list)) list callback htab
  end.

(** ** Looking a variable up (cmd_nvedit.c, env_common.c) *)

(** The search alone calls none of the hooks. *)
Definition no_hooks : EnvHooks W := {|
  env_callback_init := fun _ e => mret e;
  env_flags_init := fun _ e => mret e;
  change_ok := None;
  callback_call := fun _ _ _ _ _ htab => mret (0, htab) |}.

Definition hfind (key : bytes) (htab : hsearch_data) (flag : Z) : comp W (hret * hsearch_data) :=
  hsearch_r (HH := no_hooks) key None FIND htab flag.

(** The memory [env_get_char] reads. *)
Definition env_memory (g : env_globals) : bytes :=
  if gd_env_valid g =? 0 then default_environment else gd_env_addr g.

(** The inner loop of [getenv_f]: the string that starts here, or nothing when
    it goes on past the size of the environment. *)
Fixpoint entry_string (rest : bytes) (nxt : Z) : run (option bytes) :=
  match rest with
  | [] => Crash OutOfBounds
  | c :: rest =>
      if c =? 0 then Ret (Some [])
      else if nxt >=? CONFIG_ENV_SIZE then Ret None
      else e ← entry_string rest (nxt + 1); Ret (option_map (cons c) e)
  end.

(** [envmatch], with the name and its terminator: the memory at the value. *)
Fixpoint envmatch (s1 rest : bytes) : run (option bytes) :=
  match s1, rest with
  | c :: s1, r :: rest =>
      if c =? r then if c =? 61 then Ret (Some rest) else envmatch s1 rest
      else Ret (if (c =? 0) && (r =? 61) then Some rest else None)
  | _, _ => Crash OutOfBounds
  end.

(** The copy loop of [getenv_f]: at most [n] bytes, up to the terminator. *)
Fixpoint getenv_copy (n : nat) (val : bytes) : run (bytes * bool) :=
  match n with
  | O => Ret ([], false)
  | S n =>
      match val with
      | [] => Crash OutOfBounds
      | c :: val =>
          if c =? 0 then Ret ([0], true)
          else '(s, done) ← getenv_copy n val; Ret (c :: s, done)
      end
  end.

Fixpoint getenv_f_loop (fuel : nat) (name rest : bytes) (i : Z) (buf : bytes) (len : Z)
    : run (Z * bytes) :=
  match fuel, rest with
  | _, [] => Crash OutOfBounds
  | O, _ => Crash NoFuel
  | S fuel, c :: _ =>
      if c =? 0 then Ret (-1, buf)
      else
        e ← entry_string rest i;
        match e with
        | None => Ret (-1, buf)
        | Some e =>
            val ← envmatch (name ++ [0]) rest;
            match val with
            | None =>
                getenv_f_loop fuel name (drop (S (length e)) rest) (i + zlen e + 1) buf len
            | Some val =>
                '(s, terminated) ← getenv_copy (Z.to_nat len) val;
                buf ← wr buf 0 s;
                if (terminated : bool) then Ret (zlen s - 1, buf)
                else
                  buf ← (if len =? 0 then Ret buf else wr buf (len - 1) [0]);
                  Ret (len, buf)
            end
        end
  end.

Definition getenv_f (name buf : bytes) (len : Z) : comp W (Z * bytes) :=
  g ← get_globals;
  let mem := env_memory g in
  lift (getenv_f_loop (length mem) name mem 0 buf len).

Definition sizeof_env_buf := 32.

Definition set_env_buf (buf : bytes) : comp W unit :=
  g ← get_globals;
  put_globals (EnvGlobals (gd_env_ready g) (gd_devinit g) (gd_env_valid g) (gd_env_addr g) buf
    (gd_baudrate g) (load_addr g) (BootFile g) (flags_first_call g) (flags_list g)
    (callback_first_call g) (callback_list g) (env_id g)).

(** [getenv] (and [env_get], which is the same) on the table [env_htab]. *)
Definition getenv (env_htab : hsearch_data) (name : bytes) : comp W env_ptr :=
  g ← get_globals;
  if gd_env_ready g then
    '(r, htab) ← hfind name env_htab 0;
    match h_val r with
    | None => mret PNull
    | Some idx =>
        s ← lift (slot_at htab idx);
        match e_data (entry s) with
        | Str v => mret (PVar idx v)
        | Null => mret PNull
        | Freed => dangling
        end
    end
  else
    '(n, buf) ← getenv_f name (gd_env_buf g) sizeof_env_buf;
    _ ← set_env_buf buf;
    mret (if n >? 0 then PBuf else PNull).

(** The string a pointer shows now; a string of the table that was replaced
    in the meantime has been freed. *)
Definition env_string (env_htab : hsearch_data) (p : env_ptr) : comp W (option bytes) :=
  match p with
  | PNull => mret None
  | PBuf => g ← get_globals; s ← lift (c_str (gd_env_buf g)); mret (Some s)
  | PVar idx v =>
      s ← lift (slot_at env_htab idx);
      if bool_decide (e_data (entry s) = Str v) then mret (Some v)
      else dangling
  end.

Definition set_ready_valid (ready : bool) (valid : Z) : comp W unit :=
  g ← get_globals;
  put_globals (EnvGlobals ready (gd_devinit g) valid (gd_env_addr g) (gd_env_buf g)
    (gd_baudrate g) (load_addr g) (BootFile g) (flags_first_call g) (flags_list g)
    (callback_first_call g) (callback_list g) (env_id g)).

Definition getenv_default (env_htab : hsearch_data) (name : bytes) : comp W env_ptr :=
  g ← get_globals;
  _ ← set_ready_valid false 0;
  ret_val ← getenv env_htab name;
  _ ← set_ready_valid (gd_env_ready g) (gd_env_valid g);
  mret ret_val.

(** ** Types and access (env_flags.c, include/env_flags.h) *)

Definition env_flags_vartype_string := 0.
Definition env_flags_vartype_decimal := 1.
Definition env_flags_vartype_hex := 2.
Definition env_flags_vartype_bool := 3.
Definition env_flags_vartype_ipaddr := 4.
Definition env_flags_vartype_macaddr := 5.
Definition env_flags_vartype_end := 6.

Definition ENV_FLAGS_VARTYPE_BIN_MASK := 0x7.
Definition ENV_FLAGS_VARACCESS_PREVENT_DELETE := 0x8.
Definition ENV_FLAGS_VARACCESS_PREVENT_CREATE := 0x10.
Definition ENV_FLAGS_VARACCESS_PREVENT_OVERWR := 0x20.
Definition ENV_FLAGS_VARACCESS_PREVENT_NONDEF_OVERWR := 0x40.
Definition ENV_FLAGS_VARACCESS_BIN_MASK := 0x78.
Definition ENV_FLAGS_ATTR_MAX_LEN := 2.

Definition env_flags_vartype_rep : bytes := str "sdxbim".
Definition env_flags_varaccess_rep : bytes := str "aroc".

Definition env_flags_varaccess_mask : list Z :=
  [0;
   Z.lor ENV_FLAGS_VARACCESS_PREVENT_DELETE
     (Z.lor ENV_FLAGS_VARACCESS_PREVENT_CREATE ENV_FLAGS_VARACCESS_PREVENT_OVERWR);
   Z.lor ENV_FLAGS_VARACCESS_PREVENT_DELETE ENV_FLAGS_VARACCESS_PREVENT_OVERWR;
   Z.lor ENV_FLAGS_VARACCESS_PREVENT_DELETE ENV_FLAGS_VARACCESS_PREVENT_NONDEF_OVERWR].

(** The index of a character of the representation, 0 when it is unknown. *)
Definition rep_index (rep : bytes) (c : Z) : Z :=
  match list_find (fun d => d = c) rep with Some (i, _) => Z.of_nat i | None => 0 end.

Definition env_flags_parse_vartype (flags : bytes) : Z :=
  match flags with c :: _ => rep_index env_flags_vartype_rep c | [] => env_flags_vartype_string end.

Definition env_flags_parse_varaccess (flags : bytes) : Z :=
  match flags with _ :: c :: _ => rep_index env_flags_varaccess_rep c | _ => 0 end.

(** The loop runs to [sizeof], which is the size in bytes and not the number of
    the masks. *)
Fixpoint varaccess_loop (fuel : nat) (i : Z) (binflags : Z) : run Z :=
  match fuel with
  | O => Ret 0
  | S fuel =>
      match env_flags_varaccess_mask !! Z.to_nat i with
      | None => Crash OutOfBounds
      | Some m =>
          if m =? Z.land binflags ENV_FLAGS_VARACCESS_BIN_MASK then Ret i
          else varaccess_loop fuel (i + 1) binflags
      end
  end.

Definition env_flags_parse_varaccess_from_binflags (binflags : Z) : run Z :=
  varaccess_loop 16 0 binflags.

Definition is_hex_prefix (value : bytes) : bool :=
  (char_at value =? 48) && ((char_at (drop 1 value) =? 120) || (char_at (drop 1 value) =? 88)).

(** The loop of [skip_num]; the count goes down from [max_digits], and -1
    stands for no limit. *)
Fixpoint skip_digits (hex : bool) (value : bytes) (i : Z) : bytes :=
  match value with
  | [] => []
  | c :: rest =>
      if i =? 0 then value
      else if hex && negb (isxdigit c) then value
      else if negb hex && negb (isdigit c) then value
      else skip_digits hex rest (i - 1)
  end.

Definition skip_num (hex : bool) (value : bytes) (max_digits : Z) : bytes :=
  skip_digits hex (if hex && is_hex_prefix value then drop 2 value else value) max_digits.

(** The loops for addresses: [n] groups from the one numbered [i]. *)
Fixpoint ip_groups (n : nat) (cur : bytes) : Z :=
  match n with
  | O => 0
  | S n =>
      let end_ := skip_num false cur 3 in
      if zlen cur =? zlen end_ then -1
      else match n with
           | O => if char_at end_ =? 0 then 0 else -1
           | _ => if char_at end_ =? 46 then ip_groups n (drop 1 end_) else -1
           end
  end.

Fixpoint mac_groups (n : nat) (cur : bytes) : Z :=
  match n with
  | O => 0
  | S n =>
      let end_ := skip_num true cur 2 in
      if zlen cur =? zlen end_ then -1
      else if (zlen cur =? zlen end_ + 2) && is_hex_prefix cur then -1
      else match n with
           | O => if char_at end_ =? 0 then 0 else -1
           | _ => if char_at end_ =? 58 then mac_groups n (drop 1 end_) else -1
           end
  end.

Definition is_bool_char (c : Z) : bool :=
  (c =? 49) || (c =? 121) || (c =? 116) || (c =? 89) || (c =? 84) ||
  (c =? 48) || (c =? 110) || (c =? 102) || (c =? 78) || (c =? 70).

Definition _env_flags_validate_type (value : bytes) (type : Z) : Z :=
  if type =? env_flags_vartype_decimal then
    if char_at (skip_num false value (-1)) =? 0 then 0 else -1
  else if type =? env_flags_vartype_hex then
    let end_ := skip_num true value (-1) in
    if negb (char_at end_ =? 0) then -1
    else if (zlen value =? zlen end_ + 2) && is_hex_prefix value then -1
    else 0
  else if type =? env_flags_vartype_bool then
    if negb (is_bool_char (char_at value)) then -1
    else if negb (char_at (drop 1 value) =? 0) then -1
    else 0
  else if type =? env_flags_vartype_ipaddr then ip_groups 4 value
  else if type =? env_flags_vartype_macaddr then mac_groups 6 value
  else if type =? env_flags_vartype_end then -1
  else 0.

(** [ETHADDR_FLAGS] with [CONFIG_CMD_NET] and [CONFIG_ENV_OVERWRITE]. *)
Definition ENV_FLAGS_LIST_STATIC : bytes := str "ethaddr:ma,".

Definition env_flags_lookup (list : option bytes) (name flags : bytes) : run (Z * bytes) :=
  '(ret, flags) ←
    (match list with
     | Some l => env_attr_lookup (S (length l)) attr_before list name flags
     | None => Ret (1, flags)
     end);
  if negb (ret =? 0)
  then env_attr_lookup (S (length ENV_FLAGS_LIST_STATIC)) attr_before
         (Some ENV_FLAGS_LIST_STATIC) name flags
  else Ret (ret, flags).

Definition env_parse_flags_to_bin (flags : bytes) : Z :=
  let binflags := Z.land (env_flags_parse_vartype flags) ENV_FLAGS_VARTYPE_BIN_MASK in
  Z.lor binflags (nth (Z.to_nat (env_flags_parse_varaccess flags)) env_flags_varaccess_mask 0).

Definition set_flags_list (p : env_ptr) : comp W unit :=
  g ← get_globals;
  put_globals (EnvGlobals (gd_env_ready g) (gd_devinit g) (gd_env_valid g) (gd_env_addr g)
    (gd_env_buf g) (gd_baudrate g) (load_addr g) (BootFile g) false p
    (callback_first_call g) (callback_list g) (env_id g)).

Definition ENV_FLAGS_VAR : bytes := str ".flags".

Definition entry_flags (e : ENTRY) (flags : Z) : ENTRY :=
  Entry (e_key e) (e_data e) (e_callback e) flags.

Definition entry_callback (e : ENTRY) (cb : option env_clbk) : ENTRY :=
  Entry (e_key e) (e_data e) cb (e_flags e).

(** [env_flags_init], with [flags] a buffer of three bytes. *)
Definition flags_init (env_htab : hsearch_data) (var_entry : ENTRY) : comp W ENTRY :=
  var_name ← lift (deref (e_key var_entry));
  g ← get_globals;
  _ ← (if flags_first_call g
       then p ← getenv env_htab ENV_FLAGS_VAR; set_flags_list p
       else mret ());
  g ← get_globals;
  list ← env_string env_htab (flags_list g);
  '(ret, flags) ← lift (env_flags_lookup list var_name
                          (replicate (Z.to_nat (ENV_FLAGS_ATTR_MAX_LEN + 1)) 0));
  flags ← lift (c_str flags);
  mret (if (ret =? 0) && negb (zlen flags =? 0)
        then entry_flags var_entry (env_parse_flags_to_bin flags) else var_entry).

Definition clear_flags (e : ENTRY) : Z * ENTRY := (0, entry_flags e 0).

(** A change of the entry a search has found. *)
Definition update_found (htab : hsearch_data) (key : bytes) (f : ENTRY → ENTRY)
    : comp W (Z * hsearch_data) :=
  '(r, htab) ← hfind key htab 0;
  match h_val r with
  | None => mret (0, htab)
  | Some idx =>
      s ← lift (slot_at htab idx);
      mret (0, put_slot htab idx (Slot (used s) (f (entry s))))
  end.

Definition set_flags (name : bytes) (value : option bytes) (htab : hsearch_data)
    : comp W (Z * hsearch_data) :=
  update_found htab name (fun e =>
    entry_flags e (match value with
                   | None | Some [] => 0
                   | Some v => env_parse_flags_to_bin v
                   end)).

Definition on_flags (value : option bytes) (htab : hsearch_data) : comp W (Z * hsearch_data) :=
  '(_, htab) ← lift (hwalk_r htab clear_flags);
  '(_, htab) ← env_attr_walk (Some ENV_FLAGS_LIST_STATIC) set_flags htab;
  '(_, htab) ← env_attr_walk value set_flags htab;
  mret (0, htab).

(** [env_flags_validate]; [newval] null is taken as the empty string.  The
    default value is looked up in the compiled-in settings, so the table that
    [getenv_default] gets is not looked at. *)
Definition env_flags_validate (item : ENTRY) (newval : cptr) (op : env_op) (flag : Z)
    : comp W Z :=
  name ← lift (deref (e_key item));
  newval ← lift (match newval with Null => Ret [] | p => deref p end);
  let type := Z.land ENV_FLAGS_VARTYPE_BIN_MASK (e_flags item) in
  if match op with env_op_delete => false | _ => _env_flags_validate_type newval type <? 0 end
  then mret (-1)
  else if negb (Z.land flag H_FORCE =? 0) then mret 0
  else
    match op with
    | env_op_delete =>
        mret (if Z.land (e_flags item) ENV_FLAGS_VARACCESS_PREVENT_DELETE =? 0 then 0 else 1)
    | env_op_overwrite =>
        if negb (Z.land (e_flags item) ENV_FLAGS_VARACCESS_PREVENT_OVERWR =? 0) then mret 1
        else if negb (Z.land (e_flags item) ENV_FLAGS_VARACCESS_PREVENT_NONDEF_OVERWR =? 0) then
          oldval ← lift (deref (e_data item));
          p ← getenv_default (Hsearch None 0 0) name;
          defval ← env_string (Hsearch None 0 0) p;
          mret (if bool_decide (oldval = default [] defval) then 0 else 1)
        else mret 0
    | env_op_create =>
        mret (if Z.land (e_flags item) ENV_FLAGS_VARACCESS_PREVENT_CREATE =? 0 then 0 else 1)
    end.

(** ** Callbacks (env_callback.c, include/env_callback.h) *)

Definition ENV_CALLBACK_VAR : bytes := str ".callbacks".

Definition ENV_CALLBACK_LIST_STATIC : bytes :=
  str ".callbacks:callbacks,.flags:flags,baudrate:baudrate,bootfile:bootfile,loadaddr:loadaddr,stdin:console,stdout:console,stderr:console,".

(** The linker list of callbacks, in the order of their names. *)
Definition env_clbk_tbl : list (bytes * env_clbk) :=
  [(str "baudrate", clbk_baudrate); (str "bootfile", clbk_bootfile);
   (str "callbacks", clbk_callbacks); (str "console", clbk_console);
   (str "flags", clbk_flags); (str "loadaddr", clbk_loadaddr)].

Definition find_env_callback (name : bytes) : option env_clbk :=
  snd ∘ snd <$> list_find (fun c => c.1 = name) env_clbk_tbl.

Definition set_callback_list (p : env_ptr) : comp W unit :=
  g ← get_globals;
  put_globals (EnvGlobals (gd_env_ready g) (gd_devinit g) (gd_env_valid g) (gd_env_addr g)
    (gd_env_buf g) (gd_baudrate g) (load_addr g) (BootFile g) (flags_first_call g)
    (flags_list g) false p (env_id g)).

(** [env_callback_init], with [callback_name] a buffer of 256 bytes. *)
Definition callback_init (env_htab : hsearch_data) (var_entry : ENTRY) : comp W ENTRY :=
  var_name ← lift (deref (e_key var_entry));
  g ← get_globals;
  _ ← (if callback_first_call g
       then p ← getenv env_htab ENV_CALLBACK_VAR; set_callback_list p
       else mret ());
  g ← get_globals;
  list ← env_string env_htab (callback_list g);
  '(ret, name) ← lift (match list with
                       | Some l => env_attr_lookup (S (length l)) attr_before list var_name
                                     (replicate 256 0)
                       | None => Ret (1, replicate 256 0)
                       end);
  '(ret, name) ← lift (if negb (ret =? 0)
                       then env_attr_lookup (S (length ENV_CALLBACK_LIST_STATIC)) attr_before
                              (Some ENV_CALLBACK_LIST_STATIC) var_name name
                       else Ret (ret, name));
  name ← lift (c_str name);
  mret (if (ret =? 0) && negb (zlen name =? 0)
        then match find_env_callback name with
             | Some cb => entry_callback var_entry (Some cb)
             | None => var_entry
             end
        else var_entry).

Definition clear_callback (e : ENTRY) : Z * ENTRY := (0, entry_callback e None).

Definition set_callback (name : bytes) (value : option bytes) (htab : hsearch_data)
    : comp W (Z * hsearch_data) :=
  update_found htab name (fun e =>
    match value with
    | None | Some [] => entry_callback e None
    | Some v => match find_env_callback v with
                | Some cb => entry_callback e (Some cb)
                | None => e
                end
    end).

Definition on_callbacks (value : option bytes) (htab : hsearch_data)
    : comp W (Z * hsearch_data) :=
  '(_, htab) ← lift (hwalk_r htab clear_callback);
  '(_, htab) ← env_attr_walk (Some ENV_CALLBACK_LIST_STATIC) set_callback htab;
  '(_, htab) ← env_attr_walk value set_callback htab;
  mret (0, htab).

(** [simple_strtoul] in a given base, without the rest. *)
Definition strtoul (cp : bytes) (base : Z) : Z :=
  match cp with
  | 48 :: 120 :: c :: rest =>
      if isxdigit c then (strtoul_from (c :: rest) 16 0).1
      else (strtoul_from (120 :: c :: rest) (if base =? 0 then 8 else base) 0).1
  | 48 :: rest => (strtoul_from rest (if base =? 0 then 8 else base) 0).1
  | _ => (strtoul_from cp (if base =? 0 then 10 else base) 0).1
  end.

Definition set_load_addr (addr : Z) : comp W unit :=
  g ← get_globals;
  put_globals (EnvGlobals (gd_env_ready g) (gd_devinit g) (gd_env_valid g) (gd_env_addr g)
    (gd_env_buf g) (gd_baudrate g) addr (BootFile g) (flags_first_call g) (flags_list g)
    (callback_first_call g) (callback_list g) (env_id g)).

Definition set_boot_file (name : bytes) : comp W unit :=
  g ← get_globals;
  put_globals (EnvGlobals (gd_env_ready g) (gd_devinit g) (gd_env_valid g) (gd_env_addr g)
    (gd_env_buf g) (gd_baudrate g) (load_addr g) name (flags_first_call g) (flags_list g)
    (callback_first_call g) (callback_list g) (env_id g)).

Definition set_baudrate (baud : Z) : comp W unit :=
  g ← get_globals;
  put_globals (EnvGlobals (gd_env_ready g) (gd_devinit g) (gd_env_valid g) (gd_env_addr g)
    (gd_env_buf g) baud (load_addr g) (BootFile g) (flags_first_call g) (flags_list g)
    (callback_first_call g) (callback_list g) (env_id g)).

Definition on_loadaddr (value : bytes) (op : env_op) : comp W Z :=
  match op with
  | env_op_delete => mret 0
  | _ => _ ← set_load_addr (strtoul value 16); mret 0
  end.

(** The characters [copy_filename] copies: up to a quote, at most [size] less
    one of them, and one less when the name starts with a quote. *)
Definition copy_filename (src : bytes) (size : Z) : bytes :=
  let '(src, size) :=
    match src with 34 :: rest => (rest, size - 1) | _ => (src, size) end in
  take (Z.to_nat (size - 1)) (take_while (fun c => negb (c =? 34)) src).

Definition sizeof_BootFile := 128.

Definition on_bootfile (value : bytes) (op : env_op) : comp W Z :=
  match op with
  | env_op_delete => mret 0
  | _ =>
      g ← get_globals;
      buf ← lift (wr (BootFile g) 0 (copy_filename value sizeof_BootFile ++ [0]));
      _ ← set_boot_file buf;
      mret 0
  end.

Definition baudrate_table : list Z := [9600; 19200; 38400; 57600; 115200; 460800].

(** The loop that waits for a carriage return, while [fuel] characters are
    typed; without one among them it does not end. *)
Fixpoint wait_enter (fuel : nat) : comp W unit :=
  match fuel with
  | O => fun _ => Crash NoFuel
  | S fuel => c ← getc; if c =? 13 then mret () else wait_enter fuel
  end.

(** What ends the loop does not depend on what is typed later. *)
Lemma wait_enter_more n k w r : wait_enter n w = Ret r → wait_enter (n + k) w = Ret r.
Proof.
  revert w. induction n as [|n IH]; intros w E; [done|]. cbn [wait_enter Nat.add] in *.
  apply comp_bind_Ret in E as (c & w1 & Ec & E). rewrite (comp_bind_run _ _ _ _ _ Ec).
  destruct (c =? 13); [done|]. by apply IH.
Qed.

Definition on_baudrate (value : bytes) (op : env_op) (flags : Z) : comp W Z :=
  match op with
  | env_op_delete => mret 1
  | _ =>
      let baudrate := s32 (strtoul value 10) in
      g ← get_globals;
      if gd_baudrate g =? baudrate then mret 0
      else if negb (existsb (Z.eqb baudrate) baudrate_table) then mret 1
      else
        _ ← set_baudrate baudrate;
        _ ← serial_setbrg baudrate;
        if negb (Z.land flags H_INTERACTIVE =? 0)
        then n ← (fun w => Ret (typed w, w)); _ ← wait_enter n; mret 0
        else mret 0
  end.

Definition stdin := 0.
Definition stdout := 1.
Definition stderr := 2.

Definition on_console (name : bytes) (value : bytes) (op : env_op) : comp W Z :=
  let console :=
    if bool_decide (name = str "stdin") then stdin
    else if bool_decide (name = str "stdout") then stdout
    else if bool_decide (name = str "stderr") then stderr
    else -1 in
  g ← get_globals;
  if (console =? -1) || negb (gd_devinit g) then mret 0
  else
    match op with
    | env_op_delete => mret 1
    | _ => r ← console_assign console value; mret (if r <? 0 then 1 else 0)
    end.

(** The call through an entry's callback pointer. *)
Definition run_callback (cb : env_clbk) (name : bytes) (value : cptr) (op : env_op) (flags : Z)
    (htab : hsearch_data) : comp W (Z * hsearch_data) :=
  let opt := match value with Str v => Some v | _ => None end in
  let with_value (f : bytes → comp W Z) : comp W (Z * hsearch_data) :=
    (r ← f (default [] opt); mret (r, htab)) in
  match cb with
  | clbk_flags => on_flags opt htab
  | clbk_callbacks => on_callbacks opt htab
  | clbk_loadaddr => with_value (fun v => on_loadaddr v op)
  | clbk_bootfile => with_value (fun v => on_bootfile v op)
  | clbk_baudrate => with_value (fun v => on_baudrate v op flags)
  | clbk_console => with_value (fun v => on_console name v op)
  end.

(** The environment's hash table, with [env_flags_validate] as its check. *)
#[export] Instance env_hooks : EnvHooks W := {|
  env_callback_init := callback_init;
  env_flags_init := flags_init;
  change_ok := Some env_flags_validate;
  callback_call := run_callback |}.
End Env.
