(* ===== verification/EnvFlagsSpec.v ===== *)
(** * What the attributes of environment variables do

    The functions of EnvFlags keep the promise the hash table relies on, the
    search of an attribute list ends for every name but the empty one, and the
    validation of a change accepts the values of the declared type and protects
    the variables declared read-only. *)

From S2P Require Import Prelude HashTable HashSpec Bootm EnvFlags.

Section Laws.
Context {W : Type} {HW : Heap W}.

(** ** The search alone changes nothing *)

Lemma compare_find_same {HH : EnvHooks W} key data t flag hval i w r t' w' :
  compare_and_overwrite_entry key data FIND t flag hval i w = Ret (r, t', w') → t' = t ∧ w' = w.
Proof.
  unfold compare_and_overwrite_entry. intros Hr. repeat (run_inv; case_hyp Hr); run_inv; auto.
Qed.

Lemma probe_find_same {HH : EnvHooks W} fuel key data t flag hval hval2 idx w r i t' w' :
  probe_loop fuel key data FIND t flag hval hval2 idx w = Ret (r, i, t', w') → t' = t ∧ w' = w.
Proof.
  revert idx. induction fuel as [|fuel IH]; intros idx; [done|]. cbn [probe_loop]. intros Hr.
  destruct (_ =? hval); [by run_inv|].
  apply comp_bind_Ret in Hr as ([r1 t1] & w1 & Hc & Hr). apply compare_find_same in Hc as [-> ->].
  destruct (negb _); [by run_inv|].
  apply comp_bind_Ret in Hr as (s & w2 & Hs & Hr). apply lift_Ret in Hs as (? & _ & [= -> ->]).
  destruct (used _ =? 0); [by run_inv|]. by eapply IH.
Qed.

Lemma find_same {HH : EnvHooks W} key data t flag w r t' w' :
  hsearch_r key data FIND t flag w = Ret (r, t', w') → t' = t ∧ w' = w.
Proof.
  unfold hsearch_r. intros Hr.
  apply comp_bind_Ret in Hr as (s & w1 & Hs & Hr). apply lift_Ret in Hs as (? & _ & [= -> ->]).
  apply comp_bind_Ret in Hr as ([[o i] t1] & w2 & Hp & Hr).
  assert (t1 = t ∧ w2 = w) as [-> ->].
  { destruct (used _ =? 0); [by run_inv|].
    apply comp_bind_Ret in Hp as ([r1 t2] & w3 & Hc & Hp). apply compare_find_same in Hc as [-> ->].
    destruct (negb _); [by run_inv|]. by eapply probe_find_same. }
  destruct o; by run_inv.
Qed.

(** ** Only flags and callbacks change *)

Lemma put_same_skeleton t i s e : slot_at t i = Ret s →
  e_key e = e_key (entry s) → e_data e = e_data (entry s) →
  skeleton (put_slot t i (Slot (used s) e)) = skeleton t.
Proof.
  intros Hs Hk Hd. apply slot_at_Ret in Hs as (l & Hl & _ & Hi). unfold skeleton, put_slot.
  cbn [table size filled]. rewrite Hl. cbn. do 2 f_equal. change list_fmap with (@fmap list _).
  rewrite list_fmap_insert. f_equal. apply list_insert_id.
  rewrite list_lookup_fmap, Hi. cbn. unfold cell. cbn. by rewrite Hk, Hd.
Qed.

Lemma hwalk_skeleton fuel i t f r t' : (∀ e, e_key (f e).2 = e_key e ∧ e_data (f e).2 = e_data e) →
  hwalk_loop fuel i t f = Ret (r, t') → skeleton t' = skeleton t.
Proof.
  intros Hf. revert i t. induction fuel as [|fuel IH]; intros i t; cbn [hwalk_loop].
  { by intros [= _ <-]. }
  intros Hr. apply run_bind_Ret in Hr as (s & Hs & Hr).
  destruct (used s >? 0); [|by eapply IH].
  destruct (f (entry s)) as [rv e] eqn:He. specialize (Hf (entry s)). rewrite He in Hf.
  destruct Hf as [Hk Hd]. assert (Hsk := put_same_skeleton t i s e Hs Hk Hd).
  destruct (negb _); [by injection Hr as _ <-|]. rewrite <- Hsk. by eapply IH.
Qed.

Context {EW : EnvWorld W}.

Definition keeps_skeleton (f : hsearch_data → comp W (Z * hsearch_data)) : Prop :=
  ∀ t w r t' w', f t w = Ret (r, t', w') → skeleton t' = skeleton t.

Lemma update_found_skeleton key f : (∀ e, e_key (f e) = e_key e ∧ e_data (f e) = e_data e) →
  keeps_skeleton (fun t => update_found t key f).
Proof.
  intros Hf t w r t' w' Hr. unfold update_found, hfind in Hr.
  apply comp_bind_Ret in Hr as ([r1 t1] & w1 & Hc & Hr). apply find_same in Hc as [-> ->].
  destruct (h_val r1) as [i|]; [|apply comp_ret_eq in Hr; by injection Hr as -> -> ->].
  apply comp_bind_Ret in Hr as (s & w2 & Hs & Hr). apply lift_Ret in Hs as (? & Hs & [= -> ->]).
  apply comp_ret_eq in Hr. injection Hr as -> -> ->. apply put_same_skeleton; [done|apply Hf|apply Hf].
Qed.

Lemma attr_walk_skeleton fuel entry cb : (∀ n v, keeps_skeleton (cb n v)) →
  keeps_skeleton (attr_walk_loop fuel entry cb).
Proof.
  intros Hcb. revert entry. induction fuel as [|fuel IH]; intros entry t w r t' w' Hr; [done|].
  cbn [attr_walk_loop] in Hr. destruct (split_at ENV_ATTR_LIST_DELIM entry) as [cpy rest].
  assert (Hnext : ∀ t1 w1, match rest with Some e => attr_walk_loop fuel e cb t1 | None => mret (0, t1) end w1
    = Ret (r, t', w') → skeleton t' = skeleton t1).
  { intros t1 w1 H1. destruct rest; [by eapply IH|]. apply comp_ret_eq in H1. by injection H1 as -> -> ->. }
  destruct (zlen cpy =? 0); [by eapply Hnext|].
  apply comp_bind_Ret in Hr as (ok & w1 & _ & Hr).
  destruct ok; cbn [negb] in Hr; [|apply comp_ret_eq in Hr; by injection Hr as -> -> ->].
  destruct (split_at ENV_ATTR_SEP cpy) as [name attributes].
  destruct (zlen (strim name) =? 0); [by eapply Hnext|].
  apply comp_bind_Ret in Hr as ([rv t1] & w2 & Hc & Hr). apply Hcb in Hc. rewrite <- Hc.
  destruct (negb _); [apply comp_ret_eq in Hr; by injection Hr as -> -> ->|by eapply Hnext].
Qed.

Lemma env_attr_walk_skeleton list cb : (∀ n v, keeps_skeleton (cb n v)) →
  keeps_skeleton (env_attr_walk list cb).
Proof.
  intros Hcb t w r t' w'. unfold env_attr_walk. destruct list; [by apply attr_walk_skeleton|].
  intros Hr. apply comp_ret_eq in Hr. by injection Hr as -> -> ->.
Qed.

Lemma on_flags_skeleton value : keeps_skeleton (on_flags value).
Proof.
  assert (Hset : ∀ n v, keeps_skeleton (set_flags n v)) by (intros; by apply update_found_skeleton).
  intros t w r t' w' Hr. unfold on_flags in Hr.
  apply comp_bind_Ret in Hr as ([r1 t1] & w1 & H1 & Hr). apply lift_Ret in H1 as (? & H1 & [= <- <-]).
  apply hwalk_skeleton in H1; [|done].
  apply comp_bind_Ret in Hr as ([r2 t2] & w2 & H2 & Hr). apply env_attr_walk_skeleton in H2; [|done].
  apply comp_bind_Ret in Hr as ([r3 t3] & w3 & H3 & Hr). apply env_attr_walk_skeleton in H3; [|done].
  apply comp_ret_eq in Hr. injection Hr as -> -> ->. congruence.
Qed.

Lemma on_callbacks_skeleton value : keeps_skeleton (on_callbacks value).
Proof.
  assert (Hset : ∀ n v, keeps_skeleton (set_callback n v)).
  { intros. apply update_found_skeleton. intros e. by repeat case_match. }
  intros t w r t' w' Hr. unfold on_callbacks in Hr.
  apply comp_bind_Ret in Hr as ([r1 t1] & w1 & H1 & Hr). apply lift_Ret in H1 as (? & H1 & [= <- <-]).
  apply hwalk_skeleton in H1; [|done].
  apply comp_bind_Ret in Hr as ([r2 t2] & w2 & H2 & Hr). apply env_attr_walk_skeleton in H2; [|done].
  apply comp_bind_Ret in Hr as ([r3 t3] & w3 & H3 & Hr). apply env_attr_walk_skeleton in H3; [|done].
  apply comp_ret_eq in Hr. injection Hr as -> -> ->. congruence.
Qed.

(** Skips over the binds of a program whose effects do not matter. *)
Ltac skip_binds Hr :=
  repeat first [ apply comp_bind_Ret in Hr as (? & ? & _ & Hr)
               | match type of Hr with context [match ?x with (_, _) => _ end] => destruct x end ].

(** The functions the environment hands to its hash table keep its promise. *)
#[export] Instance env_hook_laws : HookLaws W (HH := env_hooks).
Proof.
  constructor.
  - intros t e w e' w' Hr. cbn in Hr. unfold callback_init in Hr. skip_binds Hr.
    apply comp_ret_eq in Hr. injection Hr as -> ->. by repeat case_match.
  - intros t e w e' w' Hr. cbn in Hr. unfold flags_init in Hr. skip_binds Hr.
    apply comp_ret_eq in Hr. injection Hr as -> ->. by repeat case_match.
  - intros cb k v op fl t w r t' w' Hr. cbn in Hr. unfold run_callback in Hr.
    destruct cb; [by eapply on_callbacks_skeleton|by eapply on_flags_skeleton|..];
      apply comp_bind_Ret in Hr as (? & ? & _ & Hr); apply comp_ret_eq in Hr; by injection Hr as -> -> ->.
Qed.
End Laws.

(** ** Searching an attribute list *)

Definition occurs (list name : bytes) (m : nat) : Prop := has_prefix (drop m list) name = true.

Lemma has_prefix_length s p : has_prefix s p = true → (length p ≤ length s)%nat.
Proof.
  unfold has_prefix. intros Hp. apply bool_decide_eq_true in Hp. rewrite <- Hp, length_take. lia.
Qed.

Lemma occurs_bound list name m : name ≠ [] → occurs list name m → (m + length name ≤ length list)%nat.
Proof.
  intros Hn Ho. apply has_prefix_length in Ho. rewrite length_drop in Ho.
  destruct name; [done|]. cbn [length] in *. lia.
Qed.

(** [strstr]: the first occurrence. *)
Lemma strstr_from_first s p i :
  match strstr_from s p i with
  | Some d => ∃ k, d = (i + k)%nat ∧ has_prefix (drop k s) p = true ∧
      ∀ d', (d' < k)%nat → has_prefix (drop d' s) p = false
  | None => ∀ d', has_prefix (drop d' s) p = false
  end.
Proof.
  revert i. induction s as [|c s IH]; intros i; cbn [strstr_from].
  - destruct (has_prefix [] p) eqn:E; [exists 0%nat; split_and!; [lia|done|lia]|].
    intros d'. by rewrite drop_nil.
  - destruct (has_prefix (c :: s) p) eqn:E; [exists 0%nat; split_and!; [lia|done|lia]|].
    specialize (IH (S i)). destruct (strstr_from s p (S i)) as [d|].
    + destruct IH as (k & -> & Hk & Hlt). exists (S k). split_and!; [lia|done|].
      intros [|d'] Hd; [done|]. apply (Hlt d'). lia.
    + intros [|d']; [done|apply (IH d')].
Qed.

Lemma strstr_first s p :
  match strstr s p with
  | Some d => has_prefix (drop d s) p = true ∧ ∀ d', (d' < d)%nat → has_prefix (drop d' s) p = false
  | None => ∀ d', has_prefix (drop d' s) p = false
  end.
Proof.
  assert (Hs := strstr_from_first s p 0). unfold strstr. destruct (strstr_from s p 0); [|done].
  by destruct Hs as (k & -> & ? & ?).
Qed.

(** Whether an occurrence lies before the limit. *)
Definition before_limit (name : bytes) (st : option nat) (m : nat) : Prop :=
  match st with Some st => (m + length name ≤ st)%nat | None => True end.

(** The last occurrence before the limit, if there is one. *)
Definition last_before (list name : bytes) (st r : option nat) : Prop :=
  match r with
  | Some r => occurs list name r ∧ before_limit name st r ∧
      ∀ m, occurs list name m → before_limit name st m → (m ≤ r)%nat
  | None => ∀ m, occurs list name m → ¬ before_limit name st m
  end.

Lemma reverse_strstr_loop_spec fuel list name searched st result :
  name ≠ [] → (searched ≤ length list)%nat → (length list < fuel + searched)%nat →
  (∀ m, occurs list name m → (m < searched)%nat →
     match result with Some r => (m ≤ r)%nat | None => False end) →
  match result with Some r => occurs list name r ∧ before_limit name st r | None => True end →
  ∃ r, reverse_strstr_loop fuel list name searched st result = Ret r ∧ last_before list name st r.
Proof.
  intros Hn. revert searched result.
  induction fuel as [|fuel IH]; intros searched result Hse Hf Hprev Hres; [lia|].
  cbn [reverse_strstr_loop]. assert (Hs := strstr_first (drop searched list) name).
  assert (Hdone : ∀ lim, (∀ m, occurs list name m → (searched ≤ m)%nat → (lim ≤ m)%nat) →
    (∀ m, occurs list name m → (lim ≤ m)%nat → ¬ before_limit name st m) →
    last_before list name st result).
  { intros lim H1 H2. destruct result as [r|].
    - destruct Hres as [Ho Hb]. split_and!; [done|done|]. intros m Hm Hbm.
      destruct (decide (m < searched)%nat); [by apply Hprev|]. exfalso. eapply H2; [done| |done]. apply H1; [done|lia].
    - intros m Hm. destruct (decide (m < searched)%nat); [by destruct (Hprev m)|].
      apply H2; [done|]. apply H1; [done|lia]. }
  destruct (strstr (drop searched list) name) as [d|].
  - destruct Hs as [Hd Hmin]. rewrite drop_drop in Hd.
    assert (Hge : ∀ m, occurs list name m → (searched ≤ m)%nat → (searched + d ≤ m)%nat).
    { intros m Hm Hle. destruct (decide (m < searched + d)%nat); [|lia].
      specialize (Hmin (m - searched)%nat ltac:(lia)). rewrite drop_drop in Hmin.
      replace (searched + (m - searched))%nat with m in Hmin by lia. unfold occurs in Hm. congruence. }
    assert (Hbd := occurs_bound list name (searched + d) Hn Hd).
    destruct (match st with Some st => bool_decide (st < searched + d + length name)%nat | None => false end) eqn:E.
    + exists result. split; [done|]. apply (Hdone (searched + d)%nat Hge).
      intros m _ Hm. destruct st as [st|]; [|done]. apply bool_decide_eq_true in E. cbn. lia.
    + assert (1 ≤ length name)%nat by (destruct name; [done|cbn; lia]).
      apply IH; [lia|lia| |].
      * intros m Hm Hlt. destruct (decide (m < searched)%nat) as [Hl|];
          [|pose proof (Hge m Hm); lia].
        specialize (Hprev m Hm Hl). destruct result; lia.
      * split; [done|]. destruct st as [st|]; [|done]. apply bool_decide_eq_false in E. cbn. lia.
  - exists result. split; [done|]. apply (Hdone (S (length list))).
    + intros m Hm Hle. specialize (Hs (m - searched)%nat). rewrite drop_drop in Hs.
      replace (searched + (m - searched))%nat with m in Hs by lia. unfold occurs in Hm. congruence.
    + intros m Hm Hle. pose proof (occurs_bound list name m Hn Hm). lia.
Qed.

Lemma reverse_strstr_spec list name st : name ≠ [] →
  ∃ r, reverse_strstr list name st = Ret r ∧ last_before list name st r.
Proof.
  intros Hn. unfold reverse_strstr. destruct name as [|c name']; [done|].
  apply reverse_strstr_loop_spec; [done|lia|lia|lia|done].
Qed.

(** The bytes before the list are not all spaces. *)
Definition solid (before : bytes) : Prop := Exists (λ c, c ≠ 32) before.

Lemma drop_while_solid s : solid s → ∃ c r, drop_while (λ c, c =? 32) s = c :: r.
Proof.
  induction s as [|c s IH]; intros Hs; [by inversion Hs|]. cbn [drop_while].
  destruct (Z.eqb_spec c 32) as [->|]; [|eauto]. apply IH. by inversion Hs.
Qed.

Lemma prev_char_total before list e : solid before → ∃ c, prev_char before list e = Ret c.
Proof.
  intros Hb. unfold prev_char. destruct (drop_while_solid (rev (take e list) ++ before)) as (c & r & ->); [|eauto].
  unfold solid. apply Exists_app. by right.
Qed.

(** Whether [env_attr_lookup] accepts an occurrence. *)
Definition exact_at (before list name : bytes) (e : nat) : bool :=
  match prev_char before list e with
  | Ret prevch =>
      let nextch := char_at (skip_blanks (drop (e + length name) list)) in
      ((e =? 0)%nat || (prevch =? ENV_ATTR_LIST_DELIM)) &&
      ((nextch =? ENV_ATTR_SEP) || (nextch =? ENV_ATTR_LIST_DELIM) || (nextch =? 0))
  | Crash _ => false
  end.

(** The search ends, at an accepted occurrence or with none; and it ends at the
    last accepted one when no occurrence overlaps its end. *)
Lemma attr_find_spec fuel before list name entry st : name ≠ [] → solid before →
  last_before list name st entry →
  match entry with Some e => (e + 2 ≤ fuel)%nat | None => (1 ≤ fuel)%nat end →
  ∃ r, attr_find fuel before list name entry = Ret r ∧
    match r with Some e => occurs list name e ∧ exact_at before list name e = true | None => True end ∧
    ∀ e, occurs list name e → exact_at before list name e = true →
      (∀ m, occurs list name m → exact_at before list name m = true → (m ≤ e)%nat) →
      (∀ m, occurs list name m → (e < m)%nat → (e + length name ≤ m)%nat) →
      before_limit name st e → r = Some e.
Proof.
  intros Hn Hb. revert entry st. induction fuel as [|fuel IH]; intros entry st Hlast Hf.
  { destruct entry; lia. }
  cbn [attr_find]. destruct entry as [e|].
  - destruct Hlast as (Ho & _ & Hmax). destruct (prev_char_total before list e Hb) as [c Hc].
    rewrite Hc. cbn [mbind run_bind].
    assert (Hex : exact_at before list name e = ((e =? 0)%nat || (c =? ENV_ATTR_LIST_DELIM)) &&
      ((char_at (skip_blanks (drop (e + length name) list)) =? ENV_ATTR_SEP) ||
       (char_at (skip_blanks (drop (e + length name) list)) =? ENV_ATTR_LIST_DELIM) ||
       (char_at (skip_blanks (drop (e + length name) list)) =? 0))) by (unfold exact_at; by rewrite Hc).
    rewrite <- Hex. destruct (exact_at before list name e) eqn:E.
    + exists (Some e). split_and!; [done|done|done|]. intros e' Ho' He' Hmax' _ Hlim.
      specialize (Hmax e' Ho' Hlim). specialize (Hmax' e Ho E). f_equal. lia.
    + destruct (reverse_strstr_spec list name (Some e) Hn) as (r & Hr & Hl). rewrite Hr.
      cbn [mbind run_bind]. destruct (IH r (Some e) Hl) as (r' & Hr' & H1 & H2).
      { destruct r as [m|]; [|lia]. destruct Hl as (_ & Hm & _). cbn in Hm.
        assert (1 ≤ length name)%nat by (destruct name; [done|cbn; lia]). lia. }
      exists r'. split_and!; [done|done|]. intros e' Ho' He' Hmax' Hov Hlim. apply H2; auto.
      cbn. specialize (Hmax e' Ho' Hlim). assert (e' ≠ e) by congruence. apply Hov; [done|lia].
  - exists None. split_and!; [done|done|]. intros e He _ _ _ Hlim. by destruct (Hlast e He).
Qed.

(** ** Well-formed attribute lists *)

(** A character of a name: not a zero, a space, a comma or a colon. *)
Definition name_char (c : Z) : Prop := c ≠ 0 ∧ c ≠ 32 ∧ c ≠ 44 ∧ c ≠ 58.
Definition attr_char (c : Z) : Prop := c ≠ 0 ∧ c ≠ 32 ∧ c ≠ 44.

Definition attr_ok (e : bytes * bytes) : Prop :=
  e.1 ≠ [] ∧ Forall name_char e.1 ∧ Forall attr_char e.2.

Definition print_attr (e : bytes * bytes) : bytes := e.1 ++ [58] ++ e.2 ++ [44].
Definition print_attrs (es : list (bytes * bytes)) : bytes := concat (print_attr <$> es).

(** The attributes of the last entry with a name. *)
Definition last_attr (es : list (bytes * bytes)) (name : bytes) : option bytes :=
  snd ∘ snd <$> list_find (λ e, e.1 = name) (rev es).

Lemma last_attr_spec es name :
  match last_attr es name with
  | Some a => ∃ es1 es2, es = es1 ++ (name, a) :: es2 ∧ name ∉ es2.*1
  | None => name ∉ es.*1
  end.
Proof.
  unfold last_attr. destruct (list_find (λ e, e.1 = name) (rev es)) as [[i [n a]]|] eqn:E; cbn.
  - apply list_find_Some in E as (Hi & Hn & Hlt). cbn in Hn. subst n.
    exists (rev (drop (S i) (rev es))), (rev (take i (rev es))). split.
    + rewrite <- (rev_involutive es) at 1. rewrite <- (take_drop_middle (rev es) i (name, a) Hi) at 1.
      rewrite rev_app_distr. cbn. by rewrite <- app_assoc.
    + intros Hin. apply list_elem_of_fmap in Hin as (y & Hy & Hin). apply list_elem_of_In, in_rev, list_elem_of_In in Hin.
      apply list_elem_of_lookup in Hin as [j Hj]. apply lookup_take_Some in Hj as [Hj Hji].
      by apply (Hlt j y Hj Hji).
  - apply list_find_None in E. intros Hin. apply list_elem_of_fmap in Hin as (y & Hy & Hin).
    rewrite Forall_forall in E. apply (E y); [|done]. by apply list_elem_of_In, in_rev, list_elem_of_In; rewrite rev_involutive.
Qed.

Lemma print_attrs_app es1 es2 : print_attrs (es1 ++ es2) = print_attrs es1 ++ print_attrs es2.
Proof. unfold print_attrs. by rewrite fmap_app, concat_app. Qed.

Lemma print_attrs_nospace es : Forall attr_ok es → Forall (λ c, c ≠ 32) (print_attrs es).
Proof.
  induction 1 as [|[n a] es (Hn & Hc & Ha) _ IH]; [constructor|].
  unfold print_attrs. cbn [fmap list_fmap concat]. apply Forall_app. split; [|done].
  unfold print_attr. cbn [fst snd]. rewrite !Forall_app, !Forall_singleton. split_and!; [|lia| |lia].
  - eapply Forall_impl; [exact Hc|]. intros c Hc'. apply Hc'.
  - eapply Forall_impl; [exact Ha|]. intros c Hc'. apply Hc'.
Qed.

Lemma drop_while_id s : Forall (λ c, c ≠ 32) s → drop_while (λ c, c =? 32) s = s.
Proof. destruct 1; [done|]. cbn. by rewrite (proj2 (Z.eqb_neq _ _)). Qed.

(** After a comma of a printed list an entry starts. *)
Lemma entry_starts es m : Forall attr_ok es → (m ≤ length (print_attrs es))%nat →
  m = 0%nat ∨ print_attrs es !! (m - 1)%nat = Some 44 →
  ∃ es1 es2, es = es1 ++ es2 ∧ m = length (print_attrs es1).
Proof.
  intros Hok. revert m. induction Hok as [|[n a] es (Hn & Hc & Ha) Hok IH]; intros m Hm Hs.
  - exists [], []. split; [done|]. cbn in *. lia.
  - destruct (decide (m = 0%nat)) as [->|Hm0]; [by exists [], ((n, a) :: es)|].
    destruct Hs as [?|Hs]; [done|].
    unfold print_attrs in Hm, Hs. cbn [fmap list_fmap concat] in Hm, Hs.
    change (concat _) with (print_attrs es) in Hm, Hs.
    assert (Hlen : length (print_attr (n, a)) = (length n + length a + 2)%nat)
      by (unfold print_attr; cbn [fst snd]; rewrite !length_app; cbn; lia).
    rewrite length_app in Hm.
    destruct (decide (m < length (print_attr (n, a)))%nat) as [Hlt|Hge].
    + exfalso. rewrite lookup_app_l in Hs by lia. unfold print_attr in Hs. cbn [fst snd] in Hs.
      rewrite Hlen in Hlt. destruct (decide (m - 1 < length n)%nat).
      * rewrite lookup_app_l in Hs by lia. eapply Forall_lookup_1 in Hc; [|exact Hs]. by destruct Hc as (_ & _ & ? & _).
      * rewrite lookup_app_r in Hs by lia. destruct (m - 1 - length n)%nat as [|k] eqn:Ek; [done|].
        change ((a ++ [44]) !! k = Some 44) in Hs.
        rewrite lookup_app_l in Hs by lia. eapply Forall_lookup_1 in Ha; [|exact Hs]. by destruct Ha as (_ & _ & ?).
    + destruct (IH (m - length (print_attr (n, a)))%nat) as (es1 & es2 & -> & Heq).
      { lia. }
      { destruct (decide (m = length (print_attr (n, a)))); [left; lia|right].
        rewrite lookup_app_r in Hs by lia. rewrite <- Hs. f_equal. lia. }
      exists ((n, a) :: es1), es2. split; [done|]. unfold print_attrs. cbn [fmap list_fmap concat].
      rewrite length_app. change (concat _) with (print_attrs es1). lia.
Qed.

Lemma has_prefix_prefix s p : has_prefix s p = true ↔ ∃ r, s = p ++ r.
Proof.
  unfold has_prefix. rewrite bool_decide_eq_true. split.
  - intros Hp. exists (drop (length p) s). rewrite <- Hp at 1. by rewrite take_drop.
  - intros [r ->]. by rewrite take_app_length.
Qed.

(** Two names of which one is followed by a separator are equal. *)
Lemma name_eq n name r r' : Forall name_char n → Forall name_char name →
  n ++ 58 :: r = name ++ r' →
  char_at (skip_blanks r') = 58 ∨ char_at (skip_blanks r') = 44 ∨ char_at (skip_blanks r') = 0 → n = name.
Proof.
  revert name. induction n as [|c n IH]; intros [|c' name] Hn Hname Heq Hch; [done| | |].
  - cbn in Heq. simplify_eq. inversion Hname as [|? ? Hc]. by destruct Hc as (_ & _ & _ & ?).
  - exfalso. cbn in Heq. subst r'. inversion Hn as [|? ? Hc]; subst. destruct Hc as (? & ? & ? & ?).
    unfold skip_blanks in Hch. cbn [drop_while] in Hch. rewrite (proj2 (Z.eqb_neq c 32)) in Hch by done.
    cbn in Hch. lia.
  - cbn in Heq. simplify_eq. inversion Hn; subst. inversion Hname; subst. f_equal. by eapply IH.
Qed.

Lemma take_while_attr a r : Forall attr_char a →
  take_while (fun c => negb ((c =? ENV_ATTR_LIST_DELIM) || (c =? 32)))
    (drop_while (fun c => c =? 32) (a ++ 44 :: r)) = a.
Proof.
  intros Ha. assert (Hd : drop_while (fun c => c =? 32) (a ++ 44 :: r) = a ++ 44 :: r).
  { destruct Ha as [|c a (_ & Hc & _) _]; [done|]. cbn. by rewrite (proj2 (Z.eqb_neq c 32)). }
  rewrite Hd. clear Hd. induction Ha as [|c a (_ & Hc & Hc') _ IH]; [done|].
  cbn. unfold ENV_ATTR_LIST_DELIM in *. rewrite (proj2 (Z.eqb_neq c 32)), (proj2 (Z.eqb_neq c 44)) by done.
  cbn. by f_equal.
Qed.

(** The last entry of a name comes after every other one. *)
Lemma last_split_le (es1 es2 es3 es4 : list (bytes * bytes)) name a a' :
  es1 ++ (name, a) :: es2 = es3 ++ (name, a') :: es4 → name ∉ es2.*1 → ∃ es5, es1 = es3 ++ es5.
Proof.
  revert es3. induction es1 as [|e es1 IH]; intros [|e3 es3] Heq Hno; simplify_eq/=.
  - by exists [].
  - exfalso. apply Hno. rewrite fmap_app. apply elem_of_app. right. by left.
  - by eexists.
  - destruct (IH es3) as [es5 ->]; [done|done|]. by exists es5.
Qed.

Section Printed.
Context (before : bytes) (Hb : solid before) (es : list (bytes * bytes)) (Hes : Forall attr_ok es).
Context (name : bytes) (Hne : name ≠ []) (Hname : Forall name_char name).

Lemma drop_print es1 es2 : drop (length (print_attrs es1)) (print_attrs (es1 ++ es2)) = print_attrs es2.
Proof. by rewrite print_attrs_app, drop_app_length. Qed.

(** The accepted occurrences are the starts of the entries of that name. *)
Lemma exact_entry m : occurs (print_attrs es) name m → exact_at before (print_attrs es) name m = true →
  ∃ es1 a es2, es = es1 ++ (name, a) :: es2 ∧ m = length (print_attrs es1).
Proof.
  intros Ho He. assert (Hbd := occurs_bound _ _ _ Hne Ho). unfold exact_at in He.
  destruct (prev_char before (print_attrs es) m) as [c|] eqn:Hc; [|done].
  rewrite andb_true_iff, !orb_true_iff, !Z.eqb_eq, Nat.eqb_eq in He. destruct He as [Hstart Hnext].
  assert (Hst : m = 0%nat ∨ print_attrs es !! (m - 1)%nat = Some 44).
  { destruct m as [|m]; [by left|right]. destruct Hstart as [|Hst]; [done|].
    destruct (lookup_lt_is_Some_2 (print_attrs es) m) as [x Hx]; [lia|].
    unfold prev_char in Hc. rewrite (take_S_r _ _ x Hx), rev_app_distr in Hc. cbn [rev app drop_while] in Hc.
    pose proof (Forall_lookup_1 _ _ _ _ (print_attrs_nospace es Hes) Hx) as Hsp. cbn in Hsp.
    rewrite (proj2 (Z.eqb_neq x 32) Hsp) in Hc. injection Hc as ->.
    rewrite Nat.sub_succ, Nat.sub_0_r, Hx. by rewrite Hst. }
  destruct (entry_starts es m Hes) as (es1 & es2 & Hsplit & Hm); [lia|done|].
  unfold occurs in Ho. rewrite Hsplit, Hm, drop_print in Ho. apply has_prefix_prefix in Ho as [r Hr].
  rewrite <- drop_drop, Hsplit, Hm, drop_print, Hr, drop_app_length in Hnext.
  destruct es2 as [|[n a] es2].
  { cbn in Hr. by destruct name. }
  exists es1, a, es2. split; [|done]. rewrite Hsplit in Hes |- *. apply Forall_app in Hes as [_ Hes2].
  inversion Hes2 as [|? ? (_ & Hn & _)]; subst. do 3 f_equal.
  eapply (name_eq n name _ r); [done|done| |].
  - rewrite <- Hr. unfold print_attrs. cbn [fmap list_fmap concat]. unfold print_attr. cbn [fst snd].
    rewrite <- !app_assoc. reflexivity.
  - unfold ENV_ATTR_SEP, ENV_ATTR_LIST_DELIM in Hnext. tauto.
Qed.

Lemma print_at es1 a es2 : es = es1 ++ (name, a) :: es2 →
  drop (length (print_attrs es1)) (print_attrs es) = name ++ 58 :: a ++ 44 :: print_attrs es2.
Proof.
  intros ->. rewrite drop_print. unfold print_attrs. cbn [fmap list_fmap concat]. unfold print_attr.
  cbn [fst snd]. rewrite <- !app_assoc. reflexivity.
Qed.

Lemma exact_entry_2 es1 a es2 : es = es1 ++ (name, a) :: es2 →
  occurs (print_attrs es) name (length (print_attrs es1)) ∧
  exact_at before (print_attrs es) name (length (print_attrs es1)) = true.
Proof.
  intros Hsplit. assert (Hat := print_at es1 a es2 Hsplit). split.
  { unfold occurs. rewrite Hat. apply has_prefix_prefix. eauto. }
  unfold exact_at. rewrite <- drop_drop, Hat, drop_app_length.
  unfold skip_blanks. cbn [drop_while char_at Z.eqb Pos.eqb]. change (58 =? ENV_ATTR_SEP) with true. cbn [orb].
  destruct (length (print_attrs es1)) as [|k] eqn:Hk.
  - destruct (prev_char_total before (print_attrs es) 0 Hb) as [c ->]. done.
  - (* the entry before ends with a comma *)
    assert (Hlast : print_attrs es !! k = Some 44).
    { rewrite Hsplit, print_attrs_app, lookup_app_l by lia.
      destruct es1 as [|x es1' _] using rev_ind; [done|].
      rewrite print_attrs_app in Hk |- *. unfold print_attrs at 2 in Hk. unfold print_attrs at 2.
      cbn [fmap list_fmap concat] in Hk |- *. unfold print_attr in Hk |- *.
      rewrite app_nil_r in Hk |- *. rewrite !app_assoc in Hk |- *. rewrite length_app in Hk. cbn in Hk.
      rewrite lookup_app_r by lia. replace (k - _)%nat with 0%nat; [done|].
      rewrite !length_app in *. cbn in *. lia. }
    unfold prev_char. rewrite (take_S_r _ _ 44 Hlast), rev_app_distr. done.
Qed.

(** [env_attr_lookup] on a printed list is the lookup of the last entry. *)
Lemma env_attr_lookup_printed buf :
  env_attr_lookup (S (length (print_attrs es))) before (Some (print_attrs es)) name buf =
  match last_attr es name with
  | Some a => buf' ← wr buf 0 (a ++ [0]); Ret (0, buf')
  | None => Ret (2, buf)
  end.
Proof.
  unfold env_attr_lookup.
  destruct (reverse_strstr_spec (print_attrs es) name None Hne) as (e0 & He0 & Hl0).
  rewrite He0. cbn [mbind run_bind].
  destruct (attr_find_spec (S (length (print_attrs es))) before (print_attrs es) name e0 None)
    as (r & Hr & Hex & Hlast); [done|done|done| |].
  { destruct e0 as [e|]; [|lia]. destruct Hl0 as (Ho & _). assert (H1 := occurs_bound _ _ _ Hne Ho).
    destruct name; [done|]. cbn in H1. lia. }
  rewrite Hr. cbn [mbind run_bind]. assert (Hla := last_attr_spec es name).
  destruct (last_attr es name) as [a|].
  - destruct Hla as (es1 & es2 & Hsplit & Hno). assert (Hat := print_at es1 a es2 Hsplit).
    destruct (exact_entry_2 es1 a es2 Hsplit) as [Ho He].
    rewrite (Hlast (length (print_attrs es1)) Ho He); [| | |done].
    + rewrite <- drop_drop, Hat, drop_app_length. unfold skip_blanks. unfold ENV_ATTR_SEP.
      cbn [drop_while char_at Z.eqb Pos.eqb drop].
      assert (Ha : Forall attr_char a).
      { rewrite Hsplit in Hes. apply Forall_app in Hes as [_ Hes2]. by inversion Hes2 as [|? ? (_ & _ & ?)]. }
      rewrite ?drop_0, take_while_attr; done.
    + intros m Hm Hem. destruct (exact_entry m Hm Hem) as (es3 & a' & es4 & Hsp & ->).
      destruct (last_split_le es1 es2 es3 es4 name a a') as [es5 ->]; [congruence|done|].
      rewrite print_attrs_app, length_app. lia.
    + intros m Hm Hlt. destruct (decide (length (print_attrs es1) + length name ≤ m)%nat) as [|Hov]; [done|].
      exfalso. unfold occurs in Hm.
      replace m with (length (print_attrs es1) + (m - length (print_attrs es1)))%nat in Hm by lia.
      rewrite <- drop_drop, Hat in Hm. apply has_prefix_prefix in Hm as [r0 Hm].
      set (k := (m - length (print_attrs es1))%nat) in *.
      assert (Hc : (name ++ r0) !! (length name - k)%nat = Some 58).
      { rewrite <- Hm, lookup_drop. replace (k + (length name - k))%nat with (length name) by lia.
        by rewrite lookup_app_r, Nat.sub_diag. }
      rewrite lookup_app_l in Hc by lia. eapply Forall_lookup_1 in Hname; [|exact Hc].
      by destruct Hname as (_ & _ & _ & ?).
  - destruct r as [m|]; [|done]. destruct Hex as [Ho He]. exfalso.
    destruct (exact_entry m Ho He) as (es1 & a & es2 & -> & _). apply Hla.
    rewrite fmap_app. apply elem_of_app. right. by left.
Qed.
End Printed.

(** A name that is empty is searched for without end. *)
Lemma attr_find_empty fuel c before d list : c ≠ 32 → d ≠ 32 → d ≠ 58 → d ≠ 44 → d ≠ 0 →
  attr_find fuel (c :: before) (d :: list) [] (Some 0%nat) = Crash NoFuel.
Proof.
  intros Hc H32 H58 H44 H0. induction fuel as [|fuel IH]; [done|]. cbn [attr_find].
  unfold prev_char. cbn [rev take app drop_while length Nat.add drop skip_blanks].
  unfold skip_blanks. cbn [drop_while]. rewrite (proj2 (Z.eqb_neq c 32) Hc), (proj2 (Z.eqb_neq d 32) H32).
  cbn [mbind run_bind char_at]. unfold ENV_ATTR_SEP, ENV_ATTR_LIST_DELIM.
  rewrite (proj2 (Z.eqb_neq d 58) H58), (proj2 (Z.eqb_neq d 44) H44), (proj2 (Z.eqb_neq d 0) H0).
  cbn [orb]. rewrite andb_false_r. exact IH.
Qed.

(** ** Validation of values *)

Lemma skip_digits_spec v i : i ≤ 3 →
  ∃ g r, v = g ++ r ∧ skip_digits false v i = r ∧ Forall (λ c, isdigit c = true) g ∧
    (0 ≤ i → zlen g ≤ i) ∧ (isdigit (char_at r) = false ∨ zlen g = i).
Proof.
  revert i. induction v as [|c v IH]; intros i Hi; cbn [skip_digits].
  { exists [], []. split_and!; [done|done|done|intros; unfold zlen; simpl length; lia|by left]. }
  destruct (Z.eqb_spec i 0) as [->|]; [exists [], (c :: v); split_and!; [done|done|done|intros; unfold zlen; simpl length; lia|by right]|].
  cbn [andb negb]. destruct (isdigit c) eqn:Ec; cbn [negb].
  - destruct (IH (i - 1)) as (g & r & -> & -> & Hg & Hle & Hend); [lia|].
    exists (c :: g), r. split_and!; [done|done|by constructor| |].
    + rewrite zlen_cons. intros. assert (zlen g ≤ i - 1) by (apply Hle; lia). lia.
    + rewrite zlen_cons. destruct Hend; [by left|right; lia].
  - exists [], (c :: v). split_and!; [done|done|done|intros; unfold zlen; simpl length; lia|by left].
Qed.

(** A decimal variable takes exactly the strings of digits. *)
Lemma validate_decimal v : Forall (λ c, c ≠ 0) v →
  _env_flags_validate_type v env_flags_vartype_decimal = 0 ↔ Forall (λ c, isdigit c = true) v.
Proof.
  intros Hz. unfold _env_flags_validate_type, skip_num. cbn [andb Z.eqb].
  destruct (skip_digits_spec v (-1)) as (g & r & -> & Hs & Hg & _ & Hend); [lia|].
  change (env_flags_vartype_decimal =? env_flags_vartype_decimal) with true. cbn iota.
  rewrite Hs. assert (Hr : isdigit (char_at r) = false)
    by (destruct Hend as [|Hl]; [done|pose proof (zlen_nonneg g); lia]).
  apply Forall_app in Hz as [_ Hz]. destruct r as [|c r]; cbn [char_at] in *.
  - rewrite app_nil_r. by split.
  - inversion Hz; subst. rewrite (proj2 (Z.eqb_neq c 0)) by done. split; [done|].
    intros Hf. apply Forall_app in Hf as [_ Hf]. inversion Hf; congruence.
Qed.

(** [n] groups of one to three digits with dots between them. *)
Inductive dotted : nat → bytes → Prop :=
  | dotted_last g : Forall (λ c, isdigit c = true) g → 1 ≤ zlen g ≤ 3 → dotted 1 g
  | dotted_more n g v : Forall (λ c, isdigit c = true) g → 1 ≤ zlen g ≤ 3 → dotted n v →
      dotted (S n) (g ++ 46 :: v).

Lemma skip_group g r : Forall (λ c, isdigit c = true) g → zlen g ≤ 3 →
  isdigit (char_at r) = false → skip_num false (g ++ r) 3 = r.
Proof.
  intros Hg Hl Hr. unfold skip_num. cbn [andb].
  assert (Hgen : ∀ i, zlen g ≤ i → skip_digits false (g ++ r) i = r); [|by apply Hgen].
  clear Hl. induction Hg as [|c g Hc _ IH]; intros i Hi.
  - destruct r as [|c r]; [done|]. cbn [skip_digits app]. cbn [char_at] in Hr. rewrite Hr.
    by destruct (i =? 0).
  - rewrite zlen_cons in Hi. pose proof (zlen_nonneg g). cbn [app skip_digits].
    rewrite (proj2 (Z.eqb_neq i 0)) by lia. rewrite Hc. cbn [andb negb]. apply IH. lia.
Qed.

Lemma ip_groups_dotted n v : Forall (λ c, c ≠ 0) v → ip_groups (S n) v = 0 ↔ dotted (S n) v.
Proof.
  revert v. induction n as [|n IH]; intros v Hz.
  all: split; [|intros Hd].
  - cbn [ip_groups]. unfold skip_num. cbn [andb].
    destruct (skip_digits_spec v 3) as (g & r & -> & -> & Hg & Hle & _); [lia|].
    rewrite zlen_app. destruct (Z.eqb_spec (zlen g + zlen r) (zlen r)); [done|].
    apply Forall_app in Hz as [_ Hz]. destruct r as [|c r]; cbn [char_at].
    + intros _. rewrite app_nil_r. pose proof (zlen_nonneg g). constructor; [done|lia].
    + inversion Hz; subst. by rewrite (proj2 (Z.eqb_neq c 0)).
  - inversion Hd as [g Hg Hl|? ? ? ? ? Hd']; subst; [|inversion Hd'].
    cbn [ip_groups]. rewrite <- (app_nil_r v), skip_group by (done || lia). rewrite app_nil_r, zlen_nil.
    by rewrite (proj2 (Z.eqb_neq _ _)) by lia.
  - cbn [ip_groups]. unfold skip_num at 1 2. cbn [andb].
    destruct (skip_digits_spec v 3) as (g & r & -> & Hs & Hg & Hle & _); [lia|].
    fold (skip_num false (g ++ r) 3). unfold skip_num. cbn [andb]. rewrite Hs.
    rewrite zlen_app. destruct (Z.eqb_spec (zlen g + zlen r) (zlen r)); [done|].
    apply Forall_app in Hz as [_ Hz]. destruct r as [|c r]; cbn [char_at drop]; [done|].
    destruct (Z.eqb_spec c 46) as [->|]; [|done]. inversion Hz; subst. rewrite drop_0. intros Hi.
    pose proof (zlen_nonneg g). apply dotted_more; [done|lia|]. by apply IH.
  - inversion Hd as [|? g v' Hg Hl Hd']; subst. cbn [ip_groups]. rewrite skip_group by (done || lia).
    rewrite zlen_app, zlen_cons, (proj2 (Z.eqb_neq _ _)) by (pose proof (zlen_nonneg v'); lia).
    cbn [char_at Z.eqb Pos.eqb drop]. rewrite drop_0. apply IH; [|done].
    apply Forall_app in Hz as [_ Hz]. by inversion Hz.
Qed.

(** ** Read-only variables *)

(** The variable [key] is in the table with these flags. *)
Definition has_flags (t : hsearch_data) (key : bytes) (fl : Z) : Prop :=
  ∃ i s, slot_at t i = Ret s ∧ 0 < used s ∧ e_key (entry s) = Str key ∧ e_flags (entry s) = fl.

Section Protect.
Context {W : Type} {HW : Heap W} {EW : EnvWorld W}.

Lemma matches_flags t l key fl i s : table t = Some l →
  cells_ok (cell <$> l) (size t) (filled t) → has_flags t key fl →
  l !! Z.to_nat i = Some s → used s = first_hash (size t) key → e_key (entry s) = Str key →
  e_flags (entry s) = fl.
Proof.
  intros Hl Hok (j & s' & Hj & Hu' & Hk' & <-) Hs Hu Hk.
  apply slot_at_Ret in Hj as (l' & Hl' & _ & Hj). rewrite Hl in Hl'. injection Hl' as <-.
  assert (Hh := first_hash_range (size t) (c_size _ _ _ Hok) key).
  assert (Z.to_nat i = Z.to_nat j) as Heq.
  { eapply (c_unique _ _ _ Hok); rewrite ?list_lookup_fmap, ?Hs, ?Hj; cbn; unfold cell;
      rewrite ?Hk, ?Hk'; [reflexivity|reflexivity|lia|lia]. }
  rewrite Heq, Hj in Hs. by injection Hs as <-.
Qed.

(** A change that the flags forbid is refused. *)
Lemma validate_refuses e key v op flag w : e_key e = Str key → Z.land flag H_FORCE = 0 →
  match op with
  | env_op_overwrite => Z.land (e_flags e) ENV_FLAGS_VARACCESS_PREVENT_OVERWR ≠ 0
  | env_op_delete => Z.land (e_flags e) ENV_FLAGS_VARACCESS_PREVENT_DELETE ≠ 0
  | env_op_create => Z.land (e_flags e) ENV_FLAGS_VARACCESS_PREVENT_CREATE ≠ 0
  end →
  v ≠ Freed →
  ∃ r, env_flags_validate e v op flag w = Ret (r, w) ∧ r ≠ 0.
Proof.
  intros Hk Hf Hp Hv. unfold env_flags_validate.
  erewrite comp_bind_run by (apply lift_run; by rewrite Hk). cbn beta.
  assert (∃ nv, (match v with Null => Ret [] | p => deref p end) = Ret nv) as [nv Hnv]
    by (destruct v; cbn; [eauto|done|eauto]).
  erewrite comp_bind_run by (apply lift_run; exact Hnv). cbn beta. rewrite Hf. cbn [Z.eqb negb].
  destruct (match op with env_op_delete => false | _ => _ end); [by exists (-1)|].
  destruct op; rewrite (proj2 (Z.eqb_neq _ _) Hp); by exists 1.
Qed.

Lemma has_flags_live t key fl : tab_ok t → has_flags t key fl → is_Some (to_map t !! key).
Proof.
  intros Ht (j & s & Hj & Hu & Hk & _). destruct Ht as (l & Hl & Hok).
  apply slot_at_Ret in Hj as (l' & Hl' & _ & Hj). rewrite Hl in Hl'. injection Hl' as <-.
  assert (Hc : (cell <$> l) !! Z.to_nat j = Some (used s, Str key, e_data (entry s)))
    by (rewrite list_lookup_fmap, Hj; cbn; unfold cell; by rewrite Hk).
  destruct (live_cell _ _ _ Hok _ _ _ _ Hc Hu) as (k & v & Hk' & Hv & _). injection Hk' as <-.
  exists v. apply to_map_lookup; [by exists l|]. apply (variables_here t l Hl).
  exists (Z.to_nat j), (used s). by rewrite Hc, Hv.
Qed.

Lemma readonly_enter t key fl v flag w : tab_ok t → has_flags t key fl →
  Z.land fl ENV_FLAGS_VARACCESS_PREVENT_OVERWR ≠ 0 → Z.land flag H_FORCE = 0 →
  hsearch_r key (Some v) ENTER t flag w = Ret (Hret 0 None EPERM, t, w).
Proof.
  intros Ht Hfl Ho Hf. destruct (has_flags_live t key fl Ht Hfl) as [v0 Hv0]. destruct Ht as (l & Hl & Hok).
  destruct (hsearch_cases t l Hl Hok key (Some v) ENTER flag w)
    as [(i & Hi & (s & Hs & Hu & Hk) & ->)|(Hno & _)].
  - assert (Hfs := matches_flags t l key fl i s Hl Hok Hfl Hs Hu Hk).
    unfold compare_and_overwrite_entry.
    assert (Hsl := slot_at_lookup t l i s Hl ltac:(lia) Hs).
    assert (Hh := first_hash_range (size t) (c_size _ _ _ Hok) key). assert (Hsz := c_size _ _ _ Hok).
    erewrite comp_bind_run by (apply lift_run; exact Hsl). cbn beta.
    rewrite Hu, u32_small, Z.eqb_refl by (split; lia). cbn [negb].
    erewrite comp_bind_run by (apply lift_run; by rewrite Hk). cbn beta.
    rewrite bool_decide_eq_true_2 by done. cbn [negb].
    destruct (validate_refuses (entry s) key (Str v) env_op_overwrite flag w Hk Hf) as (r & Hr & Hne);
      [by rewrite Hfs|done|].
    erewrite comp_bind_run by exact Hr. cbn beta. by rewrite (proj2 (Z.eqb_neq r 0) Hne).
  - destruct (no_match_None t l Hl Hok key Hno) as [Hnone _]. congruence.
Qed.

Lemma readonly_delete t key fl flag w : tab_ok t → has_flags t key fl →
  Z.land fl ENV_FLAGS_VARACCESS_PREVENT_DELETE ≠ 0 → Z.land flag H_FORCE = 0 →
  hdelete_r key t flag w = Ret (0, EPERM, t, w).
Proof.
  intros Ht Hfl Hd Hf. destruct (has_flags_live t key fl Ht Hfl) as [v0 Hv0].
  unfold hdelete_r. destruct (hfind_spec t key None 0 w Ht) as (r & Hr & Hres).
  erewrite comp_bind_run by exact Hr. cbn beta iota. rewrite Hv0 in Hres.
  destruct Hres as (Hi & _ & _ & s & Hs & Hc). rewrite (proj2 (Z.eqb_neq (h_ret r) 0)) by lia.
  erewrite comp_bind_run by (apply lift_run; exact Hs). cbn beta.
  destruct Ht as (l & Hl & Hok). apply slot_at_Ret in Hs as (l' & Hl' & _ & Hs).
  rewrite Hl in Hl'. injection Hl' as <-. unfold cell in Hc. injection Hc as Hu Hk Hv.
  assert (Hfs := matches_flags t l key fl _ s Hl Hok Hfl Hs Hu Hk).
  destruct (validate_refuses (entry s) key Null env_op_delete flag w Hk Hf) as (rr & Hrr & Hne);
    [by rewrite Hfs|done|].
  erewrite comp_bind_run by exact Hrr. cbn beta. by rewrite (proj2 (Z.eqb_neq rr 0) Hne).
Qed.
End Protect.
