(* ===== verification/EnvText.v ===== *)
(** * Linear form of the environment (lib/hashtable.c, lib/qsort.c)

    [hexport_r] writes the table as a sorted list of [name=value] entries,
    [himport_r] parses such a list into the table; both are used for the image
    in storage (separator zero) and for text.  Strings are byte lists without
    their terminator, a buffer is a byte list of the length of the allocation. *)

From S2P Require Import Prelude HashTable Bootm EnvFlags.

(** ** Sorting (lib/qsort.c) *)

Section Qsort.
Context {A : Type} (compar : A → A → Z).

(** The innermost loop, in elements instead of bytes: the element at [j] is
    swapped down in steps of [gap]. *)
Fixpoint sift (fuel gap j : nat) (base : list A) : run (list A) :=
  match fuel with
  | O => Crash NoFuel
  | S fuel =>
      let j := (j - gap)%nat in
      match base !! j, base !! (j + gap)%nat with
      | Some a, Some b =>
          if compar a b <=? 0 then Ret base
          else
            let base := <[j := b]> (<[(j + gap)%nat := a]> base) in
            if (gap <=? j)%nat then sift fuel gap j base else Ret base
      | _, _ => Crash OutOfBounds
      end
  end.

Fixpoint sort_pass (fuel gap i nel : nat) (base : list A) : run (list A) :=
  match fuel with
  | O => Crash NoFuel
  | S fuel =>
      base ← sift (S i) gap i base;
      if (S i <? nel)%nat then sort_pass fuel gap (S i) nel base else Ret base
  end.

Fixpoint sort_gaps (fuel gap nel : nat) (base : list A) : run (list A) :=
  match fuel with
  | O => Crash NoFuel
  | S fuel =>
      base ← sort_pass nel gap gap nel base;
      let gap := Nat.div (gap - 1) 3 in
      if (gap =? 0)%nat then Ret base else sort_gaps fuel gap nel base
  end.

Fixpoint first_gap (fuel gap nel : nat) : run nat :=
  match fuel with
  | O => Crash NoFuel
  | S fuel =>
      let gap := (3 * gap + 1)%nat in
      if (gap <? Nat.div (nel - 1) 3)%nat then first_gap fuel gap nel else Ret gap
  end.

Definition qsort (base : list A) : run (list A) :=
  let nel := length base in
  if (1 <? nel)%nat then
    gap ← first_gap nel 0 nel;
    sort_gaps nel gap nel base
  else Ret base.
End Qsort.

(** ** Comparing strings (lib/string.c): the difference of two characters is
    kept in a signed character. *)

Definition s8 (x : Z) : Z := let y := u8 x in if y <? 128 then y else y - 256.

Fixpoint strcmp (cs ct : bytes) : Z :=
  match cs, ct with
  | [], [] => 0
  | [], d :: _ => s8 (- d)
  | c :: _, [] => s8 c
  | c :: cs, d :: ct => let res := s8 (c - d) in if res =? 0 then strcmp cs ct else res
  end.

(** ** Export *)

Definition match_string (flag : Z) (s pat : bytes) : bool :=
  let method := Z.land flag H_MATCH_METHOD in
  if method =? H_MATCH_IDENT then strcmp s pat =? 0
  else if method =? H_MATCH_SUBSTR then match strstr s pat with Some _ => true | None => false end
  else false.

(** [match_entry]: key and data are read as far as the flags ask for them. *)
Fixpoint match_entry (e : ENTRY) (flag : Z) (argv : list bytes) : run bool :=
  match argv with
  | [] => Ret false
  | arg :: argv =>
      key ← (if Z.land flag H_MATCH_KEY =? 0 then Ret false
             else k ← deref (e_key e); Ret (match_string flag k arg));
      if (key : bool) then Ret true
      else
        data ← (if Z.land flag H_MATCH_DATA =? 0 then Ret false
                else v ← deref (e_data e); Ret (match_string flag v arg));
        if (data : bool) then Ret true else match_entry e flag argv
  end.

(** Which entries pass 1 takes. *)
Definition selected (flag : Z) (argv : list bytes) (e : ENTRY) : run bool :=
  found ← match_entry e flag argv;
  if (0 <? zlen argv) && negb found then Ret false
  else if Z.land flag H_HIDE_DOT =? 0 then Ret true
  else k ← deref (e_key e); Ret (negb (char_at k =? 46)).

(** The characters of a value that are written with a backslash. *)
Definition needs_escape (sep c : Z) : bool := (c =? sep) || (c =? 92).

Definition value_length (sep : Z) (v : bytes) : Z :=
  if sep =? 0 then zlen v
  else foldr (fun c n => n + (if needs_escape sep c then 2 else 1)) 0 v.

(** Pass 1 over the slots from [i] on: the entries and the length they need. *)
Fixpoint export_loop (fuel : nat) (i : Z) (htab : hsearch_data) (sep flag : Z)
    (argv : list bytes) : run (list (bytes * bytes) * Z) :=
  match fuel with
  | O => Ret ([], 0)
  | S fuel =>
      s ← slot_at htab i;
      if used s >? 0 then
        take ← selected flag argv (entry s);
        if (take : bool) then
          k ← deref (e_key (entry s));
          v ← deref (e_data (entry s));
          '(l, totlen) ← export_loop fuel (i + 1) htab sep flag argv;
          Ret ((k, v) :: l, zlen k + 2 + value_length sep v + 2 + totlen)
        else export_loop fuel (i + 1) htab sep flag argv
      else export_loop fuel (i + 1) htab sep flag argv
  end.

Definition cmpkey (e1 e2 : bytes * bytes) : Z := strcmp e1.1 e2.1.

Fixpoint escape (sep : Z) (v : bytes) : bytes :=
  match v with
  | [] => []
  | c :: v => if needs_escape sep c then 92 :: c :: escape sep v else c :: escape sep v
  end.

Definition entry_text (sep : Z) (e : bytes * bytes) : bytes :=
  e.1 ++ [61] ++ escape sep e.2 ++ [sep].

Definition export_text (sep : Z) (l : list (bytes * bytes)) : bytes := concat (entry_text sep <$> l).

Section Text.
Context {W : Type} {HW : Heap W}.

(** [hexport_r]: the length or -1, and the buffer. *)
Definition hexport_r (htab : hsearch_data) (sep flag : Z) (resp : option bytes) (size_ : Z)
    (argv : list bytes) : comp W (Z * option bytes) :=
  '(list, totlen) ← lift (export_loop (Z.to_nat (size htab)) 1 htab sep flag argv);
  list ← lift (qsort cmpkey list);
  if negb (size_ =? 0) && (size_ <? totlen + 1) then mret (-1, resp)
  else
    let size_ := if size_ =? 0 then totlen + 1 else size_ in
    res ← (match resp with
           | Some res =>
               res ← lift (wr res 0 (replicate (Z.to_nat size_) 0)); mret (Some res)
           | None =>
               ok ← malloc size_;
               mret (if (ok : bool) then Some (replicate (Z.to_nat size_) 0) else None)
           end);
    match res with
    | None => mret (-1, None)
    | Some res =>
        res ← lift (wr res 0 (export_text sep list ++ [0]));
        mret (size_, Some res)
    end.

(** ** Import *)

Definition drop_var_from_set (name : bytes) (vars : list (option bytes))
    : bool * list (option bytes) :=
  match vars with
  | [] => (true, vars)
  | _ =>
      (existsb (fun v => bool_decide (v = Some name)) vars,
       (fun v => if bool_decide (v = Some name) then None else v) <$> vars)
  end.

(** The character [dp] points to; [dp] is the rest of the copied data. *)
Definition peek (dp : bytes) : run Z :=
  match dp with c :: _ => Ret c | [] => Crash OutOfBounds end.

Definition isblank (c : Z) : bool := (c =? 32) || (c =? 9).

Fixpoint skip_white (dp : bytes) : run bytes :=
  match dp with
  | [] => Crash OutOfBounds
  | c :: rest => if isblank c then skip_white rest else Ret dp
  end.

(** Up to a zero or the separator, and past it. *)
Fixpoint skip_comment (sep : Z) (dp : bytes) : run bytes :=
  match dp with
  | [] => Crash OutOfBounds
  | c :: rest => if (c =? 0) || (c =? sep) then Ret rest else skip_comment sep rest
  end.

(** The name, and the rest from the character that ends it. *)
Fixpoint parse_name (sep : Z) (dp : bytes) : run (bytes * bytes) :=
  match dp with
  | [] => Crash OutOfBounds
  | c :: rest =>
      if (c =? 61) || (c =? 0) || (c =? sep) then Ret ([], dp)
      else '(name, dp) ← parse_name sep rest; Ret (c :: name, dp)
  end.

(** The value with its escapes removed, and the rest past its end. *)
Fixpoint parse_value (sep : Z) (dp : bytes) : run (bytes * bytes) :=
  match dp with
  | [] => Crash OutOfBounds
  | c :: rest =>
      if (c =? 0) || (c =? sep) then Ret ([], rest)
      else if c =? 92 then
        match rest with
        | [] => Crash OutOfBounds
        | d :: rest' =>
            if d =? 0 then '(v, dp) ← parse_value sep rest; Ret (c :: v, dp)
            else '(v, dp) ← parse_value sep rest'; Ret (d :: v, dp)
        end
      else '(v, dp) ← parse_value sep rest; Ret (c :: v, dp)
  end.

(** What one round of the parser reads. *)
Inductive item :=
  | Comment
  | DeleteVar (name : bytes)
  | SetVar (name value : bytes)
  | EmptyKey.

Definition parse_item (sep : Z) (dp : bytes) : run (item * bytes) :=
  dp ← skip_white dp;
  c ← peek dp;
  if c =? 35 then dp ← skip_comment sep dp; Ret (Comment, dp)
  else
    '(name, dp) ← parse_name sep dp;
    c0 ← peek dp;
    delete ← (if c0 =? 0 then Ret true
              else
                c1 ← peek (drop 1 dp);
                Ret ((c1 =? 0) || (c0 =? sep) || (c1 =? sep)));
    if (delete : bool)
    then Ret (DeleteVar name, if c0 =? 61 then drop 2 dp else drop 1 dp)
    else
      '(value, dp) ← parse_value sep (drop 1 dp);
      Ret (if bool_decide (name = []) then EmptyKey else SetVar name value, dp).

(** Removes the carriage returns before line feeds, up to a zero. *)
Fixpoint strip_cr (s : bytes) : bytes :=
  match s with
  | [] => []
  | c :: rest =>
      if c =? 0 then []
      else if (c =? 13) && (char_at rest =? 10) then strip_cr rest
      else c :: strip_cr rest
  end.

Definition CONFIG_ENV_MIN_ENTRIES := 64.
Definition CONFIG_ENV_MAX_ENTRIES := 512.

Context {HH : EnvHooks W}.

(** The parser loop, with [slack] bytes of the copy beyond [size]. *)
Fixpoint import_loop (fuel : nat) (htab : hsearch_data) (dp : bytes) (slack sep flag : Z)
    (vars : list (option bytes)) : comp W (option (list (option bytes)) * hsearch_data) :=
  match fuel with
  | O => fun _ => Crash NoFuel
  | S fuel =>
      '(i, dp) ← lift (parse_item sep dp);
      let next vars htab :=
        (if zlen dp <=? slack then mret (Some vars, htab)
         else
           c ← lift (peek dp);
           if c =? 0 then mret (Some vars, htab)
           else import_loop fuel htab dp slack sep flag vars) in
      match i with
      | Comment => next vars htab
      | EmptyKey => mret (None, htab)
      | DeleteVar name =>
          let '(listed, vars) := drop_var_from_set name vars in
          if negb listed then next vars htab
          else
            '(_, _, htab) ← hdelete_r name htab flag;
            next vars htab
      | SetVar name value =>
          let '(listed, vars) := drop_var_from_set name vars in
          if negb listed then next vars htab
          else
            '(_, htab) ← hsearch_r name (Some value) ENTER htab flag;
            next vars htab
      end
  end.

(** The variables asked for that the data did not have are deleted. *)
Fixpoint delete_rest (vars : list (option bytes)) (htab : hsearch_data) (flag : Z)
    : comp W hsearch_data :=
  match vars with
  | [] => mret htab
  | None :: vars => delete_rest vars htab flag
  | Some v :: vars =>
      '(_, _, htab) ← hdelete_r v htab flag;
      delete_rest vars htab flag
  end.

Definition himport_r (htab : hsearch_data) (env : bytes) (size_ sep flag : Z) (crlf_is_lf : bool)
    (vars : list bytes) : comp W (Z * hsearch_data) :=
  ok ← malloc size_;
  if negb (ok : bool) then mret (0, htab)
  else
    data ← lift (rd env 0 size_);
    htab ← lift (if Z.land flag H_NOCLEAR =? 0
                 then match table htab with Some _ => hdestroy_r htab | None => Ret htab end
                 else Ret htab);
    '(created, htab) ←
      (match table htab with
       | Some _ => mret (1, htab)
       | None =>
           let nent := s32 (CONFIG_ENV_MIN_ENTRIES + size_ / 8) in
           let nent := if nent >? CONFIG_ENV_MAX_ENTRIES then CONFIG_ENV_MAX_ENTRIES else nent in
           hcreate_r nent htab
       end);
    if created =? 0 then mret (0, htab)
    else if size_ =? 0 then mret (1, htab)
    else
      let '(data, slack) :=
        if crlf_is_lf
        then
          let text := take_while (fun c => negb (c =? 0)) data in
          let kept := strip_cr data in
          (kept ++ drop (length kept) data, zlen text - zlen kept)
        else (data, 0) in
      '(rest, htab) ← import_loop (S (length data)) htab data slack sep flag (Some <$> vars);
      match rest with
      | None => mret (0, htab)
      | Some rest =>
          htab ← delete_rest rest htab flag;
          mret (1, htab)
      end.
End Text.
