(* ===== verification/EnvTextSpec.v ===== *)
(** * What export and import of the environment do

    The shell sort of lib/qsort.c sorts; the exported text is determined by the
    variables; parsing it gives them back; and a table that is exported and
    imported again holds the same variables. *)

From Stdlib Require Import Sorted.
From S2P Require Import Prelude HashTable HashSpec Bootm EnvFlags EnvFlagsSpec EnvText.

(** ** Sorting *)

Section Sort.
Context {A : Type} (compar : A → A → Z).

Lemma swap_perm (l : list A) i k a b : (i < k)%nat → l !! i = Some a → l !! k = Some b →
  <[i := b]> (<[k := a]> l) ≡ₚ l.
Proof.
  intros Hik Ha Hb. assert (Hk := lookup_lt_Some _ _ _ Hb).
  apply list_elem_of_split_length in Ha as (l1 & l2 & -> & ->).
  rewrite lookup_app_r in Hb by lia. destruct (k - length l1)%nat as [|k'] eqn:Ek; [lia|].
  change (l2 !! k' = Some b) in Hb.
  apply list_elem_of_split_length in Hb as (l3 & l4 & -> & ->).
  rewrite insert_app_r_alt by lia. rewrite Ek. change (<[S (length l3) := a]> (a :: ?l)) with (a :: <[length l3 := a]> l).
  rewrite insert_app_r_alt by lia. rewrite Nat.sub_diag.
  rewrite insert_app_r_alt by lia. rewrite Nat.sub_diag. cbn.
  apply Permutation_app_head. rewrite !(Permutation_app_comm l3). cbn. constructor.
Qed.

Lemma sift_perm fuel gap j l r : (0 < gap)%nat → (gap ≤ j)%nat → sift compar fuel gap j l = Ret r → r ≡ₚ l.
Proof.
  intros Hg. revert j l. induction fuel as [|fuel IH]; intros j l Hj; cbn [sift]; [done|].
  destruct (l !! (j - gap)%nat) as [a|] eqn:Ha; [|done].
  destruct (l !! (j - gap + gap)%nat) as [b|] eqn:Hb; [|done].
  destruct (compar a b <=? 0); [by intros [= <-]|].
  assert (Hp := swap_perm l (j - gap) (j - gap + gap) a b ltac:(lia) Ha Hb).
  destruct (gap <=? j - gap)%nat eqn:E; [|by intros [= <-]].
  intros Hr. apply IH in Hr; [by etrans|]. by apply Nat.leb_le in E.
Qed.

Lemma sift_total fuel gap j l : (0 < gap)%nat → (gap ≤ j < length l)%nat → (j < fuel)%nat →
  ∃ r, sift compar fuel gap j l = Ret r.
Proof.
  intros Hg. revert j l. induction fuel as [|fuel IH]; intros j l Hj Hf; [lia|]. cbn [sift].
  destruct (lookup_lt_is_Some_2 l (j - gap)) as [a Ha]; [lia|].
  destruct (lookup_lt_is_Some_2 l (j - gap + gap)) as [b Hb]; [lia|]. rewrite Ha, Hb.
  destruct (compar a b <=? 0); [eauto|].
  destruct (gap <=? j - gap)%nat eqn:E; [|eauto]. apply Nat.leb_le in E.
  apply IH; [rewrite !length_insert; lia|lia].
Qed.

Lemma sort_pass_ok fuel gap i nel l : (0 < gap)%nat → (gap ≤ i < nel)%nat → length l = nel →
  (nel ≤ fuel + i)%nat → ∃ r, sort_pass compar fuel gap i nel l = Ret r ∧ r ≡ₚ l.
Proof.
  intros Hg. revert i l. induction fuel as [|fuel IH]; intros i l Hi Hl Hf; [lia|]. cbn [sort_pass].
  destruct (sift_total (S i) gap i l) as [r Hr]; [done|lia|lia|]. rewrite Hr. cbn [mbind run_bind].
  apply sift_perm in Hr as Hp; [|done|lia].
  destruct (S i <? nel)%nat eqn:E; [|eauto]. apply Nat.ltb_lt in E.
  destruct (IH (S i) r) as (r' & -> & Hp'); [lia|by rewrite Hp|lia|].
  exists r'. split; [done|by etrans].
Qed.

(** The gaps: 1, 4, 13, ... *)
Inductive is_gap : nat → Prop :=
  | gap_1 : is_gap 1
  | gap_S g : is_gap g → is_gap (3 * g + 1).

Lemma first_gap_ok fuel g nel : (2 ≤ nel)%nat → (g = 0%nat ∨ is_gap g) → (g < nel)%nat →
  (nel ≤ fuel + g)%nat → (g = 0%nat ∨ g < Nat.div (nel - 1) 3)%nat →
  ∃ r, first_gap fuel g nel = Ret r ∧ is_gap r ∧ (r < nel)%nat.
Proof.
  intros Hn. revert g. induction fuel as [|fuel IH]; intros g Hg Hlt Hf Hprev; [lia|]. cbn [first_gap].
  assert (Hgap : is_gap (3 * g + 1)) by (destruct Hg as [->|]; [constructor|by apply gap_S]).
  assert (Hb : (3 * g + 1 < nel)%nat).
  { destruct Hprev as [->|Hp]; [lia|]. assert (3 * Nat.div (nel - 1) 3 ≤ nel - 1)%nat by (apply Nat.Div0.mul_div_le). lia. }
  destruct (3 * g + 1 <? Nat.div (nel - 1) 3)%nat eqn:E; [|eauto]. apply Nat.ltb_lt in E.
  apply IH; [by right|done|lia|by right].
Qed.

(** *** The last pass is an insertion sort *)

Context (P : A → Prop).
Context (le_total : ∀ a b, P a → P b → 0 < compar a b → compar b a ≤ 0).
Context (le_trans : ∀ a b c, P a → P b → P c → compar a b ≤ 0 → compar b c ≤ 0 → compar a c ≤ 0).

Let R a b := compar a b ≤ 0.

Lemma sorted_snoc l a : StronglySorted R l → Forall (λ b, R b a) l → StronglySorted R (l ++ [a]).
Proof.
  induction 1 as [|b l Hs IH Hb]; intros Hf; cbn; [repeat constructor|].
  inversion Hf; subst. constructor; [by apply IH|]. apply Forall_app. split; [done|by constructor].
Qed.

Lemma sorted_app_inv l k : StronglySorted R (l ++ k) → StronglySorted R l ∧
  Forall (λ a, Forall (R a) k) l.
Proof.
  induction l as [|a l IH]; cbn; intros Hs; [split; constructor|].
  inversion Hs as [|? ? Hs' Hf]; subst. destruct (IH Hs') as [H1 H2]. apply Forall_app in Hf as [Hf1 Hf2].
  split; constructor; done.
Qed.

(** The element after a sorted part is moved to its place. *)
Lemma sift_inserts pre x post fuel : pre ≠ [] → Forall P pre → P x → StronglySorted R pre →
  (length pre < fuel)%nat →
  ∃ r, sift compar fuel 1 (length pre) (pre ++ x :: post) = Ret (r ++ post) ∧
    StronglySorted R r ∧ r ≡ₚ pre ++ [x].
Proof.
  revert x post fuel. induction pre as [|a p IH] using rev_ind; intros x post fuel Hne HP Hx Hs Hf; [done|].
  apply Forall_app in HP as [HPp HPa]. rewrite Forall_singleton in HPa.
  destruct fuel as [|fuel]; [lia|]. cbn [sift]. rewrite length_app in Hf |- *. cbn [length] in *.
  replace (length p + 1 - 1)%nat with (length p) by lia.
  rewrite <- app_assoc. cbn [app]. rewrite (lookup_app_r p) by lia. rewrite Nat.sub_diag. cbn [lookup list_lookup].
  rewrite (lookup_app_r p) by lia. replace (length p + 1 - length p)%nat with 1%nat by lia.
  cbn [lookup list_lookup]. destruct (sorted_app_inv p [a] Hs) as [Hsp Hfa].
  destruct (Z.leb_spec (compar a x) 0) as [Hle|Hgt].
  - exists (p ++ [a; x]). split_and!; [by rewrite <- app_assoc| |by rewrite <- app_assoc].
    change [a; x] with ([a] ++ [x]). rewrite app_assoc. apply sorted_snoc; [done|].
    apply Forall_app. split; [|by constructor].
    rewrite Forall_forall in Hfa, HPp |- *. intros b Hb. specialize (Hfa b Hb). inversion Hfa; subst.
    apply (le_trans b a x); [by apply HPp|done|done|done|done].
  - assert (Hxa : R x a) by (apply le_total; auto; lia).
    assert (Hsw : <[length p := x]> (<[(length p + 1)%nat := a]> (p ++ a :: x :: post)) = p ++ x :: a :: post).
    { rewrite insert_app_r_alt by lia. replace (length p + 1 - length p)%nat with 1%nat by lia. cbn.
      rewrite insert_app_r_alt by lia. by rewrite Nat.sub_diag. }
    rewrite Hsw. destruct p as [|b p'] eqn:Ep.
    + cbn. exists [x; a]. split_and!; [done|repeat constructor; done|constructor].
    + rewrite <- Ep in *. assert (Hp : p ≠ []) by (by rewrite Ep).
      destruct (1 <=? length p)%nat eqn:E; [|apply Nat.leb_gt in E; rewrite Ep in E; cbn in E; lia].
      destruct (IH x (a :: post) fuel Hp HPp Hx Hsp ltac:(lia)) as (r & Hr & Hsr & Hpr). rewrite Hr.
      exists (r ++ [a]). split_and!; [by rewrite <- app_assoc| |].
      * apply sorted_snoc; [done|]. rewrite Forall_forall. intros b' Hb'. rewrite Hpr in Hb'.
        apply elem_of_app in Hb' as [Hb'|Hb']; [|apply list_elem_of_singleton in Hb' as ->; done].
        rewrite Forall_forall in Hfa. specialize (Hfa b' Hb'). by inversion Hfa.
      * rewrite Hpr, <- !app_assoc. apply Permutation_app_head. cbn. constructor.
Qed.

Lemma last_pass_sorts fuel i nel l : Forall P l → (1 ≤ i < nel)%nat → length l = nel → (nel ≤ fuel + i)%nat →
  StronglySorted R (take i l) →
  ∃ r, sort_pass compar fuel 1 i nel l = Ret r ∧ StronglySorted R r ∧ r ≡ₚ l.
Proof.
  revert i l. induction fuel as [|fuel IH]; intros i l HP Hi Hl Hf Hs; [lia|]. cbn [sort_pass].
  destruct (lookup_lt_is_Some_2 l i) as [x Hx]; [lia|].
  assert (Hlen : length (take i l) = i) by (rewrite length_take; lia).
  destruct (sift_inserts (take i l) x (drop (S i) l) (S i)) as (r & Hr & Hsr & Hpr).
  { intros E. by rewrite E in Hlen; cbn in Hlen; lia. }
  { by apply Forall_take. } { by eapply Forall_lookup_1. } { done. } { lia. }
  rewrite Hlen, take_drop_middle in Hr by done. rewrite Hr. cbn [mbind run_bind].
  assert (Hlr : length r = S i) by (rewrite Hpr, length_app, Hlen; cbn; lia).
  assert (Hp : r ++ drop (S i) l ≡ₚ l).
  { rewrite Hpr, <- app_assoc. cbn. by rewrite take_drop_middle. }
  destruct (S i <? nel)%nat eqn:E.
  - apply Nat.ltb_lt in E. destruct (IH (S i) (r ++ drop (S i) l)) as (r' & -> & Hs' & Hp').
    + by rewrite Hp. + lia. + by rewrite Hp. + lia. + by rewrite take_app_length' by done.
    + exists r'. split_and!; [done|done|by etrans].
  - apply Nat.ltb_ge in E. rewrite drop_ge, app_nil_r in Hp |- * by lia. exists r. done.
Qed.

Lemma sort_gaps_sorts fuel gap nel l : is_gap gap → Forall P l → (gap < nel)%nat → length l = nel → (gap ≤ fuel)%nat →
  ∃ r, sort_gaps compar fuel gap nel l = Ret r ∧ StronglySorted R r ∧ r ≡ₚ l.
Proof.
  intros Hg. revert gap Hg l. induction fuel as [|fuel IH]; intros gap Hg l HP Hlt Hl Hf.
  { destruct Hg; lia. }
  cbn [sort_gaps]. destruct Hg as [|g Hg].
  - destruct (last_pass_sorts nel 1 nel l) as (r & Hr & Hs & Hp); [done|lia|done|lia| |].
    { destruct l as [|a l]; [constructor|]. cbn. repeat constructor. }
    rewrite Hr. cbn. eauto.
  - destruct (sort_pass_ok nel (3 * g + 1) (3 * g + 1) nel l) as (r & Hr & Hp); [lia|lia|done|lia|].
    rewrite Hr. cbn [mbind run_bind]. replace (3 * g + 1 - 1)%nat with (g * 3)%nat by lia.
    rewrite Nat.div_mul by lia. assert (0 < g)%nat by (destruct Hg; lia).
    rewrite (proj2 (Nat.eqb_neq g 0)) by lia.
    destruct (IH g Hg r) as (r' & -> & Hs & Hp'); [by rewrite Hp|lia|by rewrite Hp|lia|].
    exists r'. split_and!; [done|done|by etrans].
Qed.

(** The sort terminates and sorts. *)
Lemma qsort_sorts l : Forall P l → ∃ r, qsort compar l = Ret r ∧ StronglySorted R r ∧ r ≡ₚ l.
Proof.
  intros HP. unfold qsort. destruct (1 <? length l)%nat eqn:E.
  - apply Nat.ltb_lt in E.
    destruct (first_gap_ok (length l) 0 (length l)) as (g & Hg & Hgap & Hlt); [lia|by left|lia|lia|by left|].
    rewrite Hg. cbn [mbind run_bind]. apply sort_gaps_sorts; [done|done|done|done|lia].
  - apply Nat.ltb_ge in E. exists l. split_and!; [done| |done].
    destruct l as [|a [|b l]]; cbn in E; [constructor|repeat constructor|lia].
Qed.
End Sort.

(** ** The order of the keys *)

Definition ascii (s : bytes) : Prop := Forall (λ c, 0 < c < 128) s.

Lemma s8_small x : -128 ≤ x < 128 → s8 x = x.
Proof.
  intros Hx. unfold s8, u8. destruct (decide (0 ≤ x)).
  - rewrite Z.mod_small by lia. by rewrite (proj2 (Z.ltb_lt x 128)) by lia.
  - replace (x mod 256) with (x + 256); [by rewrite (proj2 (Z.ltb_ge _ _)); lia|].
    rewrite <- (Z.mod_add x 1 256) by lia. rewrite Z.mod_small; lia.
Qed.

Lemma strcmp_cons c d cs ct : 0 < c < 128 → 0 < d < 128 →
  strcmp (c :: cs) (d :: ct) = if c =? d then strcmp cs ct else c - d.
Proof.
  intros Hc Hd. cbn [strcmp]. rewrite s8_small by lia.
  destruct (Z.eqb_spec c d), (Z.eqb_spec (c - d) 0); lia || done.
Qed.

Lemma strcmp_nil_l d ct : 0 < d < 128 → strcmp [] (d :: ct) = - d.
Proof. intros Hd. cbn. by rewrite s8_small by lia. Qed.

Lemma strcmp_nil_r c cs : 0 < c < 128 → strcmp (c :: cs) [] = c.
Proof. intros Hc. cbn. by rewrite s8_small by lia. Qed.

Lemma strcmp_antisym a b : ascii a → ascii b → strcmp b a = - strcmp a b.
Proof.
  intros Ha. revert b. induction Ha as [|c a Hc Ha IH]; intros b Hb; destruct Hb as [|d b Hd Hb].
  - done.
  - rewrite strcmp_nil_l, strcmp_nil_r by done. lia.
  - rewrite strcmp_nil_l, strcmp_nil_r by done. lia.
  - rewrite !strcmp_cons by done. rewrite (Z.eqb_sym d c). destruct (c =? d); [by apply IH|lia].
Qed.

Lemma strcmp_trans a b c : ascii a → ascii b → ascii c →
  strcmp a b ≤ 0 → strcmp b c ≤ 0 → strcmp a c ≤ 0.
Proof.
  intros Ha. revert b c. induction Ha as [|x a Hx Ha IH]; intros b c Hb Hc H1 H2.
  - destruct Hc as [|z c Hz Hc]; [done|]. rewrite strcmp_nil_l by done. lia.
  - destruct Hb as [|y b Hy Hb]; [rewrite strcmp_nil_r in H1 by done; lia|].
    destruct Hc as [|z c Hz Hc]; [rewrite strcmp_nil_r in H2 by done; lia|].
    rewrite strcmp_cons in H1, H2 |- * by done.
    destruct (Z.eqb_spec x y), (Z.eqb_spec y z), (Z.eqb_spec x z); try lia. by apply (IH b c).
Qed.

Lemma strcmp_0 a b : strcmp a b = 0 → Forall is_u8 a → Forall is_u8 b → Forall (λ c, c ≠ 0) a →
  Forall (λ c, c ≠ 0) b → a = b.
Proof.
  assert (H8 : ∀ x, -256 < x < 256 → s8 x = 0 → x = 0).
  { intros x Hx. unfold s8, u8. intros H0. assert (Hm : x mod 256 = 0) by (destruct (x mod 256 <? 128) eqn:E;
      [done|assert (0 ≤ x mod 256 < 256) by (apply Z.mod_pos_bound; lia); lia]).
    apply Z.mod_divide in Hm; [|lia]. destruct Hm as [q ->]. lia. }
  revert b. induction a as [|c a IH]; intros [|d b] Hs Ha Hb Ha0 Hb0; [done| | |].
  - inversion Hb; inversion Hb0; subst. cbn in Hs. apply H8 in Hs; [lia|unfold is_u8 in *; lia].
  - inversion Ha; inversion Ha0; subst. cbn in Hs. apply H8 in Hs; [lia|unfold is_u8 in *; lia].
  - inversion Ha; inversion Ha0; inversion Hb; inversion Hb0; subst. cbn [strcmp] in Hs.
    destruct (Z.eqb_spec (s8 (c - d)) 0) as [E|]; [|done].
    apply H8 in E; [|unfold is_u8 in *; lia]. f_equal; [lia|]. by apply IH.
Qed.

(** ** Export *)

Lemma cmpkey_total a b : ascii a.1 → ascii b.1 → 0 < cmpkey a b → cmpkey b a ≤ 0.
Proof. intros Ha Hb Hc. unfold cmpkey in *. rewrite (strcmp_antisym a.1 b.1) by done. lia. Qed.

Lemma cmpkey_trans a b c : ascii a.1 → ascii b.1 → ascii c.1 →
  cmpkey a b ≤ 0 → cmpkey b c ≤ 0 → cmpkey a c ≤ 0.
Proof. apply strcmp_trans. Qed.

Definition key_sorted (l : list (bytes * bytes)) : Prop := StronglySorted (λ a b, cmpkey a b ≤ 0) l.

(** The sort of the exported list terminates on every list of variables with
    ASCII names, and gives the same variables in the order of [strcmp]. *)
Theorem names_sorted l : Forall (λ e, ascii e.1) l →
  ∃ l', qsort cmpkey l = Ret l' ∧ key_sorted l' ∧ l' ≡ₚ l.
Proof. apply (qsort_sorts cmpkey (λ e, ascii e.1) cmpkey_total cmpkey_trans). Qed.

Lemma names_sorted_witness : let l := [(str "b", str "1"); (str "ab", str "2"); (str "a", str "3")] in
  ∃ l', qsort cmpkey l = Ret l' ∧ key_sorted l' ∧ l' ≡ₚ l.
Proof. intros l. apply (names_sorted l). unfold l. repeat constructor. Defined.

(** The room [hexport_r] computes for the variables. *)
Definition need (sep : Z) (l : list (bytes * bytes)) : Z :=
  foldr (fun e n => zlen e.1 + 2 + value_length sep e.2 + 2 + n) 0 l.

Lemma export_loop_spec t l sep fuel i : table t = Some l →
  cells_ok (cell <$> l) (size t) (filled t) → 1 ≤ i → i + Z.of_nat fuel = size t + 1 →
  export_loop fuel i t sep 0 [] =
    Ret (omap live (cell <$> drop (Z.to_nat i) l), need sep (omap live (cell <$> drop (Z.to_nat i) l))).
Proof.
  intros Hl Hok. assert (Hlen := c_length _ _ _ Hok). rewrite length_fmap in Hlen.
  revert i. induction fuel as [|fuel IH]; intros i Hi Hf; cbn [export_loop].
  { by rewrite drop_ge by lia. }
  destruct (slot_at_cell t l i Hl Hok) as (s & Hs & Hls); [lia|]. rewrite Hs. cbn [mbind run_bind].
  rewrite (drop_S l s (Z.to_nat i)) by done. replace (S (Z.to_nat i)) with (Z.to_nat (i + 1)) by lia.
  rewrite IH by lia. cbn [fmap list_fmap omap list_omap].
  destruct (Z.gtb_spec (used s) 0) as [Hu|Hu].
  - destruct (live_cell _ _ _ Hok (Z.to_nat i) (used s) (e_key (entry s)) (e_data (entry s)))
      as (k & v & Hk & Hv & _); [by rewrite list_lookup_fmap, Hls|lia|].
    assert (Hlv : live (cell s) = Some (k, v)).
    { apply live_Some. exists (used s). unfold cell. by rewrite Hk, Hv. }
    rewrite Hlv. cbn. rewrite Hk, Hv. cbn. done.
  - assert (Hlv : live (cell s) = None).
    { destruct (live (cell s)) as [[k v]|] eqn:E; [|done]. apply live_Some in E as (u & E & ?).
      unfold cell in E. injection E as E _ _. lia. }
    by rewrite Hlv.
Qed.

Lemma export_all t sep : tab_ok t →
  export_loop (Z.to_nat (size t)) 1 t sep 0 [] = Ret (variables t, need sep (variables t)).
Proof.
  intros (l & Hl & Hok). assert (Hsz := c_size _ _ _ Hok).
  rewrite (export_loop_spec t l) by (done || lia). unfold variables. rewrite Hl.
  assert (Hz := c_zero _ _ _ Hok). assert (Hlen := c_length _ _ _ Hok). rewrite length_fmap in Hlen.
  destruct l as [|s l]; [done|]. change (drop (Z.to_nat 1) (s :: l)) with l.
  cbn [fmap list_fmap omap list_omap].
  assert (Hlv : live (cell s) = None); [|by rewrite Hlv].
  destruct (live (cell s)) as [[k v]|] eqn:E; [|done]. apply live_Some in E as (u & E & ?).
  unfold used_at in Hz. change ((match Some (cell s) with Some (u, _, _) => u | None => 0 end) = 0) in Hz.
  rewrite E in Hz. lia.
Qed.

Lemma wr_zeros (buf : bytes) n : n = zlen buf → wr buf 0 (replicate (Z.to_nat n) 0) = Ret (replicate (length buf) 0).
Proof.
  intros ->. rewrite <- (app_nil_r buf) at 1. rewrite wr_app_0.
  - unfold zlen. by rewrite app_nil_r, Nat2Z.id.
  - rewrite zlen_replicate. unfold zlen. lia.
Qed.

Lemma wr_prefix_zeros n s : zlen s ≤ Z.of_nat n →
  wr (replicate n 0) 0 s = Ret (s ++ replicate (n - length s) 0).
Proof.
  intros Hs. replace n with (length s + (n - length s))%nat at 1 by (unfold zlen in Hs; lia).
  rewrite replicate_add, wr_app_0; [done|]. rewrite zlen_replicate. done.
Qed.

Lemma wr_too_long (buf s : bytes) : zlen buf < zlen s → wr buf 0 s = Crash OutOfBounds.
Proof. intros Hs. unfold wr. rewrite (proj2 (Z.leb_gt (0 + zlen s) (zlen buf))) by lia. done. Qed.

Section Exporting.
Context {W : Type} {HW : Heap W}.

(** The export of a well-formed table into a buffer of the given size: the
    variables in the order of their names, and zeros after them.  The size is
    checked against [need], and the text is written whatever it needs. *)
Lemma hexport_spec t sep buf w : tab_ok t → Forall (λ e, ascii e.1) (variables t) → 0 < zlen buf →
  ∃ l, l ≡ₚ variables t ∧ key_sorted l ∧
    hexport_r t sep 0 (Some buf) (zlen buf) [] w =
    if zlen buf <? need sep (variables t) + 1 then Ret (-1, Some buf, w)
    else if zlen (export_text sep l) + 1 <=? zlen buf
    then Ret (zlen buf, Some (export_text sep l ++ replicate (length buf - length (export_text sep l)) 0), w)
    else Crash OutOfBounds.
Proof.
  intros Ht Hasc Hb.
  destruct (qsort_sorts cmpkey (λ e, ascii e.1) cmpkey_total cmpkey_trans (variables t) Hasc)
    as (l & Hq & Hs & Hp).
  exists l. split_and!; [done|done|]. unfold hexport_r.
  erewrite comp_bind_run by (apply lift_run; by apply export_all). cbn beta iota.
  erewrite comp_bind_run by (apply lift_run; exact Hq). cbn beta.
  rewrite (proj2 (Z.eqb_neq (zlen buf) 0)) by lia. cbn [negb andb].
  destruct (zlen buf <? need sep (variables t) + 1); [done|].
  erewrite comp_bind_run by (erewrite comp_bind_run by (apply lift_run; by apply wr_zeros); reflexivity).
  cbn beta iota. destruct (Z.leb_spec (zlen (export_text sep l) + 1) (zlen buf)) as [Hf|Hf].
  - erewrite comp_bind_run; [|apply lift_run, wr_prefix_zeros; rewrite zlen_app, zlen_cons, zlen_nil; unfold zlen in *; lia].
    unfold mret, comp_ret. do 3 f_equal. rewrite length_app. cbn [length].
    rewrite <- app_assoc. do 2 f_equal. unfold zlen in Hf. cbn.
    replace (length buf - length (export_text sep l))%nat
      with (S (length buf - (length (export_text sep l) + 1)))%nat by lia. done.
  - unfold mbind, comp_bind, lift. rewrite wr_too_long; [done|].
    autorewrite with bytes. unfold zlen in *. lia.
Qed.
End Exporting.

(** The text needs what the check counted when the separator is not zero, and
    one byte more for every backslash when it is. *)
Definition backslashes (v : bytes) : Z := zlen (filter (λ c, c = 92) v).

Lemma escape_length sep v : Forall (λ c, c ≠ 0) v →
  zlen (escape sep v) = value_length sep v + (if sep =? 0 then backslashes v else 0).
Proof.
  unfold value_length, backslashes. destruct (Z.eqb_spec sep 0) as [->|Hs].
  - induction 1 as [|c v Hc _ IH]; [done|]. cbn [escape]. unfold needs_escape.
    rewrite (proj2 (Z.eqb_neq c 0)) by done. cbn [orb]. rewrite filter_cons.
    destruct (Z.eqb_spec c 92); case_decide; try done; autorewrite with bytes in *; lia.
  - intros _. induction v as [|c v IH]; [done|]. cbn [escape foldr].
    destruct (needs_escape sep c); autorewrite with bytes in *; lia.
Qed.

Lemma export_text_length sep l : Forall (λ e, Forall (λ c, c ≠ 0) e.2) l →
  zlen (export_text sep l) = need sep l - 2 * zlen l +
    (if sep =? 0 then foldr (fun e n => backslashes e.2 + n) 0 l else 0).
Proof.
  induction 1 as [|[k v] l Hv _ IH]; [by destruct (sep =? 0)|].
  unfold export_text. cbn [fmap list_fmap concat]. fold (export_text sep l).
  unfold entry_text. cbn [fst snd need foldr]. fold (need sep l). cbn in Hv.
  rewrite !zlen_app, escape_length, IH by done. autorewrite with bytes. cbn [fst snd].
  destruct (sep =? 0); lia.
Qed.

(** ** Parsing what was written *)

(** A variable that survives export and import: a name without the characters
    the parser gives a meaning to, and a value that is not empty. *)
Definition var_ok (sep : Z) (e : bytes * bytes) : Prop :=
  (∃ c k, e.1 = c :: k ∧ isblank c = false ∧ c ≠ 35) ∧
  Forall (λ c, c ≠ 61 ∧ c ≠ 0 ∧ c ≠ sep) e.1 ∧
  e.2 ≠ [] ∧ Forall (λ c, c ≠ 0) e.2.

Lemma parse_name_ok sep k rest : Forall (λ c, c ≠ 61 ∧ c ≠ 0 ∧ c ≠ sep) k →
  parse_name sep (k ++ 61 :: rest) = Ret (k, 61 :: rest).
Proof.
  induction 1 as [|c k (H1 & H2 & H3) _ IH]; [done|]. cbn [app parse_name].
  rewrite (proj2 (Z.eqb_neq c 61)), (proj2 (Z.eqb_neq c 0)), (proj2 (Z.eqb_neq c sep)) by done.
  cbn [orb]. by rewrite IH.
Qed.

Lemma parse_value_escape sep v rest : sep ≠ 92 → Forall (λ c, c ≠ 0) v →
  parse_value sep (escape sep v ++ sep :: rest) = Ret (v, rest).
Proof.
  intros Hs. induction 1 as [|c v Hc _ IH]; cbn [escape].
  - cbn [app parse_value]. by rewrite Z.eqb_refl, orb_true_r.
  - unfold needs_escape. destruct (Z.eqb_spec c sep) as [->|Hcs]; cbn [orb].
    + cbn [app parse_value]. rewrite (proj2 (Z.eqb_neq 92 sep)), (proj2 (Z.eqb_neq sep 0)) by done.
      cbn. by rewrite IH.
    + destruct (Z.eqb_spec c 92) as [->|H92].
      * cbn [app parse_value]. rewrite (proj2 (Z.eqb_neq 92 sep)) by done. cbn. by rewrite IH.
      * cbn [app parse_value].
        rewrite (proj2 (Z.eqb_neq c 0)), (proj2 (Z.eqb_neq c sep)), (proj2 (Z.eqb_neq c 92)) by done.
        cbn [orb]. by rewrite IH.
Qed.

(** One round of the parser reads one exported entry. *)
Lemma parse_item_entry sep e rest : sep ≠ 61 → sep ≠ 92 → var_ok sep e →
  parse_item sep (entry_text sep e ++ rest) = Ret (SetVar e.1 e.2, rest).
Proof.
  intros H61 H92 ((c & k & Hk & Hbl & H35) & Hkey & Hne & Hval). destruct e as [key v]. cbn [fst snd] in *.
  assert (Htext : entry_text sep (key, v) ++ rest = key ++ 61 :: escape sep v ++ sep :: rest).
  { unfold entry_text. cbn [fst snd]. rewrite <- !app_assoc. reflexivity. }
  unfold parse_item. rewrite Htext.
  assert (Hw : skip_white (key ++ 61 :: escape sep v ++ sep :: rest) =
    Ret (key ++ 61 :: escape sep v ++ sep :: rest)) by (rewrite Hk; cbn; by rewrite Hbl).
  rewrite Hw. cbn [mbind run_bind].
  assert (Hp : peek (key ++ 61 :: escape sep v ++ sep :: rest) = Ret c) by (by rewrite Hk).
  rewrite Hp. cbn [mbind run_bind]. rewrite (proj2 (Z.eqb_neq c 35)) by done.
  rewrite parse_name_ok by done. cbn [mbind run_bind peek drop]. change (61 =? 0) with false.
  change (61 =? 61) with true. cbn iota.
  assert (Hc1 : ∃ d r, escape sep v ++ sep :: rest = d :: r ∧ d ≠ 0 ∧ d ≠ sep).
  { destruct v as [|d v]; [done|]. inversion Hval; subst. cbn [escape]. unfold needs_escape.
    destruct (Z.eqb_spec d sep); cbn; [by eexists 92, _|].
    destruct (Z.eqb_spec d 92); [by eexists 92, _|by eexists d, _]. }
  destruct Hc1 as (d & r & Hd & Hd0 & Hds). rewrite drop_0, Hd. cbn [peek mbind run_bind].
  rewrite (proj2 (Z.eqb_neq d 0)), (proj2 (Z.eqb_neq d sep)), (proj2 (Z.eqb_neq 61 sep)) by done.
  cbn [orb]. rewrite <- Hd, parse_value_escape by done. cbn [mbind run_bind].
  rewrite bool_decide_eq_false_2; [done|]. by rewrite Hk.
Qed.

Section Importing.
Context {W : Type} {HW : Heap W} {HH : EnvHooks W} {HL : HookLaws W}.
Context (I : W → Prop) (J : hsearch_data → W → Prop) (sep flag : Z) (Hs61 : sep ≠ 61) (Hs92 : sep ≠ 92).

(** In such a world the variable can be entered into any table with room. *)
Definition enters (e : bytes * bytes) : Prop :=
  ∀ t w, tab_ok t → taken t < size t → J t w →
  ∃ ret i t' w', hsearch_r e.1 (Some e.2) ENTER t flag w = Ret (Hret ret (Some i) 0, t', w') ∧ J t' w'.

Lemma enters_insert e t w : enters e → tab_ok t → taken t < size t → J t w →
  ∃ ret i t' w', hsearch_r e.1 (Some e.2) ENTER t flag w = Ret (Hret ret (Some i) 0, t', w') ∧
    J t' w' ∧ tab_ok t' ∧
    size t' = size t ∧ taken t' ≤ taken t + 1 ∧ to_map t' = <[e.1 := e.2]> (to_map t).
Proof.
  intros He Ht Hr HJ. destruct (He t w Ht Hr HJ) as (ret & i & t' & w' & Hh & HJ').
  exists ret, i, t', w'. split_and!; [done|done|..].
  all: apply hsearch_enter_refines in Hh; [|done|by left]; by inversion Hh.
Qed.

Definition insert_all (l : list (bytes * bytes)) (m : gmap bytes bytes) : gmap bytes bytes :=
  foldl (fun m e => <[e.1 := e.2]> m) m l.

Lemma insert_all_union l m : NoDup l.*1 → insert_all l m = list_to_map l ∪ m.
Proof.
  revert m. induction l as [|[k v] l IH]; intros m Hnd; cbn.
  { by rewrite (left_id_L ∅ (∪)). }
  inversion Hnd as [|? ? Hk Hl]; subst. unfold insert_all in IH. rewrite IH by done.
  rewrite <- insert_union_l, <- insert_union_r; [done|]. by apply not_elem_of_list_to_map_1.
Qed.

Lemma export_text_count l : (length l ≤ length (export_text sep l))%nat.
Proof.
  induction l as [|e l IH]; [done|]. unfold export_text. cbn [fmap list_fmap concat length].
  fold (export_text sep l). rewrite length_app. unfold entry_text. rewrite !length_app. cbn. lia.
Qed.

(** The parser over exported text enters the variables one after another. *)
Lemma import_loop_text l fuel t w pad : l ≠ [] → Forall (var_ok sep) l → Forall enters l →
  tab_ok t → taken t + zlen l ≤ size t → J t w → (length l ≤ fuel)%nat →
  ∃ t' w', import_loop fuel t (export_text sep l ++ 0 :: pad) 0 sep flag [] w =
    Ret (Some [], t', w') ∧ J t' w' ∧ tab_ok t' ∧ to_map t' = insert_all l (to_map t).
Proof.
  revert fuel t w. induction l as [|e l IH]; intros fuel t w Hne Hok He Ht Hroom HJ Hf; [done|].
  inversion Hok as [|? ? Hoke Hokl]; inversion He as [|? ? Hee Hel]; subst.
  destruct fuel as [|fuel]; [cbn in Hf; lia|]. cbn [import_loop].
  unfold export_text. cbn [fmap list_fmap concat]. fold (export_text sep l). rewrite <- app_assoc.
  erewrite comp_bind_run by (apply lift_run; by apply parse_item_entry). cbn beta iota.
  cbn [drop_var_from_set negb]. rewrite zlen_cons in Hroom. pose proof (zlen_nonneg l).
  destruct (enters_insert e t w Hee Ht ltac:(lia) HJ) as (ret & i & t1 & w1 & Hr & HJ1 & Ht1 & Hsz1 & Htk1 & Hm1).
  erewrite comp_bind_run by exact Hr. cbn beta iota.
  destruct l as [|e' l'].
  - cbn [export_text fmap list_fmap concat app]. rewrite zlen_cons.
    rewrite (proj2 (Z.leb_gt _ 0)) by (pose proof (zlen_nonneg pad); lia).
    erewrite comp_bind_run by by apply lift_run. cbn. exists t1, w1. split_and!; done.
  - set (l := e' :: l') in *. assert (Hpk : ∃ c r, export_text sep l ++ 0 :: pad = c :: r ∧ c ≠ 0).
    { inversion Hokl as [|? ? Hoke' _]; subst. destruct Hoke' as ((c & k & Hk & _) & Hkey & _).
      unfold l, export_text. cbn [fmap list_fmap concat]. unfold entry_text. rewrite Hk. cbn.
      eexists c, _. split; [done|]. rewrite Hk in Hkey. by inversion Hkey as [|? ? (_ & ? & _)]. }
    destruct Hpk as (c & rr & Hpk & Hc0). rewrite Hpk, zlen_cons.
    rewrite (proj2 (Z.leb_gt _ 0)) by (pose proof (zlen_nonneg rr); lia).
    erewrite comp_bind_run by by apply lift_run. cbn beta. rewrite (proj2 (Z.eqb_neq c 0)) by done.
    rewrite <- Hpk. destruct (IH fuel t1 w1) as (t2 & w2 & Hi & HJ2 & Ht2 & Hm2);
      [done|done|done|done|lia|done|unfold l in *; cbn [length] in *; lia|].
    exists t2, w2. split_and!; [exact Hi|done|done|]. rewrite Hm2, Hm1. done.
Qed.

Context (Hheap : ∀ n w, I w → ∃ w', malloc n w = Ret (true, w') ∧ I w').
Context (Hempty : ∀ p w, I w → J (empty_table p) w).

(** The number of entries the table for so much data is made for. *)
Definition import_entries (n : Z) : Z := Z.min CONFIG_ENV_MAX_ENTRIES (CONFIG_ENV_MIN_ENTRIES + n / 8).

(** The empty list: its terminator is taken for a variable to delete. *)
Lemma import_loop_empty fuel t w n : tab_ok t → to_map t !! [] = None →
  import_loop (S fuel) t (replicate (S n) 0) 0 sep flag [] w = Ret (Some [], t, w).
Proof.
  intros Ht Hm. cbn [import_loop replicate].
  erewrite comp_bind_run by (apply lift_run; reflexivity). cbn beta iota. cbn [drop_var_from_set negb].
  assert (Hd : hdelete_r [] t flag w = Ret (0, ESRCH, t, w)).
  { unfold hdelete_r. destruct (hfind_spec t [] None 0 w Ht) as (r & Hr & Hres). rewrite Hm in Hres. subst r.
    by erewrite comp_bind_run by exact Hr. }
  erewrite comp_bind_run by exact Hd. cbn beta iota. change (0 =? 61) with false. cbn [drop].
  destruct n as [|n]; [done|]. cbn [replicate]. rewrite drop_0, zlen_cons.
  rewrite (proj2 (Z.leb_gt _ 0)) by (pose proof (zlen_nonneg (replicate n 0)); lia).
  by erewrite comp_bind_run by by apply lift_run.
Qed.

(** The import starts with a new table that is large enough for the data. *)
Lemma himport_starts t0 env w : (table t0 = None ∨ tab_ok t0) → Z.land flag H_NOCLEAR = 0 → I w →
  1 ≤ zlen env < 0x80000000 →
  ∃ p w1, tab_ok (empty_table p) ∧ to_map (empty_table p) = ∅ ∧ taken (empty_table p) = 0 ∧
    import_entries (zlen env) ≤ p ∧ I w1 ∧
    ∀ t' w', import_loop (S (length env)) (empty_table p) env 0 sep flag [] w1 = Ret (Some [], t', w') →
      himport_r t0 env (zlen env) sep flag false [] w = Ret (1, t', w').
Proof.
  intros Ht0 Hflag HI Hlen. unfold himport_r.
  destruct (Hheap (zlen env) w HI) as (w1 & Hm1 & HI1).
  assert (Hclr : ∃ t1, (match table t0 with Some _ => hdestroy_r t0 | None => Ret t0 end) = Ret t1 ∧ table t1 = None).
  { destruct (table t0) eqn:E; [|eauto]. destruct Ht0 as [|Ht0]; [congruence|].
    rewrite (hdestroy_ok t0 Ht0). eauto. }
  destruct Hclr as (t1 & Ht1 & Htab). assert (Hd8 : 0 ≤ zlen env / 8 < 0x20000000)
    by (split; [apply Z.div_pos; lia|apply Z.div_lt_upper_bound; lia]).
  assert (Hnent : (if s32 (CONFIG_ENV_MIN_ENTRIES + zlen env / 8) >? CONFIG_ENV_MAX_ENTRIES
    then CONFIG_ENV_MAX_ENTRIES else s32 (CONFIG_ENV_MIN_ENTRIES + zlen env / 8)) = import_entries (zlen env)).
  { unfold import_entries, CONFIG_ENV_MIN_ENTRIES, CONFIG_ENV_MAX_ENTRIES. rewrite s32_small by lia.
    destruct (Z.gtb_spec (64 + zlen env / 8) 512); lia. }
  assert (Hent : 64 ≤ import_entries (zlen env) ≤ 512).
  { unfold import_entries, CONFIG_ENV_MIN_ENTRIES, CONFIG_ENV_MAX_ENTRIES. lia. }
  destruct (hcreate_ok (import_entries (zlen env)) t1 w1 Htab) as (p & Hp & Hpb & Hc); [lia|].
  destruct (Hheap ((p + 1) * sizeof_ENTRY) w1 HI1) as (w2 & Hm2 & HI2).
  destruct (empty_table_ok p Hp) as (Het & Hem & Hek); [lia|].
  exists p, w2. split_and!; [done..|lia|done|]. intros t' w' Hi.
  erewrite comp_bind_run by exact Hm1. cbn beta iota. cbn [negb].
  erewrite comp_bind_run; [|apply lift_run; rewrite rd_ok by lia; by rewrite slice_all].
  cbn beta. rewrite Hflag. cbn [Z.eqb].
  erewrite comp_bind_run by (apply lift_run; exact Ht1). cbn beta. rewrite Htab. cbv zeta. rewrite Hnent.
  rewrite (comp_bind_run _ _ w1 (1, empty_table p) w2) by (rewrite Hc; by erewrite comp_bind_run by exact Hm2).
  cbn beta iota. change (1 =? 0) with false. cbn iota. rewrite (proj2 (Z.eqb_neq (zlen env) 0)) by lia.
  by erewrite comp_bind_run by exact Hi.
Qed.

(** Importing exported text into a new table gives a table with exactly these
    variables. *)
Lemma himport_text t0 l n w : (table t0 = None ∨ tab_ok t0) → Forall (var_ok sep) l →
  Forall enters l → NoDup l.*1 → Z.land flag H_NOCLEAR = 0 → I w →
  let env := export_text sep l ++ replicate (S n) 0 in
  zlen env < 0x80000000 → zlen l ≤ import_entries (zlen env) →
  ∃ t' w', himport_r t0 env (zlen env) sep flag false [] w = Ret (1, t', w') ∧ J t' w' ∧
    tab_ok t' ∧ to_map t' = list_to_map l.
Proof.
  intros Ht0 Hok He Hnd Hflag HI env Hlen Hcount.
  assert (Hlen1 : 1 ≤ zlen env) by (unfold env; rewrite zlen_app, zlen_replicate; pose proof (zlen_nonneg (export_text sep l)); lia).
  destruct (himport_starts t0 env w) as (p & w2 & Het & Hem & Hek & Hpb & HI2 & Hrun); [done|done|done|lia|].
  destruct (decide (l = [])) as [->|Hne].
  - exists (empty_table p), w2. split_and!; [|by apply Hempty|done|done]. apply Hrun. unfold env.
    cbn [export_text fmap list_fmap concat app]. apply import_loop_empty; [done|by rewrite Hem].
  - destruct (import_loop_text l (S (length env)) (empty_table p) w2 (replicate n 0))
      as (t' & w' & Hi & HJ' & Ht' & Hm'); [done|done|done|done| |by apply Hempty| |].
    + rewrite Hek. cbn [size empty_table]. lia.
    + unfold env. rewrite length_app. assert (length l ≤ length (export_text sep l))%nat; [|lia].
      apply export_text_count.
    + exists t', w'. split_and!; [by apply Hrun|done|done|]. rewrite Hm', Hem.
      rewrite insert_all_union by done. by rewrite (right_id_L ∅ (∪)).
Qed.
End Importing.
