(* ===== verification/EnvBoard.v ===== *)
(** * The environment of this board

    The attributes the static lists of this configuration give to variables,
    which variables can therefore always be set, and that an environment of such
    variables is the same after it was exported and imported. *)

From Stdlib Require Import Sorted.
From S2P Require Import Prelude HashTable HashSpec Bootm EnvFlags EnvFlagsSpec EnvText EnvTextSpec.

(** ** Static attributes *)

Definition flags_static : list (bytes * bytes) := [(str "ethaddr", str "ma")].

Definition callbacks_static : list (bytes * bytes) :=
  [(str ".callbacks", str "callbacks"); (str ".flags", str "flags");
   (str "baudrate", str "baudrate"); (str "bootfile", str "bootfile");
   (str "loadaddr", str "loadaddr"); (str "stdin", str "console");
   (str "stdout", str "console"); (str "stderr", str "console")].

Lemma flags_static_print : ENV_FLAGS_LIST_STATIC = print_attrs flags_static.
Proof. reflexivity. Qed.

Lemma callbacks_static_print : ENV_CALLBACK_LIST_STATIC = print_attrs callbacks_static.
Proof. vm_compute. reflexivity. Qed.

#[export] Instance name_char_dec c : Decision (name_char c).
Proof. unfold name_char. apply _. Defined.
#[export] Instance attr_char_dec c : Decision (attr_char c).
Proof. unfold attr_char. apply _. Defined.
#[export] Instance attr_ok_dec e : Decision (attr_ok e).
Proof. unfold attr_ok. apply _. Defined.

Lemma flags_static_ok : Forall attr_ok flags_static.
Proof. apply (bool_decide_unpack _). vm_compute. exact I. Qed.

Lemma callbacks_static_ok : Forall attr_ok callbacks_static.
Proof. apply (bool_decide_unpack _). vm_compute. exact I. Qed.

(** The flags and the callback of a new variable. *)
Definition static_flags (k : bytes) : Z :=
  match last_attr flags_static k with Some a => env_parse_flags_to_bin a | None => 0 end.

Definition static_callback (k : bytes) : option env_clbk :=
  match last_attr callbacks_static k with Some a => find_env_callback a | None => None end.

Lemma static_flags_cases k : static_flags k = 0 ∨ static_flags k = env_flags_vartype_macaddr.
Proof.
  unfold static_flags. assert (Hl := last_attr_spec flags_static k).
  destruct (last_attr flags_static k) as [a|]; [|by left]. right.
  destruct Hl as (es1 & es2 & Heq & _). unfold flags_static in Heq.
  destruct es1 as [|x es1]; [|destruct es1; done]. injection Heq as <- <- _. reflexivity.
Qed.

(** A name the attribute lists can mention. *)
Definition named (k : bytes) : Prop := k ≠ [] ∧ Forall name_char k.

(** Looking a name up in a printed list, with the result as a string. *)
Lemma lookup_string before es k n : solid before → Forall attr_ok es → named k →
  Forall (λ e, (length e.2 < n)%nat) es →
  match last_attr es k with
  | Some a => ∃ buf, env_attr_lookup (S (length (print_attrs es))) before (Some (print_attrs es)) k
                       (replicate n 0) = Ret (0, buf) ∧ c_str buf = Ret a
  | None => env_attr_lookup (S (length (print_attrs es))) before (Some (print_attrs es)) k
              (replicate n 0) = Ret (2, replicate n 0)
  end.
Proof.
  intros Hb Hes [Hne Hk] Hn. rewrite (env_attr_lookup_printed before Hb es Hes k Hne Hk).
  assert (Hl := last_attr_spec es k). destruct (last_attr es k) as [a|]; [|done].
  destruct Hl as (es1 & es2 & -> & _). apply Forall_app in Hes as [_ Hes], Hn as [_ Hn].
  inversion Hes as [|? ? (_ & _ & Ha) _]; inversion Hn as [|? ? Hla _]; subst. cbn in Ha, Hla.
  rewrite wr_prefix_zeros by (rewrite zlen_app, zlen_cons; unfold zlen; cbn [length]; lia).
  cbn [mbind run_bind]. eexists. split; [reflexivity|]. rewrite <- app_assoc. apply c_str_app.
  eapply Forall_impl; [exact Ha|]. by intros c (? & _).
Qed.

Lemma flags_static_short : Forall (λ e, (length e.2 < 3)%nat) flags_static.
Proof. repeat constructor. Qed.

Lemma callbacks_static_short : Forall (λ e, (length e.2 < 256)%nat) callbacks_static.
Proof. apply (bool_decide_unpack _). vm_compute. exact I. Qed.

(** ** A world in which nothing interferes *)

(** The globals are a field of the world, the allocator grants every request
    and leaves them alone, and the attribute lists lie behind something. *)
Class QuietWorld (W : Type) `{HW : Heap W} `{EW : EnvWorld W} : Prop := {
  globals_set g w : env_globals_of (set_env_globals g w) = g;
  heap_grants n w : (heap_alloc n w).1 = true;
  heap_globals n w : env_globals_of (heap_alloc n w).2 = env_globals_of w;
  before_solid : solid attr_before }.

Section Board.
Context {W : Type} {HW : Heap W} {EW : EnvWorld W} {QW : QuietWorld W}.

(** Whether the table is the environment already. *)
Context (R : bool).

(** The settings that are read before the table is ready do not give [name]. *)
Definition no_setting (name : bytes) (g : env_globals) : Prop :=
  ∀ buf, getenv_f_loop (length (env_memory (W := W) g)) name (env_memory (W := W) g) 0 buf sizeof_env_buf
         = Ret (-1, buf).

(** A [first_call] that is still set, as at a start, will find no list. *)
Definition unset (first_call : bool) (name : bytes) (g : env_globals) : Prop :=
  first_call = true → R = false ∧ no_setting name g.

(** Neither list was or will be given by a variable, and the serial port runs
    at [B]. *)
Definition quiet (B : Z) (w : W) : Prop :=
  let g := env_globals_of w in
  unset (flags_first_call g) ENV_FLAGS_VAR g ∧ flags_list g = PNull ∧
  unset (callback_first_call g) ENV_CALLBACK_VAR g ∧ callback_list g = PNull ∧
  zlen (BootFile g) = sizeof_BootFile ∧ gd_baudrate g = B ∧ gd_env_ready g = R.

(** Both lists were looked for. *)
Definition called (w : W) : Prop :=
  flags_first_call (env_globals_of w) = false ∧ callback_first_call (env_globals_of w) = false.

Lemma malloc_globals n w : ∃ w', malloc n w = Ret (true, w') ∧ env_globals_of w' = env_globals_of w.
Proof.
  unfold malloc. exists (heap_alloc n w).2. split; [|apply heap_globals].
  rewrite <- (heap_grants n w). by destruct (heap_alloc n w).
Qed.

Lemma malloc_quiet B n w : quiet B w → ∃ w', malloc n w = Ret (true, w') ∧ quiet B w'.
Proof.
  intros Hq. destruct (malloc_globals n w) as (w' & Hm & Hg). exists w'. split; [done|].
  unfold quiet. by rewrite Hg.
Qed.

Lemma strdup_quiet B s w : quiet B w →
  ∃ w', strdup (Some s) w = Ret (Str s, w') ∧ quiet B w' ∧ (called w → called w').
Proof.
  intros Hq. destruct (malloc_globals (zlen s + 1) w) as (w' & Hm & Hg). exists w'. split.
  - unfold strdup. by erewrite comp_bind_run by exact Hm.
  - unfold quiet, called. by rewrite Hg.
Qed.

Lemma get_globals_run w : get_globals w = Ret (env_globals_of w, w).
Proof. done. Qed.

(** Before the table is ready a name that no setting gives is not found. *)
Lemma getenv_unset t name w : gd_env_ready (env_globals_of w) = false → no_setting name (env_globals_of w) →
  ∃ w', getenv t name w = Ret (PNull, w') ∧ env_globals_of w' = env_globals_of w.
Proof.
  intros Hr Hn. unfold getenv. erewrite comp_bind_run by apply get_globals_run. cbn beta. rewrite Hr.
  assert (Hf : getenv_f name (gd_env_buf (env_globals_of w)) sizeof_env_buf w
    = Ret (-1, gd_env_buf (env_globals_of w), w)).
  { unfold getenv_f. erewrite comp_bind_run by apply get_globals_run. cbn beta. by apply lift_run. }
  erewrite comp_bind_run by exact Hf. cbn beta iota.
  unfold set_env_buf. erewrite comp_bind_run.
  2: { erewrite comp_bind_run by apply get_globals_run. reflexivity. }
  eexists. split; [reflexivity|]. rewrite globals_set. by destruct (env_globals_of w).
Qed.

(** The first call finds no list of callbacks, every other one knows. *)
Lemma callback_first_quiet B t w : quiet B w →
  ∃ w', (if callback_first_call (env_globals_of w)
         then p ← getenv t ENV_CALLBACK_VAR; set_callback_list p else mret ()) w = Ret ((), w')
    ∧ quiet B w' ∧ callback_first_call (env_globals_of w') = false
    ∧ flags_first_call (env_globals_of w') = flags_first_call (env_globals_of w).
Proof.
  intros Hq. assert (Hq' := Hq). destruct Hq' as (H1 & H2 & H3 & H4 & H5 & H6 & H7).
  destruct (callback_first_call (env_globals_of w)) eqn:Ec; [|by exists w].
  destruct (H3 eq_refl) as [HR Hn]. destruct (getenv_unset t ENV_CALLBACK_VAR w) as (w1 & Hg & Eg);
    [congruence|done|].
  erewrite comp_bind_run by exact Hg. cbn beta. unfold set_callback_list.
  erewrite comp_bind_run by apply get_globals_run. eexists. split; [reflexivity|].
  unfold quiet. rewrite globals_set, Eg. cbn. split_and!; done.
Qed.

(** ... and the same for the flags. *)
Lemma flags_first_quiet B t w : quiet B w →
  ∃ w', (if flags_first_call (env_globals_of w)
         then p ← getenv t ENV_FLAGS_VAR; set_flags_list p else mret ()) w = Ret ((), w')
    ∧ quiet B w' ∧ flags_first_call (env_globals_of w') = false
    ∧ callback_first_call (env_globals_of w') = callback_first_call (env_globals_of w).
Proof.
  intros Hq. assert (Hq' := Hq). destruct Hq' as (H1 & H2 & H3 & H4 & H5 & H6 & H7).
  destruct (flags_first_call (env_globals_of w)) eqn:Ec; [|by exists w].
  destruct (H1 eq_refl) as [HR Hn]. destruct (getenv_unset t ENV_FLAGS_VAR w) as (w1 & Hg & Eg);
    [congruence|done|].
  erewrite comp_bind_run by exact Hg. cbn beta. unfold set_flags_list.
  erewrite comp_bind_run by apply get_globals_run. eexists. split; [reflexivity|].
  unfold quiet. rewrite globals_set, Eg. cbn. split_and!; done.
Qed.

(** A new variable gets the callback of the static list. *)
Lemma callback_init_quiet B t e k w : quiet B w → e_key e = Str k → named k → e_callback e = None →
  ∃ w', callback_init t e w = Ret (entry_callback e (static_callback k), w') ∧ quiet B w'
    ∧ callback_first_call (env_globals_of w') = false.
Proof.
  intros Hq Hk Hn Hcb. destruct (callback_first_quiet B t w Hq) as (w' & Hrun & Hq' & Hfc & _).
  exists w'. split; [|done]. destruct Hq' as (_ & _ & _ & Hl & _). unfold callback_init.
  erewrite comp_bind_run by (apply lift_run; by rewrite Hk). cbn beta.
  erewrite comp_bind_run by apply get_globals_run. cbn beta.
  erewrite comp_bind_run by exact Hrun. cbn beta.
  erewrite comp_bind_run by apply get_globals_run. cbn beta. rewrite Hl. cbn [env_string].
  erewrite comp_bind_run by reflexivity. cbn beta.
  erewrite comp_bind_run by (apply lift_run; reflexivity). cbn beta iota.
  change (negb (1 =? 0)) with true. cbn iota. rewrite callbacks_static_print.
  assert (Hs := lookup_string attr_before callbacks_static k 256 before_solid callbacks_static_ok Hn
    callbacks_static_short).
  assert (Hsame : ∀ cb, cb = None → entry_callback e cb = e) by (intros ? ->; destruct e; cbn in *; by subst).
  unfold static_callback. assert (Hla := last_attr_spec callbacks_static k).
  destruct (last_attr callbacks_static k) as [a|].
  - destruct Hs as (buf & Hb & Hc). erewrite comp_bind_run by (apply lift_run; exact Hb). cbn beta iota.
    erewrite comp_bind_run by (apply lift_run; exact Hc). cbn beta.
    assert (Ha : a ≠ []).
    { intros ->. destruct Hla as (es1 & es2 & Heq & _).
      assert (Hin : (k, []) ∈ callbacks_static) by (rewrite Heq; apply elem_of_app; right; left).
      assert (Hall : Forall (λ e, e.2 ≠ []) callbacks_static) by (apply (bool_decide_unpack _); vm_compute; exact I).
      rewrite Forall_forall in Hall. by apply (Hall _ Hin). }
    change (0 =? 0) with true. cbn [andb]. destruct a as [|c a]; [done|]. rewrite zlen_cons.
    rewrite (proj2 (Z.eqb_neq (1 + zlen a) 0)) by (pose proof (zlen_nonneg a); lia). cbn [negb].
    destruct (find_env_callback (c :: a)) eqn:E; [done|]. by rewrite Hsame.
  - erewrite comp_bind_run by (apply lift_run; exact Hs). cbn beta iota.
    erewrite comp_bind_run by (apply lift_run; reflexivity). cbn beta. cbn. by rewrite Hsame.
Qed.

(** ... and the flags of the static list. *)
Lemma flags_init_quiet B t e k w : quiet B w → e_key e = Str k → named k → e_flags e = 0 →
  ∃ w', flags_init t e w = Ret (entry_flags e (static_flags k), w') ∧ quiet B w'
    ∧ flags_first_call (env_globals_of w') = false
    ∧ callback_first_call (env_globals_of w') = callback_first_call (env_globals_of w).
Proof.
  intros Hq Hk Hn Hfl. destruct (flags_first_quiet B t w Hq) as (w' & Hrun & Hq' & Hfc & Hcc).
  exists w'. split; [|done]. destruct Hq' as (_ & Hl & _). unfold flags_init.
  erewrite comp_bind_run by (apply lift_run; by rewrite Hk). cbn beta.
  erewrite comp_bind_run by apply get_globals_run. cbn beta.
  erewrite comp_bind_run by exact Hrun. cbn beta.
  erewrite comp_bind_run by apply get_globals_run. cbn beta. rewrite Hl. cbn [env_string].
  erewrite comp_bind_run by reflexivity. cbn beta. unfold env_flags_lookup. cbn [mbind run_bind].
  change (negb (1 =? 0)) with true. cbn iota. rewrite flags_static_print.
  change (Z.to_nat (ENV_FLAGS_ATTR_MAX_LEN + 1)) with 3%nat.
  assert (Hs := lookup_string attr_before flags_static k 3 before_solid flags_static_ok Hn flags_static_short).
  assert (Hsame : entry_flags e 0 = e) by (destruct e; cbn in *; by subst).
  unfold static_flags. assert (Hla := last_attr_spec flags_static k).
  destruct (last_attr flags_static k) as [a|].
  - destruct Hs as (buf & Hb & Hc). erewrite comp_bind_run by (apply lift_run; exact Hb). cbn beta iota.
    erewrite comp_bind_run by (apply lift_run; exact Hc). cbn beta.
    destruct Hla as (es1 & es2 & Heq & _). unfold flags_static in Heq.
    destruct es1 as [|x es1]; [|destruct es1; done]. by injection Heq as _ <- _.
  - erewrite comp_bind_run by (apply lift_run; exact Hs). cbn beta iota.
    erewrite comp_bind_run by (apply lift_run; reflexivity). cbn beta. cbn. by rewrite Hsame.
Qed.

(** ** Variables that can always be set *)

Definition acceptable (B : Z) (k v : bytes) : Prop :=
  named k ∧
  _env_flags_validate_type v (Z.land ENV_FLAGS_VARTYPE_BIN_MASK (static_flags k)) = 0 ∧
  match static_callback k with
  | None | Some clbk_loadaddr | Some clbk_bootfile => True
  | Some clbk_baudrate => s32 (strtoul v 10) = B
  | _ => False
  end.

(** The access bits of the static flags forbid nothing. *)
Lemma static_access k m : Z.land env_flags_vartype_macaddr m = 0 → Z.land (static_flags k) m = 0.
Proof. intros Hm. destruct (static_flags_cases k) as [-> | ->]; [apply Z.land_0_l|done]. Qed.

Lemma permission_quiet B e k v op flag w : op ≠ env_op_delete → acceptable B k v →
  e_key e = Str k → e_flags e = static_flags k →
  permission e (Str v) op flag w = Ret (0, w).
Proof.
  intros Hop (_ & Hty & _) Hk Hf. unfold permission. cbn [change_ok env_hooks]. unfold env_flags_validate.
  erewrite comp_bind_run by (apply lift_run; by rewrite Hk). cbn beta.
  erewrite comp_bind_run by (apply lift_run; reflexivity). cbn beta. rewrite Hf, Hty.
  rewrite !static_access by reflexivity.
  destruct op; [|done|]; cbn; by destruct (negb _).
Qed.

Lemma copy_filename_length v n : 1 ≤ n → zlen (copy_filename v n) ≤ n - 1.
Proof.
  intros Hn. unfold copy_filename. set (p := match v with 34 :: rest => (rest, n - 1) | _ => (v, n) end).
  assert (Hp : p.2 ≤ n) by (unfold p; repeat case_match; cbn; lia).
  destruct p as [src size]. cbn in Hp. unfold zlen. rewrite length_take. lia.
Qed.

(** The callback of such a variable lets the change pass. *)
Lemma callback_quiet B e k v op flag t w : op ≠ env_op_delete → acceptable B k v →
  e_callback e = static_callback k → quiet B w →
  ∃ w', call_callback e k (Str v) op flag t w = Ret (0, t, w') ∧ quiet B w' ∧ (called w → called w').
Proof.
  intros Hop (_ & _ & Hcb) He Hq. assert (Hq' := Hq). destruct Hq' as (? & ? & ? & ? & Hlen & Hbaud & Hrd).
  unfold call_callback. rewrite He. destruct (static_callback k) as [[]|]; try done.
  - (* baudrate *)
    assert (Hrun : on_baudrate v op flag w = Ret (0, w)).
    { unfold on_baudrate. destruct op; [|done|]; (erewrite comp_bind_run by apply get_globals_run); cbn beta;
        by rewrite Hcb, Hbaud, Z.eqb_refl. }
    exists w. split; [|done]. exact (comp_bind_run _ _ _ _ _ Hrun).
  - (* bootfile *)
    set (buf := copy_filename v sizeof_BootFile ++ [0] ++
      drop (length (copy_filename v sizeof_BootFile) + 1) (BootFile (env_globals_of w))).
    assert (Hcp := copy_filename_length v sizeof_BootFile ltac:(unfold sizeof_BootFile; lia)).
    assert (Hwr : wr (BootFile (env_globals_of w)) 0 (copy_filename v sizeof_BootFile ++ [0]) = Ret buf).
    { rewrite wr_ok by (rewrite ?zlen_app, ?zlen_cons; unfold zlen, sizeof_BootFile in *; cbn [length] in *; lia).
      unfold buf. change (Z.to_nat 0) with 0%nat. rewrite take_0, <- app_assoc. cbn [app].
      do 4 f_equal. rewrite zlen_app, zlen_cons. unfold zlen. cbn [length]. lia. }
    assert (Hrun : ∃ w', on_bootfile v op w = Ret (0, w') ∧
      env_globals_of w' = EnvGlobals (gd_env_ready (env_globals_of w)) (gd_devinit (env_globals_of w))
        (gd_env_valid (env_globals_of w)) (gd_env_addr (env_globals_of w)) (gd_env_buf (env_globals_of w))
        (gd_baudrate (env_globals_of w)) (load_addr (env_globals_of w)) buf
        (flags_first_call (env_globals_of w)) (flags_list (env_globals_of w))
        (callback_first_call (env_globals_of w)) (callback_list (env_globals_of w)) (env_id (env_globals_of w))).
    { unfold on_bootfile. destruct op; [|done|].
      all: (erewrite comp_bind_run by apply get_globals_run); cbn beta.
      all: (erewrite comp_bind_run by (apply lift_run; exact Hwr)); cbn beta.
      all: eexists; split; [reflexivity|apply globals_set]. }
    destruct Hrun as (w' & Hrun & Hg). exists w'. split_and!.
    + exact (comp_bind_run _ _ _ _ _ Hrun).
    + unfold quiet. rewrite Hg. cbn. split_and!; try done.
      unfold buf. rewrite !zlen_app, zlen_cons. unfold zlen in *. rewrite length_drop.
      unfold sizeof_BootFile in *. cbn [length]. lia.
    + unfold called. by rewrite Hg.
  - (* loadaddr *)
    assert (Hrun : on_loadaddr v op w = (_ ← set_load_addr (strtoul v 16); mret 0) w) by (by destruct op).
    eexists. split_and!.
    + exact (comp_bind_run _ _ _ _ _ Hrun).
    + unfold quiet. rewrite globals_set. cbn. split_and!; done.
    + unfold called. by rewrite globals_set.
  - exists w. done.
Qed.

(** Every variable has the attributes of the static lists, every other slot none. *)
Definition stamped_slot (s : slot) : Prop :=
  match live (cell s) with
  | Some (k, _) => e_callback (entry s) = static_callback k ∧ e_flags (entry s) = static_flags k
  | None => e_callback (entry s) = None ∧ e_flags (entry s) = 0
  end.

Definition stamped (t : hsearch_data) : Prop :=
  match table t with Some l => Forall stamped_slot l | None => True end.

Lemma stamped_empty p : stamped (empty_table p).
Proof. unfold stamped, empty_table. cbn [table]. by apply Forall_replicate. Qed.

Lemma stamped_put t i s n : stamped t → stamped_slot s → stamped (set_filled (put_slot t i s) n).
Proof.
  unfold stamped, set_filled, put_slot. cbn [table]. destruct (table t) as [l|]; [|done]. cbn.
  intros Hl Hs. by apply Forall_insert.
Qed.

Lemma filled_taken t : tab_ok t → filled t ≤ taken t.
Proof.
  intros (l & Hl & Hok). rewrite (c_filled _ _ _ Hok). unfold taken. rewrite Hl.
  generalize (cell <$> l). intros cs. induction cs as [|[[u pk] pd] cs IH]; [done|].
  cbn [omap list_omap fst]. destruct (live (u, pk, pd)) as [[k v]|] eqn:E.
  - apply live_Some in E as (u' & E & Hu). simplify_eq. rewrite (proj2 (Z.eqb_neq u' 0)) by lia.
    rewrite !zlen_cons. lia.
  - destruct (u =? 0); rewrite ?zlen_cons; lia.
Qed.

(** Overwriting an acceptable variable. *)
Lemma overwrite_quiet B t l k v flag i w : table t = Some l →
  cells_ok (cell <$> l) (size t) (filled t) → 1 ≤ i ≤ size t → matches t l k i →
  stamped t → acceptable B k v → quiet B w → (to_map t ≠ ∅ → called w) →
  ∃ t' w', compare_and_overwrite_entry k (Some v) ENTER t flag (first_hash (size t) k) i w =
    Ret (Hret i (Some i) 0, t', w') ∧ stamped t' ∧ quiet B w' ∧ called w'.
Proof.
  intros Hl Hok Hi (s & Hs & Hu & Hk) Hst Hacc Hq Hcl.
  destruct (matches_lookup t l Hl Hok k i s) as (v0 & Hv0 & Hm0 & _); [lia|done|done|done|].
  assert (Hca : called w) by (apply Hcl; intros E; by rewrite E, lookup_empty in Hm0).
  assert (Hh := first_hash_range (size t) (c_size _ _ _ Hok) k). assert (Hsz := c_size _ _ _ Hok).
  assert (Hlive : live (cell s) = Some (k, v0)).
  { apply live_Some. exists (used s). unfold cell. rewrite Hk, Hv0. split; [done|lia]. }
  assert (Hss : stamped_slot s).
  { unfold stamped in Hst. rewrite Hl in Hst. by eapply Forall_lookup_1. }
  unfold stamped_slot in Hss. rewrite Hlive in Hss. destruct Hss as [Hcb Hfl].
  unfold compare_and_overwrite_entry.
  assert (Hsl := slot_at_lookup t l i s Hl ltac:(lia) Hs).
  erewrite comp_bind_run by (apply lift_run; exact Hsl). cbn beta.
  rewrite Hu, u32_small, Z.eqb_refl by (split; lia). cbn [negb].
  erewrite comp_bind_run by (apply lift_run; by rewrite Hk). cbn beta.
  rewrite bool_decide_eq_true_2 by done. cbn [negb].
  erewrite comp_bind_run by (eapply (permission_quiet B); eauto; done). cbn beta. cbn [Z.eqb negb].
  destruct (callback_quiet B (entry s) k v env_op_overwrite flag t w) as (w1 & Hc & Hq1 & Hca1); [done|done|done|done|].
  erewrite comp_bind_run by exact Hc. cbn beta iota. cbn [Z.eqb negb].
  erewrite comp_bind_run by (apply lift_run; exact Hsl). cbn beta.
  erewrite comp_bind_run by (apply lift_run; by rewrite Hv0). cbn beta.
  destruct (strdup_quiet B v w1 Hq1) as (w2 & Hd & Hq2 & Hca2).
  erewrite comp_bind_run by exact Hd. cbn beta iota zeta.
  eexists _, w2. split_and!; [reflexivity| |done|by auto].
  change (put_slot t i ?x) with (set_filled (put_slot t i x) (filled t)). apply stamped_put; [done|].
  unfold stamped_slot. cbn [entry e_callback e_flags]. unfold cell. cbn [used entry e_key e_data].
  rewrite Hu, Hk. unfold live. rewrite (proj2 (Z.gtb_lt _ _)) by lia. done.
Qed.

(** The slot of a new variable after it is entered. *)
Definition entered (sz : Z) (k v : bytes) : slot :=
  Slot (first_hash sz k) (Entry (Str k) (Str v) (static_callback k) (static_flags k)).

(** Entering a new acceptable variable in a slot that has no callback and no flags. *)
Lemma enter_new_run B t l k v flag i s w : table t = Some l →
  cells_ok (cell <$> l) (size t) (filled t) → 1 ≤ i ≤ size t → l !! Z.to_nat i = Some s →
  e_callback (entry s) = None → e_flags (entry s) = 0 → filled t < size t →
  acceptable B k v → quiet B w →
  ∃ w', enter_new k (Some v) t flag (first_hash (size t) k) i w =
    Ret (Hret 1 (Some i) 0, set_filled (put_slot t i (entered (size t) k v)) (filled t + 1), w')
    ∧ quiet B w' ∧ called w'.
Proof.
  intros Hl Hok Hi Hs Hcb0 Hfl0 Hfill Hacc Hq. unfold enter_new.
  rewrite (proj2 (Z.eqb_neq (filled t) (size t))) by lia.
  assert (Hsz := c_size _ _ _ Hok). assert (Hh := first_hash_range (size t) Hsz k).
  assert (Hfr := filled_range t (ex_intro _ _ (conj Hl Hok))).
  destruct (slot_at_cell t l i Hl Hok) as (s' & Hsl & Hs'); [lia|].
  rewrite Hs in Hs'. injection Hs' as <-.
  erewrite comp_bind_run by (apply lift_run; exact Hsl). cbn beta. rewrite Hcb0, Hfl0.
  destruct (strdup_quiet B k w Hq) as (w1 & Hd1 & Hq1 & _). erewrite comp_bind_run by exact Hd1. cbn beta.
  destruct (strdup_quiet B v w1 Hq1) as (w2 & Hd2 & Hq2 & _). erewrite comp_bind_run by exact Hd2. cbn beta iota zeta.
  assert (Hn : named k) by apply Hacc.
  match goal with |- context [(env_callback_init ?t1 ?e ≫= _) w2] =>
    destruct (callback_init_quiet B t1 e k w2 Hq2) as (w3 & Hcb & Hq3 & Hf3); [done..|] end.
  erewrite comp_bind_run by exact Hcb. cbn beta.
  match goal with |- context [(env_flags_init ?t1 ?e ≫= _) w3] =>
    destruct (flags_init_quiet B t1 e k w3 Hq3) as (w4 & Hfl & Hq4 & Hf4 & Hc4); [done..|] end.
  erewrite comp_bind_run by exact Hfl. cbn beta.
  erewrite comp_bind_run by (eapply (permission_quiet B); [|exact Hacc|done|done]; done). cbn beta. cbn [Z.eqb negb].
  match goal with |- context [call_callback ?e k (Str v) env_op_create flag ?t1] =>
    destruct (callback_quiet B e k v env_op_create flag t1 w4) as (w5 & Hc & Hq5 & Hca) end; [done|done|done|done|].
  erewrite comp_bind_run by exact Hc. cbn beta iota. cbn [Z.eqb negb].
  eexists w5. split_and!; [|done|apply Hca; split; congruence].
  rewrite !put_set_filled, !put_put. unfold entered. rewrite s32_small by lia.
  cbn [filled set_filled put_slot]. rewrite (u32_small (filled t + 1)) by (unfold is_u32; lia). reflexivity.
Qed.

(** Entering a new acceptable variable in a slot that holds none. *)
Lemma enter_new_quiet B t l k v flag i w : table t = Some l →
  cells_ok (cell <$> l) (size t) (filled t) → 1 ≤ i ≤ size t →
  used_at (cell <$> l) i = 0 ∨ used_at (cell <$> l) i = -1 → filled t < size t →
  stamped t → acceptable B k v → quiet B w →
  ∃ t' w', enter_new k (Some v) t flag (first_hash (size t) k) i w =
    Ret (Hret 1 (Some i) 0, t', w') ∧ stamped t' ∧ quiet B w' ∧ called w'.
Proof.
  intros Hl Hok Hi Hu Hfill Hst Hacc Hq.
  assert (Hh := first_hash_range (size t) (c_size _ _ _ Hok) k).
  destruct (slot_at_cell t l i Hl Hok) as (s & Hsl & Hs); [lia|]. rewrite (slot_used l i s Hs) in Hu.
  assert (Hss : stamped_slot s).
  { unfold stamped in Hst. rewrite Hl in Hst. by eapply Forall_lookup_1. }
  assert (Hlive : live (cell s) = None).
  { destruct (live (cell s)) as [[k' v']|] eqn:E; [|done]. apply live_Some in E as (u & E & ?).
    unfold cell in E. injection E as E _ _. lia. }
  unfold stamped_slot in Hss. rewrite Hlive in Hss. destruct Hss as [Hcb Hfl].
  destruct (enter_new_run B t l k v flag i s w) as (w' & Hr & Hq' & Hca); auto.
  eexists _, w'. split_and!; [exact Hr| |done|done].
  apply stamped_put; [done|]. unfold stamped_slot, entered, cell. cbn [used entry e_key e_data e_callback e_flags].
  unfold live. rewrite (proj2 (Z.gtb_lt _ _)) by lia. done.
Qed.

(** The table and the world while variables are entered: as soon as there is one
    the lists were looked for. *)
Definition settling (B : Z) (t : hsearch_data) (w : W) : Prop :=
  stamped t ∧ quiet B w ∧ (to_map t ≠ ∅ → called w).

(** Such a variable can be entered into every table with room. *)
Lemma acceptable_enters B flag e : acceptable B e.1 e.2 → enters (settling B) flag e.
Proof.
  intros Hacc t w Ht Hroom (Hst & Hq & Hcl). assert (Hft := filled_taken t Ht). destruct Ht as (l & Hl & Hok).
  destruct (hsearch_cases t l Hl Hok e.1 (Some e.2) ENTER flag w)
    as [(i & Hi & Hm & Heq)|(Hno & i & (Hi & _ & Hfor) & Heq)].
  - destruct (overwrite_quiet B t l e.1 e.2 flag i w) as (t' & w' & Hr & Hst' & Hq' & Hca); auto.
    exists i, i, t', w'. split; [by rewrite Heq|]. by split_and!.
  - destruct Hfor as [[Hu Hreach]|(-> & Hu & Hall)].
    + destruct (enter_new_quiet B t l e.1 e.2 flag i w) as (t' & w' & Hr & Hst' & Hq' & Hca); auto; [lia|].
      exists 1, i, t', w'. split; [by rewrite Heq|]. by split_and!.
    + exfalso. destruct (taken_unused t l Hl Hok Hroom) as (j & Hj & H0). by apply (Hall j Hj).
Qed.

Lemma settling_empty B p w : quiet B w → settling B (empty_table p) w.
Proof.
  intros Hq. split_and!; [apply stamped_empty|done|]. intros Hne. destruct Hne.
  unfold to_map, variables, empty_table. cbn [table]. rewrite fmap_replicate. by rewrite omap_replicate_None.
Qed.
End Board.
