(* ===== verification/UbootCrc.v ===== *)
(** * The CRC-32 of U-Boot (lib/crc32.c)

    The checksum of the environment image: bytes up to a word boundary, then
    whole words, then the remaining bytes.  Whatever the alignment of the buffer
    it is the checksum that libavb computes byte by byte. *)

From S2P Require Import Prelude Crc32.

Definition crc_table : list Z :=
  [0x00000000; 0x77073096; 0xee0e612c; 0x990951ba; 0x076dc419; 0x706af48f;
   0xe963a535; 0x9e6495a3; 0x0edb8832; 0x79dcb8a4; 0xe0d5e91e; 0x97d2d988;
   0x09b64c2b; 0x7eb17cbd; 0xe7b82d07; 0x90bf1d91; 0x1db71064; 0x6ab020f2;
   0xf3b97148; 0x84be41de; 0x1adad47d; 0x6ddde4eb; 0xf4d4b551; 0x83d385c7;
   0x136c9856; 0x646ba8c0; 0xfd62f97a; 0x8a65c9ec; 0x14015c4f; 0x63066cd9;
   0xfa0f3d63; 0x8d080df5; 0x3b6e20c8; 0x4c69105e; 0xd56041e4; 0xa2677172;
   0x3c03e4d1; 0x4b04d447; 0xd20d85fd; 0xa50ab56b; 0x35b5a8fa; 0x42b2986c;
   0xdbbbc9d6; 0xacbcf940; 0x32d86ce3; 0x45df5c75; 0xdcd60dcf; 0xabd13d59;
   0x26d930ac; 0x51de003a; 0xc8d75180; 0xbfd06116; 0x21b4f4b5; 0x56b3c423;
   0xcfba9599; 0xb8bda50f; 0x2802b89e; 0x5f058808; 0xc60cd9b2; 0xb10be924;
   0x2f6f7c87; 0x58684c11; 0xc1611dab; 0xb6662d3d; 0x76dc4190; 0x01db7106;
   0x98d220bc; 0xefd5102a; 0x71b18589; 0x06b6b51f; 0x9fbfe4a5; 0xe8b8d433;
   0x7807c9a2; 0x0f00f934; 0x9609a88e; 0xe10e9818; 0x7f6a0dbb; 0x086d3d2d;
   0x91646c97; 0xe6635c01; 0x6b6b51f4; 0x1c6c6162; 0x856530d8; 0xf262004e;
   0x6c0695ed; 0x1b01a57b; 0x8208f4c1; 0xf50fc457; 0x65b0d9c6; 0x12b7e950;
   0x8bbeb8ea; 0xfcb9887c; 0x62dd1ddf; 0x15da2d49; 0x8cd37cf3; 0xfbd44c65;
   0x4db26158; 0x3ab551ce; 0xa3bc0074; 0xd4bb30e2; 0x4adfa541; 0x3dd895d7;
   0xa4d1c46d; 0xd3d6f4fb; 0x4369e96a; 0x346ed9fc; 0xad678846; 0xda60b8d0;
   0x44042d73; 0x33031de5; 0xaa0a4c5f; 0xdd0d7cc9; 0x5005713c; 0x270241aa;
   0xbe0b1010; 0xc90c2086; 0x5768b525; 0x206f85b3; 0xb966d409; 0xce61e49f;
   0x5edef90e; 0x29d9c998; 0xb0d09822; 0xc7d7a8b4; 0x59b33d17; 0x2eb40d81;
   0xb7bd5c3b; 0xc0ba6cad; 0xedb88320; 0x9abfb3b6; 0x03b6e20c; 0x74b1d29a;
   0xead54739; 0x9dd277af; 0x04db2615; 0x73dc1683; 0xe3630b12; 0x94643b84;
   0x0d6d6a3e; 0x7a6a5aa8; 0xe40ecf0b; 0x9309ff9d; 0x0a00ae27; 0x7d079eb1;
   0xf00f9344; 0x8708a3d2; 0x1e01f268; 0x6906c2fe; 0xf762575d; 0x806567cb;
   0x196c3671; 0x6e6b06e7; 0xfed41b76; 0x89d32be0; 0x10da7a5a; 0x67dd4acc;
   0xf9b9df6f; 0x8ebeeff9; 0x17b7be43; 0x60b08ed5; 0xd6d6a3e8; 0xa1d1937e;
   0x38d8c2c4; 0x4fdff252; 0xd1bb67f1; 0xa6bc5767; 0x3fb506dd; 0x48b2364b;
   0xd80d2bda; 0xaf0a1b4c; 0x36034af6; 0x41047a60; 0xdf60efc3; 0xa867df55;
   0x316e8eef; 0x4669be79; 0xcb61b38c; 0xbc66831a; 0x256fd2a0; 0x5268e236;
   0xcc0c7795; 0xbb0b4703; 0x220216b9; 0x5505262f; 0xc5ba3bbe; 0xb2bd0b28;
   0x2bb45a92; 0x5cb36a04; 0xc2d7ffa7; 0xb5d0cf31; 0x2cd99e8b; 0x5bdeae1d;
   0x9b64c2b0; 0xec63f226; 0x756aa39c; 0x026d930a; 0x9c0906a9; 0xeb0e363f;
   0x72076785; 0x05005713; 0x95bf4a82; 0xe2b87a14; 0x7bb12bae; 0x0cb61b38;
   0x92d28e9b; 0xe5d5be0d; 0x7cdcefb7; 0x0bdbdf21; 0x86d3d2d4; 0xf1d4e242;
   0x68ddb3f8; 0x1fda836e; 0x81be16cd; 0xf6b9265b; 0x6fb077e1; 0x18b74777;
   0x88085ae6; 0xff0f6a70; 0x66063bca; 0x11010b5c; 0x8f659eff; 0xf862ae69;
   0x616bffd3; 0x166ccf45; 0xa00ae278; 0xd70dd2ee; 0x4e048354; 0x3903b3c2;
   0xa7672661; 0xd06016f7; 0x4969474d; 0x3e6e77db; 0xaed16a4a; 0xd9d65adc;
   0x40df0b66; 0x37d83bf0; 0xa9bcae53; 0xdebb9ec5; 0x47b2cf7f; 0x30b5ffe9;
   0xbdbdf21c; 0xcabac28a; 0x53b39330; 0x24b4a3a6; 0xbad03605; 0xcdd70693;
   0x54de5729; 0x23d967bf; 0xb3667a2e; 0xc4614ab8; 0x5d681b02; 0x2a6f2b94;
   0xb40bbe37; 0xc30c8ea1; 0x5a05df1b; 0x2d02ef8d].

(** [DO_CRC] on a little-endian machine *)
Definition do_crc (crc x : Z) : Z :=
  Z.lxor (crc_table !!! Z.to_nat (Z.land (Z.lxor crc x) 255)) (Z.shiftr crc 8).

Definition do_crc_bytes (crc : Z) (p : bytes) : Z := foldl do_crc crc p.

(** The loop over words: a word is taken into the register at once. *)
Fixpoint do_crc_words (n : nat) (crc : Z) (b : bytes) : Z :=
  match n with
  | O => crc
  | S n =>
      let crc := Z.lxor crc (le_decode (take 4 b)) in
      do_crc_words n (do_crc (do_crc (do_crc (do_crc crc 0) 0) 0) 0) (drop 4 b)
  end.

(** [align] is the address of the buffer modulo 4. *)
Definition crc32_no_comp (align crc : Z) (buf : bytes) : Z :=
  let head := if align =? 0 then 0%nat else Z.to_nat (4 - align) in
  let crc := do_crc_bytes crc (take head buf) in
  let b := drop head buf in
  let words := Nat.div (length b) 4 in
  let crc := do_crc_words words crc b in
  do_crc_bytes crc (drop (4 * words) b).

Definition crc32 (align crc : Z) (p : bytes) : Z :=
  Z.lxor (crc32_no_comp align (Z.lxor crc 0xffffffff) p) 0xffffffff.

(** ** The word loop is the byte loop *)

Lemma crc_table_same : crc_table = iavb_crc32_tab.
Proof. vm_compute. reflexivity. Qed.

Lemma do_crc_step c b : 0 ≤ c → is_u8 b → do_crc c b = crc_byte (Z.lxor c b).
Proof. intros Hc Hb. unfold do_crc. rewrite crc_table_same. by apply crc_step. Qed.

Lemma do_crc_zero c : 0 ≤ c → do_crc c 0 = crc_byte c.
Proof. intros Hc. rewrite do_crc_step by (done || split; lia). by rewrite Z.lxor_0_r. Qed.

Lemma crc_byte_nonneg c : 0 ≤ c → 0 ≤ crc_byte c.
Proof.
  assert (Hbit : ∀ x, 0 ≤ x → 0 ≤ crc_bit x).
  { intros x Hx. unfold crc_bit. apply Z.lxor_nonneg. split; intros _; [by destruct (Z.odd x)|by apply Z.shiftr_nonneg]. }
  intros Hc. unfold crc_byte. do 8 (simpl; apply Hbit). done.
Qed.

(** A byte above the register's lowest one comes in a step later. *)
Lemma crc_byte_shift c x : 0 ≤ x → crc_byte (Z.lxor c (Z.shiftl x 8)) = Z.lxor (crc_byte c) x.
Proof.
  intros Hx. unfold crc_byte. rewrite crc_bits_lxor. f_equal. by apply (crc_bits_shiftl 8).
Qed.

Lemma word_lxor b r : is_u8 b → 0 ≤ r → b + 256 * r = Z.lxor b (Z.shiftl r 8).
Proof.
  intros Hb Hr. rewrite (split_low_byte (b + 256 * r)). change 0xff with (2 ^ 8 - 1).
  rewrite land_ones_0, Z.shiftr_div_pow2 by lia. change (2 ^ 8) with 256. unfold is_u8 in Hb.
  replace ((b + 256 * r) mod 256) with b by (rewrite Z.mul_comm, Z.mod_add, Z.mod_small; lia).
  by replace ((b + 256 * r) / 256) with r by (rewrite Z.mul_comm, Z.div_add, Z.div_small; lia).
Qed.

(** One step with the byte [b] of a word whose rest is [r]. *)
Lemma crc_word_step c b r : 0 ≤ c → is_u8 b → 0 ≤ r →
  do_crc (Z.lxor c (b + 256 * r)) 0 = Z.lxor (do_crc c b) r.
Proof.
  intros Hc Hb Hr. assert (0 ≤ b) by (unfold is_u8 in Hb; lia).
  rewrite do_crc_zero by (apply Z.lxor_nonneg; split; intros; lia).
  rewrite word_lxor, <- Z.lxor_assoc, crc_byte_shift by done. by rewrite do_crc_step.
Qed.

Lemma do_crc_nonneg c b : 0 ≤ c → is_u8 b → 0 ≤ do_crc c b.
Proof.
  intros Hc Hb. rewrite do_crc_step by done. apply crc_byte_nonneg. unfold is_u8 in Hb.
  apply Z.lxor_nonneg. lia.
Qed.

Lemma crc_word c b0 b1 b2 b3 : 0 ≤ c → Forall is_u8 [b0; b1; b2; b3] →
  do_crc (do_crc (do_crc (do_crc (Z.lxor c (le_decode [b0; b1; b2; b3])) 0) 0) 0) 0 =
  do_crc_bytes c [b0; b1; b2; b3].
Proof.
  intros Hc Hb. rewrite !Forall_cons in Hb. destruct Hb as (H0 & H1 & H2 & H3 & _). unfold is_u8 in *.
  cbn [le_decode do_crc_bytes foldl].
  do 4 rewrite crc_word_step by (repeat apply do_crc_nonneg; unfold is_u8; lia).
  apply Z.lxor_0_r.
Qed.

Lemma do_crc_bytes_nonneg c p : 0 ≤ c → bytes_ok p → 0 ≤ do_crc_bytes c p.
Proof.
  intros Hc Hp. revert c Hc. induction Hp as [|b p Hb _ IH]; intros c Hc; [done|].
  cbn. apply IH. by apply do_crc_nonneg.
Qed.

Lemma do_crc_words_bytes n c b : 0 ≤ c → bytes_ok b → (4 * n ≤ length b)%nat →
  do_crc_words n c b = do_crc_bytes c (take (4 * n) b).
Proof.
  revert c b. induction n as [|n IH]; intros c b Hc Hb Hn; [done|].
  destruct b as [|b0 [|b1 [|b2 [|b3 b]]]]; cbn [length] in Hn; try lia.
  cbn [do_crc_words]. change (take 4 (b0 :: b1 :: b2 :: b3 :: b)) with [b0; b1; b2; b3].
  change (drop 4 (b0 :: b1 :: b2 :: b3 :: b)) with b.
  change (b0 :: b1 :: b2 :: b3 :: b) with ([b0; b1; b2; b3] ++ b) in *.
  apply Forall_app in Hb as [Hb4 Hb]. rewrite crc_word by done.
  rewrite IH; [|by apply do_crc_bytes_nonneg|done|lia].
  replace (4 * S n)%nat with (length [b0; b1; b2; b3] + 4 * n)%nat by (cbn; lia).
  rewrite take_app_add. unfold do_crc_bytes. by rewrite foldl_app.
Qed.

Lemma crc32_no_comp_bytes align crc buf : 0 ≤ crc → bytes_ok buf →
  crc32_no_comp align crc buf = do_crc_bytes crc buf.
Proof.
  intros Hc Hb. unfold crc32_no_comp. set (head := if align =? 0 then _ else _).
  rewrite do_crc_words_bytes; [|apply do_crc_bytes_nonneg; [done|by apply Forall_take]|by apply Forall_drop|].
  - unfold do_crc_bytes. rewrite <- !foldl_app, take_drop, take_drop. done.
  - apply Nat.Div0.mul_div_le.
Qed.

Lemma crc32_avb align buf : bytes_ok buf → crc32 align 0 buf = avb_crc32 buf.
Proof.
  intros Hb. unfold crc32, avb_crc32, iavb_crc32. f_equal.
  rewrite crc32_no_comp_bytes by (done || (cbn; lia)). unfold do_crc_bytes. generalize (Z.lxor 0 0xffffffff).
  induction buf as [|b buf IH]; intros c; [done|]. cbn [foldl iavb_crc32_loop].
  inversion Hb; subst. rewrite IH by done. unfold do_crc. by rewrite crc_table_same.
Qed.

(** Whatever the alignment of the buffer, the checksum U-Boot computes in
    words is the one libavb computes byte by byte, and with it the bit-by-bit
    CRC-32 of the reflected polynomial 0xEDB88320. *)
Theorem crc32_reference align buf : bytes_ok buf →
  crc32 align 0 buf = avb_crc32 buf ∧ crc32 align 0 buf = crc_reference buf.
Proof.
  intros Hb. rewrite (crc32_avb align buf Hb). split; [done|].
  unfold avb_crc32, iavb_crc32, crc_reference.
  by rewrite crc_loop_reference by (done || (cbn; split; lia)).
Qed.

Lemma crc32_reference_witness :
  crc32 1 0 (str "123456789") = 0xcbf43926 ∧ crc32 1 0 (str "123456789") = avb_crc32 (str "123456789").
Proof.
  split; [vm_compute; reflexivity|]. apply (crc32_reference 1 (str "123456789")).
  apply (bool_decide_unpack _). vm_compute. exact I.
Defined.
