(* ===== verification/EnvCmd.v ===== *)
(** * The environment: commands and storage
      (common/cmd_nvedit.c, common/env_common.c, common/env_storage.c,
       common/env_mmc.c)

    Setting and deleting variables from code and from the console, the default
    settings, and the image of the environment: its checksum, its import and
    export, and its place on the card.  The table [env_htab] is passed along. *)

From S2P Require Import Prelude PartTable CmdAvb MmcBlock Bootm UbootCrc HashTable EnvFlags EnvText.

Definition CMD_RET_USAGE := -1.

(** [ENV_SIZE]: the image without its checksum. *)
Definition ENV_SIZE := CONFIG_ENV_SIZE - 4.

(** [env_t]: the checksum and the data. *)
Record env_t := EnvImage { env_crc : Z; env_data : bytes }.

Definition env_bytes (e : env_t) : bytes := le_encode 4 (env_crc e) ++ env_data e.
Definition env_of_bytes (b : bytes) : env_t := EnvImage (le_decode (take 4 b)) (drop 4 b).

Section Cmd.
Context {W : Type} {HW : Heap W} {EW : EnvWorld W}.

(** ** Setting variables (cmd_nvedit.c) *)

(** The letters of an option; only [f] is known. *)
Fixpoint force_letters (arg : bytes) (env_flag : Z) : option Z :=
  match arg with
  | [] => Some env_flag
  | c :: arg => if c =? 102 then force_letters arg (Z.lor env_flag H_FORCE) else None
  end.

(** The loop over options; [argv] starts after the command's name. *)
Fixpoint set_options (argv : list bytes) (env_flag : Z) : option (Z * list bytes) :=
  match argv with
  | [] => Some (env_flag, [])
  | arg :: rest =>
      if char_at arg =? 45 then
        match force_letters (drop 1 arg) env_flag with
        | Some env_flag => set_options rest env_flag
        | None => None
        end
      else Some (env_flag, argv)
  end.

(** The arguments of a value, with a space between them. *)
Fixpoint join (args : list bytes) : bytes :=
  match args with
  | [] => []
  | [a] => a
  | a :: args => a ++ [32] ++ join args
  end.

Definition bump_env_id : comp W unit :=
  g ← get_globals;
  put_globals (EnvGlobals (gd_env_ready g) (gd_devinit g) (gd_env_valid g) (gd_env_addr g)
    (gd_env_buf g) (gd_baudrate g) (load_addr g) (BootFile g) (flags_first_call g)
    (flags_list g) (callback_first_call g) (callback_list g) (s32 (env_id g + 1))).

(** [_do_env_set]; [beyond] is the pointer that follows the last argument. *)
Definition _do_env_set (argv : list bytes) (beyond : option bytes) (env_htab : hsearch_data)
    : comp W (Z * hsearch_data) :=
  match set_options (drop 1 argv) H_INTERACTIVE with
  | None => mret (CMD_RET_USAGE, env_htab)
  | Some (env_flag, args) =>
      match (head args, beyond) with
      | (None, None) => null_deref
      | (Some name, _) | (None, Some name) =>
          if existsb (Z.eqb 61) name then mret (1, env_htab)
          else
            _ ← bump_env_id;
            match drop 1 args with
            | [] =>
                '(rc, _, env_htab) ← hdelete_r name env_htab env_flag;
                mret (if rc =? 0 then 1 else 0, env_htab)
            | args =>
                let value := join args in
                ok ← malloc (zlen value + 1);
                if negb (ok : bool) then mret (1, env_htab)
                else
                  '(r, env_htab) ← hsearch_r name (Some value) ENTER env_htab env_flag;
                  mret (match h_val r with None => 1 | Some _ => 0 end, env_htab)
            end
      end
  end.

Definition setenv (varname : bytes) (varvalue : option bytes) (env_htab : hsearch_data)
    : comp W (Z * hsearch_data) :=
  g ← get_globals;
  if negb (gd_env_ready g) then mret (1, env_htab)
  else
    match varvalue with
    | None | Some [] => _do_env_set [str "setenv"; varname] varvalue env_htab
    | Some v => _do_env_set [str "setenv"; varname; v] None env_htab
    end.

Definition setenv_ulong (varname : bytes) (value : Z) (env_htab : hsearch_data)
    : comp W (Z * hsearch_data) :=
  setenv varname (Some (dec_of_Z value)) env_htab.

Definition setenv_hex (varname : bytes) (value : Z) (env_htab : hsearch_data)
    : comp W (Z * hsearch_data) :=
  setenv varname (Some (hex_of_Z value)) env_htab.

(** The string [getenv] returns a pointer to. *)
Definition env_value (name : bytes) (env_htab : hsearch_data) : comp W (option bytes) :=
  p ← getenv env_htab name; env_string env_htab p.

Definition getenv_ulong (name : bytes) (base default_val : Z) (env_htab : hsearch_data)
    : comp W Z :=
  s ← env_value name env_htab;
  mret (match s with Some s => strtoul s base | None => default_val end).

(** The number is taken from the variable unless it is missing, starts with no
    digit, or is zero. *)
Definition getenv_hex (varname : bytes) (default_val : Z) (env_htab : hsearch_data) : comp W Z :=
  s ← env_value varname env_htab;
  mret (match s with
        | None => default_val
        | Some s =>
            let '(value, endp) := simple_strtoul s in
            if (zlen endp =? zlen s) || (value <=? 0) then default_val else value
        end).

Definition getenv_yesno (var : bytes) (env_htab : hsearch_data) : comp W Z :=
  s ← env_value var env_htab;
  mret (match s with
        | None => -1
        | Some s =>
            let c := char_at s in
            if (c =? 49) || (c =? 121) || (c =? 89) || (c =? 116) || (c =? 84) then 1 else 0
        end).

Definition do_env_set (argv : list bytes) (env_htab : hsearch_data) : comp W (Z * hsearch_data) :=
  if zlen argv <? 2 then mret (CMD_RET_USAGE, env_htab) else _do_env_set argv None env_htab.

Fixpoint delete_names (names : list bytes) (env_htab : hsearch_data) (env_flag ret : Z)
    : comp W (Z * hsearch_data) :=
  match names with
  | [] => mret (ret, env_htab)
  | name :: names =>
      '(rc, _, env_htab) ← hdelete_r name env_htab env_flag;
      delete_names names env_htab env_flag (if rc =? 0 then 1 else ret)
  end.

Definition do_env_delete (argv : list bytes) (env_htab : hsearch_data)
    : comp W (Z * hsearch_data) :=
  match set_options (drop 1 argv) H_INTERACTIVE with
  | None => mret (CMD_RET_USAGE, env_htab)
  | Some (env_flag, names) =>
      _ ← bump_env_id;
      delete_names names env_htab env_flag 0
  end.

(** ** The default settings (env_common.c) *)

Definition set_env_ready : comp W unit :=
  g ← get_globals; set_ready_valid true (gd_env_valid g).

(** [set_default_env]; a message that starts with an exclamation mark is a
    warning, another one makes the import interactive. *)
Definition set_default_env (s : option bytes) (env_htab : hsearch_data) : comp W hsearch_data :=
  if ENV_SIZE <? zlen default_environment then mret env_htab
  else
    let flags := match s with
                 | Some s => if char_at s =? 33 then 0 else H_INTERACTIVE
                 | None => 0
                 end in
    '(_, env_htab) ← himport_r env_htab default_environment (zlen default_environment) 0 flags
                       false [];
    _ ← set_env_ready;
    mret env_htab.

Definition set_default_vars (vars : list bytes) (env_htab : hsearch_data)
    : comp W (Z * hsearch_data) :=
  himport_r env_htab default_environment (zlen default_environment) 0
    (Z.lor H_NOCLEAR H_INTERACTIVE) false vars.

(** The options of [env default]: whether [-a] was given.  [-f] is accepted,
    and the flag it sets is used for nothing.  [cmd_usage] returns 1. *)
Fixpoint default_letters (arg : bytes) (all : bool) : option bool :=
  match arg with
  | [] => Some all
  | c :: arg =>
      if c =? 97 then default_letters arg true
      else if c =? 102 then default_letters arg all
      else None
  end.

Fixpoint default_options (argv : list bytes) (all : bool) : option (bool * list bytes) :=
  match argv with
  | [] => Some (all, [])
  | arg :: rest =>
      if char_at arg =? 45 then
        match default_letters (drop 1 arg) all with
        | Some all => default_options rest all
        | None => None
        end
      else Some (all, argv)
  end.

Definition do_env_default (argv : list bytes) (env_htab : hsearch_data)
    : comp W (Z * hsearch_data) :=
  match default_options (drop 1 argv) false with
  | None => mret (1, env_htab)
  | Some (true, []) =>
      env_htab ← set_default_env (Some (str "## Resetting to default environment")) env_htab;
      mret (0, env_htab)
  | Some (false, (_ :: _) as vars) =>
      '(_, env_htab) ← set_default_vars vars env_htab;
      mret (0, env_htab)
  | Some _ => mret (1, env_htab)
  end.

(** ** The image (env_common.c) *)

(** [env_export] into an image whose data has not been initialised; the data
    follows the checksum of four bytes in an aligned buffer. *)
Definition env_export (env_htab : hsearch_data) (env_out : env_t) : comp W (Z * env_t) :=
  '(len, res) ← hexport_r env_htab 0 0 (Some (env_data env_out)) ENV_SIZE [];
  match res with
  | Some data =>
      if len <? 0 then mret (1, EnvImage (env_crc env_out) data)
      else mret (0, EnvImage (crc32 0 0 data) data)
  | None => mret (1, env_out)
  end.

(** The check of [env_import]; [align] is the address of the data modulo four. *)
Definition env_checks (align : Z) (ep : env_t) : run bool :=
  data ← rd (env_data ep) 0 ENV_SIZE;
  Ret (crc32 align 0 data =? env_crc ep).

(** [env_import]; [save] is the command [saveenv] it runs after a bad checksum. *)
Definition env_import (save : hsearch_data → comp W Z) (align : Z) (buf : bytes) (check : bool)
    (env_htab : hsearch_data) : comp W (Z * hsearch_data) :=
  let ep := env_of_bytes buf in
  good ← (if check then lift (env_checks align ep) else mret true);
  if negb good then
    env_htab ← set_default_env (Some (str "!bad CRC")) env_htab;
    _ ← save env_htab;
    mret (0, env_htab)
  else
    '(ok, env_htab) ← himport_r env_htab (env_data ep) ENV_SIZE 0 0 false [];
    if negb (ok =? 0) then
      _ ← set_env_ready;
      mret (1, env_htab)
    else
      env_htab ← set_default_env (Some (str "!import failed")) env_htab;
      mret (0, env_htab).

(** ** On the card (env_storage.c, env_mmc.c) *)

Section Card.
Context {MH : MmcHost W} (mmc_devices : list mmc) (key_area : option (Z * Z)) (info_disprotect : Z).

(** Whether the card was initialised, how it is when it was not, the tables of
    partitions, and the medium of the board. *)
Context (has_init : mmc → bool) (bring_up : mmc → comp W Z).
Context (parts : tables) (device_boot_flag : Z).

Definition mmc_init (m : mmc) : comp W Z := if has_init m then mret 0 else bring_up m.

Definition CONFIG_SYS_MMC_ENV_DEV := 1.

(** [mmc_get_env_addr]: the address is kept in 32 bits. *)
Definition mmc_get_env_addr (m : mmc) : run (option Z) :=
  part ← find_mmc_partition_by_name parts (str "env");
  match part with
  | None => Ret None
  | Some part =>
      let offset := s64 (pt_offset part) in
      let offset := if offset <? 0 then s64 (offset + capacity m) else offset in
      Ret (Some (u32 offset))
  end.

Definition init_mmc_for_env (m : option mmc) : comp W Z :=
  match m with
  | None => mret (-1)
  | Some m => e ← mmc_init m; mret (if e =? 0 then 0 else -1)
  end.

(** [ALIGN(x, a) / a] for a power of two [a]. *)
Definition blocks_up (x a : Z) : Z := u32 (Z.land (x + (a - 1)) (Z.lnot (a - 1)) / a).

Definition write_env (m : mmc) (size_ offset : Z) (buffer : bytes) : comp W Z :=
  let blk_cnt := blocks_up size_ (write_bl_len m) in
  n ← mmc_bwrite mmc_devices key_area info_disprotect CONFIG_SYS_MMC_ENV_DEV
        (blocks_up offset (write_bl_len m)) blk_cnt buffer;
  mret (if u32 n =? blk_cnt then 0 else -1).

Definition read_env (m : mmc) (size_ offset : Z) : comp W (Z * bytes) :=
  let blk_cnt := blocks_up size_ (read_bl_len m) in
  '(n, buf) ← mmc_bread mmc_devices key_area info_disprotect CONFIG_SYS_MMC_ENV_DEV
                (blocks_up offset (read_bl_len m)) blk_cnt;
  mret (if u32 n =? blk_cnt then 0 else -1, buf).

(** [mmc_saveenv]; [stack] is what the image's data held before. *)
Definition mmc_saveenv (stack : bytes) (env_htab : hsearch_data) : comp W Z :=
  let m := find_mmc_device mmc_devices CONFIG_SYS_MMC_ENV_DEV in
  e ← init_mmc_for_env m;
  if negb (e =? 0) then mret 1
  else
    '(ret, env_new) ← env_export env_htab (EnvImage 0 stack);
    if negb (ret =? 0) then mret ret
    else
      match m with
      | None => null_deref
      | Some m =>
          addr ← lift (mmc_get_env_addr m);
          match addr with
          | None => mret 1
          | Some offset =>
              e ← write_env m CONFIG_ENV_SIZE offset (env_bytes env_new);
              mret (if negb (e =? 0) then 1 else 0)
          end
      end.

Definition saveenv (stack : bytes) (env_htab : hsearch_data) : comp W Z :=
  if device_boot_flag =? EMMC_BOOT_FLAG then mmc_saveenv stack env_htab else mret (-1).

(** [mmc_env_relocate_spec] on a board with [CONFIG_NO_ENV_PART]: the card is
    initialised, and the default settings are used. *)
Definition mmc_env_relocate_spec (env_htab : hsearch_data) : comp W hsearch_data :=
  _ ← init_mmc_for_env (find_mmc_device mmc_devices CONFIG_SYS_MMC_ENV_DEV);
  set_default_env None env_htab.

(** The same function on a board with an environment partition. *)
Definition mmc_env_relocate_part (stack : bytes) (env_htab : hsearch_data) : comp W hsearch_data :=
  let m := find_mmc_device mmc_devices CONFIG_SYS_MMC_ENV_DEV in
  e ← init_mmc_for_env m;
  if negb (e =? 0) then set_default_env None env_htab
  else
    match m with
    | None => null_deref
    | Some m =>
        addr ← lift (mmc_get_env_addr m);
        match addr with
        | None => set_default_env None env_htab
        | Some offset =>
            '(e, buf) ← read_env m CONFIG_ENV_SIZE offset;
            if negb (e =? 0) then set_default_env None env_htab
            else
              '(_, env_htab) ← env_import (saveenv stack) 0 buf true env_htab;
              mret env_htab
        end
    end.

Definition env_relocate_spec (env_htab : hsearch_data) : comp W hsearch_data :=
  if device_boot_flag =? EMMC_BOOT_FLAG then mmc_env_relocate_spec env_htab else mret env_htab.

Definition env_relocate (env_htab : hsearch_data) : comp W hsearch_data :=
  g ← get_globals;
  if gd_env_valid g =? 0 then set_default_env (Some (str "!bad CRC")) env_htab
  else env_relocate_spec env_htab.

Definition env_init : comp W Z :=
  g ← get_globals;
  _ ← put_globals (EnvGlobals (gd_env_ready g) (gd_devinit g) 1 default_environment
        (gd_env_buf g) (gd_baudrate g) (load_addr g) (BootFile g) (flags_first_call g)
        (flags_list g) (callback_first_call g) (callback_list g) (env_id g));
  mret 0.

Definition do_env_save (stack : bytes) (env_htab : hsearch_data) : comp W (Z * hsearch_data) :=
  e ← saveenv stack env_htab; mret (if e =? 0 then 0 else 1, env_htab).

(** ** The command env and its subcommands of this configuration *)

(** [env_print] of one variable: whether a line is printed. *)
Definition env_print_one (name : bytes) (env_htab : hsearch_data) (flag : Z) : comp W bool :=
  '(r, env_htab) ← hsearch_r name None FIND env_htab flag;
  match h_val r with
  | None => mret false
  | Some idx =>
      s ← lift (slot_at env_htab idx);
      _ ← lift (deref (e_key (entry s)));
      _ ← lift (deref (e_data (entry s)));
      mret true
  end.

Definition env_print_all (env_htab : hsearch_data) (flag : Z) : comp W Z :=
  '(len, _) ← hexport_r env_htab 10 flag None 0 [];
  mret (if len >? 0 then len else 0).

Fixpoint print_names (names : list bytes) (env_htab : hsearch_data) (flag rcode : Z) : comp W Z :=
  match names with
  | [] => mret rcode
  | name :: names =>
      rc ← env_print_one name env_htab flag;
      print_names names env_htab flag (if rc : bool then rcode else rcode + 1)
  end.

Definition do_env_print (argv : list bytes) (env_htab : hsearch_data) : comp W (Z * hsearch_data) :=
  let '(env_flag, names) :=
    match drop 1 argv with
    | arg :: rest =>
        if (char_at arg =? 45) && (char_at (drop 1 arg) =? 97) then (0, rest)
        else (H_HIDE_DOT, arg :: rest)
    | [] => (H_HIDE_DOT, [])
    end in
  match names with
  | [] => rc ← env_print_all env_htab env_flag; mret (if rc =? 0 then 1 else 0, env_htab)
  | _ =>
      rcode ← print_names names env_htab 0 0;
      mret (rcode, env_htab)
  end.

(** The loop of [do_run] over variables, whose values go to the shell. *)
Fixpoint run_names (run_command : bytes → hsearch_data → comp W (Z * hsearch_data))
    (names : list bytes) (env_htab : hsearch_data) : comp W (Z * hsearch_data) :=
  match names with
  | [] => mret (0, env_htab)
  | name :: names =>
      arg ← env_value name env_htab;
      match arg with
      | None => mret (1, env_htab)
      | Some arg =>
          '(rc, env_htab) ← run_command arg env_htab;
          if negb (rc =? 0) then mret (1, env_htab) else run_names run_command names env_htab
      end
  end.

Definition do_run (run_command : bytes → hsearch_data → comp W (Z * hsearch_data))
    (argv : list bytes) (env_htab : hsearch_data) : comp W (Z * hsearch_data) :=
  if zlen argv <? 2 then mret (CMD_RET_USAGE, env_htab)
  else run_names run_command (drop 1 argv) env_htab.

Definition do_env (stack : bytes) (run_command : bytes → hsearch_data → comp W (Z * hsearch_data))
    (argv : list bytes) (env_htab : hsearch_data) : comp W (Z * hsearch_data) :=
  let cmd_env_sub :=
    [(str "default", do_env_default); (str "delete", do_env_delete); (str "print", do_env_print);
     (str "run", do_run run_command); (str "save", fun _ => do_env_save stack);
     (str "set", do_env_set)] in
  if zlen argv <? 2 then mret (CMD_RET_USAGE, env_htab)
  else
    match find_cmd_tbl (head (drop 1 argv)) cmd_env_sub with
    | Some cp => cp (drop 1 argv) env_htab
    | None => mret (CMD_RET_USAGE, env_htab)
    end.
End Card.
End Cmd.
