(* ===== verification/EnvStore.v ===== *)
(** * The environment as a map, and on the card

    [setenv] and [getenv] on the hash table are insertion, deletion and lookup
    of a finite map.  An environment that was saved is the same after it was
    loaded, and a damaged image is replaced by the default settings; on this
    board the card is never read. *)

From S2P Require Import Prelude PartTable BootCtl MmcBlock Bootm Crc32 UbootCrc HashTable HashSpec EnvFlags EnvFlagsSpec EnvText EnvTextSpec EnvBoard EnvCmd.

(** ** Variables *)

(** A name that [setenv] takes for a name. *)
Definition plain (k : bytes) : Prop := char_at k ≠ 45 ∧ Forall (λ c, c ≠ 61) k.

Lemma set_options_plain k args flag : char_at k ≠ 45 → set_options (k :: args) flag = Some (flag, k :: args).
Proof. intros Hk. cbn [set_options]. by rewrite (proj2 (Z.eqb_neq _ _) Hk). Qed.

Lemma plain_no_equals k : plain k → existsb (Z.eqb 61) k = false.
Proof.
  intros [_ Hk]. induction Hk as [|c k Hc _ IH]; [done|]. cbn [existsb].
  by rewrite (proj2 (Z.eqb_neq 61 c)) by done.
Qed.

Section Variables.
Context {W : Type} {HW : Heap W} {EW : EnvWorld W} {QW : QuietWorld W}.

Definition env_ready (w : W) : Prop := gd_env_ready (env_globals_of w) = true.

(** [getenv] is the lookup of the map. *)
Lemma env_value_lookup t k w : tab_ok t → env_ready w → env_value k t w = Ret (to_map t !! k, w).
Proof.
  intros Ht Hw. unfold env_value, getenv.
  destruct (hfind_spec (HH := no_hooks) t k None 0 w Ht) as (r & Hr & Hres).
  assert (Hg : getenv t k w = Ret (match to_map t !! k with Some v => PVar (h_ret r) v | None => PNull end, w)).
  { unfold getenv. erewrite comp_bind_run by apply get_globals_run. cbn beta. rewrite Hw. unfold hfind.
    erewrite comp_bind_run by exact Hr. cbn beta iota. destruct (to_map t !! k) as [v|]; [|by subst r].
    destruct Hres as (_ & -> & _ & s & Hs & Hc). erewrite comp_bind_run by (apply lift_run; exact Hs). cbn beta.
    unfold cell in Hc. injection Hc as _ _ ->. done. }
  erewrite comp_bind_run by exact Hg. cbn beta. destruct (to_map t !! k) as [v|]; [|done].
  destruct Hres as (_ & _ & _ & s & Hs & Hc). cbn [env_string].
  erewrite comp_bind_run by (apply lift_run; exact Hs). cbn beta.
  unfold cell in Hc. injection Hc as _ _ Hv. by rewrite bool_decide_eq_true_2.
Qed.

(** Once the table is ready both lists were looked for. *)
Lemma quiet_called B w : quiet true B w → called w.
Proof.
  intros (Hf & _ & Hc & _). split.
  - destruct (flags_first_call (env_globals_of w)); [by destruct (Hf eq_refl)|done].
  - destruct (callback_first_call (env_globals_of w)); [by destruct (Hc eq_refl)|done].
Qed.

Lemma bump_quiet R B w : quiet R B w → ∃ w', bump_env_id w = Ret ((), w') ∧ quiet R B w'.
Proof.
  intros Hq. unfold bump_env_id. erewrite comp_bind_run by apply get_globals_run. cbn beta.
  eexists. split; [reflexivity|]. unfold quiet. by rewrite globals_set.
Qed.

Lemma ready_quiet R B w : quiet R B w → ∃ w', set_env_ready w = Ret ((), w') ∧ (called w → quiet true B w').
Proof.
  intros (? & ? & ? & ? & ? & ? & _). unfold set_env_ready, set_ready_valid.
  eexists. split.
  - erewrite comp_bind_run by apply get_globals_run. cbn beta.
    erewrite comp_bind_run by apply get_globals_run. reflexivity.
  - intros [Hf Hc]. unfold quiet. rewrite globals_set. cbn. rewrite Hf, Hc. by split_and!.
Qed.

(** A board with an environment: its table is well formed, has room, and
    carries the attributes of the static lists. *)
Definition env_ok (t : hsearch_data) : Prop := tab_ok t ∧ stamped t.

(** [setenv] enters the variable into the table. *)
Lemma setenv_enters B t k v w : quiet true B w → plain k → v ≠ [] →
  ∃ w2, quiet true B w2 ∧
    ∀ r i t' w', hsearch_r k (Some v) ENTER t H_INTERACTIVE w2 = Ret (Hret r (Some i) 0, t', w') →
      EnvCmd.setenv k (Some v) t w = Ret (0, t', w').
Proof.
  intros Hq Hk Hv. unfold EnvCmd.setenv.
  erewrite comp_bind_run by apply get_globals_run. cbn beta.
  assert (Hr : gd_env_ready (env_globals_of w) = true) by apply Hq. rewrite Hr. cbn [negb].
  destruct v as [|c v]; [done|]. unfold _do_env_set. cbn [drop]. rewrite set_options_plain by apply Hk.
  cbn [head drop]. rewrite plain_no_equals by done.
  destruct (bump_quiet true B w Hq) as (w1 & Hb & Hq1). erewrite comp_bind_run by exact Hb. cbn beta.
  cbn [join]. destruct (malloc_quiet true B (zlen (c :: v) + 1) w1 Hq1) as (w2 & Hm & Hq2).
  erewrite comp_bind_run by exact Hm. cbn beta iota. cbn [negb].
  exists w2. split; [done|]. intros r i t' w' Hh.
  erewrite comp_bind_run by exact Hh. reflexivity.
Qed.

Lemma set_variable B t k v w : env_ok t → taken t < size t → quiet true B w → plain k →
  acceptable B k v → v ≠ [] →
  ∃ t' w', EnvCmd.setenv k (Some v) t w = Ret (0, t', w') ∧ env_ok t' ∧ quiet true B w' ∧
    size t' = size t ∧ taken t' ≤ taken t + 1 ∧ to_map t' = <[k := v]> (to_map t).
Proof.
  intros [Ht Hst] Hroom Hq Hk Hacc Hv.
  destruct (setenv_enters B t k v w Hq Hk Hv) as (w2 & Hq2 & Hset).
  destruct (enters_insert (settling true B) H_INTERACTIVE (k, v) t w2
    (acceptable_enters true B H_INTERACTIVE (k, v) Hacc) Ht Hroom)
    as (ret & i & t' & w' & Hh & (Hst' & Hq' & _) & Ht' & Hsz & Htk & Hmap).
  { split; [done|]. split; [done|]. intros _. by apply (quiet_called B). }
  exists t', w'. split_and!; [by eapply Hset|done..].
Qed.

(** A variable without a callback can be deleted. *)
Lemma delete_quiet t k flag w : env_ok t → static_callback k = None →
  ∃ t', hdelete_r k t flag w = Ret (if decide (is_Some (to_map t !! k)) then (1, 0) else (0, ESRCH), t', w) ∧
    env_ok t' ∧ size t' = size t ∧ taken t' = taken t ∧ to_map t' = delete k (to_map t).
Proof.
  intros [Ht Hst] Hcb. destruct (hfind_spec t k None 0 w Ht) as (r & Hr & Hres). unfold hdelete_r.
  erewrite comp_bind_run by exact Hr. cbn beta iota. destruct (to_map t !! k) as [v|] eqn:Hm.
  - destruct Hres as (Hi & _ & _ & s & Hs & Hc). rewrite decide_True by eauto.
    assert (Hlive : live (cell s) = Some (k, v)).
    { rewrite Hc. apply live_Some. eexists. split; [done|]. destruct Ht as (l & _ & Hok).
      assert (Hh := first_hash_range (size t) (c_size _ _ _ Hok) k). lia. }
    assert (Hss : stamped_slot s).
    { apply slot_at_Ret in Hs as (l & Hl & _ & Hs). unfold stamped in Hst. rewrite Hl in Hst.
      by eapply Forall_lookup_1. }
    unfold stamped_slot in Hss. rewrite Hlive, Hcb in Hss. destruct Hss as [Hc0 Hf0].
    rewrite (proj2 (Z.eqb_neq (h_ret r) 0)) by lia.
    erewrite comp_bind_run by (apply lift_run; exact Hs). cbn beta.
    assert (Hp : permission (entry s) Null env_op_delete flag w = Ret (0, w)).
    { unfold cell in Hc. injection Hc as _ Hk _. unfold permission. cbn [change_ok env_hooks]. unfold env_flags_validate.
      erewrite comp_bind_run by (apply lift_run; by rewrite Hk). cbn beta.
      erewrite comp_bind_run by (apply lift_run; reflexivity). cbn beta iota. rewrite Hf0, static_access by reflexivity.
      by destruct (negb _). }
    erewrite comp_bind_run by exact Hp. cbn beta. cbn [Z.eqb negb]. unfold call_callback. rewrite Hc0.
    erewrite comp_bind_run by reflexivity. cbn beta iota. cbn [Z.eqb negb].
    destruct (hdelete_slot t (h_ret r) s k v Ht Hi Hs Hlive) as (t' & Hd & Ht' & Hm' & Hsz & Htk).
    erewrite comp_bind_run by (apply lift_run; exact Hd). cbn beta. exists t'. split_and!; [done| |done..].
    split; [done|]. unfold _hdelete in Hd. rewrite Hs in Hd. cbn [mbind run_bind] in Hd.
    destruct (free (e_key (entry s))); [|done]. destruct (free (e_data (entry s))); [|done].
    cbn [mbind run_bind] in Hd. injection Hd as <-. by apply stamped_put.
  - subst r. rewrite decide_False by (by intros [? ?]). exists t. split_and!; [done..|].
    by rewrite delete_id.
Qed.

Lemma unset_variable B t k v w : env_ok t → quiet true B w → plain k → static_callback k = None →
  v = None ∨ v = Some [] →
  ∃ t' w', EnvCmd.setenv k v t w = Ret (if decide (is_Some (to_map t !! k)) then 0 else 1, t', w') ∧
    env_ok t' ∧ quiet true B w' ∧ size t' = size t ∧ taken t' = taken t ∧
    to_map t' = delete k (to_map t).
Proof.
  intros Ht Hq Hk Hcb Hv. unfold EnvCmd.setenv.
  erewrite comp_bind_run by apply get_globals_run. cbn beta.
  assert (Hr : gd_env_ready (env_globals_of w) = true) by apply Hq. rewrite Hr. cbn [negb].
  assert (Hset : ∀ b, ∃ t' w', _do_env_set [str "setenv"; k] b t w =
    Ret (if decide (is_Some (to_map t !! k)) then 0 else 1, t', w') ∧ env_ok t' ∧ quiet true B w' ∧
    size t' = size t ∧ taken t' = taken t ∧ to_map t' = delete k (to_map t)).
  { intros b. unfold _do_env_set. cbn [drop]. rewrite set_options_plain by apply Hk.
    cbn [head drop]. rewrite plain_no_equals by done.
    destruct (bump_quiet true B w Hq) as (w1 & Hb & Hq1). erewrite comp_bind_run by exact Hb. cbn beta.
    destruct (delete_quiet t k H_INTERACTIVE w1 Ht Hcb) as (t' & Hd & Ht' & Hsz & Htk & Hm).
    exists t', w1. erewrite comp_bind_run by exact Hd. by destruct (decide _). }
  destruct Hv as [-> | ->]; apply Hset.
Qed.

(** C13: on a quiet board, with memory that does not run out and a table that
    has a slot never used before, [setenv] inserts a variable whose value is
    acceptable, deletes one without a callback when the value is empty, and
    changes no other variable; [getenv] looks the result up.  So the table
    implements the map that the models of the boot code take the environment
    for. *)
Theorem setenv_refines B t k v w : env_ok t → taken t < size t → quiet true B w → plain k →
  (if decide (v = []) then static_callback k = None else acceptable B k v) →
  ∃ rc t' w', EnvCmd.setenv k (Some v) t w = Ret (rc, t', w') ∧ env_ok t' ∧ quiet true B w' ∧
    size t' = size t ∧ taken t' ≤ taken t + 1 ∧
    (rc = 0 ↔ v ≠ [] ∨ is_Some (to_map t !! k)) ∧
    to_map t' = (if decide (v = []) then delete k (to_map t) else <[k := v]> (to_map t)) ∧
    (∀ D (st : BootState D), v ≠ [] → BootCtl.env st = to_map t →
      BootCtl.env (BootCtl.setenv st k v) = to_map t') ∧
    ∀ k', env_value k' t' w' = Ret (to_map t' !! k', w').
Proof.
  intros Ht Hroom Hq Hk Hacc. destruct (decide (v = [])) as [->|Hv].
  - destruct (unset_variable B t k (Some []) w Ht Hq Hk Hacc (or_intror eq_refl))
      as (t' & w' & Hs & Ht' & Hq' & Hsz & Htk & Hm).
    eexists _, t', w'. split_and!; [exact Hs|done|done|done|lia| |done|done|].
    + destruct (decide (is_Some (to_map t !! k))); split; [by right|done|done|by intros [|]].
    + intros k'. apply env_value_lookup; [apply Ht'|apply Hq'].
  - destruct (set_variable B t k v w Ht Hroom Hq Hk Hacc Hv) as (t' & w' & Hs & Ht' & Hq' & Hsz & Htk & Hm).
    exists 0, t', w'. split_and!; [done|done|done|done|lia|split; [by left|done]|done| |].
    + intros D st _ Henv. cbn. by rewrite Hm, Henv.
    + intros k'. apply env_value_lookup; [apply Ht'|apply Hq'].
Qed.

Lemma malloc_returns n (w : W) : ∃ ok w', malloc n w = Ret (ok, w').
Proof. unfold malloc. destruct (heap_alloc n w) as [ok w']. by exists ok, w'. Qed.

(** C34: a variable whose flags forbid to overwrite and to delete it keeps its
    value and stays in the table: [setenv] fails, whatever value it is given,
    and changes nothing. *)
Theorem readonly_kept t k fl v w : tab_ok t → has_flags t k fl →
  Z.land fl ENV_FLAGS_VARACCESS_PREVENT_OVERWR ≠ 0 →
  Z.land fl ENV_FLAGS_VARACCESS_PREVENT_DELETE ≠ 0 → plain k →
  ∃ w', EnvCmd.setenv k v t w = Ret (1, t, w').
Proof.
  intros Ht Hfl Ho Hd Hk. unfold EnvCmd.setenv. erewrite comp_bind_run by apply get_globals_run. cbn beta.
  destruct (gd_env_ready _); cbn [negb]; [|by exists w].
  assert (Hset : ∀ args b, ∃ w', _do_env_set (str "setenv" :: k :: args) b t w = Ret (1, t, w')).
  { intros args b. unfold _do_env_set. cbn [drop]. rewrite set_options_plain by apply Hk. cbn [head drop].
    rewrite plain_no_equals by done.
    erewrite comp_bind_run by (unfold bump_env_id; erewrite comp_bind_run by apply get_globals_run; reflexivity).
    cbn beta. destruct args as [|a args]; cbn [drop].
    - erewrite comp_bind_run by (apply (readonly_delete t k fl); done). cbn beta iota. eexists. reflexivity.
    - set (value := join (a :: args)). cbv zeta.
      match goal with |- context [(malloc ?n ≫= _) ?w] => destruct (malloc_returns n w) as ([] & w2 & Hh) end;
        (erewrite comp_bind_run by exact Hh); cbn beta; cbn [negb]; [|eexists; reflexivity].
      erewrite comp_bind_run by (apply (readonly_enter t k fl); done). cbn beta iota. eexists. reflexivity. }
  destruct v as [[|c v]|]; apply Hset.
Qed.
End Variables.

(** ** The image *)

Definition all_backslashes (l : list (bytes * bytes)) : Z := foldr (fun e n => backslashes e.2 + n) 0 l.

Lemma all_backslashes_nonneg l : 0 ≤ all_backslashes l.
Proof.
  unfold all_backslashes. induction l as [|e l IH]; cbn [foldr]; [done|].
  pose proof (zlen_nonneg (filter (λ c, c = 92) e.2)). unfold backslashes in *. lia.
Qed.

(** An environment that fits into its image, backslashes included, and whose
    variables can be printed, parsed and entered. *)
Record storable (B : Z) (t : hsearch_data) : Prop := {
  st_tab : tab_ok t;
  st_vars : Forall (λ e, ascii e.1 ∧ bytes_ok e.1 ∧ bytes_ok e.2 ∧ var_ok 0 e ∧ acceptable B e.1 e.2) (variables t);
  st_count : zlen (variables t) ≤ 512;
  st_fits : need 0 (variables t) + all_backslashes (variables t) < ENV_SIZE }.

(** The image's data for variables in this order. *)
Definition image_data (l : list (bytes * bytes)) : bytes :=
  export_text 0 l ++ replicate (Z.to_nat ENV_SIZE - length (export_text 0 l)) 0.

#[export] Instance zlen_perm {A} : Proper ((≡ₚ) ==> (=)) (@zlen A).
Proof. intros l l' Hp. unfold zlen. by rewrite Hp. Qed.

Lemma perm_need l l' : l ≡ₚ l' → need 0 l = need 0 l' ∧ all_backslashes l = all_backslashes l'.
Proof.
  unfold need, all_backslashes. induction 1 as [|e l l' _ [IH1 IH2]|e1 e2 l|l1 l2 l3 _ [IH1 IH2] _ [IH3 IH4]]; cbn [foldr].
  - done.
  - by rewrite IH1, IH2.
  - split; lia.
  - split; congruence.
Qed.

Lemma escape_ok sep v : is_u8 sep → bytes_ok v → bytes_ok (escape sep v).
Proof.
  intros Hs. induction 1 as [|c v Hc _ IH]; [by constructor|]. cbn [escape].
  destruct (needs_escape sep c); [apply Forall_cons; split; [by unfold is_u8|]|]; by apply Forall_cons.
Qed.

Lemma export_text_ok l : Forall (λ e, bytes_ok e.1 ∧ bytes_ok e.2) l → bytes_ok (export_text 0 l).
Proof.
  induction 1 as [|[k v] l [Hk Hv] _ IH]; [by constructor|]. unfold export_text. cbn [fmap list_fmap concat].
  apply Forall_app. split; [|done]. unfold entry_text. cbn [fst snd].
  repeat apply Forall_app_2; [done|by repeat constructor|by apply escape_ok|by repeat constructor].
Qed.

Lemma image_data_ok l : Forall (λ e, bytes_ok e.1 ∧ bytes_ok e.2) l → zlen (export_text 0 l) < ENV_SIZE →
  bytes_ok (image_data l) ∧ zlen (image_data l) = ENV_SIZE.
Proof.
  intros Hl Hn. unfold image_data. split.
  - apply Forall_app_2; [by apply export_text_ok|]. by apply Forall_replicate.
  - rewrite zlen_app, zlen_replicate. unfold zlen in *. lia.
Qed.

Section Image.
Context {W : Type} {HW : Heap W} {EW : EnvWorld W} {QW : QuietWorld W}.

(** The checksum and the data of the image. *)
Definition good_image (l : list (bytes * bytes)) : env_t :=
  EnvImage (avb_crc32 (image_data l)) (image_data l).

Lemma storable_text B t l : storable B t → l ≡ₚ variables t →
  zlen (export_text 0 l) < ENV_SIZE ∧ Forall (λ e, bytes_ok e.1 ∧ bytes_ok e.2) l.
Proof.
  intros [Ht Hv _ Hfit] Hp. destruct (perm_need _ _ Hp) as [Hn Hb]. split.
  - rewrite export_text_length.
    + fold (all_backslashes l). change (0 =? 0) with true. cbn iota. pose proof (zlen_nonneg l). lia.
    + rewrite Hp. eapply Forall_impl; [exact Hv|]. intros e (_ & _ & _ & (_ & _ & _ & H) & _). exact H.
  - rewrite Hp. eapply Forall_impl; [exact Hv|]. by intros e (_ & ? & ? & _).
Qed.

(** What [env_export] writes for such an environment. *)
Lemma env_export_image B t c stack w : storable B t → zlen stack = ENV_SIZE →
  ∃ l, l ≡ₚ variables t ∧ env_export t (EnvImage c stack) w = Ret (0, good_image l, w).
Proof.
  intros Hst Hz. destruct (hexport_spec t 0 stack w) as (l & Hp & _ & Hx).
  - apply Hst.
  - eapply Forall_impl; [apply Hst|]. by intros e (? & _).
  - rewrite Hz. reflexivity.
  - exists l. split; [done|]. destruct (storable_text B t l Hst Hp) as [Hlen Hok].
    destruct (image_data_ok l Hok Hlen) as [Hdok Hdz]. unfold env_export. cbn [env_data].
    pose proof (all_backslashes_nonneg (variables t)). pose proof (st_fits _ _ Hst) as Hfit. rewrite Hz in Hx.
    rewrite (proj2 (Z.ltb_ge _ _)) in Hx by lia. rewrite (proj2 (Z.leb_le _ _)) in Hx by lia.
    erewrite comp_bind_run by exact Hx. cbn beta iota. change (ENV_SIZE <? 0) with false. cbn iota.
    assert (Hlen' : length stack = Z.to_nat ENV_SIZE) by (unfold zlen in Hz; lia).
    rewrite Hlen'. fold (image_data l). by rewrite crc32_avb by done.
Qed.

Lemma image_parts l : Forall (λ e, bytes_ok e.1 ∧ bytes_ok e.2) l → zlen (export_text 0 l) < ENV_SIZE →
  env_of_bytes (env_bytes (good_image l)) = good_image l.
Proof.
  intros Hok Hlen. destruct (image_data_ok l Hok Hlen) as [Hdok _].
  unfold env_of_bytes, env_bytes, good_image. cbn [env_crc env_data]. f_equal.
  rewrite take_app_length' by (by rewrite le_encode_length). rewrite le_decode_encode.
  apply Z.mod_small, avb_crc32_u32, Hdok.
Qed.

(** Importing the image gives a table with its variables. *)
Lemma env_import_image R B save align t0 t l w : storable B t → l ≡ₚ variables t →
  table t0 = None ∨ tab_ok t0 → quiet R B w →
  ∃ t' w', env_import save align (env_bytes (good_image l)) true t0 w = Ret (1, t', w') ∧
    env_ok t' ∧ to_map t' = to_map t ∧ (to_map t ≠ ∅ → quiet true B w').
Proof.
  intros Hst Hp Ht0 Hq. destruct (storable_text B t l Hst Hp) as [Hlen Hok].
  destruct (image_data_ok l Hok Hlen) as [Hdok Hdz]. unfold env_import.
  rewrite image_parts by done. cbv zeta.
  assert (Hchk : env_checks align (good_image l) = Ret true).
  { unfold env_checks, good_image. cbn [env_data env_crc]. rewrite <- Hdz.
    rewrite rd_ok, slice_all by (pose proof (zlen_nonneg (image_data l)); lia).
    cbn [mbind run_bind]. by rewrite crc32_avb, Z.eqb_refl. }
  erewrite comp_bind_run by (apply lift_run; exact Hchk). cbn beta. cbn [negb].
  assert (Hn : ∃ n, image_data l = export_text 0 l ++ replicate (S n) 0).
  { exists (Z.to_nat ENV_SIZE - length (export_text 0 l) - 1)%nat. unfold image_data. do 2 f_equal.
    unfold zlen in Hlen. lia. }
  destruct Hn as [n Hn].
  assert (Hnd : NoDup l.*1) by (rewrite Hp; apply variables_NoDup, Hst).
  destruct (himport_text (quiet R B) (settling R B) 0 0 ltac:(done) ltac:(done) (malloc_quiet R B) (settling_empty R B)
    t0 l n w) as (t' & w1 & Hi & (Hst' & Hq1 & Hca) & Ht' & Hm).
  - done.
  - rewrite Hp. eapply Forall_impl; [apply Hst|]. by intros e (_ & _ & _ & ? & _).
  - rewrite Hp. eapply Forall_impl; [apply Hst|]. intros e (_ & _ & _ & _ & ?). by apply acceptable_enters.
  - done.
  - done.
  - done.
  - rewrite <- Hn, Hdz. reflexivity.
  - rewrite <- Hn, Hdz. rewrite Hp. exact (st_count _ _ Hst).
  - rewrite <- Hn, Hdz in Hi. change (env_data (good_image l)) with (image_data l).
    erewrite comp_bind_run by exact Hi. cbn beta iota. change (negb (1 =? 0)) with true. cbn iota.
    destruct (ready_quiet R B w1 Hq1) as (w2 & Hr & Hq2). erewrite comp_bind_run by exact Hr. cbn beta.
    assert (Hmap : to_map t' = to_map t) by (rewrite Hm; by apply list_to_map_proper).
    exists t', w2. split_and!; [done|done|done|]. rewrite <- Hmap. auto.
Qed.
End Image.

(** ** The default settings *)

Section Defaults.
Context {W : Type} {HW : Heap W} {EW : EnvWorld W} {QW : QuietWorld W}.

(** The default settings compiled in are those of a list of variables. *)
Record defaults (B : Z) (defs : list (bytes * bytes)) : Prop := {
  def_text : ∃ n, default_environment (W := W) = export_text 0 defs ++ replicate (S n) 0;
  def_size : zlen (default_environment (W := W)) ≤ ENV_SIZE;
  def_vars : Forall (λ e, var_ok 0 e ∧ acceptable B e.1 e.2) defs;
  def_nodup : NoDup defs.*1;
  def_count : zlen defs ≤ import_entries (zlen (default_environment (W := W))) }.

(** Resetting the environment gives exactly these, whatever it was before. *)
Lemma set_default_quiet R B defs s t0 w : defaults B defs → table t0 = None ∨ tab_ok t0 → quiet R B w →
  ∃ t' w', set_default_env s t0 w = Ret (t', w') ∧ env_ok t' ∧ to_map t' = list_to_map defs ∧
    (defs ≠ [] → quiet true B w').
Proof.
  intros [[n Htext] Hsz Hv Hnd Hc] Ht0 Hq. unfold set_default_env.
  rewrite (proj2 (Z.ltb_ge _ _)) by done. cbv zeta. set (flags := match s with Some _ => _ | None => _ end).
  assert (Hf : Z.land flags H_NOCLEAR = 0) by (unfold flags; by repeat case_match).
  destruct (himport_text (quiet R B) (settling R B) 0 flags ltac:(done) ltac:(done) (malloc_quiet R B)
    (settling_empty R B) t0 defs n w) as (t' & w1 & Hi & (Hst' & Hq1 & Hca) & Ht' & Hm); try done.
  - eapply Forall_impl; [exact Hv|]. by intros e [? _].
  - eapply Forall_impl; [exact Hv|]. intros e [_ ?]. by apply acceptable_enters.
  - rewrite <- Htext. unfold ENV_SIZE, CONFIG_ENV_SIZE in Hsz. lia.
  - by rewrite <- Htext.
  - rewrite <- Htext in Hi. erewrite comp_bind_run by exact Hi. cbn beta iota.
    destruct (ready_quiet R B w1 Hq1) as (w2 & Hr & Hq2). erewrite comp_bind_run by exact Hr. cbn beta.
    exists t', w2. split_and!; [done|done|done|]. intros Hne. apply Hq2, Hca. rewrite Hm. intros E.
    destruct defs as [|[k v] defs]; [done|]. cbn in E. by apply insert_non_empty in E.
Qed.

(** ** A start *)

(** The globals of the environment as they are before the first import: both
    [first_call] are 1, there is no list, the table is not ready, and what is
    read until then are the settings compiled in. *)
Definition at_start (B : Z) (w : W) : Prop :=
  let g := env_globals_of w in
  flags_first_call g = true ∧ flags_list g = PNull ∧ callback_first_call g = true ∧ callback_list g = PNull ∧
  gd_env_ready g = false ∧ env_memory (W := W) g = default_environment (W := W) ∧
  zlen (BootFile g) = sizeof_BootFile ∧ gd_baudrate g = B.

(** A name is found in memory only in front of an equals sign. *)
Lemma envmatch_absent name k rest : name ≠ k → Forall (λ c, c ≠ 61 ∧ c ≠ 0) name →
  Forall (λ c, c ≠ 61 ∧ c ≠ 0) k → envmatch (name ++ [0]) (k ++ 61 :: rest) = Ret None.
Proof.
  intros Hne Hn. revert k Hne. induction Hn as [|c name [Hc1 Hc2] _ IH]; intros k Hne Hk.
  - destruct Hk as [|d k [Hd1 Hd2] _]; [done|]. cbn.
    by rewrite (proj2 (Z.eqb_neq d 61)) by done; destruct d.
  - destruct Hk as [|d k [Hd1 Hd2] Hk]; cbn [app envmatch].
    + rewrite (proj2 (Z.eqb_neq c 61)) by done. by rewrite (proj2 (Z.eqb_neq c 0)) by done.
    + destruct (Z.eqb_spec c d) as [->|]; [|by rewrite (proj2 (Z.eqb_neq c 0)) by done].
      rewrite (proj2 (Z.eqb_neq d 61)) by done. apply IH; [congruence|done].
Qed.

Lemma entry_string_text s rest nxt : Forall (λ c, c ≠ 0) s →
  entry_string (s ++ 0 :: rest) nxt = Ret (Some s) ∨ entry_string (s ++ 0 :: rest) nxt = Ret None.
Proof.
  intros Hs. revert nxt. induction Hs as [|c s Hc _ IH]; intros nxt; [by left|]. cbn [app entry_string].
  rewrite (proj2 (Z.eqb_neq c 0)) by done. destruct (_ >=? _); [by right|].
  by destruct (IH (nxt + 1)) as [-> | ->]; [left|right].
Qed.

(** A name that is none of the variables is not found in their text. *)
Lemma getenv_f_absent name l n fuel i buf len : Forall (λ c, c ≠ 61 ∧ c ≠ 0) name → Forall (var_ok 0) l →
  name ∉ l.*1 → (length (export_text 0 l) < fuel)%nat →
  getenv_f_loop fuel name (export_text 0 l ++ replicate (S n) 0) i buf len = Ret (-1, buf).
Proof.
  intros Hn Hl. revert fuel i. induction Hl as [|[k v] l (Hk & Hkc & Hv & Hv0) _ IH]; intros fuel i Hin Hf.
  { by destruct fuel; [cbn in Hf; lia|]. }
  rewrite fmap_cons, not_elem_of_cons in Hin. destruct Hin as [Hne Hin]. cbn [fst snd] in *.
  set (s := k ++ 61 :: escape 0 v). set (rest := export_text 0 l ++ replicate (S n) 0).
  assert (Htext : export_text 0 ((k, v) :: l) = s ++ 0 :: export_text 0 l).
  { unfold export_text, s. cbn [fmap list_fmap concat]. unfold entry_text. cbn [fst snd].
    rewrite <- !app_assoc. done. }
  rewrite Htext, length_app in Hf. cbn [length] in Hf. rewrite Htext, <- app_assoc. cbn [app]. fold rest.
  assert (Hs0 : Forall (λ c, c ≠ 0) s).
  { apply Forall_app_2; [eapply Forall_impl; [exact Hkc|]; by intros c (_ & ? & _)|].
    constructor; [done|]. clear -Hv0. induction Hv0 as [|c v Hc _ IH]; [by constructor|]. cbn [escape].
    destruct (needs_escape 0 c); repeat (constructor; try done). }
  assert (Hm : envmatch (name ++ [0]) (s ++ 0 :: rest) = Ret None).
  { unfold s. rewrite <- app_assoc. apply envmatch_absent; [done|done|].
    eapply Forall_impl; [exact Hkc|]. by intros d (? & ? & _). }
  assert (Hd : drop (S (length s)) (s ++ 0 :: rest) = rest).
  { rewrite drop_app_ge by lia. by replace (S (length s) - length s)%nat with 1%nat by lia. }
  destruct fuel as [|fuel]; [lia|]. assert (∃ c s', s = c :: s') as (c & s' & Es).
  { unfold s. destruct Hk as (c & k' & -> & _). by eexists _, _. }
  cbn [getenv_f_loop]. destruct (s ++ 0 :: rest) as [|c0 r0] eqn:Er; [by destruct s|].
  assert (c0 ≠ 0) by (rewrite Es in Er, Hs0; injection Er as -> _; by inversion Hs0).
  rewrite (proj2 (Z.eqb_neq c0 0)) by done. rewrite <- Er in *.
  destruct (entry_string_text s rest i Hs0) as [-> | ->]; cbn [mbind run_bind]; [|done].
  rewrite Hm. cbn [mbind run_bind]. rewrite Hd. apply IH; [done|lia].
Qed.

Lemma start_quiet B defs w : defaults B defs → at_start B w → quiet false B w.
Proof.
  intros [[n Ht] _ Hv _ _] (H1 & H2 & H3 & H4 & H5 & H6 & H7 & H8).
  assert (Hno : ∀ name, Forall (λ c, c ≠ 61 ∧ c ≠ 0) name → name ∉ defs.*1 → no_setting name (env_globals_of w)).
  { intros name Hn Hin buf. rewrite H6, Ht. apply getenv_f_absent; [done| |done|].
    - eapply Forall_impl; [exact Hv|]. by intros e [? _].
    - rewrite length_app, length_replicate. lia. }
  assert (Hnot : ∀ name, (∀ v, ¬ acceptable B name v) → name ∉ defs.*1).
  { intros name Ha Hin. apply list_elem_of_fmap in Hin as ([k v] & -> & Hin).
    rewrite Forall_forall in Hv. destruct (Hv _ Hin) as [_ Hacc]. by apply (Ha v). }
  unfold quiet. rewrite H1, H3. split_and!; [|done| |done|done|done|done]; intros _; (split; [done|]);
    apply Hno; try (apply (bool_decide_unpack _); by vm_compute); apply Hnot; intros v (_ & _ & Hcb);
    by vm_compute in Hcb.
Qed.
End Defaults.

(** ** On the card *)

Lemma blocks_up_exact x : 0 ≤ x < 2 ^ 32 → x mod 512 = 0 → blocks_up x 512 = x / 512.
Proof.
  intros Hx Hm. unfold blocks_up. rewrite <- Z.ldiff_land. change (512 - 1) with (Z.ones 9).
  rewrite Z.ldiff_ones_r, Z.shiftr_div_pow2, Z.shiftl_mul_pow2 by lia. change (2 ^ 9) with 512.
  pose proof (Z.div_mod x 512 ltac:(lia)) as Hd. change (Z.ones 9) with 511.
  replace ((x + 511) / 512) with (x / 512).
  - rewrite Z.div_mul by lia. apply u32_small. split; [apply Z.div_pos; lia|apply Z.div_lt_upper_bound; lia].
  - apply (Z.div_unique _ _ _ 511); lia.
Qed.

Section Card.
Context {W : Type} {HW : Heap W} {EW : EnvWorld W} {QW : QuietWorld W} {MH : MmcHost W}.
Context (m : mmc) {CL : CardLaws W (erase_grp_size m)} (card : emmc m).
Context (devs : list mmc) (found : find_mmc_device devs CONFIG_SYS_MMC_ENV_DEV = Some m).
Context (key_area : option (Z * Z)) (info_disprotect : Z).
Context (has_init : mmc → bool) (bring_up : mmc → comp W Z) (started : has_init m = true).

(** The driver leaves the globals alone, and the card answers. *)
Context (send_globals : ∀ c d w, env_globals_of (send_cmd c d w).2 = env_globals_of w).
Context (healthy : ∀ c d (w : W), MmcBlock.ready (send_cmd c d w).1).

(** The table has a partition env, at whole blocks of the first 4 GiB, inside
    the card and outside of the key area. *)
Context (parts : tables) (part : partitions) (off : Z).
Context (env_part : find_mmc_partition_by_name parts (str "env") = Ret (Some part)) (env_off : pt_offset part = off).
Context (off_range : 0 ≤ off < 2 ^ 32) (off_block : off mod 512 = 0).
Context (inside : off + CONFIG_ENV_SIZE ≤ lba m * 512).
Context (legal : emmckey_is_access_range_legal key_area info_disprotect m (off / 512) 128 = Ret true).

Definition same_globals (w w' : W) : Prop := env_globals_of w' = env_globals_of w.
#[local] Instance same_globals_preorder : PreOrder same_globals.
Proof. split; [by intros w|]. intros w1 w2 w3 H1 H2. unfold same_globals in *. congruence. Qed.

Lemma send_keeps c d : preserves same_globals (mmc_send_cmd c d).
Proof. intros w r w' [= E]. unfold same_globals. rewrite <- (send_globals c d w). by rewrite E. Qed.

Lemma bread_keeps dev_num start n : preserves same_globals (mmc_bread devs key_area info_disprotect dev_num start n).
Proof.
  assert (Hsend := send_keeps).
  assert (Hread : ∀ k m s n, preserves same_globals (read_attempts k m s n)).
  { intros k. induction k as [|k IH]; intros m' s n'; cbn [read_attempts]; preserve; apply Hsend || apply IH. }
  assert (Hfrom : ∀ k m s n d, preserves same_globals (bread_from k m s n d)).
  { intros k. induction k as [|k IH]; intros m' s n' d; cbn [bread_from]; preserve; apply Hread || apply IH. }
  unfold mmc_bread, mmc_set_blocklen. preserve; apply Hsend || apply Hfrom.
Qed.

Lemma init_started w : init_mmc_for_env has_init bring_up (Some m) w = Ret (0, w).
Proof. unfold init_mmc_for_env, mmc_init. by rewrite started. Qed.

Lemma env_addr : mmc_get_env_addr parts m = Ret (Some off).
Proof.
  unfold mmc_get_env_addr. rewrite env_part. cbn [mbind run_bind]. rewrite env_off. cbv zeta.
  assert (s64 off = off) as -> by (rewrite <- (u64_small off) at 1 by (split; lia); apply s64_u64; lia).
  rewrite (proj2 (Z.ltb_ge off 0)) by lia. by rewrite u32_small.
Qed.

Lemma env_blocks : blocks_up CONFIG_ENV_SIZE 512 = 128 ∧ blocks_up off 512 = off / 512 ∧
  0 ≤ off / 512 ∧ off / 512 * 512 = off ∧ off / 512 + 128 ≤ lba m.
Proof.
  pose proof (Z.div_mod off 512 ltac:(lia)). pose proof (Z.div_pos off 512 ltac:(lia) ltac:(lia)).
  unfold CONFIG_ENV_SIZE in inside. split_and!; [reflexivity|by apply blocks_up_exact|lia..].
Qed.

Lemma write_env_ready buf w : zlen buf = CONFIG_ENV_SIZE →
  ∃ w', write_env devs key_area info_disprotect m CONFIG_ENV_SIZE off buf w = Ret (0, w') ∧
    ∀ a, disk w' a = over (disk w) off buf a.
Proof.
  intros Hz. destruct env_blocks as (Hs & Ho & H0 & Heq & Hl). unfold write_env.
  rewrite (emmc_write_len m card), Hs, Ho.
  destruct (bwrite_ready m key_area info_disprotect card devs CONFIG_SYS_MMC_ENV_DEV found healthy
    (off / 512) 128 buf w) as (w' & E & Hd); [lia..|rewrite Hz; unfold CONFIG_ENV_SIZE; lia|done|].
  exists w'. erewrite comp_bind_run by exact E. split; [done|]. intros a. rewrite Hd, Heq.
  change (128 * 512) with CONFIG_ENV_SIZE. by rewrite <- Hz, slice_all.
Qed.

Lemma read_env_ready buf d w : zlen buf = CONFIG_ENV_SIZE → (∀ a, disk w a = over d off buf a) →
  ∃ w', read_env devs key_area info_disprotect m CONFIG_ENV_SIZE off w = Ret (0, buf, w') ∧ same_globals w w'.
Proof.
  intros Hz Hd. destruct env_blocks as (Hs & Ho & H0 & Heq & Hl). unfold read_env.
  rewrite (emmc_read_len m card), Hs, Ho.
  destruct (bread_ready m key_area info_disprotect card devs CONFIG_SYS_MMC_ENV_DEV found healthy
    (off / 512) 128 w) as (w' & E & _); [lia..|done|].
  exists w'. erewrite comp_bind_run by exact E. split; [|by eapply bread_keeps].
  cbn beta iota. rewrite Heq. change (128 * 512) with CONFIG_ENV_SIZE. rewrite <- Hz.
  by rewrite (image_over m w off buf d Hd).
Qed.

(** The image a saved environment leaves on the card. *)
Lemma saveenv_image B t stack w : storable B t → zlen stack = ENV_SIZE →
  ∃ l w', l ≡ₚ variables t ∧ zlen (env_bytes (good_image l)) = CONFIG_ENV_SIZE ∧
    saveenv devs key_area info_disprotect has_init bring_up parts EMMC_BOOT_FLAG stack t w = Ret (0, w') ∧
    ∀ a, disk w' a = over (disk w) off (env_bytes (good_image l)) a.
Proof.
  intros Hst Hz. destruct (env_export_image B t 0 stack w Hst Hz) as (l & Hp & Hx).
  destruct (storable_text B t l Hst Hp) as [Hlen Hok]. destruct (image_data_ok l Hok Hlen) as [_ Hdz].
  assert (Hbz : zlen (env_bytes (good_image l)) = CONFIG_ENV_SIZE).
  { unfold env_bytes, good_image. cbn [env_data env_crc]. rewrite zlen_app, Hdz. unfold zlen.
    by rewrite le_encode_length. }
  destruct (write_env_ready _ w Hbz) as (w' & Hw & Hd). exists l, w'. split_and!; [done|done| |done].
  unfold saveenv. change (EMMC_BOOT_FLAG =? EMMC_BOOT_FLAG) with true. cbn iota. unfold mmc_saveenv. rewrite found.
  erewrite comp_bind_run by apply init_started. cbn beta. change (negb (0 =? 0)) with false. cbn iota.
  erewrite comp_bind_run by exact Hx. cbn beta iota. change (negb (0 =? 0)) with false. cbn iota.
  rewrite (comp_bind_run _ _ _ _ _ (lift_run _ _ _ env_addr)). by erewrite comp_bind_run by exact Hw.
Qed.

(** C15: an environment that can be stored, and was saved to a healthy card, is the
    same when it is loaded again, at a start or later, and saving it changes no
    other byte of the card.  It can be stored when its variables have names and
    values the text form keeps, none has a callback that refuses the change, the
    baud rate is the current one, there are at most 512 and the text with its
    backslashes fits the image.  The loader is the one of a board with an
    environment partition, which ends below 4 GiB. *)
Theorem saved_environment_restored B t stack w : storable B t → zlen stack = ENV_SIZE →
  ∃ w1, saveenv devs key_area info_disprotect has_init bring_up parts EMMC_BOOT_FLAG stack t w = Ret (0, w1)
    ∧ (∀ a, ¬ (off ≤ a < off + CONFIG_ENV_SIZE) → disk w1 a = disk w a)
    ∧ ∀ R stack' t0 w2, quiet R B w2 → (∀ a, disk w2 a = disk w1 a) → table t0 = None ∨ tab_ok t0 →
      ∃ t' w3, mmc_env_relocate_part devs key_area info_disprotect has_init bring_up parts EMMC_BOOT_FLAG
                 stack' t0 w2 = Ret (t', w3)
        ∧ env_ok t' ∧ to_map t' = to_map t ∧ (to_map t ≠ ∅ → quiet true B w3).
Proof.
  intros Hst Hz. destruct (saveenv_image B t stack w Hst Hz) as (l & w1 & Hp & Hbz & Hs & Hd).
  exists w1. split_and!; [done|intros a Ha; rewrite Hd; apply over_out; by rewrite Hbz|].
  intros R stack' t0 w2 Hq Hsame Ht0. unfold mmc_env_relocate_part. rewrite found.
  erewrite comp_bind_run by apply init_started. cbn beta. change (negb (0 =? 0)) with false. cbn iota.
  rewrite (comp_bind_run _ _ _ _ _ (lift_run _ _ _ env_addr)). destruct (read_env_ready _ (disk w) w2 Hbz) as (w3 & Hr & Hg).
  { intros a. by rewrite Hsame. }
  erewrite comp_bind_run by exact Hr. cbn beta iota. change (negb (0 =? 0)) with false. cbn iota.
  assert (Hq3 : quiet R B w3) by (unfold quiet; by rewrite Hg).
  destruct (env_import_image R B (saveenv devs key_area info_disprotect has_init bring_up parts EMMC_BOOT_FLAG stack') 0
    t0 t l w3 Hst Hp Ht0 Hq3) as (t' & w4 & Hi & Ht' & Hm & Hq4).
  exists t', w4. by erewrite comp_bind_run by exact Hi.
Qed.

End Card.

Section Damage.
Context {W : Type} {HW : Heap W} {EW : EnvWorld W} {QW : QuietWorld W}.

(** C33: when one byte of the data of an image of a storable environment is
    damaged, the import on a quiet board with memory available notices it, at a
    start or later, and the environment is the default settings, which are
    saved; they are the text of variables that can be set. *)
Theorem damaged_image_replaced R B defs save align t l pre b b' post t0 w : storable B t → l ≡ₚ variables t →
  image_data l = pre ++ b :: post → is_u8 b' → b' ≠ b → defaults B defs →
  table t0 = None ∨ tab_ok t0 → quiet R B w →
  ∃ t' w', env_import save align (le_encode 4 (env_crc (good_image l)) ++ pre ++ b' :: post) true t0 w
      = (_ ← save t'; mret (0, t')) w'
    ∧ env_ok t' ∧ to_map t' = list_to_map defs ∧ (defs ≠ [] → quiet true B w').
Proof.
  intros Hst Hp Hdata Hb' Hne Hdef Ht0 Hq. destruct (storable_text B t l Hst Hp) as [Hlen Hok].
  destruct (image_data_ok l Hok Hlen) as [Hdok Hdz]. rewrite Hdata in Hdok, Hdz.
  apply Forall_app in Hdok as [Hpre Hpost]. apply Forall_cons in Hpost as [Hb Hpost].
  assert (Hdok' : bytes_ok (pre ++ b' :: post)) by (apply Forall_app_2; [done|by apply Forall_cons]).
  set (buf := le_encode 4 (env_crc (good_image l)) ++ pre ++ b' :: post).
  assert (Hparts : env_of_bytes buf = EnvImage (env_crc (good_image l)) (pre ++ b' :: post)).
  { unfold env_of_bytes, buf. f_equal. rewrite take_app_length' by (by rewrite le_encode_length).
    rewrite le_decode_encode. apply Z.mod_small, avb_crc32_u32. rewrite Hdata.
    apply Forall_app_2; [done|by apply Forall_cons]. }
  assert (Hchk : env_checks align (env_of_bytes buf) = Ret false).
  { rewrite Hparts. unfold env_checks. cbn [env_data env_crc]. rewrite <- Hdz.
    replace (zlen (pre ++ b :: post)) with (zlen (pre ++ b' :: post)) by (by rewrite !zlen_app, !zlen_cons).
    rewrite rd_ok, slice_all by (pose proof (zlen_nonneg (pre ++ b' :: post)); lia). cbn [mbind run_bind].
    rewrite crc32_avb by done. rewrite (proj2 (Z.eqb_neq _ _)); [done|]. intros E. apply Hne.
    unfold good_image in E. cbn [env_crc] in E. rewrite Hdata in E. by apply crc32_byte_change in E. }
  unfold env_import. cbv zeta. erewrite comp_bind_run by (apply lift_run; exact Hchk). cbn beta. cbn [negb].
  destruct (set_default_quiet R B defs (Some (str "!bad CRC")) t0 w Hdef Ht0 Hq) as (t' & w' & Hs & Ht' & Hm & Hq').
  erewrite comp_bind_run by exact Hs. cbn beta. by exists t', w'.
Qed.
End Damage.

(** ** Examples *)

(** A board with its globals and its card; memory never runs out. *)
Record env_demo := DemoWorld { dw_globals : env_globals; dw_card : demo_card }.

Definition demo_defaults : list (bytes * bytes) :=
  [(str "baudrate", str "115200"); (str "bootdelay", str "1"); (str "lock", str "10001000")].

#[local] Instance env_demo_heap : Heap env_demo := fun _ w => (true, w).
#[local] Instance env_demo_host : MmcHost env_demo := fun c d w =>
  let '(r, v) := demo_send c d (dw_card w) in (r, DemoWorld (dw_globals w) v).
#[local] Instance env_demo_world : EnvWorld env_demo := {|
  env_globals_of := dw_globals;
  set_env_globals g w := DemoWorld g (dw_card w);
  default_environment := export_text 0 demo_defaults ++ [0];
  attr_before := [1];
  serial_setbrg _ := mret ();
  typed _ := 1%nat;
  getc := mret 13;
  console_assign _ _ := mret 0 |}.

#[local] Instance env_demo_quiet : QuietWorld env_demo.
Proof. constructor; [done|done|done|]. by left. Qed.

#[local] Instance env_demo_laws : CardLaws env_demo (erase_grp_size demo_emmc).
Proof.
  refine {| disk w := disk (CardLaws := demo_laws) (dw_card w);
            group_start w := group_start (CardLaws := demo_laws) (dw_card w);
            group_end w := group_end (CardLaws := demo_laws) (dw_card w);
            erased_byte := erased_byte (CardLaws := demo_laws) |}; intros.
  - pose proof (card_write (CardLaws := demo_laws) idx arg d (dw_card v)) as Hl.
    unfold send_cmd, env_demo_host. unfold send_cmd, demo_host in Hl. destruct (demo_send _ _ _). by apply Hl.
  - pose proof (card_read (CardLaws := demo_laws) idx arg n (dw_card v)) as Hl.
    unfold send_cmd, env_demo_host. unfold send_cmd, demo_host in Hl. destruct (demo_send _ _ _). by apply Hl.
  - pose proof (card_start (CardLaws := demo_laws) s (dw_card v)) as Hl.
    unfold send_cmd, env_demo_host. unfold send_cmd, demo_host in Hl. destruct (demo_send _ _ _). by apply Hl.
  - pose proof (card_end (CardLaws := demo_laws) e (dw_card v)) as Hl.
    unfold send_cmd, env_demo_host. unfold send_cmd, demo_host in Hl. destruct (demo_send _ _ _). by apply Hl.
  - pose proof (card_erase (CardLaws := demo_laws) arg (dw_card v)) as Hl.
    unfold send_cmd, env_demo_host. unfold send_cmd, demo_host in Hl. destruct (demo_send _ _ _). by apply Hl.
  - pose proof (card_other (CardLaws := demo_laws) idx arg (dw_card v)) as Hl.
    unfold send_cmd, env_demo_host. unfold send_cmd, demo_host in Hl. destruct (demo_send _ _ _). by apply Hl.
Defined.

Lemma env_demo_globals c d w : env_globals_of (send_cmd c d w).2 = env_globals_of w.
Proof. unfold send_cmd, env_demo_host. by destruct (demo_send _ _ _). Qed.
Lemma env_demo_healthy c d (w : env_demo) : MmcBlock.ready (send_cmd c d w).1.
Proof.
  pose proof (demo_healthy c d (dw_card w)) as Hl. unfold send_cmd, env_demo_host.
  unfold send_cmd, demo_host in Hl. by destruct (demo_send _ _ _).
Qed.

(** Some time after a start, and at a start. *)
Definition ready_globals : env_globals :=
  EnvGlobals true true 1 [] (replicate 32 0) 115200 0 (replicate (Z.to_nat sizeof_BootFile) 0)
    false PNull false PNull 1.
Definition start_globals : env_globals :=
  EnvGlobals false true 1 (default_environment (W := env_demo)) (replicate 32 0) 115200 0
    (replicate (Z.to_nat sizeof_BootFile) 0) true PNull true PNull 1.
Definition env_later : env_demo := DemoWorld ready_globals demo_blank.
Definition env_start : env_demo := DemoWorld start_globals demo_blank.

Lemma env_later_quiet : quiet true 115200 env_later.
Proof. repeat split; done. Qed.

Lemma demo_at_start card : at_start 115200 (DemoWorld start_globals card).
Proof. repeat split. Qed.

(** Entering variables one after another into a small table. *)
Definition demo_enter (e : bytes * bytes) (p : hsearch_data * env_demo) : hsearch_data * env_demo :=
  match hsearch_r e.1 (Some e.2) ENTER p.1 0 p.2 with Ret (_, t, w) => (t, w) | Crash _ => p end.
Definition demo_session (l : list (bytes * bytes)) : hsearch_data * env_demo :=
  foldl (fun p e => demo_enter e p) (empty_table 7, env_later) l.

Lemma demo_empty_ok : tab_ok (empty_table 7) ∧ to_map (empty_table 7) = ∅ ∧ taken (empty_table 7) = 0.
Proof. apply empty_table_ok; [by apply prime_of_isprime|done]. Qed.

Lemma demo_enter_ok e p : tab_ok p.1 → taken p.1 < size p.1 → tab_ok (demo_enter e p).1.
Proof.
  intros Ht Hroom. unfold demo_enter. destruct (hsearch_r _ _ _ _ _ _) as [[[r t] w]|] eqn:E; [|done].
  apply hsearch_enter_refines in E; [|done|by left]. inversion E as [| | |? (n & w' & Hm)]; subst; done.
Qed.

Definition demo_vars : list (bytes * bytes) := [(str "bootdelay", str "1"); (str "baudrate", str "115200")].
Definition demo_table : hsearch_data := (demo_session demo_vars).1.

Lemma demo_table_ok : tab_ok demo_table.
Proof.
  unfold demo_table, demo_session, demo_vars. cbn [foldl].
  apply demo_enter_ok; [apply demo_enter_ok; [apply demo_empty_ok|]|]; vm_compute; reflexivity.
Qed.

Lemma demo_variables : variables demo_table = demo_vars ∨ variables demo_table = reverse demo_vars.
Proof. vm_compute. tauto. Qed.

#[local] Ltac decided := apply (bool_decide_unpack _); vm_compute; exact I.

Lemma demo_acceptable : acceptable 115200 (str "bootdelay") (str "1") ∧ acceptable 115200 (str "baudrate") (str "115200")
  ∧ acceptable 115200 (str "lock") (str "10001000").
Proof. split_and!; (split; [split; [done|decided]|]); vm_compute; done. Qed.

Lemma demo_var_ok : Forall (var_ok 0) demo_defaults.
Proof.
  unfold demo_defaults. repeat apply Forall_cons_2; [..|by apply Forall_nil];
    (split; [eexists _, _; split; [reflexivity|split; [reflexivity|done]]|]); split; try decided; (split; [done|decided]).
Qed.

Lemma demo_storable : storable 115200 demo_table.
Proof.
  assert (Hv : variables demo_table = demo_vars) by (vm_compute; reflexivity).
  destruct demo_acceptable as (Hd & Hb & _). pose proof demo_var_ok as Hok. unfold demo_defaults in Hok.
  rewrite !Forall_cons in Hok. destruct Hok as (Hokb & Hokd & _).
  split; [apply demo_table_ok|rewrite Hv|rewrite Hv; by vm_compute|rewrite Hv; by vm_compute].
  unfold demo_vars. apply Forall_cons_2; [|apply Forall_cons_2; [|by apply Forall_nil]].
  - do 3 (split; [decided|]). split; [exact Hokd|exact Hd].
  - do 3 (split; [decided|]). split; [exact Hokb|exact Hb].
Qed.

Lemma demo_defaults_ok : defaults 115200 demo_defaults.
Proof.
  split; [by exists 0%nat|by vm_compute| |decided|by vm_compute].
  destruct demo_acceptable as (Hd & Hb & Hl). pose proof demo_var_ok as Hok. unfold demo_defaults in *.
  rewrite !Forall_cons in *. destruct Hok as (? & ? & ? & ?). split_and!; done.
Qed.

Lemma setenv_refines_witness :
  ∃ rc t' w', EnvCmd.setenv (str "bootdelay") (Some (str "1")) (empty_table 7) env_later = Ret (rc, t', w') ∧ rc = 0 ∧
    to_map t' = {[str "bootdelay" := str "1"]}.
Proof.
  destruct (setenv_refines 115200 (empty_table 7) (str "bootdelay") (str "1") env_later)
    as (rc & t' & w' & Hr & _ & _ & _ & _ & Hrc & Hm & _).
  - split; [apply demo_empty_ok|apply stamped_empty].
  - by vm_compute.
  - apply env_later_quiet.
  - split; [done|decided].
  - rewrite decide_False by done. exact (proj1 demo_acceptable).
  - exists rc, t', w'. split_and!; [done|apply Hrc; by left|]. rewrite Hm. by rewrite (proj1 (proj2 demo_empty_ok)).
Defined.

(** A read-only variable, declared with the variable .flags. *)
Definition readonly_table : hsearch_data :=
  (demo_session [(str "serial", str "42"); (str ".flags", str "serial:sr")]).1.

Lemma readonly_kept_witness :
  ∃ w', EnvCmd.setenv (str "serial") (Some (str "43")) readonly_table env_later = Ret (1, readonly_table, w').
Proof.
  apply (readonly_kept readonly_table (str "serial") (Z.lor ENV_FLAGS_VARACCESS_PREVENT_OVERWR
    (Z.lor ENV_FLAGS_VARACCESS_PREVENT_DELETE ENV_FLAGS_VARACCESS_PREVENT_CREATE))).
  - unfold readonly_table, demo_session. cbn [foldl].
    apply demo_enter_ok; [apply demo_enter_ok; [apply demo_empty_ok|]|]; vm_compute; reflexivity.
  - exists (first_hash 7 (str "serial")). eexists. split; [vm_compute; reflexivity|]. by vm_compute.
  - by vm_compute.
  - by vm_compute.
  - split; [done|decided].
Defined.

(** The partition table, and where it puts the environment. *)
Definition demo_env_part : partitions := mkPartition (char16 (str "env")) 0x800000 0x4000000 1.
Definition demo_parts : tables := mkTables [] (Some (Iptbl [PARTITION_ELEMENT MMC_BOOT_NAME 0x400000 0; demo_env_part] 2)).

Lemma saved_environment_restored_witness :
  ∃ w1, saveenv [demo_emmc] demo_keys 0 (fun _ => true) (fun _ => mret 0) demo_parts EMMC_BOOT_FLAG
          (replicate (Z.to_nat ENV_SIZE) 0) demo_table env_later = Ret (0, w1)
    ∧ ∃ t' w3, mmc_env_relocate_part [demo_emmc] demo_keys 0 (fun _ => true) (fun _ => mret 0) demo_parts
                 EMMC_BOOT_FLAG [] (Hsearch None 0 0) (DemoWorld start_globals (dw_card w1)) = Ret (t', w3)
        ∧ to_map t' = to_map demo_table.
Proof.
  destruct (saved_environment_restored demo_emmc demo_is_emmc [demo_emmc] eq_refl demo_keys 0 (fun _ => true)
    (fun _ => mret 0) eq_refl env_demo_globals env_demo_healthy demo_parts demo_env_part 0x4000000 eq_refl eq_refl ltac:(lia) eq_refl
    ltac:(by vm_compute) eq_refl 115200 demo_table (replicate (Z.to_nat ENV_SIZE) 0) env_later demo_storable)
    as (w1 & Hs & _ & Hload).
  - rewrite zlen_replicate. reflexivity.
  - exists w1. split; [exact Hs|].
    destruct (Hload false [] (Hsearch None 0 0) (DemoWorld start_globals (dw_card w1)))
      as (t' & w3 & Hr & _ & Hm & _).
    + exact (start_quiet 115200 demo_defaults _ demo_defaults_ok (demo_at_start _)).
    + intros a. reflexivity.
    + left. reflexivity.
    + exists t', w3. split; [exact Hr|exact Hm].
Defined.


Lemma damaged_image_replaced_witness :
  let post := drop 1 (image_data demo_vars) in
  ∃ t' w', env_import (fun _ => mret 0) 0 (le_encode 4 (env_crc (good_image demo_vars)) ++ 120 :: post) true
      (Hsearch None 0 0) env_start = Ret (0, t', w')
    ∧ to_map t' = list_to_map demo_defaults.
Proof.
  intros post.
  destruct (damaged_image_replaced false 115200 demo_defaults (fun _ => mret 0) 0 demo_table demo_vars [] 98 120 post
    (Hsearch None 0 0) env_start demo_storable) as (t' & w' & Hr & _ & Hm & _).
  - assert (Hv : variables demo_table = demo_vars) by (vm_compute; reflexivity). by rewrite Hv.
  - reflexivity.
  - split; lia.
  - lia.
  - exact demo_defaults_ok.
  - by left.
  - exact (start_quiet 115200 demo_defaults _ demo_defaults_ok (demo_at_start _)).
  - exists t', w'. split; [exact Hr|exact Hm].
Defined.

(** ** What the code gets wrong *)

(** The table of seven slots with the variables a to g, without c, and what
    entering the variable h into it gives. *)
Definition letters (s : bytes) : list (bytes * bytes) := (fun c => ([c], str "1")) <$> s.
Definition worn_table : hsearch_data :=
  match hdelete_r (str "c") (demo_session (letters (str "abcdefg"))).1 0 env_later with
  | Ret (_, _, t, _) => t
  | Crash _ => empty_table 7
  end.

(** Entering a variable in a table without an unused slot, where its own first
    slot is taken by another one. *)
Lemma enter_worn B t k v k0 v0 s flag w : env_ok t → quiet true B w → acceptable B k v →
  (∀ i s, 1 ≤ i ≤ size t → slot_at t i = Ret s → used s ≠ 0) → filled t < size t →
  to_map t !! k = None → slot_at t (first_hash (size t) k) = Ret s → live (cell s) = Some (k0, v0) →
  static_callback k0 = None → static_flags k0 = 0 →
  ∃ r t' w', hsearch_r k (Some v) ENTER t flag w = Ret (Hret r (Some (first_hash (size t) k)) 0, t', w') ∧
    filled t' = filled t + 1 ∧ ¬ tab_ok t' ∧
    to_map t' = <[k := v]> (delete k0 (to_map t)).
Proof.
  intros [(l & Hl & Hok) Hst] Hq Hacc Hused Hfill Hnone Hs Hlive Hcb Hfl.
  assert (Hh := first_hash_range (size t) (c_size _ _ _ Hok) k).
  apply slot_at_Ret in Hs as (l' & Hl' & _ & Hs). rewrite Hl in Hl'. injection Hl' as <-.
  assert (Hu : 0 < used s).
  { apply live_Some in Hlive as (u & E & ?). unfold cell in E. by injection E as -> _ _. }
  assert (Hss : stamped_slot s).
  { unfold stamped in Hst. rewrite Hl in Hst. by eapply Forall_lookup_1. }
  unfold stamped_slot in Hss. rewrite Hlive, Hcb, Hfl in Hss. destruct Hss as [Hc0 Hf0].
  destruct (hsearch_cases t l Hl Hok k (Some v) ENTER flag w)
    as [(i & Hi & (s' & Hs' & Hu' & Hk') & _)|(Hno & i & (Hi & Hdel & Hfor) & Heq)].
  { destruct (matches_lookup t l Hl Hok k i s') as (v' & _ & Hv' & _); [lia|done..|congruence]. }
  assert (i = first_hash (size t) k) as ->.
  { destruct Hfor as [[[H0|H1] _]|(-> & _)]; [|by apply Hdel|done].
    destruct (slot_at_cell t l i Hl Hok) as (s' & Hsl & Hs'); [lia|].
    rewrite (slot_used l i s' Hs') in H0. by destruct (Hused i s' Hi Hsl). }
  destruct (enter_new_run true B t l k v flag _ s w Hl Hok Hi Hs Hc0 Hf0 Hfill Hacc Hq) as (w' & Hr & _).
  destruct (no_match_None t l Hl Hok k Hno) as [_ Habs].
  destruct (store_overwrite t l Hl Hok k v _ (entered (size t) k v) s k0 v0 eq_refl Hs Hlive eq_refl Habs)
    as [Ht' Hm].
  eexists _, _, w'. split_and!; [by rewrite Heq|done| |done].
  intros Hbad. assert (E := tab_filled _ Ht'). assert (E' := tab_filled _ Hbad). cbn [filled set_filled] in *.
  change (variables (set_filled ?x _)) with (variables x) in *. lia.
Qed.

(** C39: when every slot of the table has been used once, entering a variable
    overwrites another one.  Only the first slot of the search is remembered as
    deleted; when that one is taken and no slot is unused, the search comes back
    to it and the new variable replaces the one that is there, although the
    table has deleted slots.  [setenv] reports success, the other variable is
    gone, and the table counts one variable too many. *)
Theorem entering_loses_variable B t k v k0 v0 s w : env_ok t → quiet true B w → plain k →
  acceptable B k v → v ≠ [] →
  (∀ i s, 1 ≤ i ≤ size t → slot_at t i = Ret s → used s ≠ 0) → filled t < size t →
  to_map t !! k = None → slot_at t (first_hash (size t) k) = Ret s → live (cell s) = Some (k0, v0) →
  static_callback k0 = None → static_flags k0 = 0 →
  ∃ t' w', EnvCmd.setenv k (Some v) t w = Ret (0, t', w') ∧
    to_map t !! k0 = Some v0 ∧ to_map t' !! k0 = None ∧
    to_map t' = <[k := v]> (delete k0 (to_map t)) ∧
    filled t' = filled t + 1 ∧ ¬ tab_ok t'.
Proof.
  intros Ht Hq Hk Hacc Hv Hused Hfill Hnone Hs Hlive Hcb Hfl.
  destruct (setenv_enters B t k v w Hq Hk Hv) as (w2 & Hq2 & Hset).
  destruct (enter_worn B t k v k0 v0 s H_INTERACTIVE w2) as (r & t' & w' & Hr & Hn & Hbad & Hm); auto.
  assert (Hk0 : to_map t !! k0 = Some v0).
  { destruct Ht as [Ht _]. apply to_map_lookup; [done|]. destruct Ht as (l & Hl & Hok).
    apply slot_at_Ret in Hs as (l' & Hl' & _ & Hs). rewrite Hl in Hl'. injection Hl' as <-.
    apply (variables_here t l Hl). apply live_Some in Hlive as (u & Hc & Hu).
    exists (Z.to_nat (first_hash (size t) k)), u. by rewrite list_lookup_fmap, Hs, <- Hc. }
  exists t', w'. split_and!; [by eapply Hset|done| |done..].
  rewrite Hm, lookup_insert_ne by congruence. apply lookup_delete_eq.
Qed.

Lemma demo_enter_env_ok e p : acceptable 115200 e.1 e.2 → env_ok p.1 → quiet true 115200 p.2 →
  taken p.1 < size p.1 →
  env_ok (demo_enter e p).1 ∧ quiet true 115200 (demo_enter e p).2 ∧
  size (demo_enter e p).1 = size p.1 ∧ taken (demo_enter e p).1 ≤ taken p.1 + 1.
Proof.
  intros Hacc [Ht Hst] Hq Hroom.
  destruct (enters_insert (settling true 115200) 0 e p.1 p.2 (acceptable_enters true 115200 0 e Hacc) Ht Hroom)
    as (r & i & t' & w' & Hh & (Hst' & Hq' & _) & Ht' & Hsz & Htk & _).
  { split_and!; [done|done|]. intros _. by apply (quiet_called 115200). }
  unfold demo_enter. rewrite Hh. by split_and!.
Qed.

Lemma demo_session_ok l p : Forall (fun e => acceptable 115200 e.1 e.2) l → env_ok p.1 →
  quiet true 115200 p.2 → taken p.1 + zlen l ≤ size p.1 →
  env_ok (foldl (fun p e => demo_enter e p) p l).1.
Proof.
  intros Hl. revert p. induction Hl as [|e l He Hl IH]; intros p Ht Hq Hroom; [done|].
  assert (Hz := zlen_nonneg l). rewrite zlen_cons in Hroom. cbn [foldl].
  destruct (demo_enter_env_ok e p He Ht Hq ltac:(lia)) as (Ht' & Hq' & Hsz & Htk).
  apply IH; [done|done|lia].
Qed.

Lemma worn_session_ok : env_ok (demo_session (letters (str "abcdefg"))).1.
Proof.
  apply demo_session_ok; [|split; [apply demo_empty_ok|apply stamped_empty]|apply env_later_quiet|by vm_compute].
  unfold letters. apply Forall_fmap, Forall_forall. intros c Hc. cbn. unfold str in Hc. cbn in Hc.
  rewrite !elem_of_cons, elem_of_nil in Hc.
  destruct_or! Hc; subst; try done; (split; [split; [done|decided]|]); vm_compute; done.
Qed.

Lemma worn_table_ok : env_ok worn_table.
Proof.
  destruct (delete_quiet (demo_session (letters (str "abcdefg"))).1 (str "c") 0 env_later worn_session_ok eq_refl)
    as (t & Hd & Ht & _). unfold worn_table. rewrite Hd. by destruct (decide _).
Qed.

Lemma worn_table_used i s : 1 ≤ i ≤ size worn_table → slot_at worn_table i = Ret s → used s ≠ 0.
Proof.
  change (size worn_table) with 7. intros Hi.
  assert (Hc : i = 1 ∨ i = 2 ∨ i = 3 ∨ i = 4 ∨ i = 5 ∨ i = 6 ∨ i = 7) by lia.
  destruct_or! Hc; subst i; intros H; vm_compute in H; injection H as <-; done.
Qed.

Lemma entering_loses_variable_witness :
  to_map worn_table !! str "a" = Some (str "1") ∧
  ∃ t' w', EnvCmd.setenv (str "h") (Some (str "2")) worn_table env_later = Ret (0, t', w') ∧
    to_map t' !! str "a" = None.
Proof.
  assert (Hh : ∃ s, slot_at worn_table (first_hash (size worn_table) (str "h")) = Ret s ∧
    live (cell s) = Some (str "a", str "1")).
  { eexists. split; vm_compute; reflexivity. }
  destruct Hh as (s & Hs & Hlive).
  destruct (entering_loses_variable 115200 worn_table (str "h") (str "2") (str "a") (str "1") s env_later)
    as (t' & w' & Hr & Ha & Ha' & _).
  - apply worn_table_ok.
  - apply env_later_quiet.
  - clear. split; [done|decided].
  - clear. split; [split; [done|decided]|]. vm_compute. done.
  - clear. done.
  - exact worn_table_used.
  - clear. by vm_compute.
  - clear. by vm_compute.
  - exact Hs.
  - exact Hlive.
  - reflexivity.
  - reflexivity.
  - split; [exact Ha|]. exists t', w'. split; [exact Hr|exact Ha'].
Defined.

(** A value of backslashes: the room is checked without those that escape them,
    and the text is written past the end of the buffer. *)
Example export_overflows :
  let t := (demo_session [(str "a", replicate 8 92)]).1 in
  need 0 (variables t) + 1 ≤ 14 ∧
  hexport_r t 0 0 (Some (replicate 14 0)) 14 [] env_later = Crash OutOfBounds.
Proof. split; [by vm_compute|]. vm_compute. reflexivity. Qed.

(** An option without a name: the name is a null pointer. *)
Example set_option_alone t (w : env_demo) :
  do_env_set [str "setenv"; str "-f"] t w = Crash NullDeref.
Proof. reflexivity. Qed.

(** The flag of [env default -f] has no effect. *)
Lemma default_force_ignored {W} {HW : Heap W} {EW : EnvWorld W} names t (w : W) :
  do_env_default (str "default" :: str "-f" :: names) t w = do_env_default (str "default" :: names) t w.
Proof. reflexivity. Qed.
